(* ===== verification/_CoqProject ===== *)
-Q . S2P
Prelude.v
Floats.v
Profile.v
FloatReal.v
ThreadPool.v
KvTypes.v
KvPlan.v
KvLadder.v
KvInv.v
KvFrame.v
KvSwapOut.v
KvSwapOutThms.v
KvGrow.v
KvOffload.v
KvOffloadThms.v
KvSwapIn.v
Weight.v
WeightOps.v
WeightOpsThms.v
WeightLayers.v
WeightCycle.v
WeightExample.v
KvWorkers.v
KvRestore.v
KvRestoreW.v
KvSystem.v
KvSystemInv.v
KvProgress.v
KvCore.v
KvStart.v
KvCycle.v
KvFinish.v
KvDone.v
Swapout.v
SwapoutThms.v
SwapoutRun.v
SwapPlan.v
CoreCtor.v
SwapoutCycle.v
Decode.v
Flexgen.v
FlexgenThms.v
FlexgenError.v
FlexgenCodec.v
FlexgenBound.v
RangeCoder.v
RangeCoderBits.v
RangeCoderThms.v
RangeCoderRound.v
Cachegen.v
CachegenThms.v
CachegenError.v
CachegenCodec.v
CachegenExample.v
KvOps.v
KvOpsThms.v
KvCells.v
KvUnified.v
KvUnifiedGrow.v
KvCellsThms.v
KvSlots.v
KvApply.v
KvState.v
KvStateRows.v
KvSession.v
KvUnifiedCtor.v
KvSeqOps.v
KvBatch.v
KvMask.v
KvPrepare.v
KvBatchRun.v
KvCopy.v
KvDefrag.v
KvDefragPlan.v
KvDefragThms.v
KvExample.v
KvWitness.v
SwapoutWitness.v
KvUnifiedWitness.v
KvBatchWitness.v
