(* ===== verification/Prelude.v ===== *)
(** * A verification library for mzCache

    mzCache keeps the KV cache (and some weight layers) of an on-device LLM
    within a memory budget: when its application goes to the background the core
    swaps KV chunks out - by compressing them into arenas, storing them to files
    and, at last, offloading the arenas - and brings them back, overlapped with
    decoding, when the application returns.  This library models that core, the
    C++ of [mzcache/] on top of llama.cpp, and proves it correct.

    ** The program and the files

    - Device profile ([mzcache_profile.cpp], [.h]): which compression backend is
      built, SoC tables, the profile file, the constants derived from it.
      [Profile]; the IEEE arithmetic of all files is [Floats], the real numbers
      behind it [FloatReal].
    - Worker pool and layer counters ([mzcache_threadpool.h], [LayerSync] of
      [mzcache_core.h]): [ThreadPool], a step relation over critical sections.
    - KV state, data ([mzcache_types.h], [mzcache_kv_state.h]): [KvTypes]
      (chunk tables, arenas, SVM memory as a heap of blocks, files, cursors and
      counters).  The plan of which chunks are compressed and which stored
      ([derive_swapout_plan]): [KvPlan].
    - KV state, swap-out ladder ([mzcache_compress_chunks],
      [mzcache_store_chunks]): definitions [KvLadder]; invariants and the content
      view [KvInv]; lemmas [KvFrame], [KvSwapOut], [KvSwapOutThms].  Construction
      and growth: [KvGrow].  Arena offload and reload: [KvOffload],
      [KvOffloadThms].
    - Weights, the bookkeeping ([mzcache_weight.cpp]): [Weight].  Weights on the
      device ([mzcache_weight_ops.cpp], and what it uses of [ggml-alloc.c],
      [ggml-backend.cpp], [ggml-opencl.cpp] and the layer table of
      [llama-model.cpp]): definitions [WeightOps]; unloading, reloading and their
      invariant [WeightOpsThms]; the model's own allocation and one layer
      through its dump [WeightLayers]; the bookkeeping run on the device
      [WeightCycle]; two small models [WeightExample].
    - Swap-in ([mzcache_enqueue_*], [mzcache_load_*], the workers, the four
      [swapin_generate*] variants, [finish_swapin_cycle]): the main-thread
      functions return the actions they issue ([KvSwapIn]); the task bodies run
      against a shared world ([KvWorkers]); [KvSystem] interleaves the two;
      [KvCore] composes the variants.  [KvRestore], [KvRestoreW], [KvSystemInv]
      are the invariant and its preservation, [KvProgress] progress and the
      measure, [KvStart] the initial state, [KvCycle], [KvFinish], [KvDone] the
      theorems.
    - Swap-out orchestration ([swapout], [swapout_impl] of [mzcache_core.cpp]):
      [Swapout], [SwapoutThms], [SwapoutRun]; the planner
      [mzcache_profile_chunks_layers]: [SwapPlan]; the core's constructor:
      [CoreCtor]; whole sessions: [SwapoutCycle]; [decode_chunk_aligned]: [Decode].
    - FLEXGEN backends ([kernels/compress.cpp], [kernels/decompress.cpp]):
      [Flexgen], [FlexgenThms], [FlexgenError], [FlexgenCodec], [FlexgenBound].
    - CACHEGEN backend ([kernels/cachegen_utils.cpp], [kernels/compress.cpp],
      [kernels/decompress.cpp]): the range coder [RangeCoder] (definitions),
      [RangeCoderBits] (the bytes as a binary number), [RangeCoderThms] (the
      encoder's exact interval and the decoder following it), [RangeCoderRound];
      quantisation, tables, dequantisation and the functions the KV state calls
      [Cachegen]; [CachegenThms] (tables), [CachegenError] (rounding),
      [CachegenCodec] (composition), [CachegenExample].
    - Unified KV cache on chunked memory ([src/llama-kv-cache-unified.cpp],
      [src/llama-kv-cells.h], [mzcache_kv_ops.cpp]): chunk-wise session I/O and
      runtime chunks [KvOps], cells [KvCells], the cache - construction, growth,
      clearing, sequences, slots, session state - [KvUnified].  Theorems: a tensor
      over its chunks as one flat row array [KvOpsThms]; growth and the invariant
      of cache and core [KvUnifiedGrow]; cells [KvCellsThms]; [find_slot]
      [KvSlots]; [apply_ubatch] [KvApply]; session state [KvState] (cells),
      [KvStateRows] (rows), [KvSession] (whole); construction [KvUnifiedCtor].
      Sequences ([seq_rm], [seq_keep], [seq_cp], [seq_add], [seq_div]): [KvSeqOps].
      Defragmentation and updates ([init_update], [defrag_prepare], [update]):
      definitions [KvDefrag]; the plan [KvDefragPlan]; its application
      [KvDefragThms].
    - Batches ([split_simple] of [src/llama-batch.cpp]; [prepare], [init_batch], the
      memory context, [get_n_kv] and the attention mask of
      [src/llama-kv-cache-unified.cpp]; the loop of [llama_context::decode]):
      definitions and splitting [KvBatch]; preparing [KvPrepare]; the mask
      [KvMask]; a batch from start to end [KvBatchRun]; the copies that write a
      piece into the chunks ([cpy_k], [cpy_v], [ggml_cl_cpy]) [KvCopy].
    - [KvExample], [KvWitness], [SwapoutWitness], [KvUnifiedWitness],
      [KvBatchWitness]: the theorems applied to a small concrete cache.

    ** Conventions

    Code that can fail returns an [outcome]: a value, a C++ exception, or
    undefined behaviour, which is never given a value - so a theorem that an
    operation returns [Ok] also says that no array index, pointer, [assert] or
    division of it is out of range.  Arrays are functions updated at an index;
    [int] and [size_t] are [Z], with wrap-around written out where it can matter;
    chunks are positions (layer, chunk).  Definitions keep the names of the code.

    ** Parameters

    The compression backend is the class [Codec] with its laws [CodecLaws]: a
    compressed pair fits its arena slot, a chunk comes back with its length, and
    decompression reads nothing past its input.  [FlexgenCodec] proves the laws
    for the FLEXGEN backends; [KvExample] uses a copying codec.  CACHEGEN is not
    an instance: what it decodes depends on metadata beside the chunk, and its
    sizes vary; its theorems stand on their own.  What the
    operating system and the drivers answer are the classes [Env] (allocation,
    [mlock], opening and writing files), [ReloadEnv] and [SwapEnv] (swap files,
    memory readings), [WeightEnv] (weight dumps).  What the OpenCL driver
    answers an allocation of device memory is the class [WeightDriver].  The decoder
    of llama.cpp is a parameter of [Decode], the graph computation one of
    [KvBatch].

    The device model of the weights takes whole operations on different layers as
    its steps: two tasks of the pool touch disjoint tensors and buffers, and a
    layer's read waits for its allocation.

    ** Theorems

    - Sessions: [session_cycle] composes swap-out, any swap-in variant under any
      interleaving and the clean-up, back to the state of rest; [swapout_spec] and
      [swapin_complete] are its halves.  "Content" is [view]: what a chunk reads
      as, wherever it is; compression may replace it by one codec round trip.
    - Concurrency: [swapin_layers_restored] (a completed [LayerSync] means a
      restored layer), [swapin_terminates] (no deadlock, bounded runs),
      [decode_after_restore], and the pool's [wait_idle_sound],
      [wait_idle_all_sound].
    - The unified cache: a saved session read back ([kv_session_roundtrip]),
      growth ([mz_grow_chunks_ok]), placing a batch ([place_ubatch_spec]),
      construction ([kv_unified_ctor_ok]), and the use of freed memory by clearing
      after a swap-out ([clear_after_swap_frees]).
    - Batches: every token of a batch gets a cell of its own ([batch_lifecycle]),
      a token sees exactly the positions of its sequence up to its own
      ([mask_shows_history]), a piece that [decode_chunk_aligned] cuts is written
      to the rows of its cells ([in_order_piece_stored]), and one that fails is
      taken out again ([failed_piece_removed]).
    - Defragmentation: its plan ([defrag_prepare_ok]), cells and rows move together
      within the base tensors ([defrag_keeps_tokens]), and beyond them no update is
      possible ([updates_abort]).
    - Weight layers: a layer dumped, unloaded and reloaded has its bytes back
      ([weight_layer_roundtrip]), any number of layers go out and come back as the
      bookkeeping says ([weights_out_and_in]), and where a second dump differs
      ([reloaded_layer_dump]).
    - The KV state's operations: ladder, offload, plan, enqueue functions, growth
      and constructor, each with the invariants [ladder_ok] and [mem_ok].
    - Orchestration: the planner follows [swapout], its bounds, and where it
      overruns; a core with a usable profile starts, one without refuses; the
      offload phase that never ends.
    - FLEXGEN: error bound against the real values, the packing round trip,
      independence of threads, the codec laws, and the overflow at the edge of the
      format.
    - CACHEGEN: the range coder's round trip and the tables it needs, the error
      bound of a chunk through the whole backend, a chunk the coder damages, and
      what metadata do that are older than the cache.

    ** Loops and fuel

    [swapout] loops at most once per chunk: phase 1 gets
    [MAX_CHUNKS_PER_TENSOR * MAX_NUM_LAYERS] rounds, phase 2 one per layer, phase 3 [MAX_NUM_LAYERS]; [swapout_spec]
    proves they return before the fuel ends.  The planner gets [total_chunks]
    rounds, the decoding loop one per token; their theorems prove it enough.  The
    swap-in is a step relation without fuel, with a decreasing measure.  The range
    coder's [while (range <= QUARTER)] gets 31 doublings, which a range of at least
    1 never exceeds, its binary search one round per code, a run of bits one round
    per bit; where the fuel would not be enough the result is undefined behaviour,
    so the round trip says that it is.
    [find_slot] gets twice the number of cells and three rounds: it wraps at most
    twice and every other round moves its cursor.
    Splitting a batch gets one round more than it has tokens, the decoding loop of
    its pieces one per piece.  The searches of a defragmentation get one round more
    than the cells they range over.

    ** Not modelled

    Log output and timing, CPU affinity, the profiler's measuring loops, and
    ggml and llama.cpp below the decoder interface, which are third-party code, as
    are the baselines' copies of them.  NaN payloads of halves.  The older variants
    of the CACHEGEN coder in the same files (inclusive intervals, SIMD search),
    which the KV state does not call, and its dequantisation without half-precision
    vectors.  Of the unified cache: graph building beyond the copies into the cache and
    of a defragmentation, the layer filter, position buckets, the other ways to
    split a batch ([split_equal], [split_seq]), the memory context for a full
    cache, and the collection of outputs; the copies of a defragmentation do what
    [ggml_cpy] documents, which the OpenCL backend refuses for the chunks; a stream a session is written to is
    taken to have room (its callers ask for the size first), and restoring one
    sequence is modelled but has no theorem of its own.  Of the weights: views,
    the flattened layout of quantised tensors ([GGML_OPENCL_SOA_Q]), and reading
    the model file. *)
From Stdlib Require Export ZArith Lia Bool.
From stdpp Require Export base list numbers functions option gmap strings.
#[export] Set Default Goal Selector "!".
#[global] Open Scope Z_scope.

(** ** Outcomes of C++ code

    A statement either produces a value, throws a C++ exception, or has
    undefined behaviour (an out-of-range array index, a null dereference, a
    failed [assert]).  The model never gives a value to undefined behaviour. *)
Inductive outcome (A : Type) : Type :=
| Ok (a : A)
| Throw
| Ub.
Arguments Ok {A} a.
Arguments Throw {A}.
Arguments Ub {A}.

Definition obind {A B} (c : outcome A) (k : A → outcome B) : outcome B :=
  match c with Ok a => k a | Throw => Throw | Ub => Ub end.

Declare Scope mz_scope.
Notation "x <~ c ;; k" := (obind c (λ x, k))
  (at level 100, c at next level, right associativity) : mz_scope.
Notation "' x <~ c ;; k" := (obind c (λ y, match y with x => k end))
  (at level 20, x pattern, c at level 99, k at level 200) : mz_scope.
Open Scope mz_scope.

Lemma obind_ok {A B} (c : outcome A) (k : A → outcome B) b :
  obind c k = Ok b → ∃ a, c = Ok a ∧ k a = Ok b.
Proof. destruct c; simpl; [eauto | done | done]. Qed.

(** [assert] and [GGML_ASSERT]. *)
Definition assert_that (b : bool) : outcome unit := if b then Ok tt else Ub.

(** A loop whose rounds each yield a value. *)
Fixpoint otraverse {A B} (f : A → outcome B) (l : list A) : outcome (list B) :=
  match l with
  | [] => Ok []
  | a :: l => b <~ f a ;; bs <~ otraverse f l ;; Ok (b :: bs)
  end.

Lemma otraverse_ok {A B} (f : A → outcome B) (g : A → B) (l : list A) :
  (∀ a, a ∈ l → f a = Ok (g a)) → otraverse f l = Ok (g <$> l).
Proof.
  induction l as [|a l IH]; intros H; [done|]. cbn [otraverse].
  rewrite (H a) by left. cbn [obind]. by rewrite IH by (intros; apply H; by right).
Qed.

(** A loop over a list whose rounds change a state. *)
Fixpoint ofold {S A} (f : A → S → outcome S) (l : list A) (s : S) : outcome S :=
  match l with
  | [] => Ok s
  | a :: l => s' <~ f a s ;; ofold f l s'
  end.

Lemma ofold_app {S A} (f : A → S → outcome S) (l l' : list A) (s : S) :
  ofold f (l ++ l') s = obind (ofold f l s) (ofold f l').
Proof.
  revert s. induction l as [|a l IH]; intros s; [done|]. cbn [app ofold].
  destruct (f a s); [apply IH|done|done].
Qed.

(** A loop whose rounds each append what [g] says. *)
Lemma ofold_append {A B} (f : A → list B → outcome (list B)) (g : A → list B) (l : list A) (s : list B) :
  (∀ a s, a ∈ l → f a s = Ok (s ++ g a)) → ofold f l s = Ok (s ++ concat (g <$> l)).
Proof.
  revert s. induction l as [|a l IH]; intros s H; cbn [ofold fmap list_fmap concat]; [by rewrite app_nil_r|].
  rewrite H by left. cbn [obind]. rewrite IH by (intros; apply H; by right). by rewrite app_assoc.
Qed.

(** ** Tactics *)

(** Case analysis on every [if] of the goal over a comparison of integers. *)
Ltac bool_case :=
  match goal with
  | |- context [if ?a <=? ?b then _ else _] => destruct (Z.leb_spec a b)
  | |- context [if ?a <? ?b then _ else _] => destruct (Z.ltb_spec a b)
  | |- context [if ?a =? ?b then _ else _] => destruct (Z.eqb_spec a b)
  | |- context [if ?a >? ?b then _ else _] => rewrite (Z.gtb_ltb a b)
  | |- context [if ?a >=? ?b then _ else _] => rewrite (Z.geb_leb a b)
  end.

(** Turn boolean facts in hypotheses into propositions. *)
Ltac propify :=
  repeat match goal with
  | H : context [Z.geb _ _] |- _ => rewrite Z.geb_leb in H
  | H : context [Z.gtb _ _] |- _ => rewrite Z.gtb_ltb in H
  | H : (_ <=? _) = true |- _ => apply Z.leb_le in H
  | H : (_ <=? _) = false |- _ => apply Z.leb_gt in H
  | H : (_ <? _) = true |- _ => apply Z.ltb_lt in H
  | H : (_ <? _) = false |- _ => apply Z.ltb_ge in H
  | H : (_ =? _) = true |- _ => apply Z.eqb_eq in H
  | H : (_ =? _) = false |- _ => apply Z.eqb_neq in H
  | H : (_ && _) = true |- _ => apply andb_prop in H; destruct H
  | H : (_ || _) = false |- _ => apply orb_false_elim in H; destruct H
  | H : (_ && _) = false |- _ => apply andb_false_iff in H; destruct H
  | H : (_ || _) = true |- _ => apply orb_true_iff in H; destruct H
  | H : negb _ = true |- _ => apply negb_true_iff in H
  | H : negb _ = false |- _ => apply negb_false_iff in H
  end.

(** ** Machine integers *)
Definition u16 (x : Z) : Z := x mod 2 ^ 16.
Definition u32 (x : Z) : Z := x mod 2 ^ 32.
Definition u64 (x : Z) : Z := x mod 2 ^ 64.
Definition u8 (x : Z) : Z := x mod 2 ^ 8.
(** Conversion to a signed 32-bit [int] (two's complement). *)
Definition i32 (x : Z) : Z := (x + 2 ^ 31) mod 2 ^ 32 - 2 ^ 31.

Lemma u8_id x : 0 <= x < 2 ^ 8 → u8 x = x.
Proof. apply Z.mod_small. Qed.
Lemma u16_id x : 0 <= x < 2 ^ 16 → u16 x = x.
Proof. apply Z.mod_small. Qed.
Lemma u32_id x : 0 <= x < 2 ^ 32 → u32 x = x.
Proof. apply Z.mod_small. Qed.
Lemma u64_id x : 0 <= x < 2 ^ 64 → u64 x = x.
Proof. apply Z.mod_small. Qed.

(** [(n + 4095) & ~4095], the page rounding the code repeats (arena sizes,
    O_DIRECT transfers). *)
Definition round_up_4k (n : Z) : Z := Z.land (n + 4095) (Z.lnot 4095).

Lemma round_up_4k_div n : round_up_4k n = (n + 4095) / 4096 * 4096.
Proof.
  unfold round_up_4k. change 4095 with (Z.ones 12) at 2.
  rewrite <- Z.ldiff_land, Z.ldiff_ones_r by lia.
  rewrite Z.shiftr_div_pow2, Z.shiftl_mul_pow2 by lia. reflexivity.
Qed.

Lemma round_up_4k_bounds n : 0 <= n → n <= round_up_4k n < n + 4096.
Proof.
  intros. rewrite round_up_4k_div.
  pose proof (Z_div_mod_eq_full (n + 4095) 4096).
  pose proof (Z.mod_pos_bound (n + 4095) 4096). lia.
Qed.

Lemma round_up_4k_aligned n : round_up_4k n mod 4096 = 0.
Proof. rewrite round_up_4k_div. apply Z_mod_mult. Qed.

Lemma round_up_4k_mono a b : a <= b → round_up_4k a <= round_up_4k b.
Proof.
  intros. rewrite !round_up_4k_div.
  apply Z.mul_le_mono_nonneg_r; [lia|]. apply Z.div_le_mono; lia.
Qed.

(** ** Sums over [0 .. n-1] *)
Fixpoint sum_to (f : Z → Z) (n : nat) : Z :=
  match n with O => 0 | S m => sum_to f m + f (Z.of_nat m) end.

Lemma sum_to_ext f g n :
  (∀ i, 0 <= i < Z.of_nat n → f i = g i) → sum_to f n = sum_to g n.
Proof.
  induction n as [|n IH]; intros H; [done|]. cbn [sum_to].
  rewrite (H (Z.of_nat n)) by lia. rewrite IH; [done|]. intros; apply H; lia.
Qed.

Lemma sum_to_le f g n :
  (∀ i, 0 <= i < Z.of_nat n → f i <= g i) → sum_to f n <= sum_to g n.
Proof.
  induction n as [|n IH]; intros H; cbn [sum_to]; [lia|].
  pose proof (H (Z.of_nat n) ltac:(lia)).
  assert (sum_to f n <= sum_to g n) by (apply IH; intros; apply H; lia). lia.
Qed.

Lemma sum_to_plus f g n : sum_to (λ i, f i + g i) n = sum_to f n + sum_to g n.
Proof. induction n; cbn [sum_to]; lia. Qed.

Lemma sum_to_minus f g n : sum_to (λ i, f i - g i) n = sum_to f n - sum_to g n.
Proof. induction n; cbn [sum_to]; lia. Qed.

Lemma sum_to_const c n : sum_to (λ _, c) n = c * Z.of_nat n.
Proof. induction n; cbn [sum_to]; lia. Qed.

Lemma sum_to_nonneg f n : (∀ i, 0 <= i < Z.of_nat n → 0 <= f i) → 0 <= sum_to f n.
Proof.
  intros H. transitivity (sum_to (λ _, 0) n); [rewrite sum_to_const; lia|].
  by apply sum_to_le.
Qed.

(** Changing one summand changes the sum by the difference. *)
Lemma sum_to_upd f k v n : 0 <= k < Z.of_nat n →
  sum_to (<[k:=v]> f) n = sum_to f n - f k + v.
Proof.
  induction n as [|n IH]; intros Hk; [lia|]. cbn [sum_to].
  destruct (decide (k = Z.of_nat n)) as [->|Hne].
  - rewrite fn_lookup_insert.
    rewrite (sum_to_ext (<[Z.of_nat n:=v]> f) f n); [lia|].
    intros i Hi. rewrite fn_lookup_insert_ne; [done|lia].
  - rewrite IH by lia. rewrite fn_lookup_insert_ne by lia. lia.
Qed.

(** A sum with one non-zero summand. *)
Lemma sum_to_single k c n : 0 <= k < Z.of_nat n → sum_to (λ j, if j =? k then c else 0) n = c.
Proof.
  intros Hk. rewrite (sum_to_ext _ (<[k := c]> (λ _, 0))).
  - rewrite sum_to_upd by done. rewrite sum_to_const. lia.
  - intros i Hi. destruct (Z.eqb_spec i k) as [->|Hne]; [by rewrite fn_lookup_insert|].
    by rewrite fn_lookup_insert_ne.
Qed.

(** A sum splits at an index. *)
Lemma sum_to_split f n k : (k <= n)%nat →
  sum_to f n = sum_to f k + sum_to (λ i, f (i + Z.of_nat k)) (n - k).
Proof.
  induction n as [|n IH]; intros Hk; [replace k with 0%nat by lia; done|].
  destruct (decide (k = S n)) as [->|Hne].
  - rewrite Nat.sub_diag. cbn [sum_to]. lia.
  - replace (S n - k)%nat with (S (n - k)) by lia. cbn [sum_to].
    rewrite IH by lia. replace (Z.of_nat (n - k) + Z.of_nat k) with (Z.of_nat n) by lia. lia.
Qed.

(** ** Counted loops

    [for (i = 0; i < n; ++i) body]: an iteration ends normally ([Next]), or
    leaves the loop by [break]/[return] ([Break]); in both cases it hands on the
    state it reached. *)
Inductive step (S : Type) : Type := Next (s : S) | Break (s : S).
Arguments Next {S} s.
Arguments Break {S} s.

Fixpoint for_loop {S} (n : nat) (body : S → outcome (step S)) (s : S) : outcome S :=
  match n with
  | O => Ok s
  | S n => r <~ body s ;;
           match r with Next s' => for_loop n body s' | Break s' => Ok s' end
  end.

(** A loop whose body always succeeds and keeps [P] succeeds and keeps [P]. *)
Lemma for_loop_inv {S} (P : S → Prop) body n s :
  (∀ s, P s → ∃ r, body s = Ok r ∧ match r with Next s' | Break s' => P s' end) →
  P s → ∃ s', for_loop n body s = Ok s' ∧ P s'.
Proof.
  intros Hstep. revert s. induction n as [|n IH]; intros s Hs; simpl; [eauto|].
  destruct (Hstep s Hs) as (r & -> & Hr). simpl. destruct r; eauto.
Qed.

(** A loop whose body breaks only when a counter [rem] is exhausted, and lowers
    it by one otherwise, performs exactly [min n rem] iterations. *)
Lemma for_loop_count {S} (P : S → Prop) (rem cnt : S → Z) body n s :
  (∀ s, P s → 0 <= rem s) →
  (∀ s, P s → ∃ r, body s = Ok r ∧
     match r with
     | Next s' => P s' ∧ rem s' = rem s - 1 ∧ cnt s' = cnt s + 1
     | Break s' => P s' ∧ rem s = 0 ∧ rem s' = 0 ∧ cnt s' = cnt s
     end) →
  P s → ∃ s', for_loop n body s = Ok s' ∧ P s' ∧
     cnt s' = cnt s + Z.min (Z.of_nat n) (rem s) ∧
     rem s' = rem s - Z.min (Z.of_nat n) (rem s).
Proof.
  intros Hnn Hstep. revert s. induction n as [|n IH]; intros s Hs; cbn [for_loop].
  - pose proof (Hnn s Hs). exists s. repeat split; (done || lia).
  - pose proof (Hnn s Hs). destruct (Hstep s Hs) as (r & -> & Hr). cbn [obind].
    destruct r as [s'|s'].
    + destruct Hr as (Hs' & Hr & Hc). pose proof (Hnn s' Hs').
      destruct (IH s' Hs') as (s'' & -> & HP & H1 & H2).
      exists s''. repeat split; (done || lia).
    + destruct Hr as (Hs' & Hr & Hr' & Hc). exists s'. repeat split; (done || lia).
Qed.

(** As long as the counter lasts, every iteration ends normally. *)
Lemma for_loop_while {S} (P : S → Prop) (rem : S → Z) body n s :
  (∀ s, P s → 0 < rem s → ∃ s', body s = Ok (Next s') ∧ P s' ∧ rem s' = rem s - 1) →
  Z.of_nat n <= rem s → P s → ∃ s', for_loop n body s = Ok s' ∧ P s' ∧ rem s' = rem s - Z.of_nat n.
Proof.
  intros Hstep. revert s. induction n as [|n IH]; intros s Hn Hs; cbn [for_loop].
  - exists s. repeat split; (done || lia).
  - destruct (Hstep s Hs ltac:(lia)) as (s1 & -> & Hs1 & Hr). cbn [obind].
    destruct (IH s1 ltac:(lia) Hs1) as (s' & -> & Hs' & Hr'). exists s'. repeat split; (done || lia).
Qed.

(** ** Hint database of the development *)
Create HintDb mz discriminated.
Create Rewrite HintDb mzr.
#[export] Hint Resolve sum_to_nonneg sum_to_ext sum_to_le round_up_4k_mono : mz.
#[export] Hint Rewrite sum_to_plus sum_to_minus sum_to_const : mzr.

(** ** Lists read two elements at a time *)
Lemma list_pair_ind {A} (P : list A → Prop) :
  P [] → (∀ x, P [x]) → (∀ x y l, P l → P (x :: y :: l)) → ∀ l, P l.
Proof.
  intros H0 H1 H2. fix IH 1. intros [|x [|y l]]; [exact H0|apply H1|apply H2, IH].
Qed.

(** ** Loops over [a, a + n) *)
Lemma seqZ_snoc a n : 0 <= n → seqZ a (n + 1) = seqZ a n ++ [a + n].
Proof. intros. rewrite seqZ_app by lia. by rewrite (seqZ_cons _ 1) by lia. Qed.

(** A loop that establishes [P] round by round. *)
Lemma ofold_seqZ {S} (P : Z → S → Prop) f a n (s : S) : 0 <= n → P a s →
  (∀ i s, a <= i < a + n → P i s → ∃ s', f i s = Ok s' ∧ P (i + 1) s') →
  ∃ s', ofold f (seqZ a n) s = Ok s' ∧ P (a + n) s'.
Proof.
  intros Hn HP Hf. remember (Z.to_nat n) as k eqn:Hk. revert a n s Hn HP Hf Hk.
  induction k as [|k IH]; intros a n s Hn HP Hf Hk.
  - assert (n = 0) as -> by lia. exists s. by rewrite Z.add_0_r.
  - rewrite seqZ_cons by lia. cbn [ofold].
    destruct (Hf a s ltac:(lia) HP) as (s1 & -> & H1). cbn [obind].
    destruct (IH (Z.succ a) (Z.pred n) s1) as (s' & -> & H'); [lia|done| |lia|].
    + intros i si Hi. apply Hf. lia.
    + exists s'. split; [done|]. by replace (a + n) with (Z.succ a + Z.pred n) by lia.
Qed.
