(* ===== verification/Floats.v ===== *)
(** IEEE-754 arithmetic of the program's [__fp16], [float] and [double].

    The formats are instances of the standard library's [SpecFloat]
    (binary16, binary32, binary64 with round-to-nearest-even), so every
    expression is evaluated operation by operation as the code writes it.  The
    conversions between formats and integers that C++ performs implicitly are
    defined here. *)
From Stdlib Require Export SpecFloat.
From S2P Require Import Prelude.

Abbreviation float := spec_float.

(** Precision and maximal exponent of a format. *)
Definition F16_prec := 11.
Definition F16_emax := 16.
Definition F32_prec := 24.
Definition F32_emax := 128.
Definition F64_prec := 53.
Definition F64_emax := 1024.

(** Rounding a [float]/[double]/[__fp16] value to another format. *)
Definition round_to (prec emax : Z) (x : float) : float :=
  match x with
  | S754_finite s m e => binary_normalize prec emax (cond_Zopp s (Zpos m)) e s
  | _ => x
  end.
Definition to_f16 : float → float := round_to F16_prec F16_emax.
Definition to_f32 : float → float := round_to F32_prec F32_emax.
Definition to_f64 : float → float := round_to F64_prec F64_emax.

(** Conversion of an integer. *)
Definition f16_of_Z (n : Z) : float := binary_normalize F16_prec F16_emax n 0 false.
Definition f32_of_Z (n : Z) : float := binary_normalize F32_prec F32_emax n 0 false.
Definition f64_of_Z (n : Z) : float := binary_normalize F64_prec F64_emax n 0 false.

Definition f32_add := SFadd F32_prec F32_emax.
Definition f32_sub := SFsub F32_prec F32_emax.
Definition f32_mul := SFmul F32_prec F32_emax.
Definition f32_div := SFdiv F32_prec F32_emax.
Definition f64_add := SFadd F64_prec F64_emax.
Definition f64_sub := SFsub F64_prec F64_emax.
Definition f64_mul := SFmul F64_prec F64_emax.
Definition f64_div := SFdiv F64_prec F64_emax.
Definition f16_sub := SFsub F16_prec F16_emax.
Definition f16_mul := SFmul F16_prec F16_emax.

(** The exact magnitude of a finite number split as integer part and the
    doubled remainder, from which the integer roundings are built. *)
Definition mag_floor (m : positive) (e : Z) : Z :=
  if 0 <=? e then Zpos m * 2 ^ e else Zpos m / 2 ^ (- e).
(** Magnitude rounded half away from zero: [floor (|x| + 1/2)]. *)
Definition mag_round_away (m : positive) (e : Z) : Z :=
  if 0 <=? e then Zpos m * 2 ^ e
  else (Zpos m + 2 ^ (- e - 1)) / 2 ^ (- e).
(** Magnitude rounded to nearest, ties to even. *)
Definition mag_round_even (m : positive) (e : Z) : Z :=
  if 0 <=? e then Zpos m * 2 ^ e
  else let q := Zpos m / 2 ^ (- e) in
       let r := Zpos m mod 2 ^ (- e) in
       if 2 * r <? 2 ^ (- e) then q
       else if 2 ^ (- e) <? 2 * r then q + 1
       else if Z.even q then q else q + 1.

Definition signed (s : bool) (n : Z) : Z := if s then - n else n.

(** [static_cast<int>(x)]: truncation toward zero; undefined for NaN,
    infinities and values outside [int] (C++ [conv.fpint]). *)
Definition f_to_int (x : float) : option Z :=
  match x with
  | S754_zero _ => Some 0
  | S754_finite s m e =>
      let v := signed s (mag_floor m e) in
      if (- 2 ^ 31 <=? v) && (v <? 2 ^ 31) then Some v else None
  | _ => None
  end.

(** [std::round] followed by an integral conversion (half away from zero). *)
Definition f_round_away (x : float) : option Z :=
  match x with
  | S754_zero _ => Some 0
  | S754_finite s m e => Some (signed s (mag_round_away m e))
  | _ => None
  end.

(** [fma(a, b, c)]: [a*b + c] rounded once. *)
Definition fma (prec emax : Z) (a b c : float) : float :=
  match a, b, c with
  | S754_finite sa ma ea, S754_finite sb mb eb, S754_finite sc mc ec =>
      let e := Z.min (ea + eb) ec in
      binary_normalize prec emax
        (cond_Zopp (xorb sa sb) (Zpos (ma * mb) * 2 ^ (ea + eb - e))
         + cond_Zopp sc (Zpos mc * 2 ^ (ec - e))) e false
  | S754_finite sa ma ea, S754_finite sb mb eb, S754_zero _ =>
      binary_normalize prec emax
        (cond_Zopp (xorb sa sb) (Zpos (ma * mb))) (ea + eb) false
  | _, _, _ =>
      (* a factor is zero, infinite or NaN: the product is exact *)
      SFadd prec emax (SFmul prec emax a b) c
  end.

Definition f32_zero : float := S754_zero false.
Definition f32_one : float := f32_of_Z 1.

(** Witness values: [0.5f], [0.75f] and [1/3] as the compiler rounds it. *)
Example f32_half : f32_div (f32_of_Z 1) (f32_of_Z 2) = S754_finite false 8388608 (-24).
Proof. reflexivity. Qed.
Example f_to_int_ex : f_to_int (f32_mul (f32_of_Z 20) (f32_div (f32_of_Z 3) (f32_of_Z 4))) = Some 15.
Proof. reflexivity. Qed.
Example fma_ex : fma F16_prec F16_emax (f16_of_Z 3) (f16_of_Z 5) (f16_of_Z 7) = f16_of_Z 22.
Proof. reflexivity. Qed.
