(* ===== verification/Profile.v ===== *)
(** Build configuration and device profile: [mzcache/src/mzcache_profile.cpp]
    and [mzcache/include/mzcache_profile.h].

    The compression backend chosen by the preprocessor is a value of [backend].
    Reading and writing of decimal numbers ([atof], [ostream << double] with its
    default precision of 6) is modelled for decimal notation. *)
From S2P Require Import Prelude Floats.
From Stdlib Require Import Ascii String.
Open Scope Z_scope.

Inductive backend := FLEXGEN | FLEXGEN_8BIT | CACHEGEN | NONE.

Definition compression_name (b : backend) : string :=
  match b with
  | FLEXGEN => "FLEXGEN" | FLEXGEN_8BIT => "FLEXGEN_8BIT"
  | CACHEGEN => "CACHEGEN" | NONE => "NONE"
  end.

Definition device_profile_path (b : backend) : string :=
  "mzcache_device_profile_" +:+ compression_name b +:+ ".txt".

Definition profiling_supported (b : backend) : bool :=
  match b with FLEXGEN | FLEXGEN_8BIT | CACHEGEN => true | NONE => false end.

(** Compressed-input size of the profiler benchmark. *)
Definition profile_comp_bytes (b : backend) (elems : Z) : Z :=
  match b with FLEXGEN => elems / 2 | _ => elems end.

(** ** Chipsets and core placement *)

Inductive SocClass := SM8750 | SM8650 | UNKNOWN.
#[export] Instance SocClass_eq_dec : EqDecision SocClass.
Proof. solve_decision. Defined.

(** [m.rfind(p, 0) == 0]: [p] is a prefix of [m]. *)
Definition starts_with (p m : string) : bool := String.prefix p m.

Definition classify_soc (m : string) : SocClass :=
  if starts_with "SM8750" m || String.eqb m "sun" then SM8750
  else if starts_with "SM8650" m || String.eqb m "pineapple" then SM8650
  else UNKNOWN.

Definition soc_name (s : SocClass) : string :=
  match s with
  | SM8750 => "Snapdragon 8 Elite (SM8750)"
  | SM8650 => "Snapdragon 8 Gen 3 (SM8650)"
  | UNKNOWN => "unknown SoC"
  end.

(** [enum class CoreType], in declaration order (the order of [std::map]). *)
Inductive CoreType := ALLOC | READ | DECOMP | DECOMP_KERNEL | FREE.
#[export] Instance CoreType_eq_dec : EqDecision CoreType.
Proof. solve_decision. Defined.
Definition CoreType_rank (c : CoreType) : Z :=
  match c with ALLOC => 0 | READ => 1 | DECOMP => 2 | DECOMP_KERNEL => 3 | FREE => 4 end.

Definition core_config := list (CoreType * list Z).

Definition default_core_configs (b : backend) (soc : SocClass) : core_config :=
  match b with
  | FLEXGEN | FLEXGEN_8BIT =>
      match soc with
      | SM8750 => [(ALLOC, [0;1;2;3;4;5]); (DECOMP, [6;7]); (READ, [0;1]); (FREE, [0])]
      | _ => [(ALLOC, [5;7]); (DECOMP, [3;4;6]); (READ, [2;3]); (FREE, [0])]
      end
  | CACHEGEN | NONE =>
      match soc with
      | SM8750 => [(ALLOC, [4;5]); (DECOMP, [0;1;2;3;6;7]); (READ, [4;5]); (FREE, [0])]
      | _ => [(ALLOC, [5;7]); (DECOMP, [3;4;6]); (READ, [2;3]); (FREE, [0])]
      end
  end.

(** [groups.at(type)]. *)
Definition cfg_at (c : core_config) (t : CoreType) : option (list Z) :=
  snd <$> List.find (λ p, bool_decide (p.1 = t)) c.

(** ** Decimal numbers *)

Definition digit_of (c : ascii) : option Z :=
  let n := Z.of_nat (nat_of_ascii c) in
  if (48 <=? n) && (n <=? 57) then Some (n - 48) else None.
Definition ascii_of_digit (d : Z) : ascii := ascii_of_nat (Z.to_nat (d + 48)).

(** Decimal digits from the left: accumulated value, digits read, rest. *)
Fixpoint read_digits (acc n : Z) (s : string) : Z * Z * string :=
  match s with
  | String c s' => match digit_of c with
                   | Some d => read_digits (acc * 10 + d) (n + 1) s'
                   | None => (acc, n, s)
                   end
  | EmptyString => (acc, n, s)
  end.

(** The binary64 value nearest to [m * 10 ^ e] ([m >= 0]). *)
Definition f64_of_dec (m e : Z) : float :=
  if 0 <=? e then f64_of_Z (m * 10 ^ e)
  else
    let den := 10 ^ (- e) in
    let k := Z.log2 den + 64 in
    let q := (m * 2 ^ k) / den in
    let sticky := if (m * 2 ^ k) mod den =? 0 then 0 else 1 in
    binary_normalize F64_prec F64_emax (2 * q + sticky) (- k - 1) false.

Definition read_sign (s : string) : bool * string :=
  match s with
  | String "-"%char s' => (true, s')
  | String "+"%char s' => (false, s')
  | _ => (false, s)
  end.

(** [atof] on decimal notation: the longest prefix [[+-]ddd[.ddd][e[+-]dd]]; 0
    when there is no digit. *)
Definition atof (s : string) : float :=
  let '(neg, s) := read_sign s in
  let '(ip, n1, s) := read_digits 0 0 s in
  let '(m, n2, s) := match s with
                     | String "."%char s' => read_digits ip 0 s'
                     | _ => (ip, 0, s)
                     end in
  if (n1 =? 0) && (n2 =? 0) then S754_zero false else
  let e := match s with
           | String "e"%char s' | String "E"%char s' =>
               let '(eneg, s') := read_sign s' in
               let '(x, nx, _) := read_digits 0 0 s' in
               if nx =? 0 then 0 else if (eneg : bool) then - x else x
           | _ => 0
           end in
  let v := f64_of_dec m (e - n2) in
  if (neg : bool) then SFopp v else v.

(** [atoi]. *)
Definition atoi (s : string) : Z :=
  let '(neg, s) := read_sign s in
  let '(v, _, _) := read_digits 0 0 s in
  if (neg : bool) then - v else v.

(** [n] decimal digits of [v], most significant first. *)
Fixpoint digits (n : nat) (v : Z) (acc : string) : string :=
  match n with
  | O => acc
  | S n => digits n (v / 10) (String (ascii_of_digit (v mod 10)) acc)
  end.

Fixpoint strip_zeros (n : nat) (v : Z) : nat * Z :=
  match n with
  | O => (O, v)
  | S n' => if v mod 10 =? 0 then strip_zeros n' (v / 10) else (n, v)
  end.

Definition round_half_even (num den : Z) : Z :=
  let q := num / den in
  let r := num mod den in
  if 2 * r <? den then q else if den <? 2 * r then q + 1 else if Z.even q then q else q + 1.

(** The decimal exponent of a positive rational. *)
Fixpoint dec_exp_down (fuel : nat) (num den k : Z) : Z :=
  match fuel with
  | O => k
  | S f => if den <=? num then k else dec_exp_down f (num * 10) den (k - 1)
  end.
Fixpoint dec_exp_up (fuel : nat) (num den k : Z) : Z :=
  match fuel with
  | O => k
  | S f => if num <? den * 10 then k else dec_exp_up f num (den * 10) (k + 1)
  end.

(** [ostream << double]: [%g] with precision 6. *)
Definition show_g6 (x : float) : string :=
  match x with
  | S754_zero s => if s then "-0" else "0"
  | S754_infinity s => if s then "-inf" else "inf"
  | S754_nan => "nan"
  | S754_finite s m e =>
      let num := Zpos m * 2 ^ Z.max e 0 in
      let den := 2 ^ Z.max (- e) 0 in
      let x0 := if num <? den then dec_exp_down 330 num den 0 else dec_exp_up 330 num den 0 in
      let d0 := round_half_even (num * 10 ^ Z.max (5 - x0) 0) (den * 10 ^ Z.max (x0 - 5) 0) in
      let '(d, ex) := if d0 =? 1000000 then (100000, x0 + 1) else (d0, x0) in
      let sg := if (s : bool) then "-"%string else ""%string in
      if (ex <? -4) || (6 <=? ex) then
        let '(nf, v) := strip_zeros 5 d in
        let frac := match nf with O => EmptyString
                    | _ => String "."%char (digits nf v "") end in
        let lead := v / 10 ^ Z.of_nat nf in
        let ea := Z.abs ex in
        sg +:+ digits 1 lead "" +:+ frac +:+ "e" +:+ (if ex <? 0 then "-" else "+")
           +:+ digits (if ea <? 100 then 2%nat else 3%nat) ea ""
      else
        let '(nf, v) := strip_zeros (Z.to_nat (5 - ex)) d in
        let frac := match nf with O => EmptyString
                    | _ => String "."%char (digits nf v "") end in
        let ip := v / 10 ^ Z.of_nat nf in
        sg +:+ digits (Z.to_nat (Z.max (ex + 1) 1)) ip "" +:+ frac
  end.

Example show_g6_ex1 : show_g6 (f64_div (f64_of_Z 53) (f64_of_Z 10)) = "5.3"%string.
Proof. vm_compute. reflexivity. Qed.
Example show_g6_ex2 : show_g6 (f64_div (f64_of_Z 1234567) (f64_of_Z 100)) = "12345.7"%string.
Proof. vm_compute. reflexivity. Qed.
Example show_g6_ex3 : show_g6 (f64_of_Z 71323648) = "7.13236e+07"%string.
Proof. vm_compute. reflexivity. Qed.
Example show_g6_ex4 : show_g6 (f64_div (f64_of_Z 25) (f64_of_Z 1000000)) = "2.5e-05"%string.
Proof. vm_compute. reflexivity. Qed.
Example atof_ex1 : atof "5.3" = f64_div (f64_of_Z 53) (f64_of_Z 10).
Proof. vm_compute. reflexivity. Qed.
Example atof_ex2 : atof "-7.5e+01xyz" = f64_of_Z (-75).
Proof. vm_compute. reflexivity. Qed.

(** ** The profile file *)

Record device_profile := DeviceProfile {
  compression : string;
  soc : string;
  decomp_gbps : float;
  kv_read_gbps : float;
  weight_read_gbps : float }.

Definition empty_profile : device_profile :=
  DeviceProfile "" "" (S754_zero false) (S754_zero false) (S754_zero false).

(** [std::getline]: the text up to the next newline, which is dropped. *)
Fixpoint lines (cur : string) (s : string) : list string :=
  match s with
  | EmptyString => if String.eqb cur "" then [] else [cur]
  | String c s' => if Ascii.eqb c (ascii_of_nat 10) then cur :: lines "" s'
                   else lines (cur +:+ String c "") s'
  end.

(** [line.find('=')] with the texts before and after it. *)
Fixpoint split_eq (s : string) : option (string * string) :=
  match s with
  | EmptyString => None
  | String c s' => if Ascii.eqb c "="%char then Some (EmptyString, s')
                   else (λ '(k, v), (String c k, v)) <$> split_eq s'
  end.

Definition load_line (out : device_profile) (line : string) : device_profile :=
  match line with
  | EmptyString => out
  | String c _ =>
      if Ascii.eqb c "#"%char then out else
      match split_eq line with
      | None => out
      | Some (key, val) =>
          if String.eqb key "compression" then
            DeviceProfile val out.(soc) out.(decomp_gbps) out.(kv_read_gbps) out.(weight_read_gbps)
          else if String.eqb key "soc" then
            DeviceProfile out.(compression) val out.(decomp_gbps) out.(kv_read_gbps) out.(weight_read_gbps)
          else if String.eqb key "decomp_gbps" then
            DeviceProfile out.(compression) out.(soc) (atof val) out.(kv_read_gbps) out.(weight_read_gbps)
          else if String.eqb key "kv_read_gbps" then
            DeviceProfile out.(compression) out.(soc) out.(decomp_gbps) (atof val) out.(weight_read_gbps)
          else if String.eqb key "weight_read_gbps" then
            DeviceProfile out.(compression) out.(soc) out.(decomp_gbps) out.(kv_read_gbps) (atof val)
          else out
      end
  end.

(** [x > 0.0]. *)
Definition f_pos (x : float) : bool := SFltb (S754_zero false) x.

(** [load_device_profile]: [None] is a file that cannot be opened. *)
Definition load_device_profile (file : option string) (out : device_profile)
    : bool * device_profile :=
  match file with
  | None => (false, out)
  | Some text =>
      let out := fold_left load_line (lines "" text) out in
      (f_pos out.(decomp_gbps) && f_pos out.(kv_read_gbps) && f_pos out.(weight_read_gbps), out)
  end.

Definition nl : string := String (ascii_of_nat 10) "".

(** [save_device_profile]: the text of the file. *)
Definition save_device_profile (p : device_profile) : string :=
  "# mzcache device profile — throughputs under the full swap-in emulation" +:+ nl +:+
  "# (see examples/mz_device_profile). Delete this file to force re-profiling." +:+ nl +:+
  "version=1" +:+ nl +:+
  "compression=" +:+ p.(compression) +:+ nl +:+
  "soc=" +:+ p.(soc) +:+ nl +:+
  "decomp_gbps=" +:+ show_g6 p.(decomp_gbps) +:+ nl +:+
  "kv_read_gbps=" +:+ show_g6 p.(kv_read_gbps) +:+ nl +:+
  "weight_read_gbps=" +:+ show_g6 p.(weight_read_gbps) +:+ nl.

(** ** Scheduling constants *)

Definition chunk_bytes_f64 (kv_hidden_dim : Z) : float :=
  f64_mul (f64_mul (f64_mul (f64_of_Z 256) (f64_of_Z kv_hidden_dim)) (f64_of_Z 2)) (f64_of_Z 2).

(** [None]: [std::lround] of a value outside [long] (unspecified). *)
Definition derive_per_layer_balance (p : device_profile) (weight_layer_bytes kv_hidden_dim : Z)
    : option Z :=
  let chunk_bytes := chunk_bytes_f64 kv_hidden_dim in
  let d_chunks := f64_div (f64_mul p.(decomp_gbps) (f64_of_Z 1000000000)) chunk_bytes in
  let layer_s := f64_div (f64_of_Z weight_layer_bytes)
                   (f64_mul p.(weight_read_gbps) (f64_of_Z 1000000000)) in
  match f_round_away (f64_mul layer_s d_chunks) with
  | Some n => if (- 2 ^ 63 <=? n) && (n <? 2 ^ 63) then Some (i32 n) else None
  | None => None
  end.

Definition derive_decomp_load_ratio (p : device_profile) : float :=
  to_f32 (f64_div p.(decomp_gbps) (f64_add p.(decomp_gbps) p.(kv_read_gbps))).

(** ** The profile file round trip *)

Fixpoint no_nl (s : string) : bool :=
  match s with
  | EmptyString => true
  | String c s' => negb (Ascii.eqb c (ascii_of_nat 10)) && no_nl s'
  end.

Lemma append_cons c s t : String c s +:+ t = String c (s +:+ t).
Proof. done. Qed.
Lemma append_nil_r s : s +:+ "" = s.
Proof. induction s as [|c s IH]; [done|]. by rewrite append_cons, IH. Qed.
Lemma append_assoc s t u : (s +:+ t) +:+ u = s +:+ (t +:+ u).
Proof. induction s as [|c s IH]; [done|]. by rewrite !append_cons, IH. Qed.

Lemma no_nl_append s t : no_nl (s +:+ t) = no_nl s && no_nl t.
Proof. induction s as [|c s IH]; [done|]. rewrite append_cons. simpl. by rewrite IH, andb_assoc. Qed.

Lemma lines_app cur a rest : no_nl a = true →
  lines cur (a +:+ (nl +:+ rest)) = (cur +:+ a) :: lines "" rest.
Proof.
  revert cur. induction a as [|c a IH]; intros cur Ha.
  - simpl. by rewrite append_nil_r.
  - rewrite append_cons. simpl in *. propify. rewrite H, IH by done. by rewrite append_assoc.
Qed.

Lemma lines_line a rest : no_nl a = true →
  lines "" (a +:+ (nl +:+ rest)) = a :: lines "" rest.
Proof. intros. by rewrite lines_app. Qed.

Lemma lines_kv k v rest : no_nl k = true → no_nl v = true →
  lines "" (k +:+ (v +:+ (nl +:+ rest))) = (k +:+ v) :: lines "" rest.
Proof.
  intros Hk Hv. rewrite <- append_assoc. apply lines_line. by rewrite no_nl_append, Hk, Hv.
Qed.

Lemma no_nl_digit d : 0 <= d < 10 → Ascii.eqb (ascii_of_digit d) (ascii_of_nat 10) = false.
Proof.
  intros Hd. assert (d = 0 ∨ d = 1 ∨ d = 2 ∨ d = 3 ∨ d = 4 ∨ d = 5 ∨ d = 6 ∨ d = 7 ∨ d = 8 ∨ d = 9)
    as Hc by lia.
  by repeat (destruct Hc as [->|Hc]; [reflexivity|]); subst.
Qed.

Lemma no_nl_digits n v acc : no_nl (digits n v acc) = no_nl acc.
Proof.
  revert v acc. induction n as [|n IH]; intros v acc; [done|]. simpl.
  rewrite IH. simpl. rewrite no_nl_digit; [done|]. apply Z.mod_pos_bound. lia.
Qed.

Lemma no_nl_frac nf v : no_nl (match nf with O => EmptyString
                               | _ => String "."%char (digits nf v "") end) = true.
Proof. destruct nf; [done|]. cbn [no_nl]. by rewrite no_nl_digits. Qed.

Lemma no_nl_show_g6 x : no_nl (show_g6 x) = true.
Proof.
  destruct x as [s|s| |s m e]; try (by destruct s); [done|]. unfold show_g6. cbv zeta.
  destruct (if _ =? 1000000 then _ else _) as [d ex].
  destruct (_ || _); destruct (strip_zeros _ d) as [nf v];
    rewrite !no_nl_append, !no_nl_digits, no_nl_frac; by destruct s, (ex <? 0).
Qed.

Lemma split_eq_app k v : split_eq k = None → split_eq (k +:+ String "="%char v) = Some (k, v).
Proof.
  induction k as [|c k IH]; [done|]. rewrite append_cons. simpl. destruct (Ascii.eqb c "="); [done|].
  destruct (split_eq k); [done|]. intros _. by rewrite IH.
Qed.

Lemma load_line_key out k kq v : kq = k +:+ "=" → k ≠ ""%string → split_eq k = None →
  String.get 0 k ≠ Some "#"%char →
  load_line out (kq +:+ v) =
    (if String.eqb k "compression" then
       DeviceProfile v out.(soc) out.(decomp_gbps) out.(kv_read_gbps) out.(weight_read_gbps)
     else if String.eqb k "soc" then
       DeviceProfile out.(compression) v out.(decomp_gbps) out.(kv_read_gbps) out.(weight_read_gbps)
     else if String.eqb k "decomp_gbps" then
       DeviceProfile out.(compression) out.(soc) (atof v) out.(kv_read_gbps) out.(weight_read_gbps)
     else if String.eqb k "kv_read_gbps" then
       DeviceProfile out.(compression) out.(soc) out.(decomp_gbps) (atof v) out.(weight_read_gbps)
     else if String.eqb k "weight_read_gbps" then
       DeviceProfile out.(compression) out.(soc) out.(decomp_gbps) out.(kv_read_gbps) (atof v)
     else out).
Proof.
  intros -> Hne Hsp Hc. rewrite append_assoc. change ("=" +:+ v) with (String "="%char v).
  destruct k as [|c k]; [done|].
  pose proof (split_eq_app (String c k) v Hsp) as Hs.
  change (String c k +:+ String "=" v) with (String c (k +:+ String "=" v)) in *.
  unfold load_line. rewrite Hs. destruct (Ascii.eqb_spec c "#"); [|done].
  subst. by destruct Hc.
Qed.

(** What a saved profile loads as: the text fields unchanged, each throughput
    as the decimal the file shows. *)
Definition reloaded (p : device_profile) : device_profile :=
  DeviceProfile p.(compression) p.(soc) (atof (show_g6 p.(decomp_gbps)))
    (atof (show_g6 p.(kv_read_gbps))) (atof (show_g6 p.(weight_read_gbps))).

(** Evaluates the innermost [load_line], for key [k]. *)
Ltac load_key k :=
  rewrite (load_line_key (DeviceProfile _ _ _ _ _) k) by (reflexivity || discriminate);
  cbn [String.eqb Ascii.eqb Bool.eqb compression soc decomp_gbps kv_read_gbps weight_read_gbps].

Lemma load_lines_saved (p out : device_profile) :
  no_nl p.(compression) = true → no_nl p.(soc) = true →
  fold_left load_line (lines "" (save_device_profile p)) out = reloaded p.
Proof.
  intros Hc Hs. unfold save_device_profile.
  pose proof (no_nl_show_g6 p.(decomp_gbps)). pose proof (no_nl_show_g6 p.(kv_read_gbps)).
  pose proof (no_nl_show_g6 p.(weight_read_gbps)).
  rewrite <- (append_nil_r nl) at 8.
  rewrite 3 lines_line by reflexivity.
  rewrite !lines_kv by (assumption || reflexivity). clear.
  cbn [fold_left lines]. destruct out as [o1 o2 o3 o4 o5].
  repeat match goal with |- context [load_line (DeviceProfile ?a ?b ?c ?d ?e) (String ?x ?l)] =>
    change (load_line (DeviceProfile a b c d e) (String x l)) with (DeviceProfile a b c d e) end.
  load_key "compression". load_key "soc". load_key "decomp_gbps". load_key "kv_read_gbps".
  load_key "weight_read_gbps". reflexivity.
Qed.

(** Loading what [save_device_profile] wrote, whatever the record held
    before, gives back the compression and SoC names and the throughputs as
    printed (six significant digits), skips the comment and version lines, and
    reports success exactly when the three throughputs are positive. *)
Theorem load_save_profile (p out : device_profile) :
  no_nl p.(compression) = true → no_nl p.(soc) = true →
  load_device_profile (Some (save_device_profile p)) out =
    (f_pos (reloaded p).(decomp_gbps) && f_pos (reloaded p).(kv_read_gbps)
       && f_pos (reloaded p).(weight_read_gbps), reloaded p).
Proof.
  intros Hc Hs. unfold load_device_profile. by rewrite (load_lines_saved p out Hc Hs).
Qed.

(** The profile of a device: 5.3 GB/s decompression, 1.75 and 2.5 GB/s reads. *)
Definition example_profile : device_profile :=
  DeviceProfile "FLEXGEN" "SM8750" (atof "5.3") (atof "1.75") (atof "2.5").

(** It survives the file unchanged. *)
Lemma load_save_profile_witness :
  load_device_profile (Some (save_device_profile example_profile)) empty_profile
  = (true, example_profile).
Proof.
  rewrite (load_save_profile example_profile empty_profile eq_refl eq_refl).
  vm_compute. reflexivity.
Defined.
