(* ===== verification/FloatReal.v ===== *)
(** The real numbers behind [SpecFloat]: every rounded operation returns the
    exact result up to half a unit in the last place, and does not overflow while
    the exact result stays below half the format's range. *)
From Stdlib Require Import Reals Lra.
From S2P Require Import Prelude Floats.

(** ** Powers of two *)

Definition b2 (e : Z) : R := powerRZ 2 e.

Lemma b2_pos e : (0 < b2 e)%R.
Proof. apply powerRZ_lt. lra. Qed.

Lemma b2_add e f : (b2 (e + f) = b2 e * b2 f)%R.
Proof. apply powerRZ_add. lra. Qed.

Lemma b2_IZR e : 0 <= e → IZR (2 ^ e) = b2 e.
Proof.
  intros He. unfold b2. destruct e as [|p|p]; [done| |lia].
  cbn [powerRZ]. by rewrite pow_IZR, positive_nat_Z.
Qed.

Lemma b2_0 : b2 0 = 1%R.
Proof. done. Qed.

Lemma b2_le e f : e <= f → (b2 e <= b2 f)%R.
Proof.
  intros H. replace f with (e + (f - e)) by lia. rewrite b2_add.
  rewrite <- (b2_IZR (f - e)) by lia.
  assert (1 <= IZR (2 ^ (f - e)))%R as H1.
  { apply (IZR_le 1). pose proof (Z.pow_pos_nonneg 2 (f - e)). lia. }
  pose proof (b2_pos e). nra.
Qed.

Lemma b2_succ e : (b2 (e + 1) = 2 * b2 e)%R.
Proof. rewrite b2_add. change (b2 1) with (2 * 1)%R. lra. Qed.

Lemma b2_half e : (b2 (e - 1) = b2 e / 2)%R.
Proof. pose proof (b2_succ (e - 1)) as H. replace (e - 1 + 1) with e in H by lia. lra. Qed.

Lemma b2_mul_inv e : (b2 e * b2 (- e) = 1)%R.
Proof. rewrite <- b2_add. by replace (e + - e) with 0 by lia. Qed.

(** ** Locations of a real between two integers *)

#[export] Instance location_eq_dec : EqDecision location.
Proof. solve_decision. Defined.

Definition at_loc (m : Z) (l : location) (x : R) : Prop :=
  match l with
  | loc_Exact => x = IZR m
  | loc_Inexact Lt => (IZR m < x < IZR m + 1 / 2)%R
  | loc_Inexact Eq => (x = IZR m + 1 / 2)%R
  | loc_Inexact Gt => (IZR m + 1 / 2 < x < IZR m + 1)%R
  end.

Lemma at_loc_bounds m l x : at_loc m l x → (IZR m <= x < IZR m + 1)%R.
Proof. destruct l as [|[]]; cbn; lra. Qed.

Definition at_rec (r : shr_record) : R → Prop := at_loc (shr_m r) (loc_of_shr_record r).

Lemma at_rec_of_loc m l x : at_loc m l x → at_rec (shr_record_of_loc m l) x.
Proof. by destruct l as [|[]]. Qed.

Lemma shr_1_nonneg r : 0 <= shr_m r → 0 <= shr_m (shr_1 r).
Proof.
  destruct r as [m r s]. cbn [shr_m]. intros Hm.
  destruct m as [|[p|p|]|p]; cbn [shr_1 shr_m]; lia.
Qed.

Lemma IZR_xI p : IZR (Zpos p~1) = (2 * IZR (Zpos p) + 1)%R.
Proof. by rewrite Pos2Z.inj_xI, plus_IZR, mult_IZR. Qed.
Lemma IZR_xO p : IZR (Zpos p~0) = (2 * IZR (Zpos p))%R.
Proof. by rewrite Pos2Z.inj_xO, mult_IZR. Qed.

Lemma shr_1_at r x : 0 <= shr_m r → at_rec r x → at_rec (shr_1 r) (x / 2).
Proof.
  destruct r as [m r s]. unfold at_rec. cbn [shr_m]. intros Hm.
  destruct m as [|[p|p|]|p]; [| | | |exfalso; lia]; cbn [shr_1 shr_m];
    [|pose proof (IZR_xI p)|pose proof (IZR_xO p)|];
    destruct r, s; cbn [orb at_loc loc_of_shr_record]; intros; lra.
Qed.

Lemma iter_shr_1 p r x : 0 <= shr_m r → at_rec r x →
  0 <= shr_m (iter_pos shr_1 p r) ∧ at_rec (iter_pos shr_1 p r) (x * b2 (- Zpos p)).
Proof.
  revert r x. induction p as [p IH|p IH|]; intros r x Hr Hx; cbn [iter_pos].
  - destruct (IH _ _ (shr_1_nonneg _ Hr) (shr_1_at _ _ Hr Hx)) as [H1 H2].
    destruct (IH _ _ H1 H2) as [H3 H4]. split; [done|].
    replace (x * b2 (- Z.pos p~1))%R with (x / 2 * b2 (- Z.pos p) * b2 (- Z.pos p))%R; [done|].
    replace (- Z.pos p~1) with (- Z.pos p + - Z.pos p - 1) by lia.
    rewrite b2_half, b2_add. lra.
  - destruct (IH _ _ Hr Hx) as [H1 H2]. destruct (IH _ _ H1 H2) as [H3 H4]. split; [done|].
    replace (x * b2 (- Z.pos p~0))%R with (x * b2 (- Z.pos p) * b2 (- Z.pos p))%R; [done|].
    replace (- Z.pos p~0) with (- Z.pos p + - Z.pos p) by lia. rewrite b2_add. lra.
  - split; [by apply shr_1_nonneg|].
    change (b2 (- Zpos 1)) with (/ (2 * 1))%R.
    replace (x * / (2 * 1))%R with (x / 2)%R by lra. by apply shr_1_at.
Qed.

(** ** Digits *)

Lemma digits_log2 p : Zpos (digits2_pos p) = Z.log2 (Zpos p) + 1.
Proof.
  induction p as [p IH|p IH|]; cbn [digits2_pos]; [| |done].
  - rewrite Pos2Z.inj_succ, IH, (Pos2Z.inj_xI p), Z.log2_succ_double by lia. lia.
  - rewrite Pos2Z.inj_succ, IH, (Pos2Z.inj_xO p), Z.log2_double by lia. lia.
Qed.

Lemma Zdigits2_bounds m : 0 < m → 2 ^ (Zdigits2 m - 1) <= m < 2 ^ Zdigits2 m.
Proof.
  intros Hm. destruct m as [|p|p]; try lia. cbn [Zdigits2]. rewrite digits_log2.
  pose proof (Z.log2_spec (Zpos p) Hm). replace (Z.log2 (Z.pos p) + 1 - 1) with (Z.log2 (Zpos p)) by lia.
  lia.
Qed.

Lemma Zdigits2_nonneg m : 0 <= Zdigits2 m.
Proof. destruct m; cbn; lia. Qed.

Lemma Zdigits2_le m k : 0 <= m → 0 <= k → m < 2 ^ k → Zdigits2 m <= k.
Proof.
  intros Hm Hk Hlt. destruct (decide (m = 0)) as [->|Hne]; [done|].
  destruct (Zdigits2_bounds m ltac:(lia)) as [H _].
  destruct (decide (Zdigits2 m <= k)); [done|]. exfalso.
  pose proof (Z.pow_le_mono_r 2 k (Zdigits2 m - 1)). lia.
Qed.

Lemma Zdigits2_ge m k : 0 <= k → 2 ^ k <= m → k + 1 <= Zdigits2 m.
Proof.
  intros Hk Hm. pose proof (Z.pow_pos_nonneg 2 k).
  destruct (Zdigits2_bounds m ltac:(lia)) as [_ H1].
  destruct (decide (k + 1 <= Zdigits2 m)); [done|]. exfalso.
  pose proof (Z.pow_le_mono_r 2 (Zdigits2 m) k). lia.
Qed.

(** The number [x] located at [m] lies below [2 ^ Zdigits2 m]. *)
Lemma at_loc_digits m l x : 0 <= m → at_loc m l x → (x < b2 (Zdigits2 m))%R.
Proof.
  intros Hm Hx. pose proof (at_loc_bounds _ _ _ Hx) as [_ H].
  assert (m + 1 <= 2 ^ Zdigits2 m) as H1.
  { destruct (decide (m = 0)) as [->|Hne]; [done|]. pose proof (Zdigits2_bounds m). lia. }
  apply IZR_le in H1. rewrite plus_IZR, b2_IZR in H1 by apply Zdigits2_nonneg. lra.
Qed.

(** ** Rounding *)

Lemma round_nearest_even_at m l x : at_loc m l x →
  (Rabs (IZR (round_nearest_even m l) - x) <= 1 / 2)%R ∧
  (∀ k, (x <= IZR k)%R → round_nearest_even m l <= k) ∧ m <= round_nearest_even m l ∧
  (l = loc_Exact → round_nearest_even m l = m).
Proof.
  intros Hx. pose proof (plus_IZR m 1) as Hp.
  assert (∀ k, (x <= IZR k)%R → m <= k) as Hk0.
  { intros k Hk. apply at_loc_bounds in Hx. apply le_IZR. lra. }
  assert (∀ k, (IZR m < x)%R → (x <= IZR k)%R → m + 1 <= k) as Hk1.
  { intros k Hlt Hk. assert (m < k) by (apply lt_IZR; lra). lia. }
  destruct l as [|[]]; cbn [round_nearest_even at_loc] in *.
  2: destruct (Z.even m).
  all: (split; [apply Rabs_le; lra|split; [intros k Hk|split; [lia|done]]]).
  all: try (by apply Hk0). all: apply Hk1; [lra|done].
Qed.

Lemma at_loc_int m l n : at_loc m l (IZR n) → m = n.
Proof.
  intros Hx. pose proof (at_loc_bounds _ _ _ Hx) as [H1 H2]. apply le_IZR in H1.
  rewrite <- plus_IZR in H2. apply lt_IZR in H2. lia.
Qed.

Lemma b2_lt_inv e f : (b2 e <= b2 f)%R → e <= f.
Proof.
  intros H. destruct (decide (e <= f)) as [|Hn]; [done|]. exfalso.
  assert (b2 (f + 1) <= b2 e)%R by (apply b2_le; lia). pose proof (b2_succ f).
  pose proof (b2_pos f). lra.
Qed.

Definition sgn (s : bool) : R := if s then (-1)%R else 1%R.

(** The real number a finite float stands for. *)
Definition val (x : float) : R :=
  match x with S754_finite s m e => (sgn s * (IZR (Zpos m) * b2 e))%R | _ => 0%R end.

Definition is_zero (x : float) : bool := match x with S754_zero _ => true | _ => false end.

Definition fin (x : float) : Prop :=
  match x with S754_finite _ _ _ | S754_zero _ => True | _ => False end.

Section format.
Context (prec emax : Z).
Hypothesis prec_pos : 0 < prec.
Hypothesis emax_big : prec < emax.

Abbreviation fexp := (fexp prec emax).
Abbreviation emin := (emin prec emax).

Lemma shr_fexp_at m e l x : 0 <= m → at_loc m l x →
  let e' := Z.max e (fexp (Zdigits2 m + e)) in
  ∃ r, shr_fexp prec emax m e l = (r, e') ∧ 0 <= shr_m r ∧ at_rec r (x * b2 (e - e')).
Proof.
  intros Hm Hx e'. unfold shr_fexp, shr.
  assert (0 <= shr_m (shr_record_of_loc m l)) as Hm' by (by destruct l as [|[]]).
  pose proof (at_rec_of_loc _ _ _ Hx) as Hr.
  destruct (fexp (Zdigits2 m + e) - e) as [|p|p] eqn:Hd.
  - exists (shr_record_of_loc m l). replace e' with e by lia. replace (e - e) with 0 by lia.
    rewrite b2_0, Rmult_1_r. done.
  - destruct (iter_shr_1 p _ _ Hm' Hr) as [H1 H2].
    eexists. split; [|split; [exact H1|]].
    + f_equal. lia.
    + by replace (e - e') with (- Zpos p) by lia.
  - exists (shr_record_of_loc m l). replace e' with e by lia. replace (e - e) with 0 by lia.
    rewrite b2_0, Rmult_1_r. done.
Qed.

Lemma fexp_emin e : emin <= fexp e.
Proof. unfold SpecFloat.fexp. lia. Qed.

(** The shift after rounding loses nothing. *)
Lemma shr_fexp_exact n e' : 0 <= n <= 2 ^ prec → emin <= e' →
  ∃ r e'', shr_fexp prec emax n e' loc_Exact = (r, e'') ∧
    e'' = (if n =? 2 ^ prec then e' + 1 else e') ∧
    0 <= shr_m r ∧ (IZR (shr_m r) * b2 e'' = IZR n * b2 e')%R.
Proof.
  intros [Hn Hle] He. pose proof (Z.pow_pos_nonneg 2 prec) as Hp.
  destruct (shr_fexp_at n e' loc_Exact (IZR n) Hn eq_refl) as (r & Hs & Hr0 & Hr).
  exists r. eexists. split; [exact Hs|].
  destruct (Z.eqb_spec n (2 ^ prec)) as [Heq|Hne].
  - assert (Zdigits2 n = prec + 1) as Hd.
    { pose proof (Zdigits2_ge n prec ltac:(lia) ltac:(lia)).
      pose proof (Zdigits2_le n (prec + 1) Hn ltac:(lia)).
      rewrite Z.pow_add_r in * by lia. lia. }
    rewrite Hd in *. unfold SpecFloat.fexp in *.
    replace (Z.max e' (Z.max (prec + 1 + e' - prec) emin)) with (e' + 1) in * by lia.
    split; [done|split; [done|]].
    replace (e' - (e' + 1)) with (0 - 1) in Hr by lia. rewrite b2_half, b2_0 in Hr.
    replace (IZR n * (1 / 2))%R with (IZR (2 ^ (prec - 1))) in Hr.
    + apply at_loc_int in Hr. rewrite Hr, b2_succ, b2_IZR by lia.
      rewrite Heq, b2_IZR, b2_half by lia. lra.
    + rewrite Heq, !b2_IZR, b2_half by lia. lra.
  - assert (Zdigits2 n <= prec) by (apply Zdigits2_le; lia).
    unfold SpecFloat.fexp in *.
    replace (Z.max e' (Z.max (Zdigits2 n + e' - prec) emin)) with e' in * by lia.
    split; [done|split; [done|]].
    replace (e' - e') with 0 in Hr by lia. rewrite b2_0, Rmult_1_r in Hr.
    apply at_loc_int in Hr. by rewrite Hr.
Qed.

Lemma round_aux_real s m e l x :
  0 <= m → at_loc m l x → e <= emax - prec → (x * b2 e <= b2 (emax - 1))%R →
  let e' := Z.max e (fexp (Zdigits2 m + e)) in
  ∃ n, let r := binary_round_aux prec emax s m e l in
    fin r ∧ val r = (sgn s * (IZR n * b2 e'))%R ∧ 0 <= n ∧
    (Rabs (IZR n - x * b2 (e - e')) <= 1 / 2)%R ∧
    (∀ k, (x * b2 (e - e') <= IZR k)%R → n <= k) ∧
    (l = loc_Exact → e' = e → n = m).
Proof.
  intros Hm Hx He Hv e'.
  destruct (shr_fexp_at m e l x Hm Hx) as (r1 & Hs1 & Hr1 & Hat). fold e' in Hs1, Hat.
  destruct (round_nearest_even_at _ _ _ Hat) as (Hn1 & Hn2 & Hn3 & Hn4).
  set (n := round_nearest_even (shr_m r1) (loc_of_shr_record r1)) in *.
  exists n. cbv zeta. unfold binary_round_aux. rewrite Hs1. fold n.
  pose proof (fexp_emin (Zdigits2 m + e)) as Hemin.
  assert (0 <= n) as Hn0 by lia.
  assert (∀ k, (x * b2 e <= b2 k)%R → e' <= k → n <= 2 ^ (k - e')) as Hpow.
  { intros k Hk He'. apply Hn2. rewrite b2_IZR by lia.
    replace (e - e') with (e + - e') by lia. replace (k - e') with (k + - e') by lia.
    rewrite !b2_add. pose proof (b2_pos (- e')). nra. }
  assert (n <= 2 ^ prec) as Hnp.
  { pose proof (at_loc_digits _ _ _ Hm Hx) as Hd.
    replace prec with (prec + e' - e') by lia. apply Hpow; [|lia].
    transitivity (b2 (Zdigits2 m + e)).
    - rewrite b2_add. pose proof (b2_pos e). nra.
    - apply b2_le. unfold SpecFloat.fexp in *. lia. }
  assert (e' <= emax - prec) as He'.
  { assert (emin <= emax - prec) by (unfold SpecFloat.emin; lia).
    enough (Zdigits2 m + e <= emax) by (unfold e', SpecFloat.fexp; lia).
    destruct (decide (m = 0)) as [->|Hne]; [cbn; lia|].
    destruct (Zdigits2_bounds m ltac:(lia)) as [Hlo _].
    pose proof (at_loc_bounds _ _ _ Hx) as [Hmx _].
    assert (0 < Zdigits2 m) by (destruct m; cbn; lia).
    apply IZR_le in Hlo. rewrite b2_IZR in Hlo by lia.
    assert (b2 (Zdigits2 m - 1 + e) <= b2 (emax - 1))%R as Hb.
    { rewrite b2_add. pose proof (b2_pos e). nra. }
    apply b2_lt_inv in Hb. lia. }
  destruct (shr_fexp_exact n e' ltac:(lia) ltac:(lia)) as (r2 & e'' & Hs2 & He2 & Hr2 & Hval).
  rewrite Hs2.
  assert (e'' <= emax - prec) as Hfit.
  { destruct (Z.eqb_spec n (2 ^ prec)) as [Heq|]; [|lia].
    pose proof (Hpow (emax - 1) Hv ltac:(lia)) as Hpe. rewrite Heq in Hpe.
    apply Z.pow_le_mono_r_iff in Hpe; lia. }
  assert (l = loc_Exact → e' = e → n = m) as Hexact.
  { intros -> Hee. rewrite Hee in Hat. replace (e - e) with 0 in Hat by lia.
    rewrite b2_0, Rmult_1_r in Hat. cbn in Hx. subst x.
    pose proof (at_loc_int _ _ _ Hat) as Hsm. unfold at_rec in Hat. rewrite Hsm in Hat.
    destruct (loc_of_shr_record r1) as [|[]]; cbn [at_loc] in Hat; try lra.
    rewrite <- Hsm. by apply Hn4. }
  destruct (shr_m r2) as [|p|p] eqn:Hr2m; [| |lia].
  - split; [done|]. split; [|done]. cbn [val].
    assert (IZR n * b2 e' = 0)%R as -> by lra. lra.
  - rewrite (proj2 (Z.leb_le _ _) Hfit). split; [done|]. split; [|done].
    cbn [val]. by rewrite Hval.
Qed.

(** The results are canonical: a full significand, or the smallest exponent. *)
Definition canonical (x : float) : Prop :=
  match x with
  | S754_finite _ m e => Zpos m < 2 ^ prec ∧ emin <= e <= emax - prec ∧ (e = emin ∨ 2 ^ (prec - 1) <= Zpos m)
  | _ => True
  end.

Lemma round_aux_canonical s m e l x :
  0 <= m → at_loc m l x → e <= fexp (Zdigits2 m + e) →
  canonical (binary_round_aux prec emax s m e l).
Proof.
  intros Hm Hx He. unfold binary_round_aux.
  destruct (shr_fexp_at m e l x Hm Hx) as (r1 & -> & Hr1 & Hat).
  rewrite (Z.max_r e) in * by done. set (e' := fexp (Zdigits2 m + e)) in *.
  destruct (round_nearest_even_at _ _ _ Hat) as (_ & Hn2 & Hn3 & _).
  set (n := round_nearest_even (shr_m r1) (loc_of_shr_record r1)) in *.
  pose proof (fexp_emin (Zdigits2 m + e)) as Hemin. fold e' in Hemin.
  assert (n <= 2 ^ prec) as Hnp.
  { apply Hn2. rewrite b2_IZR by lia. pose proof (at_loc_digits _ _ _ Hm Hx) as Hd.
    transitivity (b2 (Zdigits2 m + (e - e'))).
    - rewrite b2_add. pose proof (b2_pos (e - e')). nra.
    - apply b2_le. unfold e', SpecFloat.fexp in *. lia. }
  assert (e' = emin ∨ 2 ^ (prec - 1) <= n) as Hfull.
  { destruct (decide (e' = emin)) as [|Hne]; [by left|right].
    assert (e' = Zdigits2 m + e - prec) as Hd by (unfold e', SpecFloat.fexp in *; lia).
    destruct (decide (m = 0)) as [->|Hm0]; [cbn [Zdigits2] in *; unfold SpecFloat.fexp in *; lia|].
    destruct (Zdigits2_bounds m ltac:(lia)) as [Hlo _].
    assert (0 < Zdigits2 m) by (destruct m; cbn; lia).
    pose proof (at_loc_bounds _ _ _ Hx) as [Hmx _]. apply IZR_le in Hlo. rewrite b2_IZR in Hlo by lia.
    apply at_loc_bounds in Hat as [_ Hat]. rewrite <- plus_IZR in Hat.
    assert (b2 (prec - 1) <= x * b2 (e - e'))%R as Hb.
    { replace (prec - 1) with (Zdigits2 m - 1 + (e - e')) by lia. rewrite b2_add.
      pose proof (b2_pos (e - e')). nra. }
    rewrite <- b2_IZR in Hb by lia.
    assert (2 ^ (prec - 1) < shr_m r1 + 1) by (apply lt_IZR; lra). lia. }
  destruct (shr_fexp_exact n e' ltac:(lia) ltac:(lia)) as (r2 & e'' & -> & He2 & Hr2 & Hval).
  destruct (shr_m r2) as [|p|p] eqn:Hp; [done| |lia].
  destruct (Z.leb_spec e'' (emax - prec)) as [Hfit|]; [|done]. cbn [canonical].
  pose proof (b2_pos e') as Hb.
  destruct (Z.eqb_spec n (2 ^ prec)) as [Heq|Hne]; subst e''.
  - rewrite b2_succ in Hval. assert (2 * IZR (Zpos p) = IZR n)%R as H2 by nra.
    rewrite <- mult_IZR in H2. apply eq_IZR in H2.
    replace prec with (prec - 1 + 1) in Heq |- * at 1 by lia. rewrite Z.pow_add_r in Heq |- * by lia.
    pose proof (Z.pow_pos_nonneg 2 (prec - 1)). lia.
  - apply Rmult_eq_reg_r in Hval; [|lra]. apply eq_IZR in Hval. lia.
Qed.

(** *** Comparison *)

Lemma mag_pos m e : (0 < IZR (Zpos m) * b2 e)%R.
Proof. pose proof (b2_pos e). assert (0 < IZR (Zpos m))%R by (apply IZR_lt; lia). nra. Qed.

Lemma mag_lt m1 e1 m2 e2 : Zpos m1 < 2 ^ prec → emin <= e1 →
  e2 = emin ∨ 2 ^ (prec - 1) <= Zpos m2 → e1 < e2 → (IZR (Zpos m1) * b2 e1 < IZR (Zpos m2) * b2 e2)%R.
Proof.
  intros H1 He1 H2 He. destruct H2 as [->|H2]; [lia|].
  apply IZR_lt in H1. apply IZR_le in H2. rewrite b2_IZR in H1, H2 by lia.
  pose proof (b2_pos e1). pose proof (b2_pos e2).
  assert (b2 (prec + e1) <= b2 (prec - 1 + e2))%R as Hle by (apply b2_le; lia).
  rewrite !b2_add in Hle. nra.
Qed.

Lemma mag_compare m1 e1 m2 e2 : canonical (S754_finite false m1 e1) → canonical (S754_finite false m2 e2) →
  match Z.compare e1 e2 with
  | Lt => (IZR (Zpos m1) * b2 e1 < IZR (Zpos m2) * b2 e2)%R
  | Gt => (IZR (Zpos m2) * b2 e2 < IZR (Zpos m1) * b2 e1)%R
  | Eq => match Pos.compare_cont Eq m1 m2 with
          | Lt => (IZR (Zpos m1) * b2 e1 < IZR (Zpos m2) * b2 e2)%R
          | Gt => (IZR (Zpos m2) * b2 e2 < IZR (Zpos m1) * b2 e1)%R
          | Eq => (IZR (Zpos m1) * b2 e1 = IZR (Zpos m2) * b2 e2)%R
          end
  end.
Proof.
  intros (Hm1 & He1 & Hc1) (Hm2 & He2 & Hc2).
  destruct (Z.compare_spec e1 e2) as [->|Hlt|Hgt].
  - change (Pos.compare_cont Eq m1 m2) with (Pos.compare m1 m2). pose proof (b2_pos e2).
    destruct (Pos.compare_spec m1 m2) as [->|Hlt|Hgt]; [done| |].
    + apply Rmult_lt_compat_r; [done|]. apply IZR_lt. lia.
    + apply Rmult_lt_compat_r; [done|]. apply IZR_lt. lia.
  - apply mag_lt; [done|lia|done|done].
  - apply mag_lt; [done|lia|done|done].
Qed.

(** [<] on canonical numbers is [<] on their values. *)
Lemma canonical_ltb a b : fin a → fin b → canonical a → canonical b →
  SFltb a b = true ↔ (val a < val b)%R.
Proof.
  intros Fa Fb Ha Hb.
  destruct a as [sa| | |sa ma ea], b as [sb| | |sb mb eb]; try done.
  - split; [by destruct sa, sb|cbn [val]; intros; exfalso; lra].
  - pose proof (mag_pos mb eb). cbn [val]. unfold SFltb. cbn [SFcompare].
    destruct sb; cbn [sgn]; split; intros; try done; first [lra|exfalso; lra].
  - pose proof (mag_pos ma ea). cbn [val]. unfold SFltb. cbn [SFcompare].
    destruct sa; cbn [sgn]; split; intros; try done; first [lra|exfalso; lra].
  - pose proof (mag_compare ma ea mb eb Ha Hb) as Hc.
    pose proof (mag_pos ma ea). pose proof (mag_pos mb eb). cbn [val]. unfold SFltb. cbn [SFcompare].
    destruct sa, sb; cbn [sgn]; destruct (ea ?= eb); try destruct (Pos.compare_cont Eq ma mb);
      cbn [CompOpp]; split; intros; try done; first [lra|exfalso; lra].
Qed.

(** Relative and absolute part of a rounding error. *)
Definition near (v r : R) : Prop :=
  (Rabs (r - v) <= Rabs v * b2 (- prec) + b2 (emin - 1))%R.

Lemma sgn_abs s x : Rabs (sgn s * x) = Rabs x.
Proof. destruct s; cbn [sgn]; [rewrite <- (Rabs_Ropp x)|]; f_equal; lra. Qed.

Lemma round_aux_near s m e l x :
  0 <= m → at_loc m l x → e <= emax - prec → (x * b2 e <= b2 (emax - 1))%R →
  l = loc_Exact ∨ e <= fexp (Zdigits2 m + e) →
  let r := binary_round_aux prec emax s m e l in
  fin r ∧ near (sgn s * (x * b2 e)) (val r).
Proof.
  intros Hm Hx He Hv Hl. cbv zeta.
  destruct (round_aux_real s m e l x Hm Hx He Hv) as (n & Hfin & Hval & Hn & Herr & _ & Hex).
  set (e' := Z.max e (fexp (Zdigits2 m + e))) in *. split; [exact Hfin|].
  assert (0 <= x)%R as Hx0.
  { pose proof (at_loc_bounds _ _ _ Hx) as [H _]. apply IZR_le in Hm. lra. }
  pose proof (b2_pos e) as Hbe. pose proof (b2_pos e') as Hbe'. pose proof (b2_pos (- prec)) as Hu.
  pose proof (b2_pos (emin - 1)) as Heta.
  assert (0 <= x * b2 e)%R as Hv0 by nra.
  unfold near. rewrite Hval, <- Rmult_minus_distr_l, !sgn_abs, (Rabs_pos_eq (x * b2 e)) by done.
  assert (x * b2 e = x * b2 (e - e') * b2 e')%R as Hsc.
  { rewrite Rmult_assoc, <- b2_add. by replace (e - e' + e') with e by lia. }
  destruct (decide (l = loc_Exact ∧ e' = e)) as [[-> Hee]|Hnot].
  - rewrite (Hex eq_refl Hee). cbn in Hx. rewrite Hx, Hee.
    replace (IZR m * b2 e - IZR m * b2 e)%R with 0%R by lra. rewrite Rabs_R0.
    rewrite Hx in Hv0. nra.
  - assert (e' = fexp (Zdigits2 m + e)) as He'.
    { unfold e'. destruct Hl as [->|]; [|lia].
      destruct (decide (e <= fexp (Zdigits2 m + e))); [lia|].
      exfalso. apply Hnot. split; [done|]. unfold e'. lia. }
    assert (b2 (e' - 1) <= x * b2 e * b2 (- prec) + b2 (emin - 1))%R as Hb.
    { destruct (decide (e' = emin)) as [->|Hne]; [nra|].
      assert (e' = Zdigits2 m + e - prec) as Hd by (unfold SpecFloat.fexp in *; lia).
      destruct (decide (m = 0)) as [->|Hm0].
      { exfalso. cbn [Zdigits2] in Hd, He'. destruct Hl as [->|Hl].
        - apply Hnot. split; [done|]. unfold e' in *. unfold SpecFloat.fexp in *. cbn in *. lia.
        - unfold SpecFloat.fexp in *. cbn in *. lia. }
      destruct (Zdigits2_bounds m ltac:(lia)) as [Hlo _].
      assert (0 < Zdigits2 m) by (destruct m; cbn; lia).
      pose proof (at_loc_bounds _ _ _ Hx) as [Hmx _].
      apply IZR_le in Hlo. rewrite b2_IZR in Hlo by lia.
      rewrite Hd. replace (Zdigits2 m + e - prec - 1) with (Zdigits2 m - 1 + e + - prec) by lia.
      rewrite !b2_add. assert (b2 (Zdigits2 m - 1) * b2 e <= x * b2 e)%R by nra. nra. }
    rewrite Hsc, <- Rmult_minus_distr_r, Rabs_mult, (Rabs_pos_eq (b2 e')) by lra.
    rewrite b2_half in Hb. rewrite <- Hsc. nra.
Qed.

Lemma iter_xO mx d : IZR (Zpos (Pos.iter xO mx d)) = (IZR (Zpos mx) * b2 (Zpos d))%R.
Proof.
  induction d as [|d IH] using Pos.peano_ind.
  - cbn [Pos.iter]. rewrite IZR_xO. change (b2 1) with (2 * 1)%R. lra.
  - rewrite Pos.iter_succ, IZR_xO, IH, Pos2Z.inj_succ, <- Z.add_1_r, b2_succ. lra.
Qed.

Lemma shl_align_real mx ex ex' mz ez : shl_align mx ex ex' = (mz, ez) →
  (IZR (Zpos mz) * b2 ez = IZR (Zpos mx) * b2 ex)%R ∧ ez = Z.min ex ex' ∧
  Zpos mz = Zpos mx * 2 ^ (ex - ez).
Proof.
  unfold shl_align. destruct (ex' - ex) as [|d|d] eqn:Hd; intros [= <- <-].
  1, 2: split; [done|split; [lia|]]; replace (ex - ex) with 0 by lia; lia.
  rewrite iter_xO, Rmult_assoc, <- b2_add.
  split; [f_equal; f_equal; lia|split; [lia|]].
  apply eq_IZR. rewrite iter_xO, mult_IZR, b2_IZR by lia. f_equal. f_equal. lia.
Qed.

Lemma log2_shift m k : 0 < m → 0 <= k → Zdigits2 (m * 2 ^ k) = Zdigits2 m + k.
Proof.
  intros Hm Hk. destruct m as [|p|p]; try lia.
  assert (0 < Zpos p * 2 ^ k) as Hp by (pose proof (Z.pow_pos_nonneg 2 k); nia).
  destruct (Zpos p * 2 ^ k) as [|q|q] eqn:Hq; try lia. cbn [Zdigits2].
  rewrite !digits_log2, <- Hq, Z.log2_mul_pow2 by lia. lia.
Qed.

Lemma binary_round_near s mx ex : (IZR (Zpos mx) * b2 ex <= b2 (emax - 1))%R →
  let r := binary_round prec emax s mx ex in
  fin r ∧ near (sgn s * (IZR (Zpos mx) * b2 ex)) (val r) ∧
  (Zpos mx < 2 ^ prec → emin <= ex → val r = (sgn s * (IZR (Zpos mx) * b2 ex))%R).
Proof.
  intros Hv. cbv zeta. unfold binary_round.
  destruct (shl_align mx ex _) as [mz ez] eqn:Hal.
  pose proof (Hal) as Hal'. apply shl_align_real in Hal as (Hval & Hez & Hmz).
  change (Zpos (digits2_pos mx)) with (Zdigits2 (Zpos mx)) in *.
  assert (Zdigits2 (Zpos mz) + ez = Zdigits2 (Zpos mx) + ex) as Hdig.
  { rewrite Hmz, log2_shift by lia. lia. }
  assert (ez <= fexp (Zdigits2 (Zpos mz) + ez)) as Hfe by (rewrite Hdig; lia).
  assert (ez <= emax - prec) as Hemax.
  { destruct (Zdigits2_bounds (Zpos mz) ltac:(lia)) as [Hlo _].
    assert (0 < Zdigits2 (Zpos mz)) by (cbn; lia).
    apply IZR_le in Hlo. rewrite b2_IZR in Hlo by lia.
    assert (b2 (Zdigits2 (Zpos mz) - 1 + ez) <= b2 (emax - 1))%R as Hb.
    { rewrite b2_add. rewrite <- Hval in Hv. pose proof (b2_pos ez). nra. }
    apply b2_lt_inv in Hb. unfold SpecFloat.fexp, SpecFloat.emin in *. lia. }
  rewrite <- Hval in Hv. rewrite <- Hval.
  destruct (round_aux_near s (Zpos mz) ez loc_Exact (IZR (Zpos mz)) ltac:(lia) eq_refl Hemax Hv
    (or_intror Hfe)) as [H1 H2].
  split; [exact H1|split; [exact H2|]]. intros Hsm Hem.
  destruct (round_aux_real s (Zpos mz) ez loc_Exact (IZR (Zpos mz)) ltac:(lia) eq_refl Hemax Hv)
    as (n & _ & Hn & _ & _ & _ & Hex).
  assert (Z.max ez (fexp (Zdigits2 (Zpos mz) + ez)) = ez) as Heq.
  { rewrite Hdig. pose proof (Zdigits2_le (Zpos mx) prec ltac:(lia) ltac:(lia) Hsm).
    destruct (decide (fexp (Zdigits2 (Zpos mx) + ex) <= ex)); [lia|].
    unfold SpecFloat.fexp in *. lia. }
  rewrite Hn, (Hex eq_refl Heq), Heq. done.
Qed.

Lemma near_0 : near 0 0.
Proof. unfold near. replace (0 - 0)%R with 0%R by lra. rewrite Rabs_R0. pose proof (b2_pos (emin - 1)). lra. Qed.

Lemma near_refl v : near v v.
Proof.
  unfold near. replace (v - v)%R with 0%R by lra. rewrite Rabs_R0.
  pose proof (b2_pos (emin - 1)). pose proof (b2_pos (- prec)). pose proof (Rabs_pos v). nra.
Qed.

Lemma near_eq v r : r = v → near v r.
Proof. intros ->. apply near_refl. Qed.

Lemma binary_normalize_near m e b : (Rabs (IZR m * b2 e) <= b2 (emax - 1))%R →
  let r := binary_normalize prec emax m e b in
  fin r ∧ near (IZR m * b2 e) (val r) ∧
  (Z.abs m < 2 ^ prec → emin <= e → val r = (IZR m * b2 e)%R).
Proof.
  intros Hv. cbv zeta. pose proof (b2_pos e) as He. destruct m as [|p|p]; cbn [binary_normalize].
  - cbn [val]. rewrite Rmult_0_l. split; [done|split; [apply near_0|done]].
  - assert (0 < IZR (Zpos p))%R by (apply IZR_lt; lia).
    rewrite Rabs_pos_eq in Hv by nra.
    destruct (binary_round_near false p e Hv) as (H1 & H2 & H3). cbn [sgn] in H2, H3.
    rewrite Rmult_1_l in H2, H3. auto.
  - assert (0 < IZR (Zpos p))%R by (apply IZR_lt; lia).
    assert (IZR (Zneg p) * b2 e = -1 * (IZR (Zpos p) * b2 e))%R as Hneg.
    { change (Zneg p) with (- Zpos p). rewrite opp_IZR. lra. }
    rewrite Hneg in *.
    rewrite Rabs_left1 in Hv by nra.
    destruct (binary_round_near true p e ltac:(lra)) as (H1 & H2 & H3). cbn [sgn] in H2, H3. auto.
Qed.

Lemma binary_normalize_canonical m e b : canonical (binary_normalize prec emax m e b).
Proof.
  assert (∀ s p, canonical (binary_round prec emax s p e)) as Hr.
  { intros s p. unfold binary_round. destruct (shl_align p e _) as [mz ez] eqn:Hal.
    apply shl_align_real in Hal as (_ & Hez & Hmz).
    change (Zpos (digits2_pos p)) with (Zdigits2 (Zpos p)) in *.
    apply (round_aux_canonical _ _ _ _ (IZR (Zpos mz))); [lia|done|].
    assert (Zdigits2 (Zpos mz) + ez = Zdigits2 (Zpos p) + e) as ->; [|lia].
    rewrite Hmz, log2_shift by lia. lia. }
  destruct m; [done|apply Hr|apply Hr].
Qed.

(** ** Operations *)

Lemma val_cond_Zopp s m e : (IZR (cond_Zopp s (Zpos m)) * b2 e = sgn s * (IZR (Zpos m) * b2 e))%R.
Proof. destruct s; cbn [cond_Zopp sgn]; rewrite ?opp_IZR; lra. Qed.

Lemma shl_fst s mx ex ez : ez <= ex →
  (IZR (cond_Zopp s (Zpos (fst (shl_align mx ex ez)))) * b2 ez = sgn s * (IZR (Zpos mx) * b2 ex))%R.
Proof.
  intros H. destruct (shl_align mx ex ez) as [mz ez'] eqn:Hal.
  apply shl_align_real in Hal as (Hv & He & _). cbn [fst].
  assert (ez' = ez) as -> by lia. rewrite val_cond_Zopp. by rewrite Hv.
Qed.

Lemma SFadd_near x y : fin x → fin y → (Rabs (val x + val y) <= b2 (emax - 1))%R →
  fin (SFadd prec emax x y) ∧ near (val x + val y) (val (SFadd prec emax x y)).
Proof.
  intros Hx Hy Hv.
  destruct x as [[]| | |sx mx ex], y as [[]| | |sy my ey]; try done; cbn [SFadd val] in *;
    rewrite ?Rplus_0_l, ?Rplus_0_r; try (split; [done|]; first [apply near_0|apply near_refl]).
  cbv zeta. set (ez := Z.min ex ey).
  rewrite <- (shl_fst sx mx ex ez), <- (shl_fst sy my ey ez), <- Rmult_plus_distr_r, <- plus_IZR in * by lia.
  destruct (binary_normalize_near _ _ false Hv) as (H1 & H2 & _). done.
Qed.

Lemma val_opp x : val (SFopp x) = (- val x)%R.
Proof. destruct x as [| | |[]]; cbn [SFopp val sgn negb]; lra. Qed.

Lemma fin_opp x : fin x → fin (SFopp x).
Proof. by destruct x. Qed.

Lemma sgn_negb s : sgn (negb s) = (- sgn s)%R.
Proof. destruct s; cbn; lra. Qed.

Lemma SFsub_near x y : fin x → fin y → (Rabs (val x - val y) <= b2 (emax - 1))%R →
  fin (SFsub prec emax x y) ∧ near (val x - val y) (val (SFsub prec emax x y)).
Proof.
  intros Hx Hy Hv.
  destruct x as [[]| | |sx mx ex], y as [[]| | |sy my ey]; try done; cbn [SFsub val] in *;
    try (split; [done|]; apply near_eq; rewrite ?sgn_negb; lra).
  cbv zeta. set (ez := Z.min ex ey).
  rewrite <- (shl_fst sx mx ex ez), <- (shl_fst sy my ey ez), <- Rmult_minus_distr_r, <- minus_IZR in * by lia.
  destruct (binary_normalize_near _ _ false Hv) as (H1 & H2 & _). done.
Qed.

Lemma sgn_mul s s' : (sgn (xorb s s') = sgn s * sgn s')%R.
Proof. destruct s, s'; cbn; lra. Qed.

(** The product of the significands is exact when the exponents are not too large. *)
Definition small_exps (x y : float) : Prop :=
  match x, y with
  | S754_finite _ _ ex, S754_finite _ _ ey => ex + ey <= emax - prec
  | _, _ => True
  end.

Lemma val_mul sx mx ex sy my ey :
  (val (S754_finite sx mx ex) * val (S754_finite sy my ey) =
   sgn (xorb sx sy) * (IZR (Zpos (mx * my)) * b2 (ex + ey)))%R.
Proof. cbn [val]. rewrite sgn_mul, Pos2Z.inj_mul, mult_IZR, b2_add. ring. Qed.

Lemma SFmul_near_exps x y : fin x → fin y → small_exps x y → (Rabs (val x * val y) <= b2 (emax - 1))%R →
  fin (SFmul prec emax x y) ∧ near (val x * val y) (val (SFmul prec emax x y)).
Proof.
  intros Hx Hy He Hv.
  destruct x as [[]| | |sx mx ex], y as [[]| | |sy my ey]; try done; cbn [SFmul];
    try (cbn [val]; rewrite ?Rmult_0_l, ?Rmult_0_r; split; [done|apply near_0]).
  rewrite val_mul in *. rewrite sgn_abs in Hv. pose proof (mag_pos (mx * my) (ex + ey)).
  rewrite Rabs_pos_eq in Hv by lra. apply round_aux_near; [lia|done|exact He|lra|by left].
Qed.

Lemma SFmul_near x y : fin x → fin y → (Rabs (val x * val y) <= b2 (emax - prec))%R →
  fin (SFmul prec emax x y) ∧ near (val x * val y) (val (SFmul prec emax x y)).
Proof.
  intros Hx Hy Hv. apply SFmul_near_exps; [done|done| |].
  - destruct x as [| | |sx mx ex], y as [| | |sy my ey]; try done; cbn [small_exps].
    rewrite val_mul, sgn_abs in Hv. pose proof (b2_pos (ex + ey)) as Hb.
    assert (1 <= IZR (Zpos (mx * my)))%R as H1 by (apply (IZR_le 1); lia).
    rewrite Rabs_pos_eq in Hv by nra. apply b2_lt_inv. nra.
  - assert (b2 (emax - prec) <= b2 (emax - 1))%R by (apply b2_le; lia). lra.
Qed.

Lemma fma_near a b c : fin a → fin b → fin c →
  (Rabs (val a * val b + val c) <= b2 (emax - 1))%R →
  fin (fma prec emax a b c) ∧ near (val a * val b + val c) (val (fma prec emax a b c)).
Proof.
  intros Ha Hb Hc Hv.
  destruct (decide (is_zero a ∨ is_zero b)) as [Hz|Hnz].
  - assert (val a * val b = 0)%R as Hab by (destruct Hz as [Hz|Hz]; [destruct a|destruct b]; try done; cbn; lra).
    assert (∃ s, SFmul prec emax a b = S754_zero s) as [s Hs]
      by (destruct a, b; try done; cbn [SFmul]; eauto; by destruct Hz).
    rewrite Hab in *.
    replace (fma prec emax a b c) with (SFadd prec emax (S754_zero s) c)
      by (rewrite <- Hs; destruct a, b; try done; by destruct Hz).
    by apply (SFadd_near (S754_zero s) c).
  - destruct a as [sa| | |sa ma ea], b as [sb| | |sb mb eb]; try done; try (exfalso; apply Hnz; cbn; tauto).
    assert (val (S754_finite sa ma ea) * val (S754_finite sb mb eb)
      = IZR (cond_Zopp (xorb sa sb) (Zpos (ma * mb))) * b2 (ea + eb))%R as Hprod.
    { rewrite val_cond_Zopp. cbn [val]. rewrite sgn_mul, Pos2Z.inj_mul, mult_IZR, b2_add. ring. }
    rewrite Hprod in *.
    destruct c as [sc| | |sc mc ec]; try done; cbn [fma].
    + cbn [val] in *. rewrite Rplus_0_r in *.
      destruct (binary_normalize_near _ _ false Hv) as (H1 & H2 & _). done.
    + cbv zeta. set (e := Z.min (ea + eb) ec).
      assert (∀ s m f, e <= f →
        (IZR (cond_Zopp s (Zpos m * 2 ^ (f - e))) * b2 e = IZR (cond_Zopp s (Zpos m)) * b2 f)%R) as Hsc.
      { intros s m f Hf. replace f with (f - e + e) at 2 by lia.
        destruct s; cbn [cond_Zopp]; rewrite ?opp_IZR, mult_IZR, b2_IZR, b2_add by lia; ring. }
      cbn [val] in *. rewrite <- val_cond_Zopp in *.
      rewrite <- (Hsc _ _ (ea + eb)), <- (Hsc _ _ ec), <- Rmult_plus_distr_r, <- plus_IZR in * by lia.
      destruct (binary_normalize_near _ _ false Hv) as (H1 & H2 & _). done.
Qed.

Lemma round_to_near x : fin x → (Rabs (val x) <= b2 (emax - 1))%R →
  fin (round_to prec emax x) ∧ near (val x) (val (round_to prec emax x)).
Proof.
  intros Hx Hv. destruct x as [s| | |s m e]; try done; cbn [round_to].
  - split; [done|apply near_0].
  - cbn [val] in *. rewrite <- val_cond_Zopp in *.
    destruct (binary_normalize_near _ _ s Hv) as (H1 & H2 & _). done.
Qed.

(** A narrower value is converted exactly. *)
Lemma round_to_exact s m e : Zpos m < 2 ^ prec → emin <= e →
  (Rabs (val (S754_finite s m e)) <= b2 (emax - 1))%R →
  fin (round_to prec emax (S754_finite s m e)) ∧
  val (round_to prec emax (S754_finite s m e)) = val (S754_finite s m e).
Proof.
  intros Hm He Hv. cbn [round_to]. cbn [val] in *. rewrite <- val_cond_Zopp in *.
  destruct (binary_normalize_near _ _ s Hv) as (H1 & _ & H3). split; [done|].
  apply H3; [|done]. destruct s; cbn [cond_Zopp]; lia.
Qed.

(** *** Division *)

Lemma new_location_at m2 q r : 0 < m2 → 0 <= r < m2 →
  at_loc q (new_location m2 r) (IZR q + IZR r / IZR m2).
Proof.
  intros Hm Hr. assert (0 < IZR m2)%R as HR by (apply IZR_lt; lia).
  set (d := (IZR r / IZR m2)%R).
  assert (d * IZR m2 = IZR r)%R as Hd.
  { unfold d, Rdiv. rewrite Rmult_assoc, Rinv_l by lra. lra. }
  clearbody d.
  assert (0 < r → (0 < d)%R) as Hpos.
  { intros H. assert (0 < IZR r)%R by (apply IZR_lt; lia). nra. }
  assert (2 * r < m2 → (d < 1 / 2)%R) as Hlt.
  { intros H. assert (2 * IZR r < IZR m2)%R by (rewrite <- mult_IZR; apply IZR_lt; lia). nra. }
  assert (m2 < 2 * r → (1 / 2 < d)%R) as Hgt.
  { intros H. assert (IZR m2 < 2 * IZR r)%R by (rewrite <- mult_IZR; apply IZR_lt; lia). nra. }
  assert (d < 1)%R as H1.
  { assert (IZR r < IZR m2)%R by (apply IZR_lt; lia). nra. }
  assert (r = 0 → d = 0%R) as H0 by (intros ->; apply (Rmult_eq_reg_r (IZR m2)); lra).
  unfold new_location. destruct (Z.even m2) eqn:Hev.
  - apply Z.even_spec in Hev as [k Hk]. unfold new_location_even.
    destruct (Z.eqb_spec r 0) as [Hr0|Hr0]; [specialize (H0 Hr0); cbn [at_loc]; lra|].
    specialize (Hpos ltac:(lia)).
    destruct (Z.compare_spec (2 * r) m2) as [He|He|He]; cbn [at_loc].
    + assert (2 * IZR r = IZR m2)%R by (rewrite <- mult_IZR; f_equal; lia).
      assert (d = 1 / 2)%R by (apply (Rmult_eq_reg_r (IZR m2)); lra). lra.
    + specialize (Hlt He). lra.
    + specialize (Hgt He). lra.
  - assert (Z.odd m2 = true) as Hodd by (rewrite <- Z.negb_even, Hev; done).
    apply Z.odd_spec in Hodd as [k Hk]. unfold new_location_odd.
    destruct (Z.eqb_spec r 0) as [Hr0|Hr0]; [specialize (H0 Hr0); cbn [at_loc]; lra|].
    specialize (Hpos ltac:(lia)).
    destruct (Z.compare_spec (2 * r + 1) m2) as [He|He|He]; cbn [at_loc].
    + specialize (Hlt ltac:(lia)). lra.
    + specialize (Hlt ltac:(lia)). lra.
    + specialize (Hgt ltac:(lia)). lra.
Qed.

Lemma SFdiv_core_at m1 e1 m2 e2 : 0 < m1 → 0 < m2 →
  ∃ q e' l x, SFdiv_core_binary prec emax m1 e1 m2 e2 = (q, e', l) ∧
    0 <= q ∧ at_loc q l x ∧ (x * b2 e' * (IZR m2 * b2 e2) = IZR m1 * b2 e1)%R ∧
    e' <= fexp (Zdigits2 q + e') ∧ e' <= fexp (Zdigits2 m1 + e1 - (Zdigits2 m2 + e2)).
Proof.
  intros H1 H2. unfold SFdiv_core_binary. cbv zeta.
  set (D := Zdigits2 m1 + e1 - (Zdigits2 m2 + e2)). set (e' := Z.min (fexp D) (e1 - e2)).
  set (s := e1 - e2 - e'). assert (0 <= s) as Hs by lia.
  assert (match s with Z0 => m1 | Zpos _ => Z.shiftl m1 s | Zneg _ => 0 end = m1 * 2 ^ s) as ->.
  { destruct s; [lia|by rewrite Z.shiftl_mul_pow2|lia]. }
  set (m' := m1 * 2 ^ s). pose proof (Z_div_mod m' m2 ltac:(lia)) as Hdm.
  destruct (Z.div_eucl m' m2) as [q r]. destruct Hdm as [Hm' Hr].
  assert (0 < m') as Hm'0 by (pose proof (Z.pow_pos_nonneg 2 s); nia).
  assert (0 <= q) as Hq by nia.
  exists q, e', (new_location m2 r), (IZR q + IZR r / IZR m2)%R.
  assert (0 < IZR m2)%R as HR by (apply IZR_lt; lia).
  split; [done|split; [done|split; [by apply new_location_at; lia|split; [|split; [|lia]]]]].
  - assert ((IZR q + IZR r / IZR m2) * IZR m2 = IZR m')%R as Hx.
    { rewrite Hm', plus_IZR, mult_IZR. unfold Rdiv. field. lra. }
    transitivity (IZR m' * b2 (e' + e2))%R.
    + rewrite <- Hx, b2_add. ring.
    + unfold m'. rewrite mult_IZR, b2_IZR by done. rewrite Rmult_assoc, <- b2_add.
      f_equal. f_equal. lia.
  - assert (D - e' <= Zdigits2 q) as Hdq.
    { destruct (decide (D - e' <= 0)) as [|Hpos]; [pose proof (Zdigits2_nonneg q); lia|].
      replace (D - e') with (D - e' - 1 + 1) by lia. apply Zdigits2_ge; [lia|].
      destruct (Zdigits2_bounds m1 H1) as [Hlo _]. destruct (Zdigits2_bounds m2 H2) as [_ Hhi].
      assert (0 < Zdigits2 m1) by (destruct m1; cbn; lia).
      assert (2 ^ (D - e' - 1) * 2 ^ Zdigits2 m2 <= m') as Hle.
      { rewrite <- Z.pow_add_r by (pose proof (Zdigits2_nonneg m2); lia).
        replace (D - e' - 1 + Zdigits2 m2) with (Zdigits2 m1 - 1 + s) by lia.
        rewrite Z.pow_add_r by lia. pose proof (Z.pow_pos_nonneg 2 s). unfold m'. nia. }
      assert (2 ^ (D - e' - 1) * m2 < m2 * (q + 1)) by nia. nia. }
    assert (e' <= fexp D) as He' by lia. unfold SpecFloat.fexp in *. lia.
Qed.

Lemma SFdiv_near x y : fin x → fin y → is_zero y = false →
  (Rabs (val x / val y) <= b2 (emax - 1))%R →
  fin (SFdiv prec emax x y) ∧ near (val x / val y) (val (SFdiv prec emax x y)).
Proof.
  intros Hx Hy Hy0 Hv.
  destruct y as [| | |sy my ey]; try done. destruct x as [sx| | |sx mx ex]; try done.
  { cbn [SFdiv val]. unfold Rdiv. rewrite Rmult_0_l. split; [done|apply near_0]. }
  cbn [SFdiv].
  destruct (SFdiv_core_at (Zpos mx) ex (Zpos my) ey ltac:(lia) ltac:(lia))
    as (q & e' & l & t & -> & Hq & Hat & Hval & He & HeD).
  assert (0 < IZR (Zpos my) * b2 ey)%R as Hden.
  { assert (0 < IZR (Zpos my))%R by (apply IZR_lt; lia). pose proof (b2_pos ey). nra. }
  assert (val (S754_finite sx mx ex) / val (S754_finite sy my ey) = sgn (xorb sx sy) * (t * b2 e'))%R as Heq.
  { cbn [val]. rewrite <- Hval, sgn_mul. revert Hden. generalize (IZR (Zpos my) * b2 ey)%R.
    intros Y HY. destruct sx, sy; cbn [sgn]; field; lra. }
  rewrite Heq in *. rewrite sgn_abs in Hv.
  assert (0 <= t)%R as Ht.
  { apply at_loc_bounds in Hat as [H _]. apply IZR_le in Hq. lra. }
  pose proof (b2_pos e') as Hbe. rewrite Rabs_pos_eq in Hv by nra.
  apply round_aux_near; [done|done| |done|by right].
  destruct (Zdigits2_bounds (Zpos mx) ltac:(lia)) as [Hlo _].
  destruct (Zdigits2_bounds (Zpos my) ltac:(lia)) as [_ Hhi].
  assert (0 < Zdigits2 (Zpos mx)) by (cbn; lia).
  apply IZR_le in Hlo. apply IZR_lt in Hhi.
  rewrite b2_IZR in Hlo by lia. rewrite b2_IZR in Hhi by apply Zdigits2_nonneg.
  assert (b2 (Zdigits2 (Zpos mx) - 1 + ex) < b2 (emax - 1 + (Zdigits2 (Zpos my) + ey)))%R as Hb.
  { rewrite (b2_add (emax - 1)), (b2_add _ ey), (b2_add _ ex).
    pose proof (b2_pos ex). pose proof (b2_pos ey). pose proof (b2_pos (emax - 1)).
    assert (IZR (Zpos my) * b2 ey < b2 (Zdigits2 (Zpos my)) * b2 ey)%R by nra.
    apply (Rle_lt_trans _ (IZR (Zpos mx) * b2 ex)); [apply Rmult_le_compat_r; lra|].
    rewrite <- Hval. apply (Rle_lt_trans _ (b2 (emax - 1) * (IZR (Zpos my) * b2 ey))).
    - apply Rmult_le_compat_r; lra.
    - apply Rmult_lt_compat_l; lra. }
  assert (Zdigits2 (Zpos mx) - 1 + ex <= emax - 1 + (Zdigits2 (Zpos my) + ey)) as Hz
    by (apply b2_lt_inv; lra).
  unfold SpecFloat.fexp, SpecFloat.emin in *. lia.
Qed.
End format.
