(* ===== verification/ThreadPool.v ===== *)
(** The worker pool ([mzcache/include/mzcache_threadpool.h]) and the per-layer
    completion counter [LayerSync] ([mzcache/include/mzcache_core.h]).

    The pool is a step relation: each step is one critical section of a worker
    ([take], [finish], [exit_worker]), one task body ([run]), one step of a
    caller of [wait_idle_all], or [stop] in the destructor.  What a task body
    does to the rest of the program, and which tasks it enqueues, is the
    parameter [exec]; [None] means that it blocks. *)
From Stdlib Require Import Sorting.Sorted.
From S2P Require Import Prelude Floats Profile.

Section pool.
Context {Task World : Type}.

(** [struct ThreadGroup]: worker threads, queue and active count, and the
    phases the program does not store: the bodies being executed, the bodies
    ended whose worker has not decremented [active] yet, the tasks submitted so
    far and those whose body has ended. *)
Record ThreadGroup := Group {
  workers : Z;
  tasks : list Task;
  active : Z;
  running : list Task;
  ending : Z;
  submitted : list Task;
  ended : list Task }.

Record ThreadPool := Pool { groups : CoreType → option ThreadGroup; stop : bool }.

(** The constructor: one group per configured type, one thread per core. *)
Definition make_pool (cfg : core_config) : ThreadPool :=
  Pool (λ t, (λ cores, Group (Z.of_nat (length cores)) [] 0 [] 0 [] []) <$> cfg_at cfg t) false.

Definition set_group (t : CoreType) (g : ThreadGroup) (p : ThreadPool) : ThreadPool :=
  Pool (<[t := Some g]> p.(groups)) p.(stop).

(** [enqueue]: [groups.at] throws for a type without a group. *)
Definition enqueue (t : CoreType) (x : Task) (p : ThreadPool) : outcome ThreadPool :=
  match p.(groups) t with
  | None => Throw
  | Some g =>
      if p.(stop) then Throw
      else Ok (set_group t (Group g.(workers) (g.(tasks) ++ [x]) g.(active) g.(running)
                              g.(ending) (g.(submitted) ++ [x]) g.(ended)) p)
  end.

Fixpoint enqueue_all (l : list (CoreType * Task)) (p : ThreadPool) : outcome ThreadPool :=
  match l with
  | [] => Ok p
  | (t, x) :: l => p' <~ enqueue t x p ;; enqueue_all l p'
  end.

(** The predicate of [wait_idle] and [wait_idle_all]. *)
Definition idle (g : ThreadGroup) : bool :=
  match g.(tasks) with [] => g.(active) =? 0 | _ => false end.

(** A free worker pops the front task and increments [active]. *)
Definition take (t : CoreType) (p : ThreadPool) : option ThreadPool :=
  match p.(groups) t with
  | Some g =>
      if g.(active) <? g.(workers) then
        match g.(tasks) with
        | x :: rest => Some (set_group t (Group g.(workers) rest (g.(active) + 1)
                               (g.(running) ++ [x]) g.(ending) g.(submitted) g.(ended)) p)
        | [] => None
        end
      else None
  | None => None
  end.

(** The worker's second critical section: [--active]. *)
Definition finish (t : CoreType) (p : ThreadPool) : option ThreadPool :=
  match p.(groups) t with
  | Some g =>
      if 0 <? g.(ending) then
        Some (set_group t (Group g.(workers) g.(tasks) (g.(active) - 1) g.(running)
                             (g.(ending) - 1) g.(submitted) g.(ended)) p)
      else None
  | None => None
  end.

(** [if (stop && grp.tasks.empty()) return;] *)
Definition exit_worker (t : CoreType) (p : ThreadPool) : option ThreadPool :=
  match p.(groups) t with
  | Some g =>
      if p.(stop) && (g.(active) <? g.(workers)) && bool_decide (length g.(tasks) = 0%nat) then
        Some (set_group t (Group (g.(workers) - 1) g.(tasks) g.(active) g.(running)
                             g.(ending) g.(submitted) g.(ended)) p)
      else None
  | None => None
  end.

(** Ending the body of a running task. *)
Definition end_body (t : CoreType) (l1 : list Task) (x : Task) (l2 : list Task)
    (g : ThreadGroup) (p : ThreadPool) : ThreadPool :=
  set_group t (Group g.(workers) g.(tasks) g.(active) (l1 ++ l2) (g.(ending) + 1)
                 g.(submitted) (g.(ended) ++ [x])) p.

Context (exec : CoreType → Task → World → option (World * list (CoreType * Task))).

(** The groups in [std::map] order, as [wait_idle_all] visits them. *)
Definition wait_idle_all (p : ThreadPool) : list CoreType :=
  List.filter (λ t, match p.(groups) t with Some _ => true | None => false end)
    [ALLOC; READ; DECOMP; DECOMP_KERNEL; FREE].

(** The main thread either runs ([None]) and may enqueue, or is inside
    [wait_idle_all] with the groups it has still to wait for. *)
Inductive pool_step : World * ThreadPool * option (list CoreType) →
                      World * ThreadPool * option (list CoreType) → Prop :=
| step_enqueue w p p' t x : enqueue t x p = Ok p' → pool_step (w, p, None) (w, p', None)
| step_call w p : pool_step (w, p, None) (w, p, Some (wait_idle_all p))
| step_wait w p ws t g : p.(groups) t = Some g → idle g = true →
    pool_step (w, p, Some (t :: ws)) (w, p, Some ws)
| step_return w p : pool_step (w, p, Some []) (w, p, None)
| step_stop w p : pool_step (w, p, None) (w, Pool p.(groups) true, None)
| step_take w p p' ws t : take t p = Some p' → pool_step (w, p, ws) (w, p', ws)
| step_run w w' p p' ws t g l1 x l2 ch :
    p.(groups) t = Some g → g.(running) = l1 ++ x :: l2 →
    exec t x w = Some (w', ch) →
    enqueue_all ch (end_body t l1 x l2 g p) = Ok p' →
    pool_step (w, p, ws) (w', p', ws)
| step_finish w p p' ws t : finish t p = Some p' → pool_step (w, p, ws) (w, p', ws)
| step_exit w p p' ws t : exit_worker t p = Some p' → pool_step (w, p, ws) (w, p', ws).

Definition pool_steps := rtc pool_step.

(** ** The invariant of a group *)
Record group_ok (g : ThreadGroup) : Prop := GroupOk {
  go_active : g.(active) = Z.of_nat (length g.(running)) + g.(ending);
  go_ending : 0 <= g.(ending);
  go_workers : g.(active) <= g.(workers);
  go_all : g.(submitted) ≡ₚ g.(ended) ++ g.(running) ++ g.(tasks);
  go_fifo : ∃ started, g.(submitted) = started ++ g.(tasks) }.

Definition pool_ok (p : ThreadPool) : Prop := ∀ t g, p.(groups) t = Some g → group_ok g.

Lemma make_pool_ok cfg : pool_ok (make_pool cfg).
Proof.
  intros t g. unfold make_pool. simpl. destruct (cfg_at cfg t) as [cores|]; [|done].
  intros [= <-]. split; simpl; try (done || lia). by exists [].
Qed.

Lemma set_group_ok t g p : pool_ok p → group_ok g → pool_ok (set_group t g p).
Proof.
  intros Hp Hg t' g'. unfold set_group; simpl. destruct (decide (t = t')) as [->|Hne].
  - rewrite fn_lookup_insert. by intros [= <-].
  - rewrite fn_lookup_insert_ne by done. apply Hp.
Qed.

Lemma enqueue_ok t x p p' : pool_ok p → enqueue t x p = Ok p' → pool_ok p'.
Proof.
  unfold enqueue. intros Hp. destruct (groups p t) as [g|] eqn:E; [|done].
  destruct (stop p); [done|]. intros [= <-]. apply set_group_ok; [done|].
  destruct (Hp t g E). split; simpl; try done.
  - rewrite go_all0. by rewrite !app_assoc.
  - destruct go_fifo0 as [st ->]. exists st. by rewrite app_assoc.
Qed.

Lemma enqueue_all_ok l p p' : pool_ok p → enqueue_all l p = Ok p' → pool_ok p'.
Proof.
  revert p. induction l as [|[t x] l IH]; simpl; intros p Hp H; [by injection H as <-|].
  apply obind_ok in H as (p1 & H1 & H2). apply (IH p1); [|done]. by eapply enqueue_ok.
Qed.

Lemma end_body_ok t l1 x l2 g p : pool_ok p → p.(groups) t = Some g →
  g.(running) = l1 ++ x :: l2 → pool_ok (end_body t l1 x l2 g p).
Proof.
  intros Hp E Hr. apply set_group_ok; [done|]. destruct (Hp t g E).
  rewrite Hr, length_app in *. simpl in *.
  split; simpl; rewrite ?length_app; try (done || lia).
  rewrite go_all0. solve_Permutation.
Qed.

Lemma take_ok t p p' : pool_ok p → take t p = Some p' → pool_ok p'.
Proof.
  unfold take. intros Hp. destruct (groups p t) as [g|] eqn:E; [|done].
  destruct (Z.ltb_spec (active g) (workers g)); [|done].
  destruct (tasks g) as [|x rest] eqn:Et; [done|]. intros [= <-].
  apply set_group_ok; [done|]. destruct (Hp t g E). rewrite Et in *.
  split; simpl; rewrite ?length_app; simpl; try lia.
  - rewrite go_all0. solve_Permutation.
  - destruct go_fifo0 as [st ->]. exists (st ++ [x]). by rewrite <- app_assoc.
Qed.

Lemma finish_ok t p p' : pool_ok p → finish t p = Some p' → pool_ok p'.
Proof.
  unfold finish. intros Hp. destruct (groups p t) as [g|] eqn:E; [|done].
  destruct (Z.ltb_spec 0 (ending g)); [|done]. intros [= <-].
  apply set_group_ok; [done|]. destruct (Hp t g E). split; simpl; (done || lia).
Qed.

Lemma exit_ok t p p' : pool_ok p → exit_worker t p = Some p' → pool_ok p'.
Proof.
  unfold exit_worker. intros Hp. destruct (groups p t) as [g|] eqn:E; [|done].
  destruct (stop p && _ && _) eqn:Ec; [|done]. intros [= <-]. propify.
  apply set_group_ok; [done|]. destruct (Hp t g E). split; simpl; (done || lia).
Qed.

Lemma pool_step_ok s s' : pool_step s s' → pool_ok s.1.2 → pool_ok s'.1.2.
Proof.
  destruct 1; simpl; intros Hp; try done;
    eauto using take_ok, finish_ok, exit_ok, enqueue_ok.
  eapply enqueue_all_ok; [by apply end_body_ok|done].
Qed.

Lemma pool_steps_ok s s' : pool_steps s s' → pool_ok s.1.2 → pool_ok s'.1.2.
Proof.
  induction 1 as [|s1 s2 s3 Hs Hss IH]; [done|]. intros Hp. apply IH. by eapply pool_step_ok.
Qed.

(** C27: [wait_idle] is sound in every reachable state of the pool, whatever the
    tasks do: when its predicate holds for a group, every task ever submitted to
    that group has ended, each exactly once, and no worker is still inside one;
    moreover tasks are started in submission order. *)
Theorem wait_idle_sound (cfg : core_config) (w : World) ws s t g :
  pool_steps (w, make_pool cfg, ws) s → s.1.2.(groups) t = Some g →
  (∃ started, g.(submitted) = started ++ g.(tasks)) ∧
  (idle g = true → g.(submitted) ≡ₚ g.(ended) ∧ g.(running) = [] ∧ g.(ending) = 0).
Proof.
  intros Hs Hg. pose proof (pool_steps_ok _ _ Hs (make_pool_ok cfg) t g Hg) as [? ? ? Hall ?].
  split; [done|]. unfold idle. destruct (tasks g) eqn:Et; [|done]. intros Hi%Z.eqb_eq.
  assert (running g = []) as Hr by (destruct (running g); [done|simpl in *; lia]).
  rewrite Hr in *. simpl in *. rewrite app_nil_r in Hall. repeat split; (done || lia).
Qed.

(** ** [wait_idle_all] *)

(** Task bodies enqueue only to groups that come later in [CoreType] order. *)
Definition forward_spawn : Prop := ∀ t x w w' ch, exec t x w = Some (w', ch) →
  Forall (λ c, CoreType_rank t < CoreType_rank c.1) ch.

(** The groups already waited for are idle, and come before the others. *)
Record wait_inv (p : ThreadPool) (ws : list CoreType) : Prop := WaitInv {
  wi_sorted : StronglySorted (λ a b, CoreType_rank a < CoreType_rank b) ws;
  wi_done : ∀ t g, p.(groups) t = Some g → t ∉ ws →
    idle g = true ∧ ∀ u, u ∈ ws → CoreType_rank t < CoreType_rank u }.

Lemma wait_inv_agree p p' ws :
  (∀ t, t ∉ ws → p'.(groups) t = p.(groups) t) → wait_inv p ws → wait_inv p' ws.
Proof. intros Hag [Hs Hd]. split; [done|]. intros t g Hg Hn. apply Hd; [by rewrite <- Hag|done]. Qed.

Lemma set_group_agree t g p u : u ≠ t → (set_group t g p).(groups) u = p.(groups) u.
Proof. intros. unfold set_group; simpl. by rewrite fn_lookup_insert_ne. Qed.

Lemma enqueue_agree t x p p' u : enqueue t x p = Ok p' → u ≠ t → p'.(groups) u = p.(groups) u.
Proof.
  unfold enqueue. destruct (groups p t) as [g|]; [|done]. destruct (stop p); [done|].
  intros [= <-] ?. by apply set_group_agree.
Qed.

Lemma enqueue_all_agree l p p' u : enqueue_all l p = Ok p' →
  Forall (λ c, u ≠ c.1) l → p'.(groups) u = p.(groups) u.
Proof.
  revert p. induction l as [|[t x] l IH]; simpl; intros p H Hf; [by injection H as <-|].
  apply obind_ok in H as (p1 & H1 & H2). apply Forall_cons in Hf as [Hu Hf].
  rewrite (IH p1 H2 Hf). by eapply enqueue_agree.
Qed.

Lemma enqueue_all_none l p p' u : enqueue_all l p = Ok p' →
  p.(groups) u = None → p'.(groups) u = None.
Proof.
  revert p. induction l as [|[t x] l IH]; simpl; intros p H Hn; [by injection H as <-|].
  apply obind_ok in H as (p1 & H1 & H2). apply (IH p1 H2). rewrite <- Hn.
  eapply enqueue_agree; [exact H1|]. intros ->. unfold enqueue in H1. by rewrite Hn in H1.
Qed.

(** A group with a queued task, a running body or an ending one is not idle. *)
Lemma busy_in_ws p ws t g : wait_inv p ws → p.(groups) t = Some g →
  idle g = false → t ∈ ws.
Proof.
  intros Hw Hg Hi. destruct (decide (t ∈ ws)) as [|Hn]; [done|].
  destruct (wi_done _ _ Hw t g Hg Hn). congruence.
Qed.

Lemma active_busy g : group_ok g → 0 < g.(active) → idle g = false.
Proof. intros [] Ha. unfold idle. destruct (tasks g); [|done]. by apply Z.eqb_neq; lia. Qed.

Lemma wait_idle_all_inv p : wait_inv p (wait_idle_all p).
Proof.
  split.
  - assert (Hall : StronglySorted (λ a b, CoreType_rank a < CoreType_rank b)
              [ALLOC; READ; DECOMP; DECOMP_KERNEL; FREE]).
    { repeat constructor. }
    unfold wait_idle_all. induction Hall as [|a l Hl IH Ha]; [constructor|]. simpl.
    destruct (groups p a); [|done]. constructor; [done|].
    rewrite Forall_forall in *. intros x Hx. apply Ha.
    apply list_elem_of_In, filter_In in Hx as [Hx _]. by apply list_elem_of_In.
  - intros t g Hg Hn. destruct Hn. unfold wait_idle_all. apply list_elem_of_In, filter_In.
    rewrite Hg. split; [|done]. apply list_elem_of_In. destruct t; set_solver.
Qed.

Lemma take_wait t p p' ws : wait_inv p ws → take t p = Some p' → wait_inv p' ws.
Proof.
  unfold take. intros Hw. destruct (groups p t) as [g|] eqn:E; [|done].
  destruct (active g <? workers g); [|done]. destruct (tasks g) eqn:Et; [done|].
  intros [= <-]. assert (t ∈ ws).
  { apply (busy_in_ws p ws t g); [done|done|]. unfold idle. by rewrite Et. }
  apply (wait_inv_agree p); [|done]. intros u Hu. apply set_group_agree. by intros ->.
Qed.

Lemma finish_wait t p p' ws : pool_ok p → wait_inv p ws → finish t p = Some p' → wait_inv p' ws.
Proof.
  unfold finish. intros Hp Hw. destruct (groups p t) as [g|] eqn:E; [|done].
  destruct (Z.ltb_spec 0 (ending g)); [|done]. intros [= <-].
  apply (wait_inv_agree p); [|done]. intros u Hu. apply set_group_agree. intros ->.
  apply Hu. apply (busy_in_ws p ws t g); [done|done|].
  apply active_busy; [by eapply Hp|]. destruct (Hp t g E). lia.
Qed.

Lemma exit_wait t p p' ws : wait_inv p ws → exit_worker t p = Some p' → wait_inv p' ws.
Proof.
  unfold exit_worker. intros [Hsort Hd]. destruct (groups p t) as [g|] eqn:E; [|done].
  destruct (stop p && _ && _); [|done]. intros [= <-]. split; [done|]. intros u gu Hu Hn.
  destruct (decide (t = u)) as [->|Hne].
  - unfold set_group in Hu; simpl in Hu. rewrite fn_lookup_insert in Hu.
    injection Hu as <-. by destruct (Hd u g E Hn).
  - rewrite set_group_agree in Hu by done. by apply Hd.
Qed.

Lemma run_wait t g l1 x l2 ch w w' p p' ws : forward_spawn → pool_ok p → wait_inv p ws →
  p.(groups) t = Some g → g.(running) = l1 ++ x :: l2 → exec t x w = Some (w', ch) →
  enqueue_all ch (end_body t l1 x l2 g p) = Ok p' → wait_inv p' ws.
Proof.
  intros Hfw Hp Hw Hg Hr He Hc.
  assert (Hin : t ∈ ws).
  { apply (busy_in_ws p ws t g); [done|done|]. apply active_busy; [by eapply Hp|].
    destruct (Hp t g Hg) as [-> ? _ _ _]. rewrite Hr, length_app. simpl. lia. }
  apply (wait_inv_agree p); [|done]. intros u Hu.
  assert (Hut : u ≠ t) by (by intros ->).
  destruct (groups p u) as [gu|] eqn:Egu.
  2: { apply (enqueue_all_none _ _ _ _ Hc). by rewrite <- Egu; apply set_group_agree. }
  rewrite (enqueue_all_agree _ _ _ u Hc); [rewrite <- Egu; by apply set_group_agree|].
  specialize (Hfw _ _ _ _ _ He). eapply Forall_impl; [exact Hfw|].
  intros [c y] Hlt Heq. simpl in *. subst c.
  destruct (wi_done _ _ Hw u gu Egu Hu) as [_ Hlt']. specialize (Hlt' t Hin). lia.
Qed.

Lemma wait_inv_next t g p ws : wait_inv p (t :: ws) → p.(groups) t = Some g →
  idle g = true → wait_inv p ws.
Proof.
  intros [Hsort Hd] Hg Hi. inversion Hsort as [|? ? Hs1 Hs2]; subst. split; [done|].
  intros u gu Hu Hn. destruct (decide (u = t)) as [->|Hne].
  - split; [congruence|]. by apply Forall_forall.
  - destruct (Hd u gu Hu) as [? Hlt]; [by intros [?|?]%elem_of_cons|]. split; [done|].
    intros v Hv. apply Hlt. by apply elem_of_cons; right.
Qed.

Definition waiting_ok (p : ThreadPool) (m : option (list CoreType)) : Prop :=
  match m with Some ws => wait_inv p ws | None => True end.

Lemma waiting_step s s' : forward_spawn → pool_ok s.1.2 → pool_step s s' →
  waiting_ok s.1.2 s.2 → waiting_ok s'.1.2 s'.2.
Proof.
  intros Hfw Hp Hs. destruct Hs; simpl in *; try done.
  - intros _. apply wait_idle_all_inv.
  - intros Hw. by eapply wait_inv_next.
  - destruct ws; [|done]. intros Hw. by eapply take_wait.
  - destruct ws; [|done]. intros Hw. by eapply run_wait.
  - destruct ws; [|done]. intros Hw. by eapply finish_wait.
  - destruct ws; [|done]. intros Hw. by eapply exit_wait.
Qed.

Lemma waiting_steps s s' : forward_spawn → pool_steps s s' → pool_ok s.1.2 →
  waiting_ok s.1.2 s.2 → waiting_ok s'.1.2 s'.2.
Proof.
  intros Hfw. induction 1 as [|s1 s2 s3 Hs Hss IH]; [done|].
  intros Hp Hw. apply IH; [by eapply pool_step_ok|by eapply waiting_step].
Qed.

(** [wait_idle_all] is sound although it waits for the groups one after the
    other while tasks keep enqueueing tasks: if bodies only enqueue to groups
    later in [CoreType] order (as [kv_decomp_worker] does with FREE), then when
    it returns every group is idle at the same time. *)
Theorem wait_idle_all_sound (cfg : core_config) (w w' : World) p' :
  forward_spawn → pool_steps (w, make_pool cfg, None) (w', p', Some []) →
  ∀ t g, p'.(groups) t = Some g → idle g = true.
Proof.
  intros Hfw Hs t g Hg.
  pose proof (waiting_steps _ _ Hfw Hs (make_pool_ok cfg) I) as Hw. simpl in Hw.
  destruct (wi_done _ _ Hw t g Hg); [apply not_elem_of_nil|done].
Qed.
End pool.

(** ** A run: one decompression that hands its layer to FREE *)
Definition demo_exec (t : CoreType) (x w : nat) : option (nat * list (CoreType * nat)) :=
  Some (S w, match t with DECOMP => [(FREE, x)] | _ => [] end).

Lemma demo_forward : forward_spawn demo_exec.
Proof. intros t x w w' ch [= <- <-]. destruct t; repeat constructor. Qed.

Definition demo_cfg : core_config := default_core_configs FLEXGEN SM8650.

(** From an empty pool: enqueue, [wait_idle_all], run both tasks, drain. *)
Lemma demo_run : ∃ p, pool_steps demo_exec (0%nat, make_pool demo_cfg, None) (2%nat, p, Some []) ∧
  (∃ g, p.(groups) FREE = Some g ∧ g.(submitted) = [5%nat]).
Proof.
  eexists. split.
  - eapply rtc_l; [eapply (step_enqueue _ _ _ _ DECOMP 5%nat); reflexivity|].
    eapply rtc_l; [eapply step_call|].
    eapply rtc_l; [eapply (step_wait _ _ _ _ ALLOC); reflexivity|].
    eapply rtc_l; [eapply (step_take _ _ _ _ _ DECOMP); reflexivity|].
    eapply rtc_l; [eapply (step_wait _ _ _ _ READ); reflexivity|].
    eapply rtc_l; [eapply (step_run _ _ _ _ _ _ DECOMP _ [] 5%nat []); reflexivity|].
    eapply rtc_l; [eapply (step_finish _ _ _ _ _ DECOMP); reflexivity|].
    eapply rtc_l; [eapply (step_wait _ _ _ _ DECOMP); reflexivity|].
    eapply rtc_l; [eapply (step_take _ _ _ _ _ FREE); reflexivity|].
    eapply rtc_l; [eapply (step_run _ _ _ _ _ _ FREE _ [] 5%nat []); reflexivity|].
    eapply rtc_l; [eapply (step_finish _ _ _ _ _ FREE); reflexivity|].
    eapply rtc_l; [eapply (step_wait _ _ _ _ FREE); reflexivity|].
    apply rtc_refl.
  - eexists. split; reflexivity.
Qed.

Lemma wait_idle_sound_witness : ∃ p g,
  pool_steps demo_exec (0%nat, make_pool demo_cfg, None) (2%nat, p, Some []) ∧
  p.(groups) FREE = Some g ∧ g.(submitted) = [5%nat] ∧
  (idle g = true → g.(submitted) ≡ₚ g.(ended) ∧ g.(running) = [] ∧ g.(ending) = 0).
Proof.
  destruct demo_run as (p & Hs & g & Hg & Hsub). exists p, g.
  split; [exact Hs|]. split; [exact Hg|]. split; [exact Hsub|].
  exact (proj2 (wait_idle_sound demo_exec demo_cfg 0%nat None _ FREE g Hs Hg)).
Defined.

Lemma wait_idle_all_sound_witness : ∃ p,
  pool_steps demo_exec (0%nat, make_pool demo_cfg, None) (2%nat, p, Some []) ∧
  ∀ t g, p.(groups) t = Some g → idle g = true.
Proof.
  destruct demo_run as (p & Hs & _). exists p. split; [exact Hs|].
  exact (wait_idle_all_sound demo_exec demo_cfg 0%nat 2%nat p demo_forward Hs).
Defined.

(** ** [LayerSync] *)

(** [remaining] and whether the promise has been fulfilled. *)
Record LayerSync := Sync { remaining : Z; ready : bool }.

Definition new_sync (init : Z) : LayerSync := Sync init (init =? 0).

(** [taskDone]: fulfilling a promise twice throws [std::future_error]. *)
Definition taskDone (s : LayerSync) : outcome LayerSync :=
  if s.(remaining) =? 1 then
    if s.(ready) then Throw else Ok (Sync (s.(remaining) - 1) true)
  else Ok (Sync (s.(remaining) - 1) s.(ready)).

Fixpoint task_done_n (n : nat) (s : LayerSync) : outcome LayerSync :=
  match n with O => Ok s | S n => s' <~ taskDone s ;; task_done_n n s' end.

(** A [LayerSync] started with [n] tasks never throws on its first [n]
    completions, and its future becomes ready exactly at the [n]-th. *)
Theorem layer_sync_counts (n k : nat) :
  (k <= n)%nat →
  task_done_n k (new_sync (Z.of_nat n)) =
    Ok (Sync (Z.of_nat n - Z.of_nat k) (Nat.eqb k n)).
Proof.
  assert (Hgen : ∀ k m, (k <= m)%nat → (0 < m)%nat →
    task_done_n k (Sync (Z.of_nat m) false) = Ok (Sync (Z.of_nat m - Z.of_nat k) (Nat.eqb k m))).
  { clear. induction k as [|k IH]; intros m Hk Hm.
    - simpl. rewrite Z.sub_0_r. by destruct m; [lia|].
    - cbn [task_done_n taskDone]. unfold taskDone. cbn [remaining ready].
      destruct (Z.eqb_spec (Z.of_nat m) 1) as [H1|H1].
      + assert (m = 1 ∧ k = 0)%nat as [-> ->] by lia. done.
      + cbn [obind]. replace (Z.of_nat m - 1) with (Z.of_nat (m - 1)) by lia.
        rewrite IH by lia. f_equal. f_equal; [lia|]. destruct m; [lia|]. simpl.
        by rewrite Nat.sub_0_r. }
  intros Hk. unfold new_sync. destruct (Z.eqb_spec (Z.of_nat n) 0) as [H0|H0].
  - assert (n = 0 ∧ k = 0)%nat as [-> ->] by lia. done.
  - apply Hgen; lia.
Qed.

Lemma layer_sync_counts_witness :
  (3 <= 3)%nat ∧ task_done_n 3 (new_sync 3) = Ok (Sync 0 true) ∧
  task_done_n 2 (new_sync 3) = Ok (Sync 1 false).
Proof.
  split; [lia|]. split.
  - apply (layer_sync_counts 3 3). lia.
  - apply (layer_sync_counts 3 2). lia.
Defined.
