(* ===== verification/KvTypes.v ===== *)
(** Data model of the KV state: [mzcache/include/mzcache_types.h] and the
    fields of [mzcache_kv_state] ([mzcache/include/mzcache_kv_state.h]),
    with the memory and files they refer to.

    Memory is modelled byte by byte.  An SVM allocation is a block of a heap,
    a pointer is a block and a byte offset, and a null pointer is [None]; the
    two tables that alias a chunk ([raw_chunks[C].c] and the GPU-visible
    [g_svm_chunk_ptrs]) therefore share one block, and freeing a block makes
    every pointer into it dangle. *)
From S2P Require Import Prelude Floats.

Definition TOKENS_PER_CHUNK : Z := 256.
Definition MAX_CHUNKS_PER_TENSOR : Z := 256.
Definition MAX_NUM_LAYERS : Z := 40.
Definition MAX_TOKENS_PER_CHUNK : Z := 16.
(** [sizeof(__fp16)]. *)
Definition sizeof_fp16 : Z := 2.

(** [enum class KVstate]. *)
Inductive KVstate := Raw | Compressed | Stored.
#[export] Instance KVstate_eq_dec : EqDecision KVstate.
Proof. solve_decision. Defined.

Abbreviation byte := Z (only parsing).
Definition ptr : Type := option (positive * Z).

(** [struct compressed_chunk]: the arena ([stack_id]) and range that hold the
    chunk.  [meta] is the content of its per-chunk metadata (the mins/maxs
    arrays of FLEXGEN, the lengths of CACHEGEN), which each chunk owns. *)
Record compressed_chunk := CC {
  stack_id : Z; offset : Z; comp_size : Z; meta : list byte }.

(** [struct stored_chunk]. *)
Record stored_chunk := SC { file_offset : Z; stored_size : Z }.

(** [struct Arena]. *)
Record Arena := MkArena {
  pool : list byte; top : Z; cap : Z;
  svm : bool; locked : bool; locked_bytes : Z }.

(** A file descriptor slot of [layer_fds]: [-1], or open for reading/writing. *)
Inductive fd := FdClosed | FdRead | FdWrite.
#[export] Instance fd_eq_dec : EqDecision fd.
Proof. solve_decision. Defined.

(** Position of a chunk: (layer, chunk). *)
Abbreviation pos := (Z * Z)%type.

(** The swap-out plan computed by [derive_swapout_plan]. *)
Record plan := Plan {
  default_chunk_bound : Z;
  chunk_bound : Z → Z;
  max_comp_chunks : Z;
  max_store_chunks : Z }.

(** The two descending swap-out cursors. *)
Record cursors := Cursors {
  cur_layer_idx_to_compress : Z;
  cur_chunk_idx_to_compress : Z;
  cur_layer_idx_to_store : Z;
  cur_chunk_idx_to_store : Z }.

(** Cumulative accounting across swap-out calls. *)
Record counters := Counters {
  n_cur_comp_chunks : Z;
  n_cur_store_chunks : Z;
  n_cur_comp_saved_bytes : Z;
  n_cur_arena_offload_bytes : Z }.

(** [layers[L].{states,k_chunks,v_chunks}[C]], indexed by (L, C). *)
Record chunks := Chunks {
  states : pos → KVstate;
  k_raw : pos → ptr;  v_raw : pos → ptr;
  k_comp : pos → compressed_chunk;  v_comp : pos → compressed_chunk;
  k_stored : pos → stored_chunk;  v_stored : pos → stored_chunk }.

(** SVM memory, the GPU-visible pointer tables [g_svm_chunk_ptrs[2L]] (K) and
    [g_svm_chunk_ptrs[2L+1]] (V), and the compression arenas per layer. *)
Record memory := Memory {
  heap : gmap positive (list byte);
  next_block : positive;
  svm_k : pos → ptr;  svm_v : pos → ptr;
  arenas : Z → list Arena }.

(** Files: [KV_<model>_L<i>.bin] and [mzcache_arenas_L<i>.swap] per layer
    ([None]: no such file), and the open descriptors of the former. *)
Record disk := Disk {
  kv_file : Z → option (list byte);
  swap_file : Z → option (list byte);
  layer_fds : Z → fd }.

Record kv_state := KvState {
  num_layers : Z;
  kv_hidden_dim : Z;
  num_chunks_per_tensor : Z;
  per_layer_balance : Z;
  arena_bytes : Z;
  decomp_load_ratio : float;      (* core->get_decomp_load_ratio() *)
  pln : plan;
  cur : cursors;
  cnt : counters;
  tab : chunks;
  mem : memory;
  dsk : disk;
  next_layer_to_offload : Z;
  offload_used_bytes : Z → list Z;
  pending_chunks_total : Z;
  comp_left : Z → Z }.

(** Field updates. *)
Section updates.
  Context (s : kv_state).
Definition set_plan p := KvState s.(num_layers) s.(kv_hidden_dim)
    s.(num_chunks_per_tensor) s.(per_layer_balance) s.(arena_bytes) s.(decomp_load_ratio)
    p s.(cur) s.(cnt) s.(tab) s.(mem) s.(dsk) s.(next_layer_to_offload)
    s.(offload_used_bytes) s.(pending_chunks_total) s.(comp_left).
Definition set_cur c := KvState s.(num_layers) s.(kv_hidden_dim)
    s.(num_chunks_per_tensor) s.(per_layer_balance) s.(arena_bytes) s.(decomp_load_ratio)
    s.(pln) c s.(cnt) s.(tab) s.(mem) s.(dsk) s.(next_layer_to_offload)
    s.(offload_used_bytes) s.(pending_chunks_total) s.(comp_left).
Definition set_cnt c := KvState s.(num_layers) s.(kv_hidden_dim)
    s.(num_chunks_per_tensor) s.(per_layer_balance) s.(arena_bytes) s.(decomp_load_ratio)
    s.(pln) s.(cur) c s.(tab) s.(mem) s.(dsk) s.(next_layer_to_offload)
    s.(offload_used_bytes) s.(pending_chunks_total) s.(comp_left).
Definition set_tab t := KvState s.(num_layers) s.(kv_hidden_dim)
    s.(num_chunks_per_tensor) s.(per_layer_balance) s.(arena_bytes) s.(decomp_load_ratio)
    s.(pln) s.(cur) s.(cnt) t s.(mem) s.(dsk) s.(next_layer_to_offload)
    s.(offload_used_bytes) s.(pending_chunks_total) s.(comp_left).
Definition set_mem m := KvState s.(num_layers) s.(kv_hidden_dim)
    s.(num_chunks_per_tensor) s.(per_layer_balance) s.(arena_bytes) s.(decomp_load_ratio)
    s.(pln) s.(cur) s.(cnt) s.(tab) m s.(dsk) s.(next_layer_to_offload)
    s.(offload_used_bytes) s.(pending_chunks_total) s.(comp_left).
Definition set_dsk d := KvState s.(num_layers) s.(kv_hidden_dim)
    s.(num_chunks_per_tensor) s.(per_layer_balance) s.(arena_bytes) s.(decomp_load_ratio)
    s.(pln) s.(cur) s.(cnt) s.(tab) s.(mem) d s.(next_layer_to_offload)
    s.(offload_used_bytes) s.(pending_chunks_total) s.(comp_left).
Definition set_off n u := KvState s.(num_layers) s.(kv_hidden_dim)
    s.(num_chunks_per_tensor) s.(per_layer_balance) s.(arena_bytes) s.(decomp_load_ratio)
    s.(pln) s.(cur) s.(cnt) s.(tab) s.(mem) s.(dsk) n u
    s.(pending_chunks_total) s.(comp_left).
Definition set_pending p := KvState s.(num_layers) s.(kv_hidden_dim)
    s.(num_chunks_per_tensor) s.(per_layer_balance) s.(arena_bytes) s.(decomp_load_ratio)
    s.(pln) s.(cur) s.(cnt) s.(tab) s.(mem) s.(dsk) s.(next_layer_to_offload)
    s.(offload_used_bytes) p s.(comp_left).
Definition set_comp_left c := KvState s.(num_layers) s.(kv_hidden_dim)
    s.(num_chunks_per_tensor) s.(per_layer_balance) s.(arena_bytes) s.(decomp_load_ratio)
    s.(pln) s.(cur) s.(cnt) s.(tab) s.(mem) s.(dsk) s.(next_layer_to_offload)
    s.(offload_used_bytes) s.(pending_chunks_total) c.
Definition set_num_chunks n := KvState s.(num_layers) s.(kv_hidden_dim)
    n s.(per_layer_balance) s.(arena_bytes) s.(decomp_load_ratio)
    s.(pln) s.(cur) s.(cnt) s.(tab) s.(mem) s.(dsk) s.(next_layer_to_offload)
    s.(offload_used_bytes) s.(pending_chunks_total) s.(comp_left).
End updates.

(** [TOKENS_PER_CHUNK * kv_hidden_dim * sizeof(__fp16)]: bytes of one K (or V)
    chunk. *)
Definition raw_chunk_bytes (s : kv_state) : Z :=
  TOKENS_PER_CHUNK * s.(kv_hidden_dim) * sizeof_fp16.

(** ** Byte ranges *)

(** [memcpy(dst + off, data, |data|)] and reading [n] bytes at [off]. *)
Definition write_at (off : Z) (data l : list byte) : list byte :=
  take (Z.to_nat off) l ++ data ++ drop (Z.to_nat off + length data) l.
Definition read_at (off n : Z) (l : list byte) : list byte :=
  take (Z.to_nat n) (drop (Z.to_nat off) l).

Lemma length_write_at off data l : 0 <= off →
  off + Z.of_nat (length data) <= Z.of_nat (length l) →
  length (write_at off data l) = length l.
Proof.
  intros. unfold write_at. rewrite !length_app, length_take, length_drop. lia.
Qed.

Lemma length_read_at off n l : 0 <= off → 0 <= n →
  off + n <= Z.of_nat (length l) → length (read_at off n l) = Z.to_nat n.
Proof. intros. unfold read_at. rewrite length_take, length_drop. lia. Qed.

Lemma read_write_same off data l : 0 <= off → off <= Z.of_nat (length l) →
  read_at off (Z.of_nat (length data)) (write_at off data l) = data.
Proof.
  intros. unfold read_at, write_at.
  rewrite drop_app_ge by (rewrite length_take; lia).
  rewrite length_take, Nat.min_l, Nat.sub_diag by lia. simpl.
  rewrite Nat2Z.id. apply take_app_length.
Qed.

Lemma read_write_same_n off data l n : Z.of_nat (length data) = n →
  0 <= off → off <= Z.of_nat (length l) → read_at off n (write_at off data l) = data.
Proof. intros <-. apply read_write_same. Qed.

Lemma read_write_before off data l o n : 0 <= o → 0 <= n → o + n <= off →
  off <= Z.of_nat (length l) →
  read_at o n (write_at off data l) = read_at o n l.
Proof.
  intros. unfold read_at, write_at.
  rewrite drop_app_le by (rewrite length_take; lia).
  rewrite skipn_firstn_comm, take_app_le by (rewrite length_take, length_drop; lia).
  rewrite take_take. f_equal. lia.
Qed.

Lemma read_write_after off data l o n : 0 <= off → 0 <= o → 0 <= n →
  off + Z.of_nat (length data) <= o → off <= Z.of_nat (length l) →
  read_at o n (write_at off data l) = read_at o n l.
Proof.
  intros. unfold read_at, write_at. f_equal.
  rewrite drop_app_ge by (rewrite length_take; lia).
  rewrite length_take, Nat.min_l by lia.
  rewrite drop_app_ge by lia. rewrite drop_drop. f_equal. lia.
Qed.
