(* ===== verification/KvPlan.v ===== *)
(** The swap-out plan: [mzcache_kv_state::derive_swapout_plan]
    ([mzcache/src/mzcache_kv_state.cpp]).

    Each layer's chunks are split at [chunk_bound]: chunks below it are
    compressed into arenas, chunks above it are stored to disk.  The first
    layers are compressed entirely until [per_layer_balance * num_layers]
    chunks are covered; the others split at the decompress/load ratio, computed
    in [float] as the code does. *)
From S2P Require Import Prelude Floats KvTypes.

(** [static_cast<int>(n * ratio)]. *)
Definition scale (n : Z) (r : float) : option Z := f_to_int (f32_mul (f32_of_Z n) r).
(** [static_cast<int>(a + n * ratio)]. *)
Definition scale_add (a n : Z) (r : float) : option Z :=
  f_to_int (f32_add (f32_of_Z a) (f32_mul (f32_of_Z n) r)).

(** The loop over the layers, from layer [i] with [todo] layers left.  The
    loop variables are the code's [cur_chunks] and [balance_chunks]. *)
Fixpoint derive_bounds (todo : nat) (i N nwb : Z) (r : float) (dflt cur_chunks : Z)
    (balance_chunks : bool) (cb : Z → Z) : option (Z → Z) :=
  match todo with
  | O => Some cb
  | S todo =>
      if balance_chunks then
        if cur_chunks + N >? nwb then
          let comp_only := nwb - cur_chunks in
          let n_remain := N - comp_only in
          match scale_add comp_only n_remain r with
          | Some x => derive_bounds todo (i + 1) N nwb r dflt cur_chunks false (<[i:=x]> cb)
          | None => None
          end
        else derive_bounds todo (i + 1) N nwb r dflt (cur_chunks + N) true (<[i:=N]> cb)
      else derive_bounds todo (i + 1) N nwb r dflt cur_chunks false (<[i:=dflt]> cb)
  end.

Definition derive_swapout_plan (s : kv_state) : outcome kv_state :=
  let N := s.(num_chunks_per_tensor) in
  let L := s.(num_layers) in
  let r := s.(decomp_load_ratio) in
  match scale N r with
  | None => Ub
  | Some dflt =>
      let n_weight_balance_chunks := s.(per_layer_balance) * L in
      match derive_bounds (Z.to_nat L) 0 N n_weight_balance_chunks r dflt 0 true
              s.(pln).(chunk_bound) with
      | None => Ub
      | Some cb =>
          let n := Z.to_nat L in
          Ok (set_cur
                (set_plan s (Plan dflt cb (sum_to cb n) (sum_to (λ i, N - cb i) n)))
                (Cursors (L - 1) (cb (L - 1) - 1) (L - 1) (N - 1)))
      end
  end.

(** Only the plan and the cursors change. *)
Lemma derive_swapout_plan_shape s s' : derive_swapout_plan s = Ok s' →
  ∃ p c, s' = set_cur (set_plan s p) c.
Proof.
  unfold derive_swapout_plan. destruct (scale _ _); [|done].
  destruct (derive_bounds _ _ _ _ _ _ _ _ _); [|done]. intros [= <-]. eauto.
Qed.

(** ** What the plan promises *)

(** The ratio behaves as a fraction on chunk counts up to [N]: checked by
    evaluation, for the concrete ratio of a device profile. *)
Definition ratio_ok (N : Z) (r : float) : bool :=
  match scale N r with
  | None => false
  | Some d =>
      (0 <=? d) && (d <=? N) &&
      forallb (λ a, match scale_add a (N - a) r with
                    | None => false
                    | Some x => (a <=? x) && (x <=? N)
                                && ((0 <? a) || (x =? d)) && ((N <=? x) || (d <? N))
                    end) (seqZ 0 N)
  end.

(** A well-formed plan for [N] chunks on each of [L] layers: every bound is a
    chunk count, the layers that compress anything come first, and the layers
    that store anything come last. *)
Record plan_ok (N L : Z) (cb : Z → Z) : Prop := PlanOk {
  po_bound : ∀ i, 0 <= i < L → 0 <= cb i <= N;
  po_comp_prefix : ∀ i j, 0 <= i < j → j < L → 0 < cb j → 0 < cb i;
  po_store_suffix : ∀ i j, 0 <= i < j → j < L → cb i < N → cb j < N }.

(** Reference definition of the bounds: [p] full layers, then the mixed one,
    then the default split. *)
Definition full_layers (N nwb L : Z) : Z := Z.min L (nwb / N).
Definition ref_bound (N nwb L x dflt : Z) (i : Z) : Z :=
  let p := full_layers N nwb L in
  if i <? p then N else if i =? p then x else dflt.

(** What [derive_swapout_plan] promises about its result. *)
Record plan_spec (N L nwb : Z) (s' : kv_state) : Prop := PlanSpec {
  ps_ok : plan_ok N L s'.(pln).(chunk_bound);
  ps_total : s'.(pln).(max_comp_chunks) + s'.(pln).(max_store_chunks) = N * L;
  ps_comp : s'.(pln).(max_comp_chunks) = sum_to s'.(pln).(chunk_bound) (Z.to_nat L);
  ps_balance : Z.min nwb (N * L) <= s'.(pln).(max_comp_chunks);
  ps_cur : s'.(cur) = Cursors (L - 1) (s'.(pln).(chunk_bound) (L - 1) - 1) (L - 1) (N - 1) }.

Section plan_proofs.
  Context (N nwb : Z) (r : float) (dflt : Z).
  Hypothesis HN : 0 < N.

Lemma derive_bounds_tail todo i cc cb :
    ∃ cb', derive_bounds todo i N nwb r dflt cc false cb = Some cb' ∧
      ∀ j, cb' j = if (i <=? j) && (j <? i + Z.of_nat todo) then dflt else cb j.
  Proof.
    revert i cb. induction todo as [|n IH]; intros i cb; cbn [derive_bounds].
    - exists cb. split; [done|]. intros j.
      destruct (Z.leb_spec i j), (Z.ltb_spec j (i + Z.of_nat 0)); simpl; (done || lia).
    - destruct (IH (i + 1) (<[i:=dflt]> cb)) as (cb' & -> & H). exists cb'. split; [done|].
      intros j. rewrite H. destruct (decide (i = j)) as [->|Hne].
      + rewrite fn_lookup_insert. repeat case_match; propify; (done || lia).
      + rewrite fn_lookup_insert_ne by done. repeat case_match; propify; (done || lia).
  Qed.

Lemma full_layers_step i : 0 <= i → (i + 1) * N <= nwb ↔ i < nwb / N.
  Proof.
    intros. pose proof (Z_div_mod_eq_full nwb N). pose proof (Z.mod_pos_bound nwb N HN).
    split; intros; nia.
  Qed.

  (** While [balance_chunks] holds, [i] full layers have been assigned. *)
Lemma derive_bounds_spec todo i x cb :
    0 <= i <= nwb / N →
    (∀ p, p = nwb / N → p < i + Z.of_nat todo →
          scale_add (nwb - p * N) (N - (nwb - p * N)) r = Some x) →
    ∃ cb', derive_bounds todo i N nwb r dflt (i * N) true cb = Some cb' ∧
      ∀ j, i <= j < i + Z.of_nat todo →
        cb' j = ref_bound N nwb (i + Z.of_nat todo) x dflt j.
  Proof.
    revert i cb. enough (Hgen : ∀ i cb, 0 <= i <= nwb / N →
      (∀ p, p = nwb / N → p < i + Z.of_nat todo →
          scale_add (nwb - p * N) (N - (nwb - p * N)) r = Some x) →
      ∃ cb', derive_bounds todo i N nwb r dflt (i * N) true cb = Some cb' ∧
      (∀ j, i <= j < i + Z.of_nat todo →
        cb' j = ref_bound N nwb (i + Z.of_nat todo) x dflt j) ∧
      ∀ j, j < i → cb' j = cb j).
    { intros i cb Hi Hx. destruct (Hgen i cb Hi Hx) as (c & ? & ? & _); eauto. }
    induction todo as [|n IH]; intros i cb Hi Hx; cbn [derive_bounds].
    { exists cb. repeat split; (done || lia). }
    pose proof (full_layers_step i ltac:(lia)) as Hstep.
    rewrite Z.gtb_ltb. destruct (Z.ltb_spec nwb (i * N + N)) as [Hlt|Hge].
    - assert (Heq : i = nwb / N) by lia.
      rewrite (Hx i Heq) by lia.
      destruct (derive_bounds_tail n (i + 1) (i * N) (<[i:=x]> cb)) as (cb' & -> & H).
      exists cb'. repeat split.
      + intros j Hj. rewrite H. unfold ref_bound, full_layers.
        destruct (decide (i = j)) as [->|Hne];
          [rewrite fn_lookup_insert | rewrite fn_lookup_insert_ne by done];
          repeat case_match; propify; (done || lia).
      + intros j Hj. rewrite H, fn_lookup_insert_ne by lia.
        repeat case_match; propify; (done || lia).
    - destruct (IH (i + 1) (<[i:=N]> cb)) as (cb' & Hd & H1 & H2).
      + lia.
      + intros p Hp Hlt. apply Hx; lia.
      + replace (i * N + N) with ((i + 1) * N) by lia. exists cb'. rewrite Hd. repeat split.
        * intros j Hj. destruct (decide (i = j)) as [->|Hne].
          -- rewrite H2 by lia. rewrite fn_lookup_insert. unfold ref_bound, full_layers.
             repeat case_match; propify; lia.
          -- rewrite H1 by lia. f_equal. lia.
        * intros j Hj. rewrite H2 by lia. rewrite fn_lookup_insert_ne; [done|lia].
  Qed.
End plan_proofs.

Lemma ratio_ok_elim N r a : ratio_ok N r = true → 0 <= a < N →
  ∃ d x, scale N r = Some d ∧ scale_add a (N - a) r = Some x ∧
    0 <= d <= N ∧ a <= x <= N ∧ (a = 0 → x = d) ∧ (x < N → d < N).
Proof.
  unfold ratio_ok. destruct (scale N r) as [d|]; [|done]. intros H Ha.
  propify. rewrite forallb_forall in H0.
  specialize (H0 a). destruct (scale_add a (N - a) r) as [x|].
  - assert (Hin : In a (seqZ 0 N)) by (apply list_elem_of_In, elem_of_seqZ; lia).
    specialize (H0 Hin). exists d, x. repeat split; propify; lia.
  - assert (Hin : In a (seqZ 0 N)) by (apply list_elem_of_In, elem_of_seqZ; lia).
    specialize (H0 Hin). done.
Qed.

Section derive.
  Context (s : kv_state).
Let N := s.(num_chunks_per_tensor).
Let L := s.(num_layers).
Let nwb := s.(per_layer_balance) * L.
  Hypothesis HN : 0 < N.
  Hypothesis HL : 0 < L.
  Hypothesis Hb : 0 <= s.(per_layer_balance).
  Hypothesis Hr : ratio_ok N s.(decomp_load_ratio) = true.

  (** The loop computes the reference bounds. *)
Lemma derive_swapout_plan_ref :
    ∃ d x cb, derive_swapout_plan s =
        Ok (set_cur (set_plan s (Plan d cb (sum_to cb (Z.to_nat L))
                                   (sum_to (λ i, N - cb i) (Z.to_nat L))))
              (Cursors (L - 1) (cb (L - 1) - 1) (L - 1) (N - 1))) ∧
      (∀ i, 0 <= i < L → cb i = ref_bound N nwb L x d i) ∧
      (let a := nwb - nwb / N * N in
       0 <= a < N ∧ 0 <= d <= N ∧ a <= x <= N ∧ (a = 0 → x = d) ∧ (x < N → d < N)).
  Proof.
    assert (Hnwb : 0 <= nwb) by (unfold nwb; nia).
    assert (Ha : 0 <= nwb - nwb / N * N < N).
    { pose proof (Z_div_mod_eq_full nwb N). pose proof (Z.mod_pos_bound nwb N HN). lia. }
    destruct (ratio_ok_elim N _ _ Hr Ha) as (d & x & Hd & Hx & Hd' & Hrest).
    destruct (derive_bounds_spec N nwb s.(decomp_load_ratio) d HN (Z.to_nat L) 0 x
                s.(pln).(chunk_bound)) as (cb & Hcb & Hspec).
    { split; [lia|]. apply Z.div_pos; lia. }
    { intros p -> _. exact Hx. }
    exists d, x, cb. split; [|split].
    - unfold derive_swapout_plan. fold N L nwb. rewrite Hd.
      rewrite Z.mul_0_l in Hcb. rewrite Hcb. reflexivity.
    - intros i Hi. rewrite Hspec by lia. f_equal; lia.
    - simpl. tauto.
  Qed.
End derive.

(** ** Properties of the plan *)
Lemma plan_ok_ref N nwb L x d cb :
  0 < N → (∀ i, 0 <= i < L → cb i = ref_bound N nwb L x d i) →
  (let a := nwb - nwb / N * N in
   0 <= a < N ∧ 0 <= d <= N ∧ a <= x <= N ∧ (a = 0 → x = d) ∧ (x < N → d < N)) →
  plan_ok N L cb.
Proof.
  intros HN Hcb (Ha & Hd & Hx & H0 & HxN).
  split.
  - intros i Hi. rewrite Hcb by lia. unfold ref_bound. repeat bool_case; lia.
  - intros i j Hij Hj. rewrite !Hcb by lia. unfold ref_bound. repeat bool_case; lia.
  - intros i j Hij Hj. rewrite !Hcb by lia. unfold ref_bound. repeat bool_case; lia.
Qed.

(** Sum of the reference bounds up to [n] layers covers the balance chunks. *)
Lemma sum_ref_bound N nwb L x d n :
  0 < N → 0 <= nwb → (Z.of_nat n <= L) →
  0 <= d → nwb - nwb / N * N <= x →
  Z.min nwb (N * Z.of_nat n) <= sum_to (ref_bound N nwb L x d) n.
Proof.
  intros HN Hnwb Hn Hd Hx.
  pose proof (Z_div_mod_eq_full nwb N). pose proof (Z.mod_pos_bound nwb N HN).
  induction n as [|n IH]; cbn [sum_to]; [lia|].
  assert (IH' := IH ltac:(lia)). clear IH. unfold ref_bound at 2, full_layers.
  repeat bool_case; nia.
Qed.


Lemma derive_plan_spec (s : kv_state) :
  0 < s.(num_chunks_per_tensor) → 0 < s.(num_layers) → 0 <= s.(per_layer_balance) →
  ratio_ok s.(num_chunks_per_tensor) s.(decomp_load_ratio) = true →
  ∃ p c d x, derive_swapout_plan s = Ok (set_cur (set_plan s p) c) ∧
    plan_spec s.(num_chunks_per_tensor) s.(num_layers)
      (s.(per_layer_balance) * s.(num_layers)) (set_cur (set_plan s p) c) ∧
    ∀ i, 0 <= i < s.(num_layers) → p.(chunk_bound) i =
      ref_bound s.(num_chunks_per_tensor) (s.(per_layer_balance) * s.(num_layers))
        s.(num_layers) x d i.
Proof.
  intros HN HL Hb Hr.
  destruct (derive_swapout_plan_ref s HN HL Hb Hr) as (d & x & cb & -> & Hcb & Hspec).
  eexists _, _, d, x. split; [reflexivity|]. split; [|exact Hcb]. simpl in *.
  pose proof (plan_ok_ref _ _ _ _ _ _ HN Hcb Hspec) as Hok.
  split; simpl; [exact Hok| | reflexivity | | reflexivity].
  - rewrite sum_to_minus, sum_to_const. lia.
  - rewrite (sum_to_ext cb (ref_bound s.(num_chunks_per_tensor)
      (s.(per_layer_balance) * s.(num_layers)) s.(num_layers) x d)) by (intros; apply Hcb; lia).
    etransitivity; [|apply sum_ref_bound; [lia|nia|lia|lia|apply Hspec]]. lia.
Qed.

(** C19: [derive_swapout_plan] succeeds on every ratio that behaves as a
    fraction, its bounds are those of the reference definition (full layers, a
    mixed one, the default split), and its plan is well formed: bounds are chunk
    counts, compressing layers come first and storing layers last, the two
    capacities add up to all chunks, the compress capacity covers the balance
    chunks of phase 2 of [swapout], and the cursors start at the top of both
    regions. *)
Theorem derive_swapout_plan_ok (s : kv_state) :
  0 < s.(num_chunks_per_tensor) → 0 < s.(num_layers) → 0 <= s.(per_layer_balance) →
  ratio_ok s.(num_chunks_per_tensor) s.(decomp_load_ratio) = true →
  ∃ p c d x, derive_swapout_plan s = Ok (set_cur (set_plan s p) c) ∧
    plan_spec s.(num_chunks_per_tensor) s.(num_layers)
      (s.(per_layer_balance) * s.(num_layers)) (set_cur (set_plan s p) c) ∧
    ∀ i, 0 <= i < s.(num_layers) → p.(chunk_bound) i =
      ref_bound s.(num_chunks_per_tensor) (s.(per_layer_balance) * s.(num_layers))
        s.(num_layers) x d i.
Proof. apply derive_plan_spec. Qed.

(** A state with the parameters the plan depends on and nothing else: [L]
    layers of [N] chunks, balance [b], ratio [r]. *)
Definition plan_input (L N b : Z) (r : float) : kv_state :=
  KvState L 64 N b 0 r (Plan 0 (λ _, 0) 0 0) (Cursors 0 0 0 0) (Counters 0 0 0 0)
    (Chunks (λ _, Raw) (λ _, None) (λ _, None) (λ _, CC 0 0 0 []) (λ _, CC 0 0 0 [])
       (λ _, SC 0 0) (λ _, SC 0 0))
    (Memory ∅ 1 (λ _, None) (λ _, None) (λ _, []))
    (Disk (λ _, None) (λ _, None) (λ _, FdClosed)) (L - 1) (λ _, []) 0 (λ _, 0).

(** 28 layers of 16 chunks, 5 balance chunks per layer, ratio 3/4: the shape of
    Qwen3-0.6B at 4096 tokens. *)
Lemma derive_swapout_plan_ok_witness :
  let s := plan_input 28 16 5 (f32_div (f32_of_Z 3) (f32_of_Z 4)) in
  ∃ p c d x, derive_swapout_plan s = Ok (set_cur (set_plan s p) c) ∧
    plan_spec 16 28 140 (set_cur (set_plan s p) c) ∧
    ∀ i, 0 <= i < 28 → p.(chunk_bound) i = ref_bound 16 140 28 x d i.
Proof.
  apply (derive_swapout_plan_ok (plan_input 28 16 5 (f32_div (f32_of_Z 3) (f32_of_Z 4))));
    [reflexivity | reflexivity | vm_compute; discriminate | vm_compute; reflexivity].
Defined.

(** With the [per_layer_balance = -1] that the CACHEGEN table assigns on other
    chipsets ([todo : set this value after profiling]), the first layer gets a
    negative bound: the plan is not well formed. *)
Example negative_balance_plan :
  (p ← (match derive_swapout_plan (plan_input 28 16 (-1) (f32_div (f32_of_Z 1) (f32_of_Z 4))) with
        | Ok s => Some s.(pln) | _ => None end);
   Some (p.(chunk_bound) 0)) = Some (-17).
Proof. vm_compute. reflexivity. Qed.
