(* ===== verification/KvLadder.v ===== *)
(** The swap-out ladder: [mzcache_compress_chunks], [mzcache_store_chunks] and
    [mzcache_close_stored_files] of [mzcache/src/mzcache_kv_state.cpp], with the
    memory, arena and file operations they perform.

    The compression backend selected at build time is the class [Codec]; what
    the operating system and the OpenCL driver answer is the class [Env]. *)
From S2P Require Import Prelude Floats KvTypes.

(** A compression backend, as the KV state uses it: [enc] returns the bytes
    written to the arena and the chunk's metadata, [dec] reads from the start of
    the compressed chunk, [comp_bound] is the worst case the arenas are sized
    with and [meta_bytes] the metadata size counted per K/V pair. *)
Class Codec := {
  enc : Z → list byte → list byte * list byte;
  dec : Z → list byte → list byte → list byte;
  comp_bound : Z → Z;
  meta_bytes : Z → Z }.

(** Answers of the environment: the content of newly allocated memory, whether
    MZCACHE_ARENA_SVM is set (and the driver provides the arena), whether a KV
    file can be opened, whether a [pwrite]/[pread] at a chunk is complete, and
    whether an SVM allocation or an [mlock] succeeds. *)
Class Env := {
  fresh_bytes : positive → list byte;
  arena_svm : bool;
  open_ok : Z → bool;
  pwrite_ok : pos → bool;
  svm_alloc_ok : pos → bool;
  mlock_ok : bool }.

Section ladder.
Context `{Codec} `{Env}.

(** ** Memory *)

(** New memory of [n] bytes; its content is unspecified. *)
Definition fresh_mem (b : positive) (n : Z) : list byte :=
  resize (Z.to_nat n) 0 (fresh_bytes b).

(** [clSVMAlloc] of [n] bytes: a new block. *)
Definition svm_alloc (n : Z) (m : memory) : positive * memory :=
  (m.(next_block),
   Memory (<[m.(next_block) := fresh_mem m.(next_block) n]> m.(heap))
     (Pos.succ m.(next_block)) m.(svm_k) m.(svm_v) m.(arenas)).

(** [clSVMFree]: the pointer must be the start of a live block. *)
Definition svm_free (p : ptr) (m : memory) : outcome memory :=
  match p with
  | Some (b, o) =>
      match m.(heap) !! b with
      | Some _ => if o =? 0 then
          Ok (Memory (delete b m.(heap)) m.(next_block) m.(svm_k) m.(svm_v) m.(arenas))
          else Ub
      | None => Ub
      end
  | None => Ub
  end.

(** Reading [n] bytes through a pointer. *)
Definition load (p : ptr) (n : Z) (m : memory) : outcome (list byte) :=
  match p with
  | Some (b, o) =>
      match m.(heap) !! b with
      | Some d => if (0 <=? o) && (o + n <=? Z.of_nat (length d))
                  then Ok (read_at o n d) else Ub
      | None => Ub
      end
  | None => Ub
  end.

(** Writing bytes through a pointer. *)
Definition store (p : ptr) (data : list byte) (m : memory) : outcome memory :=
  match p with
  | Some (b, o) =>
      match m.(heap) !! b with
      | Some d => if (0 <=? o) && (o + Z.of_nat (length data) <=? Z.of_nat (length d))
                  then Ok (Memory (<[b := write_at o data d]> m.(heap)) m.(next_block)
                             m.(svm_k) m.(svm_v) m.(arenas))
                  else Ub
      | None => Ub
      end
  | None => Ub
  end.

(** [v == k + n] on pointers into one allocation. *)
Definition ptr_is_next (k v : ptr) (n : Z) : bool :=
  match k, v with
  | Some (bk, ok), Some (bv, ov) => bool_decide (bk = bv) && (ov =? ok + n)
  | _, _ => false
  end.

(** Releasing a chunk's K and V memory and nulling the GPU-visible entries. *)
Definition free_chunk (n : Z) (p : pos) (k v : ptr) (m : memory) : outcome memory :=
  m1 <~ (if ptr_is_next k v n then svm_free k m
         else m' <~ svm_free k m ;; svm_free v m') ;;
  Ok (Memory m1.(heap) m1.(next_block) (<[p := None]> m1.(svm_k))
        (<[p := None]> m1.(svm_v)) m1.(arenas)).

(** ** Arenas *)

(** [Arena::Arena(size, allow_svm)]. *)
Definition new_arena (size : Z) (allow_svm : bool) : Arena :=
  MkArena (fresh_mem 1 size) 0 size (allow_svm && arena_svm) false 0.

(** [Arena::lock_used]. *)
Definition lock_used (a : Arena) : Arena :=
  if a.(svm) || a.(locked) || (a.(top) =? 0) then a
  else
    let n := round_up_4k a.(top) in
    if mlock_ok then MkArena a.(pool) a.(top) a.(cap) a.(svm) true n else a.

(** [mzcache_kv_state::mlock_resident_arenas]: every arena of every layer. *)
Definition mlock_resident_arenas (s : kv_state) : kv_state :=
  set_mem s (Memory s.(mem).(heap) s.(mem).(next_block) s.(mem).(svm_k) s.(mem).(svm_v)
    (λ L, if (0 <=? L) && (L <? s.(num_layers)) then lock_used <$> s.(mem).(arenas) L
          else s.(mem).(arenas) L)).

(** The arena a chunk of [kv_raw_size] raw bytes goes to: the last one, or a new
    one when the layer has none or the last is out of space. *)
Definition pick_arena (size kv_raw_size : Z) (l : list Arena) : list Arena * Arena :=
  let l1 := match l with [] => [new_arena size true] | _ => l end in
  match last l1 with
  | Some a => if a.(top) + kv_raw_size >? a.(cap)
              then let a' := new_arena size true in (l1 ++ [a'], a')
              else (l1, a)
  | None => (l1, new_arena size true)
  end.

(** Writing the compressed K and V at [top]; writing past the pool is undefined. *)
Definition arena_put (a : Arena) (dk dv : list byte) : outcome Arena :=
  let n := Z.of_nat (length dk) + Z.of_nat (length dv) in
  if a.(top) + n <=? a.(cap) then
    Ok (MkArena (write_at a.(top) (dk ++ dv) a.(pool)) (a.(top) + n) a.(cap)
          a.(svm) a.(locked) a.(locked_bytes))
  else Ub.

(** ** [mzcache_compress_chunks] *)

(** [while (L >= 0 && C < 0) { L--; if (L >= 0) C = chunk_bound[L] - 1; }] *)
Fixpoint comp_guard (fuel : nat) (cb : Z → Z) (L C : Z) : Z * Z :=
  match fuel with
  | O => (L, C)
  | S f => if (0 <=? L) && (C <? 0)
           then comp_guard f cb (L - 1) (if 0 <=? L - 1 then cb (L - 1) - 1 else C)
           else (L, C)
  end.

(** The body of one compress iteration at (L, C), after the cursor guard. *)
Definition compress_at (s : kv_state) (p : pos) : outcome kv_state :=
  let '(L, C) := p in
  let rcb := raw_chunk_bytes s in
  let kp := s.(tab).(k_raw) p in
  let vp := s.(tab).(v_raw) p in
  let kv_raw_size := rcb * 2 in
  let '(l, a) := pick_arena s.(arena_bytes) kv_raw_size (s.(mem).(arenas) L) in
  kd <~ load kp rcb s.(mem) ;;
  vd <~ load vp rcb s.(mem) ;;
  let '(kc, km) := enc s.(kv_hidden_dim) kd in
  let '(vc, vm) := enc s.(kv_hidden_dim) vd in
  let key_comp_size := Z.of_nat (length kc) in
  let value_comp_size := Z.of_nat (length vc) in
  a' <~ arena_put a kc vc ;;
  let stack := Z.of_nat (length l) - 1 in
  let arenas' := <[L := <[Z.to_nat stack := a']> l]> s.(mem).(arenas) in
  m <~ free_chunk rcb p kp vp
         (Memory s.(mem).(heap) s.(mem).(next_block) s.(mem).(svm_k) s.(mem).(svm_v) arenas') ;;
  let t := s.(tab) in
  let c := s.(cnt) in
  let delta := key_comp_size + value_comp_size + meta_bytes s.(kv_hidden_dim) in
  Ok (set_cnt
        (set_cur
           (set_mem
              (set_tab s
                 (Chunks (<[p := Compressed]> t.(states)) t.(k_raw) t.(v_raw)
                    (<[p := CC stack a.(top) key_comp_size km]> t.(k_comp))
                    (<[p := CC stack (a.(top) + key_comp_size) value_comp_size vm]> t.(v_comp))
                    t.(k_stored) t.(v_stored))) m)
           (Cursors L (C - 1) s.(cur).(cur_layer_idx_to_store) s.(cur).(cur_chunk_idx_to_store)))
        (Counters (c.(n_cur_comp_chunks) + 1) c.(n_cur_store_chunks)
           (c.(n_cur_comp_saved_bytes) + (kv_raw_size - delta)) c.(n_cur_arena_offload_bytes))).

Definition compress_iter (s : kv_state) : outcome (step kv_state) :=
  let c := s.(cur) in
  let '(L, C) := comp_guard (Z.to_nat (c.(cur_layer_idx_to_compress) + 1))
                   s.(pln).(chunk_bound) c.(cur_layer_idx_to_compress)
                   c.(cur_chunk_idx_to_compress) in
  let s1 := set_cur s (Cursors L C c.(cur_layer_idx_to_store) c.(cur_chunk_idx_to_store)) in
  if L <? 0 then Ok (Break s1)
  else s2 <~ compress_at s1 (L, C) ;; Ok (Next s2).

Definition mzcache_compress_chunks (num_chunks : Z) (s : kv_state) : outcome kv_state :=
  for_loop (Z.to_nat num_chunks) compress_iter s.

(** ** [mzcache_store_chunks] *)

(** [::close(layer_fds[L]); layer_fds[L] = -1]. *)
Definition close_fd (L : Z) (d : disk) : disk :=
  Disk d.(kv_file) d.(swap_file) (<[L := FdClosed]> d.(layer_fds)).

(** The store cursor's guard: leave a layer whose store region is exhausted,
    closing its file. *)
Fixpoint store_guard (fuel : nat) (cb : Z → Z) (N : Z) (L C : Z) (d : disk) : Z * Z * disk :=
  match fuel with
  | O => (L, C, d)
  | S f => if (0 <=? L) && (C <? cb L)
           then store_guard f cb N (L - 1) (N - 1) (close_fd L d)
           else (L, C, d)
  end.

(** [pwrite] at an absolute offset: extends the file with zeros up to the
    offset when needed; on a descriptor opened for reading, or when the
    environment says so, nothing is written and the error is only logged. *)
Definition file_write (off : Z) (data f : list byte) : list byte :=
  write_at off data (f ++ replicate (Z.to_nat (off + Z.of_nat (length data)) - length f) 0).

Definition pwrite_file (ok : bool) (L off : Z) (data : list byte) (d : disk) : disk :=
  match d.(kv_file) L, d.(layer_fds) L with
  | Some f, FdWrite =>
      if ok then Disk (<[L := Some (file_write off data f)]> d.(kv_file)) d.(swap_file) d.(layer_fds)
      else d
  | _, _ => d
  end.

(** [open(fn, O_WRONLY | O_CREAT | O_DIRECT)] unless the layer's file is open. *)
Definition open_store (L : Z) (d : disk) : option disk :=
  match d.(layer_fds) L with
  | FdClosed =>
      if open_ok L then
        Some (Disk (<[L := Some (default [] (d.(kv_file) L))]> d.(kv_file)) d.(swap_file)
                (<[L := FdWrite]> d.(layer_fds)))
      else None
  | _ => Some d
  end.

(** One store iteration at (L, C), the layer's file being open. *)
Definition store_at (s : kv_state) (p : pos) : outcome kv_state :=
  let '(L, C) := p in
  let raw_chunk_bytes := raw_chunk_bytes s in
  let chunk_idx0 := C - s.(pln).(chunk_bound) L in
  let offset_key := chunk_idx0 * (raw_chunk_bytes * 2) in
  let offset_value := offset_key + raw_chunk_bytes in
  let kp := s.(tab).(k_raw) p in
  let vp := s.(tab).(v_raw) p in
  kd <~ load kp raw_chunk_bytes s.(mem) ;;
  let d1 := pwrite_file (pwrite_ok p) L offset_key kd s.(dsk) in
  vd <~ load vp raw_chunk_bytes s.(mem) ;;
  let d2 := pwrite_file (pwrite_ok p) L offset_value vd d1 in
  m <~ free_chunk raw_chunk_bytes p kp vp s.(mem) ;;
  let t := s.(tab) in
  let c := s.(cnt) in
  Ok (set_cnt
        (set_cur
           (set_dsk
              (set_mem
                 (set_tab s
                    (Chunks (<[p := Stored]> t.(states)) t.(k_raw) t.(v_raw) t.(k_comp) t.(v_comp)
                       (<[p := SC offset_key raw_chunk_bytes]> t.(k_stored))
                       (<[p := SC offset_value raw_chunk_bytes]> t.(v_stored)))) m) d2)
           (Cursors s.(cur).(cur_layer_idx_to_compress) s.(cur).(cur_chunk_idx_to_compress)
              L (C - 1)))
        (Counters c.(n_cur_comp_chunks) (c.(n_cur_store_chunks) + 1)
           c.(n_cur_comp_saved_bytes) c.(n_cur_arena_offload_bytes))).

Definition store_iter (s : kv_state) : outcome (step kv_state) :=
  let c := s.(cur) in
  let '(L, C, d) := store_guard (Z.to_nat (c.(cur_layer_idx_to_store) + 1))
                      s.(pln).(chunk_bound) s.(num_chunks_per_tensor)
                      c.(cur_layer_idx_to_store) c.(cur_chunk_idx_to_store) s.(dsk) in
  let s1 := set_dsk (set_cur s (Cursors c.(cur_layer_idx_to_compress)
                                  c.(cur_chunk_idx_to_compress) L C)) d in
  if L <? 0 then Ok (Break s1)
  else match open_store L s1.(dsk) with
       | None => Ok (Break s1)
       | Some d' => s2 <~ store_at (set_dsk s1 d') (L, C) ;; Ok (Next s2)
       end.

Definition mzcache_store_chunks (num_chunks : Z) (s : kv_state) : outcome kv_state :=
  for_loop (Z.to_nat num_chunks) store_iter s.

(** [mzcache_close_stored_files]. *)
Definition mzcache_close_stored_files (s : kv_state) : kv_state :=
  set_dsk s (Disk s.(dsk).(kv_file) s.(dsk).(swap_file)
    (λ L, if (0 <=? L) && (L <? s.(num_layers)) then FdClosed else s.(dsk).(layer_fds) L)).

End ladder.
