(* ===== verification/KvInv.v ===== *)
(** Invariants of the swap-out ladder and the content view.

    [ladder_ok] relates the cursors, the per-chunk states and the counters;
    [mem_ok] says where each chunk's bytes live (SVM memory, an arena, a file)
    and that nothing dangles or overlaps.  [view] reads a chunk's K and V content
    wherever it is; the theorems of [KvSwapOut] and [KvSwapIn] say what each
    operation does to it. *)
From S2P Require Import Prelude Floats KvTypes KvPlan KvLadder.

(** ** Cursors *)

(** State of chunk (L, C) for given cursors: everything the compress cursor has
    passed below the bound is compressed, everything the store cursor has passed
    above it is stored. *)
Definition expected_state (cb : Z → Z) (c : cursors) (p : pos) : KVstate :=
  let '(L, C) := p in
  if C <? cb L then
    if (c.(cur_layer_idx_to_compress) <? L)
       || ((c.(cur_layer_idx_to_compress) =? L) && (c.(cur_chunk_idx_to_compress) <? C))
    then Compressed else Raw
  else
    if (c.(cur_layer_idx_to_store) <? L)
       || ((c.(cur_layer_idx_to_store) =? L) && (c.(cur_chunk_idx_to_store) <? C))
    then Stored else Raw.

(** Chunks the compress (store) cursor has still to visit. *)
Definition comp_rem (s : kv_state) : Z :=
  let c := s.(cur) in
  sum_to s.(pln).(chunk_bound) (Z.to_nat c.(cur_layer_idx_to_compress))
  + (c.(cur_chunk_idx_to_compress) + 1).
Definition store_rem (s : kv_state) : Z :=
  let c := s.(cur) in
  if c.(cur_layer_idx_to_store) <? 0 then 0 else
  sum_to (λ i, s.(num_chunks_per_tensor) - s.(pln).(chunk_bound) i)
    (Z.to_nat c.(cur_layer_idx_to_store))
  + (c.(cur_chunk_idx_to_store) - s.(pln).(chunk_bound) c.(cur_layer_idx_to_store) + 1).

Definition in_range (s : kv_state) (p : pos) : Prop :=
  0 <= p.1 < s.(num_layers) ∧ 0 <= p.2 < s.(num_chunks_per_tensor).

Record ladder_ok (s : kv_state) : Prop := LadderOk {
  lo_L : 0 < s.(num_layers) <= MAX_NUM_LAYERS;
  lo_N : 0 < s.(num_chunks_per_tensor) <= MAX_CHUNKS_PER_TENSOR;
  lo_plan : plan_ok s.(num_chunks_per_tensor) s.(num_layers) s.(pln).(chunk_bound);
  lo_maxc : s.(pln).(max_comp_chunks)
            = sum_to s.(pln).(chunk_bound) (Z.to_nat s.(num_layers));
  lo_maxs : s.(pln).(max_store_chunks)
            = sum_to (λ i, s.(num_chunks_per_tensor) - s.(pln).(chunk_bound) i)
                (Z.to_nat s.(num_layers));
  lo_cL : -1 <= s.(cur).(cur_layer_idx_to_compress) < s.(num_layers);
  lo_cC : -1 <= s.(cur).(cur_chunk_idx_to_compress);
  lo_cC' : s.(cur).(cur_chunk_idx_to_compress)
           < (if s.(cur).(cur_layer_idx_to_compress) <? 0 then 0
              else s.(pln).(chunk_bound) s.(cur).(cur_layer_idx_to_compress));
  lo_sL : -1 <= s.(cur).(cur_layer_idx_to_store) < s.(num_layers);
  lo_sC : s.(cur).(cur_chunk_idx_to_store) < s.(num_chunks_per_tensor);
  lo_sC' : 0 <= s.(cur).(cur_layer_idx_to_store) →
           s.(pln).(chunk_bound) s.(cur).(cur_layer_idx_to_store) - 1
           <= s.(cur).(cur_chunk_idx_to_store);
  lo_states : ∀ p, in_range s p →
              s.(tab).(states) p = expected_state s.(pln).(chunk_bound) s.(cur) p;
  lo_ncomp : s.(cnt).(n_cur_comp_chunks) = s.(pln).(max_comp_chunks) - comp_rem s;
  lo_nstore : s.(cnt).(n_cur_store_chunks) = s.(pln).(max_store_chunks) - store_rem s }.

(** The swap-out never asked for more chunks than its plan had. *)
Record tidy (s : kv_state) : Prop := Tidy {
  ti_comp : 0 <= s.(cur).(cur_layer_idx_to_compress);
  ti_store : 0 <= s.(cur).(cur_layer_idx_to_store);
  ti_full : s.(pln).(chunk_bound) s.(cur).(cur_layer_idx_to_store) < s.(num_chunks_per_tensor)
            ∨ s.(cur).(cur_layer_idx_to_store) = s.(num_layers) - 1 }.

(** ** Memory and content *)

(** The laws the codec must satisfy on chunks of the right size. *)
Class CodecLaws (C : Codec) : Prop := {
  comp_bound_raw : ∀ h, 0 < h → comp_bound h <= 1024 * h;
  enc_bound : ∀ h d1 d2, 0 < h →
    Z.of_nat (length d1) = 512 * h → Z.of_nat (length d2) = 512 * h →
    Z.of_nat (length (enc h d1).1) + Z.of_nat (length (enc h d2).1) <= comp_bound h;
  dec_len : ∀ h d, 0 < h → Z.of_nat (length d) = 512 * h →
    length (dec h (enc h d).1 (enc h d).2) = length d;
  dec_prefix : ∀ h d rest, 0 < h → Z.of_nat (length d) = 512 * h →
    dec h ((enc h d).1 ++ rest) (enc h d).2 = dec h (enc h d).1 (enc h d).2 }.

Section inv.
Context `{Cd : Codec} `{Env}.

(** What one compression round trip makes of a chunk. *)
Definition lossy (h : Z) (d : list byte) : list byte := dec h (enc h d).1 (enc h d).2.

Definition view (s : kv_state) (p : pos) : option (list byte * list byte) :=
  let n := raw_chunk_bytes s in
  match s.(tab).(states) p with
  | Raw =>
      match load (s.(mem).(svm_k) p) n s.(mem), load (s.(mem).(svm_v) p) n s.(mem) with
      | Ok k, Ok v => Some (k, v)
      | _, _ => None
      end
  | Compressed =>
      let kc := s.(tab).(k_comp) p in
      let vc := s.(tab).(v_comp) p in
      match s.(mem).(arenas) p.1 !! Z.to_nat kc.(stack_id) with
      | Some a =>
          Some (dec s.(kv_hidden_dim) (read_at kc.(offset) kc.(comp_size) a.(pool)) kc.(meta),
                dec s.(kv_hidden_dim) (read_at vc.(offset) vc.(comp_size) a.(pool)) vc.(meta))
      | None => None
      end
  | Stored =>
      match s.(dsk).(kv_file) p.1 with
      | Some f =>
          Some (read_at (s.(tab).(k_stored) p).(file_offset) n f,
                read_at (s.(tab).(v_stored) p).(file_offset) n f)
      | None => None
      end
  end.

(** A K/V pair in live SVM memory: one block of twice the size (swap-in and
    runtime growth) or two blocks (the tensors created with the cache). *)
Definition resident (h : gmap positive (list byte)) (n : Z) (k v : ptr) : Prop :=
  ∃ bk bv dk, h !! bk = Some dk ∧ k = Some (bk, 0) ∧
    ((bv = bk ∧ v = Some (bk, n) ∧ Z.of_nat (length dk) = 2 * n) ∨
     (bv ≠ bk ∧ v = Some (bv, 0) ∧ Z.of_nat (length dk) = n ∧
      ∃ dv, h !! bv = Some dv ∧ Z.of_nat (length dv) = n)).

Definition uses (k v : ptr) (b : positive) : Prop :=
  (∃ o, k = Some (b, o)) ∨ (∃ o, v = Some (b, o)).

(** The arena range named by [cc] holds the compressed form of [d]. *)
Definition comp_holds (h : Z) (cc : compressed_chunk) (a : Arena) (d : list byte) : Prop :=
  0 <= cc.(offset) ∧ 0 <= cc.(comp_size) ∧ cc.(offset) + cc.(comp_size) <= a.(top) ∧
  enc h d = (read_at cc.(offset) cc.(comp_size) a.(pool), cc.(meta)).

Definition comp_valid (s : kv_state) (cc : compressed_chunk) (a : Arena) : Prop :=
  ∃ d, Z.of_nat (length d) = raw_chunk_bytes s ∧ comp_holds s.(kv_hidden_dim) cc a d.

Definition arena_ok (size : Z) (a : Arena) : Prop :=
  a.(cap) = size ∧ Z.of_nat (length a.(pool)) = a.(cap) ∧ 0 <= a.(top) <= a.(cap).

Definition chunk_ok (s : kv_state) (p : pos) : Prop :=
  match s.(tab).(states) p with
  | Raw =>
      s.(mem).(svm_k) p = s.(tab).(k_raw) p ∧ s.(mem).(svm_v) p = s.(tab).(v_raw) p ∧
      resident s.(mem).(heap) (raw_chunk_bytes s) (s.(tab).(k_raw) p) (s.(tab).(v_raw) p)
  | Compressed =>
      s.(mem).(svm_k) p = None ∧ s.(mem).(svm_v) p = None ∧
      ∃ a, s.(mem).(arenas) p.1 !! Z.to_nat (s.(tab).(k_comp) p).(stack_id) = Some a ∧
        comp_valid s (s.(tab).(k_comp) p) a ∧ comp_valid s (s.(tab).(v_comp) p) a
  | Stored =>
      s.(mem).(svm_k) p = None ∧ s.(mem).(svm_v) p = None ∧
      ∃ f, s.(dsk).(kv_file) p.1 = Some f ∧
        let o := (p.2 - s.(pln).(chunk_bound) p.1) * (2 * raw_chunk_bytes s) in
        (s.(tab).(k_stored) p).(file_offset) = o ∧
        (s.(tab).(v_stored) p).(file_offset) = o + raw_chunk_bytes s ∧
        o + 2 * raw_chunk_bytes s <= Z.of_nat (length f)
  end.

Record mem_ok (s : kv_state) : Prop := MemOk {
  mo_dim : 0 < s.(kv_hidden_dim);
  mo_arena_bytes : comp_bound s.(kv_hidden_dim) <= s.(arena_bytes);
  mo_chunks : ∀ p, in_range s p → chunk_ok s p;
  mo_sep : ∀ p q b, in_range s p → in_range s q → p ≠ q →
    s.(tab).(states) p = Raw → s.(tab).(states) q = Raw →
    uses (s.(tab).(k_raw) p) (s.(tab).(v_raw) p) b →
    uses (s.(tab).(k_raw) q) (s.(tab).(v_raw) q) b → False;
  mo_fresh : ∀ b, is_Some (s.(mem).(heap) !! b) → (b < s.(mem).(next_block))%positive;
  mo_arenas : ∀ L, Forall (arena_ok s.(arena_bytes)) (s.(mem).(arenas) L);
  mo_fds : ∀ L, s.(dsk).(layer_fds) L = FdClosed ∨
    (s.(dsk).(layer_fds) L = FdWrite ∧ is_Some (s.(dsk).(kv_file) L)) }.
End inv.
