(* ===== verification/KvFrame.v ===== *)
(** Shared lemmas of the swap-out ladder: the cursor guards, memory, arenas and
    files, and the frame of a step that moves one chunk ([frame]): every other
    chunk keeps its content and its place. *)
From S2P Require Import Prelude Floats KvTypes KvPlan KvLadder KvInv.

(** ** The cursor guards *)

Lemma sum_to_pred f L : 0 < L → sum_to f (Z.to_nat L) = sum_to f (Z.to_nat (L - 1)) + f (L - 1).
Proof.
  intros. replace (Z.to_nat L) with (S (Z.to_nat (L - 1))) by lia. cbn [sum_to].
  by rewrite Z2Nat.id by lia.
Qed.

(** Total number of chunks a compress cursor (L, C) has left. *)
Definition crem (cb : Z → Z) (L C : Z) : Z := sum_to cb (Z.to_nat L) + (C + 1).
Definition srem (cb : Z → Z) (N L C : Z) : Z :=
  if L <? 0 then 0 else sum_to (λ i, N - cb i) (Z.to_nat L) + (C - cb L + 1).

Definition ccur_ok (nl : Z) (cb : Z → Z) (L C : Z) : Prop :=
  -1 <= L < nl ∧ -1 <= C ∧ C < (if L <? 0 then 0 else cb L).
Definition scur_ok (nl N : Z) (cb : Z → Z) (L C : Z) : Prop :=
  -1 <= L < nl ∧ C < N ∧ (0 <= L → cb L - 1 <= C).

(** Membership in the visited region of a cursor, below (above) the bound. *)
Definition passed (L C : Z) (p : pos) : bool := (L <? p.1) || ((L =? p.1) && (C <? p.2)).

Lemma comp_guard_spec nl N cb fuel L C :
  (∀ i, 0 <= i < nl → 0 <= cb i <= N) → ccur_ok nl cb L C → (Z.to_nat (L + 1) <= fuel)%nat →
  ∃ L' C', comp_guard fuel cb L C = (L', C') ∧ ccur_ok nl cb L' C' ∧
    (0 <= L' → 0 <= C') ∧ crem cb L' C' = crem cb L C ∧
    ∀ p : pos, 0 <= p.1 < nl → 0 <= p.2 < cb p.1 → passed L' C' p = passed L C p.
Proof.
  intros Hcb. revert L C. induction fuel as [|f IH]; intros L C Hc Hf; cbn [comp_guard].
  - exists L, C. unfold ccur_ok in *. repeat split; (done || lia).
  - destruct (Z.leb_spec 0 L), (Z.ltb_spec C 0); cbn [andb].
    2-4: exists L, C; unfold ccur_ok in *; repeat split; (done || lia).
    destruct Hc as (HL & HC & HC'). assert (C = -1) as -> by lia.
    set (C1 := if 0 <=? L - 1 then cb (L - 1) - 1 else -1).
    destruct (IH (L - 1) C1) as (L' & C' & -> & Hok & H0' & Hrem & Hp).
    + unfold ccur_ok, C1. destruct (Z.leb_spec 0 (L - 1)).
      * pose proof (Hcb (L - 1) ltac:(lia)). bool_case; lia.
      * bool_case; lia.
    + lia.
    + exists L', C'. split; [done|]. split; [done|]. split; [done|]. split.
      * rewrite Hrem. unfold crem, C1. destruct (Z.leb_spec 0 (L - 1)).
        -- rewrite (sum_to_pred cb L) by lia. lia.
        -- replace L with 0 by lia. simpl. lia.
      * intros p Hp1 Hp2. rewrite Hp by done. unfold passed, C1.
        destruct (Z.leb_spec 0 (L - 1)); repeat bool_case;
          destruct (Z.ltb_spec L p.1), (Z.ltb_spec (L - 1) p.1), (Z.eqb_spec L p.1),
            (Z.eqb_spec (L - 1) p.1), (Z.ltb_spec (-1) p.2); simpl; try (done || lia).
        -- destruct (Z.ltb_spec (cb (L - 1) - 1) p.2); [|done].
           exfalso. subst. replace (L - 1) with p.1 in * by lia. lia.
Qed.

Lemma store_guard_spec nl N cb fuel L C d :
  (∀ i, 0 <= i < nl → 0 <= cb i <= N) → 0 < N → scur_ok nl N cb L C →
  (Z.to_nat (L + 1) <= fuel)%nat →
  ∃ L' C' d', store_guard fuel cb N L C d = (L', C', d') ∧ scur_ok nl N cb L' C' ∧
    (0 <= L' → cb L' <= C') ∧ srem cb N L' C' = srem cb N L C ∧
    (∀ p : pos, 0 <= p.1 < nl → cb p.1 <= p.2 < N → passed L' C' p = passed L C p) ∧
    d'.(kv_file) = d.(kv_file) ∧ d'.(swap_file) = d.(swap_file) ∧
    (∀ i, d'.(layer_fds) i = d.(layer_fds) i ∨ d'.(layer_fds) i = FdClosed).
Proof.
  intros Hcb HN. revert L C d. induction fuel as [|f IH]; intros L C d Hc Hf; cbn [store_guard].
  - exists L, C, d. unfold scur_ok in *. repeat split; (done || lia || auto).
  - destruct (Z.leb_spec 0 L) as [HL0|HL0], (Z.ltb_spec C (cb L)) as [HC0|HC0]; cbn [andb].
    2-4: exists L, C, d; unfold scur_ok in *; repeat split; (done || lia || auto).
    destruct Hc as (HL & HC & HC').
    destruct (IH (L - 1) (N - 1) (close_fd L d))
      as (L' & C' & d' & -> & Hok & H0' & Hrem & Hp & Hf1 & Hf2 & Hf3).
    + unfold scur_ok. repeat split; try lia. intros. pose proof (Hcb (L - 1)). lia.
    + lia.
    + exists L', C', d'. split; [done|]. split; [done|]. split; [done|]. split; [|split; [|split; [|split]]].
      * rewrite Hrem. unfold srem. destruct (Z.ltb_spec (L - 1) 0), (Z.ltb_spec L 0); try lia.
        -- replace L with 0 in * by lia. simpl. lia.
        -- rewrite (sum_to_pred (λ i, N - cb i) L) by lia. lia.
      * intros p Hp1 Hp2. rewrite Hp by done. unfold passed.
        destruct (Z.ltb_spec L p.1), (Z.ltb_spec (L - 1) p.1), (Z.eqb_spec L p.1),
          (Z.eqb_spec (L - 1) p.1), (Z.ltb_spec C p.2), (Z.ltb_spec (N - 1) p.2);
          simpl; try (done || lia).
        exfalso. subst. lia.
      * rewrite Hf1. done.
      * rewrite Hf2. done.
      * intros i. destruct (Hf3 i) as [->| ->]; [|auto]. unfold close_fd; simpl.
        destruct (decide (L = i)) as [->|Hne];
          [rewrite fn_lookup_insert | rewrite fn_lookup_insert_ne by done]; auto.
Qed.

(** ** Memory lemmas *)

Lemma load_agree (b : positive) (o n : Z) (m m' : memory) :
  m'.(heap) !! b = m.(heap) !! b → load (Some (b, o)) n m' = load (Some (b, o)) n m.
Proof. intros H. unfold load. by rewrite H. Qed.

Lemma resident_agree (h h' : gmap positive (list byte)) (n : Z) (k v : ptr) :
  (∀ b, uses k v b → h' !! b = h !! b) → resident h n k v → resident h' n k v.
Proof.
  intros Hag (bk & bv & dk & Hk & -> & Hv). exists bk, bv, dk.
  assert (Hbk : h' !! bk = h !! bk) by (apply Hag; left; eauto).
  rewrite Hbk. split; [done|]. split; [done|].
  destruct Hv as [?|(Hne & -> & Hl & dv & Hdv & Hl')]; [by left|right].
  repeat split; try done. exists dv. rewrite Hag by (right; eauto). done.
Qed.

Lemma resident_load (m : memory) (n : Z) (k v : ptr) :
  0 < n → resident m.(heap) n k v →
  ∃ kd vd, load k n m = Ok kd ∧ load v n m = Ok vd ∧
    Z.of_nat (length kd) = n ∧ Z.of_nat (length vd) = n ∧
    ∀ m', (∀ b, uses k v b → m'.(heap) !! b = m.(heap) !! b) →
      load k n m' = Ok kd ∧ load v n m' = Ok vd.
Proof.
  intros Hn (bk & bv & dk & Hk & -> & Hv).
  assert (Hread : ∀ b o d, m.(heap) !! b = Some d → 0 <= o → o + n <= Z.of_nat (length d) →
    load (Some (b, o)) n m = Ok (read_at o n d)).
  { intros b o d Hb Ho Hl. unfold load. rewrite Hb.
    rewrite (proj2 (Z.leb_le 0 o)), (proj2 (Z.leb_le (o + n) _)) by lia. done. }
  destruct Hv as [(-> & -> & Hl)|(Hne & -> & Hl & dv & Hdv & Hl')].
  - exists (read_at 0 n dk), (read_at n n dk).
    rewrite !(Hread bk _ dk) by (done || lia).
    rewrite !length_read_at by lia. repeat split; try lia.
    all: rewrite (load_agree bk _ n m m') by (apply H; left; eauto).
    all: apply Hread; (done || lia).
  - exists (read_at 0 n dk), (read_at 0 n dv).
    rewrite (Hread bk _ dk), (Hread bv _ dv) by (done || lia).
    rewrite !length_read_at by lia. repeat split; try lia.
    + rewrite (load_agree bk _ n m m') by (apply H; left; eauto). apply Hread; (done || lia).
    + rewrite (load_agree bv _ n m m') by (apply H; right; eauto). apply Hread; (done || lia).
Qed.

(** Releasing a resident pair succeeds, removes no other block and nulls only
    this chunk's entries. *)
Lemma free_chunk_spec n p k v m :
  0 < n → resident m.(heap) n k v →
  ∃ m', free_chunk n p k v m = Ok m' ∧
    (∀ b, ¬ uses k v b → m'.(heap) !! b = m.(heap) !! b) ∧
    (∀ b, is_Some (m'.(heap) !! b) → is_Some (m.(heap) !! b)) ∧
    m'.(next_block) = m.(next_block) ∧ m'.(arenas) = m.(arenas) ∧
    m'.(svm_k) = <[p:=None]> m.(svm_k) ∧ m'.(svm_v) = <[p:=None]> m.(svm_v).
Proof.
  intros Hn (bk & bv & dk & Hk & -> & Hv). unfold free_chunk, ptr_is_next.
  destruct Hv as [(-> & -> & Hl)|(Hne & -> & Hl & dv & Hdv & Hl')].
  - rewrite bool_decide_eq_true_2 by done. rewrite Z.eqb_refl. cbn [andb svm_free].
    rewrite Hk. simpl. eexists. split; [reflexivity|]. simpl. repeat split.
    + intros b Hb. rewrite lookup_delete_ne; [done|]. intros <-. apply Hb. left. eauto.
    + intros b Hs. rewrite lookup_delete_is_Some in Hs. tauto.
  - rewrite bool_decide_eq_false_2 by done. cbn [andb svm_free].
    rewrite Hk. cbn [Z.eqb obind svm_free heap].
    rewrite lookup_delete_ne by done. rewrite Hdv. simpl.
    eexists. split; [reflexivity|]. simpl. repeat split.
    + intros b Hb. rewrite !lookup_delete_ne; [done| |].
      * intros <-. apply Hb. left. eauto.
      * intros <-. apply Hb. right. eauto.
    + intros b Hs. rewrite !lookup_delete_is_Some in Hs. tauto.
Qed.

(** Accesses inside a live block. *)
Lemma store_ok (b : positive) o d data (m : memory) :
  m.(heap) !! b = Some d → 0 <= o → o + Z.of_nat (length data) <= Z.of_nat (length d) →
  store (Some (b, o)) data m =
    Ok (Memory (<[b := write_at o data d]> m.(heap)) m.(next_block) m.(svm_k) m.(svm_v) m.(arenas)).
Proof.
  intros Hb Ho Hl. unfold store. rewrite Hb.
  by rewrite (proj2 (Z.leb_le _ _) Ho), (proj2 (Z.leb_le _ _) Hl).
Qed.

Lemma load_ok (b : positive) o n d (m : memory) :
  m.(heap) !! b = Some d → 0 <= o → o + n <= Z.of_nat (length d) →
  load (Some (b, o)) n m = Ok (read_at o n d).
Proof.
  intros Hb Ho Hl. unfold load. rewrite Hb.
  by rewrite (proj2 (Z.leb_le _ _) Ho), (proj2 (Z.leb_le _ _) Hl).
Qed.

Lemma read_at_all n (l : list byte) : n = Z.of_nat (length l) → read_at 0 n l = l.
Proof. intros ->. unfold read_at. rewrite drop_0. apply take_ge. lia. Qed.

(** ** Arenas *)

(** The first [top] bytes of two pools agree. *)
Definition same_range (top : Z) (l l' : list byte) : Prop :=
  ∀ o n, 0 <= o → 0 <= n → o + n <= top → read_at o n l' = read_at o n l.

Section arenas.
Context `{Env}.

Lemma length_fresh_mem b n : 0 <= n → Z.of_nat (length (fresh_mem b n)) = n.
Proof. intros. unfold fresh_mem. rewrite length_resize. lia. Qed.

Lemma new_arena_ok size sv : 0 <= size → arena_ok size (new_arena size sv).
Proof. intros. unfold arena_ok, new_arena; simpl. rewrite length_fresh_mem by lia. lia. Qed.

Lemma pick_arena_spec size raw need l :
  0 <= need <= size → need <= raw → Forall (arena_ok size) l →
  ∃ e a, pick_arena size raw l = (l ++ e, a) ∧ last (l ++ e) = Some a ∧
    Forall (arena_ok size) (l ++ e) ∧ a.(top) + need <= a.(cap).
Proof.
  intros Hneed Hraw Hl. unfold pick_arena.
  set (l1 := match l with [] => [new_arena size true] | _ => l end).
  assert (∃ e1, l1 = l ++ e1) as [e1 He1].
  { destruct l; [exists [new_arena size true] | exists []; rewrite app_nil_r]; done. }
  assert (Hl1 : Forall (arena_ok size) l1).
  { destruct l; [|done]. constructor; [apply new_arena_ok; lia|constructor]. }
  destruct (last l1) as [a|] eqn:Ea.
  - rewrite Z.gtb_ltb. destruct (Z.ltb_spec a.(cap) (a.(top) + raw)).
    + exists (e1 ++ [new_arena size true]), (new_arena size true).
      rewrite app_assoc, <- He1. rewrite last_snoc. repeat split; try done.
      * apply Forall_app; split; [done|]. constructor; [apply new_arena_ok; lia|constructor].
      * simpl. lia.
    + exists e1, a. rewrite <- He1. repeat split; try done. lia.
  - exfalso. apply last_None in Ea. unfold l1 in Ea. by destruct l.
Qed.

Lemma arena_put_spec size a dk dv :
  arena_ok size a → a.(top) + (Z.of_nat (length dk) + Z.of_nat (length dv)) <= a.(cap) →
  ∃ a', arena_put a dk dv = Ok a' ∧ arena_ok size a' ∧ a.(top) <= a'.(top) ∧
    a'.(top) = a.(top) + Z.of_nat (length dk) + Z.of_nat (length dv) ∧
    (∀ o n, 0 <= o → 0 <= n → o + n <= a.(top) →
       read_at o n a'.(pool) = read_at o n a.(pool)) ∧
    read_at a.(top) (Z.of_nat (length dk)) a'.(pool) = dk ∧
    read_at (a.(top) + Z.of_nat (length dk)) (Z.of_nat (length dv)) a'.(pool) = dv.
Proof.
  intros (Hcap & Hlen & Htop) Hfit. unfold arena_put.
  rewrite (proj2 (Z.leb_le _ _) Hfit). eexists. split; [reflexivity|]. simpl.
  assert (Hwl : length (write_at (top a) (dk ++ dv) (pool a)) = length (pool a)).
  { apply length_write_at; rewrite ?length_app; lia. }
  repeat split; simpl; try lia.
  - intros. apply read_write_before; lia.
  - pose proof (read_write_same (top a) (dk ++ dv) (pool a) ltac:(lia) ltac:(lia)) as Hr.
    unfold read_at in *. rewrite length_app, Nat2Z.inj_add, Z2Nat.inj_add in Hr by lia.
    rewrite !Nat2Z.id in *. apply (f_equal (take (length dk))) in Hr.
    rewrite take_take, Nat.min_l, take_app_length in Hr by lia. done.
  - pose proof (read_write_same (top a) (dk ++ dv) (pool a) ltac:(lia) ltac:(lia)) as Hr.
    unfold read_at in *. rewrite length_app, Nat2Z.inj_add in Hr.
    apply (f_equal (drop (length dk))) in Hr.
    rewrite drop_app_length in Hr. rewrite skipn_firstn_comm, drop_drop in Hr.
    etransitivity; [|exact Hr]. f_equal; [lia|]. f_equal; lia.
Qed.

(** Replacing the last arena keeps every other arena where it was. *)
Lemma arena_list_update (l e : list Arena) a a' i x :
  last (l ++ e) = Some a → l !! i = Some x →
  (<[Z.to_nat (Z.of_nat (length (l ++ e)) - 1) := a']> (l ++ e)) !! i =
    Some (if decide (S i = length (l ++ e)) then a' else x) ∧
  (S i = length (l ++ e) → x = a).
Proof.
  intros Hlast Hx. pose proof (lookup_lt_Some _ _ _ Hx).
  rewrite last_lookup in Hlast. rewrite length_app in *.
  destruct (decide (S i = (length l + length e)%nat)) as [Heq|Hne].
  - split.
    + replace (Z.to_nat _) with i by lia. apply list_lookup_insert_eq. rewrite length_app. lia.
    + intros _. replace (Init.Nat.pred (length l + length e)) with i in Hlast by lia.
      rewrite lookup_app_l in Hlast by lia. congruence.
  - split; [|lia]. rewrite list_lookup_insert_ne by lia. by rewrite lookup_app_l by lia.
Qed.

(** Compressing into a layer's arenas: a slot is found, the bytes fit, and the
    bytes already in the layer's arenas stay where they are. *)
Lemma pick_put_spec size raw dk dv l0 :
  Forall (arena_ok size) l0 →
  Z.of_nat (length dk) + Z.of_nat (length dv) <= size →
  Z.of_nat (length dk) + Z.of_nat (length dv) <= raw →
  ∃ l a a', pick_arena size raw l0 = (l, a) ∧ arena_put a dk dv = Ok a' ∧
    let stk := Z.of_nat (length l) - 1 in
    let l' := <[Z.to_nat stk := a']> l in
    Forall (arena_ok size) l' ∧ l' !! Z.to_nat stk = Some a' ∧ 0 <= a.(top) ∧
    a'.(top) = a.(top) + Z.of_nat (length dk) + Z.of_nat (length dv) ∧
    read_at a.(top) (Z.of_nat (length dk)) a'.(pool) = dk ∧
    read_at (a.(top) + Z.of_nat (length dk)) (Z.of_nat (length dv)) a'.(pool) = dv ∧
    ∀ i x, l0 !! i = Some x → ∃ x', l' !! i = Some x' ∧ x.(top) <= x'.(top) ∧
      same_range x.(top) x.(pool) x'.(pool).
Proof.
  intros Hl0 Hs Hr.
  destruct (pick_arena_spec size raw (Z.of_nat (length dk) + Z.of_nat (length dv)) l0
              ltac:(lia) Hr Hl0) as (e & a & Hpick & Hlast & Hall & Hfit).
  assert (Haok : arena_ok size a).
  { rewrite Forall_forall in Hall. apply Hall. by eapply last_Some_elem_of. }
  destruct (arena_put_spec size a dk dv Haok Hfit)
    as (a' & Hput & Ha' & Htop & Htop' & Hkeep & Hrk & Hrv).
  exists (l0 ++ e), a, a'. split; [done|]. split; [done|]. cbv zeta.
  assert (0 < length (l0 ++ e))%nat by (destruct (l0 ++ e); [done|simpl; lia]).
  split; [by apply Forall_insert|]. split; [apply list_lookup_insert_eq; lia|].
  destruct Haok as (_ & _ & ?). split; [lia|]. do 3 (split; [done|]).
  intros i x Hx. destruct (arena_list_update l0 e a a' i x Hlast Hx) as [-> Hxa].
  eexists. split; [reflexivity|]. case_decide as Hd; [|split; [lia|done]].
  rewrite (Hxa Hd). split; [lia|]. intros o k ? ? ?. by apply Hkeep.
Qed.
End arenas.

(** ** Frame: a step on chunk [p] leaves the other chunks alone *)
Section frame.
Context `{Cd : Codec} `{Ev : Env}.

Record frame (s s' : kv_state) (p : pos) : Prop := Frame {
  fr_cfg : s'.(num_layers) = s.(num_layers) ∧ s'.(kv_hidden_dim) = s.(kv_hidden_dim) ∧
           s'.(num_chunks_per_tensor) = s.(num_chunks_per_tensor) ∧
           s'.(arena_bytes) = s.(arena_bytes) ∧ s'.(pln) = s.(pln);
  fr_tab : ∀ q, q ≠ p →
    s'.(tab).(states) q = s.(tab).(states) q ∧
    s'.(tab).(k_raw) q = s.(tab).(k_raw) q ∧ s'.(tab).(v_raw) q = s.(tab).(v_raw) q ∧
    s'.(tab).(k_comp) q = s.(tab).(k_comp) q ∧ s'.(tab).(v_comp) q = s.(tab).(v_comp) q ∧
    s'.(tab).(k_stored) q = s.(tab).(k_stored) q ∧ s'.(tab).(v_stored) q = s.(tab).(v_stored) q ∧
    s'.(mem).(svm_k) q = s.(mem).(svm_k) q ∧ s'.(mem).(svm_v) q = s.(mem).(svm_v) q;
  fr_heap : ∀ q b, in_range s q → q ≠ p → s.(tab).(states) q = Raw →
    uses (s.(tab).(k_raw) q) (s.(tab).(v_raw) q) b →
    s'.(mem).(heap) !! b = s.(mem).(heap) !! b;
  fr_arenas : ∀ q a, in_range s q → q ≠ p → s.(tab).(states) q = Compressed →
    s.(mem).(arenas) q.1 !! Z.to_nat (s.(tab).(k_comp) q).(stack_id) = Some a →
    ∃ a', s'.(mem).(arenas) q.1 !! Z.to_nat (s.(tab).(k_comp) q).(stack_id) = Some a' ∧
      a.(top) <= a'.(top) ∧ same_range a.(top) a.(pool) a'.(pool);
  fr_files : ∀ q f, in_range s q → q ≠ p → s.(tab).(states) q = Stored →
    s.(dsk).(kv_file) q.1 = Some f →
    let o := (q.2 - s.(pln).(chunk_bound) q.1) * (2 * raw_chunk_bytes s) in
    o + 2 * raw_chunk_bytes s <= Z.of_nat (length f) →
    ∃ f', s'.(dsk).(kv_file) q.1 = Some f' ∧ (length f <= length f')%nat ∧
      read_at o (raw_chunk_bytes s) f' = read_at o (raw_chunk_bytes s) f ∧
      read_at (o + raw_chunk_bytes s) (raw_chunk_bytes s) f'
      = read_at (o + raw_chunk_bytes s) (raw_chunk_bytes s) f }.

Lemma comp_valid_same s s' cc a a' :
  s'.(kv_hidden_dim) = s.(kv_hidden_dim) → a.(top) <= a'.(top) →
  same_range a.(top) a.(pool) a'.(pool) → comp_valid s cc a →
  comp_valid s' cc a' ∧
  read_at cc.(offset) cc.(comp_size) a'.(pool) = read_at cc.(offset) cc.(comp_size) a.(pool).
Proof.
  intros Hh Htop Hsame (d & Hd & Ho & Hc & Ht & He).
  assert (Hr : read_at cc.(offset) cc.(comp_size) a'.(pool)
               = read_at cc.(offset) cc.(comp_size) a.(pool)) by (apply Hsame; lia).
  split; [|done]. exists d. unfold raw_chunk_bytes, comp_holds in *. rewrite Hr, Hh.
  repeat split; (done || lia).
Qed.

Lemma frame_chunk s s' p q :
  0 < raw_chunk_bytes s → frame s s' p → in_range s q → q ≠ p → chunk_ok s q →
  chunk_ok s' q ∧ view s' q = view s q.
Proof.
  intros Hpos Hfr Hin Hne Hok. pose proof (fr_cfg _ _ _ Hfr) as (HcL & Hch & HcN & Hca & Hcp).
  destruct (fr_tab _ _ _ Hfr q Hne) as (H1 & H2 & H3 & H4 & H5 & H6 & H7 & H8 & H9).
  assert (Hrcb : raw_chunk_bytes s' = raw_chunk_bytes s) by (unfold raw_chunk_bytes; by rewrite Hch).
  unfold chunk_ok, view in *. rewrite H1, H2, H3, H4, H5, H6, H7, H8, H9, Hrcb, Hcp, Hch.
  destruct (s.(tab).(states) q) eqn:Est.
  - destruct Hok as (Hk & Hv & Hres).
    assert (Hag : ∀ b, uses (k_raw (tab s) q) (v_raw (tab s) q) b →
                  heap (mem s') !! b = heap (mem s) !! b).
    { intros b Hb. by apply (fr_heap _ _ _ Hfr q). }
    split; [split; [done|split; [done|]]; by eapply resident_agree|].
    rewrite Hk, Hv.
    destruct (resident_load (mem s) (raw_chunk_bytes s) _ _ Hpos Hres)
      as (kd & vd & -> & -> & _ & _ & Hl).
    destruct (Hl (mem s') Hag) as [-> ->]. done.
  - destruct Hok as (Hk & Hv & a & Ha & Hvk & Hvv).
    destruct (fr_arenas _ _ _ Hfr q a Hin Hne Est Ha) as (a' & Ha' & Htop & Hsame).
    destruct (comp_valid_same s s' _ a a' Hch Htop Hsame Hvk) as [Hvk' Hrk].
    destruct (comp_valid_same s s' _ a a' Hch Htop Hsame Hvv) as [Hvv' Hrv].
    split; [eauto 10|]. by rewrite Ha', Ha, Hrk, Hrv.
  - destruct Hok as (Hk & Hv & f & Hf & Hok1 & Hok2 & Hlen).
    destruct (fr_files _ _ _ Hfr q f Hin Hne Est Hf Hlen) as (f' & Hf' & Hl & Hrk & Hrv).
    split; [split; [done|split; [done|]]; exists f'; repeat split; (done || lia)|].
    by rewrite Hf', Hf, Hok1, Hok2, Hrk, Hrv.
Qed.
End frame.

(** ** Files *)

Lemma file_write_spec off data f :
  0 <= off →
  Z.of_nat (length (file_write off data f))
    = Z.max (Z.of_nat (length f)) (off + Z.of_nat (length data)) ∧
  read_at off (Z.of_nat (length data)) (file_write off data f) = data ∧
  (∀ o n, 0 <= o → 0 <= n → o + n <= Z.of_nat (length f) →
     o + n <= off ∨ off + Z.of_nat (length data) <= o →
     read_at o n (file_write off data f) = read_at o n f).
Proof.
  intros Hoff. unfold file_write.
  set (g := f ++ replicate (Z.to_nat (off + Z.of_nat (length data)) - length f) 0).
  assert (Hg : Z.of_nat (length g) = Z.max (Z.of_nat (length f)) (off + Z.of_nat (length data))).
  { unfold g. rewrite length_app, length_replicate. lia. }
  split; [|split].
  - rewrite length_write_at by lia. done.
  - apply read_write_same; lia.
  - intros o n Ho Hn Hle Hdisj.
    assert (Hfg : read_at o n g = read_at o n f).
    { unfold read_at, g. rewrite drop_app_le by lia. rewrite take_app_le; [done|].
      rewrite length_drop. lia. }
    rewrite <- Hfg. destruct Hdisj.
    + apply read_write_before; lia.
    + apply read_write_after; lia.
Qed.

(** Two consecutive writes, as the store path issues them. *)
Lemma pwrite_pair_spec L off kd vd d f n :
  0 <= off → d.(kv_file) L = Some f → d.(layer_fds) L = FdWrite →
  Z.of_nat (length kd) = n → Z.of_nat (length vd) = n →
  ∃ f', pwrite_file true L (off + n) vd (pwrite_file true L off kd d)
          = Disk (<[L := Some f']> (<[L := Some (file_write off kd f)]> d.(kv_file)))
              d.(swap_file) d.(layer_fds) ∧
    (length f <= length f')%nat ∧ off + 2 * n <= Z.of_nat (length f') ∧
    read_at off n f' = kd ∧ read_at (off + n) n f' = vd ∧
    (∀ o k, 0 <= o → 0 <= k → o + k <= Z.of_nat (length f) →
       o + k <= off ∨ off + 2 * n <= o → read_at o k f' = read_at o k f).
Proof.
  intros Hoff Hf Hfd Hk Hv.
  destruct (file_write_spec off kd f Hoff) as (Hl1 & Hr1 & Ho1).
  destruct (file_write_spec (off + n) vd (file_write off kd f) ltac:(lia)) as (Hl2 & Hr2 & Ho2).
  exists (file_write (off + n) vd (file_write off kd f)). split; [|repeat split].
  - unfold pwrite_file. rewrite Hf, Hfd. simpl. by rewrite fn_lookup_insert, Hfd.
  - lia.
  - lia.
  - rewrite Ho2 by lia. rewrite <- Hk. exact Hr1.
  - rewrite <- Hv at 2. exact Hr2.
  - intros o k ? ? ? ?. rewrite Ho2 by lia. apply Ho1; lia.
Qed.

Lemma file_slot_disjoint n C C' b : 0 < n → C < C' →
  (C - b) * (n * 2) + 2 * n <= (C' - b) * (2 * n).
Proof. nia. Qed.

Section ops.
Context `{Cd : Codec} `{Ev : Env} {CL : CodecLaws Cd}.

Lemma frame_mem_ok s s' p :
  mem_ok s → frame s s' p → s'.(tab).(states) p ≠ Raw → chunk_ok s' p →
  (∀ b, is_Some (s'.(mem).(heap) !! b) → (b < s'.(mem).(next_block))%positive) →
  (∀ L, Forall (arena_ok s'.(arena_bytes)) (s'.(mem).(arenas) L)) →
  (∀ L, s'.(dsk).(layer_fds) L = FdClosed ∨
     (s'.(dsk).(layer_fds) L = FdWrite ∧ is_Some (s'.(dsk).(kv_file) L))) → mem_ok s'.
Proof.
  intros Hok Hfr Hnr Hp Hfresh Har Hfd.
  pose proof (fr_cfg _ _ _ Hfr) as (HcL & Hch & HcN & Hca & Hcp).
  assert (Hin : ∀ q, in_range s' q ↔ in_range s q).
  { intros q. unfold in_range. by rewrite HcL, HcN. }
  assert (Hpos : 0 < raw_chunk_bytes s).
  { pose proof (mo_dim _ Hok). unfold raw_chunk_bytes, TOKENS_PER_CHUNK, sizeof_fp16. lia. }
  split; try done.
  - rewrite Hch. apply Hok.
  - rewrite Hch, Hca. apply Hok.
  - intros q Hq. destruct (decide (q = p)) as [->|Hne]; [done|].
    apply (frame_chunk s s' p q); try done; [by apply Hin|]. apply Hok. by apply Hin.
  - intros q r b Hq Hr Hqr Hsq Hsr Huq Hur.
    assert (q ≠ p) by congruence. assert (r ≠ p) by congruence.
    destruct (fr_tab _ _ _ Hfr q) as (Q1 & Q2 & Q3 & _); [done|].
    destruct (fr_tab _ _ _ Hfr r) as (R1 & R2 & R3 & _); [done|].
    rewrite Q1 in Hsq. rewrite R1 in Hsr. rewrite Q2, Q3 in Huq. rewrite R2, R3 in Hur.
    eapply (mo_sep _ Hok q r b); eauto; by apply Hin.
Qed.

(** The fields that no ladder step touches. *)
Definition same_cfg (s s' : kv_state) : Prop :=
  s'.(num_layers) = s.(num_layers) ∧ s'.(kv_hidden_dim) = s.(kv_hidden_dim) ∧
  s'.(num_chunks_per_tensor) = s.(num_chunks_per_tensor) ∧
  s'.(per_layer_balance) = s.(per_layer_balance) ∧
  s'.(arena_bytes) = s.(arena_bytes) ∧ s'.(decomp_load_ratio) = s.(decomp_load_ratio) ∧
  s'.(pln) = s.(pln).

(** What swap-out iterations leave alone besides. *)
Definition same_rest (s s' : kv_state) : Prop :=
  s'.(next_layer_to_offload) = s.(next_layer_to_offload) ∧
  s'.(offload_used_bytes) = s.(offload_used_bytes) ∧
  s'.(pending_chunks_total) = s.(pending_chunks_total) ∧ s'.(comp_left) = s.(comp_left) ∧
  s'.(cnt).(n_cur_arena_offload_bytes) = s.(cnt).(n_cur_arena_offload_bytes) ∧
  s'.(dsk).(swap_file) = s.(dsk).(swap_file).

Lemma same_rest_trans s1 s2 s3 : same_rest s1 s2 → same_rest s2 s3 → same_rest s1 s3.
Proof. unfold same_rest. intuition congruence. Qed.

Lemma same_cfg_trans s1 s2 s3 : same_cfg s1 s2 → same_cfg s2 s3 → same_cfg s1 s3.
Proof. unfold same_cfg. intuition congruence. Qed.

Lemma raw_chunk_bytes_512 s : raw_chunk_bytes s = 512 * s.(kv_hidden_dim).
Proof. unfold raw_chunk_bytes, TOKENS_PER_CHUNK, sizeof_fp16. lia. Qed.
End ops.
