(* ===== verification/KvSwapOut.v ===== *)
(** The steps of the swap-out ladder: one iteration of
    [mzcache_compress_chunks] and of [mzcache_store_chunks] on a chunk. *)
From S2P Require Import Prelude Floats KvTypes KvPlan KvLadder KvInv KvFrame.

Section steps.
Context `{Cd : Codec} `{Ev : Env} {CL : CodecLaws Cd}.

(** A raw chunk's content can be loaded, and it is what [view] shows. *)
Lemma raw_chunk s p : mem_ok s → in_range s p → s.(tab).(states) p = Raw →
  ∃ kd vd, load (s.(tab).(k_raw) p) (raw_chunk_bytes s) s.(mem) = Ok kd ∧
    load (s.(tab).(v_raw) p) (raw_chunk_bytes s) s.(mem) = Ok vd ∧
    Z.of_nat (length kd) = raw_chunk_bytes s ∧ Z.of_nat (length vd) = raw_chunk_bytes s ∧
    view s p = Some (kd, vd) ∧
    resident s.(mem).(heap) (raw_chunk_bytes s) (s.(tab).(k_raw) p) (s.(tab).(v_raw) p).
Proof.
  intros Hok Hin Hraw. pose proof (mo_dim _ Hok). pose proof (raw_chunk_bytes_512 s).
  pose proof (mo_chunks _ Hok p Hin) as Hpc. unfold chunk_ok in Hpc. rewrite Hraw in Hpc.
  destruct Hpc as (Hsk & Hsv & Hres).
  destruct (resident_load (mem s) (raw_chunk_bytes s) _ _ ltac:(lia) Hres)
    as (kd & vd & Hlk & Hlv & Hlenk & Hlenv & _).
  exists kd, vd. do 4 (split; [done|]). split; [|done].
  unfold view. by rewrite Hraw, Hsk, Hsv, Hlk, Hlv.
Qed.

(** ** What both kinds of step do: move chunk [p] out of SVM memory *)
Record retired (s s' : kv_state) (p : pos) : Prop := Retired {
  rt_cfg : same_cfg s s';
  rt_rest : same_rest s s';
  rt_raw : s'.(tab).(k_raw) = s.(tab).(k_raw) ∧ s'.(tab).(v_raw) = s.(tab).(v_raw);
  rt_tab : ∀ q, q ≠ p →
    s'.(tab).(states) q = s.(tab).(states) q ∧
    s'.(tab).(k_comp) q = s.(tab).(k_comp) q ∧ s'.(tab).(v_comp) q = s.(tab).(v_comp) q ∧
    s'.(tab).(k_stored) q = s.(tab).(k_stored) q ∧ s'.(tab).(v_stored) q = s.(tab).(v_stored) q;
  rt_svm : s'.(mem).(svm_k) = <[p:=None]> s.(mem).(svm_k) ∧
           s'.(mem).(svm_v) = <[p:=None]> s.(mem).(svm_v);
  rt_heap : ∀ b, ¬ uses (s.(tab).(k_raw) p) (s.(tab).(v_raw) p) b →
            s'.(mem).(heap) !! b = s.(mem).(heap) !! b;
  rt_dom : ∀ b, is_Some (s'.(mem).(heap) !! b) → is_Some (s.(mem).(heap) !! b);
  rt_next : s'.(mem).(next_block) = s.(mem).(next_block);
  rt_aok : ∀ L, Forall (arena_ok s.(arena_bytes)) (s'.(mem).(arenas) L);
  rt_arenas : ∀ L i a, s.(mem).(arenas) L !! i = Some a →
    ∃ a', s'.(mem).(arenas) L !! i = Some a' ∧ a.(top) <= a'.(top) ∧
          same_range a.(top) a.(pool) a'.(pool);
  rt_fds : s'.(dsk).(layer_fds) = s.(dsk).(layer_fds);
  rt_kvf : ∀ L, is_Some (s.(dsk).(kv_file) L) → is_Some (s'.(dsk).(kv_file) L);
  rt_files : ∀ q f, in_range s q → q ≠ p → s.(tab).(states) q = Stored →
    s.(dsk).(kv_file) q.1 = Some f →
    let o := (q.2 - s.(pln).(chunk_bound) q.1) * (2 * raw_chunk_bytes s) in
    o + 2 * raw_chunk_bytes s <= Z.of_nat (length f) →
    ∃ f', s'.(dsk).(kv_file) q.1 = Some f' ∧ (length f <= length f')%nat ∧
      read_at o (raw_chunk_bytes s) f' = read_at o (raw_chunk_bytes s) f ∧
      read_at (o + raw_chunk_bytes s) (raw_chunk_bytes s) f'
      = read_at (o + raw_chunk_bytes s) (raw_chunk_bytes s) f }.

Lemma retired_frame s s' p : mem_ok s → in_range s p → s.(tab).(states) p = Raw →
  retired s s' p → frame s s' p.
Proof.
  intros Hok Hin Hraw Hr.
  destruct (rt_cfg _ _ _ Hr) as (? & ? & ? & ? & ? & ? & ?).
  destruct (rt_raw _ _ _ Hr) as [Hk Hv]. destruct (rt_svm _ _ _ Hr) as [Hsk Hsv].
  split; [done| | | |apply Hr].
  - intros q Hne. destruct (rt_tab _ _ _ Hr q Hne) as (? & ? & ? & ? & ?).
    rewrite Hk, Hv, Hsk, Hsv, !fn_lookup_insert_ne by done. done.
  - intros q b Hq Hne Hst Hu. apply (rt_heap _ _ _ Hr). intros Hup.
    by apply (mo_sep _ Hok p q b).
  - intros q a Hq Hne Hst Ha. by apply (rt_arenas _ _ _ Hr).
Qed.

Lemma retired_mem_ok s s' p : mem_ok s → in_range s p → s.(tab).(states) p = Raw →
  retired s s' p → s'.(tab).(states) p ≠ Raw → chunk_ok s' p → mem_ok s'.
Proof.
  intros Hok Hin Hraw Hr Hst Hp.
  destruct (rt_cfg _ _ _ Hr) as (? & ? & ? & ? & Hab & ? & ?).
  apply (frame_mem_ok s s' p); try done.
  - by apply retired_frame.
  - intros b Hb. rewrite (rt_next _ _ _ Hr). apply (mo_fresh _ Hok). by apply (rt_dom _ _ _ Hr).
  - rewrite Hab. apply (rt_aok _ _ _ Hr).
  - intros L. rewrite (rt_fds _ _ _ Hr). destruct (mo_fds _ Hok L) as [?|[? ?]]; [by left|right].
    split; [done|by apply (rt_kvf _ _ _ Hr)].
Qed.

Lemma retired_view s s' p q : mem_ok s → in_range s p → s.(tab).(states) p = Raw →
  retired s s' p → in_range s q → q ≠ p → view s' q = view s q.
Proof.
  intros Hok Hin Hraw Hr Hq Hne. pose proof (mo_dim _ Hok). pose proof (raw_chunk_bytes_512 s).
  apply (frame_chunk s s' p q); [lia|by apply retired_frame|done|done|]. by apply Hok.
Qed.

(** ** Compressing chunk (L, C) *)

Record compressed_step (s s' : kv_state) (L C : Z) (kd vd : list byte) : Prop := CompStep {
  ct_retired : retired s s' (L, C);
  ct_states : s'.(tab).(states) = <[(L, C) := Compressed]> s.(tab).(states);
  ct_cur : s'.(cur) = Cursors L (C - 1) s.(cur).(cur_layer_idx_to_store)
                        s.(cur).(cur_chunk_idx_to_store);
  ct_ncomp : s'.(cnt).(n_cur_comp_chunks) = s.(cnt).(n_cur_comp_chunks) + 1;
  ct_nstore : s'.(cnt).(n_cur_store_chunks) = s.(cnt).(n_cur_store_chunks);
  ct_dsk : s'.(dsk) = s.(dsk);
  ct_svm : s'.(mem).(svm_k) (L, C) = None ∧ s'.(mem).(svm_v) (L, C) = None;
  ct_arena : ∃ a, s'.(mem).(arenas) L !! Z.to_nat (s'.(tab).(k_comp) (L, C)).(stack_id) = Some a ∧
    comp_holds s.(kv_hidden_dim) (s'.(tab).(k_comp) (L, C)) a kd ∧
    comp_holds s.(kv_hidden_dim) (s'.(tab).(v_comp) (L, C)) a vd }.

Lemma compress_at_step s L C :
  mem_ok s → in_range s (L, C) → s.(tab).(states) (L, C) = Raw →
  ∃ s' kd vd, compress_at s (L, C) = Ok s' ∧ view s (L, C) = Some (kd, vd) ∧
    Z.of_nat (length kd) = raw_chunk_bytes s ∧ Z.of_nat (length vd) = raw_chunk_bytes s ∧
    compressed_step s s' L C kd vd.
Proof.
  intros Hok Hin Hraw. set (p := (L, C)) in *.
  pose proof (mo_dim _ Hok) as Hdim. pose proof (raw_chunk_bytes_512 s) as Hn.
  destruct (raw_chunk s p Hok Hin Hraw) as (kd & vd & Hlk & Hlv & Hlenk & Hlenv & Hview & Hres).
  set (n := raw_chunk_bytes s) in *.
  destruct (enc (kv_hidden_dim s) kd) as [kc km] eqn:Ek.
  destruct (enc (kv_hidden_dim s) vd) as [vc vm] eqn:Ev'.
  pose proof (enc_bound (kv_hidden_dim s) kd vd Hdim ltac:(lia) ltac:(lia)) as Hbnd.
  rewrite Ek, Ev' in Hbnd. simpl in Hbnd.
  pose proof (comp_bound_raw (kv_hidden_dim s) Hdim). pose proof (mo_arena_bytes _ Hok).
  destruct (pick_put_spec (arena_bytes s) (n * 2) kc vc (arenas (mem s) L)
              (mo_arenas _ Hok L) ltac:(lia) ltac:(lia))
    as (l & a & a' & Hpick & Hput & Hall & Hla' & Htop & Htop' & Hrk & Hrv & Hgrow).
  set (stk := Z.of_nat (length l) - 1) in *.
  set (ar' := <[L := <[Z.to_nat stk := a']> l]> (arenas (mem s))).
  destruct (free_chunk_spec n p (k_raw (tab s) p) (v_raw (tab s) p)
              (Memory (heap (mem s)) (next_block (mem s)) (svm_k (mem s)) (svm_v (mem s)) ar')
              ltac:(lia) Hres) as (m & Hfree & Hheap & Hdom & Hnext & Har & Hsvk & Hsvv).
  simpl in Hheap, Hdom, Hnext, Har, Hsvk, Hsvv.
  eexists _, kd, vd. split; [|split; [done|split; [done|split; [done|]]]].
  { unfold compress_at, p. cbv beta iota zeta. fold p n. rewrite Hpick, Hlk, Hlv. cbn [obind].
    rewrite Ek, Ev', Hput. cbn [obind]. fold stk ar'. rewrite Hfree. reflexivity. }
  split; cbn -[fn_insert]; try done; fold p.
  - split; cbn -[fn_insert]; try done.
    + intros q Hne. rewrite !fn_lookup_insert_ne by done. done.
    + intros L'. rewrite Har. unfold ar'. destruct (decide (L = L')) as [->|HneL].
      * by rewrite fn_lookup_insert.
      * rewrite fn_lookup_insert_ne by done. apply (mo_arenas _ Hok).
    + intros L' i x Hx. rewrite Har. unfold ar'. destruct (decide (L = L')) as [->|HneL].
      * rewrite fn_lookup_insert. by apply Hgrow.
      * rewrite fn_lookup_insert_ne by done. exists x. unfold same_range. repeat split; (done || lia).
    + intros q f _ _ _ Hf Ho. by exists f.
  - rewrite Hsvk, Hsvv, !fn_lookup_insert. done.
  - exists a'. rewrite !fn_lookup_insert, Har. unfold ar'. rewrite fn_lookup_insert.
    unfold comp_holds. cbn. rewrite Hrk, Hrv, Ek, Ev'. repeat split; (done || lia).
Qed.

Lemma compressed_view s s' L C kd vd :
  compressed_step s s' L C kd vd →
  view s' (L, C) = Some (lossy s.(kv_hidden_dim) kd, lossy s.(kv_hidden_dim) vd).
Proof.
  intros H. destruct (ct_arena _ _ _ _ _ _ H) as (a & Ha & (_ & _ & _ & Hk) & (_ & _ & _ & Hv)).
  destruct (rt_cfg _ _ _ (ct_retired _ _ _ _ _ _ H)) as (_ & Hh & _).
  unfold view. rewrite (ct_states _ _ _ _ _ _ H), fn_lookup_insert. cbn [fst].
  rewrite Ha, Hh. unfold lossy. by rewrite Hk, Hv.
Qed.

Lemma compressed_mem_ok s s' L C kd vd :
  mem_ok s → in_range s (L, C) → s.(tab).(states) (L, C) = Raw →
  Z.of_nat (length kd) = raw_chunk_bytes s → Z.of_nat (length vd) = raw_chunk_bytes s →
  compressed_step s s' L C kd vd → mem_ok s'.
Proof.
  intros Hok Hin Hraw Hkd Hvd H. pose proof (ct_retired _ _ _ _ _ _ H) as Hr.
  assert (Hst : states (tab s') (L, C) = Compressed).
  { rewrite (ct_states _ _ _ _ _ _ H). apply fn_lookup_insert. }
  apply (retired_mem_ok s s' (L, C)); try done; [by rewrite Hst|].
  unfold chunk_ok. rewrite Hst. destruct (ct_svm _ _ _ _ _ _ H) as [Hk Hv].
  destruct (ct_arena _ _ _ _ _ _ H) as (a & Ha & Hck & Hcv).
  destruct (rt_cfg _ _ _ Hr) as (_ & Hh & _).
  split; [done|]. split; [done|]. exists a. split; [done|].
  unfold comp_valid, raw_chunk_bytes in *. rewrite Hh. split; [by exists kd | by exists vd].
Qed.

(** ** Storing chunk (L, C) *)

Record stored_step (s s' : kv_state) (L C : Z) (kd vd : list byte) : Prop := StoredStep {
  st_retired : retired s s' (L, C);
  st_states : s'.(tab).(states) = <[(L, C) := Stored]> s.(tab).(states);
  st_cur : s'.(cur) = Cursors s.(cur).(cur_layer_idx_to_compress)
                        s.(cur).(cur_chunk_idx_to_compress) L (C - 1);
  st_ncomp : s'.(cnt).(n_cur_comp_chunks) = s.(cnt).(n_cur_comp_chunks);
  st_nstore : s'.(cnt).(n_cur_store_chunks) = s.(cnt).(n_cur_store_chunks) + 1;
  st_svm : s'.(mem).(svm_k) (L, C) = None ∧ s'.(mem).(svm_v) (L, C) = None;
  st_file : ∃ f, s'.(dsk).(kv_file) L = Some f ∧
    let n := raw_chunk_bytes s in
    let o := (C - s.(pln).(chunk_bound) L) * (2 * n) in
    (s'.(tab).(k_stored) (L, C)).(file_offset) = o ∧
    (s'.(tab).(v_stored) (L, C)).(file_offset) = o + n ∧
    o + 2 * n <= Z.of_nat (length f) ∧
    read_at o n f = kd ∧ read_at (o + n) n f = vd }.

Lemma store_at_step s L C f :
  mem_ok s → in_range s (L, C) → s.(tab).(states) (L, C) = Raw →
  s.(pln).(chunk_bound) L <= C →
  s.(dsk).(kv_file) L = Some f → s.(dsk).(layer_fds) L = FdWrite → pwrite_ok (L, C) = true →
  (∀ q, in_range s q → q.1 = L → s.(tab).(states) q = Stored → C < q.2) →
  ∃ s' kd vd, store_at s (L, C) = Ok s' ∧ view s (L, C) = Some (kd, vd) ∧
    stored_step s s' L C kd vd.
Proof.
  intros Hok Hin Hraw Hcb Hf Hfd Hpw Hpos. set (p := (L, C)) in *.
  pose proof (mo_dim _ Hok) as Hdim. pose proof (raw_chunk_bytes_512 s) as Hn.
  destruct (raw_chunk s p Hok Hin Hraw) as (kd & vd & Hlk & Hlv & Hlenk & Hlenv & Hview & Hres).
  set (n := raw_chunk_bytes s) in *.
  set (off := (C - chunk_bound (pln s) L) * (n * 2)).
  assert (Hoff : 0 <= off) by (unfold off; nia).
  destruct (pwrite_pair_spec L off kd vd (dsk s) f n Hoff Hf Hfd Hlenk Hlenv)
    as (f' & Hpp & Hlf & Hlf' & Hrk & Hrv & Hother).
  destruct (free_chunk_spec n p _ _ (mem s) ltac:(lia) Hres)
    as (m & Hfree & Hheap & Hdom & Hnext & Har & Hsvk & Hsvv).
  eexists _, kd, vd. split; [|split; [done|]].
  { unfold store_at, p. cbv beta iota zeta. fold p n off. rewrite Hlk. cbn [obind].
    rewrite Hlv. cbn [obind]. rewrite Hpw, Hpp, Hfree. reflexivity. }
  split; cbn -[fn_insert]; try done; fold p.
  - split; cbn -[fn_insert]; try done.
    + intros q Hne. rewrite !fn_lookup_insert_ne by done. done.
    + intros L'. rewrite Har. apply (mo_arenas _ Hok).
    + intros L' i x Hx. rewrite Har. exists x. unfold same_range. repeat split; (done || lia).
    + intros L' HL'. destruct (decide (L = L')) as [->|HneL];
        [by rewrite fn_lookup_insert | by rewrite !fn_lookup_insert_ne by done].
    + intros q g Hq Hne Hst Hg. fold n. intros Ho. destruct (decide (q.1 = L)) as [Heq|HneL].
      * rewrite Heq in *. rewrite fn_lookup_insert. exists f'.
        assert (g = f) as -> by congruence.
        pose proof (file_slot_disjoint n _ _ (chunk_bound (pln s) L) ltac:(lia)
                      (Hpos q Hq Heq Hst)) as Hsd. fold off in Hsd.
        split; [done|]. split; [done|]. split; apply Hother; lia.
      * rewrite !fn_lookup_insert_ne by done. by exists g.
  - rewrite Hsvk, Hsvv, !fn_lookup_insert. done.
  - exists f'. rewrite !fn_lookup_insert. cbn. fold n.
    replace ((C - chunk_bound (pln s) L) * (2 * n)) with off by (unfold off; lia).
    done.
Qed.

Lemma stored_view s s' L C kd vd :
  stored_step s s' L C kd vd → view s' (L, C) = Some (kd, vd).
Proof.
  intros H. destruct (st_file _ _ _ _ _ _ H) as (f & Hf & Hk & Hv & _ & Hrk & Hrv).
  destruct (rt_cfg _ _ _ (st_retired _ _ _ _ _ _ H)) as (_ & Hh & _).
  unfold view. rewrite (st_states _ _ _ _ _ _ H), fn_lookup_insert. cbn [fst].
  rewrite Hf, Hk, Hv. unfold raw_chunk_bytes in *. by rewrite Hh, Hrk, Hrv.
Qed.

Lemma stored_mem_ok s s' L C kd vd :
  mem_ok s → in_range s (L, C) → s.(tab).(states) (L, C) = Raw →
  stored_step s s' L C kd vd → mem_ok s'.
Proof.
  intros Hok Hin Hraw H. pose proof (st_retired _ _ _ _ _ _ H) as Hr.
  assert (Hst : states (tab s') (L, C) = Stored).
  { rewrite (st_states _ _ _ _ _ _ H). apply fn_lookup_insert. }
  apply (retired_mem_ok s s' (L, C)); try done; [by rewrite Hst|].
  unfold chunk_ok. rewrite Hst. destruct (st_svm _ _ _ _ _ _ H) as [Hk Hv].
  destruct (st_file _ _ _ _ _ _ H) as (f & Hf & Hko & Hvo & Hl & _ & _).
  destruct (rt_cfg _ _ _ Hr) as (_ & Hh & _ & _ & _ & _ & Hp).
  split; [done|]. split; [done|]. exists f. cbn [fst snd].
  unfold raw_chunk_bytes in *. rewrite Hh, Hp. done.
Qed.
End steps.
