(* ===== verification/KvSwapOutThms.v ===== *)
(** What [mzcache_compress_chunks] and [mzcache_store_chunks] do: how many
    chunks they move, that the ladder invariants survive, and what becomes of
    the content of every chunk. *)
From S2P Require Import Prelude Floats KvTypes KvPlan KvLadder KvInv KvFrame KvSwapOut.

(** ** Cursor bookkeeping *)

Lemma expected_state_passed cb c p :
  expected_state cb c p =
    if p.2 <? cb p.1 then
      if passed c.(cur_layer_idx_to_compress) c.(cur_chunk_idx_to_compress) p
      then Compressed else Raw
    else if passed c.(cur_layer_idx_to_store) c.(cur_chunk_idx_to_store) p
      then Stored else Raw.
Proof. by destruct p. Qed.

(** Moving a cursor from (L, C) to (L, C-1) passes exactly (L, C). *)
Lemma passed_step L C p : passed L (C - 1) p = bool_decide (p = (L, C)) || passed L C p.
Proof.
  destruct p as [l c]. unfold passed. cbn [fst snd].
  case_bool_decide as Heq; [simplify_eq|].
  - rewrite Z.eqb_refl. destruct (Z.ltb_spec (C - 1) C); [|lia]. simpl. apply orb_true_r.
  - simpl. destruct (Z.ltb_spec L l), (Z.eqb_spec L l), (Z.ltb_spec (C - 1) c),
      (Z.ltb_spec C c); simpl; try done.
    all: exfalso; lia || (apply Heq; f_equal; lia).
Qed.

Lemma passed_self L C : passed L C (L, C) = false.
Proof.
  unfold passed. cbn [fst snd]. rewrite Z.eqb_refl, !Z.ltb_irrefl. done.
Qed.

Section cursors.
Context (s : kv_state).
Hypothesis Hl : ladder_ok s.
Let cb := s.(pln).(chunk_bound).
Let N := s.(num_chunks_per_tensor).
Let nl := s.(num_layers).

Lemma ladder_bounds i : 0 <= i < nl → 0 <= cb i <= N.
Proof. apply (po_bound _ _ _ (lo_plan _ Hl)). Qed.

Lemma ladder_ccur : ccur_ok nl cb s.(cur).(cur_layer_idx_to_compress)
                      s.(cur).(cur_chunk_idx_to_compress).
Proof. split; [apply Hl|]. split; apply Hl. Qed.

Lemma ladder_scur : scur_ok nl N cb s.(cur).(cur_layer_idx_to_store)
                      s.(cur).(cur_chunk_idx_to_store).
Proof. split; [apply Hl|]. split; apply Hl. Qed.

Lemma comp_rem_crem : comp_rem s = crem cb s.(cur).(cur_layer_idx_to_compress)
                                     s.(cur).(cur_chunk_idx_to_compress).
Proof. done. Qed.
Lemma store_rem_srem : store_rem s = srem cb N s.(cur).(cur_layer_idx_to_store)
                                       s.(cur).(cur_chunk_idx_to_store).
Proof. done. Qed.

Lemma comp_rem_nonneg : 0 <= comp_rem s.
Proof.
  destruct ladder_ccur as (? & ? & ?). unfold comp_rem. fold cb.
  assert (0 <= sum_to cb (Z.to_nat s.(cur).(cur_layer_idx_to_compress))); [|lia].
  apply sum_to_nonneg. intros i Hi. pose proof (ladder_bounds i). lia.
Qed.

Lemma store_rem_nonneg : 0 <= store_rem s.
Proof.
  destruct ladder_scur as (? & ? & ?). unfold store_rem. fold cb N. bool_case; [lia|].
  assert (0 <= sum_to (λ i, N - cb i) (Z.to_nat s.(cur).(cur_layer_idx_to_store))); [|lia].
  apply sum_to_nonneg. intros i Hi. pose proof (ladder_bounds i). lia.
Qed.

(** The guard moves the compress cursor over exhausted layers only. *)
Lemma ladder_comp_guard L C :
  ccur_ok nl cb L C → crem cb L C = comp_rem s →
  (∀ p : pos, 0 <= p.1 < nl → 0 <= p.2 < cb p.1 →
     passed L C p = passed s.(cur).(cur_layer_idx_to_compress)
                      s.(cur).(cur_chunk_idx_to_compress) p) →
  ladder_ok (set_cur s (Cursors L C s.(cur).(cur_layer_idx_to_store)
                                    s.(cur).(cur_chunk_idx_to_store))).
Proof.
  intros (H1 & H2 & H3) Hrem Hp. destruct Hl. split; try done.
  - intros p Hin. rewrite lo_states by done. rewrite !expected_state_passed. cbn. fold cb.
    destruct (Z.ltb_spec p.2 (cb p.1)) as [Hlt|Hge]; [|done].
    rewrite Hp; [done|apply Hin|]. destruct Hin as [_ Hin]. lia.
  - cbn. rewrite lo_ncomp. unfold comp_rem at 2. cbn. unfold crem, cb in Hrem. lia.
Qed.

Lemma ladder_store_guard L C d :
  scur_ok nl N cb L C → srem cb N L C = store_rem s →
  (∀ p : pos, 0 <= p.1 < nl → cb p.1 <= p.2 < N →
     passed L C p = passed s.(cur).(cur_layer_idx_to_store)
                      s.(cur).(cur_chunk_idx_to_store) p) →
  ladder_ok (set_dsk (set_cur s (Cursors s.(cur).(cur_layer_idx_to_compress)
                                    s.(cur).(cur_chunk_idx_to_compress) L C)) d).
Proof.
  intros (H1 & H2 & H3) Hrem Hp. destruct Hl. split; try done.
  - intros p Hin. cbn. rewrite lo_states by done. rewrite !expected_state_passed. cbn. fold cb.
    destruct (Z.ltb_spec p.2 (cb p.1)) as [Hlt|Hge]; [done|].
    rewrite Hp; [done|apply Hin|]. destruct Hin as [_ Hin]. cbn in Hin. fold N in Hin. lia.
  - cbn. rewrite lo_nstore. unfold store_rem at 2. cbn. unfold srem, cb, N in Hrem. lia.
Qed.

(** The chunk under a cursor that has something left is raw. *)
Lemma ladder_comp_raw :
  let L := s.(cur).(cur_layer_idx_to_compress) in
  let C := s.(cur).(cur_chunk_idx_to_compress) in
  0 <= L → 0 <= C → in_range s (L, C) ∧ s.(tab).(states) (L, C) = Raw ∧ C < cb L.
Proof.
  cbv zeta. intros HL HC. destruct ladder_ccur as (H1 & H2 & H3).
  rewrite (proj2 (Z.ltb_ge _ _) HL) in H3.
  pose proof (ladder_bounds _ (conj HL (proj2 H1))).
  assert (Hin : in_range s (s.(cur).(cur_layer_idx_to_compress),
                            s.(cur).(cur_chunk_idx_to_compress))).
  { unfold in_range. cbn [fst snd]. unfold N, nl in *. lia. }
  split; [done|]. split; [|done]. rewrite (lo_states _ Hl) by done.
  rewrite expected_state_passed. cbn [fst snd]. fold cb.
  rewrite (proj2 (Z.ltb_lt _ _) H3), passed_self. done.
Qed.

Lemma ladder_store_raw :
  let L := s.(cur).(cur_layer_idx_to_store) in
  let C := s.(cur).(cur_chunk_idx_to_store) in
  0 <= L → cb L <= C → in_range s (L, C) ∧ s.(tab).(states) (L, C) = Raw ∧
  (∀ q, in_range s q → q.1 = L → s.(tab).(states) q = Stored → C < q.2).
Proof.
  cbv zeta. intros HL HC. destruct ladder_scur as (H1 & H2 & H3).
  pose proof (ladder_bounds _ (conj HL (proj2 H1))).
  assert (Hin : in_range s (s.(cur).(cur_layer_idx_to_store),
                            s.(cur).(cur_chunk_idx_to_store))).
  { unfold in_range. cbn [fst snd]. unfold N, nl in *. lia. }
  split; [done|]. split.
  - rewrite (lo_states _ Hl) by done. rewrite expected_state_passed. cbn [fst snd]. fold cb.
    rewrite (proj2 (Z.ltb_ge _ _) HC), passed_self. done.
  - intros q Hq Heq. rewrite (lo_states _ Hl), expected_state_passed by done.
    unfold passed. rewrite Heq, Z.ltb_irrefl, Z.eqb_refl. cbn [orb andb]. fold cb.
    repeat case_match; propify; done.
Qed.

(** Taking one chunk off a cursor keeps the ladder. *)
Lemma ladder_compressed s' :
  let L := s.(cur).(cur_layer_idx_to_compress) in
  let C := s.(cur).(cur_chunk_idx_to_compress) in
  0 <= L → 0 <= C → same_cfg s s' →
  s'.(tab).(states) = <[(L, C) := Compressed]> s.(tab).(states) →
  s'.(cur) = Cursors L (C - 1) s.(cur).(cur_layer_idx_to_store) s.(cur).(cur_chunk_idx_to_store) →
  s'.(cnt).(n_cur_comp_chunks) = s.(cnt).(n_cur_comp_chunks) + 1 →
  s'.(cnt).(n_cur_store_chunks) = s.(cnt).(n_cur_store_chunks) →
  ladder_ok s' ∧ comp_rem s' = comp_rem s - 1.
Proof.
  cbv zeta. intros HL HC (c1 & c2 & c3 & c4 & c5 & c6 & c7) Hst Hcur Hn1 Hn2.
  destruct (ladder_comp_raw HL HC) as (Hin & Hraw & Hlt).
  assert (Hrem : comp_rem s' = comp_rem s - 1).
  { unfold comp_rem. rewrite Hcur, c7. cbn. lia. }
  split; [|done]. destruct ladder_ccur as (HcL & HcC & HcC'). destruct Hl.
  split; rewrite ?c1, ?c3, ?c7, ?Hcur; cbn [cur_layer_idx_to_compress
    cur_chunk_idx_to_compress cur_layer_idx_to_store cur_chunk_idx_to_store]; try done; try lia.
  - intros p Hp. unfold in_range in Hp. rewrite c1, c3 in Hp.
    rewrite Hst, expected_state_passed. cbn. rewrite passed_step. fold cb.
    destruct (decide (p = (s.(cur).(cur_layer_idx_to_compress),
                           s.(cur).(cur_chunk_idx_to_compress)))) as [->|Hne].
    + rewrite fn_lookup_insert, bool_decide_eq_true_2 by done. cbn [fst snd].
      by rewrite (proj2 (Z.ltb_lt _ _) Hlt).
    + rewrite fn_lookup_insert_ne, bool_decide_eq_false_2 by done.
      rewrite lo_states by done. apply expected_state_passed.
  - rewrite Hn2, lo_nstore. unfold store_rem. rewrite Hcur, c3, c7. done.
Qed.

Lemma ladder_stored s' :
  let L := s.(cur).(cur_layer_idx_to_store) in
  let C := s.(cur).(cur_chunk_idx_to_store) in
  0 <= L → cb L <= C → same_cfg s s' →
  s'.(tab).(states) = <[(L, C) := Stored]> s.(tab).(states) →
  s'.(cur) = Cursors s.(cur).(cur_layer_idx_to_compress) s.(cur).(cur_chunk_idx_to_compress)
               L (C - 1) →
  s'.(cnt).(n_cur_comp_chunks) = s.(cnt).(n_cur_comp_chunks) →
  s'.(cnt).(n_cur_store_chunks) = s.(cnt).(n_cur_store_chunks) + 1 →
  ladder_ok s' ∧ store_rem s' = store_rem s - 1.
Proof.
  cbv zeta. intros HL HC (c1 & c2 & c3 & c4 & c5 & c6 & c7) Hst Hcur Hn1 Hn2.
  destruct (ladder_store_raw HL HC) as (Hin & Hraw & _).
  assert (Hrem : store_rem s' = store_rem s - 1).
  { unfold store_rem. rewrite Hcur, c3, c7. cbn. rewrite (proj2 (Z.ltb_ge _ _) HL). lia. }
  split; [|done]. destruct ladder_scur as (HsL & HsC & HsC'). destruct Hl.
  split; rewrite ?c1, ?c3, ?c7, ?Hcur; cbn [cur_layer_idx_to_compress
    cur_chunk_idx_to_compress cur_layer_idx_to_store cur_chunk_idx_to_store]; try done;
    try (fold cb N; lia).
  - intros p Hp. unfold in_range in Hp. rewrite c1, c3 in Hp.
    rewrite Hst, expected_state_passed. cbn. rewrite passed_step. fold cb.
    destruct (decide (p = (s.(cur).(cur_layer_idx_to_store),
                           s.(cur).(cur_chunk_idx_to_store)))) as [->|Hne].
    + rewrite fn_lookup_insert, bool_decide_eq_true_2 by done. cbn [fst snd].
      by rewrite (proj2 (Z.ltb_ge _ _) HC).
    + rewrite fn_lookup_insert_ne, bool_decide_eq_false_2 by done.
      rewrite lo_states by done. apply expected_state_passed.
  - rewrite Hn1, lo_ncomp. unfold comp_rem. rewrite Hcur, c7. done.
Qed.
End cursors.

(** ** The loops *)
Section loops.
Context `{Cd : Codec} `{Ev : Env} {CL : CodecLaws Cd}.

(** Content after one compression: each of K and V goes through the codec. *)
Definition lossy_view (h : Z) (v : option (list byte * list byte)) :=
  (λ '(k, v), (lossy h k, lossy h v)) <$> v.

Lemma mem_ok_set_cur s c : mem_ok s → mem_ok (set_cur s c).
Proof. intros []. by split. Qed.

(** Opening or closing files keeps every chunk. *)
Lemma mem_ok_set_dsk s d :
  (∀ L f, s.(dsk).(kv_file) L = Some f → d.(kv_file) L = Some f) →
  (∀ L, d.(layer_fds) L = FdClosed ∨ (d.(layer_fds) L = FdWrite ∧ is_Some (d.(kv_file) L))) →
  mem_ok s → mem_ok (set_dsk s d) ∧ ∀ q, in_range s q → view (set_dsk s d) q = view s q.
Proof.
  intros Hf Hfd Hok.
  assert (Hc : ∀ q, in_range s q → chunk_ok (set_dsk s d) q ∧ view (set_dsk s d) q = view s q).
  { intros q Hq. pose proof (mo_chunks _ Hok q Hq) as Hc. unfold chunk_ok, view in *.
    cbn [tab set_dsk mem dsk]. destruct (states (tab s) q); try done.
    destruct Hc as (Hk & Hv & f & Hfq & Hrest). rewrite (Hf _ _ Hfq), Hfq. split; [|done].
    split; [done|]. split; [done|]. by exists f. }
  split; [|intros q Hq; by apply Hc]. destruct Hok. split; try done.
  intros q Hq. by apply Hc.
Qed.

(** Progress of the compress loop from [s0] to [s]. *)
Record comp_progress (s0 s : kv_state) : Prop := CompProgress {
  cp_cfg : same_cfg s0 s;
  cp_rest : same_rest s0 s;
  cp_dsk : s.(dsk) = s0.(dsk);
  cp_store : s.(cur).(cur_layer_idx_to_store) = s0.(cur).(cur_layer_idx_to_store) ∧
             s.(cur).(cur_chunk_idx_to_store) = s0.(cur).(cur_chunk_idx_to_store) ∧
             s.(cnt).(n_cur_store_chunks) = s0.(cnt).(n_cur_store_chunks);
  cp_view : ∀ q, in_range s0 q →
    (s.(tab).(states) q = s0.(tab).(states) q ∧ view s q = view s0 q) ∨
    (s0.(tab).(states) q = Raw ∧ s.(tab).(states) q = Compressed ∧
     q.2 < s0.(pln).(chunk_bound) q.1 ∧ is_Some (view s0 q) ∧
     view s q = lossy_view s0.(kv_hidden_dim) (view s0 q)) }.

Lemma comp_progress_refl s : comp_progress s s.
Proof. split; try done. intros q _. by left. Qed.

Lemma comp_progress_step s0 s s' kd vd :
  let L := s.(cur).(cur_layer_idx_to_compress) in
  let C := s.(cur).(cur_chunk_idx_to_compress) in
  ladder_ok s → mem_ok s → 0 <= L → 0 <= C → comp_progress s0 s →
  view s (L, C) = Some (kd, vd) → compressed_step s s' L C kd vd → comp_progress s0 s'.
Proof.
  cbv zeta. intros Hl Hok HL HC Hp Hv Hs. destruct Hp as [Hc Ho Hd (Hs1 & Hs2 & Hs3) Hview].
  destruct (ladder_comp_raw s Hl HL HC) as (Hin & Hraw & Hlt).
  pose proof (ct_retired _ _ _ _ _ _ Hs) as Hr. destruct Hc as (c1 & c2 & c3 & Hc).
  split.
  - apply (same_cfg_trans s0 s s'); [done|apply Hr].
  - apply (same_rest_trans s0 s s'); [done|apply Hr].
  - by rewrite (ct_dsk _ _ _ _ _ _ Hs).
  - rewrite (ct_cur _ _ _ _ _ _ Hs), (ct_nstore _ _ _ _ _ _ Hs). done.
  - intros q Hq. assert (Hq' : in_range s q) by (unfold in_range in *; by rewrite c1, c3).
    rewrite (ct_states _ _ _ _ _ _ Hs).
    destruct (decide (q = (s.(cur).(cur_layer_idx_to_compress),
                           s.(cur).(cur_chunk_idx_to_compress)))) as [->|Hne].
    + right. rewrite fn_lookup_insert.
      destruct (Hview _ Hq) as [[Hst Hvq]|(_ & Hst & _)]; [|congruence].
      rewrite (compressed_view s s' _ _ kd vd Hs). rewrite <- Hvq, Hv, <- Hst, c2. cbn.
      destruct Hc as (_ & _ & _ & <-). eauto 10.
    + rewrite fn_lookup_insert_ne by done.
      rewrite (retired_view s s' _ q Hok Hin Hraw Hr Hq' Hne). by apply Hview.
Qed.

Lemma compress_iter_spec s0 s :
  ladder_ok s ∧ mem_ok s ∧ comp_progress s0 s →
  ∃ r, compress_iter s = Ok r ∧
     match r with
     | Next s' => (ladder_ok s' ∧ mem_ok s' ∧ comp_progress s0 s') ∧
         comp_rem s' = comp_rem s - 1 ∧ s'.(cnt).(n_cur_comp_chunks) = s.(cnt).(n_cur_comp_chunks) + 1 ∧
         0 <= s'.(cur).(cur_layer_idx_to_compress)
     | Break s' => (ladder_ok s' ∧ mem_ok s' ∧ comp_progress s0 s') ∧
         comp_rem s = 0 ∧ comp_rem s' = 0 ∧ s'.(cnt).(n_cur_comp_chunks) = s.(cnt).(n_cur_comp_chunks)
     end.
Proof.
  intros (Hl & Hok & Hp). unfold compress_iter.
  destruct (comp_guard_spec _ _ _ _ _ _ (ladder_bounds s Hl) (ladder_ccur s Hl) (le_n _))
    as (L & C & -> & Hcc & HC0 & Hrem & Hpass).
  cbv zeta. set (s1 := set_cur s _).
  assert (Hl1 : ladder_ok s1) by (by apply ladder_comp_guard).
  assert (Hok1 : mem_ok s1) by (by apply mem_ok_set_cur).
  assert (Hrem1 : comp_rem s1 = comp_rem s) by done.
  assert (Hp1 : comp_progress s0 s1) by (by destruct Hp).
  destruct (Z.ltb_spec L 0) as [Hneg|HL].
  - eexists. split; [reflexivity|]. cbn iota. split; [done|]. rewrite <- Hrem1.
    destruct Hcc as (? & ? & Hcc). rewrite (proj2 (Z.ltb_lt _ _) Hneg) in Hcc.
    assert (comp_rem s1 = 0); [|done]. unfold comp_rem, s1. cbn.
    replace (Z.to_nat L) with 0%nat by lia. cbn. lia.
  - destruct (ladder_comp_raw s1 Hl1 HL (HC0 HL)) as (Hin & Hraw & Hlt).
    destruct (compress_at_step s1 L C Hok1 Hin Hraw) as (s2 & kd & vd & Heq & Hv & Hkl & Hvl & Hs).
    rewrite Heq. cbn [obind]. eexists. split; [reflexivity|]. cbn iota.
    pose proof (ct_retired _ _ _ _ _ _ Hs) as Hr.
    assert (ladder_ok s2 ∧ comp_rem s2 = comp_rem s1 - 1) as [Hl2 Hrem2].
    { apply ladder_compressed; try first [exact (HC0 HL) | apply Hr | apply Hs | done]. }
    split; [|split; [lia|split; [apply Hs|by rewrite (ct_cur _ _ _ _ _ _ Hs)]]]. split; [done|]. split.
    + by apply (compressed_mem_ok s1 s2 L C kd vd).
    + apply (comp_progress_step s0 s1 s2 kd vd); try done. exact (HC0 HL).
Qed.

Lemma compress_chunks_tidy n s :
  0 <= n <= comp_rem s → ladder_ok s → mem_ok s → tidy s →
  ∃ s', mzcache_compress_chunks n s = Ok s' ∧ tidy s'.
Proof.
  intros Hn Hl Hok Ht.
  destruct (for_loop_while (λ x, (ladder_ok x ∧ mem_ok x ∧ comp_progress s x) ∧ tidy x) comp_rem
              compress_iter (Z.to_nat n) s) as (s' & Hrun & (_ & Ht') & _); try done.
  - intros x [Hx Htx] Hrem. destruct (compress_iter_spec s x Hx) as (r & Hi & Hr).
    destruct r as [y|y]; [|lia]. destruct Hr as (Hy & Hry & _ & H1).
    exists y. split; [done|]. split; [|done]. split; [done|].
    destruct Hx as (_ & _ & Hpx). destruct Hy as (_ & _ & Hpy).
    destruct (cp_store _ _ Hpx) as (E1 & _). destruct (cp_store _ _ Hpy) as (E2 & _).
    destruct (cp_cfg _ _ Hpx) as (A1 & _ & A2 & _ & _ & _ & A3).
    destruct (cp_cfg _ _ Hpy) as (B1 & _ & B2 & _ & _ & _ & B3).
    destruct Htx as [_ T1 T2]. split; [done|congruence|]. rewrite B1, B2, B3, E2, <- E1.
    by rewrite <- A1, <- A2, <- A3.
  - lia.
  - split; [|done]. split; [done|]. split; [done|]. apply comp_progress_refl.
  - by exists s'.
Qed.

Lemma compress_chunks_run (n : Z) (s : kv_state) :
  0 <= n → ladder_ok s → mem_ok s →
  ∃ s', mzcache_compress_chunks n s = Ok s' ∧ ladder_ok s' ∧ mem_ok s' ∧
    s'.(cnt).(n_cur_comp_chunks) = s.(cnt).(n_cur_comp_chunks) + Z.min n (comp_rem s) ∧
    comp_rem s' = comp_rem s - Z.min n (comp_rem s) ∧ comp_progress s s'.
Proof.
  intros Hn Hl Hok.
  destruct (for_loop_count (λ x, ladder_ok x ∧ mem_ok x ∧ comp_progress s x) comp_rem
              (λ x, x.(cnt).(n_cur_comp_chunks)) compress_iter (Z.to_nat n) s)
    as (s' & Hrun & (Hl' & Hok' & Hp') & Hc & Hr).
  - intros x (Hx & _). by apply comp_rem_nonneg.
  - intros x Hx. destruct (compress_iter_spec s x Hx) as ([y|y] & Hi & Hy); eexists; (split; [exact Hi|]);
      [|exact Hy]. destruct Hy as (? & ? & ? & _). done.
  - split; [done|]. split; [done|]. apply comp_progress_refl.
  - rewrite Z2Nat.id in * by lia. exists s'. done.
Qed.

(** C7: On any ladder state, [mzcache_compress_chunks(n)] never has undefined
    behaviour, compresses exactly [min n (chunks left)] chunks, keeps the cursor,
    plan, accounting and memory invariants, touches neither files nor the store
    cursor, and changes the content of exactly the chunks it compresses, to what
    one codec round trip makes of it. *)
Theorem mzcache_compress_chunks_spec (n : Z) (s : kv_state) :
  0 <= n → ladder_ok s → mem_ok s →
  ∃ s', mzcache_compress_chunks n s = Ok s' ∧ ladder_ok s' ∧ mem_ok s' ∧
    s'.(cnt).(n_cur_comp_chunks) = s.(cnt).(n_cur_comp_chunks) + Z.min n (comp_rem s) ∧
    comp_rem s' = comp_rem s - Z.min n (comp_rem s) ∧ comp_progress s s'.
Proof. apply compress_chunks_run. Qed.

(** Progress of the store loop: content never changes. *)
Record store_progress (s0 s : kv_state) : Prop := StoreProgress {
  sp_cfg : same_cfg s0 s;
  sp_rest : same_rest s0 s;
  sp_out : ∀ i, ¬ (0 <= i < s0.(num_layers)) →
    s.(dsk).(layer_fds) i = s0.(dsk).(layer_fds) i ∨ s.(dsk).(layer_fds) i = FdClosed;
  sp_comp : s.(cur).(cur_layer_idx_to_compress) = s0.(cur).(cur_layer_idx_to_compress) ∧
            s.(cur).(cur_chunk_idx_to_compress) = s0.(cur).(cur_chunk_idx_to_compress) ∧
            s.(cnt).(n_cur_comp_chunks) = s0.(cnt).(n_cur_comp_chunks);
  sp_view : ∀ q, in_range s0 q → view s q = view s0 q ∧
    (s.(tab).(states) q = s0.(tab).(states) q ∨
     (s0.(tab).(states) q = Raw ∧ s.(tab).(states) q = Stored ∧
      s0.(pln).(chunk_bound) q.1 <= q.2 ∧ is_Some (view s0 q))) }.

Lemma store_progress_refl s : store_progress s s.
Proof. split; try done; [by left|]. intros q _. split; [done|by left]. Qed.

Lemma store_progress_step s0 s s' kd vd :
  let L := s.(cur).(cur_layer_idx_to_store) in
  let C := s.(cur).(cur_chunk_idx_to_store) in
  ladder_ok s → mem_ok s → 0 <= L → s.(pln).(chunk_bound) L <= C → store_progress s0 s →
  view s (L, C) = Some (kd, vd) → stored_step s s' L C kd vd → store_progress s0 s'.
Proof.
  cbv zeta. intros Hl Hok HL HC Hp Hv Hs. destruct Hp as [Hc Ho Hout (Hs1 & Hs2 & Hs3) Hview].
  destruct (ladder_store_raw s Hl HL HC) as (Hin & Hraw & _).
  pose proof (st_retired _ _ _ _ _ _ Hs) as Hr. destruct Hc as (c1 & c2 & c3 & Hc).
  split.
  - apply (same_cfg_trans s0 s s'); [done|apply Hr].
  - apply (same_rest_trans s0 s s'); [done|apply Hr].
  - rewrite (rt_fds _ _ _ Hr). exact Hout.
  - rewrite (st_cur _ _ _ _ _ _ Hs), (st_ncomp _ _ _ _ _ _ Hs). done.
  - intros q Hq. assert (Hq' : in_range s q) by (unfold in_range in *; by rewrite c1, c3).
    rewrite (st_states _ _ _ _ _ _ Hs).
    destruct (decide (q = (s.(cur).(cur_layer_idx_to_store),
                           s.(cur).(cur_chunk_idx_to_store)))) as [->|Hne].
    + rewrite fn_lookup_insert, (stored_view s s' _ _ kd vd Hs).
      destruct (Hview _ Hq) as [Hvq [Hst|(_ & Hst & _)]]; [|congruence].
      rewrite <- Hvq, Hv, <- Hst. split; [done|right].
      destruct Hc as (_ & _ & _ & <-). eauto 10.
    + rewrite fn_lookup_insert_ne by done.
      rewrite (retired_view s s' _ q Hok Hin Hraw Hr Hq' Hne). by apply Hview.
Qed.

(** Opening the layer's file keeps the memory invariant and every content. *)
Lemma open_store_spec s L : mem_ok s → open_ok L = true →
  ∃ d f, open_store L s.(dsk) = Some d ∧ d.(kv_file) L = Some f ∧ d.(layer_fds) L = FdWrite ∧
    d.(swap_file) = s.(dsk).(swap_file) ∧ (∀ i, i ≠ L → d.(layer_fds) i = s.(dsk).(layer_fds) i) ∧
    (∀ i g, s.(dsk).(kv_file) i = Some g → d.(kv_file) i = Some g) ∧
    (∀ i, d.(layer_fds) i = FdClosed ∨ (d.(layer_fds) i = FdWrite ∧ is_Some (d.(kv_file) i))).
Proof.
  intros Hok Ho. unfold open_store.
  destruct (mo_fds _ Hok L) as [E|[E [f Hf]]]; rewrite E.
  - rewrite Ho. eexists _, (default [] (kv_file (dsk s) L)). split; [reflexivity|]. cbn.
    rewrite !fn_lookup_insert. do 3 (split; [done|]).
    split; [intros i Hi; by rewrite fn_lookup_insert_ne|]. split.
    + intros i g Hg. destruct (decide (L = i)) as [->|Hne];
        [rewrite fn_lookup_insert, Hg | rewrite fn_lookup_insert_ne by done]; done.
    + intros i. destruct (decide (L = i)) as [->|Hne]; [rewrite !fn_lookup_insert; eauto|].
      rewrite !fn_lookup_insert_ne by done. apply (mo_fds _ Hok).
  - exists (dsk s), f. do 6 (split; [done|]). apply (mo_fds _ Hok).
Qed.

(** [mo_fds] after the guard closed some files. *)
Lemma guard_fds s d : mem_ok s → d.(kv_file) = s.(dsk).(kv_file) →
  (∀ i, d.(layer_fds) i = s.(dsk).(layer_fds) i ∨ d.(layer_fds) i = FdClosed) →
  mem_ok (set_dsk s d) ∧ ∀ q, in_range s q → view (set_dsk s d) q = view s q.
Proof.
  intros Hok Hf Hfd. apply mem_ok_set_dsk; [by rewrite Hf| |done].
  intros L. rewrite Hf. destruct (Hfd L) as [->| ->]; [apply (mo_fds _ Hok)|by left].
Qed.

Lemma store_progress_dsk s0 s d :
  (∀ q, in_range s q → view (set_dsk s d) q = view s q) → d.(swap_file) = s.(dsk).(swap_file) →
  (∀ i, ¬ (0 <= i < s.(num_layers)) →
     d.(layer_fds) i = s.(dsk).(layer_fds) i ∨ d.(layer_fds) i = FdClosed) →
  store_progress s0 s → store_progress s0 (set_dsk s d).
Proof.
  intros Hv Hsw Hfd [Hc (o1 & o2 & o3 & o4 & o5 & o6) Hout Hs Hview].
  pose proof Hc as (c1 & c2 & c3 & _). split; try done.
  { unfold same_rest. cbn. by rewrite Hsw. }
  { intros i Hi. cbn. destruct (Hfd i) as [->| ->]; [by rewrite c1|by apply Hout|by right]. }
  intros q Hq. rewrite Hv by (unfold in_range in *; by rewrite c1, c3). by apply Hview.
Qed.

Section all_ok.
Hypothesis Hopen : ∀ L, open_ok L = true.
Hypothesis Hpwrite : ∀ p, pwrite_ok p = true.

Lemma ladder_set_dsk s d : ladder_ok s → ladder_ok (set_dsk s d).
Proof. intros []. by split. Qed.

(** One store iteration, the cursor standing on a chunk of its region. *)
Lemma store_one s0 s :
  let L := s.(cur).(cur_layer_idx_to_store) in
  let C := s.(cur).(cur_chunk_idx_to_store) in
  ladder_ok s → mem_ok s → store_progress s0 s → 0 <= L → s.(pln).(chunk_bound) L <= C →
  ∃ d s', open_store L s.(dsk) = Some d ∧ store_at (set_dsk s d) (L, C) = Ok s' ∧
    ladder_ok s' ∧ mem_ok s' ∧ store_progress s0 s' ∧ store_rem s' = store_rem s - 1 ∧
    s'.(cnt).(n_cur_store_chunks) = s.(cnt).(n_cur_store_chunks) + 1 ∧
    0 <= s'.(cur).(cur_layer_idx_to_store) ∧
    s'.(pln).(chunk_bound) s'.(cur).(cur_layer_idx_to_store) < s'.(num_chunks_per_tensor).
Proof.
  intros L C Hl Hok Hp HL HC.
  destruct (open_store_spec s L Hok (Hopen L)) as (d & f & Ho & Hf & Hfd & Hsw & Hoth & Hg & Hfds).
  destruct (mem_ok_set_dsk s d Hg Hfds Hok) as [Hok1 Hv1].
  pose proof (ladder_set_dsk s d Hl) as Hl1.
  assert (Hp1 : store_progress s0 (set_dsk s d)).
  { apply store_progress_dsk; [done|done| |done]. intros i Hi. left. apply Hoth.
    intros ->. apply Hi. destruct (ladder_scur s Hl) as [? _]. unfold L in *. lia. }
  destruct (ladder_store_raw _ Hl1 HL HC) as (Hin & Hraw & Hpos).
  destruct (store_at_step (set_dsk s d) L C f Hok1 Hin Hraw HC Hf Hfd (Hpwrite _) Hpos)
    as (s' & kd & vd & Heq & Hv & Hs).
  pose proof (st_retired _ _ _ _ _ _ Hs) as Hr.
  assert (ladder_ok s' ∧ store_rem s' = store_rem (set_dsk s d) - 1) as [Hl2 Hrem2].
  { apply ladder_stored; try first [done | apply Hr | apply Hs]. }
  destruct (rt_cfg _ _ _ Hr) as (_ & _ & HN & _ & _ & _ & Hpl).
  exists d, s'. split; [done|]. split; [done|]. split; [done|].
  split; [|split; [|split; [done|split; [apply Hs|]]]].
  - by apply (stored_mem_ok (set_dsk s d) s' L C kd vd).
  - by apply (store_progress_step s0 (set_dsk s d) s' kd vd).
  - rewrite (st_cur _ _ _ _ _ _ Hs), HN, Hpl. cbn. split; [done|]. destruct (ladder_scur s Hl). lia.
Qed.

Lemma store_iter_spec s0 s :
  ladder_ok s ∧ mem_ok s ∧ store_progress s0 s →
  ∃ r, store_iter s = Ok r ∧
     match r with
     | Next s' => (ladder_ok s' ∧ mem_ok s' ∧ store_progress s0 s') ∧
         store_rem s' = store_rem s - 1 ∧
         s'.(cnt).(n_cur_store_chunks) = s.(cnt).(n_cur_store_chunks) + 1 ∧
         0 <= s'.(cur).(cur_layer_idx_to_store) ∧
         s'.(pln).(chunk_bound) s'.(cur).(cur_layer_idx_to_store) < s'.(num_chunks_per_tensor)
     | Break s' => (ladder_ok s' ∧ mem_ok s' ∧ store_progress s0 s') ∧
         store_rem s = 0 ∧ store_rem s' = 0 ∧
         s'.(cnt).(n_cur_store_chunks) = s.(cnt).(n_cur_store_chunks)
     end.
Proof.
  intros (Hl & Hok & Hp). unfold store_iter.
  destruct (store_guard_spec _ _ _ _ _ _ s.(dsk) (ladder_bounds s Hl)
              (proj1 (lo_N _ Hl)) (ladder_scur s Hl) (le_n _))
    as (L & C & d & -> & Hcc & HC0 & Hrem & Hpass & Hf & Hsw & Hfd).
  cbv zeta. set (s1 := set_dsk _ d).
  assert (Hl1 : ladder_ok s1) by (by apply ladder_store_guard).
  destruct (guard_fds (set_cur s (Cursors s.(cur).(cur_layer_idx_to_compress)
    s.(cur).(cur_chunk_idx_to_compress) L C)) d (mem_ok_set_cur _ _ Hok) Hf Hfd) as [Hok1 Hv1].
  fold s1 in Hok1, Hv1.
  assert (Hp1 : store_progress s0 s1).
  { apply (store_progress_dsk s0 (set_cur s _) d); [exact Hv1|exact Hsw|intros i _; apply Hfd|by destruct Hp]. }
  assert (Hrem1 : store_rem s1 = store_rem s) by exact Hrem.
  destruct (Z.ltb_spec L 0) as [Hneg|HL].
  - eexists. split; [reflexivity|]. cbn iota. split; [done|]. rewrite <- Hrem1.
    assert (store_rem s1 = 0); [|done]. unfold store_rem, s1. cbn.
    by rewrite (proj2 (Z.ltb_lt _ _) Hneg).
  - destruct (store_one s0 s1 Hl1 Hok1 Hp1 HL (HC0 HL))
      as (d' & s2 & Ho & Hst & Hl2 & Hok2 & Hp2 & Hr2 & Hn2 & Ht1 & Ht2).
    cbn [cur set_dsk cur_layer_idx_to_store s1 set_cur cur_chunk_idx_to_store] in Ho, Hst.
    rewrite Ho, Hst. cbn [obind]. eexists. split; [reflexivity|]. cbn iota.
    split; [done|]. split; [lia|done].
Qed.

(** Asking for no more than is left keeps the cursors inside the cache. *)
Lemma store_chunks_tidy n s :
  0 <= n <= store_rem s → ladder_ok s → mem_ok s → tidy s →
  ∃ s', mzcache_store_chunks n s = Ok s' ∧ tidy s'.
Proof.
  intros Hn Hl Hok Ht.
  destruct (for_loop_while (λ x, (ladder_ok x ∧ mem_ok x ∧ store_progress s x) ∧ tidy x) store_rem
              store_iter (Z.to_nat n) s) as (s' & Hrun & (_ & Ht') & _); try done.
  - intros x [Hx Htx] Hrem. destruct (store_iter_spec s x Hx) as (r & Hi & Hr).
    destruct r as [y|y]; [|lia]. destruct Hr as (Hy & Hry & _ & H1 & H2).
    exists y. split; [done|]. split; [|done]. split; [done|].
    destruct Hx as (_ & _ & Hpx). destruct Hy as (_ & _ & Hpy). destruct (sp_comp _ _ Hpx) as (E1 & _).
    destruct (sp_comp _ _ Hpy) as (E2 & _). split; [rewrite E2, <- E1; apply Htx|done|by left].
  - lia.
  - split; [|done]. split; [done|]. split; [done|]. apply store_progress_refl.
  - by exists s'.
Qed.

Lemma store_chunks_run (n : Z) (s : kv_state) :
  0 <= n → ladder_ok s → mem_ok s →
  ∃ s', mzcache_store_chunks n s = Ok s' ∧ ladder_ok s' ∧ mem_ok s' ∧
    s'.(cnt).(n_cur_store_chunks) = s.(cnt).(n_cur_store_chunks) + Z.min n (store_rem s) ∧
    store_rem s' = store_rem s - Z.min n (store_rem s) ∧ store_progress s s'.
Proof.
  intros Hn Hl Hok.
  destruct (for_loop_count (λ x, ladder_ok x ∧ mem_ok x ∧ store_progress s x) store_rem
              (λ x, x.(cnt).(n_cur_store_chunks)) store_iter (Z.to_nat n) s)
    as (s' & Hrun & (Hl' & Hok' & Hp') & Hc & Hr).
  - intros x (Hx & _). by apply store_rem_nonneg.
  - intros x Hx. destruct (store_iter_spec s x Hx) as ([y|y] & Hi & Hy); eexists; (split; [exact Hi|]);
      [|exact Hy]. destruct Hy as (? & ? & ? & _). done.
  - split; [done|]. split; [done|]. apply store_progress_refl.
  - rewrite Z2Nat.id in * by lia. exists s'. done.
Qed.

(** C8: When the files can be opened and written, [mzcache_store_chunks(n)]
    stores exactly [min n (chunks left)] chunks without undefined behaviour,
    keeps the ladder and memory invariants, and the content of every chunk of
    the cache, stored ones included, reads back exactly as before. *)
Theorem mzcache_store_chunks_spec (n : Z) (s : kv_state) :
  0 <= n → ladder_ok s → mem_ok s →
  ∃ s', mzcache_store_chunks n s = Ok s' ∧ ladder_ok s' ∧ mem_ok s' ∧
    s'.(cnt).(n_cur_store_chunks) = s.(cnt).(n_cur_store_chunks) + Z.min n (store_rem s) ∧
    store_rem s' = store_rem s - Z.min n (store_rem s) ∧ store_progress s s'.
Proof. apply store_chunks_run. Qed.
End all_ok.
End loops.
