(* ===== verification/KvGrow.v ===== *)
(** Construction and runtime growth of the KV state:
    [mzcache_kv_state::mzcache_kv_state], [register_grown_chunks] and
    [apply_pending_growth] of [mzcache/src/mzcache_kv_state.cpp]. *)
From S2P Require Import Prelude Floats Profile KvTypes KvPlan KvLadder KvInv KvFrame KvSwapOut.
From S2P Require Import KvSwapOutThms.

(** ** The balance constant *)

(** The hard-coded table of builds without a profile; [None] leaves the member
    uninitialised. *)
Definition legacy_balance (b : backend) (model_name : string) (soc : SocClass) : option Z :=
  match b with
  | FLEXGEN | FLEXGEN_8BIT =>
      if String.eqb model_name "EXAONE-4.0-1.2B" then
        match soc with SM8750 => Some 240 | _ => Some 140 end
      else if String.eqb model_name "Qwen3-0.6B" then
        match soc with SM8750 => Some 57 | _ => Some 36 end
      else None
  | CACHEGEN =>
      if String.eqb model_name "EXAONE-4.0-1.2B" then
        match soc with SM8750 => Some 40 | _ => Some (-1) end
      else if String.eqb model_name "Qwen3-0.6B" then
        match soc with SM8750 => Some 10 | _ => Some (-1) end
      else None
  | NONE => None
  end.

(** [per_layer_balance] as the constructor settles it: the profiled value, the
    table, then a positive MZCACHE_PER_LAYER_BALANCE. *)
Definition initial_balance (b : backend) (model_name : string) (soc : SocClass)
    (profiled : Z) (env : option string) : option Z :=
  let base := if 0 <? profiled then Some profiled else legacy_balance b model_name soc in
  match env with
  | Some e => if 0 <? atoi e then Some (atoi e) else base
  | None => base
  end.

(** ** Registering chunks *)

(** The constructor's and [register_grown_chunks]'s inner loop over the chunks
    of layer [i]; [false] when a pointer is null. *)
Fixpoint register_chunks (todo : nat) (i j : Z) (m : memory) (t : chunks) : chunks * bool :=
  match todo with
  | O => (t, true)
  | S todo =>
      let p := (i, j) in
      match m.(svm_k) p, m.(svm_v) p with
      | Some k, Some v =>
          register_chunks todo i (j + 1) m
            (Chunks (<[p := Raw]> t.(states)) (<[p := Some k]> t.(k_raw)) (<[p := Some v]> t.(v_raw))
               t.(k_comp) t.(v_comp) t.(k_stored) t.(v_stored))
      | _, _ => (t, false)
      end
  end.

Fixpoint register_layers (todo : nat) (i j0 : Z) (n : nat) (m : memory) (t : chunks) : chunks * bool :=
  match todo with
  | O => (t, true)
  | S todo =>
      let '(t', ok) := register_chunks n i j0 m t in
      if ok then register_layers todo (i + 1) j0 n m t' else (t', false)
  end.

Section grow.
Context `{Cd : Codec} `{Ev : Env}.

(** The constructor.  [m] holds the tensors created with the cache, [r] is
    [core->get_decomp_load_ratio()], [t0] the uninitialised chunk table. *)
Definition mzcache_kv_state_ctor (L hidden N balance : Z) (r : float) (m : memory) (t0 : chunks)
    : outcome kv_state :=
  let s := KvState L hidden N balance (round_up_4k (N * comp_bound hidden)) r
    (Plan 0 (λ _, 0) 0 0) (Cursors 0 0 0 0) (Counters 0 0 0 0) t0
    (Memory m.(heap) m.(next_block) m.(svm_k) m.(svm_v) (λ _, []))
    (Disk (λ _, None) (λ _, None) (λ _, FdClosed)) (L - 1) (λ _, []) 0 (λ _, 0) in
  s1 <~ derive_swapout_plan s ;;
  match register_layers (Z.to_nat L) 0 0 (Z.to_nat N) s1.(mem) s1.(tab) with
  | (t, true) => Ok (set_tab s1 t)
  | (_, false) => Throw
  end.

(** No chunk is compressed, stored or offloaded. *)
Definition clean_ladder (s : kv_state) : bool :=
  (s.(cnt).(n_cur_comp_chunks) =? 0) && (s.(cnt).(n_cur_store_chunks) =? 0)
  && (s.(cnt).(n_cur_arena_offload_bytes) =? 0).

Definition register_grown_chunks (n_chunks_total : Z) (s : kv_state) : outcome kv_state :=
  if n_chunks_total <=? s.(num_chunks_per_tensor) then Ok s
  else if MAX_CHUNKS_PER_TENSOR <? n_chunks_total then Ok s
  else if negb (clean_ladder s) then
    Ok (set_pending s (Z.max s.(pending_chunks_total) n_chunks_total))
  else
    let old_count := s.(num_chunks_per_tensor) in
    match register_layers (Z.to_nat s.(num_layers)) 0 old_count
            (Z.to_nat (n_chunks_total - old_count)) s.(mem) s.(tab) with
    | (t, false) => Ok (set_tab s t)
    | (t, true) => derive_swapout_plan (set_num_chunks (set_tab s t) n_chunks_total)
    end.

Definition apply_pending_growth (s : kv_state) : outcome kv_state :=
  if s.(num_chunks_per_tensor) <? s.(pending_chunks_total) then
    let want := s.(pending_chunks_total) in
    register_grown_chunks want (set_pending s 0)
  else Ok (set_pending s 0).
End grow.

(** ** The registration loops *)

(** All entries of the rectangle [i0..) x [j0..) are non-null. *)
Definition nonnull (m : memory) (p : pos) : Prop := is_Some (m.(svm_k) p) ∧ is_Some (m.(svm_v) p).

(** The table after registering the chunks selected by [sel]. *)
Definition registered (m : memory) (t t' : chunks) (sel : pos → bool) : Prop :=
  (∀ p, t'.(states) p = if sel p then Raw else t.(states) p) ∧
  (∀ p, t'.(k_raw) p = if sel p then m.(svm_k) p else t.(k_raw) p) ∧
  (∀ p, t'.(v_raw) p = if sel p then m.(svm_v) p else t.(v_raw) p) ∧
  t'.(k_comp) = t.(k_comp) ∧ t'.(v_comp) = t.(v_comp) ∧
  t'.(k_stored) = t.(k_stored) ∧ t'.(v_stored) = t.(v_stored).

Lemma registered_trans m t1 t2 t3 sel1 sel2 sel :
  registered m t1 t2 sel1 → registered m t2 t3 sel2 →
  (∀ p, sel p = sel1 p || sel2 p) → registered m t1 t3 sel.
Proof.
  intros (A1 & A2 & A3 & A4 & A5 & A6 & A7) (B1 & B2 & B3 & B4 & B5 & B6 & B7) Hsel.
  repeat split; intros; rewrite ?B1, ?A1, ?B2, ?A2, ?B3, ?A3, ?Hsel; try congruence;
    by destruct (sel1 p), (sel2 p).
Qed.

Lemma registered_ext m t t' sel sel' :
  (∀ p, sel p = sel' p) → registered m t t' sel → registered m t t' sel'.
Proof.
  intros Hs (A1 & A2 & A3 & A4). repeat split; intros; rewrite <- ?Hs; auto; apply A4.
Qed.

Lemma register_chunks_spec n i j m t :
  (∀ c, j <= c < j + Z.of_nat n → nonnull m (i, c)) →
  ∃ t', register_chunks n i j m t = (t', true) ∧
    registered m t t' (λ p, (p.1 =? i) && (j <=? p.2) && (p.2 <? j + Z.of_nat n)).
Proof.
  revert j t. induction n as [|n IH]; intros j t Hn; cbn [register_chunks].
  - exists t. split; [done|]. repeat split; intros p;
      destruct (Z.leb_spec j p.2), (Z.ltb_spec p.2 (j + Z.of_nat 0)); try lia;
      by rewrite ?andb_false_r.
  - destruct (Hn j ltac:(lia)) as [[k Hk] [v Hv]]. rewrite Hk, Hv.
    set (t1 := Chunks _ _ _ _ _ _ _).
    destruct (IH (j + 1) t1) as (t' & -> & Hr); [intros; apply Hn; lia|].
    exists t'. split; [done|]. eapply registered_trans; [|exact Hr|].
    + instantiate (1 := λ p, bool_decide (p = (i, j))). repeat split; intros p; subst t1; simpl;
        case_bool_decide as Hp; subst; rewrite ?fn_lookup_insert, ?Hk, ?Hv; try done;
        by rewrite fn_lookup_insert_ne.
    + intros [l c]. cbn [fst snd]. case_bool_decide as Hp; simplify_eq.
      * rewrite Z.eqb_refl. by rewrite (proj2 (Z.leb_le j j)), (proj2 (Z.ltb_lt j _)) by lia.
      * destruct (Z.eqb_spec l i), (Z.leb_spec j c), (Z.leb_spec (j + 1) c),
          (Z.ltb_spec c (j + Z.of_nat (S n))), (Z.ltb_spec c (j + 1 + Z.of_nat n));
          simpl; try done; try lia. all: exfalso; apply Hp; f_equal; lia.
Qed.

Lemma register_layers_spec L i j0 n m t :
  (∀ p : pos, i <= p.1 < i + Z.of_nat L → j0 <= p.2 < j0 + Z.of_nat n → nonnull m p) →
  ∃ t', register_layers L i j0 n m t = (t', true) ∧
    registered m t t' (λ p, (i <=? p.1) && (p.1 <? i + Z.of_nat L)
                            && (j0 <=? p.2) && (p.2 <? j0 + Z.of_nat n)).
Proof.
  revert i t. induction L as [|L IH]; intros i t Hn; cbn [register_layers].
  - exists t. split; [done|]. repeat split; intros p;
      destruct (Z.leb_spec i p.1), (Z.ltb_spec p.1 (i + Z.of_nat 0)); (done || lia).
  - destruct (register_chunks_spec n i j0 m t) as (t1 & -> & H1).
    { intros c Hc. apply Hn; simpl; lia. }
    destruct (IH (i + 1) t1) as (t' & -> & H2).
    { intros p Hp1 Hp2. apply Hn; lia. }
    exists t'. split; [done|]. eapply registered_trans; [exact H1|exact H2|].
    intros [l c]. cbn [fst snd].
    destruct (Z.eqb_spec l i), (Z.leb_spec i l), (Z.leb_spec (i + 1) l),
      (Z.ltb_spec l (i + Z.of_nat (S L))), (Z.ltb_spec l (i + 1 + Z.of_nat L));
      simpl; try lia; try done; by rewrite ?orb_false_r.
Qed.

(** ** Well-formed tensors *)

(** The K and V tensors of all chunks of an [L] x [N] cache: each pair resident,
    no two sharing memory. *)
Record tensors_ok (L N n : Z) (m : memory) : Prop := TensorsOk {
  to_res : ∀ p : pos, 0 <= p.1 < L → 0 <= p.2 < N → resident m.(heap) n (m.(svm_k) p) (m.(svm_v) p);
  to_sep : ∀ (p q : pos) b, 0 <= p.1 < L → 0 <= p.2 < N → 0 <= q.1 < L → 0 <= q.2 < N → p ≠ q →
    uses (m.(svm_k) p) (m.(svm_v) p) b → uses (m.(svm_k) q) (m.(svm_v) q) b → False;
  to_fresh : ∀ b, is_Some (m.(heap) !! b) → (b < m.(next_block))%positive }.

Lemma tensors_nonnull L N n m (p : pos) : tensors_ok L N n m →
  0 <= p.1 < L → 0 <= p.2 < N → nonnull m p.
Proof.
  intros [Hr _ _] H1 H2. unfold nonnull. destruct (Hr p H1 H2) as (bk & bv & dk & _ & -> & Hv).
  split; [eauto|]. destruct Hv as [(_ & -> & _)|(_ & -> & _)]; eauto.
Qed.

Section ctor.
Context `{Cd : Codec} `{Ev : Env}.

(** A ladder on which nothing has been moved yet. *)
Lemma fresh_ladder_ok s :
  0 < s.(num_layers) <= MAX_NUM_LAYERS → 0 < s.(num_chunks_per_tensor) <= MAX_CHUNKS_PER_TENSOR →
  plan_spec s.(num_chunks_per_tensor) s.(num_layers) (s.(per_layer_balance) * s.(num_layers)) s →
  (∀ p, in_range s p → s.(tab).(states) p = Raw) →
  s.(cnt).(n_cur_comp_chunks) = 0 → s.(cnt).(n_cur_store_chunks) = 0 →
  ladder_ok s ∧ comp_rem s = s.(pln).(max_comp_chunks) ∧ store_rem s = s.(pln).(max_store_chunks).
Proof.
  intros HL HN [Hplan Htot Hcomp Hbal Hcur] Hst Hnc Hns.
  set (L := num_layers s) in *. set (N := num_chunks_per_tensor s) in *.
  set (cb := chunk_bound (pln s)) in *.
  pose proof (po_bound _ _ _ Hplan (L - 1) ltac:(lia)) as Hb.
  assert (Hms : max_store_chunks (pln s) = sum_to (λ i, N - cb i) (Z.to_nat L)).
  { rewrite sum_to_minus, sum_to_const, <- Hcomp, Z2Nat.id by lia. lia. }
  assert (Hcr : comp_rem s = max_comp_chunks (pln s)).
  { unfold comp_rem. rewrite Hcur, Hcomp. fold cb. cbn. rewrite (sum_to_pred cb L) by lia. lia. }
  assert (Hsr : store_rem s = max_store_chunks (pln s)).
  { unfold store_rem. rewrite Hcur, Hms. fold cb N. cbn. rewrite (proj2 (Z.ltb_ge _ 0)) by lia.
    rewrite (sum_to_pred (λ i, N - cb i) L) by lia. lia. }
  split; [|done]. split; rewrite ?Hcur; fold L N cb; cbn; try done; try lia.
  - rewrite (proj2 (Z.ltb_ge _ 0)) by lia. lia.
  - intros p Hp. rewrite Hst by done. rewrite expected_state_passed. cbn. fold cb. unfold passed.
    destruct Hp as [Hp1 Hp2]. fold L N in Hp1, Hp2.
    rewrite (proj2 (Z.ltb_ge (L - 1) p.1)) by lia. cbn [orb].
    destruct (Z.eqb_spec (L - 1) p.1) as [Heq|]; cbn [andb]; [|by destruct (_ <? _)].
    destruct (Z.ltb_spec p.2 (cb p.1)).
    + rewrite (proj2 (Z.ltb_ge _ p.2)); [done|]. rewrite <- Heq in *. lia.
    + rewrite (proj2 (Z.ltb_ge _ p.2)); [done|]. lia.
Qed.

(** A cache all of whose chunks are raw and registered from good tensors. *)
Lemma fresh_mem_ok s :
  0 < s.(kv_hidden_dim) → comp_bound s.(kv_hidden_dim) <= s.(arena_bytes) →
  tensors_ok s.(num_layers) s.(num_chunks_per_tensor) (raw_chunk_bytes s) s.(mem) →
  (∀ p, in_range s p → s.(tab).(states) p = Raw ∧ s.(tab).(k_raw) p = s.(mem).(svm_k) p ∧
                       s.(tab).(v_raw) p = s.(mem).(svm_v) p) →
  (∀ L, Forall (arena_ok s.(arena_bytes)) (s.(mem).(arenas) L)) →
  (∀ L, s.(dsk).(layer_fds) L = FdClosed ∨
     (s.(dsk).(layer_fds) L = FdWrite ∧ is_Some (s.(dsk).(kv_file) L))) →
  mem_ok s.
Proof.
  intros Hh Hab [Hr Hs Hf] Ht Har Hfd. split; try done.
  - intros p Hp. destruct (Ht p Hp) as (Hst & Hk & Hv). unfold chunk_ok.
    rewrite Hst, Hk, Hv. split; [done|]. split; [done|]. by apply Hr; apply Hp.
  - intros p q b Hp Hq Hne _ _ Hup Huq. destruct (Ht p Hp) as (_ & Hk & Hv).
    destruct (Ht q Hq) as (_ & Hk' & Hv'). rewrite Hk, Hv in Hup. rewrite Hk', Hv' in Huq.
    eapply Hs; [apply Hp|apply Hp|apply Hq|apply Hq|exact Hne|exact Hup|exact Huq].
Qed.

Lemma in_sel (L N : Z) (p : pos) j0 : 0 <= p.1 < L → j0 <= p.2 < N →
  (0 <=? p.1) && (p.1 <? 0 + Z.of_nat (Z.to_nat L)) && (j0 <=? p.2)
  && (p.2 <? j0 + Z.of_nat (Z.to_nat (N - j0))) = true.
Proof.
  intros. rewrite !andb_true_iff, !Z.leb_le, !Z.ltb_lt, !Z2Nat.id by lia. lia.
Qed.

Lemma ctor_spec (L hidden N balance : Z) (r : float) (m : memory) (t0 : chunks) :
  0 < L <= MAX_NUM_LAYERS → 0 < N <= MAX_CHUNKS_PER_TENSOR → 0 < hidden → 0 <= balance →
  ratio_ok N r = true → 0 <= comp_bound hidden →
  tensors_ok L N (TOKENS_PER_CHUNK * hidden * sizeof_fp16) m →
  ∃ s, mzcache_kv_state_ctor L hidden N balance r m t0 = Ok s ∧ ladder_ok s ∧ mem_ok s ∧
    clean_ladder s = true ∧ comp_rem s = s.(pln).(max_comp_chunks) ∧
    store_rem s = s.(pln).(max_store_chunks) ∧
    (∀ p, in_range s p → s.(tab).(states) p = Raw) ∧ s.(mem).(heap) = m.(heap).
Proof.
  intros HL HN Hh Hb Hr Hcb Hten. unfold mzcache_kv_state_ctor. set (s0 := KvState _ _ _ _ _ _ _ _ _ _ _ _ _ _ _ _).
  destruct (derive_plan_spec s0 (proj1 HN) (proj1 HL) Hb Hr) as (pl & c & _ & _ & -> & Hps & _).
  cbn [obind]. set (s1 := set_cur _ _) in *.
  destruct (register_layers_spec (Z.to_nat L) 0 0 (Z.to_nat N) s1.(mem) s1.(tab))
    as (t & -> & (A1 & A2 & A3 & A4)).
  { intros q H1 H2. apply (tensors_nonnull L N _ m q Hten); lia. }
  set (s := set_tab s1 t). exists s. split; [done|].
  assert (Hraw : ∀ p, in_range s p → s.(tab).(states) p = Raw ∧
     s.(tab).(k_raw) p = s.(mem).(svm_k) p ∧ s.(tab).(v_raw) p = s.(mem).(svm_v) p).
  { intros p [Hp1 Hp2]. cbn in Hp1, Hp2. pose proof (in_sel L N p 0 Hp1 Hp2) as Hsel.
    rewrite Z.sub_0_r in Hsel. cbn. by rewrite A1, A2, A3, Hsel. }
  assert (Hps' : plan_spec N L (balance * L) s) by (by destruct Hps).
  destruct (fresh_ladder_ok s HL HN Hps' (λ p Hp, proj1 (Hraw p Hp)) eq_refl eq_refl)
    as (Hlad & Hcr & Hsr).
  split; [done|]. split; [|repeat split; try done; by intros p Hp; apply Hraw].
  apply fresh_mem_ok; try done; [|by destruct Hten|by left].
  cbn. pose proof (round_up_4k_bounds (N * comp_bound hidden)). nia.
Qed.

(** The constructor keeps its arguments and the tensors. *)
Lemma ctor_fields L hidden N balance r m t0 s :
  mzcache_kv_state_ctor L hidden N balance r m t0 = Ok s →
  s.(num_layers) = L ∧ s.(num_chunks_per_tensor) = N ∧ s.(per_layer_balance) = balance ∧
  s.(kv_hidden_dim) = hidden ∧ s.(decomp_load_ratio) = r ∧ s.(pending_chunks_total) = 0 ∧
  s.(mem) = Memory m.(heap) m.(next_block) m.(svm_k) m.(svm_v) (λ _, []).
Proof.
  unfold mzcache_kv_state_ctor. intros H. apply obind_ok in H as (s1 & H1 & H2).
  apply derive_swapout_plan_shape in H1 as (p & c & ->).
  destruct (register_layers _ _ _ _ _ _) as [t []]; [|done]. injection H2 as <-. done.
Qed.

(** The constructor, on a cache whose tensors exist, returns a state that
    satisfies the ladder and memory invariants, with every chunk raw, the whole
    plan still to do, and every chunk's content that of its tensors. *)
Theorem ctor_ok (L hidden N balance : Z) (r : float) (m : memory) (t0 : chunks) :
  0 < L <= MAX_NUM_LAYERS → 0 < N <= MAX_CHUNKS_PER_TENSOR → 0 < hidden → 0 <= balance →
  ratio_ok N r = true → 0 <= comp_bound hidden →
  tensors_ok L N (TOKENS_PER_CHUNK * hidden * sizeof_fp16) m →
  ∃ s, mzcache_kv_state_ctor L hidden N balance r m t0 = Ok s ∧ ladder_ok s ∧ mem_ok s ∧
    clean_ladder s = true ∧ comp_rem s = s.(pln).(max_comp_chunks) ∧
    store_rem s = s.(pln).(max_store_chunks) ∧
    (∀ p, in_range s p → s.(tab).(states) p = Raw) ∧ s.(mem).(heap) = m.(heap).
Proof. apply ctor_spec. Qed.

(** ** Growth *)

(** A passed chunk of the compressed (stored) region leaves less to do. *)
Lemma crem_passed nl N cb L C p :
  (∀ i, 0 <= i < nl → 0 <= cb i <= N) → ccur_ok nl cb L C →
  0 <= p.1 < nl → 0 <= p.2 < cb p.1 → passed L C p = true → crem cb L C < sum_to cb (Z.to_nat nl).
Proof.
  intros Hcb (HL & HC & HC') Hp1 Hp2 Hpass. unfold crem.
  assert (Hmono : ∀ a b, 0 <= a <= b → b <= nl → sum_to cb (Z.to_nat a) <= sum_to cb (Z.to_nat b)).
  { intros a b Hab Hb. rewrite (sum_to_split cb (Z.to_nat b) (Z.to_nat a)) by lia.
    pose proof (sum_to_nonneg (λ i, cb (i + Z.of_nat (Z.to_nat a))) (Z.to_nat b - Z.to_nat a)) as H1.
    assert (0 <= sum_to (λ i, cb (i + Z.of_nat (Z.to_nat a))) (Z.to_nat b - Z.to_nat a)); [|lia].
    apply H1. intros i Hi. apply Hcb. lia. }
  pose proof (sum_to_pred cb (p.1 + 1) ltac:(lia)) as Hq.
  replace (p.1 + 1 - 1) with p.1 in Hq by lia.
  pose proof (Hmono (p.1 + 1) nl ltac:(lia) ltac:(lia)).
  unfold passed in Hpass. propify; [|subst; lia].
  destruct (Z.ltb_spec L 0).
  - pose proof (Hmono 0 p.1 ltac:(lia) ltac:(lia)) as Hz. replace (Z.to_nat L) with 0%nat by lia.
    simpl in *. lia.
  - pose proof (sum_to_pred cb (L + 1) ltac:(lia)) as HqL.
    replace (L + 1 - 1) with L in HqL by lia.
    pose proof (Hmono (L + 1) p.1 ltac:(lia) ltac:(lia)). lia.
Qed.

Lemma srem_passed nl N cb L C p :
  (∀ i, 0 <= i < nl → 0 <= cb i <= N) → scur_ok nl N cb L C →
  0 <= p.1 < nl → cb p.1 <= p.2 < N → passed L C p = true →
  srem cb N L C < sum_to (λ i, N - cb i) (Z.to_nat nl).
Proof.
  intros Hcb (HL & HC & HC') Hp1 Hp2 Hpass. set (f := λ i, N - cb i).
  assert (Hmono : ∀ a b, 0 <= a <= b → b <= nl → sum_to f (Z.to_nat a) <= sum_to f (Z.to_nat b)).
  { intros a b Hab Hb. rewrite (sum_to_split f (Z.to_nat b) (Z.to_nat a)) by lia.
    assert (0 <= sum_to (λ i, f (i + Z.of_nat (Z.to_nat a))) (Z.to_nat b - Z.to_nat a)); [|lia].
    apply sum_to_nonneg. intros i Hi. specialize (Hcb (i + Z.of_nat (Z.to_nat a))). unfold f. lia. }
  pose proof (sum_to_pred f (p.1 + 1) ltac:(lia)) as Hq.
  replace (p.1 + 1 - 1) with p.1 in Hq by lia.
  pose proof (Hmono (p.1 + 1) nl ltac:(lia) ltac:(lia)).
  pose proof (Hmono 0 p.1 ltac:(lia) ltac:(lia)) as H0. change (sum_to f (Z.to_nat 0)) with 0 in H0.
  unfold srem, passed in *. fold f.
  assert (Hfx : ∀ i, f i = N - cb i) by done. rewrite Hfx in Hq.
  destruct (Z.ltb_spec L 0); [lia|]. propify; [|subst; lia].
  pose proof (sum_to_pred f (L + 1) ltac:(lia)) as HqL.
  replace (L + 1 - 1) with L in HqL by lia. rewrite Hfx in HqL.
  pose proof (Hmono (L + 1) p.1 ltac:(lia) ltac:(lia)). lia.
Qed.

(** On a clean ladder every chunk is raw. *)
Lemma clean_all_raw s p : ladder_ok s → clean_ladder s = true → in_range s p →
  s.(tab).(states) p = Raw.
Proof.
  intros Hl Hc Hp. unfold clean_ladder in Hc. propify. pose proof Hp as [Hp1 Hp2].
  rewrite (lo_states _ Hl), expected_state_passed by done.
  destruct (Z.ltb_spec p.2 (chunk_bound (pln s) p.1)).
  - destruct (passed _ _ p) eqn:E; [|done]. exfalso.
    pose proof (crem_passed _ _ _ _ _ p (ladder_bounds s Hl) (ladder_ccur s Hl) Hp1 ltac:(lia) E) as Hlt.
    pose proof (lo_ncomp _ Hl). pose proof (lo_maxc _ Hl). unfold crem, comp_rem in *. lia.
  - destruct (passed _ _ p) eqn:E; [|done]. exfalso.
    pose proof (srem_passed _ _ _ _ _ p (ladder_bounds s Hl) (ladder_scur s Hl) Hp1 ltac:(lia) E) as Hlt.
    pose proof (lo_nstore _ Hl). pose proof (lo_maxs _ Hl). unfold srem, store_rem in *. lia.
Qed.

(** What growing a clean cache to [n] chunks per tensor gives. *)
Record grown (n : Z) (s s' : kv_state) : Prop := Grown {
  gr_ladder : ladder_ok s';
  gr_mem : mem_ok s';
  gr_n : s'.(num_chunks_per_tensor) = n;
  gr_clean : clean_ladder s' = true;
  gr_raw : ∀ p, in_range s' p → s'.(tab).(states) p = Raw;
  gr_view : ∀ p, in_range s p → view s' p = view s p;
  gr_todo : comp_rem s' + store_rem s' = n * s.(num_layers);
  gr_plan : plan_spec n s.(num_layers) (s.(per_layer_balance) * s.(num_layers)) s';
  gr_shape : ∃ x t p c,
    s' = set_cur (set_plan (set_num_chunks (set_tab (set_pending s x) t) n) p) c }.

Lemma register_grown_spec n s :
  ladder_ok s → mem_ok s → clean_ladder s = true → 0 <= s.(per_layer_balance) →
  s.(num_chunks_per_tensor) < n <= MAX_CHUNKS_PER_TENSOR → ratio_ok n s.(decomp_load_ratio) = true →
  tensors_ok s.(num_layers) n (raw_chunk_bytes s) s.(mem) →
  ∃ s', register_grown_chunks n s = Ok s' ∧ grown n s s' ∧
    s'.(pending_chunks_total) = s.(pending_chunks_total).
Proof.
  intros Hl Hm Hc Hb Hn Hr Hten. unfold register_grown_chunks.
  pose proof (lo_N _ Hl) as HN. pose proof (lo_L _ Hl) as HL.
  rewrite (proj2 (Z.leb_gt _ _)) by lia. rewrite (proj2 (Z.ltb_ge _ _)) by lia.
  rewrite Hc. cbn [negb]. cbv zeta. set (N := num_chunks_per_tensor s) in *.
  destruct (register_layers_spec (Z.to_nat (num_layers s)) 0 N (Z.to_nat (n - N)) (mem s) (tab s))
    as (t & -> & (A1 & A2 & A3 & A4)).
  { intros q H1 H2. apply (tensors_nonnull _ _ _ _ q Hten); lia. }
  destruct (derive_plan_spec (set_num_chunks (set_tab s t) n)) as (pl & c & _ & _ & -> & Hps & _);
    try done; [simpl; lia|simpl; lia|].
  set (s' := set_cur _ _) in *. exists s'. split; [done|split; [|done]].
  assert (Hraw : ∀ p, in_range s' p → s'.(tab).(states) p = Raw ∧
     s'.(tab).(k_raw) p = s'.(mem).(svm_k) p ∧ s'.(tab).(v_raw) p = s'.(mem).(svm_v) p).
  { intros p [Hp1 Hp2]. cbn in Hp1, Hp2. cbn. rewrite A1, A2, A3.
    destruct (decide (N <= p.2)) as [Hge|Hlt].
    - by rewrite (in_sel (num_layers s) n p N Hp1) by lia.
    - rewrite (proj2 (Z.leb_gt N p.2)) by lia. rewrite andb_false_r. cbn [andb].
      assert (Hp : in_range s p) by (split; [done|fold N; lia]).
      pose proof (clean_all_raw s p Hl Hc Hp) as Hst. split; [done|].
      pose proof (mo_chunks _ Hm p Hp) as Hco. unfold chunk_ok in Hco. rewrite Hst in Hco.
      by destruct Hco as (-> & -> & _). }
  unfold clean_ladder in Hc. propify.
  destruct (fresh_ladder_ok s' (lo_L _ Hl) ltac:(simpl; lia) Hps (λ p Hp, proj1 (Hraw p Hp)))
    as (Hlad & Hcr & Hsr); [done|done|].
  split; try done.
  - apply fresh_mem_ok; try done; apply Hm.
  - unfold clean_ladder. cbn. by rewrite !(proj2 (Z.eqb_eq _ _)).
  - intros p Hp. by apply Hraw.
  - intros p Hp. assert (Hp' : in_range s' p).
    { destruct Hp as [Hp1 Hp2]. split; [done|]. cbn. fold N in Hp2. lia. }
    unfold view. rewrite (proj1 (Hraw p Hp')). rewrite (clean_all_raw s p Hl); try done.
    unfold clean_ladder. by rewrite !(proj2 (Z.eqb_eq _ _)).
  - rewrite Hcr, Hsr. apply Hps.
  - by exists s.(pending_chunks_total), t, pl, c.
Qed.

(** Growing the cache on a clean ladder registers the new chunks, re-derives
    the plan for the new size and re-establishes the ladder and memory
    invariants; the content of every chunk that existed is unchanged. *)
Theorem register_grown_chunks_ok (n : Z) (s : kv_state) :
  ladder_ok s → mem_ok s → clean_ladder s = true → 0 <= s.(per_layer_balance) →
  s.(num_chunks_per_tensor) < n <= MAX_CHUNKS_PER_TENSOR → ratio_ok n s.(decomp_load_ratio) = true →
  tensors_ok s.(num_layers) n (raw_chunk_bytes s) s.(mem) →
  ∃ s', register_grown_chunks n s = Ok s' ∧ grown n s s' ∧
    s'.(pending_chunks_total) = s.(pending_chunks_total).
Proof. apply register_grown_spec. Qed.

(** Growth that arrives while a swap-out is in flight only records the
    largest size asked for, and is applied in full by [apply_pending_growth] once
    the ladder is clean again: nothing is lost and nothing is planned twice. *)
Theorem pending_growth_ok (n : Z) (s s2 : kv_state) :
  s.(num_chunks_per_tensor) < n <= MAX_CHUNKS_PER_TENSOR → clean_ladder s = false →
  ladder_ok s2 → mem_ok s2 → clean_ladder s2 = true → 0 <= s2.(per_layer_balance) →
  s2.(pending_chunks_total) = Z.max s.(pending_chunks_total) n →
  s2.(num_chunks_per_tensor) = s.(num_chunks_per_tensor) →
  s.(pending_chunks_total) <= MAX_CHUNKS_PER_TENSOR →
  ratio_ok s2.(pending_chunks_total) s2.(decomp_load_ratio) = true →
  tensors_ok s2.(num_layers) s2.(pending_chunks_total) (raw_chunk_bytes s2) s2.(mem) →
  register_grown_chunks n s = Ok (set_pending s (Z.max s.(pending_chunks_total) n)) ∧
  ∃ s3, apply_pending_growth s2 = Ok s3 ∧ grown (Z.max s.(pending_chunks_total) n) s2 s3 ∧
    s3.(pending_chunks_total) = 0.
Proof.
  intros Hn Hc Hl2 Hm2 Hc2 Hb2 Hp2 HN2 Hmax Hr Hten. split.
  - unfold register_grown_chunks. rewrite (proj2 (Z.leb_gt _ _)) by lia.
    rewrite (proj2 (Z.ltb_ge _ _)) by lia. by rewrite Hc.
  - unfold apply_pending_growth. rewrite (proj2 (Z.ltb_lt _ _)) by lia. cbv zeta.
    rewrite Hp2 in *.
    destruct (register_grown_spec (Z.max s.(pending_chunks_total) n) (set_pending s2 0))
      as (s3 & Heq & Hg & Hpe); try done.
    + by destruct Hl2.
    + by destruct Hm2.
    + simpl. lia.
    + exists s3. split; [done|]. split; [|done]. destruct Hg as [g1 g2 g3 g4 g5 g6 g7 g8 (x & g)].
      split; try done. by exists x.
Qed.
End ctor.
