(* ===== verification/KvOffload.v ===== *)
(** Arena offload and reload ([mzcache_kv_state.cpp], the functions from
    [full_pwrite] to [mzcache_reload_all_arenas]): once everything else is swapped
    out, the compressed arenas of a layer go to a swap file and come back whole
    before the next swap-in. *)
From S2P Require Import Prelude Floats KvTypes KvPlan KvLadder KvInv KvFrame.

(** ** [full_pwrite] and [full_pread] *)

(** The answer of one [pwrite]/[pread]: interrupted, failed, or a count. *)
Inductive io_ret := Eintr | Eio | Count (n : Z).

(** The loop of [full_pwrite] over the answers of successive calls (further
    calls return 0): the value returned and the file left behind. *)
Fixpoint full_pwrite (rets : list io_ret) (data : list byte) (done off : Z) (f : list byte)
    : Z * list byte :=
  let count := Z.of_nat (length data) in
  if done <? count then
    match rets with
    | [] => (done, f)
    | Eintr :: rets => full_pwrite rets data done off f
    | Eio :: _ => (-1, f)
    | Count n :: rets =>
        if n <=? 0 then (done, f)
        else let k := Z.min n (count - done) in
             full_pwrite rets data (done + k) off (file_write (off + done) (read_at done k data) f)
    end
  else (done, f).

(** The loop of [full_pread] into [buf]: at the end of the file a call returns 0. *)
Fixpoint full_pread (rets : list io_ret) (f : list byte) (count done off : Z) (buf : list byte)
    : Z * list byte :=
  if done <? count then
    match rets with
    | [] => (done, buf)
    | Eintr :: rets => full_pread rets f count done off buf
    | Eio :: _ => (-1, buf)
    | Count n :: rets =>
        let k := Z.min (Z.min n (count - done)) (Z.of_nat (length f) - (off + done)) in
        if k <=? 0 then (done, buf)
        else full_pread rets f count (done + k) off (write_at done (read_at (off + done) k f) buf)
    end
  else (done, buf).

(** The swap files: whether they open (the O_DIRECT attempt or its fallback)
    and how the transfer of [n] bytes of arena [i] of layer [L] is answered. *)
Class SwapEnv := {
  odirect_write_ok : Z → bool;
  odirect_read_ok : Z → bool;
  pwrite_rets : Z → nat → Z → list io_ret;
  pread_rets : Z → nat → Z → list io_ret }.

Section offload.
Context `{Cd : Codec} `{Ev : Env} `{Sw : SwapEnv}.

Definition set_swap (s : kv_state) (L : Z) (f : option (list byte)) : kv_state :=
  set_dsk s (Disk s.(dsk).(kv_file) (<[L := f]> s.(dsk).(swap_file)) s.(dsk).(layer_fds)).
Definition set_arenas (s : kv_state) (L : Z) (l : list Arena) : kv_state :=
  set_mem s (Memory s.(mem).(heap) s.(mem).(next_block) s.(mem).(svm_k) s.(mem).(svm_v)
    (<[L := l]> s.(mem).(arenas))).
Definition set_used (s : kv_state) (L : Z) (u : list Z) : kv_state :=
  set_off s s.(next_layer_to_offload) (<[L := u]> s.(offload_used_bytes)).
Definition add_offload_bytes (s : kv_state) (n : Z) : kv_state :=
  let c := s.(cnt) in
  set_cnt s (Counters c.(n_cur_comp_chunks) c.(n_cur_store_chunks) c.(n_cur_comp_saved_bytes) n).

(** [memset(a->pool + used, 0, padded - used)]. *)
Definition pad_pool (a : Arena) : list byte :=
  write_at a.(top) (replicate (Z.to_nat (round_up_4k a.(top) - a.(top))) 0) a.(pool).
Definition with_pool (a : Arena) (p : list byte) : Arena :=
  MkArena p a.(top) a.(cap) a.(svm) a.(locked) a.(locked_bytes).

(** The loop over a layer's arenas [todo] ([past]: the ones already written);
    [used], [off] and the bytes written are accumulated.  The result says
    whether every transfer was complete. *)
Fixpoint offload_loop (L : Z) (todo past : list Arena) (f : list byte) (off : Z) (used : list Z)
    : outcome (bool * list Arena * list byte * Z * list Z) :=
  match todo with
  | [] => Ok (true, past, f, off, used)
  | a :: todo =>
      if a.(top) =? 0 then offload_loop L todo (past ++ [a]) f off (used ++ [0])
      else
        let padded := round_up_4k a.(top) in
        if padded <=? Z.of_nat (length a.(pool)) then
          let a' := with_pool a (pad_pool a) in
          let '(n, f') := full_pwrite (pwrite_rets L (length past) padded) (read_at 0 padded a'.(pool)) 0 off f in
          if n =? padded then
            offload_loop L todo (past ++ [a']) f' (off + padded) (used ++ [a.(top)])
          else Ok (false, past ++ a' :: todo, f', off, used)
        else Ub
  end.

(** [mzcache_offload_arenas]: one layer, in reverse order. *)
Definition mzcache_offload_arenas (s : kv_state) : outcome (kv_state * Z) :=
  if s.(next_layer_to_offload) <? 0 then Ok (s, 0)
  else
    let layer := s.(next_layer_to_offload) in
    if negb (odirect_write_ok layer) then Ok (s, 0)
    else
      '(ok, l, f, off, used) <~ offload_loop layer (s.(mem).(arenas) layer) [] [] 0 [] ;;
      let s1 := set_used (set_swap s layer (Some f)) layer used in
      if (ok : bool) then
        let s2 := set_arenas s1 layer [] in
        Ok (add_offload_bytes
              (set_off s2 (layer - 1) s2.(offload_used_bytes))
              (s.(cnt).(n_cur_arena_offload_bytes) + off), off)
      else Ok (set_arenas s1 layer l, 0).

(** Reading one arena back. *)
Definition reload_arena (L : Z) (i : nat) (size used off : Z) (f : list byte) : option Arena :=
  let a := new_arena size false in
  if used =? 0 then Some (MkArena a.(pool) 0 a.(cap) a.(svm) a.(locked) a.(locked_bytes))
  else
    let padded := round_up_4k used in
    let '(n, p) := full_pread (pread_rets L i padded) f padded 0 off a.(pool) in
    if n =? padded then Some (MkArena p used a.(cap) a.(svm) a.(locked) a.(locked_bytes)) else None.

(** The loop over [offload_used_bytes_[layer]]: on a failure the layer keeps no
    arena. *)
Fixpoint reload_loop (L size : Z) (used : list Z) (acc : list Arena) (off : Z) (f : list byte)
    : bool * list Arena :=
  match used with
  | [] => (true, acc)
  | u :: used =>
      if size <? u then (false, [])
      else match reload_arena L (length acc) size u off f with
           | Some a => reload_loop L size used (acc ++ [a])
                         (if u =? 0 then off else off + round_up_4k u) f
           | None => (false, [])
           end
  end.

(** [mzcache_reload_arenas]: one layer. *)
Definition mzcache_reload_arenas (s : kv_state) : kv_state :=
  let layer := if s.(next_layer_to_offload) <? 0 then 0 else s.(next_layer_to_offload) + 1 in
  if s.(num_layers) <=? layer then s
  else match s.(offload_used_bytes) layer with
  | [] => s
  | used =>
      let s1 := set_arenas s layer [] in
      match odirect_read_ok layer, s.(dsk).(swap_file) layer with
      | true, Some f =>
          let '(ok, l) := reload_loop layer s.(arena_bytes) used [] 0 f in
          if ok then
            let s2 := set_swap (set_arenas s1 layer l) layer None in
            let n := fold_left (λ n u, if u =? 0 then n else n - round_up_4k u) used
                       s.(cnt).(n_cur_arena_offload_bytes) in
            let s3 := add_offload_bytes s2 (Z.max 0 n) in
            let next := s.(next_layer_to_offload) + 1 in
            set_off s3 (if s.(num_layers) <=? next then s.(num_layers) - 1 else next) s3.(offload_used_bytes)
          else set_arenas s1 layer l
      | _, _ => s1
      end
  end.

(** One layer of [mzcache_reload_all_arenas]: the swap file is removed whether
    or not the transfers succeeded. *)
Definition reload_layer (s : kv_state) (layer : Z) : kv_state :=
  match s.(offload_used_bytes) layer with
  | [] => s
  | used =>
      let s1 := set_arenas s layer [] in
      match odirect_read_ok layer, s.(dsk).(swap_file) layer with
      | true, Some f =>
          set_swap (set_arenas s1 layer (reload_loop layer s.(arena_bytes) used [] 0 f).2) layer None
      | _, _ => s1
      end
  end.

Definition mzcache_reload_all_arenas (s : kv_state) : kv_state :=
  let start_layer := if s.(next_layer_to_offload) <? 0 then 0 else s.(next_layer_to_offload) + 1 in
  if s.(num_layers) <=? start_layer then s
  else
    let s' := fold_left reload_layer (seqZ start_layer (s.(num_layers) - start_layer)) s in
    add_offload_bytes (set_off s' (s.(num_layers) - 1) s'.(offload_used_bytes)) 0.

End offload.

(** ** The transfer loops *)

Lemma read_at_add o n k d : 0 <= o → 0 <= n → 0 <= k →
  read_at o (n + k) d = read_at o n d ++ read_at (o + n) k d.
Proof.
  intros Ho Hn Hk. unfold read_at. replace (Z.to_nat (n + k)) with (Z.to_nat n + Z.to_nat k)%nat by lia.
  replace (Z.to_nat (o + n)) with (Z.to_nat o + Z.to_nat n)%nat by lia.
  rewrite <- drop_drop. symmetry. apply take_take_drop.
Qed.

Lemma read_at_nil o d : read_at o 0 d = [].
Proof. reflexivity. Qed.

(** Appending to the end of a file. *)
Lemma file_write_end d f : file_write (Z.of_nat (length f)) d f = f ++ d.
Proof.
  unfold file_write, write_at. rewrite Nat2Z.id.
  replace (Z.to_nat (Z.of_nat (length f) + Z.of_nat (length d)) - length f)%nat with (length d) by lia.
  rewrite take_app_length. f_equal. rewrite drop_ge; [apply app_nil_r|].
  rewrite length_app, length_replicate. lia.
Qed.

Lemma full_pwrite_append rets data dn f0 n f : 0 <= dn <= Z.of_nat (length data) →
  full_pwrite rets data dn (Z.of_nat (length f0)) (f0 ++ read_at 0 dn data) = (n, f) →
  n = -1 ∨ (dn <= n <= Z.of_nat (length data) ∧ f = f0 ++ read_at 0 n data).
Proof.
  revert dn. induction rets as [|r rets IH]; intros dn Hd; cbn [full_pwrite];
    (destruct (Z.ltb_spec dn (Z.of_nat (length data)));
     [|intros [= <- <-]; right; split; [lia|done]]).
  - intros [= <- <-]. right. split; [lia|done].
  - destruct r as [| |k].
    + apply IH. lia.
    + intros [= <- <-]. by left.
    + destruct (Z.leb_spec k 0); [intros [= <- <-]; right; split; [lia|done]|].
      set (m := Z.min k (Z.of_nat (length data) - dn)).
      assert (Hlen : Z.of_nat (length f0) + dn = Z.of_nat (length (f0 ++ read_at 0 dn data))).
      { rewrite length_app, length_read_at by lia. lia. }
      rewrite Hlen, file_write_end, <- app_assoc.
      replace (read_at dn m data) with (read_at (0 + dn) m data) by (f_equal; lia).
      rewrite <- read_at_add by lia. intros Hr.
      destruct (IH (dn + m) ltac:(lia) Hr) as [?|[? ?]]; [by left|right]. split; [lia|done].
Qed.

Lemma full_pread_fill rets f count dn off buf n buf' :
  0 <= dn <= count → 0 <= off → count <= Z.of_nat (length buf) →
  full_pread rets f count dn off (write_at 0 (read_at off dn f) buf) = (n, buf') →
  (dn = 0 ∨ off + dn <= Z.of_nat (length f)) →
  n = -1 ∨ (dn <= n <= count ∧ (n = 0 ∨ off + n <= Z.of_nat (length f)) ∧
            buf' = write_at 0 (read_at off n f) buf).
Proof.
  intros Hd Ho Hb. revert dn Hd. induction rets as [|r rets IH]; intros dn Hd; cbn [full_pread];
    (destruct (Z.ltb_spec dn count); [|intros [= <- <-] ?; right; split; [lia|done]]).
  - intros [= <- <-] ?. right. split; [lia|done].
  - destruct r as [| |k].
    + apply IH. lia.
    + intros [= <- <-]. by left.
    + set (m := Z.min (Z.min k (count - dn)) (Z.of_nat (length f) - (off + dn))).
      destruct (Z.leb_spec m 0); [intros [= <- <-] ?; right; split; [lia|done]|].
      intros Hr Hdf.
      assert (Hlr : length (read_at off dn f) = Z.to_nat dn).
      { destruct (decide (dn = 0)) as [->|]; [done|]. apply length_read_at; lia. }
      assert (Heq : write_at dn (read_at (off + dn) m f) (write_at 0 (read_at off dn f) buf)
              = write_at 0 (read_at off (dn + m) f) buf).
      { rewrite (read_at_add off dn m) by lia. unfold write_at. rewrite take_0, !app_nil_l.
        change (Z.to_nat 0) with 0%nat. rewrite !Nat.add_0_l. cbn [app take].
        rewrite length_app, Hlr. rewrite (length_read_at (off + dn) m f) by lia.
        rewrite take_app_length' by done. rewrite <- app_assoc. f_equal. f_equal.
        rewrite drop_app_ge by lia. rewrite Hlr, drop_drop. f_equal. lia. }
      rewrite Heq in Hr. destruct (IH (dn + m) ltac:(lia) Hr ltac:(right; lia)) as [?|(? & ? & ?)];
        [by left|right]. split; [lia|done].
Qed.

(** ** Arenas that hold the same compressed chunks *)

Record same_arena (a a' : Arena) : Prop := SameArena {
  sa_top : a'.(top) = a.(top);
  sa_cap : a'.(cap) = a.(cap);
  sa_len : length a'.(pool) = length a.(pool);
  sa_used : read_at 0 a.(top) a'.(pool) = read_at 0 a.(top) a.(pool) }.

Lemma same_arena_refl a : same_arena a a.
Proof. done. Qed.

Lemma same_arena_trans a b c : same_arena a b → same_arena b c → same_arena a c.
Proof. intros [H1 H2 H3 H4] [K1 K2 K3 K4]. rewrite H1 in K4. split; congruence. Qed.

Lemma same_arenas_refl l : Forall2 same_arena l l.
Proof. induction l; constructor; done || apply same_arena_refl. Qed.

Lemma same_arenas_trans l1 l2 l3 :
  Forall2 same_arena l1 l2 → Forall2 same_arena l2 l3 → Forall2 same_arena l1 l3.
Proof.
  intros H. revert l3. induction H as [|a b l1 l2 Hab _ IH]; intros l3 H3; [done|].
  inversion H3 as [|? c ? l4 Hbc H4]; subst. constructor; [by eapply same_arena_trans|auto].
Qed.

(** What [mzcache_offload_arenas] writes for one arena. *)
Definition img (a : Arena) : list byte :=
  if a.(top) =? 0 then []
  else read_at 0 a.(top) a.(pool) ++ replicate (Z.to_nat (round_up_4k a.(top) - a.(top))) 0.

Lemma img_same a a' : same_arena a a' → img a' = img a.
Proof. intros [Ht _ _ Hu]. unfold img. by rewrite Ht, Hu. Qed.

Lemma imgs_same l l' : Forall2 same_arena l l' → flat_map img l' = flat_map img l.
Proof. induction 1 as [|a a' l l' Ha _ IH]; [done|]. cbn [flat_map]. by rewrite (img_same _ _ Ha), IH. Qed.

Lemma read_at_sub o n k d : 0 <= o → o + n <= k → read_at o n d = read_at o n (read_at 0 k d).
Proof.
  intros Ho Hk. unfold read_at. rewrite drop_0. change (Z.to_nat 0) with 0%nat.
  rewrite skipn_firstn_comm, take_take. f_equal. lia.
Qed.

Section specs.
Context `{Cd : Codec} `{Ev : Env} {CL : CodecLaws Cd} `{Sw : SwapEnv}.

Definition arena_range (size : Z) (a : Arena) : Prop := arena_ok size a ∧ round_up_4k size = size.

Lemma pad_fits size a : arena_range size a → a.(top) <> 0 →
  0 < a.(top) <= round_up_4k a.(top) ∧ round_up_4k a.(top) <= Z.of_nat (length a.(pool)).
Proof.
  intros [(Hc & Hl & Ht) Hr] Hne. pose proof (round_up_4k_bounds a.(top) ltac:(lia)).
  pose proof (round_up_4k_mono a.(top) size ltac:(lia)). lia.
Qed.

Lemma pad_pool_spec size a : arena_range size a → a.(top) <> 0 →
  same_arena a (with_pool a (pad_pool a)) ∧ read_at 0 (round_up_4k a.(top)) (pad_pool a) = img a.
Proof.
  intros Ha Hne. pose proof (pad_fits size a Ha Hne) as [Ht Hp]. unfold pad_pool.
  set (z := replicate _ 0). assert (Hz : Z.of_nat (length (A := byte) z) = round_up_4k (top a) - top a).
  { unfold z. rewrite length_replicate. lia. }
  assert (Hsame : same_arena a (with_pool a (write_at (top a) z (pool a)))).
  { split; cbn [top cap pool with_pool]; [done|done|apply length_write_at; lia|apply read_write_before; lia]. }
  split; [done|]. unfold img. rewrite (proj2 (Z.eqb_neq _ _) Hne). fold z.
  replace (round_up_4k (top a)) with (top a + (round_up_4k (top a) - top a)) at 1 by lia.
  rewrite read_at_add by lia. f_equal; [apply (sa_used _ _ Hsame)|].
  apply read_write_same_n; lia.
Qed.

Lemma length_img size a : arena_range size a →
  Z.of_nat (length (img a)) = if a.(top) =? 0 then 0 else round_up_4k a.(top).
Proof.
  intros Ha. unfold img. destruct (Z.eqb_spec a.(top) 0) as [|Hne]; [done|].
  pose proof (pad_fits size a Ha Hne) as [Ht Hp].
  rewrite length_app, length_read_at, length_replicate by lia. lia.
Qed.

(** Offloading a layer: everything written, or every arena kept. *)
Lemma offload_loop_spec size L todo past f used :
  Forall (arena_range size) todo → ∃ ok l f' off u,
  offload_loop L todo past f (Z.of_nat (length f)) used = Ok (ok, l, f', off, u) ∧
  Forall2 same_arena (past ++ todo) l ∧ Z.of_nat (length f) <= off ∧
  ((ok : bool) = true → off = Z.of_nat (length f') ∧ f' = f ++ flat_map img todo ∧ u = used ++ (top <$> todo)).
Proof.
  intros Hall. revert past f used. induction Hall as [|a todo Ha Hall IH]; intros past f used; cbn [offload_loop].
  - eexists _, _, _, _, _. split; [reflexivity|]. rewrite !app_nil_r.
    split; [apply same_arenas_refl|]. split; [lia|]. intros _. cbn. by rewrite ?app_nil_r.
  - destruct (Z.eqb_spec a.(top) 0) as [H0|Hne].
    + destruct (IH (past ++ [a]) f (used ++ [0])) as (ok & l & f' & off & u & -> & Hl & Hoff & Hok).
      eexists _, _, _, _, _. split; [reflexivity|]. rewrite <- app_assoc in Hl. split; [exact Hl|].
      split; [done|]. intros E. destruct (Hok E) as (-> & -> & ->). cbn [flat_map fmap list_fmap].
      assert (img a = []) as -> by (unfold img; by rewrite H0). rewrite H0. cbn [app]. split; [done|]. split; [done|]. by rewrite <- app_assoc.
    + pose proof (pad_fits size a Ha Hne) as [Ht Hp]. rewrite (proj2 (Z.leb_le _ _) Hp).
      destruct (pad_pool_spec size a Ha Hne) as [Hsame Himg]. cbn [pool with_pool]. rewrite Himg.
      destruct (full_pwrite _ (img a) 0 _ f) as [n f'] eqn:Ew.
      pose proof (length_img size a Ha) as Hli. rewrite (proj2 (Z.eqb_neq _ _) Hne) in Hli.
      assert (Hfail : Forall2 same_arena (past ++ a :: todo)
                        (past ++ with_pool a (pad_pool a) :: todo)).
      { apply Forall2_app; [apply same_arenas_refl|]. constructor; [done|apply same_arenas_refl]. }
      destruct (Z.eqb_spec n (round_up_4k a.(top))) as [Hn|Hn].
      2: { eexists _, _, _, _, _. split; [reflexivity|]. split; [exact Hfail|]. split; [lia|done]. }
      assert (Hf : f' = f ++ img a).
      { pose proof (full_pwrite_append (pwrite_rets L (length past) (round_up_4k (top a))) (img a) 0 f n f' ltac:(lia)) as H.
        rewrite read_at_nil, app_nil_r in H. destruct (H Ew) as [|[_ ->]]; [lia|].
        rewrite Hn, <- Hli. by rewrite (read_at_all _ _ eq_refl). }
      assert (Hoff : Z.of_nat (length f) + round_up_4k (top a) = Z.of_nat (length f')).
      { rewrite Hf, length_app. lia. }
      rewrite Hoff. destruct (IH (past ++ [with_pool a (pad_pool a)]) f' (used ++ [top a]))
        as (ok & l & f2 & off & u & -> & Hl & Hoff2 & Hok).
      eexists _, _, _, _, _. split; [reflexivity|]. rewrite <- app_assoc in Hl. split.
      * exact (same_arenas_trans _ _ _ Hfail Hl).
      * split; [pose proof (pad_fits size a Ha Hne); lia|].
        intros E. destruct (Hok E) as (-> & -> & ->). split; [done|]. rewrite Hf. cbn [flat_map fmap list_fmap].
        by rewrite <- !app_assoc.
Qed.

(** Reads are answered in full when the file holds the bytes. *)
Definition preads_ok : Prop := ∀ L i f n off buf, 0 <= off → 0 <= n → off + n <= Z.of_nat (length f) →
  n <= Z.of_nat (length buf) → (full_pread (pread_rets L i n) f n 0 off buf).1 = n.

Lemma reload_arena_spec size L i a pre post : preads_ok → arena_range size a →
  ∃ a', reload_arena L i size a.(top) (Z.of_nat (length pre)) (pre ++ img a ++ post) = Some a' ∧
    same_arena a a'.
Proof.
  intros Hio Ha. pose proof Ha as [(Hcap & Hlen & Htop) Hr]. unfold reload_arena.
  pose proof (length_img size a Ha) as Hli.
  assert (Hfm : Z.of_nat (length (fresh_mem 1 size)) = size) by (rewrite length_fresh_mem; lia).
  destruct (Z.eqb_spec a.(top) 0) as [H0|Hne].
  - eexists. split; [reflexivity|]. split; cbn; [lia|lia|lia|]. by rewrite H0.
  - pose proof (pad_fits size a Ha Hne) as [Ht Hp]. cbn [new_arena pool].
    set (f := pre ++ img a ++ post). set (off := Z.of_nat (length pre)).
    assert (Hoff : off + round_up_4k (top a) <= Z.of_nat (length f))
      by (unfold f, off; rewrite !length_app; lia).
    set (buf := fresh_mem 1 size : list byte) in *.
    assert (Hbuf : round_up_4k (top a) <= Z.of_nat (length buf)) by lia.
    destruct (full_pread (pread_rets L i (round_up_4k (top a))) f (round_up_4k (top a)) 0 off buf) as [n p] eqn:Er.
    pose proof (Hio L i f (round_up_4k (top a)) off buf) as Hn. rewrite Er in Hn. cbn in Hn.
    rewrite Hn, Z.eqb_refl by lia. eexists. split; [reflexivity|].
    assert (Hp' : p = write_at 0 (img a) buf).
    { assert (Hw : write_at 0 (read_at off 0 f) buf = buf) by reflexivity.
      rewrite <- Hw in Er.
      destruct (full_pread_fill _ f (round_up_4k (top a)) 0 off buf n p
                  ltac:(lia) ltac:(lia) ltac:(lia) Er ltac:(by left)) as [|(_ & _ & ->)].
      { rewrite Hn in *; lia. }
      f_equal. rewrite Hn by lia. rewrite <- Hli. unfold f, off, read_at.
      rewrite !Nat2Z.id, drop_app_length. apply take_app_length. }
    split; cbn [top pool cap new_arena]; [done|lia|rewrite Hp', length_write_at; lia|].
    rewrite Hp', (read_at_sub 0 (top a) (Z.of_nat (length (img a)))) by lia.
    rewrite read_write_same by lia. unfold img. rewrite (proj2 (Z.eqb_neq _ _) Hne).
    unfold read_at. rewrite !drop_0.
    rewrite take_app_length'; [done|rewrite length_take; lia].
Qed.

Lemma reload_loop_spec size L l acc pre : preads_ok → Forall (arena_range size) l →
  ∃ l', reload_loop L size (top <$> l) acc (Z.of_nat (length pre)) (pre ++ flat_map img l)
          = (true, acc ++ l') ∧ Forall2 same_arena l l'.
Proof.
  intros Hio Hall. revert acc pre. induction Hall as [|a l Ha Hall IH]; intros acc pre; cbn [fmap list_fmap reload_loop].
  - exists []. split; [by rewrite app_nil_r|constructor].
  - pose proof Ha as [(Hcap & Hlen & Htop) _]. rewrite (proj2 (Z.ltb_ge _ _)) by lia. cbn [flat_map].
    destruct (reload_arena_spec size L (length acc) a pre (flat_map img l) Hio Ha) as (a' & -> & Hs).
    pose proof (length_img size a Ha) as Hli.
    assert (Hoff : (if top a =? 0 then Z.of_nat (length pre) else Z.of_nat (length pre) + round_up_4k (top a))
             = Z.of_nat (length (pre ++ img a))).
    { rewrite length_app. destruct (top a =? 0); lia. }
    rewrite Hoff, app_assoc. destruct (IH (acc ++ [a']) (pre ++ img a)) as (l' & -> & Hl).
    exists (a' :: l'). split; [by rewrite <- app_assoc|by constructor].
Qed.

End specs.
