(* ===== verification/KvOffloadThms.v ===== *)
(** Offload and reload preserve every chunk: the specification of
    [mzcache_offload_arenas] (success and failure) and of
    [mzcache_reload_all_arenas], and the round trip. *)
From S2P Require Import Prelude Floats KvTypes KvPlan KvLadder KvInv KvFrame KvOffload.

(** Everything but the arenas, the swap files and the offload bookkeeping. *)
Definition strip (s : kv_state) : kv_state :=
  KvState s.(num_layers) s.(kv_hidden_dim) s.(num_chunks_per_tensor) s.(per_layer_balance)
    s.(arena_bytes) s.(decomp_load_ratio) s.(pln) s.(cur)
    (Counters s.(cnt).(n_cur_comp_chunks) s.(cnt).(n_cur_store_chunks) s.(cnt).(n_cur_comp_saved_bytes) 0)
    s.(tab) (Memory s.(mem).(heap) s.(mem).(next_block) s.(mem).(svm_k) s.(mem).(svm_v) (λ _, []))
    (Disk s.(dsk).(kv_file) (λ _, None) s.(dsk).(layer_fds)) 0 (λ _, []) s.(pending_chunks_total)
    s.(comp_left).

Section thms.
Context `{Cd : Codec} `{Ev : Env} {CL : CodecLaws Cd} `{Sw : SwapEnv}.

(** [s'] is [s] up to moved arenas and swap files. *)
Record similar (s s' : kv_state) : Prop := Similar {
  sim_strip : strip s' = strip s;
  sim_arenas : ∀ L, Forall2 same_arena (s.(mem).(arenas) L) (s'.(mem).(arenas) L) }.

Lemma same_arena_lookup l l' i a : Forall2 same_arena l l' → l !! i = Some a →
  ∃ a', l' !! i = Some a' ∧ same_arena a a'.
Proof.
  intros H. revert i. induction H as [|x y l l' Hxy _ IH]; intros i Hi; [done|].
  destruct i as [|i]; [|by apply IH]. injection Hi as <-. by exists y.
Qed.

Lemma comp_valid_arena s s' cc a a' : comp_valid s cc a → same_arena a a' →
  s'.(kv_hidden_dim) = s.(kv_hidden_dim) →
  comp_valid s' cc a' ∧
  read_at cc.(offset) cc.(comp_size) a'.(pool) = read_at cc.(offset) cc.(comp_size) a.(pool).
Proof.
  intros (d & Hd & H1 & H2 & H3 & He) [Ht _ _ Hu] Hh.
  assert (Hr : read_at cc.(offset) cc.(comp_size) a'.(pool) = read_at cc.(offset) cc.(comp_size) a.(pool)).
  { rewrite (read_at_sub _ _ a.(top)), Hu by lia. symmetry. apply read_at_sub; lia. }
  split; [|done]. exists d. unfold raw_chunk_bytes, comp_holds in *. rewrite Hh, Hr, Ht. done.
Qed.

Lemma similar_ok s s' : similar s s' → mem_ok s →
  mem_ok s' ∧ ∀ p, in_range s p → view s' p = view s p.
Proof.
  intros [Hs Har] [m1 m2 m3 m4 m5 m6 m7]. unfold strip in Hs.
  injection Hs as e1 e2 e3 e4 e5 e6 e7 e8 e9 e9' e9'' e10 e11 e12 e13 e14 e15 e16 e17 e18.
  assert (Hir : ∀ p, in_range s' p ↔ in_range s p) by (intros; unfold in_range; by rewrite e1, e3).
  assert (Hrb : raw_chunk_bytes s' = raw_chunk_bytes s) by (unfold raw_chunk_bytes; by rewrite e2).
  split; [split|].
  - by rewrite e2.
  - by rewrite e2, e5.
  - intros p Hp%Hir. specialize (m3 p Hp). unfold chunk_ok in *.
    rewrite ?e10, ?e11, ?e12, ?e13, ?e14, ?e15, ?Hrb, ?e7.
    destruct (states (tab s) p); [done| |done]. destruct m3 as (Hk & Hv & a & Ha & Hck & Hcv).
    split; [done|]. split; [done|]. destruct (same_arena_lookup _ _ _ _ (Har p.1) Ha) as (a' & -> & Hsa).
    exists a'. split; [done|]. by split; eapply comp_valid_arena.
  - intros p q b Hp%Hir Hq%Hir. rewrite e10. by apply m4.
  - intros b. rewrite e11, e12. apply m5.
  - intros L. specialize (m6 L). specialize (Har L). rewrite e5. revert m6.
    clear -Har. induction Har as [|a a' l l' [Ht Hc Hl _] _ IH]; [done|]. intros [(H1 & H2 & H3) Hall]%Forall_cons.
    constructor; [|by apply IH]. unfold arena_ok. rewrite Ht, Hc, Hl. done.
  - intros L. rewrite e15, e16. apply m7.
  - intros p Hp. specialize (m3 p Hp). unfold view, chunk_ok, load in *.
    rewrite ?e10, ?e11, ?e12, ?e13, ?e14, ?e15, ?Hrb, ?e7, ?e2.
    destruct (states (tab s) p); [done| |done]. destruct m3 as (Hk & Hv & a & Ha & Hck & Hcv).
    rewrite Ha. destruct (same_arena_lookup _ _ _ _ (Har p.1) Ha) as (a' & -> & Hsa).
    do 2 f_equal; f_equal; by eapply comp_valid_arena.
Qed.

(** [s] is [s0] after some calls of [mzcache_offload_arenas], successful or
    not: the layers above [next_layer_to_offload] are on disk, the others keep
    their arenas. *)
Record offloaded (s0 s : kv_state) : Prop := Offloaded {
  of_strip : strip s = strip s0;
  of_next : -1 <= s.(next_layer_to_offload) < s.(num_layers);
  of_kept : ∀ L, ¬ (s.(next_layer_to_offload) < L < s.(num_layers)) →
    Forall2 same_arena (s0.(mem).(arenas) L) (s.(mem).(arenas) L);
  of_gone : ∀ L, s.(next_layer_to_offload) < L < s.(num_layers) →
    s.(mem).(arenas) L = [] ∧
    s.(offload_used_bytes) L = top <$> s0.(mem).(arenas) L ∧
    s.(dsk).(swap_file) L = Some (flat_map img (s0.(mem).(arenas) L));
  of_bytes : s.(next_layer_to_offload) = s.(num_layers) - 1 →
    s.(cnt).(n_cur_arena_offload_bytes) = s0.(cnt).(n_cur_arena_offload_bytes) }.

Definition arenas_ok (s : kv_state) : Prop := ∀ L, Forall (arena_range s.(arena_bytes)) (s.(mem).(arenas) L).

Lemma offloaded_refl s : s.(next_layer_to_offload) = s.(num_layers) - 1 → 0 < s.(num_layers) →
  offloaded s s.
Proof.
  intros Hn HL. split; [done|lia| |lia|done]. intros L _. apply same_arenas_refl.
Qed.

Lemma arena_range_same size a a' : same_arena a a' → arena_range size a → arena_range size a'.
Proof. intros [Ht Hc Hl _] [(H1 & H2 & H3) Hr]. split; [|done]. unfold arena_ok. by rewrite Ht, Hc, Hl. Qed.

Lemma Forall_range_same size l l' : Forall2 same_arena l l' → Forall (arena_range size) l →
  Forall (arena_range size) l'.
Proof.
  induction 1 as [|a a' l l' Ha _ IH]; [done|]. intros [H1 H2]%Forall_cons.
  constructor; [by eapply arena_range_same|auto].
Qed.

Lemma top_same l l' : Forall2 same_arena l l' → top <$> l' = top <$> l.
Proof. induction 1 as [|a a' l l' [Ht _ _ _] _ IH]; [done|]. cbn. by rewrite Ht, IH. Qed.

(** One call of [mzcache_offload_arenas]: never out of an arena's bounds, and
    the state stays [offloaded]; a positive result means a layer left. *)
Lemma offload_arenas_step s0 s : offloaded s0 s → arenas_ok s0 →
  ∃ s' n, mzcache_offload_arenas s = Ok (s', n) ∧ offloaded s0 s' ∧ 0 <= n ∧
    (s'.(next_layer_to_offload) = s.(next_layer_to_offload) ∧ n = 0 ∨
     s'.(next_layer_to_offload) = s.(next_layer_to_offload) - 1 ∧
     s'.(cnt).(n_cur_arena_offload_bytes) = s.(cnt).(n_cur_arena_offload_bytes) + n).
Proof.
  intros Hof Har. pose proof Hof as [Hs Hn Hk Hg Hby]. unfold mzcache_offload_arenas.
  destruct (Z.ltb_spec (next_layer_to_offload s) 0) as [Hneg|Hnn]; [by eexists _, _; eauto 8 using Z.le_refl|].
  set (L := next_layer_to_offload s) in *.
  destruct (odirect_write_ok L); cbn [negb]; [|by eexists _, _; eauto 8 using Z.le_refl].
  assert (Hsame : Forall2 same_arena (arenas (mem s0) L) (arenas (mem s) L)) by (apply Hk; lia).
  assert (Hb : arena_bytes s = arena_bytes s0).
  { unfold strip in Hs. by injection Hs. }
  destruct (offload_loop_spec (arena_bytes s0) L (arenas (mem s) L) [] [] [])
    as (ok & l & f & off & u & Hrun & Hl & Hoff & Hok).
  { by eapply Forall_range_same. }
  change (Z.of_nat (length [])) with 0 in *. cbn [app] in Hl. rewrite Hrun. cbn [obind].
  destruct ok.
  - destruct (Hok eq_refl) as (_ & -> & ->). eexists _, _. split; [reflexivity|]. split; [|split; [done|right; done]].
    split; cbn -[fn_insert].
    + by rewrite <- Hs.
    + lia.
    + intros M HM. rewrite fn_lookup_insert_ne by lia. apply Hk. lia.
    + intros M HM. destruct (decide (L = M)) as [<-|Hne].
      * rewrite !fn_lookup_insert. split; [done|]. cbn [app]. split; [by apply top_same|]. f_equal. by apply imgs_same.
      * rewrite !fn_lookup_insert_ne by done. apply Hg. lia.
    + lia.
  - eexists _, _. split; [reflexivity|]. split; [|split; [done|left; done]].
    split; cbn -[fn_insert].
    + by rewrite <- Hs.
    + done.
    + intros M HM. destruct (decide (L = M)) as [<-|Hne].
      * rewrite fn_lookup_insert. eapply same_arenas_trans; [exact Hsame|exact Hl].
      * rewrite fn_lookup_insert_ne by done. by apply Hk.
    + intros M HM. rewrite !fn_lookup_insert_ne by lia. by apply Hg.
    + done.
Qed.

(** Reloading the layers of a list. *)
Lemma reload_layer_spec s0 s L : preads_ok → odirect_read_ok L = true →
  Forall (arena_range s.(arena_bytes)) (s0.(mem).(arenas) L) →
  s.(mem).(arenas) L = [] → s.(offload_used_bytes) L = top <$> s0.(mem).(arenas) L →
  s.(dsk).(swap_file) L = Some (flat_map img (s0.(mem).(arenas) L)) →
  let s' := reload_layer s L in
  strip s' = strip s ∧ s'.(offload_used_bytes) = s.(offload_used_bytes) ∧
  Forall2 same_arena (s0.(mem).(arenas) L) (s'.(mem).(arenas) L) ∧
  ∀ M, M ≠ L → s'.(mem).(arenas) M = s.(mem).(arenas) M ∧ s'.(dsk).(swap_file) M = s.(dsk).(swap_file) M.
Proof.
  intros Hio Hop Har He Hu Hf. unfold reload_layer. rewrite Hu.
  destruct (arenas (mem s0) L) as [|a l] eqn:El.
  { cbn. split; [done|]. split; [done|]. split; [by rewrite He|done]. }
  rewrite Hop, Hf. set (l0 := a :: l) in *.
  destruct (reload_loop_spec (arena_bytes s) L l0 [] [] Hio Har) as (l' & Hrun & Hl).
  change (Z.of_nat (length [])) with 0 in Hrun. rewrite !app_nil_l in Hrun.
  change (top <$> l0) with (top a :: (top <$> l)) in *. cbv beta iota zeta. rewrite Hrun. cbn [snd].
  split; [done|]. split; [done|]. split.
  - cbn -[fn_insert]. rewrite fn_lookup_insert. exact Hl.
  - intros M HM. cbn -[fn_insert]. by rewrite !fn_lookup_insert_ne.
Qed.

Lemma strip_same s s' : strip s' = strip s →
  s'.(arena_bytes) = s.(arena_bytes) ∧ s'.(num_layers) = s.(num_layers).
Proof. unfold strip. intros [=]. done. Qed.

Lemma reload_fold_spec s0 ls s : preads_ok → (∀ L, odirect_read_ok L = true) → NoDup ls →
  (∀ L, Forall (arena_range s.(arena_bytes)) (s0.(mem).(arenas) L)) →
  (∀ L, L ∈ ls → s.(mem).(arenas) L = [] ∧ s.(offload_used_bytes) L = top <$> s0.(mem).(arenas) L ∧
     s.(dsk).(swap_file) L = Some (flat_map img (s0.(mem).(arenas) L))) →
  let s' := fold_left reload_layer ls s in
  strip s' = strip s ∧
  (∀ L, L ∈ ls → Forall2 same_arena (s0.(mem).(arenas) L) (s'.(mem).(arenas) L)) ∧
  (∀ M, M ∉ ls → s'.(mem).(arenas) M = s.(mem).(arenas) M).
Proof.
  intros Hio Hop Hnd. revert s. induction Hnd as [|L ls HL Hnd IH]; intros s Har Hls; cbn [fold_left].
  - split; [done|]. split; [|done]. intros L HL. by apply elem_of_nil in HL.
  - destruct (Hls L ltac:(apply elem_of_cons; by left)) as (He & Hu & Hf).
    destruct (reload_layer_spec s0 s L Hio (Hop L) (Har L) He Hu Hf) as (H1 & H2 & H3 & H4).
    destruct (strip_same _ _ H1) as [Hb _].
    destruct (IH (reload_layer s L)) as (I1 & I2 & I3).
    + intros M. by rewrite Hb.
    + intros M HM. assert (M ≠ L) as Hne by (intros ->; done). destruct (H4 M Hne) as [-> ->].
      rewrite H2. apply Hls, elem_of_cons. by right.
    + split; [by rewrite I1|]. split.
      * intros M [->|HM]%elem_of_cons; [|by apply I2]. by rewrite I3.
      * intros M [Hne HM]%not_elem_of_cons. rewrite I3 by done. by apply H4.
Qed.

(** What reloading everything gives back. *)
Lemma reload_all_spec s0 s : offloaded s0 s → arenas_ok s0 → preads_ok →
  (∀ L, odirect_read_ok L = true) → 0 < s.(num_layers) →
  let s' := mzcache_reload_all_arenas s in
  similar s0 s' ∧ s'.(next_layer_to_offload) = s.(num_layers) - 1 ∧
  (s'.(cnt).(n_cur_arena_offload_bytes) = 0 ∨
   s.(next_layer_to_offload) = s.(num_layers) - 1 ∧ s' = s).
Proof.
  intros [Hs Hn Hk Hg _] Har Hio Hop HL. unfold mzcache_reload_all_arenas.
  assert (Hstart : (if next_layer_to_offload s <? 0 then 0 else next_layer_to_offload s + 1)
                   = next_layer_to_offload s + 1).
  { destruct (Z.ltb_spec (next_layer_to_offload s) 0); lia. }
  rewrite Hstart. set (st := next_layer_to_offload s + 1).
  destruct (Z.leb_spec (num_layers s) st) as [Hle|Hlt].
  - split; [|split; [lia|right; split; [lia|done]]]. split; [done|]. intros L. apply Hk. lia.
  - destruct (reload_fold_spec s0 (seqZ st (num_layers s - st)) s Hio Hop) as (H1 & H2 & H3).
    + apply NoDup_seqZ.
    + destruct (strip_same _ _ Hs) as [-> _]. exact Har.
    + intros L HL'%elem_of_seqZ. apply Hg. lia.
    + split; [|split; [done|by left]]. split.
      * transitivity (strip (fold_left reload_layer (seqZ st (num_layers s - st)) s)); [done|]. by rewrite H1.
      * intros L. cbn. destruct (decide (L ∈ seqZ st (num_layers s - st))) as [Hin|Hin]; [by apply H2|].
        rewrite H3 by done. apply Hk. rewrite elem_of_seqZ in Hin. lia.
Qed.

(** Offloading repeatedly. *)
Fixpoint offload_n (n : nat) (s : kv_state) : outcome kv_state :=
  match n with O => Ok s | S n => '(s', _) <~ mzcache_offload_arenas s ;; offload_n n s' end.

Lemma offload_n_spec s0 n s : offloaded s0 s → arenas_ok s0 →
  ∃ s', offload_n n s = Ok s' ∧ offloaded s0 s'.
Proof.
  intros Hof Har. revert s Hof. induction n as [|n IH]; intros s Hof; cbn [offload_n]; [by eauto|].
  destruct (offload_arenas_step s0 s Hof Har) as (s' & k & -> & Hof' & _). cbn [obind]. by apply IH.
Qed.

Lemma mem_arenas_ok s : mem_ok s → round_up_4k s.(arena_bytes) = s.(arena_bytes) → arenas_ok s.
Proof.
  intros Hm Hr L. eapply Forall_impl; [apply (mo_arenas _ Hm L)|]. intros a Ha. by split.
Qed.

(** C9: Offloading any number of layers and reloading them all is the identity
    on content: whatever the swap files and their (possibly interrupted, partial
    or failing) writes do, no arena is written out of bounds and, once the reads
    of the reload are answered in full, every chunk reads as before, the memory
    invariant holds again and the bookkeeping is back at its initial value. *)
Theorem offload_reload_roundtrip (n : nat) (s : kv_state) :
  mem_ok s → 0 < s.(num_layers) → round_up_4k s.(arena_bytes) = s.(arena_bytes) →
  s.(next_layer_to_offload) = s.(num_layers) - 1 →
  s.(cnt).(n_cur_arena_offload_bytes) = 0 →
  preads_ok → (∀ L, odirect_read_ok L = true) →
  ∃ s1, offload_n n s = Ok s1 ∧
    let s2 := mzcache_reload_all_arenas s1 in
    mem_ok s2 ∧ (∀ p, in_range s p → view s2 p = view s p) ∧ s2.(tab) = s.(tab) ∧ s2.(cur) = s.(cur) ∧
    s2.(next_layer_to_offload) = s.(num_layers) - 1 ∧ s2.(cnt) = s.(cnt).
Proof.
  intros Hm HL Hr Hn Hb Hio Hop. pose proof (mem_arenas_ok s Hm Hr) as Har.
  destruct (offload_n_spec s n s (offloaded_refl s Hn HL) Har) as (s1 & Hrun & Hof).
  exists s1. split; [done|]. destruct (strip_same _ _ (of_strip _ _ Hof)) as [_ Hnl].
  destruct (reload_all_spec s s1 Hof Har Hio Hop ltac:(lia)) as (Hsim & Hn2 & Hb2).
  destruct (similar_ok _ _ Hsim Hm) as [Hm2 Hv]. cbv zeta. split; [done|]. split; [done|].
  pose proof (sim_strip _ _ Hsim) as Hst. unfold strip in Hst. injection Hst as e1 e2 e3 e4 e5 e6 e7 e8
    e9 e9' e9'' e10. split; [done|]. split; [done|]. split; [by rewrite Hn2, Hnl|].
  assert (Hz : n_cur_arena_offload_bytes (cnt (mzcache_reload_all_arenas s1)) = 0).
  { destruct Hb2 as [?|[Hfull ->]]; [done|]. rewrite (of_bytes _ _ Hof Hfull). done. }
  revert Hz Hb e9 e9' e9''. generalize (cnt (mzcache_reload_all_arenas s1)) (cnt s).
  intros [? ? ? ?] [? ? ? ?]. cbn. intros. by subst.
Qed.
End thms.
