(* ===== verification/KvSwapIn.v ===== *)
(** Swap-in, main-thread side: the functions of [mzcache_kv_state.cpp] that walk
    the swap-out cursors back up and hand one allocation and one read or
    decompression task per chunk to the worker pool, and the clean-up that
    follows.

    What these functions do to the pool is a list of [action]s in program order;
    [KvRestore] runs them against the workers. *)
From Stdlib Require Import Sorting.Sorted.
From S2P Require Import Prelude Floats Profile KvTypes KvPlan KvLadder KvInv KvFrame KvSwapOut.
From S2P Require Import KvSwapOutThms.

(** The tasks of the pool: the bound member functions and their arguments. *)
Inductive task :=
| kv_alloc (p : pos) | kv_read (p : pos) | kv_decomp (p : pos) | free_arenas (L : Z)
| weight_alloc (L : Z) | weight_read (L : Z).
#[export] Instance task_eq_dec : EqDecision task.
Proof. solve_decision. Defined.

Inductive action :=
| Register (p : pos)                     (* core->register_kv_allocation *)
| Enqueue (t : CoreType) (x : task)      (* thread_pool->enqueue *)
| RegisterW (L : Z)                      (* core->register_weight_allocation *)
| WaitAlloc (p : pos)                    (* core->wait_for_kv_allocation *)
| WaitAllocW (L : Z)                     (* core->wait_for_weight_allocation *)
| WaitIdle (t : CoreType)                (* thread_pool->wait_idle *)
| WaitLayer (L : Z)                      (* core->wait_for_layer_sync *)
| Decode                                 (* mzcache::decode_chunk_aligned *)
| CleanAfterDecompress (n : Z)
| CleanAfterRead (n : Z).

Definition alloc_acts (p : pos) : list action := [Register p; Enqueue ALLOC (kv_alloc p)].
Definition decomp_acts (p : pos) : list action := [Enqueue DECOMP (kv_decomp p)].
Definition read_acts (p : pos) : list action := [Enqueue READ (kv_read p)].

(** ** Advancing local copies of the cursors *)

(** One step of the compress cursor: next chunk of the layer's compress region,
    or chunk 0 of the next layer; [None]: ran past the last layer, the cursor
    being left there.  [chunk_bound[-1]] is out of the array. *)
Definition next_comp (cb : Z → Z) (nl : Z) (L C : Z) : outcome (Z * Z * bool) :=
  if L <? 0 then Ub
  else if C + 1 >=? cb L then
    if L + 1 >=? nl then Ok (L + 1, 0, false) else Ok (L + 1, 0, true)
  else Ok (L, C + 1, true).

(** One step of the store cursor ([mzcache_enqueue_kv_alloc_only],
    [mzcache_wait_for_kv] and the enqueueing functions). *)
Definition next_store (cb : Z → Z) (N nl : Z) (L C : Z) : Z * Z * bool :=
  if C + 1 =? N then
    if L + 1 >=? nl then (L + 1, N, false) else (L + 1, cb (L + 1), true)
  else (L, C + 1, true).

(** The step of [mzcache_load_chunks_profile]'s allocation loop, which reads
    [chunk_bound] before advancing the layer. *)
Definition next_store_profile (cb : Z → Z) (N nl : Z) (L C : Z) : Z * Z * bool :=
  if C + 1 =? N then
    if L + 1 >=? nl then (L + 1, cb L, false) else (L + 1, cb L, true)
  else (L, C + 1, true).

(** A loop of [n] steps over local cursors: the chunks visited, the cursor
    reached and whether the walk stayed in range. *)
Fixpoint walk_comp (n : nat) (cb : Z → Z) (nl : Z) (L C : Z) : outcome (list pos * (Z * Z) * bool) :=
  match n with
  | O => Ok ([], (L, C), true)
  | S n => '(L', C', ok) <~ next_comp cb nl L C ;;
           if (ok : bool) then
             '(l, c, ok') <~ walk_comp n cb nl L' C' ;; Ok ((L', C') :: l, c, ok')
           else Ok ([], (L', C'), false)
  end.

Fixpoint walk_store (next : Z → Z → Z * Z * bool) (n : nat) (L C : Z) : list pos * (Z * Z) * bool :=
  match n with
  | O => ([], (L, C), true)
  | S n => let '(L', C', ok) := next L C in
           if ok then let '(l, c, ok') := walk_store next n L' C' in ((L', C') :: l, c, ok')
           else ([], (L', C'), false)
  end.

(** Where the two rules part: with bounds 2 and 1 on layers of 4 chunks, leaving
    layer 0 must continue at chunk 1 of layer 1; the profiler's allocation loop
    continues at chunk 2, so chunk 1 is read without having been allocated. *)
Example profile_walk_differs :
  let cb := λ i, if i =? 0 then 2 else 1 in
  next_store cb 4 2 0 3 = (1, 1, true) ∧ next_store_profile cb 4 2 0 3 = (1, 2, true).
Proof. split; reflexivity. Qed.

Section swapin.
Context `{Cd : Codec} `{Ev : Env}.

(** [open(fn, O_RDONLY | O_DIRECT)]: throws when the file cannot be opened. *)
Definition open_read (L : Z) (d : disk) : outcome disk :=
  match d.(kv_file) L with
  | Some _ => if open_ok L then Ok (Disk d.(kv_file) d.(swap_file) (<[L := FdRead]> d.(layer_fds)))
              else Throw
  | None => Throw
  end.

(** The loops that move the member cursors carry the actions issued so far and
    whether the loop ended normally. *)
Definition enq_state : Type := kv_state * list action * bool.

Definition set_comp_cur (s : kv_state) (L C : Z) : kv_state :=
  set_cur s (Cursors L C s.(cur).(cur_layer_idx_to_store) s.(cur).(cur_chunk_idx_to_store)).
Definition set_store_cur (s : kv_state) (L C : Z) : kv_state :=
  set_cur s (Cursors s.(cur).(cur_layer_idx_to_compress) s.(cur).(cur_chunk_idx_to_compress) L C).

Definition decomp_iter (emit : pos → list action) (st : enq_state) : outcome (step enq_state) :=
  let '(s, acts, _) := st in
  '(L, C, ok) <~ next_comp s.(pln).(chunk_bound) s.(num_layers)
                  s.(cur).(cur_layer_idx_to_compress) s.(cur).(cur_chunk_idx_to_compress) ;;
  let s' := set_comp_cur s L C in
  if (ok : bool) then Ok (Next (s', acts ++ emit (L, C), true))
  else Ok (Break (s', acts, false)).

(** The file of a layer is opened when the cursor enters it. *)
Definition load_iter (emit : pos → list action) (st : enq_state) : outcome (step enq_state) :=
  let '(s, acts, _) := st in
  let L0 := s.(cur).(cur_layer_idx_to_store) in
  let '(L, C, ok) := next_store s.(pln).(chunk_bound) s.(num_chunks_per_tensor) s.(num_layers)
                       L0 s.(cur).(cur_chunk_idx_to_store) in
  let s' := set_store_cur s L C in
  if negb ok then Ok (Break (s', acts, true)) else
  d <~ (if (L =? L0) || negb (bool_decide (s'.(dsk).(layer_fds) L = FdClosed)) then Ok s'.(dsk)
        else open_read L s'.(dsk)) ;;
  Ok (Next (set_dsk s' d, acts ++ emit (L, C), true)).

(** [if (cur_chunk_idx_to_store < num_chunks_per_tensor - 1) open ...]: the
    file of the layer the store cursor stopped in. *)
Definition open_current (s : kv_state) : outcome kv_state :=
  if s.(cur).(cur_chunk_idx_to_store) <? s.(num_chunks_per_tensor) - 1 then
    d <~ open_read s.(cur).(cur_layer_idx_to_store) s.(dsk) ;; Ok (set_dsk s d)
  else Ok s.

Definition load_loop (n : Z) (emit : pos → list action) (st : enq_state) : outcome enq_state :=
  for_loop (Z.to_nat n) (load_iter emit) st.
Definition decomp_loop (n : Z) (emit : pos → list action) (st : enq_state) : outcome enq_state :=
  for_loop (Z.to_nat n) (decomp_iter emit) st.

Definition mzcache_enqueue_decomp_load_chunks (decomp_num_chunks load_num_chunks : Z) (s : kv_state)
    : outcome (kv_state * list action) :=
  s1 <~ open_current s ;;
  '(s2, acts, _) <~ load_loop load_num_chunks (λ p, alloc_acts p ++ read_acts p) (s1, [], true) ;;
  '(s3, acts', _) <~ decomp_loop decomp_num_chunks (λ p, alloc_acts p ++ decomp_acts p)
                      (s2, acts, true) ;;
  Ok (s3, acts').

Definition mzcache_enqueue_load_chunks (load_num_chunks : Z) (s : kv_state)
    : outcome (kv_state * list action) :=
  s1 <~ open_current s ;;
  '(s2, acts, _) <~ load_loop load_num_chunks (λ p, alloc_acts p ++ read_acts p) (s1, [], true) ;;
  Ok (s2, acts).

Definition mzcache_enqueue_decomp_chunks (decomp_num_chunks : Z) (s : kv_state)
    : outcome (kv_state * list action) :=
  '(s1, acts, _) <~ decomp_loop decomp_num_chunks (λ p, alloc_acts p ++ decomp_acts p) (s, [], true) ;;
  Ok (s1, acts).

Definition mzcache_load_chunks (num_chunks : Z) (s : kv_state) : outcome (kv_state * list action) :=
  '(s1, acts) <~ mzcache_enqueue_load_chunks num_chunks s ;;
  Ok (s1, acts ++ [WaitIdle READ; CleanAfterRead num_chunks]).

Definition mzcache_decompress_chunks (num_chunks : Z) (s : kv_state)
    : outcome (kv_state * list action) :=
  '(s1, acts, ok) <~ decomp_loop num_chunks (λ p, alloc_acts p ++ decomp_acts p) (s, [], true) ;;
  Ok (s1, if (ok : bool) then acts ++ [WaitIdle DECOMP; CleanAfterDecompress num_chunks] else acts).

(** All allocations first, on local cursors, then all waits. *)
Definition mzcache_wait_for_kv (decomp_num_chunks load_num_chunks : Z) (s : kv_state)
    : outcome (list action * bool) :=
  let c := s.(cur) in
  let cb := s.(pln).(chunk_bound) in
  '(l1, _, ok1) <~ walk_comp (Z.to_nat decomp_num_chunks) cb s.(num_layers)
                    c.(cur_layer_idx_to_compress) c.(cur_chunk_idx_to_compress) ;;
  if negb (ok1 : bool) then Ok (WaitAlloc <$> l1, false) else
  let '(l2, _, ok2) := walk_store (next_store cb s.(num_chunks_per_tensor) s.(num_layers))
                         (Z.to_nat load_num_chunks)
                         c.(cur_layer_idx_to_store) c.(cur_chunk_idx_to_store) in
  Ok ((WaitAlloc <$> l1) ++ (WaitAlloc <$> l2), ok2).

Definition mzcache_enqueue_kv_alloc_only (decomp_num_chunks load_num_chunks : Z) (s : kv_state)
    : outcome (list action * bool) :=
  let c := s.(cur) in
  let cb := s.(pln).(chunk_bound) in
  '(l1, _, ok1) <~ walk_comp (Z.to_nat decomp_num_chunks) cb s.(num_layers)
                    c.(cur_layer_idx_to_compress) c.(cur_chunk_idx_to_compress) ;;
  if negb (ok1 : bool) then Ok (flat_map alloc_acts l1, false) else
  let '(l2, _, ok2) := walk_store (next_store cb s.(num_chunks_per_tensor) s.(num_layers))
                         (Z.to_nat load_num_chunks)
                         c.(cur_layer_idx_to_store) c.(cur_chunk_idx_to_store) in
  let acts := flat_map alloc_acts l1 ++ flat_map alloc_acts l2 in
  if negb ok2 then Ok (acts, false) else
  '(w, ok3) <~ mzcache_wait_for_kv decomp_num_chunks load_num_chunks s ;;
  Ok (acts ++ w, ok3).

Definition mzcache_enqueue_kv_decomp_read_only (decomp_num_chunks load_num_chunks : Z) (s : kv_state)
    : outcome (kv_state * list action * bool) :=
  '(s1, acts, ok) <~ decomp_loop decomp_num_chunks decomp_acts (s, [], true) ;;
  if negb (ok : bool) then Ok (s1, acts, false) else
  s2 <~ open_current s1 ;;
  '(s3, acts', _) <~ load_loop load_num_chunks read_acts (s2, acts, true) ;;
  Ok (s3, acts', true).

(** Profiling variants: allocations (and waits) on local cursors, then the
    decompressions or reads on the member cursors. *)
Definition mzcache_decompress_chunks_profile (num_chunks : Z) (s : kv_state)
    : outcome (kv_state * list action) :=
  '(l1, _, ok1) <~ walk_comp (Z.to_nat num_chunks) s.(pln).(chunk_bound) s.(num_layers)
                    s.(cur).(cur_layer_idx_to_compress) s.(cur).(cur_chunk_idx_to_compress) ;;
  if negb (ok1 : bool) then Ok (s, flat_map alloc_acts l1) else
  '(s1, acts, _) <~ decomp_loop num_chunks decomp_acts
                     (s, flat_map alloc_acts l1 ++ (WaitAlloc <$> l1), true) ;;
  Ok (s1, acts ++ [WaitIdle DECOMP; CleanAfterDecompress num_chunks]).

Definition mzcache_load_chunks_profile (num_chunks : Z) (s : kv_state)
    : outcome (kv_state * list action) :=
  (* chunk_bound[-1] *)
  if (s.(cur).(cur_layer_idx_to_store) <? 0) && (0 <? num_chunks)
     && (s.(cur).(cur_chunk_idx_to_store) + 1 =? s.(num_chunks_per_tensor)) then Ub else
  let '(l1, _, ok1) := walk_store (next_store_profile s.(pln).(chunk_bound)
                                     s.(num_chunks_per_tensor) s.(num_layers))
                         (Z.to_nat num_chunks)
                         s.(cur).(cur_layer_idx_to_store) s.(cur).(cur_chunk_idx_to_store) in
  if negb ok1 then Ok (s, flat_map alloc_acts l1) else
  s1 <~ open_current s ;;
  '(s2, acts, _) <~ load_loop num_chunks read_acts (s1, flat_map alloc_acts l1, true) ;;
  Ok (s2, acts ++ [WaitIdle READ; CleanAfterRead num_chunks]).

(** ** Clean-up *)

(** The lambda [update_last_used]: the furthest (arena, end) in use. *)
Definition update_last_used (a : Z * Z) (cc : compressed_chunk) : Z * Z :=
  let '(last_stack_id, last_end) := a in
  let chunk_end := cc.(offset) + cc.(comp_size) in
  if (last_stack_id <? cc.(stack_id)) || ((cc.(stack_id) =? last_stack_id) && (last_end <? chunk_end))
  then (cc.(stack_id), chunk_end) else a.

(** Chunk [C] of layer [L] folded into the accumulator. *)
Definition last_used_chunk (t : chunks) (L : Z) (a : Z * Z) (C : Z) : Z * Z :=
  match t.(states) (L, C) with
  | Compressed => update_last_used (update_last_used a (t.(k_comp) (L, C))) (t.(v_comp) (L, C))
  | _ => a
  end.
Definition last_used (t : chunks) (N L : Z) : Z * Z :=
  fold_left (last_used_chunk t L) (seqZ 0 N) (-1, 0).

(** One layer: release everything, or the arenas past the last one in use,
    whose [top] is cut back. *)
Definition clean_layer (t : chunks) (N : Z) (l : list Arena) (L : Z) : list Arena :=
  let '(last_stack_id, last_end) := last_used t N L in
  if last_stack_id <? 0 then []
  else match l with
  | [] => []
  | _ =>
      let max_valid_stack := Z.min last_stack_id (Z.of_nat (length l) - 1) in
      let l' := take (Z.to_nat (max_valid_stack + 1)) l in
      alter (λ a, MkArena a.(pool) last_end a.(cap) a.(svm) a.(locked) a.(locked_bytes))
        (Z.to_nat max_valid_stack) l'
  end.

(** C++ integer division truncates. *)
Definition clean_after_decompress (decomp_chunks : Z) (s : kv_state) : kv_state :=
  if decomp_chunks <=? 0 then s
  else
    let m := s.(mem) in
    let ar := λ L, if (0 <=? L) && (L <? s.(num_layers))
                   then clean_layer s.(tab) s.(num_chunks_per_tensor) (m.(arenas) L) L
                   else m.(arenas) L in
    let c := s.(cnt) in
    let n := c.(n_cur_comp_chunks) in
    let '(n', saved) :=
      if n <? decomp_chunks then (0, c.(n_cur_comp_saved_bytes))
      else (n - decomp_chunks, Z.quot (c.(n_cur_comp_saved_bytes) * (n - decomp_chunks)) n) in
    let saved' := if n' =? 0 then 0 else saved in
    set_cnt (set_mem s (Memory m.(heap) m.(next_block) m.(svm_k) m.(svm_v) ar))
      (Counters n' c.(n_cur_store_chunks) saved' c.(n_cur_arena_offload_bytes)).

Definition clean_after_read (read_chunks : Z) (s : kv_state) : kv_state :=
  let s1 := mzcache_close_stored_files s in
  let c := s.(cnt) in
  set_cnt s1 (Counters c.(n_cur_comp_chunks)
    (if c.(n_cur_store_chunks) <? read_chunks then 0 else c.(n_cur_store_chunks) - read_chunks)
    c.(n_cur_comp_saved_bytes) c.(n_cur_arena_offload_bytes)).

End swapin.

(** ** What the walks visit *)

Definition lex (p q : pos) : Prop := p.1 < q.1 ∨ (p.1 = q.1 ∧ p.2 < q.2).

(** Chunks [lo .. hi-1] of layer [L]. *)
Definition layer_chunks (L lo hi : Z) : list pos := (λ C, (L, C)) <$> seqZ lo (hi - lo).

Lemma layer_chunks_cons L lo hi : lo < hi →
  layer_chunks L lo hi = (L, lo) :: layer_chunks L (lo + 1) hi.
Proof.
  intros. unfold layer_chunks. rewrite seqZ_cons by lia. cbn. f_equal. f_equal.
  f_equal; lia.
Qed.

Lemma layer_chunks_nil L lo hi : hi <= lo → layer_chunks L lo hi = [].
Proof. intros. unfold layer_chunks. by rewrite seqZ_nil by lia. Qed.

Lemma elem_of_layer_chunks L lo hi p :
  p ∈ layer_chunks L lo hi ↔ p.1 = L ∧ lo <= p.2 < hi.
Proof.
  unfold layer_chunks. rewrite list_elem_of_fmap. destruct p as [l c]. cbn. split.
  - intros (x & [= -> ->] & Hx%elem_of_seqZ). lia.
  - intros (-> & H). exists c. rewrite elem_of_seqZ. split; [done|lia].
Qed.

Lemma length_layer_chunks L lo hi : Z.of_nat (length (layer_chunks L lo hi)) = Z.max 0 (hi - lo).
Proof. unfold layer_chunks. rewrite length_fmap, length_seqZ. lia. Qed.

(** The regions [lo i .. hi i - 1] of layers [i .. i+k-1]. *)
Fixpoint regions (lo hi : Z → Z) (i : Z) (k : nat) : list pos :=
  match k with O => [] | S k => layer_chunks i (lo i) (hi i) ++ regions lo hi (i + 1) k end.

Lemma elem_of_regions lo hi i k p :
  p ∈ regions lo hi i k ↔ i <= p.1 < i + Z.of_nat k ∧ lo p.1 <= p.2 < hi p.1.
Proof.
  revert i. induction k as [|k IH]; intros i; cbn [regions].
  - rewrite elem_of_nil. lia.
  - rewrite elem_of_app, elem_of_layer_chunks, IH. split.
    + intros [[<- H]|H]; lia.
    + intros H. destruct (decide (p.1 = i)) as [Heq|]; [left|right]; [|lia].
      rewrite <- Heq. lia.
Qed.

Lemma regions_sorted lo hi i k : StronglySorted lex (regions lo hi i k).
Proof.
  assert (Happ : ∀ l1 l2, StronglySorted lex l1 → StronglySorted lex l2 →
    (∀ p q, p ∈ l1 → q ∈ l2 → lex p q) → StronglySorted lex (l1 ++ l2)).
  { intros l1 l2 H1 H2 H. induction H1 as [|a l Hl IH Ha]; [done|]. simpl. constructor.
    - apply IH. intros p q Hp. apply H. by apply elem_of_cons; right.
    - apply Forall_app; split; [done|]. apply Forall_forall. intros q. apply H. apply elem_of_cons. by left. }
  revert i. induction k as [|k IH]; intros i; cbn [regions]; [constructor|].
  apply Happ; [|apply IH|].
  - unfold layer_chunks. remember (Z.to_nat (hi i - lo i)) as n eqn:En.
    assert (Hgen : ∀ n lo, StronglySorted lex ((λ C, (i, C)) <$> seqZ lo (Z.of_nat n))).
    { clear. induction n as [|n IH]; intros lo; [constructor|].
      rewrite seqZ_cons by lia. cbn. replace (Z.pred (Z.of_nat (S n))) with (Z.of_nat n) by lia.
      constructor; [apply IH|]. apply Forall_forall. intros p (c & -> & Hc%elem_of_seqZ)%list_elem_of_fmap.
      right. cbn. lia. }
    destruct (Z.le_gt_cases 0 (hi i - lo i)).
    + rewrite <- (Z2Nat.id (hi i - lo i)) by lia. apply Hgen.
    + rewrite seqZ_nil by lia. constructor.
  - intros p q [Hp _]%elem_of_layer_chunks [Hq _]%elem_of_regions. left. lia.
Qed.

Lemma length_regions lo hi i k :
  (∀ j, i <= j < i + Z.of_nat k → lo j <= hi j) →
  Z.of_nat (length (regions lo hi i k)) = sum_to (λ j, hi (j + i) - lo (j + i)) k.
Proof.
  revert i. induction k as [|k IH]; intros i H; [done|]. cbn [regions].
  rewrite length_app, Nat2Z.inj_add, length_layer_chunks, IH by (intros; apply H; lia).
  rewrite (sum_to_split _ (S k) 1) by lia. pose proof (H i ltac:(lia)).
  cbn [sum_to]. replace (S k - 1)%nat with k by lia.
  rewrite (sum_to_ext (λ j, hi (j + Z.of_nat 1 + i) - lo (j + Z.of_nat 1 + i))
             (λ j, hi (j + (i + 1)) - lo (j + (i + 1)))).
  - change (Z.of_nat 0 + i) with i. lia.
  - intros j Hj. f_equal; f_equal; lia.
Qed.

Section walks.
Context (cb : Z → Z) (N nl : Z).
Hypothesis Hplan : plan_ok N nl cb.
Hypothesis HN : 0 < N.

(** What lies above a compress cursor, in the order it is decompressed. *)
Definition above_comp (L C : Z) : list pos :=
  layer_chunks L (C + 1) (cb L) ++ regions (λ _, 0) cb (L + 1) (Z.to_nat (nl - (L + 1))).
Definition above_store (L C : Z) : list pos :=
  layer_chunks L (C + 1) N ++ regions cb (λ _, N) (L + 1) (Z.to_nat (nl - (L + 1))).

Lemma regions_split lo hi L : L + 1 < nl →
  regions lo hi (L + 1) (Z.to_nat (nl - (L + 1)))
  = layer_chunks (L + 1) (lo (L + 1)) (hi (L + 1))
    ++ regions lo hi (L + 1 + 1) (Z.to_nat (nl - (L + 1 + 1))).
Proof.
  intros. replace (Z.to_nat (nl - (L + 1))) with (S (Z.to_nat (nl - (L + 1 + 1)))) by lia. done.
Qed.

Lemma regions_end lo hi L : nl <= L + 1 → regions lo hi (L + 1) (Z.to_nat (nl - (L + 1))) = [].
Proof. intros. by replace (Z.to_nat (nl - (L + 1))) with 0%nat by lia. Qed.

(** One step takes the first chunk above the cursor. *)
Lemma next_comp_spec L C p l : 0 <= L < nl → -1 <= C → above_comp L C = p :: l →
  next_comp cb nl L C = Ok (p.1, p.2, true) ∧ above_comp p.1 p.2 = l ∧ 0 <= p.1 < nl ∧ 0 <= p.2.
Proof.
  intros HL HC Ha. unfold next_comp. rewrite (proj2 (Z.ltb_ge _ _)), Z.geb_leb by lia.
  unfold above_comp in Ha. destruct (Z.leb_spec (cb L) (C + 1)) as [Hge|Hlt].
  - rewrite layer_chunks_nil in Ha by lia. cbn [app] in Ha. rewrite Z.geb_leb.
    destruct (Z.leb_spec nl (L + 1)) as [Hend|Hin]; [by rewrite regions_end in Ha by lia|].
    assert (0 < cb (L + 1)) as Hpos.
    { assert (p ∈ regions (λ _, 0) cb (L + 1) (Z.to_nat (nl - (L + 1)))) as Hp
        by (rewrite Ha; apply elem_of_cons; by left).
      apply elem_of_regions in Hp as [Hp1 Hp2].
      destruct (decide (p.1 = L + 1)) as [<-|Hne]; [lia|].
      apply (po_comp_prefix _ _ _ Hplan (L + 1) p.1); lia. }
    rewrite regions_split, layer_chunks_cons in Ha by lia. cbn [app] in Ha.
    injection Ha as <- <-. cbn [fst snd]. split; [done|]. split; [|lia].
    unfold above_comp. done.
  - rewrite layer_chunks_cons in Ha by lia. cbn [app] in Ha. injection Ha as <- <-.
    cbn [fst snd]. split; [done|]. split; [done|lia].
Qed.

Lemma next_store_spec L C p l : 0 <= L < nl → C < N → cb L <= C + 1 → (cb L < N ∨ L = nl - 1) →
  above_store L C = p :: l →
  next_store cb N nl L C = (p.1, p.2, true) ∧ above_store p.1 p.2 = l ∧
  0 <= p.1 < nl ∧ p.2 < N ∧ cb p.1 <= p.2 + 1 ∧ cb p.1 < N.
Proof.
  intros HL HC HC' Hnf Ha. unfold next_store. unfold above_store in Ha.
  destruct (Z.eqb_spec (C + 1) N) as [Heq|Hne].
  - rewrite layer_chunks_nil in Ha by lia. cbn [app] in Ha. rewrite Z.geb_leb.
    destruct (Z.leb_spec nl (L + 1)) as [Hend|Hin]; [by rewrite regions_end in Ha by lia|].
    assert (cb (L + 1) < N) as Hpos.
    { destruct Hnf; [|lia]. apply (po_store_suffix _ _ _ Hplan L (L + 1)); lia. }
    rewrite regions_split, layer_chunks_cons in Ha by lia. cbn [app] in Ha.
    injection Ha as <- <-. cbn [fst snd]. split; [done|]. split; [done|lia].
  - rewrite layer_chunks_cons in Ha by lia. cbn [app] in Ha. injection Ha as <- <-.
    cbn [fst snd]. split; [done|]. split; [done|]. destruct Hnf; lia.
Qed.
End walks.

(** ** The enqueueing loops *)
Section loops.
Context `{Cd : Codec} `{Ev : Env}.

(** The chunks to bring back, in the order they are enqueued. *)
Definition to_decompress (s : kv_state) : list pos :=
  above_comp s.(pln).(chunk_bound) s.(num_layers)
    s.(cur).(cur_layer_idx_to_compress) s.(cur).(cur_chunk_idx_to_compress).
Definition to_load (s : kv_state) : list pos :=
  above_store s.(pln).(chunk_bound) s.(num_chunks_per_tensor) s.(num_layers)
    s.(cur).(cur_layer_idx_to_store) s.(cur).(cur_chunk_idx_to_store).

(** What lies above a cursor, point by point. *)
Lemma elem_of_above_comp cb nl L C p : 0 <= L → -1 <= C →
  p ∈ above_comp cb nl L C ↔
  0 <= p.1 < nl ∧ 0 <= p.2 < cb p.1 ∧ passed L C p = true ∨
  p.1 = L ∧ nl <= L ∧ C < p.2 < cb L.
Proof.
  intros HL HC. unfold above_comp. rewrite elem_of_app, elem_of_layer_chunks, elem_of_regions.
  unfold passed. rewrite orb_true_iff, andb_true_iff, !Z.ltb_lt, Z.eqb_eq. split.
  - intros [[<- H]|H].
    + destruct (Z.lt_ge_cases p.1 nl); [left|right]; lia.
    + left. lia.
  - intros [(H1 & H2 & [H3|[H3 H4]])|(<- & H)].
    + right. rewrite Z2Nat.id by lia. lia.
    + left. rewrite H3. lia.
    + left. lia.
Qed.

Lemma elem_of_above_store cb N nl L C p : 0 <= L → cb L <= C + 1 →
  p ∈ above_store cb N nl L C ↔
  0 <= p.1 < nl ∧ cb p.1 <= p.2 < N ∧ passed L C p = true ∨
  p.1 = L ∧ nl <= L ∧ C < p.2 < N.
Proof.
  intros HL HC. unfold above_store. rewrite elem_of_app, elem_of_layer_chunks, elem_of_regions.
  unfold passed. rewrite orb_true_iff, andb_true_iff, !Z.ltb_lt, Z.eqb_eq. split.
  - intros [[<- H]|H].
    + destruct (Z.lt_ge_cases p.1 nl); [left|right]; lia.
    + left. lia.
  - intros [(H1 & H2 & [H3|[H3 H4]])|(<- & H)].
    + right. rewrite Z2Nat.id by lia. lia.
    + left. rewrite H3. lia.
    + left. lia.
Qed.

Lemma elem_of_to_decompress s p : ladder_ok s → tidy s →
  p ∈ to_decompress s ↔ in_range s p ∧ s.(tab).(states) p = Compressed.
Proof.
  intros Hl [Hc _ _]. destruct (ladder_ccur s Hl) as (HL & HC & HC').
  unfold to_decompress. rewrite elem_of_above_comp by lia. split.
  - intros [(Hp1 & Hp2 & Hpass)|]; [|lia]. pose proof (ladder_bounds s Hl p.1 Hp1).
    assert (in_range s p) as Hin by (split; lia). split; [done|].
    rewrite (lo_states _ Hl), expected_state_passed by done.
    by rewrite (proj2 (Z.ltb_lt _ _)), Hpass by lia.
  - intros [Hin Hst]. left. rewrite (lo_states _ Hl), expected_state_passed in Hst by done.
    destruct Hin. destruct (Z.ltb_spec p.2 (chunk_bound (pln s) p.1)).
    + destruct (passed _ _ p); [|done]. repeat split; (done || lia).
    + by destruct (passed _ _ p).
Qed.

Lemma elem_of_to_load s p : ladder_ok s → tidy s →
  p ∈ to_load s ↔ in_range s p ∧ s.(tab).(states) p = Stored.
Proof.
  intros Hl [_ Hs _]. destruct (ladder_scur s Hl) as (HL & HC & HC'). specialize (HC' Hs).
  unfold to_load. rewrite elem_of_above_store by lia. split.
  - intros [(Hp1 & Hp2 & Hpass)|]; [|lia]. pose proof (ladder_bounds s Hl p.1 Hp1).
    assert (in_range s p) as Hin by (split; lia). split; [done|].
    rewrite (lo_states _ Hl), expected_state_passed by done.
    by rewrite (proj2 (Z.ltb_ge _ _)), Hpass by lia.
  - intros [Hin Hst]. left. rewrite (lo_states _ Hl), expected_state_passed in Hst by done.
    destruct Hin. destruct (Z.ltb_spec p.2 (chunk_bound (pln s) p.1)).
    + by destruct (passed _ _ p).
    + destruct (passed _ _ p); [|done]. repeat split; (done || lia).
Qed.

Lemma above_sorted L (lo hi : Z → Z) a b k :
  StronglySorted lex (layer_chunks L a b ++ regions lo hi (L + 1) k).
Proof.
  pose proof (regions_sorted (λ i, if i =? L then a else lo i)
                  (λ i, if i =? L then b else hi i) L (S k)) as H.
  cbn [regions] in H. rewrite Z.eqb_refl in H.
  assert (Hext : ∀ k i, L < i → regions (λ i, if i =? L then a else lo i)
                  (λ i, if i =? L then b else hi i) i k = regions lo hi i k).
  { clear. induction k as [|k IH]; intros i Hi; cbn [regions]; [done|].
    rewrite (proj2 (Z.eqb_neq i L)), IH by lia. done. }
  by rewrite Hext in H by lia.
Qed.

Lemma length_above_comp cb nl L C : 0 <= L < nl → C < cb L →
  (∀ i, 0 <= i < nl → 0 <= cb i) →
  Z.of_nat (length (above_comp cb nl L C))
  = sum_to cb (Z.to_nat nl) - (sum_to cb (Z.to_nat L) + (C + 1)).
Proof.
  intros HL HC Hcb. unfold above_comp.
  rewrite length_app, Nat2Z.inj_add, length_layer_chunks, length_regions by (intros; apply Hcb; lia).
  rewrite (sum_to_split cb (Z.to_nat nl) (Z.to_nat (L + 1))) by lia.
  rewrite (sum_to_pred cb (L + 1)) by lia. replace (L + 1 - 1) with L by lia.
  rewrite (sum_to_ext (λ j, cb (j + (L + 1)) - 0) (λ i, cb (i + Z.of_nat (Z.to_nat (L + 1))))).
  - replace (Z.to_nat (nl - (L + 1))) with (Z.to_nat nl - Z.to_nat (L + 1))%nat by lia. lia.
  - intros j Hj. rewrite Z2Nat.id by lia. lia.
Qed.

Lemma length_above_store cb N nl L C : 0 <= L < nl → C < N → (∀ i, 0 <= i < nl → cb i <= N) →
  Z.of_nat (length (above_store cb N nl L C))
  = sum_to (λ i, N - cb i) (Z.to_nat nl) - (sum_to (λ i, N - cb i) (Z.to_nat L) + (C - cb L + 1)).
Proof.
  intros HL HC Hcb. unfold above_store. set (f := λ i, N - cb i).
  rewrite length_app, Nat2Z.inj_add, length_layer_chunks, length_regions by (intros; apply Hcb; lia).
  rewrite (sum_to_split f (Z.to_nat nl) (Z.to_nat (L + 1))) by lia.
  rewrite (sum_to_pred f (L + 1)) by lia. replace (L + 1 - 1) with L by lia.
  assert (f L = N - cb L) as -> by done.
  rewrite (sum_to_ext (λ j, N - cb (j + (L + 1))) (λ i, f (i + Z.of_nat (Z.to_nat (L + 1))))).
  - replace (Z.to_nat (nl - (L + 1))) with (Z.to_nat nl - Z.to_nat (L + 1))%nat by lia. lia.
  - intros j Hj. unfold f. do 2 f_equal. lia.
Qed.

Lemma length_to_decompress s : ladder_ok s → tidy s →
  Z.of_nat (length (to_decompress s)) = s.(cnt).(n_cur_comp_chunks).
Proof.
  intros Hl [Hc _ _]. destruct (ladder_ccur s Hl) as (HL & HC & HC').
  rewrite (proj2 (Z.ltb_ge _ _) Hc) in HC'. rewrite (lo_ncomp _ Hl), (lo_maxc _ Hl).
  unfold to_decompress, comp_rem. rewrite length_above_comp; [done|lia|lia|].
  intros i Hi. by apply (ladder_bounds s Hl).
Qed.

Lemma length_to_load s : ladder_ok s → tidy s →
  Z.of_nat (length (to_load s)) = s.(cnt).(n_cur_store_chunks).
Proof.
  intros Hl [_ Hs _]. destruct (ladder_scur s Hl) as (HL & HC & HC').
  rewrite (lo_nstore _ Hl), (lo_maxs _ Hl).
  unfold to_load, store_rem. rewrite (proj2 (Z.ltb_ge _ _) Hs), length_above_store; [done|lia|lia|].
  intros i Hi. by apply (ladder_bounds s Hl).
Qed.

(** The decompress loop over all the chunks above the cursor. *)
Lemma decomp_loop_spec emit n s acts :
  plan_ok s.(num_chunks_per_tensor) s.(num_layers) s.(pln).(chunk_bound) →
  0 <= s.(cur).(cur_layer_idx_to_compress) < s.(num_layers) →
  -1 <= s.(cur).(cur_chunk_idx_to_compress) →
  (n <= length (to_decompress s))%nat →
  ∃ L C, for_loop n (decomp_iter emit) (s, acts, true) =
      Ok (set_comp_cur s L C, acts ++ flat_map emit (take n (to_decompress s)), true) ∧
    to_decompress (set_comp_cur s L C) = drop n (to_decompress s) ∧ 0 <= L < s.(num_layers) ∧
    ((L, C) = (s.(cur).(cur_layer_idx_to_compress), s.(cur).(cur_chunk_idx_to_compress)) ∨
     (L, C) ∈ to_decompress s).
Proof.
  intros Hplan. revert s Hplan acts. induction n as [|n IH]; intros s Hplan acts HL HC Hn.
  - exists s.(cur).(cur_layer_idx_to_compress), s.(cur).(cur_chunk_idx_to_compress).
    cbn [for_loop take flat_map]. rewrite app_nil_r, drop_0.
    assert (set_comp_cur s (cur_layer_idx_to_compress (cur s)) (cur_chunk_idx_to_compress (cur s)) = s)
      as -> by (by destruct s as [? ? ? ? ? ? ? [] ? ? ? ? ? ? ?]).
    split; [done|]. split; [done|]. split; [done|by left].
  - destruct (to_decompress s) as [|p l] eqn:Ha; [simpl in Hn; lia|].
    destruct (next_comp_spec _ _ _ Hplan _ _ p l HL HC Ha) as (Hnext & Habove & Hp1 & Hp2).
    cbn [for_loop]. unfold decomp_iter at 1. rewrite Hnext. cbn [obind].
    destruct (IH (set_comp_cur s p.1 p.2) Hplan (acts ++ emit (p.1, p.2))) as (L & C & Hrun & Hrest & HL' & Hlast).
    + done.
    + cbn. lia.
    + unfold to_decompress. cbn. rewrite Habove. simpl in Hn. lia.
    + exists L, C. unfold to_decompress at 1 in Hrun. cbn in Hrun. rewrite Habove in Hrun.
      destruct p as [pl pc]. cbn [fst snd] in *. rewrite Hrun. split; [|split; [|split; [done|]]].
      * cbn [take flat_map]. by rewrite <- app_assoc.
      * change (to_decompress (set_comp_cur s L C)) with
          (to_decompress (set_comp_cur (set_comp_cur s pl pc) L C)). rewrite Hrest.
        unfold to_decompress. cbn. by rewrite Habove.
      * right. destruct Hlast as [Heq|Hin]; [cbn in Heq; rewrite Heq; apply elem_of_cons; by left|].
        unfold to_decompress in Hin. cbn in Hin. rewrite Habove in Hin. apply elem_of_cons. by right.
Qed.

(** Reading descriptors: the layer the cursor stands inside is open for
    reading, and no other descriptor is open for writing. *)
Definition read_fds (s : kv_state) : Prop :=
  (∀ i, s.(dsk).(layer_fds) i ≠ FdWrite) ∧
  (s.(cur).(cur_chunk_idx_to_store) + 1 < s.(num_chunks_per_tensor) →
   s.(dsk).(layer_fds) s.(cur).(cur_layer_idx_to_store) = FdRead).

Lemma load_iter_spec emit s acts p l :
  plan_ok s.(num_chunks_per_tensor) s.(num_layers) s.(pln).(chunk_bound) →
  0 <= s.(cur).(cur_layer_idx_to_store) < s.(num_layers) →
  s.(cur).(cur_chunk_idx_to_store) < s.(num_chunks_per_tensor) →
  s.(pln).(chunk_bound) s.(cur).(cur_layer_idx_to_store) <= s.(cur).(cur_chunk_idx_to_store) + 1 →
  s.(pln).(chunk_bound) s.(cur).(cur_layer_idx_to_store) < s.(num_chunks_per_tensor)
    ∨ s.(cur).(cur_layer_idx_to_store) = s.(num_layers) - 1 →
  (∀ L, open_ok L = true) → is_Some (s.(dsk).(kv_file) p.1) → read_fds s →
  to_load s = p :: l →
  ∃ d, load_iter emit (s, acts, true) =
      Ok (Next (set_dsk (set_store_cur s p.1 p.2) d, acts ++ emit p, true)) ∧
    to_load (set_dsk (set_store_cur s p.1 p.2) d) = l ∧ read_fds (set_dsk (set_store_cur s p.1 p.2) d) ∧
    0 <= p.1 < s.(num_layers) ∧ p.2 < s.(num_chunks_per_tensor) ∧
    s.(pln).(chunk_bound) p.1 <= p.2 + 1 ∧ s.(pln).(chunk_bound) p.1 < s.(num_chunks_per_tensor) ∧
    d.(kv_file) = s.(dsk).(kv_file) ∧ d.(swap_file) = s.(dsk).(swap_file) ∧
    d.(layer_fds) p.1 = FdRead ∧
    (∀ i, s.(dsk).(layer_fds) i = FdRead → d.(layer_fds) i = FdRead) ∧
    (∀ i, i ≠ p.1 → d.(layer_fds) i = s.(dsk).(layer_fds) i).
Proof.
  intros Hplan HL HC HCb Hnf Hopen [f Hf] [Hnw Hcur] Ha.
  destruct (next_store_spec _ _ _ Hplan _ _ p l HL HC HCb Hnf Ha)
    as (Hnext & Habove & Hp1 & Hp2 & Hp3 & Hp4).
  unfold load_iter. rewrite Hnext. cbn [negb].
  assert (Hkeep : s.(dsk).(layer_fds) p.1 = FdRead →
    ∃ d, (if (p.1 =? s.(cur).(cur_layer_idx_to_store))
            || negb (bool_decide (s.(dsk).(layer_fds) p.1 = FdClosed))
          then Ok s.(dsk) else open_read p.1 s.(dsk)) = Ok d ∧ d = s.(dsk)).
  { intros E. exists s.(dsk). rewrite E, bool_decide_eq_false_2 by done. by rewrite orb_true_r. }
  assert (Hdec : s.(dsk).(layer_fds) p.1 = FdRead ∨
    (s.(dsk).(layer_fds) p.1 = FdClosed ∧ p.1 ≠ s.(cur).(cur_layer_idx_to_store))).
  { destruct (layer_fds (dsk s) p.1) eqn:E; [right|by left|by destruct (Hnw p.1)].
    split; [done|]. intros Heq. unfold next_store in Hnext. revert Hnext.
    destruct (Z.eqb_spec (cur_chunk_idx_to_store (cur s) + 1) (num_chunks_per_tensor s)).
    - destruct (_ >=? _); intros [= ? ?]; lia.
    - intros _. rewrite Heq in E. rewrite Hcur in E by lia. done. }
  destruct Hdec as [Hr|[Hc Hne]].
  - destruct (Hkeep Hr) as (d & Hd & ->). cbn [dsk set_store_cur set_cur].
    rewrite Hd. cbn [obind]. exists s.(dsk). destruct p as [pl pc]. cbn [fst snd] in *.
    repeat split; try done; try lia.
  - cbn [dsk set_store_cur set_cur]. rewrite Hc, (proj2 (Z.eqb_neq _ _) Hne).
    rewrite bool_decide_eq_true_2 by done. cbn [orb negb]. unfold open_read. rewrite Hf, Hopen.
    cbn [obind]. destruct p as [pl pc]. cbn [fst snd] in *. eexists.
    split; [reflexivity|]. split; [done|]. split; [split|].
    + intros i. cbn. destruct (decide (pl = i)) as [->|?];
        [by rewrite fn_lookup_insert | by rewrite fn_lookup_insert_ne].
    + intros _. cbn. apply fn_lookup_insert.
    + repeat split; try done; try lia; cbn; [apply fn_lookup_insert| |].
      * intros i Hi. rewrite fn_lookup_insert_ne; [done|]. intros ->. congruence.
      * intros i Hi. by rewrite fn_lookup_insert_ne.
Qed.

Lemma load_loop_spec emit n s acts :
  plan_ok s.(num_chunks_per_tensor) s.(num_layers) s.(pln).(chunk_bound) →
  0 <= s.(cur).(cur_layer_idx_to_store) < s.(num_layers) →
  s.(cur).(cur_chunk_idx_to_store) < s.(num_chunks_per_tensor) →
  s.(pln).(chunk_bound) s.(cur).(cur_layer_idx_to_store) <= s.(cur).(cur_chunk_idx_to_store) + 1 →
  s.(pln).(chunk_bound) s.(cur).(cur_layer_idx_to_store) < s.(num_chunks_per_tensor)
    ∨ s.(cur).(cur_layer_idx_to_store) = s.(num_layers) - 1 →
  (∀ L, open_ok L = true) → (∀ p, p ∈ to_load s → is_Some (s.(dsk).(kv_file) p.1)) → read_fds s →
  (n <= length (to_load s))%nat →
  ∃ L C d, for_loop n (load_iter emit) (s, acts, true) =
      Ok (set_dsk (set_store_cur s L C) d, acts ++ flat_map emit (take n (to_load s)), true) ∧
    to_load (set_dsk (set_store_cur s L C) d) = drop n (to_load s) ∧
    d.(kv_file) = s.(dsk).(kv_file) ∧ d.(swap_file) = s.(dsk).(swap_file) ∧
    (∀ i, d.(layer_fds) i ≠ FdWrite) ∧
    (∀ i, s.(dsk).(layer_fds) i = FdRead → d.(layer_fds) i = FdRead) ∧
    (∀ p, p ∈ take n (to_load s) → d.(layer_fds) p.1 = FdRead) ∧
    ((L, C) = (s.(cur).(cur_layer_idx_to_store), s.(cur).(cur_chunk_idx_to_store)) ∨
     (L, C) ∈ to_load s) ∧
    (∀ i, ¬ (0 <= i < s.(num_layers)) → d.(layer_fds) i = s.(dsk).(layer_fds) i).
Proof.
  revert s acts. induction n as [|n IH]; intros s acts Hplan HL HC HCb Hnf Hopen Hfile Hrf Hn.
  - exists s.(cur).(cur_layer_idx_to_store), s.(cur).(cur_chunk_idx_to_store), s.(dsk).
    cbn [for_loop take flat_map]. rewrite app_nil_r, drop_0.
    assert (set_dsk (set_store_cur s (cur_layer_idx_to_store (cur s)) (cur_chunk_idx_to_store (cur s)))
              (dsk s) = s) as -> by (by destruct s as [? ? ? ? ? ? ? [] ? ? ? ? ? ? ?]).
    repeat split; try done; [apply Hrf| |by left]. intros p Hp. by apply elem_of_nil in Hp.
  - destruct (to_load s) as [|p l] eqn:Ha; [simpl in Hn; lia|].
    destruct (load_iter_spec emit s acts p l Hplan HL HC HCb Hnf Hopen) as
      (d & Hit & Hl & Hrf1 & Hp1 & Hp2 & Hp3 & Hp4 & Hkf & Hsf & Hfd & Hkeep & Hoth); try done.
    { apply Hfile. apply elem_of_cons. by left. }
    cbn [for_loop]. rewrite Hit. cbn [obind].
    destruct (IH (set_dsk (set_store_cur s p.1 p.2) d) (acts ++ emit p))
      as (L & C & d' & Hrun & Hrest & Hkf' & Hsf' & Hnw' & Hkeep' & Hfd' & Hlast & Hout); try done.
    + by left.
    + intros q Hq. cbn. rewrite Hkf. apply Hfile. rewrite Hl in Hq. apply elem_of_cons. by right.
    + rewrite Hl. simpl in Hn. lia.
    + exists L, C, d'. rewrite Hl in Hrun, Hfd', Hrest, Hlast. rewrite Hrun.
      cbn [take flat_map drop]. rewrite <- app_assoc.
      change (set_dsk (set_store_cur (set_dsk (set_store_cur s p.1 p.2) d) L C) d')
        with (set_dsk (set_store_cur s L C) d') in *.
      split; [done|]. split; [exact Hrest|]. split; [by rewrite Hkf'|]. split; [by rewrite Hsf'|].
      split; [done|]. split; [by auto|]. split; [intros q [->|Hq]%elem_of_cons; [by apply Hkeep'|by apply Hfd']|].
      split; [right; apply elem_of_cons; destruct Hlast as [Heq|Hin];
        [left; cbn in Heq; rewrite Heq; by destruct p|by right]|].
      intros i Hi. rewrite (Hout i Hi). cbn. apply Hoth. lia.
Qed.

(** The actions of a full swap-in. *)
Definition swapin_actions (s : kv_state) : list action :=
  flat_map (λ p, alloc_acts p ++ read_acts p) (to_load s)
  ++ flat_map (λ p, alloc_acts p ++ decomp_acts p) (to_decompress s).

Lemma stored_has_file s p : mem_ok s → in_range s p → s.(tab).(states) p = Stored →
  is_Some (s.(dsk).(kv_file) p.1).
Proof.
  intros Hm Hin Hst. pose proof (mo_chunks _ Hm p Hin) as Hc. unfold chunk_ok in Hc.
  rewrite Hst in Hc. destruct Hc as (_ & _ & f & -> & _). eauto.
Qed.

Lemma open_current_spec s : ladder_ok s → mem_ok s → tidy s → (∀ L, open_ok L = true) →
  (∀ i, s.(dsk).(layer_fds) i = FdClosed) →
  ∃ d, open_current s = Ok (set_dsk s d) ∧ d.(kv_file) = s.(dsk).(kv_file) ∧
    d.(swap_file) = s.(dsk).(swap_file) ∧ read_fds (set_dsk s d) ∧
    (∀ i, ¬ (0 <= i < s.(num_layers)) → d.(layer_fds) i = s.(dsk).(layer_fds) i).
Proof.
  intros Hl Hm Ht Hopen Hcl. unfold open_current.
  destruct (Z.ltb_spec (cur_chunk_idx_to_store (cur s)) (num_chunks_per_tensor s - 1)) as [Hlt|Hge].
  - destruct (ladder_scur s Hl) as (HL & HC & HC'). specialize (HC' (ti_store _ Ht)).
    assert (Hp : (s.(cur).(cur_layer_idx_to_store), s.(cur).(cur_chunk_idx_to_store) + 1) ∈ to_load s).
    { unfold to_load, above_store. rewrite layer_chunks_cons by lia. apply elem_of_cons. by left. }
    apply (elem_of_to_load s _ Hl Ht) in Hp as [Hin Hst].
    destruct (stored_has_file s _ Hm Hin Hst) as [f Hf]. cbn [fst] in Hf.
    unfold open_read. rewrite Hf, Hopen. cbn [obind]. eexists. split; [reflexivity|].
    split; [done|]. split; [done|].
    split; [|intros i Hi; cbn; pose proof (ti_store _ Ht); rewrite fn_lookup_insert_ne; [done|lia]].
    split; [|intros _; cbn; apply fn_lookup_insert].
    intros i. cbn. destruct (decide (s.(cur).(cur_layer_idx_to_store) = i)) as [->|?];
      [by rewrite fn_lookup_insert | by rewrite fn_lookup_insert_ne, Hcl].
  - exists s.(dsk). assert (set_dsk s (dsk s) = s) as -> by (by destruct s).
    split; [done|]. split; [done|]. split; [done|].
    split; [|done]. split; [intros i; by rewrite Hcl|]. lia.
Qed.

(** The cursors and descriptors once everything has been enqueued: nothing is
    left above the cursors, which stand where they were or at a restored chunk. *)
Record fetched (s : kv_state) (c : cursors) (d : disk) : Prop := Fetched {
  fe_load : to_load (set_dsk (set_cur s c) d) = [];
  fe_decomp : to_decompress (set_dsk (set_cur s c) d) = [];
  fe_file : d.(kv_file) = s.(dsk).(kv_file);
  fe_swap : d.(swap_file) = s.(dsk).(swap_file);
  fe_fds : ∀ p, p ∈ to_load s → d.(layer_fds) p.1 = FdRead;
  fe_ccur : (c.(cur_layer_idx_to_compress), c.(cur_chunk_idx_to_compress))
            = (s.(cur).(cur_layer_idx_to_compress), s.(cur).(cur_chunk_idx_to_compress))
            ∨ (c.(cur_layer_idx_to_compress), c.(cur_chunk_idx_to_compress)) ∈ to_decompress s;
  fe_scur : (c.(cur_layer_idx_to_store), c.(cur_chunk_idx_to_store))
            = (s.(cur).(cur_layer_idx_to_store), s.(cur).(cur_chunk_idx_to_store))
            ∨ (c.(cur_layer_idx_to_store), c.(cur_chunk_idx_to_store)) ∈ to_load s;
  fe_out : ∀ i, ¬ (0 <= i < s.(num_layers)) → d.(layer_fds) i = s.(dsk).(layer_fds) i }.

Lemma enqueue_full s : ladder_ok s → mem_ok s → tidy s → (∀ L, open_ok L = true) →
  (∀ i, s.(dsk).(layer_fds) i = FdClosed) →
  ∃ c d, mzcache_enqueue_decomp_load_chunks s.(cnt).(n_cur_comp_chunks) s.(cnt).(n_cur_store_chunks) s
      = Ok (set_dsk (set_cur s c) d, swapin_actions s) ∧ fetched s c d.
Proof.
  intros Hl Hm Ht Hopen Hcl. unfold mzcache_enqueue_decomp_load_chunks.
  destruct (open_current_spec s Hl Hm Ht Hopen Hcl) as (d1 & -> & Hkf1 & Hsf1 & Hrf1 & Hout1). cbn [obind].
  destruct (ladder_ccur s Hl) as (HcL & HcC & _). pose proof (ti_comp _ Ht).
  destruct (ladder_scur s Hl) as (HsL & HsC & HsC'). specialize (HsC' (ti_store _ Ht)).
  rewrite <- (length_to_load s Hl Ht), <- (length_to_decompress s Hl Ht).
  unfold load_loop, decomp_loop. rewrite !Nat2Z.id.
  destruct (load_loop_spec (λ p, alloc_acts p ++ read_acts p) (length (to_load s)) (set_dsk s d1) [])
    as (L & C & d2 & -> & Hr2 & Hkf2 & Hsf2 & Hnw2 & Hk2 & Hfd2 & Hlast2 & Hout2); try done.
  { apply Hl. } { cbn. pose proof (ti_store _ Ht). lia. } { cbn. lia. } { apply Ht. }
  { intros p Hp. cbn. rewrite Hkf1. apply (elem_of_to_load s p Hl Ht) in Hp as [? ?].
    by apply (stored_has_file s p). }
  cbn [obind app]. set (s2 := set_dsk _ d2) in *.
  destruct (decomp_loop_spec (λ p, alloc_acts p ++ decomp_acts p) (length (to_decompress s)) s2
              (flat_map (λ p, alloc_acts p ++ read_acts p) (take (length (to_load s)) (to_load (set_dsk s d1))))
              (lo_plan _ Hl) ltac:(cbn; lia) ltac:(cbn; lia) (le_n _))
    as (L' & C' & -> & Hr3 & _ & Hlast3).
  cbn [obind]. change (to_load (set_dsk s d1)) with (to_load s) in *.
  change (to_decompress s2) with (to_decompress s) in *.
  rewrite !firstn_all in *. rewrite !drop_all in *.
  exists (Cursors L' C' L C), d2. split; [done|].
  split; [exact Hr2|exact Hr3|by rewrite Hkf2|by rewrite Hsf2|exact Hfd2|exact Hlast3|exact Hlast2|].
  intros i Hi. rewrite (Hout2 i Hi). by apply Hout1.
Qed.

Lemma to_decompress_sorted s : StronglySorted lex (to_decompress s).
Proof. apply above_sorted. Qed.
Lemma to_load_sorted s : StronglySorted lex (to_load s).
Proof. apply above_sorted. Qed.

(** After a swap-out that never asked for more than the plan had,
    [mzcache_enqueue_decomp_load_chunks] with the full counts issues exactly one
    allocation and one read for every stored chunk and one allocation and one
    decompression for every compressed chunk, each group in ascending (layer,
    chunk) order, opens the file of every layer it reads from, and leaves both
    cursors at the top: nothing is skipped, nothing is restored twice. *)
Theorem enqueue_decomp_load_exact (s : kv_state) :
  ladder_ok s → mem_ok s → tidy s → (∀ L, open_ok L = true) →
  (∀ i, s.(dsk).(layer_fds) i = FdClosed) →
  ∃ c d loads decomps,
    mzcache_enqueue_decomp_load_chunks s.(cnt).(n_cur_comp_chunks) s.(cnt).(n_cur_store_chunks) s
      = Ok (set_dsk (set_cur s c) d,
            flat_map (λ p, alloc_acts p ++ read_acts p) loads
            ++ flat_map (λ p, alloc_acts p ++ decomp_acts p) decomps) ∧
    StronglySorted lex loads ∧ StronglySorted lex decomps ∧
    (∀ p, p ∈ loads ↔ in_range s p ∧ s.(tab).(states) p = Stored) ∧
    (∀ p, p ∈ decomps ↔ in_range s p ∧ s.(tab).(states) p = Compressed) ∧
    (∀ p, p ∈ loads → d.(layer_fds) p.1 = FdRead) ∧
    to_load (set_dsk (set_cur s c) d) = [] ∧ to_decompress (set_dsk (set_cur s c) d) = [].
Proof.
  intros Hl Hm Ht Hopen Hcl.
  destruct (enqueue_full s Hl Hm Ht Hopen Hcl) as (c & d & Hrun & [H1 H2 _ _ Hfd _ _ _]).
  exists c, d, (to_load s), (to_decompress s). split; [exact Hrun|].
  split; [apply to_load_sorted|]. split; [apply to_decompress_sorted|].
  split; [intros p; by apply elem_of_to_load|]. split; [intros p; by apply elem_of_to_decompress|].
  done.
Qed.

(** The walks over local cursors visit the same chunks. *)
Lemma walk_comp_spec s : ladder_ok s → tidy s →
  ∃ c, walk_comp (length (to_decompress s)) s.(pln).(chunk_bound) s.(num_layers)
         s.(cur).(cur_layer_idx_to_compress) s.(cur).(cur_chunk_idx_to_compress)
       = Ok (to_decompress s, c, true).
Proof.
  intros Hl Ht. destruct (ladder_ccur s Hl) as (HL & HC & _). pose proof (ti_comp _ Ht).
  unfold to_decompress. set (cb := chunk_bound (pln s)).
  assert (Hgen : ∀ l L C, above_comp cb s.(num_layers) L C = l → 0 <= L < s.(num_layers) → -1 <= C →
    ∃ c, walk_comp (length l) cb s.(num_layers) L C = Ok (l, c, true)).
  { induction l as [|p l IH]; intros L C Ha HL' HC'; [by exists (L, C)|].
    destruct (next_comp_spec cb _ _ (lo_plan _ Hl) L C p l HL' HC' Ha) as (Hn & Ha' & Hp1 & Hp2).
    cbn [length walk_comp]. rewrite Hn. cbn [obind].
    destruct (IH p.1 p.2 Ha' Hp1 ltac:(lia)) as (c & ->). exists c. by destruct p. }
  apply Hgen; (done || lia).
Qed.

Lemma walk_store_spec s : ladder_ok s → tidy s →
  ∃ c, walk_store (next_store s.(pln).(chunk_bound) s.(num_chunks_per_tensor) s.(num_layers))
         (length (to_load s)) s.(cur).(cur_layer_idx_to_store) s.(cur).(cur_chunk_idx_to_store)
       = (to_load s, c, true).
Proof.
  intros Hl Ht. destruct (ladder_scur s Hl) as (HL & HC & HC'). specialize (HC' (ti_store _ Ht)).
  pose proof (ti_store _ Ht). unfold to_load. set (cb := chunk_bound (pln s)).
  set (N := num_chunks_per_tensor s).
  assert (Hgen : ∀ l L C, above_store cb N s.(num_layers) L C = l → 0 <= L < s.(num_layers) →
    C < N → cb L <= C + 1 → (cb L < N ∨ L = s.(num_layers) - 1) →
    ∃ c, walk_store (next_store cb N s.(num_layers)) (length l) L C = (l, c, true)).
  { induction l as [|p l IH]; intros L C Ha HL' HC1 HC2 Hnf; [by exists (L, C)|].
    destruct (next_store_spec cb N _ (lo_plan _ Hl) L C p l HL' HC1 HC2 Hnf Ha)
      as (Hn & Ha' & Hp1 & Hp2 & Hp3 & Hp4).
    cbn [length walk_store]. rewrite Hn.
    destruct (IH p.1 p.2 Ha' Hp1 Hp2 Hp3 (or_introl Hp4)) as (c & ->). exists c. by destruct p. }
  apply Hgen; [done|lia|exact HC|unfold cb; lia|apply (ti_full _ Ht)].
Qed.

Lemma open_current_comp_cur s L C d : open_current s = Ok (set_dsk s d) →
  open_current (set_comp_cur s L C) = Ok (set_dsk (set_comp_cur s L C) d).
Proof.
  unfold open_current. cbn. destruct (_ <? _).
  - destruct (open_read _ _) as [d'| |]; [|done|done]. cbn. by intros [= ->].
  - intros [= H]. f_equal. apply (f_equal dsk) in H. cbn in H. by rewrite <- H.
Qed.

(** The two-phase functions on the same state. *)
Lemma two_phase_full s : ladder_ok s → mem_ok s → tidy s → (∀ L, open_ok L = true) →
  (∀ i, s.(dsk).(layer_fds) i = FdClosed) →
  let nc := s.(cnt).(n_cur_comp_chunks) in
  let ns := s.(cnt).(n_cur_store_chunks) in
  let waits := (WaitAlloc <$> to_decompress s) ++ (WaitAlloc <$> to_load s) in
  ∃ c d,
    mzcache_wait_for_kv nc ns s = Ok (waits, true) ∧
    mzcache_enqueue_kv_alloc_only nc ns s
      = Ok (flat_map alloc_acts (to_decompress s) ++ flat_map alloc_acts (to_load s) ++ waits, true) ∧
    mzcache_enqueue_kv_decomp_read_only nc ns s
      = Ok (set_dsk (set_cur s c) d,
            flat_map decomp_acts (to_decompress s) ++ flat_map read_acts (to_load s), true) ∧
    fetched s c d.
Proof.
  intros Hl Hm Ht Hopen Hcl nc ns waits.
  destruct (walk_comp_spec s Hl Ht) as (c1 & Hw1). destruct (walk_store_spec s Hl Ht) as (c2 & Hw2).
  assert (Hnc : Z.to_nat nc = length (to_decompress s)).
  { unfold nc. rewrite <- (length_to_decompress s Hl Ht). lia. }
  assert (Hns : Z.to_nat ns = length (to_load s)).
  { unfold ns. rewrite <- (length_to_load s Hl Ht). lia. }
  destruct (ladder_ccur s Hl) as (HcL & HcC & _). pose proof (ti_comp _ Ht).
  destruct (ladder_scur s Hl) as (HsL & HsC & HsC'). specialize (HsC' (ti_store _ Ht)).
  destruct (decomp_loop_spec decomp_acts (length (to_decompress s)) s [] (lo_plan _ Hl)
              ltac:(lia) ltac:(lia) (le_n _)) as (L & C & Hd & Hr1 & _ & Hlast1).
  rewrite firstn_all in Hd. rewrite drop_all in Hr1. cbn [app] in Hd.
  destruct (open_current_spec s Hl Hm Ht Hopen Hcl) as (d1 & Ho & Hkf1 & Hsf1 & Hrf1 & Hout1).
  apply (open_current_comp_cur s L C) in Ho.
  destruct (load_loop_spec read_acts (length (to_load s)) (set_dsk (set_comp_cur s L C) d1)
              (flat_map decomp_acts (to_decompress s)) (lo_plan _ Hl))
    as (L2 & C2 & d2 & Hld & Hr2 & Hkf2 & Hsf2 & _ & _ & Hfd2 & Hlast2 & Hout2);
    [cbn; pose proof (ti_store _ Ht); lia|exact HsC|cbn; lia|apply (ti_full _ Ht)|done| |exact Hrf1|done|].
  { intros p Hp. cbn. rewrite Hkf1. apply (elem_of_to_load s p Hl Ht) in Hp as [? ?].
    by apply (stored_has_file s p). }
  change (to_load (set_dsk (set_comp_cur s L C) d1)) with (to_load s) in *.
  rewrite firstn_all in *. rewrite drop_all in Hr2.
  assert (Hwait : mzcache_wait_for_kv nc ns s = Ok (waits, true)).
  { unfold mzcache_wait_for_kv. rewrite Hnc, Hns, Hw1. cbn [obind negb]. by rewrite Hw2. }
  exists (Cursors L C L2 C2), d2. split; [exact Hwait|]. split; [|split].
  - unfold mzcache_enqueue_kv_alloc_only. rewrite Hnc, Hns, Hw1. cbn [obind negb].
    rewrite Hw2. cbn [negb]. rewrite Hwait. cbn [obind]. by rewrite <- !app_assoc.
  - unfold mzcache_enqueue_kv_decomp_read_only, decomp_loop, load_loop.
    rewrite Hnc, Hns, Hd. cbn [obind negb]. rewrite Ho. cbn [obind]. rewrite Hld. reflexivity.
  - split; [exact Hr2|exact Hr1|by rewrite Hkf2|by rewrite Hsf2|exact Hfd2|exact Hlast1|exact Hlast2|].
    intros i Hi. rewrite (Hout2 i Hi). by apply Hout1.
Qed.

(** The two-phase swap-in (all allocations, wait, then all decompressions
    and reads) is equivalent in its tasks to the one-phase one: its first phase
    registers, allocates and then awaits exactly the chunks that are not raw, its
    second phase enqueues exactly their decompressions and reads. *)
Theorem two_phase_swapin_same (s : kv_state) :
  ladder_ok s → mem_ok s → tidy s → (∀ L, open_ok L = true) →
  (∀ i, s.(dsk).(layer_fds) i = FdClosed) →
  let nc := s.(cnt).(n_cur_comp_chunks) in
  let ns := s.(cnt).(n_cur_store_chunks) in
  ∃ loads decomps s1 s2,
    mzcache_enqueue_decomp_load_chunks nc ns s
      = Ok (s1, flat_map (λ p, alloc_acts p ++ read_acts p) loads
                ++ flat_map (λ p, alloc_acts p ++ decomp_acts p) decomps) ∧
    mzcache_enqueue_kv_alloc_only nc ns s
      = Ok (flat_map alloc_acts decomps ++ flat_map alloc_acts loads
            ++ (WaitAlloc <$> decomps) ++ (WaitAlloc <$> loads), true) ∧
    mzcache_enqueue_kv_decomp_read_only nc ns s
      = Ok (s2, flat_map decomp_acts decomps ++ flat_map read_acts loads, true) ∧
    (∀ p, p ∈ loads ++ decomps ↔ in_range s p ∧ s.(tab).(states) p ≠ Raw).
Proof.
  intros Hl Hm Ht Hopen Hcl nc ns.
  destruct (enqueue_full s Hl Hm Ht Hopen Hcl) as (c & d & Hrun & _).
  destruct (two_phase_full s Hl Hm Ht Hopen Hcl) as (c' & d' & _ & Ha & Hd & _).
  eexists (to_load s), (to_decompress s), _, _. split; [exact Hrun|]. split; [exact Ha|].
  split; [exact Hd|].
  intros p. rewrite elem_of_app, (elem_of_to_load s p Hl Ht), (elem_of_to_decompress s p Hl Ht).
  destruct (states (tab s) p); (split; [by intros [[? ?]|[? ?]]|intros [? ?]]);
    first [done | by left | by right].
Qed.
End loops.
