(* ===== verification/Weight.v ===== *)
(** Weight layers, main-thread side: [mzcache_weight]
    ([mzcache/src/mzcache_weight.cpp]).  Layers are unloaded from the last one
    down and brought back through the same worker pool as the KV chunks. *)
From S2P Require Import Prelude Floats Profile KvTypes KvSwapIn.

Record mzcache_weight := Weight {
  w_num_layers : Z;
  cur_layer_idx_to_unload : Z;
  n_cur_unload_layers : Z }.

(** Whether the layer's dump is readable ([access(fn, R_OK)]) and whether
    [model->unload_buffers] succeeds. *)
Class WeightEnv := { dump_readable : Z → bool; unload_buffers_ok : Z → bool }.

(** The constructor. *)
Definition new_weight (n_layer : Z) : mzcache_weight := Weight n_layer (n_layer - 1) 0.

Section weight.
Context `{WeightEnv}.

(** One iteration; [None] on the two error returns. *)
Definition unload_layer (w : mzcache_weight) : option mzcache_weight :=
  if negb (dump_readable w.(cur_layer_idx_to_unload)) then None
  else if unload_buffers_ok w.(cur_layer_idx_to_unload) then
    Some (Weight w.(w_num_layers) (w.(cur_layer_idx_to_unload) - 1) (w.(n_cur_unload_layers) + 1))
  else None.

Fixpoint unload_loop (n : nat) (w : mzcache_weight) : mzcache_weight * bool :=
  match n with
  | O => (w, true)
  | S n => match unload_layer w with Some w' => unload_loop n w' | None => (w, false) end
  end.
Definition mzcache_unload_layers (layer_num : Z) (w : mzcache_weight) : mzcache_weight * bool :=
  unload_loop (Z.to_nat layer_num) w.

(** The layers [for (L = cur + 1; L < num_layers; L++)]. *)
Definition unloaded_layers (w : mzcache_weight) : list Z :=
  seqZ (w.(cur_layer_idx_to_unload) + 1) (w.(w_num_layers) - (w.(cur_layer_idx_to_unload) + 1)).

Definition reset_unload (w : mzcache_weight) : mzcache_weight :=
  Weight w.(w_num_layers) (w.(w_num_layers) - 1) w.(n_cur_unload_layers).

Definition mzcache_reload_w_layers (w : mzcache_weight) : mzcache_weight * list action :=
  (reset_unload w,
   flat_map (λ L, [RegisterW L; Enqueue ALLOC (weight_alloc L); Enqueue READ (weight_read L)])
     (unloaded_layers w)).

Definition mzcache_reload_w_layers_alloc_only (w : mzcache_weight) : list action :=
  flat_map (λ L, [RegisterW L; Enqueue ALLOC (weight_alloc L)]) (unloaded_layers w)
  ++ (WaitAllocW <$> unloaded_layers w).

Definition mzcache_reload_w_layers_reload_only (w : mzcache_weight) : mzcache_weight * list action :=
  (reset_unload w, (Enqueue READ ∘ weight_read <$> unloaded_layers w) ++ [WaitIdle READ]).

(** The cursor and the count agree, and only existing layers are unloaded. *)
Definition weight_ok (w : mzcache_weight) : Prop :=
  w.(n_cur_unload_layers) = w.(w_num_layers) - 1 - w.(cur_layer_idx_to_unload) ∧
  -1 <= w.(cur_layer_idx_to_unload) <= w.(w_num_layers) - 1.

Lemma elem_of_unloaded w L : L ∈ unloaded_layers w ↔
  w.(cur_layer_idx_to_unload) < L < w.(w_num_layers).
Proof. unfold unloaded_layers. rewrite elem_of_seqZ. lia. Qed.

Lemma unload_loop_spec n w w' ok : dump_readable (-1) = false → weight_ok w →
  unload_loop n w = (w', ok) →
  weight_ok w' ∧ w'.(w_num_layers) = w.(w_num_layers) ∧
  w.(n_cur_unload_layers) <= w'.(n_cur_unload_layers) <= w.(n_cur_unload_layers) + Z.of_nat n ∧
  (ok = true → w'.(n_cur_unload_layers) = w.(n_cur_unload_layers) + Z.of_nat n) ∧
  (ok = false → w'.(n_cur_unload_layers) < w.(n_cur_unload_layers) + Z.of_nat n ∧
     (dump_readable w'.(cur_layer_idx_to_unload) = false ∨
      unload_buffers_ok w'.(cur_layer_idx_to_unload) = false)) ∧
  ∀ L, L ∈ unloaded_layers w' → L ∉ unloaded_layers w →
       dump_readable L = true ∧ unload_buffers_ok L = true.
Proof.
  intros Hm1. revert w. induction n as [|n IH]; intros w Hw; cbn [unload_loop].
  - intros [= <- <-]. repeat split; (done || lia || apply Hw).
  - unfold unload_layer. destruct (dump_readable (cur_layer_idx_to_unload w)) eqn:Ed; cbn [negb].
    + destruct (unload_buffers_ok (cur_layer_idx_to_unload w)) eqn:Eu.
      * set (w1 := Weight _ _ _). intros Hrun. destruct Hw as [Hn Hc].
        assert (w.(cur_layer_idx_to_unload) ≠ -1) by (intros E; rewrite E in Ed; congruence).
        destruct (IH w1) as (H1 & H2 & H3 & H4 & H5 & H6); [split; cbn; lia|done|].
        cbn in H2, H3, H4. split; [done|]. split; [done|]. split; [lia|].
        split; [intros Hok; rewrite (H4 Hok); cbn; lia|].
        split; [intros Hko; destruct (H5 Hko); cbn in *; split; [lia|done]|].
        intros L HL HnL. destruct (decide (L = w.(cur_layer_idx_to_unload))) as [->|Hne]; [done|].
        apply H6; [done|]. rewrite elem_of_unloaded in *. cbn. lia.
      * intros [= <- <-]. repeat split; try (done || lia || apply Hw). by right.
    + intros [= <- <-]. repeat split; try (done || lia || apply Hw). by left.
Qed.

(** [mzcache_unload_layers] keeps the cursor and the count in step, never
    unloads a layer whose dump cannot be read back (layer -1 never has one),
    reports success exactly when all requested layers were unloaded, and on
    failure stops in front of the layer that failed. *)
Theorem mzcache_unload_layers_spec (n : Z) (w w' : mzcache_weight) (ok : bool) :
  0 <= n → dump_readable (-1) = false → weight_ok w →
  mzcache_unload_layers n w = (w', ok) →
  weight_ok w' ∧
  (if ok then w'.(n_cur_unload_layers) = w.(n_cur_unload_layers) + n
   else w'.(n_cur_unload_layers) < w.(n_cur_unload_layers) + n ∧
        (dump_readable w'.(cur_layer_idx_to_unload) = false ∨
         unload_buffers_ok w'.(cur_layer_idx_to_unload) = false)) ∧
  (∀ L, L ∈ unloaded_layers w' → L ∉ unloaded_layers w → dump_readable L = true) ∧
  (∀ L, L ∈ unloaded_layers w → L ∈ unloaded_layers w').
Proof.
  intros Hn Hm1 Hw Hrun.
  destruct (unload_loop_spec _ _ _ _ Hm1 Hw Hrun) as (Hw' & Hnl & Hle & Hok & Hko & Hd).
  split; [done|]. split; [|split].
  - rewrite Z2Nat.id in * by lia. destruct ok; [by rewrite Hok|]. by apply Hko.
  - intros L H1 H2. by apply Hd.
  - intros L. rewrite !elem_of_unloaded. destruct Hw, Hw'. lia.
Qed.
End weight.

(** Four layers, the dump of layer 0 missing: asking for all four stops there. *)
Definition demo_weight_env : WeightEnv :=
  {| dump_readable L := 1 <=? L; unload_buffers_ok _ := true |}.

Lemma mzcache_unload_layers_spec_witness :
  mzcache_unload_layers (H := demo_weight_env) 4 (new_weight 4) = (Weight 4 0 3, false) ∧
  weight_ok (Weight 4 0 3) ∧ 3 < 4.
Proof.
  assert (Hrun : mzcache_unload_layers (H := demo_weight_env) 4 (new_weight 4) = (Weight 4 0 3, false))
    by reflexivity.
  destruct (mzcache_unload_layers_spec (H := demo_weight_env) 4 (new_weight 4) _ _
              ltac:(lia) eq_refl ltac:(split; cbn; lia) Hrun) as (Hw & [Hlt _] & _).
  split; [exact Hrun|]. split; [exact Hw|exact Hlt].
Defined.
