(* ===== verification/WeightOps.v ===== *)
(** Weight layers on the device: [mzcache/src/mzcache_weight_ops.cpp] with what it
    calls - the tensor allocator ([ggml/src/ggml-alloc.c]), the multi-buffer of
    [ggml/src/ggml-backend.cpp] and the buffers of
    [ggml/src/ggml-opencl/ggml-opencl.cpp] - and the layer table that
    [llama_model::load_tensors] fills ([src/llama-model.cpp]).

    A tensor is its place in the context's list; an address is an integer, 0 for
    NULL.  No weight is a view of another tensor, and none is called cache... .
    Quantised tensors are kept as they are in the model file ([GGML_OPENCL_SOA_Q]
    off). *)
From stdpp Require Import pretty.
From S2P Require Import Prelude KvTypes.

(** ** Tensors, buffers, layers *)

Record wtensor := WTensor {
  t_nbytes : Z;                          (** [ggml_nbytes] *)
  t_buffer : option positive;
  t_data : Z;
  t_extra : option (positive * Z);       (** [data_device] and [offset] *)
  t_is_weight : bool }.

(** [ggml_backend_opencl_buffer_context] with its memory. *)
Record wbuffer := WBuffer { b_is_svm : bool; b_svm_base : Z; b_bytes : list byte }.

(** [mz_weight_buf]: a device buffer, or a multi-buffer with its child buffers. *)
Inductive weight_buf :=
| PlainBuffer (b : positive)
| MultiBuffer (buffers : list (option positive)) (cur_n_buffers : Z).

Record weights := Weights {
  w_tensors : list wtensor;              (** [mz_weight_ctx] *)
  w_heap : gmap positive wbuffer;
  w_next : positive;
  mz_weight_buf : weight_buf }.

(** The globals of [mzcache_globals.h]. *)
Record layer_table := LayerTable {
  layer_first_tensor : list (option nat);
  layer_0_tensor_idx : Z;
  num_tensors_per_layer : Z;
  num_bytes_per_layer : Z;
  padded_num_bytes_per_layer : Z }.

(** The OpenCL driver: the alignment it asks for, the [n]-th allocation of either
    kind and what fresh memory holds. *)
Class WeightDriver := {
  cl_alignment : Z;
  clCreateBuffer_ok : positive → bool;
  clSVMAlloc : positive → Z;
  fresh_byte : positive → Z → byte }.

Definition with_tensor (i : nat) (t : wtensor) (m : weights) : weights :=
  Weights (<[i := t]> m.(w_tensors)) m.(w_heap) m.(w_next) m.(mz_weight_buf).
Definition with_heap (h : gmap positive wbuffer) (m : weights) : weights :=
  Weights m.(w_tensors) h m.(w_next) m.(mz_weight_buf).
Definition with_buf (buf : weight_buf) (m : weights) : weights :=
  Weights m.(w_tensors) m.(w_heap) m.(w_next) buf.

Definition tensor_at (m : weights) (i : nat) : outcome wtensor :=
  match m.(w_tensors) !! i with Some t => Ok t | None => Ub end.
Definition buffer_at (m : weights) (b : positive) : outcome wbuffer :=
  match m.(w_heap) !! b with Some buf => Ok buf | None => Ub end.
Definition b_size (buf : wbuffer) : Z := Z.of_nat (length buf.(b_bytes)).

(** [ggml_get_next_tensor]. *)
Definition next_tensor (m : weights) (i : nat) : option nat :=
  if bool_decide (S i < length m.(w_tensors))%nat then Some (S i) else None.

Section weight_ops.
Context `{Dr : WeightDriver}.

(** ** Device buffers *)

Definition opencl_get_base (buf : wbuffer) : outcome Z :=
  let base := if buf.(b_is_svm) then buf.(b_svm_base) else cl_alignment in
  _ <~ assert_that (negb (base =? 0)) ;; Ok base.

(** [alloc_buffer] and [alloc_svm_buffer]; the former can fail. *)
Definition alloc_buffer (svm : bool) (size : Z) (m : weights) : option (positive * weights) :=
  let b := m.(w_next) in
  let bytes := fresh_byte b <$> seqZ 0 (Z.max size 1) in
  if negb svm && negb (clCreateBuffer_ok b) then None
  else
    let buf := if svm then WBuffer true (clSVMAlloc b) bytes else WBuffer false 0 bytes in
    Some (b, Weights m.(w_tensors) (<[b := buf]> m.(w_heap)) (Pos.succ b) m.(mz_weight_buf)).

Definition opencl_init_tensor (b : positive) (buf : wbuffer) (t : wtensor) : outcome wtensor :=
  if buf.(b_is_svm) then
    if t.(t_is_weight) then Ok (WTensor t.(t_nbytes) t.(t_buffer) t.(t_data) None t.(t_is_weight))
    else Ok (WTensor t.(t_nbytes) t.(t_buffer) buf.(b_svm_base) None t.(t_is_weight))
  else
    base <~ opencl_get_base buf ;;
    Ok (WTensor t.(t_nbytes) t.(t_buffer) t.(t_data) (Some (b, t.(t_data) - base)) t.(t_is_weight)).

(** A read of [size] bytes from the start of the tensor. *)
Definition opencl_get_tensor (m : weights) (buf : wbuffer) (t : wtensor) (size : Z) : outcome (list byte) :=
  if buf.(b_is_svm) then
    _ <~ assert_that (size <=? b_size buf) ;; Ok (take (Z.to_nat size) buf.(b_bytes))
  else
    match t.(t_extra) with
    | None => Ub
    | Some (d, off) =>
        dev <~ buffer_at m d ;;
        _ <~ assert_that (off + size <=? b_size dev) ;;
        Ok (take (Z.to_nat size) (drop (Z.to_nat off) dev.(b_bytes)))
    end.

Definition ggml_backend_tensor_get (m : weights) (t : wtensor) (size : Z) : outcome (list byte) :=
  if size =? 0 then Ok []
  else
    match t.(t_buffer) with
    | None => Ub
    | Some b =>
        _ <~ assert_that (negb (t.(t_data) =? 0)) ;;
        _ <~ assert_that (size <=? t.(t_nbytes)) ;;
        buf <~ buffer_at m b ;;
        opencl_get_tensor m buf t size
    end.

(** ** The tensor allocator *)

(** [GGML_PAD] on [size_t]. *)
Definition pad_size (x n : Z) : Z := Z.land (u64 (x + n - 1)) (Z.lnot (n - 1)).

Definition aligned_offset (buffer offset alignment : Z) : Z :=
  let align := (alignment - (buffer + offset) mod alignment) mod alignment in offset + align.

Record ggml_tallocr := Tallocr { ta_buffer : positive; ta_base : Z; ta_alignment : Z; ta_offset : Z }.

Definition ggml_tallocr_new (b : positive) (m : weights) : outcome ggml_tallocr :=
  buf <~ buffer_at m b ;;
  base <~ opencl_get_base buf ;;
  Ok (Tallocr b base cl_alignment (aligned_offset base 0 cl_alignment)).

Definition ggml_backend_tensor_alloc (b : positive) (i : nat) (addr : Z) (m : weights) : outcome weights :=
  t <~ tensor_at m i ;;
  _ <~ assert_that (bool_decide (t.(t_buffer) = None)) ;;
  _ <~ assert_that (t.(t_data) =? 0) ;;
  buf <~ buffer_at m b ;;
  base <~ opencl_get_base buf ;;
  _ <~ assert_that (base <=? addr) ;;
  _ <~ assert_that (addr + t.(t_nbytes) <=? base + b_size buf) ;;
  t' <~ opencl_init_tensor b buf (WTensor t.(t_nbytes) (Some b) addr t.(t_extra) t.(t_is_weight)) ;;
  Ok (with_tensor i t' m).

Definition ggml_tallocr_alloc (i : nat) (st : ggml_tallocr * weights) : outcome (ggml_tallocr * weights) :=
  let '(ta, m) := st in
  t <~ tensor_at m i ;;
  buf <~ buffer_at m ta.(ta_buffer) ;;
  let size := pad_size t.(t_nbytes) ta.(ta_alignment) in
  _ <~ assert_that (ta.(ta_offset) + size <=? b_size buf) ;;
  base <~ opencl_get_base buf ;;
  let addr := base + ta.(ta_offset) in
  _ <~ assert_that (addr mod ta.(ta_alignment) =? 0) ;;
  m' <~ ggml_backend_tensor_alloc ta.(ta_buffer) i addr m ;;
  Ok (Tallocr ta.(ta_buffer) ta.(ta_base) ta.(ta_alignment) (ta.(ta_offset) + size), m').

(** [for (t = first; t != last; t = ggml_get_next_tensor(ctx, t))]. *)
Definition tensors_between (m : weights) (first last : option nat) : outcome (list nat) :=
  match first, last with
  | None, None => Ok []
  | None, Some _ => Ub
  | Some f, None => Ok (seq f (length m.(w_tensors) - f))
  | Some f, Some l => if bool_decide (f <= l)%nat then Ok (seq f (l - f)) else Ub
  end.

(** [None] when the driver refuses the buffer. *)
Definition alloc_tensor_range (first last : option nat) (size : Z) (if_weight : bool) (m : weights)
    : outcome (option positive * weights) :=
  let size := if if_weight then (if size <? 4096 then 4096 else (size + 4096 - 1) / 4096 * 4096) else size in
  match alloc_buffer if_weight size m with
  | None => Ok (None, m)
  | Some (b, m1) =>
      ta <~ ggml_tallocr_new b m1 ;;
      ts <~ tensors_between m1 first last ;;
      '(_, m2) <~ ofold (λ i '(ta, m), t <~ tensor_at m i ;;
                          if t.(t_data) =? 0 then ggml_tallocr_alloc i (ta, m) else Ok (ta, m)) ts (ta, m1) ;;
      Ok (Some b, m2)
  end.

Definition free_buffer (b : positive) (m : weights) : weights := with_heap (delete b m.(w_heap)) m.
Definition free_buffers (bs : list positive) (m : weights) : weights := foldr free_buffer m bs.

(** One round of the loop over the tensors; [None] when a buffer is refused. *)
Definition alloc_round (i : nat) (st : option (nat * Z * list positive) * weights)
    : outcome (option (nat * Z * list positive) * weights) :=
  match st with
  | (None, m) => Ok (None, m)
  | (Some (first, cur_buf_size, buffers), m) =>
      t <~ tensor_at m i ;;
      let this_size := if t.(t_data) =? 0 then pad_size t.(t_nbytes) cl_alignment else 0 in
      if (0 <? cur_buf_size) && (0 <? cur_buf_size + this_size) then
        '(r, m') <~ alloc_tensor_range (Some first) (Some i) cur_buf_size false m ;;
        match r with
        | None => Ok (None, free_buffers buffers m')
        | Some b => Ok (Some (i, this_size, buffers ++ [b]), m')
        end
      else Ok (Some (first, cur_buf_size + this_size, buffers), m)
  end.

(** The model's own allocation, with [max_size] 0; [None] stands for NULL, after
    which [load_tensors] throws.  [mz_weight_buf] is the buffer returned. *)
Definition ggml_backend_alloc_ctx_tensors_from_buft (m : weights) : outcome (option weight_buf * weights) :=
  let n := length m.(w_tensors) in
  '(st, m1) <~ ofold alloc_round (seq 0 n) (Some (0%nat, 0, []), m) ;;
  match st with
  | None => Ok (None, m1)
  | Some (first, cur_buf_size, buffers) =>
      '(r, m2) <~ (if 0 <? cur_buf_size then
                     '(r, m2) <~ alloc_tensor_range (Some first) None cur_buf_size false m1 ;;
                     Ok match r with None => (None, free_buffers buffers m2) | Some b => (Some (buffers ++ [b]), m2) end
                   else Ok (Some buffers, m1)) ;;
      Ok match r with
         | None | Some [] => (None, m2)
         | Some [b] => (Some (PlainBuffer b), with_buf (PlainBuffer b) m2)
         | Some bs => let buf := MultiBuffer (Some <$> bs) (Z.of_nat (length bs)) in (Some buf, with_buf buf m2)
         end
  end.

(** ** The multi-buffer *)

Definition ggml_backend_buffer_unload_child_buffer (child : positive) (m : weights) : bool * weights :=
  match m.(mz_weight_buf) with
  | PlainBuffer _ => (false, m)
  | MultiBuffer cs n =>
      match list_find (λ c, c = Some child) cs with
      | None => (false, m)
      | Some (i, _) => (true, with_buf (MultiBuffer (<[i := None]> cs) (if 0 <? n then n - 1 else n)) (free_buffer child m))
      end
  end.

Fixpoint fill_slots (cs : list (option positive)) (bs : list positive) : list (option positive) :=
  match cs, bs with
  | cs, [] => cs
  | [], _ => []
  | None :: cs, b :: bs => Some b :: fill_slots cs bs
  | Some c :: cs, bs => Some c :: fill_slots cs bs
  end.

Definition ggml_backend_multi_buffer_concat_buffer (bs : list positive) (m : weights) : outcome (bool * weights) :=
  match m.(mz_weight_buf) with
  | PlainBuffer _ => Ub
  | MultiBuffer cs n =>
      let free_slots := length (filter (λ c, c = None) cs) in
      if bool_decide (free_slots < length bs)%nat then Ok (false, m)
      else Ok (true, with_buf (MultiBuffer (fill_slots cs bs) (n + Z.of_nat (length bs))) m)
  end.

Definition ggml_backend_alloc_ctx_given_tensors_from_buft (T : layer_table) (first last : option nat) (m : weights)
    : outcome (bool * weights) :=
  '(r, m1) <~ alloc_tensor_range first last T.(num_bytes_per_layer) true m ;;
  match r with
  | None => Ok (false, m1)
  | Some b =>
      '(ok, m2) <~ ggml_backend_multi_buffer_concat_buffer [b] m1 ;;
      Ok (if ok : bool then (true, m2) else (false, free_buffers [b] m2))
  end.

(** ** The layer table *)

(** An access [layer_first_tensor[L]]. *)
Definition first_tensor (T : layer_table) (L : Z) : outcome (option nat) :=
  if 0 <=? L then match T.(layer_first_tensor) !! Z.to_nat L with Some f => Ok f | None => Ub end else Ub.

(** The layers of the model, of [num] tensors each, from the tensor [layer0] on;
    [sizes] are the bytes of layer 0's tensors. *)
Definition load_layer_table (n_layer num : Z) (layer0 : nat) (sizes : list Z) : outcome layer_table :=
  firsts <~ ofold (λ i (tab : list (option nat)),
               if i <? MAX_NUM_LAYERS then Ok (<[Z.to_nat i := Some (layer0 + Z.to_nat (num * i))%nat]> tab) else Ub)
             (seqZ 0 n_layer) (replicate (Z.to_nat MAX_NUM_LAYERS) None) ;;
  let bytes := foldl (λ n size, i32 (n + size)) 0 sizes in
  _ <~ assert_that (bytes + 4095 <? 2 ^ 31) ;;
  Ok (LayerTable firsts (Z.of_nat layer0) num bytes ((bytes + 4095) / 4096 * 4096)).

(** ** The operations of [mzcache_weight_ops] *)

Definition alloc_weight_layer (T : layer_table) (layer_idx : Z) (m : weights) : outcome (bool * weights) :=
  first <~ first_tensor T layer_idx ;;
  last <~ first_tensor T (layer_idx + 1) ;;
  ggml_backend_alloc_ctx_given_tensors_from_buft T first last m.

Definition write_bytes (off : Z) (bs l : list byte) : list byte :=
  take (Z.to_nat off) l ++ bs ++ drop (Z.to_nat off + length bs) l.

(** [read_weight_layer] with the content of the file behind [fd], which is closed
    on every path.  The kernel fills no memory but the process's own. *)
Definition read_weight_layer (T : layer_table) (layer_idx : Z) (file : list byte) (m : weights)
    : outcome (bool * weights) :=
  let bytes := u64 T.(padded_num_bytes_per_layer) in
  if negb (bytes mod 4096 =? 0) then Ok (false, m)
  else
    first <~ first_tensor T layer_idx ;;
    match first with
    | None => Ub
    | Some f =>
        t <~ tensor_at m f ;;
        let data := take (Z.to_nat bytes) file in
        match t.(t_buffer) with
        | None => Throw
        | Some b =>
            buf <~ buffer_at m b ;;
            if negb buf.(b_is_svm) || (t.(t_data) =? 0) then Throw
            else
              let off := t.(t_data) - buf.(b_svm_base) in
              _ <~ assert_that ((0 <=? off) && (off + Z.of_nat (length data) <=? b_size buf)) ;;
              let m' := with_heap (<[b := WBuffer true buf.(b_svm_base) (write_bytes off data buf.(b_bytes))]> m.(w_heap)) m in
              if Z.of_nat (length data) <? bytes then Throw else Ok (true, m')
        end
    end.

Definition layer_idxs (T : layer_table) (layer_idx : Z) (m : weights) : list nat :=
  let first := T.(layer_0_tensor_idx) + T.(num_tensors_per_layer) * layer_idx in
  Z.to_nat <$> filter (λ i, 0 <= i < Z.of_nat (length m.(w_tensors))) (seqZ first T.(num_tensors_per_layer)).

Definition add_buffer (m : weights) (bs : list positive) (i : nat) : list positive :=
  match m.(w_tensors) !! i with
  | Some t => match t.(t_buffer) with
              | Some b => if bool_decide (b ∈ bs) then bs else bs ++ [b]
              | None => bs
              end
  | None => bs
  end.
Definition unique_buffers (m : weights) (idxs : list nat) : list positive := foldl (add_buffer m) [] idxs.

Fixpoint unload_children (bs : list positive) (m : weights) : bool * weights :=
  match bs with
  | [] => (true, m)
  | b :: bs =>
      let '(ok, m') := ggml_backend_buffer_unload_child_buffer b m in
      if ok : bool then unload_children bs m' else (false, m')
  end.

Definition unload_tensor (m : weights) (i : nat) : weights :=
  match m.(w_tensors) !! i with
  | Some t => with_tensor i (WTensor t.(t_nbytes) None 0 t.(t_extra) true) m
  | None => m
  end.

Definition unload_buffers (T : layer_table) (layer_idx : Z) (m : weights) : bool * weights :=
  let idxs := layer_idxs T layer_idx m in
  let '(ok, m1) := unload_children (unique_buffers m idxs) m in
  if ok : bool then (true, foldl unload_tensor m1 idxs) else (false, m1).

(** One round of the loop that saves a layer: the current tensor, the bytes
    written so far. *)
Definition save_round (T : layer_table) (m : weights) (k : Z) (st : option nat * list byte)
    : outcome (option nat * list byte) :=
  let '(cur, out) := st in
  match cur with
  | None => Ub
  | Some i =>
      t <~ tensor_at m i ;;
      bs <~ ggml_backend_tensor_get m t t.(t_nbytes) ;;
      let cur := next_tensor m i in
      if bool_decide (cur = None) && (k + 1 <? T.(num_tensors_per_layer)) then Throw
      else Ok (cur, out ++ bs)
  end.

(** The content of the file. *)
Definition save_weights_in_layer (T : layer_table) (layer_idx : Z) (m : weights) : outcome (list byte) :=
  cur <~ first_tensor T layer_idx ;;
  if bool_decide (cur = None) then Throw
  else
    '(_, out) <~ ofold (save_round T m) (seqZ 0 T.(num_tensors_per_layer)) (cur, []) ;;
    let total_size := Z.of_nat (length out) in
    let padding := (4096 - total_size mod 4096) mod 4096 in
    Ok (out ++ replicate (Z.to_nat padding) 0).

Definition layer_file (prefix : string) (layer_idx : Z) : string :=
  (prefix +:+ "_layer_" +:+ pretty layer_idx +:+ ".bin")%string.

(** [unload_layers_to_file]; [opens] tells which files can be created. *)
Definition unload_layers_to_file (opens : string → bool) (T : layer_table) (prefix : string) (layer_idx : Z)
    (m : weights) (files : gmap string (list byte)) : outcome (gmap string (list byte)) :=
  if layer_idx <? 0 then Throw
  else
    let path := layer_file prefix layer_idx in
    if negb (opens path) then Throw
    else out <~ save_weights_in_layer T layer_idx m ;; Ok (<[path := out]> files).
End weight_ops.
