(* ===== verification/WeightOpsThms.v ===== *)
(** A weight layer leaves the device and comes back: what the operations of
    [WeightOps] do to the tensors, the buffers and the multi-buffer. *)
From S2P Require Import Prelude KvTypes WeightOps.

(** ** Lists *)
Lemma take_drop_concat (bss : list (list byte)) k bs rest : bss !! k = Some bs →
  take (length bs) (drop (length (concat (take k bss))) (concat bss ++ rest)) = bs.
Proof.
  intros Hk. rewrite <- (take_drop_middle bss k bs Hk) at 2. rewrite concat_app, <- !app_assoc. cbn [concat].
  rewrite drop_app_length, <- app_assoc. apply take_app_length.
Qed.

Lemma concat_take_S (bss : list (list byte)) k bs : bss !! k = Some bs →
  length (concat (take (S k) bss)) = (length (concat (take k bss)) + length bs)%nat.
Proof. intros Hk. rewrite (take_S_r _ _ _ Hk), concat_app, length_app. cbn. by rewrite app_nil_r. Qed.

Lemma concat_take_le (bss : list (list byte)) k : (length (concat (take k bss)) <= length (concat bss))%nat.
Proof. rewrite <- (take_drop k bss) at 2. rewrite concat_app, length_app. lia. Qed.

(** Up to the next multiple of 4 KiB. *)
Definition pad4k (bs : list byte) : list byte :=
  bs ++ replicate (Z.to_nat ((4096 - Z.of_nat (length bs) mod 4096) mod 4096)) 0.

Lemma length_pad4k bs : Z.of_nat (length (pad4k bs)) = (Z.of_nat (length bs) + 4095) / 4096 * 4096.
Proof. unfold pad4k. rewrite length_app, length_replicate. Z.to_euclidean_division_equations; lia. Qed.

(** ** Padding to the device's alignment *)
Lemma pad_size_div x a : 0 <= a → 0 <= x → x + 2 ^ a - 1 < 2 ^ 64 → pad_size x (2 ^ a) = (x + 2 ^ a - 1) / 2 ^ a * 2 ^ a.
Proof.
  intros Ha Hx Hw. unfold pad_size. rewrite u64_id by (pose proof (Z.pow_pos_nonneg 2 a); lia).
  replace (2 ^ a - 1) with (Z.ones a) by (rewrite Z.ones_equiv; lia).
  by rewrite <- Z.ldiff_land, Z.ldiff_ones_r, Z.shiftr_div_pow2, Z.shiftl_mul_pow2.
Qed.

Lemma pad_size_aligned x a : 0 <= a → 0 <= x → x + 2 ^ a - 1 < 2 ^ 64 → x mod 2 ^ a = 0 → pad_size x (2 ^ a) = x.
Proof.
  intros Ha Hx Hw Hm. rewrite pad_size_div by done. pose proof (Z.pow_pos_nonneg 2 a ltac:(lia) Ha) as Hp.
  pose proof (Z.div_mod x (2 ^ a) ltac:(lia)) as Hd. rewrite Hm in Hd.
  replace ((x + 2 ^ a - 1) / 2 ^ a) with (x / 2 ^ a); [lia|]. apply (Z.div_unique _ _ _ (2 ^ a - 1)); lia.
Qed.

(** A multiple of the alignment has room for what is padded below it. *)
Lemma pad_size_fits off x a M : 0 <= a → 0 <= x → x + 2 ^ a - 1 < 2 ^ 64 → off mod 2 ^ a = 0 → M mod 2 ^ a = 0 →
  off + x <= M → off + pad_size x (2 ^ a) <= M.
Proof.
  intros Ha Hx Hw Ho HM Hle. rewrite pad_size_div by done. pose proof (Z.pow_pos_nonneg 2 a ltac:(lia) Ha) as Hp.
  pose proof (Z.div_mod off (2 ^ a) ltac:(lia)) as Hd. rewrite Ho in Hd.
  pose proof (Z.div_mod M (2 ^ a) ltac:(lia)) as HdM. rewrite HM in HdM.
  set (q := off / 2 ^ a) in *. set (r := M / 2 ^ a) in *.
  assert ((x + 2 ^ a - 1) / 2 ^ a < r - q + 1); [|nia]. apply Z.div_lt_upper_bound; nia.
Qed.

(** ** The layer table *)

(** [n] layers of [num] tensors each, from tensor [f0] on, none beyond the table. *)
Record table_ok (n num f0 : nat) (T : layer_table) : Prop := TableOk {
  tb_num : (0 < num)%nat;
  tb_first : ∀ L, (L < n)%nat → first_tensor T (Z.of_nat L) = Ok (Some (f0 + num * L)%nat);
  tb_last : first_tensor T (Z.of_nat n) = Ok None;
  tb_0 : T.(layer_0_tensor_idx) = Z.of_nat f0;
  tb_n : T.(num_tensors_per_layer) = Z.of_nat num }.

Lemma table_filled (n num f0 : nat) : (n <= 40)%nat →
  ∃ tab, ofold (λ i (tab : list (option nat)),
      if i <? MAX_NUM_LAYERS then Ok (<[Z.to_nat i := Some (f0 + Z.to_nat (Z.of_nat num * i))%nat]> tab) else Ub)
    (seqZ 0 (Z.of_nat n)) (replicate (Z.to_nat MAX_NUM_LAYERS) None) = Ok tab ∧
    length tab = 40%nat ∧ ∀ L, (L < 40)%nat → tab !! L = Some (if bool_decide (L < n)%nat then Some (f0 + num * L)%nat else None).
Proof.
  intros Hn. set (P (i : Z) (tab : list (option nat)) := length tab = 40%nat ∧
    ∀ L, (L < 40)%nat → tab !! L = Some (if bool_decide (Z.of_nat L < i) then Some (f0 + num * L)%nat else None)).
  match goal with |- ∃ tab, ofold ?f ?l ?s = _ ∧ _ => destruct (ofold_seqZ P f 0 (Z.of_nat n) s) as (tab & Hrun & Hl & Ht) end.
  - lia.
  - split; [done|]. intros L HL. rewrite bool_decide_eq_false_2 by lia. by apply lookup_replicate_2.
  - intros i tab Hi (Hl & Ht). unfold MAX_NUM_LAYERS. rewrite (proj2 (Z.ltb_lt _ _)) by lia. eexists. split; [done|].
    split; [by rewrite length_insert|]. intros L HL. destruct (decide (L = Z.to_nat i)) as [->|Hne].
    + rewrite list_lookup_insert_eq by lia. rewrite bool_decide_eq_true_2 by lia. do 2 f_equal. lia.
    + rewrite list_lookup_insert_ne, Ht by lia. f_equal. erewrite bool_decide_ext; [done|]. lia.
  - exists tab. split; [exact Hrun|]. split; [done|]. intros L HL. rewrite Ht by done. f_equal. erewrite bool_decide_ext; [done|]. lia.
Qed.

(** The table of a model with fewer than 40 layers. *)
Lemma load_layer_table_ok n num f0 sizes : (0 < num)%nat → (n < 40)%nat → (∀ s, s ∈ sizes → 0 <= s) →
  foldr Z.add 0 sizes + 4095 < 2 ^ 31 → ∃ T, load_layer_table (Z.of_nat n) (Z.of_nat num) f0 sizes = Ok T ∧ table_ok n num f0 T ∧
    T.(num_bytes_per_layer) = foldr Z.add 0 sizes ∧
    T.(padded_num_bytes_per_layer) = (foldr Z.add 0 sizes + 4095) / 4096 * 4096.
Proof.
  intros Hnum Hn Hs Hw. unfold load_layer_table. destruct (table_filled n num f0 ltac:(lia)) as (tab & -> & Hl & Ht). cbn [obind].
  assert (Hsum : ∀ acc, 0 <= acc → acc + foldr Z.add 0 sizes < 2 ^ 31 →
    foldl (λ n size, i32 (n + size)) acc sizes = acc + foldr Z.add 0 sizes).
  { clear -Hs. induction sizes as [|s l IH]; intros acc Ha Hle; cbn in *; [lia|].
    assert (0 <= foldr Z.add 0 l).
    { clear -Hs. induction l as [|x l IH]; cbn; [lia|]. assert (0 <= x) by (apply Hs; right; left).
      enough (0 <= foldr Z.add 0 l) by lia. apply IH. intros y Hy. apply Hs. apply elem_of_cons in Hy as [->|Hy]; [left|by do 2 right]. }
    assert (0 <= s) by (apply Hs; left).
    assert (E : i32 (acc + s) = acc + s) by (unfold i32; rewrite Z.mod_small; lia).
    rewrite E, IH; [lia| |lia|lia]. intros y Hy. apply Hs. by right. }
  rewrite Hsum by lia. rewrite Z.add_0_l, (proj2 (Z.ltb_lt _ _)) by lia. cbn [assert_that obind]. eexists. split; [done|].
  split; [|done]. split; try done.
  - intros L HL. unfold first_tensor. cbn [layer_first_tensor]. rewrite (proj2 (Z.leb_le _ _)), Nat2Z.id, Ht by lia.
    by rewrite bool_decide_eq_true_2.
  - unfold first_tensor. cbn [layer_first_tensor]. rewrite (proj2 (Z.leb_le _ _)), Nat2Z.id, Ht by lia.
    by rewrite bool_decide_eq_false_2 by lia.
Qed.

(** ** The device's state *)

Definition children (m : weights) : list (option positive) :=
  match m.(mz_weight_buf) with MultiBuffer cs _ => cs | PlainBuffer _ => [] end.
Definition is_multi (m : weights) : Prop := ∃ cs c, m.(mz_weight_buf) = MultiBuffer cs c.

(** No buffer is a child twice. *)
Definition children_distinct (m : weights) : Prop :=
  ∀ i j b, children m !! i = Some (Some b) → children m !! j = Some (Some b) → i = j.

(** The places an unload has left. *)
Definition count_free (cs : list (option positive)) : nat := length (filter (λ c, c = None) cs).
Definition free_slots (m : weights) : nat := count_free (children m).

Lemma count_free_cons c cs : count_free (c :: cs) = ((if decide (c = None) then 1 else 0) + count_free cs)%nat.
Proof. unfold count_free. rewrite filter_cons. by destruct (decide (c = None)). Qed.

Lemma count_free_insert cs i c c' : cs !! i = Some c →
  (count_free (<[i := c']> cs) + (if decide (c = None) then 1 else 0) = count_free cs + (if decide (c' = None) then 1 else 0))%nat.
Proof.
  revert i. induction cs as [|d cs IH]; intros [|i] Hi; try done; cbn [insert list_insert]; rewrite !count_free_cons.
  - injection Hi as ->. lia.
  - rewrite <- !Nat.add_assoc. f_equal. exact (IH i Hi).
Qed.

Lemma count_free_pos cs : (0 < count_free cs)%nat ↔ None ∈ cs.
Proof.
  induction cs as [|c cs IH]; [split; [cbn; lia|by intros ?%elem_of_nil]|]. rewrite count_free_cons, elem_of_cons.
  destruct (decide (c = None)) as [->|Hc]; [split; [by left|lia]|]. rewrite <- IH. split; [by right|]. by intros [<-|?].
Qed.

Definition unloaded (t : wtensor) : wtensor := WTensor t.(t_nbytes) None 0 t.(t_extra) true.

Section device.
Context `{Dr : WeightDriver} {n num f0 : nat} {T : layer_table} (Htab : table_ok n num f0 T).

Definition in_layer (L i : nat) : Prop := (f0 + num * L <= i < f0 + num * L + num)%nat.
Definition layer_tensors (L : nat) : list nat := seq (f0 + num * L) num.

Lemma elem_of_layer_tensors L i : i ∈ layer_tensors L ↔ in_layer L i.
Proof. unfold layer_tensors, in_layer. rewrite elem_of_seq. lia. Qed.

(** Tensors that may share a buffer: those of one layer. *)
Definition together (i j : nat) : Prop := i = j ∨ ∃ L, in_layer L i ∧ in_layer L j.

Lemma together_layer L i j : in_layer L i → together i j → in_layer L j.
Proof using Htab.
  pose proof (tb_num _ _ _ _ Htab). unfold in_layer. intros Hi [->|(L' & H1 & H2)]; [done|]. unfold in_layer in *.
  assert (L' = L) as -> by nia. done.
Qed.

Record weights_ok (m : weights) : Prop := WeightsOk {
  wo_len : length m.(w_tensors) = (f0 + num * n)%nat;
  wo_fresh : ∀ b, is_Some (m.(w_heap) !! b) → (b < m.(w_next))%positive;
  wo_multi : is_multi m;
  wo_distinct : children_distinct m;
  wo_live : ∀ b, Some b ∈ children m → is_Some (m.(w_heap) !! b);
  wo_child : ∀ i t b, m.(w_tensors) !! i = Some t → t.(t_buffer) = Some b → Some b ∈ children m;
  wo_owner : ∀ i j t t' b, m.(w_tensors) !! i = Some t → m.(w_tensors) !! j = Some t' →
    t.(t_buffer) = Some b → t'.(t_buffer) = Some b → together i j }.

(** ** Unloading *)

Lemma layer_idxs_seq m L : weights_ok m → (L < n)%nat → layer_idxs T (Z.of_nat L) m = layer_tensors L.
Proof using Htab.
  intros [Hlen _ _ _ _ _ _] HL. pose proof (tb_num _ _ _ _ Htab). unfold layer_idxs, layer_tensors.
  rewrite (tb_0 _ _ _ _ Htab), (tb_n _ _ _ _ Htab).
  set (l := seqZ _ _). assert (Hf : filter (λ i, 0 <= i < Z.of_nat (length (w_tensors m))) l = l).
  { assert (∀ i, i ∈ l → 0 <= i < Z.of_nat (length (w_tensors m))) as Hin.
    { intros i Hi%elem_of_seqZ. nia. }
    clearbody l. induction l as [|i l IH]; [done|]. rewrite filter_cons, decide_True by (apply Hin; left).
    f_equal. apply IH. intros j Hj. apply Hin. by right. }
  rewrite Hf. unfold l. apply list_eq. intros k. rewrite list_lookup_fmap. destruct (decide (k < num)%nat) as [Hk|Hk].
  - rewrite lookup_seqZ_lt, lookup_seq_lt by lia. cbn. f_equal. lia.
  - rewrite lookup_seqZ_ge, lookup_seq_ge by lia. done.
Qed.

Lemma elem_of_add_buffer m acc i b :
  b ∈ add_buffer m acc i ↔ b ∈ acc ∨ ∃ t, m.(w_tensors) !! i = Some t ∧ t.(t_buffer) = Some b.
Proof.
  unfold add_buffer. destruct (m.(w_tensors) !! i) as [t|]; [|split; [by left|by intros [?|(? & ? & _)]]].
  destruct (t.(t_buffer)) as [b'|] eqn:Eb; [|split; [by left|intros [?|(? & [= <-] & ?)]; congruence]].
  case_bool_decide as Hin.
  - split; [by left|]. intros [?|(? & [= <-] & Hb)]; [done|]. congruence.
  - rewrite elem_of_app, list_elem_of_singleton. split; [intros [?| ->]; [by left|right; by exists t]|].
    intros [?|(? & [= <-] & Hb)]; [by left|right; congruence].
Qed.

Lemma elem_of_unique_buffers m idxs b :
  b ∈ unique_buffers m idxs ↔ ∃ i t, i ∈ idxs ∧ m.(w_tensors) !! i = Some t ∧ t.(t_buffer) = Some b.
Proof.
  unfold unique_buffers. enough (∀ acc, b ∈ foldl (add_buffer m) acc idxs ↔
      b ∈ acc ∨ ∃ i t, i ∈ idxs ∧ m.(w_tensors) !! i = Some t ∧ t.(t_buffer) = Some b) as H.
  { rewrite H. split; [by intros [?%elem_of_nil|?]|by right]. }
  induction idxs as [|i l IH]; intros acc; cbn [foldl].
  - split; [by left|]. by intros [?|(i & t & ?%elem_of_nil & _)].
  - rewrite IH, elem_of_add_buffer. split.
    + intros [[?|(t & Ht & Hb)]|(j & t & Hj & Ht & Hb)]; [by left|right; exists i, t; split; [left|done]|].
      right. exists j, t. split; [by right|done].
    + intros [?|(j & t & [->|Hj]%elem_of_cons & Ht & Hb)]; [by do 2 left|left; right; by exists t|right; by exists j, t].
Qed.

Lemma NoDup_unique_buffers m idxs : NoDup (unique_buffers m idxs).
Proof.
  unfold unique_buffers. enough (∀ acc, NoDup acc → NoDup (foldl (add_buffer m) acc idxs)) as H by (apply H; constructor).
  induction idxs as [|i l IH]; intros acc Hacc; [done|]. cbn [foldl]. apply IH. unfold add_buffer.
  destruct (m.(w_tensors) !! i) as [t|]; [|done]. destruct (t.(t_buffer)) as [b|]; [|done]. case_bool_decide as Hin; [done|].
  apply NoDup_app. split; [done|]. split; [|apply NoDup_singleton]. by intros x Hx ->%list_elem_of_singleton.
Qed.

(** The children after some of them are unloaded. *)
Record children_unloaded (bs : list positive) (m m' : weights) : Prop := ChildrenUnloaded {
  cu_tensors : m'.(w_tensors) = m.(w_tensors);
  cu_next : m'.(w_next) = m.(w_next);
  cu_multi : is_multi m';
  cu_distinct : children_distinct m';
  cu_heap : ∀ b, m'.(w_heap) !! b = if decide (b ∈ bs) then None else m.(w_heap) !! b;
  cu_children : ∀ b, Some b ∈ children m' ↔ Some b ∈ children m ∧ b ∉ bs;
  cu_slots : free_slots m' = (free_slots m + length bs)%nat }.

Lemma unload_child_run b m : is_multi m → children_distinct m → Some b ∈ children m →
  ∃ m', ggml_backend_buffer_unload_child_buffer b m = (true, m') ∧ children_unloaded [b] m m'.
Proof.
  intros (cs & c & Hbuf) Hdis Hin. unfold ggml_backend_buffer_unload_child_buffer, children_distinct, children in *. rewrite Hbuf in *.
  destruct (list_find (λ c, c = Some b) cs) as [[i x]|] eqn:Hf.
  2: { exfalso. apply list_find_None in Hf. rewrite Forall_forall in Hf. by apply (Hf (Some b)). }
  apply list_find_Some in Hf as (Hi & -> & _). pose proof (lookup_lt_Some _ _ _ Hi). eexists. split; [done|].
  split; try done; unfold is_multi, children_distinct, children; cbn [mz_weight_buf with_buf].
  - by eexists _, _.
  - intros j k b' Hj Hk. apply list_lookup_insert_Some in Hj as [(_ & ? & _)|[_ Hj]]; [done|].
    apply list_lookup_insert_Some in Hk as [(_ & ? & _)|[_ Hk]]; [done|]. by apply (Hdis j k b').
  - intros b'. cbn. destruct (decide (b' ∈ [b])) as [->%list_elem_of_singleton|Hne]; [apply lookup_delete_eq|].
    apply lookup_delete_ne. intros ->. apply Hne. by apply list_elem_of_singleton.
  - intros b'. rewrite ?Hbuf, list_elem_of_singleton. split.
    + intros Hb'. apply list_elem_of_lookup in Hb' as [j Hj]. apply list_lookup_insert_Some in Hj as [(_ & ? & _)|[Hne Hj]]; [done|].
      split; [by eapply list_elem_of_lookup_2|]. intros ->. apply Hne. by apply (Hdis i j b).
    + intros [Hb' Hne]. apply list_elem_of_lookup in Hb' as [j Hj]. apply (list_elem_of_lookup_2 _ j).
      rewrite list_lookup_insert_ne; [done|]. intros ->. congruence.
  - unfold free_slots, children. cbn [mz_weight_buf with_buf]. rewrite Hbuf. pose proof (count_free_insert cs i _ None Hi) as Hc.
    rewrite decide_False, decide_True in Hc by done. cbn [length]. lia.
Qed.

Lemma unload_children_run bs : ∀ m, is_multi m → children_distinct m → NoDup bs → (∀ b, b ∈ bs → Some b ∈ children m) →
  ∃ m', unload_children bs m = (true, m') ∧ children_unloaded bs m m'.
Proof.
  induction bs as [|b bs IH]; intros m Hm Hd Hnd Hin; cbn [unload_children].
  - exists m. split; [done|]. split; try done.
    intros b'. split; [intros ?; split; [done|by intros ?%elem_of_nil]|by intros [? _]].
  - apply NoDup_cons in Hnd as [Hb Hnd].
    destruct (unload_child_run b m Hm Hd (Hin b ltac:(left))) as (m1 & -> & [A1 A2 A3 A4 A5 A6 A7]).
    destruct (IH m1 A3 A4 Hnd) as (m2 & -> & [B1 B2 B3 B4 B5 B6 B7]).
    { intros b' Hb'. apply A6. split; [apply Hin; by right|]. intros ->%list_elem_of_singleton. done. }
    exists m2. split; [done|]. split; try congruence; try done.
    + intros b'. rewrite B5, A5. destruct (decide (b' ∈ bs)), (decide (b' ∈ [b])) as [Hx|Hx], (decide (b' ∈ b :: bs)) as [Hy|Hy]; try done.
      * destruct Hy. by right.
      * destruct Hy. by right.
      * destruct Hy. apply list_elem_of_singleton in Hx as ->. left.
      * apply elem_of_cons in Hy as [->|Hy]; [|done]. destruct Hx. by apply list_elem_of_singleton.
    + intros b'. rewrite B6, A6, list_elem_of_singleton, not_elem_of_cons. tauto.
    + rewrite B7, A7. cbn [length]. lia.
Qed.

Lemma unload_tensors_run idxs : ∀ m, let m' := foldl unload_tensor m idxs in
  m'.(w_heap) = m.(w_heap) ∧ m'.(w_next) = m.(w_next) ∧ m'.(mz_weight_buf) = m.(mz_weight_buf) ∧
  length m'.(w_tensors) = length m.(w_tensors) ∧
  ∀ i, m'.(w_tensors) !! i = if decide (i ∈ idxs) then unloaded <$> m.(w_tensors) !! i else m.(w_tensors) !! i.
Proof.
  induction idxs as [|j l IH]; intros m; cbn [foldl]; [by repeat split|].
  destruct (IH (unload_tensor m j)) as (H1 & H2 & H3 & H5 & H4). unfold unload_tensor in *.
  destruct (m.(w_tensors) !! j) as [t|] eqn:Hj; cbn in *.
  - rewrite length_insert in H5. split; [done|]. split; [done|]. split; [done|]. split; [done|].
    intros i. rewrite H4. destruct (decide (i = j)) as [->|Hne].
    + rewrite (decide_True (P := j ∈ j :: l)) by left. rewrite list_lookup_insert_eq by by eapply lookup_lt_Some. rewrite Hj.
      by destruct (decide (j ∈ l)).
    + rewrite list_lookup_insert_ne by done. destruct (decide (i ∈ l)) as [Hi|Hi].
      * by rewrite decide_True by (by right).
      * rewrite decide_False; [done|]. by intros [?|?]%elem_of_cons.
  - split; [done|]. split; [done|]. split; [done|]. split; [done|]. intros i. rewrite H4. destruct (decide (i = j)) as [->|Hne].
    + rewrite (decide_True (P := j ∈ j :: l)) by left. rewrite Hj. by destruct (decide (j ∈ l)).
    + destruct (decide (i ∈ l)) as [Hi|Hi]; [by rewrite decide_True by (by right)|].
      rewrite decide_False; [done|]. by intros [?|?]%elem_of_cons.
Qed.

(** Tensor [i] has the bytes [bs] where the device reads it: at its address in a
    shared buffer, at the offset of its [extra] in a device buffer. *)
Definition holds (m : weights) (i : nat) (bs : list byte) : Prop :=
  ∃ t b buf, m.(w_tensors) !! i = Some t ∧ t.(t_nbytes) = Z.of_nat (length bs) ∧ bs ≠ [] ∧
    t.(t_buffer) = Some b ∧ m.(w_heap) !! b = Some buf ∧ t.(t_data) ≠ 0 ∧
    if buf.(b_is_svm) then t.(t_is_weight) = true ∧ buf.(b_svm_base) <= t.(t_data) ∧
        take (length bs) (drop (Z.to_nat (t.(t_data) - buf.(b_svm_base))) buf.(b_bytes)) = bs
    else ∃ off, t.(t_extra) = Some (b, off) ∧ 0 <= off ∧ take (length bs) (drop (Z.to_nat off) buf.(b_bytes)) = bs.

Lemma holds_same m m' i bs : m'.(w_tensors) !! i = m.(w_tensors) !! i →
  (∀ t b, m.(w_tensors) !! i = Some t → t.(t_buffer) = Some b → m'.(w_heap) !! b = m.(w_heap) !! b) →
  holds m i bs → holds m' i bs.
Proof.
  intros Ht Hh (t & b & buf & H1 & H2 & H3 & H4 & H5 & H6). exists t, b, buf. rewrite Ht, (Hh t b H1 H4). done.
Qed.

(** What unloading layer [L] does. *)
Record layer_unloaded (L : nat) (m m' : weights) : Prop := LayerUnloaded {
  lu_in : ∀ i, in_layer L i → m'.(w_tensors) !! i = unloaded <$> m.(w_tensors) !! i;
  lu_out : ∀ i, ¬ in_layer L i → m'.(w_tensors) !! i = m.(w_tensors) !! i;
  lu_next : m'.(w_next) = m.(w_next);
  lu_heap : ∀ b, m'.(w_heap) !! b = if decide (b ∈ unique_buffers m (layer_tensors L)) then None else m.(w_heap) !! b;
  lu_slots : free_slots m' = (free_slots m + length (unique_buffers m (layer_tensors L)))%nat }.

Lemma layer_buffer m L b : b ∈ unique_buffers m (layer_tensors L) ↔
  ∃ i t, in_layer L i ∧ m.(w_tensors) !! i = Some t ∧ t.(t_buffer) = Some b.
Proof.
  rewrite elem_of_unique_buffers. by setoid_rewrite elem_of_layer_tensors.
Qed.

(** No other tensor uses the layer's buffers. *)
Lemma other_buffer m L i t b : weights_ok m → ¬ in_layer L i → m.(w_tensors) !! i = Some t → t.(t_buffer) = Some b →
  b ∉ unique_buffers m (layer_tensors L).
Proof using Htab.
  intros Hok Hi Ht Hb (j & t' & Hj & Ht' & Hb')%layer_buffer. apply Hi. apply (together_layer L j i Hj).
  by apply (wo_owner _ Hok j i t' t b).
Qed.

Lemma unload_buffers_run m L : weights_ok m → (L < n)%nat →
  ∃ m', unload_buffers T (Z.of_nat L) m = (true, m') ∧ weights_ok m' ∧ layer_unloaded L m m'.
Proof using Htab.
  intros Hok HL. pose proof Hok as [H1 H2 H3 H4 H5 H6 H7]. unfold unload_buffers. rewrite (layer_idxs_seq m L Hok HL).
  set (bs := unique_buffers m (layer_tensors L)).
  destruct (unload_children_run bs m H3 H4 (NoDup_unique_buffers _ _)) as (m1 & -> & [A1 A2 A3 A4 A5 A6 A7]).
  { intros b (i & t & _ & Ht & Hb)%layer_buffer. by apply (H6 i t b). }
  destruct (unload_tensors_run (layer_tensors L) m1) as (B1 & B2 & B3 & B5 & B4). cbn zeta in *.
  set (m2 := foldl unload_tensor m1 (layer_tensors L)) in *. rewrite A1 in *.
  assert (Hch : children m2 = children m1) by (unfold children; by rewrite B3).
  assert (Hin : ∀ i, in_layer L i → m2.(w_tensors) !! i = unloaded <$> m.(w_tensors) !! i).
  { intros i Hi. by rewrite B4, decide_True by by apply elem_of_layer_tensors. }
  assert (Hout : ∀ i, ¬ in_layer L i → m2.(w_tensors) !! i = m.(w_tensors) !! i).
  { intros i Hi. rewrite B4, decide_False; [done|]. by intros ?%elem_of_layer_tensors. }
  assert (Hkeep : ∀ i t b, m2.(w_tensors) !! i = Some t → t.(t_buffer) = Some b →
    ¬ in_layer L i ∧ m.(w_tensors) !! i = Some t).
  { intros i t b Ht Hb. rewrite B4 in Ht. destruct (decide (i ∈ layer_tensors L)) as [Hi|Hi].
    - destruct (m.(w_tensors) !! i) as [t0|]; [|done]. injection Ht as <-. done.
    - split; [|done]. by intros ?%elem_of_layer_tensors. }
  exists m2. split; [done|]. split.
  - split.
    + by rewrite B5.
    + intros b [buf Hb]. rewrite B2, A2. apply H2. rewrite B1, A5 in Hb. destruct (decide (b ∈ bs)); [done|by exists buf].
    + unfold is_multi. by rewrite B3.
    + unfold children_distinct. by rewrite Hch.
    + intros b. rewrite Hch, A6, B1, A5. intros [Hb Hn]. rewrite decide_False by done. by apply H5.
    + intros i t b Ht Hb. destruct (Hkeep i t b Ht Hb) as [Hi Ht']. rewrite Hch. apply A6. split; [by apply (H6 i t b)|].
      by apply (other_buffer m L i t b).
    + intros i j t t' b Ht Ht' Hb Hb'. destruct (Hkeep i t b Ht Hb) as [_ Q1], (Hkeep j t' b Ht' Hb') as [_ Q2].
      by apply (H7 i j t t' b).
  - split; try done; [by rewrite B2|by intros b; rewrite B1|]. unfold free_slots in *. by rewrite Hch.
Qed.

(** ** Allocating *)
Context (a : Z) (Ha : 0 <= a <= 12) (Hal : cl_alignment = 2 ^ a).
Context (Hsvm : ∀ b, 0 < clSVMAlloc b ∧ clSVMAlloc b mod 2 ^ a = 0).

(** Where tensor [k] of a layer is in its dump. *)
Definition offset_of (bss : list (list byte)) (k : nat) : Z := Z.of_nat (length (concat (take k bss))).

(** A layer the reload is made for: the sizes are those of the table, and each
    tensor but the last is a multiple of the device's alignment. *)
Record layer_fits (bss : list (list byte)) : Prop := LayerFits {
  lf_num : length bss = num;
  lf_bytes : T.(num_bytes_per_layer) = Z.of_nat (length (concat bss));
  lf_padded : T.(padded_num_bytes_per_layer) = (Z.of_nat (length (concat bss)) + 4095) / 4096 * 4096;
  lf_small : Z.of_nat (length (concat bss)) + 4095 < 2 ^ 31;
  lf_some : ∀ k bs, bss !! k = Some bs → bs ≠ [];
  lf_aligned : ∀ k bs, (S k < num)%nat → bss !! k = Some bs → Z.of_nat (length bs) mod 2 ^ a = 0 }.

Lemma offset_S bss k bs : bss !! k = Some bs → offset_of bss (S k) = offset_of bss k + Z.of_nat (length bs).
Proof. intros Hk. unfold offset_of. rewrite (concat_take_S _ _ _ Hk). lia. Qed.

Lemma offset_aligned bss k : layer_fits bss → (k < num)%nat → offset_of bss k mod 2 ^ a = 0.
Proof using Ha.
  intros Hf. pose proof (lf_num _ Hf). induction k as [|k IH]; intros Hk; [done|].
  destruct (lookup_lt_is_Some_2 bss k) as [bs Hbs]; [lia|]. rewrite (offset_S _ _ _ Hbs), Z.add_mod by (apply Z.pow_nonzero; lia).
  rewrite IH, (lf_aligned _ Hf k bs) by (done || lia). done.
Qed.

Lemma padded_aligned x : x / 4096 * 4096 mod 2 ^ a = 0.
Proof using Ha.
  assert (E : 4096 = 2 ^ (12 - a) * 2 ^ a) by (rewrite <- Z.pow_add_r by lia; by replace (12 - a + a) with 12 by lia).
  rewrite E at 2. rewrite Z.mul_assoc. apply Z.mod_mul. apply Z.pow_nonzero; lia.
Qed.

(** Tensor [k] of the layer once it is in the buffer [b]. *)
Definition tensor_in (b : positive) (bss : list (list byte)) (k : nat) (bs : list byte) : wtensor :=
  WTensor (Z.of_nat (length bs)) (Some b) (clSVMAlloc b + offset_of bss k) None true.

(** The first [k] tensors of layer [L] are placed. *)
Definition placed_upto (L : nat) (b : positive) (bss : list (list byte)) (k : nat) (m m' : weights) : Prop :=
  m'.(w_heap) = m.(w_heap) ∧ m'.(w_next) = m.(w_next) ∧ m'.(mz_weight_buf) = m.(mz_weight_buf) ∧
  length m'.(w_tensors) = length m.(w_tensors) ∧
  (∀ j bs, (j < k)%nat → bss !! j = Some bs → m'.(w_tensors) !! (f0 + num * L + j)%nat = Some (tensor_in b bss j bs)) ∧
  ∀ i, ¬ (f0 + num * L <= i < f0 + num * L + k)%nat → m'.(w_tensors) !! i = m.(w_tensors) !! i.

(** Layer [L] is unloaded: its tensors await an address. *)
Definition layer_out (L : nat) (bss : list (list byte)) (m : weights) : Prop :=
  ∀ k bs, bss !! k = Some bs → ∃ e, m.(w_tensors) !! (f0 + num * L + k)%nat = Some (WTensor (Z.of_nat (length bs)) None 0 e true).

Lemma tallocr_alloc_run L bss k bs b bytes m m' : layer_fits bss → bss !! k = Some bs → layer_out L bss m →
  m.(w_heap) !! b = Some (WBuffer true (clSVMAlloc b) bytes) → Z.of_nat (length bytes) = T.(padded_num_bytes_per_layer) →
  placed_upto L b bss k m m' →
  ∃ m'', ggml_tallocr_alloc (f0 + num * L + k) (Tallocr b (clSVMAlloc b) cl_alignment (offset_of bss k), m') =
      Ok (Tallocr b (clSVMAlloc b) cl_alignment (offset_of bss k + pad_size (Z.of_nat (length bs)) cl_alignment), m'') ∧
    placed_upto L b bss (S k) m m''.
Proof using Ha Hal Hsvm.
  intros Hf Hk Hout Hb Hlen (P1 & P2 & P3 & P4 & P5 & P6). pose proof (lookup_lt_Some _ _ _ Hk) as Hlt. rewrite (lf_num _ Hf) in Hlt.
  destruct (Hout k bs Hk) as [e Ht]. rewrite <- P6 in Ht by lia. pose proof (Hsvm b) as [Hb0 Hbm].
  pose proof (lf_small _ Hf) as Hsm. pose proof (concat_take_le bss (S k)) as Hle. rewrite (concat_take_S _ _ _ Hk) in Hle.
  pose proof (Z.pow_le_mono_r 2 a 12 ltac:(lia) ltac:(lia)) as Hpow. pose proof (Z.pow_pos_nonneg 2 a ltac:(lia) ltac:(lia)).
  assert (Hfit : offset_of bss k + pad_size (Z.of_nat (length bs)) (2 ^ a) <= T.(padded_num_bytes_per_layer)).
  { rewrite (lf_padded _ Hf). apply pad_size_fits; [lia|lia|lia|by apply offset_aligned|apply padded_aligned|].
    unfold offset_of. Z.to_euclidean_division_equations; lia. }
  assert (Hroom : Z.of_nat (length bs) <= pad_size (Z.of_nat (length bs)) (2 ^ a)).
  { rewrite pad_size_div by lia. pose proof (Z.div_mod (Z.of_nat (length bs) + 2 ^ a - 1) (2 ^ a) ltac:(lia)).
    pose proof (Z.mod_pos_bound (Z.of_nat (length bs) + 2 ^ a - 1) (2 ^ a) ltac:(lia)). lia. }
  unfold ggml_tallocr_alloc, tensor_at, buffer_at, ggml_backend_tensor_alloc, tensor_at, buffer_at. rewrite Ht. cbn [obind ta_buffer].
  rewrite P1, Hb. cbn [obind t_nbytes ta_alignment ta_offset]. unfold b_size. cbn [b_bytes]. rewrite Hlen, Hal.
  rewrite (proj2 (Z.leb_le _ _) Hfit). cbn [assert_that obind]. unfold opencl_get_base. cbn [b_is_svm b_svm_base].
  rewrite (proj2 (Z.eqb_neq (clSVMAlloc b) 0)) by lia. cbn [negb assert_that obind].
  rewrite Z.add_mod, Hbm, (offset_aligned bss k Hf Hlt), Z.mod_0_l by lia. cbn [Z.eqb assert_that obind].
  cbn [t_buffer t_data bool_decide Z.eqb assert_that obind]. rewrite bool_decide_eq_true_2 by done. cbn [assert_that obind].
  assert (0 <= offset_of bss k) by (unfold offset_of; lia). rewrite !(proj2 (Z.leb_le _ _)) by lia. cbn [assert_that obind].
  unfold opencl_init_tensor. cbn [b_is_svm t_is_weight t_nbytes t_buffer t_data obind ta_base]. eexists. split; [done|].
  assert (Hi : (f0 + num * L + k < length m'.(w_tensors))%nat) by by eapply lookup_lt_Some.
  split; [done|]. split; [done|]. split; [done|]. cbn [w_tensors with_tensor]. split; [by rewrite length_insert|]. split.
  - intros j bs' Hj Hbs'. destruct (decide (j = k)) as [->|Hne].
    + rewrite list_lookup_insert_eq by done. assert (bs' = bs) as -> by congruence. done.
    + rewrite list_lookup_insert_ne by lia. apply P5; [lia|done].
  - intros i Hi'. rewrite list_lookup_insert_ne by lia. apply P6. lia.
Qed.

Lemma alloc_loop L bss b bytes m : layer_fits bss → layer_out L bss m →
  m.(w_heap) !! b = Some (WBuffer true (clSVMAlloc b) bytes) → Z.of_nat (length bytes) = T.(padded_num_bytes_per_layer) →
  ∀ j k m', (k + j = num)%nat → placed_upto L b bss k m m' →
  ∃ ta m'', ofold (λ i '(ta, m), t <~ tensor_at m i ;;
                if t.(t_data) =? 0 then ggml_tallocr_alloc i (ta, m) else Ok (ta, m))
              (seq (f0 + num * L + k) j) (Tallocr b (clSVMAlloc b) cl_alignment (offset_of bss k), m') = Ok (ta, m'') ∧
    placed_upto L b bss num m m''.
Proof using Ha Hal Hsvm.
  intros Hf Hout Hb Hlen. induction j as [|j IH]; intros k m' Hkj Hp; cbn [seq ofold].
  - eexists _, _. split; [done|]. by replace num with k by lia.
  - destruct (lookup_lt_is_Some_2 bss k) as [bs Hk]; [rewrite (lf_num _ Hf); lia|].
    destruct (tallocr_alloc_run L bss k bs b bytes m m' Hf Hk Hout Hb Hlen Hp) as (m1 & Hrun & Hp1).
    destruct (Hout k bs Hk) as [e Ht]. destruct Hp as (_ & _ & _ & _ & _ & P6). rewrite <- P6 in Ht by lia.
    unfold tensor_at at 1. rewrite Ht. cbn [obind t_data Z.eqb]. rewrite Hrun. cbn [obind].
    replace (S (f0 + num * L + k)) with (f0 + num * L + S k)%nat by lia. destruct (decide (S k < num)%nat) as [Hs|Hs].
    + rewrite Hal, pad_size_aligned, <- Hal, <- (offset_S bss k bs Hk); [apply IH; [lia|done]|lia|lia| |by apply (lf_aligned _ Hf k)].
      pose proof (lf_small _ Hf). pose proof (concat_take_le bss (S k)) as Hle. rewrite (concat_take_S _ _ _ Hk) in Hle.
      pose proof (Z.pow_le_mono_r 2 a 12 ltac:(lia) ltac:(lia)). lia.
    + assert (j = 0)%nat as -> by lia. cbn [seq ofold]. eexists _, _. split; [done|]. by replace num with (S k) by lia.
Qed.

Lemma fill_slots_one cs b : None ∈ cs → ∃ i, cs !! i = Some None ∧ fill_slots cs [b] = <[i := Some b]> cs.
Proof.
  induction cs as [|[c|] cs IH]; [by intros ?%elem_of_nil| |].
  - intros [?|Hin]%elem_of_cons; [done|]. destruct (IH Hin) as (i & Hi & He). exists (S i). split; [done|]. cbn. by rewrite He.
  - intros _. exists 0%nat. split; [done|]. cbn. by destruct cs as [|[]].
Qed.

Lemma concat_one b m : is_multi m → None ∈ children m →
  ∃ i cs c, m.(mz_weight_buf) = MultiBuffer cs c ∧ cs !! i = Some None ∧
    ggml_backend_multi_buffer_concat_buffer [b] m = Ok (true, with_buf (MultiBuffer (<[i := Some b]> cs) (c + 1)) m).
Proof.
  intros (cs & c & Hbuf) Hin. unfold children in Hin. rewrite Hbuf in Hin. destruct (fill_slots_one cs b Hin) as (i & Hi & He).
  exists i, cs, c. split; [done|]. split; [done|]. unfold ggml_backend_multi_buffer_concat_buffer. rewrite Hbuf, He. cbn [length].
  rewrite bool_decide_eq_false_2; [done|]. intros Hlt.
  assert (None ∈ filter (λ c, c = None) cs) as Hf by (apply list_elem_of_filter; done).
  destruct (filter _ cs); [by apply elem_of_nil in Hf|cbn in Hlt; lia].
Qed.

(** Layer [L] has a fresh buffer [b] of its own. *)
Record layer_allocated (L : nat) (bss : list (list byte)) (m m' : weights) : Prop := LayerAllocated {
  la_in : ∀ k bs, bss !! k = Some bs → m'.(w_tensors) !! (f0 + num * L + k)%nat = Some (tensor_in m.(w_next) bss k bs);
  la_out : ∀ i, ¬ in_layer L i → m'.(w_tensors) !! i = m.(w_tensors) !! i;
  la_slots : free_slots m = S (free_slots m');
  la_heap : ∃ bytes, Z.of_nat (length bytes) = T.(padded_num_bytes_per_layer) ∧
    m'.(w_heap) = <[m.(w_next) := WBuffer true (clSVMAlloc m.(w_next)) bytes]> m.(w_heap) }.

(** The buffer of the layer, with its tensors in it, before it joins the others. *)
Lemma alloc_range_run m L bss last : weights_ok m → (L < n)%nat → layer_fits bss → layer_out L bss m →
  first_tensor T (Z.of_nat L + 1) = Ok last →
  ∃ bytes m1, Z.of_nat (length bytes) = T.(padded_num_bytes_per_layer) ∧
    alloc_tensor_range (Some (f0 + num * L)%nat) last T.(num_bytes_per_layer) true m = Ok (Some m.(w_next), m1) ∧
    placed_upto L m.(w_next) bss num (Weights m.(w_tensors) (<[m.(w_next) := WBuffer true (clSVMAlloc m.(w_next)) bytes]> m.(w_heap))
      (Pos.succ m.(w_next)) m.(mz_weight_buf)) m1.
Proof using Ha Hal Hsvm Htab.
  intros Hok HL Hf Hout Hlast. unfold alloc_tensor_range, alloc_buffer. cbn [negb andb]. set (b := m.(w_next)). set (size := if _ : bool then _ else _).
  assert (Hsome : 0 < T.(num_bytes_per_layer)).
  { rewrite (lf_bytes _ Hf). pose proof (lf_num _ Hf) as Hl. pose proof (tb_num _ _ _ _ Htab). destruct bss as [|bs bss]; [cbn in Hl; lia|].
    pose proof (lf_some _ Hf 0%nat bs eq_refl). destruct bs; [done|]. cbn. lia. }
  assert (Hsize : size = T.(padded_num_bytes_per_layer)).
  { unfold size. rewrite (lf_padded _ Hf), <- (lf_bytes _ Hf). destruct (Z.ltb_spec T.(num_bytes_per_layer) 4096).
    - replace ((num_bytes_per_layer T + 4095) / 4096) with 1; [lia|]. Z.to_euclidean_division_equations; lia.
    - do 2 f_equal. lia. }
  assert (Hpos : 0 < size).
  { rewrite Hsize, (lf_padded _ Hf), <- (lf_bytes _ Hf). Z.to_euclidean_division_equations; lia. }
  set (bytes := fresh_byte b <$> seqZ 0 (Z.max size 1)).
  assert (Hbytes : Z.of_nat (length bytes) = T.(padded_num_bytes_per_layer)).
  { unfold bytes. rewrite length_fmap, length_seqZ. lia. }
  set (m1 := Weights m.(w_tensors) (<[b := WBuffer true (clSVMAlloc b) bytes]> m.(w_heap)) (Pos.succ b) m.(mz_weight_buf)).
  assert (Hb : m1.(w_heap) !! b = Some (WBuffer true (clSVMAlloc b) bytes)) by apply lookup_insert_eq.
  pose proof (Hsvm b) as [Hb0 Hbm].
  unfold ggml_tallocr_new, buffer_at, opencl_get_base. rewrite Hb. cbn [obind b_is_svm b_svm_base].
  rewrite (proj2 (Z.eqb_neq (clSVMAlloc b) 0)) by lia. cbn [negb assert_that obind].
  assert (Hoff : aligned_offset (clSVMAlloc b) 0 cl_alignment = 0).
  { unfold aligned_offset. rewrite Hal, Z.add_0_r, Hbm, Z.sub_0_r, Z.mod_same; [done|]. apply Z.pow_nonzero; lia. }
  rewrite Hoff. assert (Hts : tensors_between m1 (Some (f0 + num * L)%nat) last = Ok (seq (f0 + num * L + 0) num)).
  { unfold tensors_between. cbn [w_tensors m1]. rewrite Nat.add_0_r. replace (Z.of_nat L + 1) with (Z.of_nat (S L)) in Hlast by lia.
    destruct (decide (S L < n)%nat) as [Hn|Hn].
    - rewrite (tb_first _ _ _ _ Htab _ Hn) in Hlast. injection Hlast as <-. rewrite bool_decide_eq_true_2 by nia. do 2 f_equal. nia.
    - replace (S L) with n in Hlast by lia. rewrite (tb_last _ _ _ _ Htab) in Hlast. injection Hlast as <-.
      rewrite (wo_len _ Hok). do 2 f_equal. replace n with (S L) by lia. nia. }
  rewrite Hts. cbn [obind].
  destruct (alloc_loop L bss b bytes m1 Hf Hout Hb Hbytes num 0%nat m1 ltac:(lia)) as (ta & m2 & Hrun & Hp).
  { split; [done|]. split; [done|]. split; [done|]. split; [done|]. split; [intros; lia|done]. }
  change (offset_of bss 0) with 0 in Hrun. rewrite Hrun. cbn [obind]. by exists bytes, m2.
Qed.

(** The new buffer takes a free slot among the children. *)
Lemma publish_ok m m' L b bss i buf c : weights_ok m → m.(w_heap) !! b = None → length bss = num →
  length m'.(w_tensors) = length m.(w_tensors) → m'.(w_heap) = <[b := buf]> m.(w_heap) → m'.(w_next) = Pos.succ b → m.(w_next) = b →
  m'.(mz_weight_buf) = MultiBuffer (<[i := Some b]> (children m)) c → children m !! i = Some None →
  (∀ k bs, bss !! k = Some bs → m'.(w_tensors) !! (f0 + num * L + k)%nat = Some (tensor_in b bss k bs)) →
  (∀ i, ¬ in_layer L i → m'.(w_tensors) !! i = m.(w_tensors) !! i) → weights_ok m'.
Proof using Ha.
  intros [H1 H2 H3 H4 H5 H6 H7] Hnew Hnum Elen Eheap Enext En Ebuf Hi Hin Hout. pose proof (lookup_lt_Some _ _ _ Hi) as Hil.
  assert (Hch : children m' = <[i := Some b]> (children m)) by (unfold children at 1; by rewrite Ebuf).
  assert (Hnotin : Some b ∉ children m) by (intros Hx; destruct (H5 b Hx); congruence).
  assert (Hmem : ∀ x, Some x ∈ children m' ↔ x = b ∨ Some x ∈ children m).
  { intros x. rewrite Hch. split.
    - intros Hx. apply list_elem_of_lookup in Hx as [j Hj]. apply list_lookup_insert_Some in Hj as [(_ & [= ->] & _)|[_ Hj]]; [by left|].
      right. by eapply list_elem_of_lookup_2.
    - intros [->|Hx]; [apply (list_elem_of_lookup_2 _ i); by apply list_lookup_insert_eq|].
      apply list_elem_of_lookup in Hx as [j Hj]. apply (list_elem_of_lookup_2 _ j). rewrite list_lookup_insert_ne; [done|]. intros ->. congruence. }
  assert (Hcase : ∀ j t x, m'.(w_tensors) !! j = Some t → t.(t_buffer) = Some x →
    in_layer L j ∧ x = b ∨ m.(w_tensors) !! j = Some t ∧ x ≠ b).
  { intros j t x Ht Hx. destruct (decide (f0 + num * L <= j < f0 + num * L + num)%nat) as [Hj|Hj].
    - left. split; [done|]. destruct (lookup_lt_is_Some_2 bss (j - (f0 + num * L))) as [bs Hbs]; [lia|]. pose proof (Hin _ bs Hbs) as Hk.
      replace (f0 + num * L + (j - (f0 + num * L)))%nat with j in Hk by lia. rewrite Hk in Ht. injection Ht as <-. by injection Hx as <-.
    - right. rewrite Hout in Ht by done. split; [done|]. intros ->. apply Hnotin. by apply (H6 j t b). }
  split.
  - by rewrite Elen.
  - intros x. rewrite Eheap, Enext. destruct (decide (x = b)) as [->|Hx]; [lia|]. rewrite lookup_insert_ne by done.
    intros Hs. specialize (H2 x Hs). lia.
  - by eexists _, _.
  - intros j k x Hj Hk. rewrite Hch in Hj, Hk.
    apply list_lookup_insert_Some in Hj as [(E1 & E2 & _)|[Hj' Hj]]; apply list_lookup_insert_Some in Hk as [(E3 & E4 & _)|[Hk' Hk]].
    + congruence.
    + destruct Hnotin. injection E2 as <-. by eapply list_elem_of_lookup_2.
    + destruct Hnotin. injection E4 as <-. by eapply list_elem_of_lookup_2.
    + by apply (H4 j k x).
  - intros x Hx. rewrite Eheap. destruct (decide (x = b)) as [->|Hne]; [by rewrite lookup_insert_eq|]. rewrite lookup_insert_ne by done.
    apply H5. by apply Hmem in Hx as [->|Hx].
  - intros j t x Ht Hx. apply Hmem. destruct (Hcase j t x Ht Hx) as [[_ ->]|[Ht' _]]; [by left|right]. by apply (H6 j t x).
  - intros j k t t' x Ht Ht' Hx Hx'. destruct (Hcase j t x Ht Hx) as [[Hj ->]|[Q1 N1]], (Hcase k t' _ Ht' Hx') as [[Hk E]|[Q2 N2]]; try done.
    + right. by exists L.
    + by apply (H7 j k t t' x).
Qed.

Lemma alloc_weight_layer_run m L bss : weights_ok m → (L < n)%nat → layer_fits bss → layer_out L bss m → None ∈ children m →
  ∃ m', alloc_weight_layer T (Z.of_nat L) m = Ok (true, m') ∧ weights_ok m' ∧ layer_allocated L bss m m'.
Proof using Ha Hal Hsvm Htab.
  intros Hok HL Hf Hout Hslot. unfold alloc_weight_layer. rewrite (tb_first _ _ _ _ Htab L HL). cbn [obind].
  assert (∃ last, first_tensor T (Z.of_nat L + 1) = Ok last) as [last Hlast].
  { replace (Z.of_nat L + 1) with (Z.of_nat (S L)) by lia. destruct (decide (S L < n)%nat) as [Hn|Hn].
    - eexists. by apply (tb_first _ _ _ _ Htab).
    - replace (S L) with n by lia. eexists. by apply (tb_last _ _ _ _ Htab). }
  rewrite Hlast. cbn [obind]. unfold ggml_backend_alloc_ctx_given_tensors_from_buft.
  destruct (alloc_range_run m L bss last Hok HL Hf Hout Hlast) as (bytes & m1 & Hbytes & -> & P1 & P2 & P3 & P4 & P5 & P6).
  cbn [obind w_heap w_next mz_weight_buf w_tensors] in *. assert (Hch1 : children m1 = children m) by (unfold children; by rewrite P3).
  destruct (concat_one m.(w_next) m1) as (i & cs & c & Hcs & Hi & ->).
  { unfold is_multi. rewrite P3. apply Hok. }
  { by rewrite Hch1. }
  cbn [obind]. eexists. split; [done|]. assert (Hcsm : children m = cs) by (unfold children; by rewrite <- P3, Hcs).
  assert (Hin : ∀ k bs, bss !! k = Some bs → m1.(w_tensors) !! (f0 + num * L + k)%nat = Some (tensor_in m.(w_next) bss k bs)).
  { intros k bs Hk. apply (P5 k bs); [rewrite <- (lf_num _ Hf); by eapply lookup_lt_Some|done]. }
  split.
  - eapply (publish_ok m _ L m.(w_next) bss i); [done| |apply Hf|exact P4|exact P1|exact P2|done| | |exact Hin|exact P6].
    + apply eq_None_not_Some. intros Hs. pose proof (wo_fresh _ Hok _ Hs). lia.
    + cbn. by rewrite Hcsm.
    + by rewrite Hcsm.
  - split; [exact Hin|exact P6| |].
    + unfold free_slots. rewrite Hcsm. cbn [children mz_weight_buf with_buf].
      pose proof (count_free_insert cs i _ (Some m.(w_next)) Hi) as Hc.
      rewrite decide_True, decide_False in Hc by done. lia.
    + exists bytes. by split.
Qed.

(** ** Reading a dump *)

(** Layer [L] is in the buffer [b], which holds [whole]. *)
Definition layer_in (L : nat) (bss : list (list byte)) (b : positive) (whole : list byte) (m : weights) : Prop :=
  m.(w_heap) !! b = Some (WBuffer true (clSVMAlloc b) whole) ∧
  ∀ k bs, bss !! k = Some bs → m.(w_tensors) !! (f0 + num * L + k)%nat = Some (tensor_in b bss k bs).

Lemma read_weight_layer_run m L bss b whole file : (L < n)%nat → layer_fits bss → layer_in L bss b whole m →
  length whole = length file → Z.of_nat (length file) = T.(padded_num_bytes_per_layer) →
  read_weight_layer T (Z.of_nat L) file m =
    Ok (true, with_heap (<[b := WBuffer true (clSVMAlloc b) file]> m.(w_heap)) m).
Proof using Ha Hsvm Htab.
  intros HL Hf [Hb Hin] Hw Hlen. unfold read_weight_layer. pose proof (lf_small _ Hf). pose proof (tb_num _ _ _ _ Htab).
  assert (Hpad : T.(padded_num_bytes_per_layer) mod 4096 = 0 ∧ 0 <= T.(padded_num_bytes_per_layer) < 2 ^ 31).
  { rewrite (lf_padded _ Hf). split; [by apply Z.mod_mul|]. Z.to_euclidean_division_equations; lia. }
  rewrite u64_id, (proj1 Hpad) by lia. cbn [Z.eqb negb]. rewrite (tb_first _ _ _ _ Htab L HL). cbn [obind].
  destruct (lookup_lt_is_Some_2 bss 0%nat) as [bs Hbs]; [rewrite (lf_num _ Hf); lia|]. specialize (Hin 0%nat bs Hbs).
  rewrite Nat.add_0_r in Hin. unfold tensor_at, buffer_at. rewrite Hin. cbn [obind tensor_in t_buffer t_data]. rewrite Hb.
  cbn [obind b_is_svm b_svm_base negb orb]. change (offset_of bss 0) with 0. rewrite Z.add_0_r. pose proof (Hsvm b) as [Hb0 _].
  rewrite (proj2 (Z.eqb_neq (clSVMAlloc b) 0)), Z.sub_diag by lia. rewrite <- Hlen, Nat2Z.id, firstn_all. unfold b_size. cbn [b_bytes].
  rewrite Hw, Z.add_0_l, !Z.leb_refl. cbn [andb assert_that obind]. rewrite Z.ltb_irrefl.
  unfold write_bytes. rewrite Z2Nat.inj_0, Nat.add_0_l, <- Hw, drop_all, app_nil_r. done.
Qed.

Lemma layer_in_holds L bss b rest m k bs : layer_fits bss → layer_in L bss b (concat bss ++ rest) m → bss !! k = Some bs →
  holds m (f0 + num * L + k) bs.
Proof using Ha Hsvm.
  intros Hf [Hb Hin] Hk. exists (tensor_in b bss k bs), b, (WBuffer true (clSVMAlloc b) (concat bss ++ rest)).
  pose proof (Hsvm b) as [Hb0 _]. assert (0 <= offset_of bss k) by (unfold offset_of; lia).
  split; [by apply Hin|]. split; [done|]. split; [by apply (lf_some _ Hf k)|]. split; [done|]. split; [done|].
  cbn [tensor_in t_data b_is_svm b_svm_base t_is_weight b_bytes]. split; [lia|]. split; [done|]. split; [lia|].
  replace (clSVMAlloc b + offset_of bss k - clSVMAlloc b) with (offset_of bss k) by lia. unfold offset_of. rewrite Nat2Z.id.
  by apply take_drop_concat.
Qed.

Lemma length_dump bss : layer_fits bss → Z.of_nat (length (pad4k (concat bss))) = T.(padded_num_bytes_per_layer).
Proof using Type. intros Hf. by rewrite length_pad4k, (lf_padded _ Hf). Qed.

(** ** Out and in *)

Definition layer_holds (m : weights) (L : nat) (bss : list (list byte)) : Prop :=
  ∀ k bs, bss !! k = Some bs → holds m (f0 + num * L + k) bs.

(** A layer with contents has a buffer to give back. *)
Lemma layer_has_buffer m L bss : layer_fits bss → layer_holds m L bss → (0 < length (unique_buffers m (layer_tensors L)))%nat.
Proof using Htab.
  intros Hf Hh. pose proof (tb_num _ _ _ _ Htab). destruct (lookup_lt_is_Some_2 bss 0%nat) as [bs Hbs]; [rewrite (lf_num _ Hf); lia|].
  destruct (Hh 0%nat bs Hbs) as (t & b & buf & Ht & _ & _ & Hb & _).
  assert (Hin : b ∈ unique_buffers m (layer_tensors L)).
  { apply layer_buffer. exists (f0 + num * L + 0)%nat, t. split; [|done]. unfold in_layer. lia. }
  destruct (unique_buffers m (layer_tensors L)); [by apply elem_of_nil in Hin|cbn; lia].
Qed.

Lemma unloaded_out m m1 L bss : layer_fits bss → layer_holds m L bss → layer_unloaded L m m1 → layer_out L bss m1.
Proof using Ha.
  intros Hf Hh Hlu k bs Hk. destruct (Hh k bs Hk) as (t & b & buf & Ht & Hn & _). exists t.(t_extra). rewrite (lu_in _ _ _ Hlu), Ht.
  - cbn. unfold unloaded. by rewrite Hn.
  - unfold in_layer. apply lookup_lt_Some in Hk. rewrite (lf_num _ Hf) in Hk. lia.
Qed.

Lemma unloaded_other m m1 L i bs : weights_ok m → layer_unloaded L m m1 → ¬ in_layer L i → holds m i bs → holds m1 i bs.
Proof using Htab.
  intros Hok Hlu Hi. apply holds_same; [by apply (lu_out _ _ _ Hlu)|]. intros t b Ht Hb.
  rewrite (lu_heap _ _ _ Hlu), decide_False; [done|]. by apply (other_buffer m L i t b).
Qed.

Lemma cycle_run m L bss : weights_ok m → (L < n)%nat → layer_fits bss → layer_holds m L bss →
  ∃ m1 m2 m3, unload_buffers T (Z.of_nat L) m = (true, m1) ∧ alloc_weight_layer T (Z.of_nat L) m1 = Ok (true, m2) ∧
    read_weight_layer T (Z.of_nat L) (pad4k (concat bss)) m2 = Ok (true, m3) ∧
    layer_unloaded L m m1 ∧ weights_ok m3 ∧ layer_in L bss m.(w_next) (pad4k (concat bss)) m3 ∧
    ∀ i bs, ¬ in_layer L i → holds m i bs → holds m3 i bs.
Proof using Ha Hal Hsvm Htab.
  intros Hok HL Hf Hh. destruct (unload_buffers_run m L Hok HL) as (m1 & Hun & Hok1 & Hlu). pose proof Hlu as [U1 U2 U3 U4 U5].
  pose proof (unloaded_out m m1 L bss Hf Hh Hlu) as Hout.
  assert (Hslot : None ∈ children m1).
  { apply count_free_pos. change (0 < free_slots m1)%nat. rewrite U5. pose proof (layer_has_buffer m L bss Hf Hh). lia. }
  destruct (alloc_weight_layer_run m1 L bss Hok1 HL Hf Hout Hslot) as (m2 & Hal2 & Hok2 & [A1 A2 _ (bytes & Hbytes & A3)]).
  rewrite U3 in *. assert (Hlin : layer_in L bss m.(w_next) bytes m2) by (split; [rewrite A3; apply lookup_insert_eq|exact A1]).
  pose proof (length_dump bss Hf) as Hdump.
  pose proof (read_weight_layer_run m2 L bss _ bytes (pad4k (concat bss)) HL Hf Hlin ltac:(lia) Hdump) as Hrd.
  rewrite A3, insert_insert_eq in Hrd. set (m3 := with_heap _ m2) in Hrd. exists m1, m2, m3. split; [done|]. split; [done|]. split; [done|].
  split; [done|]. split; [|split; [split; [apply lookup_insert_eq|exact A1]|]].
  - destruct Hok2 as [H1 H2 H3 H4 H5 H6 H7].
    assert (Hdom : ∀ x, is_Some (m3.(w_heap) !! x) ↔ is_Some (m2.(w_heap) !! x)).
    { intros x. rewrite A3. cbn. destruct (decide (x = w_next m)) as [->|Hx]; [by rewrite !lookup_insert_eq|by rewrite !lookup_insert_ne]. }
    split; try done; intros x; [rewrite Hdom; apply H2|intros Hx; apply Hdom; by apply H5].
  - intros i bs Hi Hhi. revert Hhi. apply holds_same.
    + cbn [m3 with_heap w_tensors]. rewrite A2 by done. by apply U2.
    + intros t b Ht Hb. cbn [m3 with_heap w_heap]. assert (Hlive : is_Some (m.(w_heap) !! b)) by (apply Hok; by apply (wo_child _ Hok i t b)).
      rewrite lookup_insert_ne by (intros <-; pose proof (wo_fresh _ Hok _ Hlive); lia).
      rewrite U4, decide_False; [done|]. by apply (other_buffer m L i t b).
Qed.
End device.
