(* ===== verification/WeightLayers.v ===== *)
(** A model's own allocation gives every tensor a device buffer of its own and
    establishes the invariant of [WeightOpsThms]; a weight layer written to its
    dump, unloaded and reloaded; and what a second dump of the reloaded layer
    holds. *)
From S2P Require Import Prelude KvTypes WeightOps WeightOpsThms.

Section load.
Context `{Dr : WeightDriver} (a : Z) (Ha : 0 <= a <= 12) (Hal : cl_alignment = 2 ^ a) (Hcl : ∀ b, clCreateBuffer_ok b = true).

(** A tensor as [create_tensor] leaves it. *)
Definition new_tensor (size : Z) : wtensor := WTensor size None 0 None false.

(** Nothing is allocated; every tensor has a size. *)
Record unallocated (sizes : list Z) (m : weights) : Prop := Unallocated {
  un_tensors : m.(w_tensors) = new_tensor <$> sizes;
  un_sizes : ∀ s, s ∈ sizes → 0 < s < 2 ^ 40;
  un_next : m.(w_next) = 1%positive;
  un_heap : m.(w_heap) = ∅ }.

(** Tensor [i] gets the [i]-th buffer. *)
Definition buffer_id (i : nat) : positive := Pos.of_succ_nat i.
Definition loaded_tensor (i : nat) (size : Z) : wtensor :=
  WTensor size (Some (buffer_id i)) cl_alignment (Some (buffer_id i, 0)) false.

(** The first [k] tensors have their buffers. *)
Record loaded_upto (sizes : list Z) (k : nat) (m m' : weights) : Prop := LoadedUpto {
  lo_length : length m'.(w_tensors) = length sizes;
  lo_in : ∀ i s, (i < k)%nat → sizes !! i = Some s → m'.(w_tensors) !! i = Some (loaded_tensor i s);
  lo_out : ∀ i s, (k <= i)%nat → sizes !! i = Some s → m'.(w_tensors) !! i = Some (new_tensor s);
  lo_next : m'.(w_next) = buffer_id k;
  lo_heap : ∀ b, is_Some (m'.(w_heap) !! b) ↔ ∃ i, (i < k)%nat ∧ b = buffer_id i;
  lo_buf : ∀ i s, (i < k)%nat → sizes !! i = Some s → ∃ bytes, m'.(w_heap) !! buffer_id i = Some (WBuffer false 0 bytes) ∧
    s <= Z.of_nat (length bytes) }.

Lemma buffer_id_inj i j : buffer_id i = buffer_id j → i = j.
Proof. unfold buffer_id. lia. Qed.

Lemma buffer_ids_snoc k : (0 < k)%nat → (buffer_id <$> seq 0 (k - 1)) ++ [buffer_id (k - 1)] = buffer_id <$> seq 0 k.
Proof. intros Hk. destruct k as [|k]; [lia|]. rewrite seq_S, fmap_app. by rewrite Nat.sub_succ, Nat.sub_0_r. Qed.

Lemma pad_size_ge s : 0 < s < 2 ^ 40 → s <= pad_size s (2 ^ a).
Proof using Ha.
  intros Hs. pose proof (Z.pow_le_mono_r 2 a 12 ltac:(lia) ltac:(lia)). pose proof (Z.pow_pos_nonneg 2 a ltac:(lia) ltac:(lia)).
  rewrite pad_size_div by lia. pose proof (Z.div_mod (s + 2 ^ a - 1) (2 ^ a) ltac:(lia)).
  pose proof (Z.mod_pos_bound (s + 2 ^ a - 1) (2 ^ a) ltac:(lia)). lia.
Qed.

(** One tensor in one buffer. *)
Lemma alloc_one sizes k s last m m' : loaded_upto sizes k m m' → sizes !! k = Some s → 0 < s < 2 ^ 40 →
  last = Some (S k) ∨ last = None ∧ length sizes = S k →
  ∃ m'', alloc_tensor_range (Some k) last (pad_size s cl_alignment) false m' = Ok (Some (buffer_id k), m'') ∧
    loaded_upto sizes (S k) m m''.
Proof using Ha Hal Hcl.
  intros [L1 L2 L3 L4 L5 L6] Hk Hs Hlast. pose proof (pad_size_ge s Hs) as Hge. pose proof (lookup_lt_Some _ _ _ Hk) as Hlt.
  pose proof (Z.pow_pos_nonneg 2 a ltac:(lia) ltac:(lia)) as Hpos. unfold alloc_tensor_range, alloc_buffer. rewrite Hcl. cbn [negb andb].
  rewrite L4, Hal. set (bytes := fresh_byte _ <$> _). assert (Hb : Z.of_nat (length bytes) = pad_size s (2 ^ a)).
  { unfold bytes. rewrite length_fmap, length_seqZ. lia. }
  set (m1 := Weights _ _ _ _). assert (Hb1 : m1.(w_heap) !! buffer_id k = Some (WBuffer false 0 bytes)) by apply lookup_insert_eq.
  unfold ggml_tallocr_new, buffer_at. rewrite Hb1. cbn [obind]. unfold opencl_get_base. cbn [b_is_svm]. rewrite Hal.
  rewrite (proj2 (Z.eqb_neq (2 ^ a) 0)) by lia. cbn [negb assert_that obind].
  assert (Hoff : aligned_offset (2 ^ a) 0 (2 ^ a) = 0).
  { unfold aligned_offset. by rewrite Z.add_0_r, Z.mod_same, Z.sub_0_r, Z.mod_same by lia. }
  rewrite Hoff. assert (Hts : tensors_between m1 (Some k) last = Ok [k]).
  { unfold tensors_between. cbn [m1 w_tensors]. destruct Hlast as [->|[-> Hl]].
    - rewrite bool_decide_eq_true_2 by lia. by replace (S k - k)%nat with 1%nat by lia.
    - rewrite L1, Hl. by replace (S k - k)%nat with 1%nat by lia. }
  rewrite Hts. pose proof (L3 k s ltac:(lia) Hk) as Ht. cbn [obind ofold]. unfold tensor_at at 1. cbn [m1 w_tensors]. rewrite Ht.
  cbn [obind new_tensor t_data Z.eqb]. unfold ggml_tallocr_alloc, ggml_backend_tensor_alloc, tensor_at, buffer_at. cbn [m1 w_tensors].
  rewrite Ht. cbn [obind ta_buffer]. fold m1. rewrite Hb1. cbn [obind new_tensor t_nbytes ta_alignment ta_offset]. unfold b_size. cbn [b_bytes].
  rewrite Hb, Z.add_0_l, Z.leb_refl. cbn [assert_that obind]. unfold opencl_get_base. cbn [b_is_svm]. rewrite Hal.
  rewrite (proj2 (Z.eqb_neq (2 ^ a) 0)) by lia. cbn [negb assert_that obind]. rewrite Z.add_0_r, Z.mod_same by lia.
  cbn [Z.eqb assert_that obind t_buffer t_data t_nbytes]. rewrite bool_decide_eq_true_2 by done. cbn [assert_that obind].
  rewrite Z.leb_refl, (proj2 (Z.leb_le (2 ^ a + s) _)) by lia. cbn [assert_that obind].
  unfold opencl_init_tensor, opencl_get_base. cbn [b_is_svm]. rewrite Hal, (proj2 (Z.eqb_neq (2 ^ a) 0)) by lia.
  cbn [negb assert_that obind t_nbytes t_buffer t_data t_is_weight]. rewrite Z.sub_diag. eexists. split; [done|].
  assert (Hkl : (k < length m'.(w_tensors))%nat) by lia. split; cbn [w_tensors w_next w_heap with_tensor m1].
  - by rewrite length_insert.
  - intros i s' Hi Hs'. destruct (decide (i = k)) as [->|Hne].
    + rewrite list_lookup_insert_eq by done. assert (s' = s) as -> by congruence. unfold loaded_tensor. by rewrite Hal.
    + rewrite list_lookup_insert_ne by done. apply L2; [lia|done].
  - intros i s' Hi Hs'. rewrite list_lookup_insert_ne by lia. apply L3; [lia|done].
  - unfold buffer_id. lia.
  - intros b. destruct (decide (b = buffer_id k)) as [->|Hne].
    + rewrite lookup_insert_eq. split; [intros _; exists k; lia|by intros _; eexists].
    + rewrite lookup_insert_ne, L5 by done. split; intros (i & Hi & ->); exists i; (split; [|done]); [lia|].
      destruct (decide (i = k)) as [->|]; [done|lia].
  - intros i s' Hi Hs'. destruct (decide (i = k)) as [->|Hne].
    + exists bytes. rewrite lookup_insert_eq. split; [done|]. assert (s' = s) as -> by congruence. lia.
    + rewrite lookup_insert_ne by (intros ?%buffer_id_inj; lia). apply L6; [lia|done].
Qed.

Lemma alloc_rounds sizes m : unallocated sizes m → ∀ j k m', (k + j = length sizes)%nat → (0 < k)%nat → loaded_upto sizes (k - 1) m m' →
  ∃ m'', ofold alloc_round (seq k j)
      (Some ((k - 1)%nat, pad_size (default 0 (sizes !! (k - 1)%nat)) cl_alignment, buffer_id <$> seq 0 (k - 1)), m') =
    Ok (Some ((length sizes - 1)%nat, pad_size (default 0 (sizes !! (length sizes - 1)%nat)) cl_alignment,
              buffer_id <$> seq 0 (length sizes - 1)), m'') ∧ loaded_upto sizes (length sizes - 1) m m''.
Proof using Ha Hal Hcl.
  intros Hun. induction j as [|j IH]; intros k m' Hkj Hk Hlo; cbn [seq ofold].
  - exists m'. by replace (length sizes) with k by lia.
  - destruct (lookup_lt_is_Some_2 sizes (k - 1)%nat) as [s Hs]; [lia|]. destruct (lookup_lt_is_Some_2 sizes k) as [s' Hs']; [lia|].
    pose proof (un_sizes _ _ Hun s (list_elem_of_lookup_2 _ _ _ Hs)) as Hb. pose proof (un_sizes _ _ Hun s' (list_elem_of_lookup_2 _ _ _ Hs')) as Hb'.
    pose proof (pad_size_ge s Hb) as Hge. pose proof (pad_size_ge s' Hb') as Hge'.
    unfold alloc_round at 1, tensor_at. rewrite (lo_out _ _ _ _ Hlo k s') by (done || lia). cbn [obind new_tensor t_data t_nbytes Z.eqb].
    rewrite Hs. cbn [default id]. rewrite Hal in *. rewrite !(proj2 (Z.ltb_lt 0 _)) by lia. cbn [andb].
    destruct (alloc_one sizes (k - 1) s (Some k) m m' Hlo Hs Hb) as (m1 & Hrun & Hlo1); [left; f_equal; lia|].
    rewrite Hal in Hrun. rewrite Hrun. cbn [obind]. replace (S (k - 1)) with k in Hlo1 by lia.
    destruct (IH (S k) m1 ltac:(lia) ltac:(lia)) as (m2 & Hrun2 & Hlo2); [by replace (S k - 1)%nat with k by lia|].
    exists m2. split; [|done]. rewrite <- Hrun2. replace (S k - 1)%nat with k by lia. rewrite Hs'. cbn [default id].
    by rewrite buffer_ids_snoc by lia.
Qed.

(** Once all tensors have their buffers and the multi-buffer has them as its children. *)
Lemma loaded_ok n num f0 sizes m m3 c : loaded_upto sizes (length sizes) m m3 → length sizes = (f0 + num * n)%nat →
  m3.(mz_weight_buf) = MultiBuffer (Some <$> (buffer_id <$> seq 0 (length sizes))) c →
  weights_ok (n := n) (num := num) (f0 := f0) m3.
Proof using Ha.
  intros Hlo2 Hnum Hbuf. assert (Hch : children m3 = Some <$> (buffer_id <$> seq 0 (length sizes))) by (unfold children; by rewrite Hbuf).
  assert (Hat : ∀ i b, children m3 !! i = Some (Some b) → b = buffer_id i ∧ (i < length sizes)%nat).
  { intros i b Hi. rewrite Hch, <- list_fmap_compose, list_lookup_fmap in Hi.
    apply fmap_Some in Hi as (j & [-> Hj]%lookup_seq & Hc). injection Hc as ->. done. }
  assert (Hten : ∀ i t b, m3.(w_tensors) !! i = Some t → t.(t_buffer) = Some b → (i < length sizes)%nat ∧ b = buffer_id i).
  { intros i t b Ht Hb'. pose proof (lookup_lt_Some _ _ _ Ht) as Hi. rewrite (lo_length _ _ _ _ Hlo2) in Hi.
    destruct (lookup_lt_is_Some_2 sizes i Hi) as [si Hsi]. rewrite (lo_in _ _ _ _ Hlo2 i si Hi Hsi) in Ht.
    injection Ht as <-. injection Hb' as <-. done. }
  split.
  - by rewrite (lo_length _ _ _ _ Hlo2).
  - intros b. rewrite (lo_next _ _ _ _ Hlo2), (lo_heap _ _ _ _ Hlo2). intros (i & Hi & ->). unfold buffer_id. lia.
  - by eexists _, _.
  - intros i j b [-> _]%Hat [E _]%Hat. by apply buffer_id_inj.
  - intros b [i [-> Hi]%Hat]%list_elem_of_lookup. apply (lo_heap _ _ _ _ Hlo2). by exists i.
  - intros i t b Ht Hb'. destruct (Hten i t b Ht Hb') as [Hi ->]. rewrite Hch. do 2 apply list_elem_of_fmap_2.
    apply elem_of_seq. lia.
  - intros i j t t' b Ht Ht' Hb1 Hb2. left. destruct (Hten i t b Ht Hb1) as [_ ->], (Hten j t' _ Ht' Hb2) as [_ E].
    by apply buffer_id_inj.
Qed.

(** The whole context is allocated, and the result is the state the layers are
    unloaded from and reloaded to. *)
Lemma alloc_ctx_run n num f0 sizes m : unallocated sizes m → (2 <= length sizes)%nat → length sizes = (f0 + num * n)%nat →
  ∃ buf m', ggml_backend_alloc_ctx_tensors_from_buft m = Ok (Some buf, m') ∧ weights_ok (n := n) (num := num) (f0 := f0) m' ∧
    loaded_upto sizes (length sizes) m m'.
Proof using Ha Hal Hcl.
  intros Hun Hlen Hnum. pose proof Hun as [U1 U2 U3 U4].
  assert (Hlo : loaded_upto sizes 0 m m).
  { split.
    - by rewrite U1, length_fmap.
    - intros; lia.
    - intros i s _ Hs. by rewrite U1, list_lookup_fmap, Hs.
    - done.
    - intros b. rewrite U4, lookup_empty. split; [by intros [? ?]|]. intros (i & ? & _). lia.
    - intros; lia. }
  unfold ggml_backend_alloc_ctx_tensors_from_buft. rewrite (lo_length _ _ _ _ Hlo).
  destruct (lookup_lt_is_Some_2 sizes 0%nat) as [s0 Hs0]; [lia|].
  replace (seq 0 (length sizes)) with (0%nat :: seq 1 (length sizes - 1)) by (rewrite cons_seq; f_equal; lia).
  cbn [ofold]. unfold alloc_round at 1, tensor_at. rewrite (lo_out _ _ _ _ Hlo 0%nat s0) by (done || lia).
  cbn [obind new_tensor t_data t_nbytes Z.eqb Z.ltb Z.compare andb]. rewrite Z.add_0_l.
  destruct (alloc_rounds sizes m Hun (length sizes - 1) 1 m ltac:(lia) ltac:(lia) Hlo) as (m1 & Hrun & Hlo1).
  cbn [Nat.sub seq fmap list_fmap] in Hrun. rewrite Hs0 in Hrun. cbn [default id] in Hrun. rewrite Hrun. cbn [obind].
  destruct (lookup_lt_is_Some_2 sizes (length sizes - 1)) as [s Hs]; [lia|]. rewrite Hs. cbn [default id].
  pose proof (U2 s (list_elem_of_lookup_2 _ _ _ Hs)) as Hb. pose proof (pad_size_ge s Hb) as Hge.
  rewrite (proj2 (Z.ltb_lt 0 _)) by (rewrite Hal; lia).
  destruct (alloc_one sizes (length sizes - 1) s None m m1 Hlo1 Hs Hb) as (m2 & -> & Hlo2); [right; split; [done|lia]|].
  cbn [obind]. replace (S (length sizes - 1)) with (length sizes) in Hlo2 by lia. set (bs := (buffer_id <$> seq 0 (length sizes - 1)) ++ [buffer_id (length sizes - 1)]).
  assert (Hbs : bs = buffer_id <$> seq 0 (length sizes)).
  { apply buffer_ids_snoc. lia. }
  assert (Hb2 : ∃ x y l, bs = x :: y :: l).
  { rewrite Hbs. destruct (length sizes) as [|[|k]]; [lia|lia|]. cbn. by eauto. }
  destruct Hb2 as (x & y & l & Exy). rewrite Exy. eexists _, _. split; [done|]. rewrite <- Exy. split.
  - eapply (loaded_ok n num f0 sizes m); [|done|cbn; by rewrite Hbs]. destruct Hlo2 as [Q1 Q2 Q3 Q4 Q5 Q6]. by split.
  - destruct Hlo2 as [Q1 Q2 Q3 Q4 Q5 Q6]. by split.
Qed.
End load.

(** ** One layer through its dump *)

(** All tensors of layer [L] are in device buffers, as the model load leaves them. *)
Definition on_device (f0 num L : nat) (m : weights) : Prop :=
  ∀ i t b buf, in_layer (num := num) (f0 := f0) L i → m.(w_tensors) !! i = Some t → t.(t_buffer) = Some b →
    m.(w_heap) !! b = Some buf → buf.(b_is_svm) = false.

Section layers.
Context `{Dr : WeightDriver} {n num f0 : nat} {T : layer_table} (Htab : table_ok n num f0 T).
Context (a : Z) (Ha : 0 <= a <= 12) (Hal : cl_alignment = 2 ^ a).
Context (Hsvm : ∀ b, 0 < clSVMAlloc b ∧ clSVMAlloc b mod 2 ^ a = 0).

Local Abbreviation weights_ok := (weights_ok (n := n) (num := num) (f0 := f0)).
Local Abbreviation in_layer := (in_layer (num := num) (f0 := f0)).
Local Abbreviation layer_fits := (layer_fits (num := num) (T := T) a).
Local Abbreviation layer_holds := (layer_holds (num := num) (f0 := f0)).

(** ** Saving *)

(** The file is what the reads of the tensors give, padded to 4 KiB. *)
Lemma save_run m L parts : weights_ok m → (L < n)%nat → length parts = num →
  (∀ k p, parts !! k = Some p → ∃ t, m.(w_tensors) !! (f0 + num * L + k)%nat = Some t ∧
     ggml_backend_tensor_get m t t.(t_nbytes) = Ok p) →
  save_weights_in_layer T (Z.of_nat L) m = Ok (pad4k (concat parts)).
Proof using Ha Htab.
  intros Hok HL Hlen Hget. unfold save_weights_in_layer. rewrite (tb_first _ _ _ _ Htab L HL). cbn [obind].
  rewrite bool_decide_eq_false_2 by done. rewrite (tb_n _ _ _ _ Htab). pose proof (tb_num _ _ _ _ Htab) as Hnum.
  destruct (ofold_seqZ (λ k '(cur, out), out = concat (take (Z.to_nat k) parts) ∧
      (k < Z.of_nat num → cur = Some (f0 + num * L + Z.to_nat k)%nat)) (save_round T m) 0 (Z.of_nat num)
      (Some (f0 + num * L)%nat, [])) as ([cur out] & -> & Hout & _).
  - lia.
  - split; [done|]. intros _. f_equal. lia.
  - intros k [cur out] Hk [-> Hcur]. rewrite Hcur by lia. set (kn := Z.to_nat k). unfold save_round.
    destruct (lookup_lt_is_Some_2 parts kn) as [p Hp]; [lia|]. destruct (Hget kn p Hp) as (t & Ht & Hg).
    unfold tensor_at. rewrite Ht. cbn [obind]. rewrite Hg. cbn [obind]. rewrite (tb_n _ _ _ _ Htab).
    destruct (Z.ltb_spec (k + 1) (Z.of_nat num)) as [Hlt|Hge].
    + assert (Hn : next_tensor m (f0 + num * L + kn) = Some (S (f0 + num * L + kn))).
      { unfold next_tensor. rewrite bool_decide_eq_true_2; [done|]. rewrite (wo_len _ Hok). nia. }
      rewrite Hn, bool_decide_eq_false_2 by done. cbn [andb]. eexists. split; [done|]. cbn beta iota. split.
      * replace (Z.to_nat (k + 1)) with (S kn) by lia. rewrite (take_S_r _ _ _ Hp), concat_app. cbn [concat]. by rewrite app_nil_r.
      * intros _. f_equal. lia.
    + rewrite andb_false_r. eexists. split; [done|]. cbn beta iota. split; [|lia].
      replace (Z.to_nat (k + 1)) with (S kn) by lia. rewrite (take_S_r _ _ _ Hp), concat_app. cbn [concat]. by rewrite app_nil_r.
  - cbn [obind]. rewrite Z.add_0_l, Nat2Z.id, <- Hlen, firstn_all in Hout. by rewrite Hout.
Qed.

(** The dump of a layer in device buffers is its tensors, one after the other. *)
Lemma save_device m L bss : weights_ok m → (L < n)%nat → layer_fits bss → layer_holds m L bss → on_device f0 num L m →
  save_weights_in_layer T (Z.of_nat L) m = Ok (pad4k (concat bss)).
Proof using Ha Htab.
  intros Hok HL Hf Hh Hdev. apply save_run; [done|done|apply Hf|]. intros k bs Hk.
  destruct (Hh k bs Hk) as (t & b & buf & Ht & Hn & Hne & Hb & Hbuf & Hd & Hcase). exists t. split; [done|].
  assert (Hil : in_layer L (f0 + num * L + k)%nat).
  { unfold WeightOpsThms.in_layer. pose proof (lookup_lt_Some _ _ _ Hk). rewrite (lf_num _ _ Hf) in *. lia. }
  rewrite (Hdev _ t b buf Hil Ht Hb Hbuf) in Hcase. destruct Hcase as (off & He & Hoff & Hbs).
  assert (Hpos : (0 < length bs)%nat) by (destruct bs; [done|cbn; lia]).
  unfold ggml_backend_tensor_get. rewrite Hn, (proj2 (Z.eqb_neq _ 0)), Hb by lia.
  rewrite (proj2 (Z.eqb_neq t.(t_data) 0)) by done. rewrite Z.leb_refl. cbn [negb assert_that obind].
  unfold buffer_at. rewrite Hbuf. cbn [obind]. unfold opencl_get_tensor. rewrite (Hdev _ t b buf Hil Ht Hb Hbuf), He.
  unfold buffer_at. rewrite Hbuf. cbn [obind].
  assert (Hlen : (length bs <= length buf.(b_bytes) - Z.to_nat off)%nat).
  { rewrite <- length_drop. rewrite <- Hbs at 1. rewrite length_take. lia. }
  unfold b_size. rewrite (proj2 (Z.leb_le _ _)) by lia. cbn [assert_that obind]. by rewrite Nat2Z.id, Hbs.
Qed.

(** The dump of a reloaded layer: every tensor is read from the start of the
    layer's buffer. *)
Lemma save_reloaded m L bss b : weights_ok m → (L < n)%nat → layer_fits bss →
  layer_in (num := num) (f0 := f0) L bss b (pad4k (concat bss)) m →
  save_weights_in_layer T (Z.of_nat L) m = Ok (pad4k (concat ((λ bs, take (length bs) (concat bss)) <$> bss))).
Proof using Ha Hsvm Htab.
  intros Hok HL Hf [Hb Hin]. apply save_run; [done|done|by rewrite length_fmap; apply Hf|]. intros k p Hk.
  rewrite list_lookup_fmap in Hk. apply fmap_Some in Hk as (bs & Hk & ->). exists (tensor_in b bss k bs). split; [by apply Hin|].
  pose proof (lf_some _ _ Hf k bs Hk) as Hne. assert (Hpos : (0 < length bs)%nat) by (destruct bs; [done|cbn; lia]).
  unfold ggml_backend_tensor_get. cbn [tensor_in t_nbytes t_buffer t_data]. pose proof (Hsvm b) as [Hb0 _].
  assert (0 <= offset_of bss k) by (unfold offset_of; lia).
  rewrite !(proj2 (Z.eqb_neq _ 0)), Z.leb_refl by lia. cbn [negb assert_that obind]. unfold buffer_at. rewrite Hb. cbn [obind].
  pose proof (concat_take_le bss (S k)) as Hle. rewrite (concat_take_S _ _ _ Hk) in Hle.
  unfold opencl_get_tensor. cbn [b_is_svm b_bytes]. unfold b_size. cbn [b_bytes].
  rewrite (proj2 (Z.leb_le _ _)) by (rewrite length_pad4k; Z.to_euclidean_division_equations; lia).
  cbn [assert_that obind]. rewrite Nat2Z.id. unfold pad4k. by rewrite take_app_le by lia.
Qed.

(** C18: a weight layer survives the trip to flash and back.  For a layer loaded
    by the model whose tensors, but the last, are multiples of the device's
    alignment and have the sizes of layer 0: [unload_layers_to_file] writes its
    dump and no other file; [unload_buffers] succeeds and frees the memory of all
    its tensors; [alloc_weight_layer] and [read_weight_layer] of the dump succeed;
    then every tensor of the layer has its bytes again at the address the kernels
    read, every tensor of the other layers still has its own, and the layer can
    go through the same cycle again. *)
Theorem weight_layer_roundtrip (opens : string → bool) (prefix : string) (files : gmap string (list byte))
    (m : weights) (L : nat) (bss : list (list byte)) :
  weights_ok m → (L < n)%nat → layer_fits bss → layer_holds m L bss → on_device f0 num L m →
  opens (layer_file prefix (Z.of_nat L)) = true →
  ∃ file m1 m2 m3,
    unload_layers_to_file opens T prefix (Z.of_nat L) m files = Ok (<[layer_file prefix (Z.of_nat L) := file]> files) ∧
    unload_buffers T (Z.of_nat L) m = (true, m1) ∧
    (∀ i t b, in_layer L i → m.(w_tensors) !! i = Some t → t.(t_buffer) = Some b → m1.(w_heap) !! b = None) ∧
    alloc_weight_layer T (Z.of_nat L) m1 = Ok (true, m2) ∧ read_weight_layer T (Z.of_nat L) file m2 = Ok (true, m3) ∧
    weights_ok m3 ∧ layer_holds m3 L bss ∧ (∀ i bs, ¬ in_layer L i → holds m i bs → holds m3 i bs) ∧
    ∃ m4 m5 m6, unload_buffers T (Z.of_nat L) m3 = (true, m4) ∧ alloc_weight_layer T (Z.of_nat L) m4 = Ok (true, m5) ∧
      read_weight_layer T (Z.of_nat L) file m5 = Ok (true, m6) ∧ layer_holds m6 L bss.
Proof using Ha Hal Hsvm Htab.
  intros Hok HL Hf Hh Hdev Hopen. unfold unload_layers_to_file. rewrite (proj2 (Z.ltb_ge _ _)) by lia.
  rewrite Hopen. cbn [negb]. rewrite (save_device m L bss) by done. cbn [obind].
  destruct (cycle_run Htab a Ha Hal Hsvm m L bss Hok HL Hf Hh) as (m1 & m2 & m3 & Hun & Hall & Hrd & Hlu & Hok3 & Hin3 & Hoth).
  assert (Hh3 : layer_holds m3 L bss) by (intros k bs; by eapply (layer_in_holds a Ha Hsvm L bss)).
  destruct (cycle_run Htab a Ha Hal Hsvm m3 L bss Hok3 HL Hf Hh3) as (m4 & m5 & m6 & Hun' & Hal' & Hrd' & _ & _ & Hin6 & _).
  exists (pad4k (concat bss)), m1, m2, m3. split; [done|]. split; [done|]. split.
  { intros i t b Hi Ht Hb. rewrite (lu_heap _ _ _ Hlu), decide_True; [done|]. apply layer_buffer. by exists i, t. }
  split; [done|]. split; [done|]. split; [done|]. split; [done|]. split; [done|].
  exists m4, m5, m6. split; [done|]. split; [done|]. split; [done|]. intros k bs. by eapply (layer_in_holds a Ha Hsvm L bss).
Qed.

(** C34: a reloaded layer must not be dumped again.  After any unload and reload,
    [save_weights_in_layer_to_file] reports success but writes, for every tensor,
    the first bytes of the layer: the read of a shared buffer starts at the
    buffer's base, not at the tensor's address. *)
Theorem reloaded_layer_dump (m : weights) (L : nat) (bss : list (list byte)) :
  weights_ok m → (L < n)%nat → layer_fits bss → layer_holds m L bss →
  ∃ m1 m2 m3, unload_buffers T (Z.of_nat L) m = (true, m1) ∧ alloc_weight_layer T (Z.of_nat L) m1 = Ok (true, m2) ∧
    read_weight_layer T (Z.of_nat L) (pad4k (concat bss)) m2 = Ok (true, m3) ∧
    save_weights_in_layer T (Z.of_nat L) m3 = Ok (pad4k (concat ((λ bs, take (length bs) (concat bss)) <$> bss))).
Proof using Ha Hal Hsvm Htab.
  intros Hok HL Hf Hh.
  destruct (cycle_run Htab a Ha Hal Hsvm m L bss Hok HL Hf Hh) as (m1 & m2 & m3 & Hun & Hall & Hrd & _ & Hok3 & Hin3 & _).
  exists m1, m2, m3. split; [done|]. split; [done|]. split; [done|]. by apply (save_reloaded m3 L bss m.(w_next)).
Qed.
End layers.

(** A model of 40 layers fills the table; reloading its last layer reads beyond it. *)
Lemma fortieth_layer `{WeightDriver} num f0 sizes T m : load_layer_table (Z.of_nat 40) (Z.of_nat num) f0 sizes = Ok T →
  alloc_weight_layer T 39 m = Ub.
Proof.
  unfold load_layer_table. destruct (table_filled 40 num f0 ltac:(lia)) as (tab & Hrun & Hl & Ht). rewrite Hrun. cbn [obind].
  destruct (_ <? _); [|done]. intros [= <-]. unfold alloc_weight_layer, first_tensor. cbn [layer_first_tensor Z.leb Z.compare].
  rewrite Ht by (vm_compute; lia). change (Z.to_nat 39) with 39%nat. rewrite bool_decide_eq_true_2 by lia. cbn [obind].
  change (Z.to_nat (39 + 1)) with 40%nat. by rewrite lookup_ge_None_2 by lia.
Qed.
