(* ===== verification/WeightCycle.v ===== *)
(** All weights out to flash and back: the bookkeeping of [mzcache_weight]
    ([Weight]) run on the device ([WeightOps]).  The tasks of the reload run in any
    order in which a layer is read after it is allocated, which is what its read
    waits for. *)
From S2P Require Import Prelude Floats Profile KvTypes KvSwapIn Weight WeightOps WeightOpsThms WeightLayers.

Section cycle_defs.
Context `{Dr : WeightDriver} (T : layer_table) (prefix : string) (files : gmap string (list byte)).

(** What [mzcache_unload_layers] finds: the dumps on flash, the device's state. *)
Definition device_env (m : weights) : WeightEnv := {|
  dump_readable L := bool_decide (is_Some (files !! layer_file prefix L));
  unload_buffers_ok L := (unload_buffers T L m).1 |}.

Fixpoint unload_on_device (k : nat) (w : mzcache_weight) (m : weights) : mzcache_weight * weights * bool :=
  match k with
  | O => (w, m, true)
  | S k =>
      let m' := if bool_decide (is_Some (files !! layer_file prefix w.(cur_layer_idx_to_unload)))
                then (unload_buffers T w.(cur_layer_idx_to_unload) m).2 else m in
      match unload_layer (H := device_env m) w with
      | Some w' => unload_on_device k w' m'
      | None => (w, m', false)
      end
  end.

(** [weight_alloc_worker] and [weight_read_worker]; a failed allocation reaches the
    readers as an exception. *)
Definition run_weight_task (x : task) (m : weights) : outcome weights :=
  match x with
  | weight_alloc L =>
      '(ok, m') <~ alloc_weight_layer T L m ;; if ok : bool then Ok m' else Throw
  | weight_read L =>
      match files !! layer_file prefix L with
      | None => Throw
      | Some file => '(_, m') <~ read_weight_layer T L file m ;; Ok m'
      end
  | _ => Ok m
  end.
End cycle_defs.

(** The tasks a sequence of actions enqueues. *)
Definition enqueued (acts : list action) : list task :=
  flat_map (λ a, match a with Enqueue _ x => [x] | _ => [] end) acts.

(** An order in which the tasks may run: no layer is read before it is allocated. *)
Definition reads_wait (l : list task) : Prop :=
  ∀ l1 L l2, l = l1 ++ weight_read L :: l2 → weight_alloc L ∉ l2.

Lemma reads_wait_tail x l : reads_wait (x :: l) → reads_wait l.
Proof. intros H l1 L l2 ->. by apply (H (x :: l1) L l2). Qed.

Definition is_alloc (x : task) : bool := match x with weight_alloc _ => true | _ => false end.
Definition allocs (l : list task) : nat := length (filter (λ x, is_alloc x = true) l).

Section cycle.
Context `{Dr : WeightDriver} {n num f0 : nat} {T : layer_table} (Htab : table_ok n num f0 T).
Context (a : Z) (Ha : 0 <= a <= 12) (Hal : cl_alignment = 2 ^ a).
Context (Hsvm : ∀ b, 0 < clSVMAlloc b ∧ clSVMAlloc b mod 2 ^ a = 0).
Context (prefix : string) (files : gmap string (list byte)).

(** The contents of the layers, and their dumps. *)
Context (data : nat → list (list byte)) (Hfit : ∀ L, (L < n)%nat → layer_fits (num := num) (T := T) a (data L)).
Context (Hdump : ∀ L, (L < n)%nat → files !! layer_file prefix (Z.of_nat L) = Some (pad4k (concat (data L)))).

Local Abbreviation weights_ok := (weights_ok (n := n) (num := num) (f0 := f0)).
Local Abbreviation in_layer := (in_layer (num := num) (f0 := f0)).
Local Abbreviation layer_holds := (layer_holds (num := num) (f0 := f0)).
Local Abbreviation layer_out := (layer_out (num := num) (f0 := f0)).
Local Abbreviation layer_in := (layer_in (num := num) (f0 := f0)).

Lemma layer_tensor L k bs : (L < n)%nat → data L !! k = Some bs → in_layer L (f0 + num * L + k).
Proof using Ha Hfit.
  intros HL Hk. unfold WeightOpsThms.in_layer. apply lookup_lt_Some in Hk. rewrite (lf_num _ _ (Hfit L HL)) in Hk. lia.
Qed.

Lemma layers_disjoint L L' i : L ≠ L' → in_layer L i → ¬ in_layer L' i.
Proof using Ha Htab. pose proof (tb_num _ _ _ _ Htab). unfold WeightOpsThms.in_layer. intros Hne H1 H2. apply Hne. nia. Qed.

(** ** The state between two tasks *)

(** The tasks still to run decide where the layers are. *)
Record pending (l : list task) (m : weights) : Prop := Pending {
  pd_ok : weights_ok m;
  pd_slots : (allocs l <= free_slots m)%nat;
  pd_out : ∀ L, (L < n)%nat → weight_alloc (Z.of_nat L) ∈ l → layer_out L (data L) m;
  pd_alloc : ∀ L, (L < n)%nat → weight_alloc (Z.of_nat L) ∉ l → weight_read (Z.of_nat L) ∈ l →
    ∃ b whole, layer_in L (data L) b whole m ∧ Z.of_nat (length whole) = T.(padded_num_bytes_per_layer);
  pd_in : ∀ L, (L < n)%nat → weight_alloc (Z.of_nat L) ∉ l → weight_read (Z.of_nat L) ∉ l → layer_holds m L (data L) }.

Definition known (x : task) : Prop := ∃ L, (L < n)%nat ∧ (x = weight_alloc (Z.of_nat L) ∨ x = weight_read (Z.of_nat L)).

Lemma alloc_task L l m : (L < n)%nat → weight_alloc (Z.of_nat L) ∉ l → weight_read (Z.of_nat L) ∈ l →
  pending (weight_alloc (Z.of_nat L) :: l) m →
  ∃ m', run_weight_task T prefix files (weight_alloc (Z.of_nat L)) m = Ok m' ∧ pending l m'.
Proof using Ha Hal Hsvm Htab Hfit.
  intros HL Hna Hrd [H1 H2 H3 H4 H5]. unfold allocs in H2. rewrite filter_cons, decide_True in H2 by done. cbn [length] in H2.
  assert (Hslot : None ∈ children m) by (apply count_free_pos; unfold free_slots in H2; lia).
  destruct (alloc_weight_layer_run Htab a Ha Hal Hsvm m L (data L) H1 HL (Hfit L HL) (H3 L HL ltac:(left)) Hslot)
    as (m' & Hrun & Hok & [A1 A2 A3 (bytes & Hbytes & A4)]).
  unfold run_weight_task. rewrite Hrun. cbn [obind]. exists m'. split; [done|].
  assert (Hoth : ∀ L' k bs, (L' < n)%nat → L' ≠ L → data L' !! k = Some bs →
    m'.(w_tensors) !! (f0 + num * L' + k)%nat = m.(w_tensors) !! (f0 + num * L' + k)%nat).
  { intros L' k bs HL' Hne Hk. apply A2. apply (layers_disjoint L' L); [done|]. by eapply layer_tensor. }
  assert (Hheap : ∀ b, is_Some (m.(w_heap) !! b) → m'.(w_heap) !! b = m.(w_heap) !! b).
  { intros b Hb. rewrite A4. apply lookup_insert_ne. intros <-. pose proof (wo_fresh _ H1 _ Hb). lia. }
  assert (Hin : ∀ L', L' ≠ L → weight_alloc (Z.of_nat L') ∈ weight_alloc (Z.of_nat L) :: l → weight_alloc (Z.of_nat L') ∈ l).
  { intros L' Hne [E|?]%elem_of_cons; [|done]. injection E. lia. }
  split.
  - done.
  - unfold allocs. lia.
  - intros L' HL' Hx k bs Hk. assert (L' ≠ L) by (intros ->; done). rewrite (Hoth L' k bs HL') by done.
    apply (H3 L' HL'); [by right|done].
  - intros L' HL' Hna' Hrd'. destruct (decide (L' = L)) as [->|Hne].
    + exists m.(w_next), bytes. split; [|done]. split; [by rewrite A4, lookup_insert_eq|exact A1].
    + destruct (H4 L' HL') as (b & whole & [Hb Hts] & Hlen); [by intros ?%Hin|by right|]. exists b, whole. split; [|done]. split.
      * rewrite Hheap; [done|]. by eexists.
      * intros k bs Hk. rewrite (Hoth L' k bs HL' Hne Hk). by apply Hts.
  - intros L' HL' Hna' Hnr k bs Hk. assert (Hne : L' ≠ L) by (intros ->; done).
    assert (Hh : holds m (f0 + num * L' + k) bs).
    { apply (H5 L' HL'); [by intros ?%Hin|by intros [?|?]%elem_of_cons|done]. }
    revert Hh. apply holds_same; [by apply (Hoth L' k bs)|]. intros t b Ht Hb. apply Hheap. apply (wo_live _ H1). by eapply (wo_child _ H1).
Qed.

(** Two layers never share a buffer. *)
Lemma buffers_apart m L b whole i t : weights_ok m → (L < n)%nat → layer_in L (data L) b whole m → ¬ in_layer L i →
  m.(w_tensors) !! i = Some t → t.(t_buffer) ≠ Some b.
Proof using Htab Hfit Ha.
  intros Hok HL [_ Hts] Hi Ht Hb. pose proof (tb_num _ _ _ _ Htab).
  destruct (lookup_lt_is_Some_2 (data L) 0%nat) as [bs Hbs]; [rewrite (lf_num _ _ (Hfit L HL)); lia|].
  apply Hi. apply (together_layer Htab L (f0 + num * L + 0)%nat); [by eapply layer_tensor|].
  by apply (wo_owner _ Hok _ _ _ _ b (Hts 0%nat bs Hbs) Ht).
Qed.

Lemma read_task L l m : (L < n)%nat → weight_alloc (Z.of_nat L) ∉ l → weight_read (Z.of_nat L) ∉ l →
  pending (weight_read (Z.of_nat L) :: l) m →
  ∃ m', run_weight_task T prefix files (weight_read (Z.of_nat L)) m = Ok m' ∧ pending l m'.
Proof using Ha Hsvm Htab Hfit Hdump.
  intros HL Hna Hnr [H1 H2 H3 H4 H5]. unfold allocs in H2. rewrite filter_cons, decide_False in H2 by done.
  destruct (H4 L HL) as (b & whole & Hin & Hlen); [by intros [?|?]%elem_of_cons|left|].
  pose proof (length_dump a (data L) (Hfit L HL)) as Hd.
  pose proof (read_weight_layer_run Htab a Ha Hsvm m L (data L) b whole (pad4k (concat (data L))) HL (Hfit L HL) Hin ltac:(lia) Hd) as Hrun.
  unfold run_weight_task. rewrite (Hdump L HL), Hrun. cbn [obind]. set (m' := with_heap _ m). exists m'. split; [done|].
  assert (Hout : ∀ x, x ∈ l → x ∈ weight_read (Z.of_nat L) :: l) by (intros; by right).
  assert (Hheap : ∀ i t x, ¬ in_layer L i → m.(w_tensors) !! i = Some t → t.(t_buffer) = Some x → m'.(w_heap) !! x = m.(w_heap) !! x).
  { intros i t x Hi Ht Hx. apply lookup_insert_ne. intros ->. by apply (buffers_apart m L x whole i t H1 HL Hin Hi Ht). }
  assert (Hother : ∀ L', (L' < n)%nat → L' ≠ L → ∀ k bs, data L' !! k = Some bs → ¬ in_layer L (f0 + num * L' + k)).
  { intros L' HL' Hne k bs Hk. apply (layers_disjoint L' L); [done|]. by eapply layer_tensor. }
  split.
  - destruct H1 as [Q1 Q2 Q3 Q4 Q5 Q6 Q7].
    assert (Hdom : ∀ x, is_Some (m'.(w_heap) !! x) ↔ is_Some (m.(w_heap) !! x)).
    { intros x. cbn. destruct (decide (x = b)) as [->|Hx]; [|by rewrite lookup_insert_ne].
      rewrite lookup_insert_eq, (proj1 Hin). split; by eexists. }
    split; try done; intros x; [rewrite Hdom; apply Q2|intros Hx; apply Hdom; by apply Q5].
  - done.
  - intros L' HL' Hx. apply (H3 L' HL'). by apply Hout.
  - intros L' HL' Hna' Hrd'. assert (Hne : L' ≠ L) by (intros ->; done).
    destruct (H4 L' HL') as (b' & whole' & [Hb Hts] & Hlen'); [by intros [?|?]%elem_of_cons|by apply Hout|].
    exists b', whole'. split; [|done]. split; [|done]. pose proof (tb_num _ _ _ _ Htab).
    destruct (lookup_lt_is_Some_2 (data L') 0%nat) as [bs Hbs]; [rewrite (lf_num _ _ (Hfit L' HL')); lia|].
    by rewrite (Hheap _ _ b' (Hother L' HL' Hne 0%nat bs Hbs) (Hts 0%nat bs Hbs)).
  - intros L' HL' Hna' Hnr' k bs Hk. destruct (decide (L' = L)) as [->|Hne].
    + apply (layer_in_holds a Ha Hsvm L (data L) b (pad4k [] ++ drop (length (concat (data L))) (pad4k (concat (data L)))) m' k bs (Hfit L HL)); [|done].
      split; [|exact (proj2 Hin)]. cbn. rewrite lookup_insert_eq. unfold pad4k at 1 2. cbn. by rewrite drop_app_length.
    + assert (Hh : holds m (f0 + num * L' + k) bs).
      { apply (H5 L' HL'); [by intros [?|?]%elem_of_cons| |done]. intros [E|?]%elem_of_cons; [injection E; lia|done]. }
      revert Hh. apply holds_same; [done|]. intros t x Ht Hx. by apply (Hheap _ t x (Hother L' HL' Hne k bs Hk) Ht Hx).
Qed.

Lemma run_tasks l : ∀ m, NoDup l → (∀ x, x ∈ l → known x) → reads_wait l →
  (∀ L, weight_alloc L ∈ l → weight_read L ∈ l) → pending l m →
  ∃ m', ofold (run_weight_task T prefix files) l m = Ok m' ∧ pending [] m'.
Proof using Ha Hal Hsvm Htab Hfit Hdump.
  induction l as [|x l IH]; intros m Hnd Hkn Hw Har Hp; [by exists m|]. apply NoDup_cons in Hnd as [Hx Hnd].
  destruct (Hkn x ltac:(left)) as (L & HL & [->| ->]); cbn [ofold].
  - assert (Hrd : weight_read (Z.of_nat L) ∈ l) by (specialize (Har (Z.of_nat L) ltac:(left)); by apply elem_of_cons in Har as [?|?]).
    destruct (alloc_task L l m HL Hx Hrd Hp) as (m1 & -> & Hp1). cbn [obind]. apply IH; try done.
    + intros y Hy. apply Hkn. by right.
    + by eapply reads_wait_tail.
    + intros L' HL'. specialize (Har L' ltac:(by right)). by apply elem_of_cons in Har as [?|?].
  - assert (Hna : weight_alloc (Z.of_nat L) ∉ l) by by apply (Hw [] (Z.of_nat L) l).
    destruct (read_task L l m HL Hna Hx Hp) as (m1 & -> & Hp1). cbn [obind]. apply IH; try done.
    + intros y Hy. apply Hkn. by right.
    + by eapply reads_wait_tail.
    + intros L' HL'. specialize (Har L' ltac:(by right)). apply elem_of_cons in Har as [[= ->]|?]; done.
Qed.

(** ** Unloading *)

(** The layers above [c] are on flash, the others on the device. *)
Record unloaded_to (c : Z) (m : weights) : Prop := UnloadedTo {
  ut_ok : weights_ok m;
  ut_in : ∀ L, (L < n)%nat → Z.of_nat L <= c → layer_holds m L (data L);
  ut_out : ∀ L, (L < n)%nat → c < Z.of_nat L → layer_out L (data L) m;
  ut_slots : Z.of_nat n - 1 - c <= Z.of_nat (free_slots m) }.

Lemma unload_step L m : (L < n)%nat → unloaded_to (Z.of_nat L) m →
  ∃ m', unload_buffers T (Z.of_nat L) m = (true, m') ∧ unloaded_to (Z.of_nat L - 1) m'.
Proof using Ha Htab Hfit.
  intros HL [H1 H2 H3 H4]. destruct (unload_buffers_run Htab m L H1 HL) as (m' & Hrun & Hok & Hlu). exists m'. split; [done|].
  pose proof (H2 L HL ltac:(lia)) as Hh. pose proof (layer_has_buffer Htab a m L (data L) (Hfit L HL) Hh) as Hb.
  split; [done| | |].
  - intros L' HL' Hle k bs Hk. apply (unloaded_other Htab m m' L); [done|done| |apply (H2 L' HL'); [lia|done]].
    apply (layers_disjoint L' L); [lia|]. by eapply layer_tensor.
  - intros L' HL' Hlt. destruct (decide (L' = L)) as [->|Hne].
    + by apply (unloaded_out (T := T) a Ha m m' L); [apply Hfit| |].
    + intros k bs Hk. rewrite (lu_out _ _ _ Hlu); [apply (H3 L' HL'); [lia|done]|].
      apply (layers_disjoint L' L); [done|]. by eapply layer_tensor.
  - rewrite (lu_slots _ _ _ Hlu). lia.
Qed.

(** The counters move as in [Weight], whose environment the device discharges. *)
Lemma unload_on_device_spec m0 k : weights_ok m0 → files !! layer_file prefix (-1) = None → ∀ w m,
  w.(w_num_layers) = Z.of_nat n → -1 <= w.(cur_layer_idx_to_unload) < Z.of_nat n → unloaded_to w.(cur_layer_idx_to_unload) m →
  ∃ w' m' ok, unload_on_device T prefix files k w m = (w', m', ok) ∧
    unload_loop (H := device_env T prefix files m0) k w = (w', ok) ∧ w'.(w_num_layers) = Z.of_nat n ∧
    -1 <= w'.(cur_layer_idx_to_unload) < Z.of_nat n ∧ unloaded_to w'.(cur_layer_idx_to_unload) m'.
Proof using Ha Htab Hfit Hdump.
  intros Hok0 Hm1. induction k as [|k IH]; intros w m Hn Hc Hu; [by exists w, m, true|].
  cbn [unload_on_device unload_loop]. unfold unload_layer. cbn [dump_readable unload_buffers_ok device_env].
  destruct (decide (w.(cur_layer_idx_to_unload) = -1)) as [E|Hne].
  - rewrite E, Hm1. rewrite bool_decide_eq_false_2 by by intros [? ?]. cbn [negb]. exists w, m, false. do 3 (split; [done|]). split; [lia|done].
  - set (L := Z.to_nat w.(cur_layer_idx_to_unload)). assert (HL : w.(cur_layer_idx_to_unload) = Z.of_nat L) by lia.
    rewrite HL in *. rewrite (Hdump L) by lia. rewrite bool_decide_eq_true_2 by by eexists. cbn [negb].
    destruct (unload_step L m ltac:(lia) Hu) as (m' & Hrun & Hu'). rewrite Hrun.
    destruct (unload_buffers_run Htab m0 L Hok0 ltac:(lia)) as (m0' & Hrun0 & _). rewrite Hrun0. cbn [fst snd].
    apply (IH (Weight w.(w_num_layers) (Z.of_nat L - 1) (w.(n_cur_unload_layers) + 1)) m'); cbn; [done|lia|done].
Qed.

(** ** The tasks of the reload *)

Lemma enqueued_reload w : enqueued (mzcache_reload_w_layers w).2 =
  flat_map (λ L, [weight_alloc L; weight_read L]) (unloaded_layers w).
Proof. unfold mzcache_reload_w_layers. cbn [snd]. unfold enqueued. induction (unloaded_layers w) as [|L l IH]; [done|]. cbn [flat_map app]. by rewrite IH. Qed.

Lemma elem_of_reload x ls : x ∈ flat_map (λ L, [weight_alloc L; weight_read L]) ls ↔
  ∃ L, L ∈ ls ∧ (x = weight_alloc L ∨ x = weight_read L).
Proof.
  rewrite list_elem_of_In, in_flat_map. split.
  - intros (L & HL%list_elem_of_In & Hx). exists L. split; [done|]. cbn in Hx. destruct Hx as [<-|[<-|[]]]; [by left|by right].
  - intros (L & HL & Hx). exists L. split; [by apply list_elem_of_In|]. cbn. destruct Hx as [->| ->]; auto.
Qed.

Lemma NoDup_reload ls : NoDup ls → NoDup (flat_map (λ L, [weight_alloc L; weight_read L]) ls).
Proof.
  induction 1 as [|L ls HL Hnd IH]; [constructor|]. cbn [flat_map app].
  apply NoDup_cons. split; [|apply NoDup_cons; split; [|done]].
  - intros [?|(L' & HL' & [[= ->]|?])%elem_of_reload]%elem_of_cons; done.
  - intros (L' & HL' & [?|[= ->]])%elem_of_reload; done.
Qed.

Lemma allocs_reload ls : allocs (flat_map (λ L, [weight_alloc L; weight_read L]) ls) = length ls.
Proof.
  unfold allocs. induction ls as [|L ls IH]; [done|]. cbn [flat_map app].
  rewrite filter_cons, decide_True, filter_cons, decide_False by done. cbn [length]. by rewrite IH.
Qed.

Lemma allocs_perm l l' : l ≡ₚ l' → allocs l = allocs l'.
Proof. intros Hp. unfold allocs. by rewrite Hp. Qed.

End cycle.
