(* ===== verification/WeightExample.v ===== *)
(** The theorems about weight layers applied to a model of two layers of two
    tensors, on a device that aligns to 4 bytes, and a layer whose tensors are not
    multiples of the alignment. *)
From S2P Require Import Prelude KvTypes WeightOps WeightOpsThms WeightLayers.
From S2P Require Import KvSwapIn Weight WeightCycle.

#[local] Instance demo_device : WeightDriver := {|
  cl_alignment := 2 ^ 2; clCreateBuffer_ok _ := true; clSVMAlloc b := 4096 * Zpos b;
  fresh_byte b i := (17 * Zpos b + i) mod 256 |}.

Lemma demo_device_svm b : 0 < clSVMAlloc b ∧ clSVMAlloc b mod 2 ^ 2 = 0.
Proof.
  cbn [clSVMAlloc demo_device]. split; [lia|]. replace (4096 * Z.pos b) with (1024 * Z.pos b * 4) by lia. by apply Z.mod_mul.
Qed.

(** The token embedding and the layers, as created and as loaded; the bytes are
    those the fresh buffers hold. *)
Definition demo_sizes : list Z := [5; 8; 6; 8; 6].
Definition demo_context : weights := Weights (new_tensor <$> demo_sizes) ∅ 1 (PlainBuffer 1).
Definition demo_loaded : weights :=
  match ggml_backend_alloc_ctx_tensors_from_buft demo_context with Ok (_, m) => m | _ => demo_context end.
Definition demo_table : layer_table :=
  match load_layer_table 2 2 1 [8; 6] with Ok T => T | _ => LayerTable [] 0 0 0 0 end.
Definition demo_data (L : nat) : list (list byte) :=
  [fresh_byte (buffer_id (1 + 2 * L)) <$> seqZ 0 8; fresh_byte (buffer_id (2 + 2 * L)) <$> seqZ 0 6].
Definition demo_layer : list (list byte) := demo_data 1.

Lemma demo_table_ok : table_ok 2 2 1 demo_table.
Proof.
  destruct (load_layer_table_ok 2 2 1 [8; 6]) as (T & HT & Hok & _); [lia|lia| |cbn; lia|].
  - intros s [->| ->%list_elem_of_singleton]%elem_of_cons; lia.
  - unfold demo_table. change (load_layer_table 2 2 1 [8; 6]) with (load_layer_table (Z.of_nat 2) (Z.of_nat 2) 1 [8; 6]). by rewrite HT.
Qed.

Lemma demo_loaded_ok : weights_ok (n := 2) (num := 2) (f0 := 1) demo_loaded.
Proof.
  destruct (alloc_ctx_run (Dr := demo_device) 2 ltac:(lia) eq_refl (λ _, eq_refl) 2 2 1 demo_sizes demo_context) as (buf & m & Hrun & Hok & _).
  - split; try done. intros s. unfold demo_sizes. rewrite list_elem_of_In. cbn. lia.
  - cbn. lia.
  - done.
  - unfold demo_loaded. by rewrite Hrun.
Qed.

Lemma demo_data_fits L : (L < 2)%nat → layer_fits (num := 2) (T := demo_table) 2 (demo_data L).
Proof.
  intros HL. split; try (destruct L as [|[|L]]; [done|done|lia]).
  - intros k bs Hk. destruct k as [|[|k]]; [by injection Hk as <-|by injection Hk as <-|done].
  - intros k bs Hk1 Hk. destruct k as [|k]; [by injection Hk as <-|lia].
Qed.

Lemma demo_data_holds L : (L < 2)%nat → layer_holds (num := 2) (f0 := 1) demo_loaded L (demo_data L).
Proof.
  intros HL k bs Hk. assert (L = 0 ∨ L = 1)%nat as [->| ->] by lia;
    (destruct k as [|[|k]]; [injection Hk as <-|injection Hk as <-|done]);
    (eexists _, _, _; split; [vm_compute; reflexivity|]; split; [done|]; split; [done|]; split; [done|];
     split; [vm_compute; reflexivity|]; split; [done|]; exists 0; done).
Qed.

Lemma demo_on_device : on_device 1 2 1 demo_loaded.
Proof.
  intros i t b buf [H1 H2] Ht Hb Hbuf. cbn in H1, H2. assert (i = 3 ∨ i = 4)%nat as [->| ->] by lia;
    vm_compute in Ht; injection Ht as <-; injection Hb as <-; vm_compute in Hbuf; by injection Hbuf as <-.
Qed.

Lemma weight_layer_roundtrip_witness : ∃ file m1 m2 m3,
  unload_layers_to_file (λ _, true) demo_table "layers/demo" 1 demo_loaded ∅ =
    Ok (<[layer_file "layers/demo" 1 := file]> ∅) ∧
  unload_buffers demo_table 1 demo_loaded = (true, m1) ∧ alloc_weight_layer demo_table 1 m1 = Ok (true, m2) ∧
  read_weight_layer demo_table 1 file m2 = Ok (true, m3) ∧ layer_holds (num := 2) (f0 := 1) m3 1 demo_layer.
Proof.
  destruct (weight_layer_roundtrip (Dr := demo_device) demo_table_ok 2 ltac:(lia) eq_refl demo_device_svm (λ _, true) "layers/demo" ∅ demo_loaded 1 demo_layer)
    as (file & m1 & m2 & m3 & H1 & H2 & _ & H3 & H4 & _ & H5 & _).
  - exact demo_loaded_ok.
  - lia.
  - apply demo_data_fits. lia.
  - apply demo_data_holds. lia.
  - exact demo_on_device.
  - reflexivity.
  - exists file, m1, m2, m3. split; [exact H1|]. split; [exact H2|]. split; [exact H3|]. split; [exact H4|exact H5].
Defined.

(** The second dump differs from the first in the second tensor. *)
Lemma reloaded_layer_dump_witness : ∃ m1 m2 m3 file file',
  save_weights_in_layer demo_table 1 demo_loaded = Ok file ∧ unload_buffers demo_table 1 demo_loaded = (true, m1) ∧
  alloc_weight_layer demo_table 1 m1 = Ok (true, m2) ∧ read_weight_layer demo_table 1 file m2 = Ok (true, m3) ∧
  save_weights_in_layer demo_table 1 m3 = Ok file' ∧ file ≠ file'.
Proof.
  destruct (reloaded_layer_dump (Dr := demo_device) demo_table_ok 2 ltac:(lia) eq_refl demo_device_svm demo_loaded 1 demo_layer)
    as (m1 & m2 & m3 & H1 & H2 & H3 & H4).
  - exact demo_loaded_ok.
  - lia.
  - apply demo_data_fits. lia.
  - apply demo_data_holds. lia.
  - exists m1, m2, m3. eexists _, _. split; [|split; [exact H1|split; [exact H2|split; [exact H3|split; [exact H4|]]]]].
    + vm_compute. reflexivity.
    + intros E. apply (f_equal (nth 8%nat)) in E. apply (f_equal (λ f, f 0)) in E. vm_compute in E. discriminate E.
Defined.

(** A layer of 6 and 8 bytes: the reload puts the second tensor at 8, the dump has it at 6. *)
Definition ragged_context : weights := Weights (new_tensor <$> [5; 6; 8]) ∅ 1 (PlainBuffer 1).
Definition ragged_reload : outcome (bool * list Z * list byte) :=
  '(_, m) <~ ggml_backend_alloc_ctx_tensors_from_buft ragged_context ;;
  T <~ load_layer_table 1 2 1 [6; 8] ;;
  file <~ save_weights_in_layer T 0 m ;;
  let '(_, m1) := unload_buffers T 0 m in
  '(_, m2) <~ alloc_weight_layer T 0 m1 ;;
  '(ok, m3) <~ read_weight_layer T 0 file m2 ;;
  t <~ tensor_at m3 2 ;; buf <~ buffer_at m3 4 ;;
  Ok (ok, [t.(t_data) - buf.(b_svm_base)], take 8 (drop (Z.to_nat (t.(t_data) - buf.(b_svm_base))) buf.(b_bytes))).

(** Its second tensor, 51 to 58 before, is shifted by two bytes. *)
Example ragged_layer_lost : ragged_reload = Ok (true, [8], [53; 54; 55; 56; 57; 58; 0; 0]).
Proof. vm_compute. reflexivity. Qed.

(** ** All layers *)

(** The dumps of both layers. *)
Definition demo_dumps : gmap string (list byte) :=
  <[layer_file "layers/demo" 0 := pad4k (concat (demo_data 0))]> {[layer_file "layers/demo" 1 := pad4k (concat (demo_data 1))]}.

(** Three layers are asked for, the two there are go out; layer 1 is allocated
    before layer 0 and read after it. *)
Definition demo_order : list task := [weight_alloc 1; weight_alloc 0; weight_read 0; weight_read 1].

Lemma demo_order_waits : reads_wait demo_order.
Proof.
  intros l1 L l2 E Hin. unfold demo_order in E.
  destruct l1 as [|x1 [|x2 [|x3 [|x4 l1]]]]; simplify_list_eq.
  - by apply list_elem_of_singleton in Hin.
  - by apply elem_of_nil in Hin.
  - by destruct l1.
Qed.

