(* ===== verification/KvWorkers.v ===== *)
(** Swap-in, worker side: the task bodies of [mzcache_kv_state.cpp]
    ([kv_alloc_worker], [kv_read_worker], [kv_decomp_worker],
    [free_layer_arenas]) and [mzcache_weight.cpp], the promises they wait on
    ([mzcache_core.cpp]) and the per-layer counters they complete.

    A task body runs against a [world]: the KV state, the promise maps and the
    layer counters.  Blocking on a promise is [None]; an exception or undefined
    behaviour ends the program, as [ThreadPool::enqueue]'s wrapper does. *)
From S2P Require Import Prelude Floats Profile ThreadPool KvTypes KvPlan KvLadder KvInv KvFrame.
From S2P Require Import KvSwapOut KvSwapOutThms KvSwapIn Weight.

(** A promise of [kv_alloc_done] or [weight_alloc_done]. *)
Inductive promise := Unregistered | Pending | Ready.
#[export] Instance promise_eq_dec : EqDecision promise.
Proof. solve_decision. Defined.

Record world := World {
  kv : kv_state;
  kv_alloc_done : pos → promise;
  weight_alloc_done : Z → promise;
  weight_loaded : Z → bool;
  layer_sync : Z → LayerSync;
  crashed : bool }.

Definition set_kv (w : world) (s : kv_state) : world :=
  World s w.(kv_alloc_done) w.(weight_alloc_done) w.(weight_loaded) w.(layer_sync) w.(crashed).
Definition set_alloc (w : world) (p : pos) (x : promise) : world :=
  World w.(kv) (<[p := x]> w.(kv_alloc_done)) w.(weight_alloc_done) w.(weight_loaded)
    w.(layer_sync) w.(crashed).
Definition set_walloc (w : world) (L : Z) (x : promise) : world :=
  World w.(kv) w.(kv_alloc_done) (<[L := x]> w.(weight_alloc_done)) w.(weight_loaded)
    w.(layer_sync) w.(crashed).
Definition set_loaded (w : world) (L : Z) : world :=
  World w.(kv) w.(kv_alloc_done) w.(weight_alloc_done) (<[L := true]> w.(weight_loaded))
    w.(layer_sync) w.(crashed).
Definition set_sync (w : world) (L : Z) (x : LayerSync) : world :=
  World w.(kv) w.(kv_alloc_done) w.(weight_alloc_done) w.(weight_loaded)
    (<[L := x]> w.(layer_sync)) w.(crashed).
Definition crash (w : world) : world :=
  World w.(kv) w.(kv_alloc_done) w.(weight_alloc_done) w.(weight_loaded) w.(layer_sync) true.

(** Whether a layer's dump opens, its buffer can be allocated
    ([model->alloc_weight_layer]), its padded size is a multiple of 4096 and the
    dump is read in full. *)
Class ReloadEnv := {
  weight_open_ok : Z → bool; weight_alloc_ok : Z → bool;
  weight_aligned : bool; weight_read_ok : Z → bool }.

Section workers.
Context `{Cd : Codec} `{Ev : Env}.

Definition set_heap (m : memory) h nb : memory := Memory h nb m.(svm_k) m.(svm_v) m.(arenas).
Definition set_state (s : kv_state) (p : pos) (x : KVstate) : kv_state :=
  let t := s.(tab) in
  set_tab s (Chunks (<[p := x]> t.(states)) t.(k_raw) t.(v_raw) t.(k_comp) t.(v_comp)
               t.(k_stored) t.(v_stored)).

(** [kv_alloc_worker]: one block for K and V, registered in both tables. *)
Definition kv_alloc_worker (p : pos) (s : kv_state) : outcome kv_state :=
  if svm_alloc_ok p then
    let n := raw_chunk_bytes s in
    let '(b, m) := svm_alloc (n * 2) s.(mem) in
    let new_k := Some (b, 0) in
    let new_v := Some (b, n) in
    let t := s.(tab) in
    Ok (set_mem (set_tab s (Chunks t.(states) (<[p := new_k]> t.(k_raw)) (<[p := new_v]> t.(v_raw))
                              t.(k_comp) t.(v_comp) t.(k_stored) t.(v_stored)))
          (Memory m.(heap) m.(next_block) (<[p := new_k]> m.(svm_k)) (<[p := new_v]> m.(svm_v))
             m.(arenas)))
  else Throw.

(** [pread(layer_fds[L], ptr, n, off)]: what the file holds there (possibly
    less at its end), nothing when the descriptor is not open for reading or the
    call fails; errors are only logged. *)
Definition pread_into (ok : bool) (L off n : Z) (q : ptr) (d : disk) (m : memory) : outcome memory :=
  match d.(kv_file) L, d.(layer_fds) L with
  | Some f, FdRead => if ok then store q (read_at off n f) m else Ok m
  | _, _ => Ok m
  end.

(** [kv_read_worker] after the wait. *)
Definition kv_read_worker (p : pos) (s : kv_state) : outcome kv_state :=
  let off_k := (s.(tab).(k_stored) p).(file_offset) in
  let off_v := (s.(tab).(v_stored) p).(file_offset) in
  let new_k := s.(mem).(svm_k) p in
  let new_v := s.(mem).(svm_v) p in
  let raw_bytes := raw_chunk_bytes s in
  let L := p.1 in
  m <~ (if ptr_is_next new_k new_v raw_bytes && (off_v =? off_k + raw_bytes) then
          pread_into (pwrite_ok p) L off_k (raw_bytes * 2) new_k s.(dsk) s.(mem)
        else
          m' <~ pread_into (pwrite_ok p) L off_k raw_bytes new_k s.(dsk) s.(mem) ;;
          pread_into (pwrite_ok p) L off_v raw_bytes new_v s.(dsk) m') ;;
  Ok (set_state (set_mem s m) p Raw).

(** [kv_decomp_worker] after the wait: decompress both halves in place, mark
    the chunk raw and count it; the flag says that it was the layer's last. *)
Definition kv_decomp_worker (p : pos) (s : kv_state) : outcome (kv_state * bool) :=
  let kc := s.(tab).(k_comp) p in
  let vc := s.(tab).(v_comp) p in
  match s.(mem).(arenas) p.1 !! Z.to_nat kc.(stack_id) with
  | None => Ub
  | Some cur =>
      let h := s.(kv_hidden_dim) in
      m1 <~ store (s.(mem).(svm_k) p) (dec h (drop (Z.to_nat kc.(offset)) cur.(pool)) kc.(meta)) s.(mem) ;;
      m2 <~ store (s.(mem).(svm_v) p) (dec h (drop (Z.to_nat vc.(offset)) cur.(pool)) vc.(meta)) m1 ;;
      let left := s.(comp_left) p.1 in
      Ok (set_comp_left (set_state (set_mem s m2) p Raw) (<[p.1 := left - 1]> s.(comp_left)),
          left =? 1)
  end.

(** [free_layer_arenas]. *)
Definition free_layer_arenas (L : Z) (s : kv_state) : kv_state :=
  let m := s.(mem) in
  set_mem s (Memory m.(heap) m.(next_block) m.(svm_k) m.(svm_v) (<[L := []]> m.(arenas))).

Context `{Re : ReloadEnv}.

(** The layer's counter is completed; [core->layer_sync] is sized in swap-in. *)
Definition task_done (L : Z) (w : world) : world :=
  match taskDone (w.(layer_sync) L) with Ok x => set_sync w L x | _ => crash w end.

(** One task body. *)
Definition exec (t : CoreType) (x : task) (w : world) : option (world * list (CoreType * task)) :=
  match x with
  | kv_alloc p =>
      Some (match kv_alloc_worker p w.(kv) with
            | Ok s => set_alloc (set_kv w s) p Ready
            | _ => crash w
            end, [])
  | kv_read p =>
      match w.(kv_alloc_done) p with
      | Unregistered => Some (crash w, [])
      | Pending => None
      | Ready => Some (match kv_read_worker p w.(kv) with
                       | Ok s => task_done p.1 (set_kv w s)
                       | _ => crash w
                       end, [])
      end
  | kv_decomp p =>
      match w.(kv_alloc_done) p with
      | Unregistered => Some (crash w, [])
      | Pending => None
      | Ready => Some (match kv_decomp_worker p w.(kv) with
                       | Ok (s, last) => (task_done p.1 (set_kv w s),
                                          if (last : bool) then [(FREE, free_arenas p.1)] else [])
                       | _ => (crash w, [])
                       end)
      end
  | free_arenas L => Some (set_kv w (free_layer_arenas L w.(kv)), [])
  | weight_alloc L =>
      (* the future becomes ready on failure too: it then holds an exception,
         which [wait] does not rethrow *)
      Some (set_walloc w L Ready, [])
  | weight_read L =>
      if negb (weight_open_ok L) then Some (crash w, []) else
      match w.(weight_alloc_done) L with
      | Unregistered => Some (crash w, [])
      | Pending => None
      | Ready =>
          (* [read_weight_layer] refuses an unaligned size and throws on a short
             read, also into a buffer that was not allocated *)
          Some (if negb weight_aligned then task_done L w
                else if weight_alloc_ok L && weight_read_ok L
                then task_done L (set_loaded w L) else crash w, [])
      end
  end.

(** Task bodies enqueue to FREE only, which [wait_idle_all] drains last. *)
Lemma exec_forward t x w w' ch : exec t x w = Some (w', ch) →
  (∀ p, x = kv_decomp p → t = DECOMP) → Forall (λ c, CoreType_rank t < CoreType_rank c.1) ch.
Proof.
  intros He Ht. destruct x; simpl in He; repeat case_match; simplify_eq; try constructor;
    try (by constructor); rewrite (Ht _ eq_refl); simpl; lia.
Qed.

End workers.
