(* ===== verification/KvRestore.v ===== *)
(** The invariant of a swap-in in progress and its preservation by every task
    body: chunks that still have tasks keep their compressed or stored content,
    chunks whose tasks are done are raw with that same content, and no two live
    chunks share memory. *)
From S2P Require Import Prelude Floats Profile ThreadPool KvTypes KvPlan KvLadder KvInv KvFrame.
From S2P Require Import KvSwapOut KvSwapOutThms KvSwapIn Weight KvWorkers.

(** ** Writing a resident pair *)

(** [m2] differs from [m] only in the blocks of the pair (k, v), which now hold
    [kd] and [vd]. *)
Record filled (m m2 : memory) (n : Z) (k v : ptr) (kd vd : list byte) : Prop := Filled {
  fi_load : load k n m2 = Ok kd ∧ load v n m2 = Ok vd;
  fi_res : resident m2.(heap) n k v;
  fi_other : ∀ b, ¬ uses k v b → m2.(heap) !! b = m.(heap) !! b;
  fi_dom : ∀ b, is_Some (m2.(heap) !! b) → is_Some (m.(heap) !! b);
  fi_rest : m2.(next_block) = m.(next_block) ∧ m2.(svm_k) = m.(svm_k) ∧
            m2.(svm_v) = m.(svm_v) ∧ m2.(arenas) = m.(arenas) }.

Lemma insert_dom (h : gmap positive (list byte)) b d x c :
  h !! b = Some d → is_Some (<[b := x]> h !! c) → is_Some (h !! c).
Proof.
  intros Hb. destruct (decide (b = c)) as [->|Hne]; [by rewrite Hb|by rewrite lookup_insert_ne].
Qed.

Lemma store_pair m n k v kd vd :
  0 < n → resident m.(heap) n k v → Z.of_nat (length kd) = n → Z.of_nat (length vd) = n →
  ∃ m1 m2, store k kd m = Ok m1 ∧ store v vd m1 = Ok m2 ∧ filled m m2 n k v kd vd.
Proof.
  intros Hn (bk & bv & dk & Hk & -> & Hv) Hlk Hlv.
  destruct Hv as [(-> & -> & Hl)|(Hne & -> & Hl & dv & Hdv & Hl')].
  - eexists _, _. split; [apply (store_ok bk 0 dk kd m Hk); lia|].
    set (d1 := write_at 0 kd dk).
    assert (Hd1 : length d1 = length dk) by (apply length_write_at; lia).
    split; [apply (store_ok bk n d1); [apply lookup_insert_eq|lia|lia]|].
    set (d2 := write_at n vd d1).
    assert (Hd2 : length d2 = length dk) by (rewrite <- Hd1; apply length_write_at; lia).
    split; cbn -[load].
    + rewrite (load_ok bk 0 n d2), (load_ok bk n n d2) by (try apply lookup_insert_eq; lia).
      split; f_equal; unfold d2.
      * rewrite read_write_before by lia. apply read_write_same_n; lia.
      * apply read_write_same_n; lia.
    + exists bk, bk, d2. split; [apply lookup_insert_eq|]. split; [done|]. left. repeat split; lia.
    + intros b Hb. rewrite !lookup_insert_ne; [done| |]; intros ->; apply Hb; left; eauto.
    + intros b. rewrite insert_insert_eq. by eapply insert_dom.
    + done.
  - eexists _, _. split; [apply (store_ok bk 0 dk kd m Hk); lia|].
    set (d1 := write_at 0 kd dk).
    assert (Hd1 : length d1 = length dk) by (apply length_write_at; lia).
    split; [apply (store_ok bv 0 dv); [cbn; by rewrite lookup_insert_ne by done|lia|lia]|].
    set (d2 := write_at 0 vd dv).
    assert (Hd2 : length d2 = length dv) by (apply length_write_at; lia).
    split; cbn -[load].
    + rewrite (load_ok bk 0 n d1)
        by (lia || (cbn; by rewrite lookup_insert_ne, lookup_insert_eq by done)).
      rewrite (load_ok bv 0 n d2) by (lia || (cbn; apply lookup_insert_eq)).
      split; f_equal; apply read_write_same_n; lia.
    + exists bk, bv, d1. split; [by rewrite lookup_insert_ne, lookup_insert_eq|]. split; [done|].
      right. split; [done|]. split; [done|]. split; [lia|]. exists d2. split; [apply lookup_insert_eq|lia].
    + intros b Hb. rewrite !lookup_insert_ne; [done| |]; intros ->; apply Hb; [left|right]; eauto.
    + intros b Hs. eapply insert_dom; [exact Hk|]. eapply insert_dom; [|exact Hs].
      by rewrite lookup_insert_ne.
    + done.
Qed.

Lemma read_at_app l1 l2 n k : Z.of_nat (length l1) = n → Z.of_nat (length l2) = k →
  read_at 0 n (l1 ++ l2) = l1 ∧ read_at n k (l1 ++ l2) = l2.
Proof.
  intros H1 H2. unfold read_at. split.
  - rewrite drop_0, <- H1, Nat2Z.id. apply take_app_length.
  - rewrite <- H1, <- H2, !Nat2Z.id, drop_app_length. apply firstn_all.
Qed.

(** One write of both halves through the K pointer. *)
Lemma store_contiguous m n k v kd vd :
  0 < n → resident m.(heap) n k v → ptr_is_next k v n = true →
  Z.of_nat (length kd) = n → Z.of_nat (length vd) = n →
  ∃ m2, store k (kd ++ vd) m = Ok m2 ∧ filled m m2 n k v kd vd.
Proof.
  intros Hn (bk & bv & dk & Hk & -> & Hv) Hnext Hlk Hlv.
  destruct Hv as [(-> & -> & Hl)|(Hne & -> & _)];
    [|unfold ptr_is_next in Hnext; by rewrite bool_decide_eq_false_2 in Hnext].
  eexists. split; [apply (store_ok bk 0 dk); [done|lia|rewrite length_app; lia]|].
  set (d1 := write_at 0 (kd ++ vd) dk).
  assert (Hd1 : length d1 = length dk) by (apply length_write_at; rewrite ?length_app; lia).
  assert (Hd1' : d1 = (kd ++ vd) ++ drop (length (kd ++ vd)) dk) by reflexivity.
  split; cbn -[load].
  - rewrite (load_ok bk 0 n d1), (load_ok bk n n d1) by (try apply lookup_insert_eq; lia).
    rewrite Hd1'. unfold read_at. split; f_equal.
    + rewrite drop_0, <- app_assoc, <- Hlk, Nat2Z.id. apply take_app_length.
    + rewrite <- app_assoc, drop_app_length' by lia. apply take_app_length'. lia.
  - exists bk, bk, d1. split; [apply lookup_insert_eq|]. split; [done|]. left. repeat split; lia.
  - intros b Hb. rewrite lookup_insert_ne; [done|]. intros ->. apply Hb. left. eauto.
  - intros b. by eapply insert_dom.
  - done.
Qed.

(** ** Counting tasks *)

Definition decomp_of (L : Z) (x : task) : bool :=
  match x with kv_decomp p => p.1 =? L | _ => false end.
(** The tasks that complete the layer's counter. *)
Definition sync_of (L : Z) (x : task) : bool :=
  match x with kv_decomp p | kv_read p => p.1 =? L | weight_read M => M =? L | _ => false end.
Definition count (f : task → bool) (T : list task) : Z := Z.of_nat (length (List.filter f T)).

Lemma count_cons f x T : count f (x :: T) = (if f x then 1 else 0) + count f T.
Proof. unfold count. simpl. destruct (f x); simpl; lia. Qed.
Lemma count_app f T1 T2 : count f (T1 ++ T2) = count f T1 + count f T2.
Proof. unfold count. rewrite List.filter_app, length_app. lia. Qed.
Lemma count_nonneg f T : 0 <= count f T.
Proof. unfold count. lia. Qed.
Lemma count_perm f T T' : T ≡ₚ T' → count f T = count f T'.
Proof.
  induction 1; rewrite ?count_cons; lia.
Qed.
Lemma count_zero f T x : count f T = 0 → x ∈ T → f x = false.
Proof.
  induction T as [|y T IH]; intros Hc Hx; [by apply elem_of_nil in Hx|].
  rewrite count_cons in Hc. pose proof (count_nonneg f T).
  apply elem_of_cons in Hx as [->|Hx]; [by destruct (f y); [lia|]|].
  apply IH; [|done]. destruct (f y); lia.
Qed.

Lemma cons_ne (x y : task) T : y ≠ x → y ∈ x :: T ↔ y ∈ T.
Proof. rewrite elem_of_cons. tauto. Qed.

(** ** The invariant *)
Section restore.
Context `{Cd : Codec} `{Ev : Env} {CL : CodecLaws Cd} `{Re : ReloadEnv}.

(** What the workers leave alone. *)
Definition same_main (s s' : kv_state) : Prop :=
  same_cfg s s' ∧ s'.(cur) = s.(cur) ∧ s'.(cnt) = s.(cnt) ∧ s'.(dsk) = s.(dsk) ∧
  s'.(next_layer_to_offload) = s.(next_layer_to_offload) ∧
  s'.(offload_used_bytes) = s.(offload_used_bytes) ∧
  s'.(pending_chunks_total) = s.(pending_chunks_total).

Lemma same_main_trans s1 s2 s3 : same_main s1 s2 → same_main s2 s3 → same_main s1 s3.
Proof. unfold same_main, same_cfg. intuition congruence. Qed.

(** Where the content of a chunk that is not in SVM memory is. *)
Definition data_ok (s : kv_state) (p : pos) : Prop :=
  match s.(tab).(states) p with
  | Raw => True
  | Compressed =>
      ∃ a, s.(mem).(arenas) p.1 !! Z.to_nat (s.(tab).(k_comp) p).(stack_id) = Some a ∧
        arena_ok s.(arena_bytes) a ∧
        comp_valid s (s.(tab).(k_comp) p) a ∧ comp_valid s (s.(tab).(v_comp) p) a
  | Stored =>
      ∃ f, s.(dsk).(kv_file) p.1 = Some f ∧
        let o := (s.(tab).(k_stored) p).(file_offset) in
        0 <= o ∧ (s.(tab).(v_stored) p).(file_offset) = o + raw_chunk_bytes s ∧
        o + 2 * raw_chunk_bytes s <= Z.of_nat (length f)
  end.

(** The state of the chunks.  [T] are the tasks not yet ended (queued, running
    or still to be enqueued by the main thread). *)
Record chunk_inv (s0 s : kv_state) (T : list task) : Prop := ChunkInv {
  ci_cfg : same_main s0 s;
  ci_dim : 0 < s.(kv_hidden_dim);
  ci_read : ∀ p, kv_read p ∈ T ↔ in_range s p ∧ s.(tab).(states) p = Stored;
  ci_decomp : ∀ p, kv_decomp p ∈ T ↔ in_range s p ∧ s.(tab).(states) p = Compressed;
  ci_alloc : ∀ p, kv_alloc p ∈ T → in_range s p ∧ s.(tab).(states) p ≠ Raw;
  ci_data : ∀ p, in_range s p → data_ok s p ∧ view s p = view s0 p;
  ci_live : ∀ p, in_range s p → kv_alloc p ∉ T →
    resident s.(mem).(heap) (raw_chunk_bytes s) (s.(mem).(svm_k) p) (s.(mem).(svm_v) p) ∧
    s.(tab).(k_raw) p = s.(mem).(svm_k) p ∧ s.(tab).(v_raw) p = s.(mem).(svm_v) p;
  ci_sep : ∀ p q b, in_range s p → in_range s q → p ≠ q → kv_alloc p ∉ T → kv_alloc q ∉ T →
    uses (s.(mem).(svm_k) p) (s.(mem).(svm_v) p) b →
    uses (s.(mem).(svm_k) q) (s.(mem).(svm_v) q) b → False;
  ci_fresh : ∀ b, is_Some (s.(mem).(heap) !! b) → (b < s.(mem).(next_block))%positive;
  ci_fd : ∀ p, kv_read p ∈ T → s.(dsk).(layer_fds) p.1 = FdRead;
  ci_left : ∀ L, 0 <= L < s.(num_layers) → s.(comp_left) L = count (decomp_of L) T;
  ci_free : ∀ L, free_arenas L ∈ T → ∀ C, kv_decomp (L, C) ∉ T;
  ci_arenas : ∀ L, Forall (arena_ok s.(arena_bytes)) (s.(mem).(arenas) L) }.

(** The allocation promises; [U] are the chunks still to be registered. *)
Record prom_inv (w : world) (T : list task) (U : list pos) : Prop := PromInv {
  pi_alloc : ∀ p, kv_alloc p ∈ T → w.(kv_alloc_done) p ≠ Ready;
  pi_ready : ∀ p, kv_read p ∈ T ∨ kv_decomp p ∈ T → kv_alloc p ∉ T → w.(kv_alloc_done) p = Ready;
  pi_reg : ∀ p, kv_alloc p ∈ T → p ∉ U → w.(kv_alloc_done) p = Pending;
  pi_unreg : ∀ p, p ∈ U → kv_alloc p ∈ T }.

(** The layer counters. *)
Definition sync_inv (w : world) (T : list task) : Prop :=
  ∀ L, 0 <= L < w.(kv).(num_layers) →
    w.(layer_sync) L = Sync (count (sync_of L) T) (count (sync_of L) T =? 0).

(** The weight layers. *)
Record weight_inv (w : world) (T : list task) (UW : list Z) : Prop := WeightInv {
  wi_range : ∀ L, weight_read L ∈ T → 0 <= L < w.(kv).(num_layers);
  wi_alloc : ∀ L, weight_alloc L ∈ T → w.(weight_alloc_done) L ≠ Ready;
  wi_ready : ∀ L, weight_read L ∈ T → weight_alloc L ∉ T → w.(weight_alloc_done) L = Ready;
  wi_reg : ∀ L, weight_alloc L ∈ T → L ∉ UW → w.(weight_alloc_done) L = Pending;
  wi_unreg : ∀ L, L ∈ UW → weight_alloc L ∈ T;
  wi_loaded : ∀ L, 0 <= L < w.(kv).(num_layers) → weight_read L ∉ T → w.(weight_loaded) L = true }.

Record world_inv (s0 : kv_state) (w : world) (T : list task) (U : list pos) (UW : list Z) : Prop :=
 WorldInv {
  iv_crash : w.(crashed) = false;
  iv_nodup : NoDup T;
  iv_chunk : chunk_inv s0 w.(kv) T;
  iv_prom : prom_inv w T U;
  iv_sync : sync_inv w T;
  iv_weight : weight_inv w T UW }.

(** ** Chunks: each worker body *)

Lemma chunk_pos s0 s T : chunk_inv s0 s T → 0 < raw_chunk_bytes s.
Proof. intros H. pose proof (ci_dim _ _ _ H). rewrite raw_chunk_bytes_512. lia. Qed.

(** The content of a chunk that is not raw does not depend on SVM memory. *)
Lemma view_mem_indep s m p : s.(tab).(states) p ≠ Raw → m.(arenas) = s.(mem).(arenas) →
  view (set_mem s m) p = view s p ∧ (data_ok s p → data_ok (set_mem s m) p).
Proof.
  intros Hne Har. unfold view, data_ok. cbn [tab set_mem mem dsk].
  destruct (states (tab s) p); [done| |done]. rewrite Har. done.
Qed.

Lemma raw_view s n kd vd p : s.(tab).(states) p = Raw → n = raw_chunk_bytes s →
  load (s.(mem).(svm_k) p) n s.(mem) = Ok kd → load (s.(mem).(svm_v) p) n s.(mem) = Ok vd →
  view s p = Some (kd, vd).
Proof. intros Hst -> Hk Hv. unfold view. by rewrite Hst, Hk, Hv. Qed.

(** A raw chunk's content is kept when its blocks are. *)
Lemma raw_view_agree s s' p :
  s.(tab).(states) p = Raw → s'.(tab).(states) p = Raw → raw_chunk_bytes s' = raw_chunk_bytes s →
  0 < raw_chunk_bytes s →
  resident s.(mem).(heap) (raw_chunk_bytes s) (s.(mem).(svm_k) p) (s.(mem).(svm_v) p) →
  s'.(mem).(svm_k) p = s.(mem).(svm_k) p → s'.(mem).(svm_v) p = s.(mem).(svm_v) p →
  (∀ b, uses (s.(mem).(svm_k) p) (s.(mem).(svm_v) p) b → s'.(mem).(heap) !! b = s.(mem).(heap) !! b) →
  view s' p = view s p.
Proof.
  intros H1 H2 Hn Hpos Hres Hk Hv Hag.
  destruct (resident_load s.(mem) _ _ _ Hpos Hres) as (kd & vd & Hlk & Hlv & _ & _ & Hl).
  destruct (Hl s'.(mem) Hag) as [Hlk' Hlv'].
  rewrite (raw_view s _ kd vd p H1 eq_refl Hlk Hlv).
  apply (raw_view s' (raw_chunk_bytes s)); [done|done| |]; by rewrite ?Hk, ?Hv.
Qed.

Lemma resident_uses_fresh h n k v b (nb : positive) : resident h n k v →
  (∀ c, is_Some (h !! c) → (c < nb)%positive) → uses k v b → (b < nb)%positive.
Proof.
  intros (bk & bv & dk & Hk & -> & Hv) Hf Hu.
  destruct Hv as [(-> & -> & _)|(_ & -> & _ & dv & Hdv & _)];
    destruct Hu as [[? [= <- <-]]|[? [= <- <-]]]; apply Hf; eauto.
Qed.

Hypothesis Halloc_ok : ∀ p, svm_alloc_ok p = true.

Lemma chunk_inv_alloc s0 s p T : NoDup (kv_alloc p :: T) → chunk_inv s0 s (kv_alloc p :: T) →
  ∃ s', kv_alloc_worker p s = Ok s' ∧ chunk_inv s0 s' T ∧ s'.(num_layers) = s.(num_layers).
Proof.
  intros Hnd Hc. unfold kv_alloc_worker. rewrite Halloc_ok. cbn [svm_alloc].
  set (b := next_block (mem s)). set (n := raw_chunk_bytes s).
  eexists. split; [reflexivity|]. match goal with |- chunk_inv _ ?x _ ∧ _ => set (s' := x) end.
  split; [|done]. pose proof (chunk_pos _ _ _ Hc) as Hn.
  destruct (ci_alloc _ _ _ Hc p ltac:(apply elem_of_cons; by left)) as [Hin Hnr].
  apply NoDup_cons in Hnd as [Hp Hnd].
  assert (Hold : ∀ c, is_Some (heap (mem s) !! c) → c ≠ b).
  { intros c Hs%(ci_fresh _ _ _ Hc) ->. unfold b in Hs. lia. }
  assert (Hin' : ∀ x, x ∈ T → x ∈ kv_alloc p :: T) by (intros; apply elem_of_cons; by right).
  assert (Hni : ∀ q, q ≠ p → kv_alloc q ∉ T → kv_alloc q ∉ kv_alloc p :: T).
  { intros q Hne Hq [[= ->]|?]%elem_of_cons; done. }
  destruct Hc as [c1 c2 c3 c4 c5 c6 c7 c8 c9 c10 c11 c12 c13].
  assert (Huse : ∀ q c, in_range s q → q ≠ p → kv_alloc q ∉ T →
            uses (svm_k (mem s) q) (svm_v (mem s) q) c → c ≠ b).
  { intros q c Hq Hne Hqa Hu. destruct (c7 q Hq (Hni q Hne Hqa)) as [Hres _].
    pose proof (resident_uses_fresh _ _ _ _ _ _ Hres c9 Hu). unfold b. lia. }
  split; try done.
  - intros q. transitivity (kv_read q ∈ kv_alloc p :: T); [|apply c3].
    split; [by apply Hin'|]. by intros [?|?]%elem_of_cons.
  - intros q. transitivity (kv_decomp q ∈ kv_alloc p :: T); [|apply c4].
    split; [by apply Hin'|]. by intros [?|?]%elem_of_cons.
  - intros q Hq. by apply (c5 q), Hin'.
  - intros q Hq. destruct (c6 q Hq) as [Hd Hv].
    destruct (decide (states (tab s) q = Raw)) as [Hr|Hr].
    + assert (Hne : q ≠ p) by congruence.
      assert (Hqa : kv_alloc q ∉ T) by (intros Ha; by destruct (c5 q (Hin' _ Ha))).
      split; [unfold data_ok; cbn; by rewrite Hr|]. rewrite <- Hv.
      apply raw_view_agree; try done; cbn; try by rewrite fn_lookup_insert_ne.
      * by apply c7, Hni.
      * intros c Hu. rewrite lookup_insert_ne; [done|]. intros Heq. by apply (Huse q c).
    + rewrite <- Hv.
      destruct (view_mem_indep s s'.(mem) q Hr eq_refl) as [Hv' Hd']. split; [exact (Hd' Hd)|exact Hv'].
  - intros q Hq Hqa. subst s'. cbn. destruct (decide (p = q)) as [->|Hne].
    + rewrite !fn_lookup_insert. split; [|done].
      exists b, b, (fresh_mem b (n * 2)). split; [apply lookup_insert_eq|]. split; [done|].
      left. split; [done|]. split; [done|]. rewrite length_fresh_mem by lia. unfold raw_chunk_bytes in *. cbn in *. lia.
    + rewrite !fn_lookup_insert_ne by done. destruct (c7 q Hq) as (Hres & Hk & Hv).
      { apply Hni; [congruence|done]. }
      split; [|done]. eapply resident_agree; [|exact Hres].
      intros c Hu. rewrite lookup_insert_ne; [done|]. intros Heq. by apply (Huse q c).
  - intros q r c Hq Hr Hne Hqa Hra. subst s'. cbn.
    assert (Hnew : ∀ x, uses (<[p:=Some (b, 0)]> (svm_k (mem s)) p) (<[p:=Some (b, n)]> (svm_v (mem s)) p) x → x = b).
    { intros x. rewrite !fn_lookup_insert. by intros [[? [= ->]]|[? [= ->]]]. }
    destruct (decide (q = p)) as [->|Hnq], (decide (r = p)) as [->|Hnr']; [done| | |].
    + intros Hu1%Hnew Hu2. rewrite !fn_lookup_insert_ne in Hu2 by done. by apply (Huse r c).
    + intros Hu1 Hu2%Hnew. rewrite !fn_lookup_insert_ne in Hu1 by done. by apply (Huse q c).
    + rewrite !fn_lookup_insert_ne by done. apply (c8 q r); auto.
  - intros c. subst s'. cbn. destruct (decide (b = c)) as [<-|Hne].
    + intros _. unfold b. lia.
    + rewrite lookup_insert_ne by done. intros Hs%c9. lia.
  - intros q Hq. by apply c10, Hin'.
  - intros L HL C HC. exact (c12 L (Hin' _ HL) C (Hin' _ HC)).
Qed.

(** ** Bringing one chunk's content back *)

(** [s'] is [s] with chunk [p] raw again, its blocks filled with [kd] and [vd]. *)
Record refilled (s s' : kv_state) (p : pos) (kd vd : list byte) : Prop := Refilled {
  rf_cfg : same_main s s';
  rf_tab : s'.(tab) = (set_state s p Raw).(tab);
  rf_dsk : s'.(dsk) = s.(dsk);
  rf_mem : filled s.(mem) s'.(mem) (raw_chunk_bytes s) (s.(mem).(svm_k) p) (s.(mem).(svm_v) p) kd vd }.

Lemma refilled_other s s' p q kd vd : refilled s s' p kd vd → q ≠ p →
  0 < raw_chunk_bytes s → data_ok s q →
  (s.(tab).(states) q = Raw →
     resident s.(mem).(heap) (raw_chunk_bytes s) (s.(mem).(svm_k) q) (s.(mem).(svm_v) q) ∧
     ∀ b, uses (s.(mem).(svm_k) q) (s.(mem).(svm_v) q) b →
          ¬ uses (s.(mem).(svm_k) p) (s.(mem).(svm_v) p) b) →
  data_ok s' q ∧ view s' q = view s q.
Proof.
  intros [[(e1 & e2 & e3 & e4 & e5 & e6 & e7) _] Ht Hd [_ _ Ho _ (Hn & Hk & Hv & Ha)]] Hne Hpos Hdat Hsep.
  assert (Hst : s'.(tab).(states) q = s.(tab).(states) q)
    by (rewrite Ht; cbn; by rewrite fn_lookup_insert_ne).
  assert (Hr : raw_chunk_bytes s' = raw_chunk_bytes s) by (unfold raw_chunk_bytes; by rewrite e2).
  destruct (decide (s.(tab).(states) q = Raw)) as [Hraw|Hnr].
  - split; [unfold data_ok; by rewrite Hst, Hraw|]. destruct (Hsep Hraw) as [Hres Hu].
    apply raw_view_agree; try done; [congruence|congruence|congruence|].
    intros b Hb. apply Ho. by apply Hu.
  - unfold data_ok, view, comp_valid in *. rewrite Hst, Hr, Hd, Ha, e2, e5. rewrite Ht. cbn.
    destruct (states (tab s) q); done.
Qed.

Lemma refilled_inv s0 s s' x p kd vd T ch :
  (x = kv_read p ∨ x = kv_decomp p) → NoDup (x :: T) → kv_alloc p ∉ T →
  chunk_inv s0 s (x :: T) → view s p = Some (kd, vd) → refilled s s' p kd vd →
  (∀ L, 0 <= L < s.(num_layers) → s'.(comp_left) L = count (decomp_of L) T) →
  (ch = [] ∨ (ch = [free_arenas p.1] ∧ count (decomp_of p.1) T = 0)) →
  chunk_inv s0 s' (ch ++ T).
Proof.
  intros Hx Hnd Hal Hc Hv Hrf Hleft Hch. pose proof (chunk_pos _ _ _ Hc) as Hpos.
  apply NoDup_cons in Hnd as [Hp Hnd].
  assert (Hin : in_range s p).
  { destruct Hx as [->| ->]; [apply (ci_read _ _ _ Hc p)|apply (ci_decomp _ _ _ Hc p)];
      apply elem_of_cons; by left. }
  assert (Hmem : ∀ y, (∀ L, y ≠ free_arenas L) → y ∈ ch ++ T ↔ y ∈ T).
  { intros y Hy. rewrite elem_of_app. destruct Hch as [->|[-> _]];
      rewrite ?elem_of_nil, ?list_elem_of_singleton; specialize (Hy p.1); tauto. }
  assert (Halm : ∀ q, kv_alloc q ∉ ch ++ T ↔ kv_alloc q ∉ x :: T).
  { intros q. rewrite Hmem by done. rewrite cons_ne; [done|].
    destruct Hx as [->| ->]; congruence. }
  destruct Hrf as [Hcfg Htab Hdsk Hfil] eqn:Erf.
  pose proof Hcfg as [(e1 & e2 & e3 & _ & e5 & _) _].
  assert (Hr : raw_chunk_bytes s' = raw_chunk_bytes s) by (unfold raw_chunk_bytes; by rewrite e2).
  assert (Hir : ∀ q, in_range s' q ↔ in_range s q) by (intros; unfold in_range; by rewrite e1, e3).
  assert (Hst : ∀ q, s'.(tab).(states) q = if decide (q = p) then Raw else s.(tab).(states) q).
  { intros q. rewrite Htab. cbn. case_decide; subst; [apply fn_lookup_insert|by rewrite fn_lookup_insert_ne]. }
  destruct Hfil as [[Hlk Hlv] Hres Ho Hdom (Hn & Hk & Hvv & Ha)] eqn:Efil.
  pose proof Hc as [c1 c2 c3 c4 c5 c6 c7 c8 c9 c10 c11 c12 c13].
  assert (Hpn : kv_alloc p ∉ x :: T) by (apply Halm; rewrite Hmem by done; exact Hal).
  assert (Hsep : ∀ q b, in_range s q → q ≠ p → kv_alloc q ∉ x :: T →
    uses (s.(mem).(svm_k) q) (s.(mem).(svm_v) q) b → ¬ uses (s.(mem).(svm_k) p) (s.(mem).(svm_v) p) b).
  { intros q b Hq Hne Hqa Hu Hu'. by apply (c8 q p b). }
  split.
  - by eapply same_main_trans.
  - by rewrite e2.
  - intros q. rewrite Hmem, Hir, Hst by done. case_decide as Hd.
    + subst q. split; [|by intros [_ ?]]. intros Hq. exfalso. destruct Hx as [->| ->]; [done|].
      destruct (proj1 (c3 p)) as [_ Hs1]; [apply elem_of_cons; by right|].
      destruct (proj1 (c4 p)) as [_ Hs2]; [apply elem_of_cons; by left|]. congruence.
    + rewrite <- c3, cons_ne; [done|]. destruct Hx as [->| ->]; congruence.
  - intros q. rewrite Hmem, Hir, Hst by done. case_decide as Hd.
    + subst q. split; [|by intros [_ ?]]. intros Hq. exfalso. destruct Hx as [->| ->]; [|done].
      destruct (proj1 (c4 p)) as [_ Hs1]; [apply elem_of_cons; by right|].
      destruct (proj1 (c3 p)) as [_ Hs2]; [apply elem_of_cons; by left|]. congruence.
    + rewrite <- c4, cons_ne; [done|]. destruct Hx as [->| ->]; congruence.
  - intros q. rewrite Hmem, Hir, Hst by done. intros Hq.
    case_decide as Hd; [by subst|]. apply c5. apply elem_of_cons. by right.
  - intros q Hq%Hir. destruct (decide (q = p)) as [->|Hne].
    + split; [unfold data_ok; rewrite Hst; by rewrite decide_True|].
      rewrite <- (proj2 (c6 p Hq)), Hv. apply (raw_view s' (raw_chunk_bytes s)); [|by rewrite Hr| |].
      * rewrite Hst. by rewrite decide_True.
      * by rewrite Hk.
      * by rewrite Hvv.
    + rewrite <- (proj2 (c6 q Hq)). apply (refilled_other s s' p q kd vd); try done; [by apply c6|].
      intros Hraw. assert (Hqa : kv_alloc q ∉ x :: T).
      { intros Hqa. by destruct (c5 q Hqa). }
      split; [by apply c7|]. intros b. by apply Hsep.
  - intros q Hq%Hir Hqa%Halm. rewrite Hr, Hk, Hvv. destruct (c7 q Hq Hqa) as (Hres0 & Hkk & Hkv).
    rewrite Htab. cbn. split; [|done]. destruct (decide (q = p)) as [->|Hne]; [done|].
    eapply resident_agree; [|exact Hres0]. intros b Hb. apply Ho. by apply (Hsep q).
  - intros q r b Hq%Hir Hr'%Hir Hne Hqa%Halm Hra%Halm. rewrite Hk, Hvv. by apply c8.
  - intros b Hb. rewrite Hn. apply c9. by apply Hdom.
  - intros q. rewrite Hmem, Hdsk by done. intros Hq. apply c10. apply elem_of_cons. by right.
  - intros L HL. rewrite e1 in HL. rewrite (Hleft L HL), count_app.
    destruct Hch as [->|[-> _]]; [done|]. by rewrite count_cons.
  - intros L HL C. rewrite Hmem by done. destruct Hch as [->|[-> H0]].
    + intros HC. refine (c12 L _ C _); apply elem_of_cons; by right.
    + apply elem_of_app in HL as [[= ->]%list_elem_of_singleton|HL].
      * intros HC. pose proof (count_zero _ _ _ H0 HC) as Hz. cbn in Hz. by rewrite Z.eqb_refl in Hz.
      * intros HC. refine (c12 L _ C _); apply elem_of_cons; by right.
  - intros L. rewrite e5, Ha. apply c13.
Qed.

Hypothesis Hread_ok : ∀ p, pwrite_ok p = true.

Lemma read_at_split o n f : 0 <= o → 0 <= n → o + 2 * n <= Z.of_nat (length f) →
  read_at o (n * 2) f = read_at o n f ++ read_at (o + n) n f.
Proof.
  intros Ho Hn Hl. unfold read_at.
  replace (Z.to_nat (n * 2)) with (Z.to_nat n + Z.to_nat n)%nat by lia.
  replace (Z.to_nat (o + n)) with (Z.to_nat o + Z.to_nat n)%nat by lia.
  rewrite <- drop_drop. generalize (drop (Z.to_nat o) f). intros l.
  rewrite <- take_take_drop. done.
Qed.

Lemma chunk_inv_read s0 s p T : NoDup (kv_read p :: T) → kv_alloc p ∉ T →
  chunk_inv s0 s (kv_read p :: T) →
  ∃ s', kv_read_worker p s = Ok s' ∧ chunk_inv s0 s' T ∧ s'.(num_layers) = s.(num_layers) ∧ in_range s p.
Proof.
  intros Hnd Hal Hc. pose proof (chunk_pos _ _ _ Hc) as Hpos.
  destruct (proj1 (ci_read _ _ _ Hc p)) as [Hin Hst]; [apply elem_of_cons; by left|].
  destruct (ci_data _ _ _ Hc p Hin) as [Hd _]. unfold data_ok in Hd. rewrite Hst in Hd.
  destruct Hd as (f & Hf & Ho & Hov & Hlen).
  assert (Hfd : layer_fds (dsk s) p.1 = FdRead) by (apply (ci_fd _ _ _ Hc p), elem_of_cons; by left).
  destruct (ci_live _ _ _ Hc p Hin) as (Hres & _ & _).
  { by intros [?|?]%elem_of_cons. }
  set (o := file_offset (k_stored (tab s) p)) in *. set (n := raw_chunk_bytes s) in *.
  set (kd := read_at o n f). set (vd := read_at (o + n) n f).
  assert (Hlk : Z.of_nat (length kd) = n) by (unfold kd; rewrite length_read_at; lia).
  assert (Hlv : Z.of_nat (length vd) = n) by (unfold vd; rewrite length_read_at; lia).
  assert (Hm : ∃ m2, kv_read_worker p s = Ok (set_state (set_mem s m2) p Raw) ∧
                 filled (mem s) m2 n (svm_k (mem s) p) (svm_v (mem s) p) kd vd).
  { unfold kv_read_worker, pread_into. rewrite Hf, Hfd, Hread_ok. fold o n. rewrite Hov.
    rewrite Z.eqb_refl, andb_true_r. case_match eqn:Hnext.
    - destruct (store_contiguous (mem s) n (svm_k (mem s) p) (svm_v (mem s) p) kd vd)
        as (m2 & Hs & Hfill); try done.
      exists m2. split; [|done]. rewrite read_at_split by lia. fold kd vd. by rewrite Hs.
    - destruct (store_pair (mem s) n (svm_k (mem s) p) (svm_v (mem s) p) kd vd)
        as (m1 & m2 & Hs1 & Hs2 & Hfill); try done.
      exists m2. split; [|done]. fold kd vd. rewrite Hs1. cbn -[store]. by rewrite Hs2. }
  destruct Hm as (m2 & -> & Hfill). eexists. split; [done|].
  split; [|split; [done|exact Hin]].
  change T with ([] ++ T). apply (refilled_inv s0 s _ (kv_read p) p kd vd); try done.
  - by left.
  - unfold view. rewrite Hst, Hf. fold o n. by rewrite Hov.
  - intros L HL. pose proof (ci_left _ _ _ Hc L HL) as Hl. by rewrite count_cons in Hl.
  - by left.
Qed.

Lemma dec_at s a cc : 0 < s.(kv_hidden_dim) → arena_ok s.(arena_bytes) a → comp_valid s cc a →
  dec s.(kv_hidden_dim) (drop (Z.to_nat cc.(offset)) a.(pool)) cc.(meta) =
  dec s.(kv_hidden_dim) (read_at cc.(offset) cc.(comp_size) a.(pool)) cc.(meta) ∧
  Z.of_nat (length (dec s.(kv_hidden_dim) (read_at cc.(offset) cc.(comp_size) a.(pool)) cc.(meta)))
  = raw_chunk_bytes s.
Proof.
  intros Hh (Hcap & Hlen & Htop) (d & Hd & H1 & H2 & H3 & He).
  rewrite raw_chunk_bytes_512 in *.
  assert (E1 : (enc (kv_hidden_dim s) d).1 = read_at (offset cc) (comp_size cc) (pool a)) by by rewrite He.
  assert (E2 : (enc (kv_hidden_dim s) d).2 = meta cc) by by rewrite He.
  rewrite <- E1, <- E2. split; [|rewrite dec_len; lia].
  rewrite <- (dec_prefix _ d (drop (Z.to_nat (comp_size cc)) (drop (Z.to_nat (offset cc)) (pool a)))) by lia.
  f_equal. rewrite E1. unfold read_at. by rewrite take_drop.
Qed.

Lemma chunk_inv_decomp s0 s p T : NoDup (kv_decomp p :: T) → kv_alloc p ∉ T →
  chunk_inv s0 s (kv_decomp p :: T) →
  ∃ s' (last : bool), kv_decomp_worker p s = Ok (s', last) ∧
    chunk_inv s0 s' ((if last then [free_arenas p.1] else []) ++ T) ∧
    s'.(num_layers) = s.(num_layers) ∧ in_range s p ∧
    (last = true → free_arenas p.1 ∉ T).
Proof.
  intros Hnd Hal Hc. pose proof (chunk_pos _ _ _ Hc) as Hpos.
  pose proof (ci_dim _ _ _ Hc) as Hdim.
  destruct (proj1 (ci_decomp _ _ _ Hc p)) as [Hin Hst]; [apply elem_of_cons; by left|].
  destruct (ci_data _ _ _ Hc p Hin) as [Hd _]. unfold data_ok in Hd. rewrite Hst in Hd.
  destruct Hd as (a & Ha & Hao & Hkv & Hvv).
  destruct (ci_live _ _ _ Hc p Hin) as (Hres & _ & _).
  { by intros [?|?]%elem_of_cons. }
  destruct (dec_at s a (k_comp (tab s) p) Hdim Hao Hkv) as [Hke Hkl].
  destruct (dec_at s a (v_comp (tab s) p) Hdim Hao Hvv) as [Hve Hvl].
  unfold kv_decomp_worker. rewrite Ha, Hke, Hve.
  set (kd := dec _ (read_at (offset (k_comp _ p)) _ _) _) in *.
  set (vd := dec _ (read_at (offset (v_comp _ p)) _ _) _) in *.
  assert (Hview : view s p = Some (kd, vd)) by (unfold view; by rewrite Hst, Ha).
  destruct (store_pair (mem s) (raw_chunk_bytes s) (svm_k (mem s) p) (svm_v (mem s) p) kd vd)
    as (m1 & m2 & Hs1 & Hs2 & Hfill); try done.
  rewrite Hs1. cbn -[store]. rewrite Hs2. cbn -[store fn_insert].
  assert (Hcount : comp_left s p.1 = 1 + count (decomp_of p.1) T).
  { rewrite (ci_left _ _ _ Hc p.1) by apply Hin. rewrite count_cons. cbn. by rewrite Z.eqb_refl. }
  eexists _, _. split; [reflexivity|].
  apply NoDup_cons in Hnd as Hnd'. destruct Hnd' as [Hp _].
  split; [|split; [done|split; [done|]]].
  - apply (refilled_inv s0 s _ (kv_decomp p) p kd vd); try done; [by right| |].
    + intros L HL. pose proof (ci_left _ _ _ Hc L HL) as Hl. rewrite count_cons in Hl. cbn in Hl.
      cbn -[fn_insert]. destruct (Z.eqb_spec p.1 L) as [<-|Hne].
      * rewrite fn_lookup_insert. lia.
      * rewrite fn_lookup_insert_ne by done. lia.
    + destruct (Z.eqb_spec (comp_left s p.1) 1); [right|by left]. split; [done|lia].
  - intros _ Hfr. apply (ci_free _ _ _ Hc p.1) with (C := p.2); apply elem_of_cons; [by right|].
    left. by destruct p.
Qed.

Lemma chunk_inv_free s0 s L T : NoDup (free_arenas L :: T) →
  chunk_inv s0 s (free_arenas L :: T) → chunk_inv s0 (free_layer_arenas L s) T.
Proof.
  intros [Hf Hnd]%NoDup_cons Hc.
  assert (Hmem : ∀ y, (∀ M, y ≠ free_arenas M) → y ∈ free_arenas L :: T ↔ y ∈ T).
  { intros y Hy. apply cons_ne. auto. }
  assert (HnL : ∀ C, kv_decomp (L, C) ∉ T).
  { intros C HC. apply (ci_free _ _ _ Hc L) with (C := C); [apply elem_of_cons; by left|].
    apply elem_of_cons. by right. }
  destruct Hc as [c1 c2 c3 c4 c5 c6 c7 c8 c9 c10 c11 c12 c13].
  split; try done.
  - intros p. rewrite <- Hmem by done. apply c3.
  - intros p. rewrite <- Hmem by done. apply c4.
  - intros p Hp. apply c5. by rewrite Hmem.
  - intros p Hp. rewrite <- (proj2 (c6 p Hp)). pose proof (proj1 (c6 p Hp)) as Hd.
    unfold data_ok, view in *. cbn -[load fn_insert] in *.
    destruct (states (tab s) p) eqn:Est; [done| |done].
    assert (p.1 ≠ L) as Hne.
    { intros <-. apply (HnL p.2). rewrite <- surjective_pairing, <- Hmem by done. by apply c4. }
    rewrite fn_lookup_insert_ne by done. done.
  - intros p Hp Hpa. apply c7; [done|]. by rewrite Hmem.
  - intros p q b Hp Hq Hne Hpa Hqa. apply c8; by rewrite ?Hmem.
  - intros p Hp. apply c10. by rewrite Hmem.
  - intros M HM C HC. apply (c12 M) with (C := C); apply elem_of_cons; by right.
  - intros M. cbn -[fn_insert]. destruct (decide (L = M)) as [<-|Hne].
    + rewrite fn_lookup_insert. constructor.
    + rewrite fn_lookup_insert_ne by done. apply c13.
Qed.

End restore.
