(* ===== verification/KvRestoreW.v ===== *)
(** The invariant of a whole swap-in step: promises, layer counters and weight
    layers, preserved by every task body ([exec]). *)
From S2P Require Import Prelude Floats Profile ThreadPool KvTypes KvPlan KvLadder KvInv KvFrame.
From S2P Require Import KvSwapOut KvSwapOutThms KvSwapIn Weight KvWorkers KvRestore.

(** The group a task is enqueued to. *)
Definition home (x : task) : CoreType :=
  match x with
  | kv_alloc _ | weight_alloc _ => ALLOC
  | kv_read _ | weight_read _ => READ
  | kv_decomp _ => DECOMP
  | free_arenas _ => FREE
  end.

(** The allocation task a body waits for. *)
Definition prereq (x : task) : option task :=
  match x with
  | kv_read p | kv_decomp p => Some (kv_alloc p)
  | weight_read L => Some (weight_alloc L)
  | _ => None
  end.

(** A task whose promise is registered ([U], [UW]: the ones still to be). *)
Definition registered_for (x : task) (U : list pos) (UW : list Z) : Prop :=
  match x with
  | kv_alloc p | kv_read p | kv_decomp p => p ∉ U
  | weight_alloc L | weight_read L => L ∉ UW
  | free_arenas _ => True
  end.

Section exec_inv.
Context `{Cd : Codec} `{Ev : Env} {CL : CodecLaws Cd} `{Re : ReloadEnv}.
Hypothesis Halloc_ok : ∀ p, svm_alloc_ok p = true.
Hypothesis Hread_ok : ∀ p, pwrite_ok p = true.
Hypothesis Hw_open : ∀ L, weight_open_ok L = true.
Hypothesis Hw_alloc : ∀ L, weight_alloc_ok L = true.
Hypothesis Hw_aligned : weight_aligned = true.
Hypothesis Hw_read : ∀ L, weight_read_ok L = true.

(** Completing a layer's counter. *)
Lemma taskDone_count L x T sy :
  sync_of L x = true → sy = Sync (count (sync_of L) (x :: T)) (count (sync_of L) (x :: T) =? 0) →
  taskDone sy = Ok (Sync (count (sync_of L) T) (count (sync_of L) T =? 0)).
Proof.
  intros Hx ->. rewrite count_cons, Hx. pose proof (count_nonneg (sync_of L) T).
  unfold taskDone. cbn [remaining ready]. rewrite (proj2 (Z.eqb_neq (1 + _) 0)) by lia.
  replace (1 + count (sync_of L) T - 1) with (count (sync_of L) T) by lia.
  destruct (Z.eqb_spec (1 + count (sync_of L) T) 1).
  - by rewrite (proj2 (Z.eqb_eq _ _)) by lia.
  - by rewrite (proj2 (Z.eqb_neq _ _)) by lia.
Qed.

Lemma sync_inv_done w x T ch L : sync_inv w (x :: T) → sync_of L x = true →
  (∀ M, sync_of M x = true → M = L) → (∀ M, count (sync_of M) ch = 0) →
  0 <= L < w.(kv).(num_layers) →
  ∃ sy, taskDone (w.(layer_sync) L) = Ok sy ∧
    ∀ w', w'.(layer_sync) = <[L := sy]> w.(layer_sync) →
      w'.(kv).(num_layers) = w.(kv).(num_layers) → sync_inv w' (ch ++ T).
Proof.
  intros Hs Hx Huniq Hch HL. eexists. split; [apply (taskDone_count L x T); [done|by apply Hs]|].
  intros w' Hls Hnl M HM. rewrite Hls, count_app, Hch, Z.add_0_l. rewrite Hnl in HM.
  destruct (decide (L = M)) as [<-|Hne]; [by rewrite fn_lookup_insert|].
  rewrite fn_lookup_insert_ne by done. rewrite (Hs M HM), count_cons.
  destruct (sync_of M x) eqn:E; [by destruct Hne; rewrite (Huniq M E)|done].
Qed.

Lemma sync_inv_other w w' x T : sync_inv w (x :: T) → (∀ M, sync_of M x = false) →
  w'.(layer_sync) = w.(layer_sync) → w'.(kv).(num_layers) = w.(kv).(num_layers) → sync_inv w' T.
Proof.
  intros Hs Hx Hls Hnl M HM. rewrite Hnl in HM. rewrite Hls, (Hs M HM), count_cons.
  by rewrite Hx.
Qed.

(** Tasks of the other half of the work do not matter to an invariant. *)
Definition is_weight (x : task) : bool :=
  match x with weight_alloc _ | weight_read _ => true | _ => false end.

Lemma chunk_inv_drop s0 s x T : is_weight x = true → chunk_inv s0 s (x :: T) → chunk_inv s0 s T.
Proof.
  intros Hx [c1 c2 c3 c4 c5 c6 c7 c8 c9 c10 c11 c12 c13].
  assert (Hm : ∀ y, is_weight y = false → y ∈ T ↔ y ∈ x :: T).
  { intros y Hy. rewrite cons_ne; [done|]. intros ->. congruence. }
  split; try done.
  - intros p. rewrite Hm by done. apply c3.
  - intros p. rewrite Hm by done. apply c4.
  - intros p. rewrite Hm by done. apply c5.
  - intros p Hp. rewrite Hm by done. by apply c7.
  - intros p q b. rewrite !Hm by done. apply c8.
  - intros p. rewrite Hm by done. apply c10.
  - intros L HL. rewrite (c11 L HL), count_cons. by destruct x.
  - intros L. rewrite Hm by done. intros HL C. rewrite Hm by done. by apply c12.
Qed.

Lemma prom_inv_drop w w' x T ch U : prom_inv w (x :: T) U → (∀ p, x ≠ kv_alloc p) →
  Forall (λ y, ∃ L, y = free_arenas L) ch → w'.(kv_alloc_done) = w.(kv_alloc_done) →
  prom_inv w' (ch ++ T) U.
Proof.
  intros [p1 p2 p3 p4] Hx Hch Hd.
  assert (Hm : ∀ y, (∀ L, y ≠ free_arenas L) → y ∈ ch ++ T ↔ y ∈ T).
  { intros y Hy. rewrite elem_of_app. split; [|by right]. intros [Hc|?]; [|done].
    rewrite Forall_forall in Hch. destruct (Hch y Hc) as [L ->]. by destruct (Hy L). }
  split.
  - intros p. rewrite Hm, Hd by done. intros Hp. apply p1. apply elem_of_cons. by right.
  - intros p. rewrite !Hm, Hd by done. intros Hp Ha. apply p2; [|by rewrite cons_ne].
    destruct Hp as [Hp|Hp]; [left|right]; apply elem_of_cons; by right.
  - intros p. rewrite Hm, Hd by done. intros Hp. apply p3. apply elem_of_cons. by right.
  - intros p Hp. rewrite Hm by done. apply p4 in Hp. by rewrite cons_ne in Hp.
Qed.

Lemma prom_inv_alloc w w' p T U : NoDup (kv_alloc p :: T) → prom_inv w (kv_alloc p :: T) U →
  p ∉ U → w'.(kv_alloc_done) = <[p := Ready]> w.(kv_alloc_done) → prom_inv w' T U.
Proof.
  intros [Hn _]%NoDup_cons [p1 p2 p3 p4] HU Hd.
  assert (Hne : ∀ q, kv_alloc q ∈ T → p ≠ q) by (intros q Hq ->; done).
  assert (Hin : ∀ y, y ∈ T → y ∈ kv_alloc p :: T) by (intros; apply elem_of_cons; by right).
  split; rewrite ?Hd.
  - intros q Hq. rewrite fn_lookup_insert_ne by auto. auto.
  - intros q Hq Ha. destruct (decide (p = q)) as [<-|Hpq]; [apply fn_lookup_insert|].
    rewrite fn_lookup_insert_ne by done. apply p2; [destruct Hq; auto|].
    rewrite cons_ne by congruence. done.
  - intros q Hq. rewrite fn_lookup_insert_ne by auto. auto.
  - intros q Hq. pose proof (p4 q Hq) as Hm. apply elem_of_cons in Hm as [[= ->]|?]; done.
Qed.

Lemma weight_inv_drop w w' x T ch UW : weight_inv w (x :: T) UW → is_weight x = false →
  Forall (λ y, is_weight y = false) ch → w'.(weight_alloc_done) = w.(weight_alloc_done) →
  w'.(weight_loaded) = w.(weight_loaded) → w'.(kv).(num_layers) = w.(kv).(num_layers) →
  weight_inv w' (ch ++ T) UW.
Proof.
  intros [w1 w2 w3 w4 w5 w6] Hx Hch Ha Hl Hn.
  assert (Hm : ∀ y, is_weight y = true → y ∈ ch ++ T ↔ y ∈ x :: T).
  { intros y Hy. rewrite elem_of_app, cons_ne by (intros ->; congruence).
    split; [|by right]. intros [Hc|?]; [|done].
    rewrite Forall_forall in Hch. specialize (Hch y Hc). congruence. }
  split; rewrite ?Ha, ?Hl, ?Hn; intros L; rewrite ?Hm by done; auto.
Qed.

Lemma free_not_weight ch : Forall (λ y, ∃ L, y = free_arenas L) ch → Forall (λ y, is_weight y = false) ch.
Proof. intros H. eapply Forall_impl; [exact H|]. by intros y [L ->]. Qed.

(** What a waiting body finds. *)
Lemma prom_status w x p T U : prom_inv w (x :: T) U → x = kv_read p ∨ x = kv_decomp p → p ∉ U →
  (kv_alloc p ∈ T ∧ w.(kv_alloc_done) p = Pending) ∨
  ((kv_alloc p ∉ T) ∧ w.(kv_alloc_done) p = Ready).
Proof.
  intros [p1 p2 p3 p4] Hx HU.
  assert (Hm : kv_alloc p ∈ x :: T ↔ kv_alloc p ∈ T) by (apply cons_ne; destruct Hx; congruence).
  destruct (decide (kv_alloc p ∈ T)) as [Hin|Hn]; [left|right]; split; try done.
  - apply p3; [by apply Hm|done].
  - apply p2; [|by rewrite Hm].
    destruct Hx as [<- | <-]; [left|right]; apply elem_of_cons; by left.
Qed.

Lemma weight_status w L T UW : weight_inv w (weight_read L :: T) UW → L ∉ UW →
  (weight_alloc L ∈ T ∧ w.(weight_alloc_done) L = Pending) ∨
  ((weight_alloc L ∉ T) ∧ w.(weight_alloc_done) L = Ready).
Proof.
  intros [w1 w2 w3 w4 w5 w6] HU.
  assert (Hm : weight_alloc L ∈ weight_read L :: T ↔ weight_alloc L ∈ T) by (by apply cons_ne).
  destruct (decide (weight_alloc L ∈ T)) as [Hin|Hn]; [left|right]; split; try done.
  - apply w4; [by apply Hm|done].
  - apply w3; [apply elem_of_cons; by left|by rewrite Hm].
Qed.

(** The layer counter and the promises after one chunk is back. *)
Lemma restored_world s0 w x p T ch U UW s' : (x = kv_read p ∨ x = kv_decomp p) →
  world_inv s0 w (x :: T) U UW → Forall (λ y, ∃ L, y = free_arenas L) ch →
  NoDup (ch ++ T) → chunk_inv s0 s' (ch ++ T) → s'.(num_layers) = w.(kv).(num_layers) →
  in_range w.(kv) p →
  world_inv s0 (task_done p.1 (set_kv w s')) (ch ++ T) U UW ∧
  (task_done p.1 (set_kv w s')).(kv).(num_layers) = w.(kv).(num_layers).
Proof.
  intros Hx [Hcr Hnd Hch Hpr Hsy Hwt] Hfr Hnd' Hch' Hnl [HL _].
  destruct (sync_inv_done w x T ch p.1 Hsy) as (sy & Hsy1 & Hsy2); [| | |done|].
  { destruct Hx as [->| ->]; cbn; apply Z.eqb_refl. }
  { intros M. by destruct Hx as [->| ->]; cbn; intros ->%Z.eqb_eq. }
  { intros M. clear -Hfr. induction Hfr as [|y l [L ->] _ IH]; [done|]. by rewrite count_cons. }
  unfold task_done. cbn [layer_sync set_kv]. rewrite Hsy1. split; [|done].
  split; [done|done|exact Hch'| | |].
  - eapply prom_inv_drop; [exact Hpr| |exact Hfr|done]. intros q. by destruct Hx as [->| ->].
  - by apply Hsy2.
  - eapply weight_inv_drop; [exact Hwt| |by apply free_not_weight|done|done|done].
    by destruct Hx as [->| ->].
Qed.

Lemma kv_alloc_inv s0 w p T U UW : world_inv s0 w (kv_alloc p :: T) U UW → p ∉ U →
  ∃ s', kv_alloc_worker p w.(kv) = Ok s' ∧
    world_inv s0 (set_alloc (set_kv w s') p Ready) T U UW ∧ s'.(num_layers) = w.(kv).(num_layers).
Proof.
  intros [Hcr Hnd Hch Hpr Hsy Hwt] HU.
  destruct (chunk_inv_alloc Halloc_ok s0 w.(kv) p T Hnd Hch) as (s' & Hs & Hch' & Hn).
  exists s'. split; [done|]. split; [|done]. split; [done|by apply NoDup_cons in Hnd as [_ ?]|done| | |].
  - by eapply prom_inv_alloc.
  - by eapply sync_inv_other.
  - by apply (weight_inv_drop w _ (kv_alloc p) T []).
Qed.

Lemma free_arenas_inv s0 w L T U UW : world_inv s0 w (free_arenas L :: T) U UW →
  world_inv s0 (set_kv w (free_layer_arenas L w.(kv))) T U UW.
Proof.
  intros [Hcr Hnd Hch Hpr Hsy Hwt].
  split; [done|by apply NoDup_cons in Hnd as [_ ?]|exact (chunk_inv_free _ _ _ _ Hnd Hch)| | |].
  - by apply (prom_inv_drop w _ (free_arenas L) T []).
  - by eapply sync_inv_other.
  - by apply (weight_inv_drop w _ (free_arenas L) T []).
Qed.

Lemma weight_alloc_inv s0 w L T U UW : world_inv s0 w (weight_alloc L :: T) U UW → L ∉ UW →
  world_inv s0 (set_walloc w L Ready) T U UW.
Proof.
  intros [Hcr Hnd Hch Hpr Hsy [w1 w2 w3 w4 w5 w6]] HU.
  apply NoDup_cons in Hnd as [Hn Hnd].
  assert (Hin : ∀ y, y ∈ T → y ∈ weight_alloc L :: T) by (intros; apply elem_of_cons; by right).
  assert (Hne : ∀ M, weight_alloc M ∈ T → L ≠ M) by (intros M HM ->; done).
  split; [done|done|exact (chunk_inv_drop _ _ (weight_alloc L) T eq_refl Hch)| | |].
  - by apply (prom_inv_drop w _ (weight_alloc L) T []).
  - by eapply sync_inv_other.
  - split; cbn -[fn_insert].
    + auto.
    + intros M HM. rewrite fn_lookup_insert_ne by auto. auto.
    + intros M HM Ha. destruct (decide (L = M)) as [<-|Hne']; [apply fn_lookup_insert|].
      rewrite fn_lookup_insert_ne by done. apply w3; [auto|]. rewrite cons_ne by congruence. done.
    + intros M HM. rewrite fn_lookup_insert_ne by auto. auto.
    + intros M HM. pose proof (w5 M HM) as Hm. apply elem_of_cons in Hm as [[= ->]|?]; done.
    + intros M HM Hr. apply w6; [done|]. by rewrite cons_ne.
Qed.

Lemma weight_read_inv s0 w L T U UW : world_inv s0 w (weight_read L :: T) U UW →
  weight_alloc L ∉ T →
  world_inv s0 (task_done L (set_loaded w L)) T U UW ∧
  (task_done L (set_loaded w L)).(kv).(num_layers) = w.(kv).(num_layers).
Proof.
  intros [Hcr Hnd Hch Hpr Hsy Hwt] Ha.
  assert (HL : 0 <= L < w.(kv).(num_layers)) by (apply (wi_range _ _ _ Hwt), elem_of_cons; by left).
  destruct (sync_inv_done w (weight_read L) T [] L Hsy) as (sy & Hsy1 & Hsy2); [|  |done|done|].
  { cbn. apply Z.eqb_refl. }
  { intros M. by intros ->%Z.eqb_eq. }
  unfold task_done. cbn [layer_sync set_loaded]. rewrite Hsy1. split; [|done].
  apply NoDup_cons in Hnd as [Hn Hnd].
  split; [done|done|exact (chunk_inv_drop _ _ (weight_read L) T eq_refl Hch)| | |].
  - by apply (prom_inv_drop w _ (weight_read L) T []).
  - by apply Hsy2.
  - destruct Hwt as [w1 w2 w3 w4 w5 w6].
    assert (Hin : ∀ y, y ∈ T → y ∈ weight_read L :: T) by (intros; apply elem_of_cons; by right).
    split; cbn -[fn_insert]; auto.
    + intros M HM Hm. apply w3; [auto|]. by rewrite cons_ne.
    + intros M HM. apply w5 in HM. by rewrite cons_ne in HM.
    + intros M HM Hr. destruct (decide (L = M)) as [<-|Hne]; [apply fn_lookup_insert|].
      rewrite fn_lookup_insert_ne by done. apply w6; [done|]. rewrite cons_ne by congruence. done.
Qed.

(** Every task body: it blocks only while the allocation it needs is
    outstanding, and otherwise keeps the invariant and at most hands one layer
    to FREE. *)
Lemma exec_inv s0 w x T U UW t :
  world_inv s0 w (x :: T) U UW → registered_for x U UW →
  match exec t x w with
  | None => ∃ y, prereq x = Some y ∧ y ∈ T
  | Some (w', ch) =>
      world_inv s0 w' (ch.*2 ++ T) U UW ∧ w'.(kv).(num_layers) = w.(kv).(num_layers) ∧
      (ch = [] ∨ ∃ p, x = kv_decomp p ∧ ch = [(FREE, free_arenas p.1)])
  end.
Proof.
  intros Hw HU. pose proof Hw as [Hcr Hnd Hch Hpr Hsy Hwt].
  destruct x as [p|p|p|L|L|L]; cbn [exec].
  - destruct (kv_alloc_inv _ _ _ _ _ _ Hw HU) as (s' & -> & Hw' & Hn).
    split; [exact Hw'|]. split; [exact Hn|by left].
  - destruct (prom_status w _ p T U Hpr (or_introl eq_refl) HU) as [[Ha ->]|[Ha ->]]; [by eauto|].
    destruct (chunk_inv_read Hread_ok s0 w.(kv) p T Hnd Ha Hch) as (s' & -> & Hch' & Hn & Hin).
    apply NoDup_cons in Hnd as [_ Hnd].
    destruct (restored_world s0 w (kv_read p) p T [] U UW s') as [H1 H2]; auto.
  - destruct (prom_status w _ p T U Hpr (or_intror eq_refl) HU) as [[Ha ->]|[Ha ->]]; [by eauto|].
    destruct (chunk_inv_decomp s0 w.(kv) p T Hnd Ha Hch) as (s' & last & -> & Hch' & Hn & Hin & Hl).
    apply NoDup_cons in Hnd as [_ Hnd].
    set (ch := if last then [free_arenas p.1] else []) in *.
    destruct (restored_world s0 w (kv_decomp p) p T ch U UW s') as [H1 H2]; auto.
    + unfold ch. destruct last; repeat constructor. by eexists.
    + unfold ch. destruct last; [|done]. apply NoDup_cons. split; [by apply Hl|done].
    + unfold ch in H1. destruct last; (split; [exact H1|split; [exact H2|]]); [right|left]; eauto.
  - split; [by apply free_arenas_inv|]. split; [done|by left].
  - split; [by apply weight_alloc_inv|]. split; [done|by left].
  - rewrite Hw_open. cbn [negb].
    destruct (weight_status w L T UW Hwt HU) as [[Ha ->]|[Ha ->]]; [by eauto|].
    rewrite Hw_aligned, Hw_alloc, Hw_read. cbn [negb andb].
    destruct (weight_read_inv _ _ _ _ _ _ Hw Ha) as [H1 H2]. split; [exact H1|]. split; [exact H2|by left].
Qed.

End exec_inv.
