(* ===== verification/KvSystem.v ===== *)
(** A swap-in in progress: the main thread works through its [action]s while the
    workers of the pool run the task bodies in any interleaving.

    The main-thread functions of [KvSwapIn] return their final cursors and the
    actions they issued; here the actions are interleaved with the workers, which
    do not touch the cursors or the file descriptors those functions set. *)
From Stdlib Require Import Sorting.Sorted.
From S2P Require Import Prelude Floats Profile ThreadPool KvTypes KvPlan KvLadder KvInv KvFrame.
From S2P Require Import KvSwapOut KvSwapOutThms KvSwapIn Weight KvWorkers KvRestore KvRestoreW.

Abbreviation task_pool := (ThreadPool (Task := task)).

Record sys := Sys { s_main : list action; s_world : world; s_pool : task_pool }.

Section system.
Context `{Cd : Codec} `{Ev : Env} `{Re : ReloadEnv}.

(** One action of the main thread; [None]: it waits. *)
Definition main_act (a : action) (w : world) (p : task_pool) : option (world * task_pool) :=
  match a with
  | Register q => Some (set_alloc w q Pending, p)
  | RegisterW L => Some (set_walloc w L Pending, p)
  | Enqueue t x =>
      match enqueue t x p with Ok p' => Some (w, p') | _ => Some (crash w, p) end
  | WaitAlloc q =>
      match w.(kv_alloc_done) q with
      | Unregistered => Some (crash w, p) | Pending => None | Ready => Some (w, p)
      end
  | WaitAllocW L =>
      match w.(weight_alloc_done) L with
      | Unregistered => Some (crash w, p) | Pending => None | Ready => Some (w, p)
      end
  | WaitIdle t =>
      match p.(groups) t with
      | None => Some (crash w, p)
      | Some g => if idle g then Some (w, p) else None
      end
  | WaitLayer L =>
      if (0 <=? L) && (L <? w.(kv).(num_layers)) && negb (w.(layer_sync) L).(ready)
      then None else Some (w, p)
  | Decode => Some (w, p)
  | CleanAfterDecompress n => Some (set_kv w (clean_after_decompress n w.(kv)), p)
  | CleanAfterRead n => Some (set_kv w (clean_after_read n w.(kv)), p)
  end.

(** The steps of a running program: the main thread, a worker taking a task,
    ending its body, or becoming free. *)
Inductive sys_step : sys → sys → Prop :=
| st_main a l w w' p p' : w.(crashed) = false → main_act a w p = Some (w', p') →
    sys_step (Sys (a :: l) w p) (Sys l w' p')
| st_take m w p p' t : w.(crashed) = false → take t p = Some p' →
    sys_step (Sys m w p) (Sys m w p')
| st_run m w w' p p' t g l1 x l2 ch : w.(crashed) = false →
    p.(groups) t = Some g → g.(running) = l1 ++ x :: l2 → exec t x w = Some (w', ch) →
    enqueue_all ch (end_body t l1 x l2 g p) = Ok p' →
    sys_step (Sys m w p) (Sys m w' p')
| st_finish m w p p' t : w.(crashed) = false → finish t p = Some p' →
    sys_step (Sys m w p) (Sys m w p').

(** Nothing left to do. *)
Definition sys_done (st : sys) : Prop :=
  st.(s_main) = [] ∧ ∀ t g, st.(s_pool).(groups) t = Some g → idle g = true.

End system.

(** ** The tasks in the pool *)
Definition all_types : list CoreType := [ALLOC; READ; DECOMP; DECOMP_KERNEL; FREE].

Lemma all_types_split t : ∃ l1 l2, all_types = l1 ++ t :: l2 ∧ (t ∉ l1) ∧ (t ∉ l2).
Proof.
  destruct t; [exists []|exists [ALLOC]|exists [ALLOC; READ]|exists [ALLOC; READ; DECOMP]
    |exists [ALLOC; READ; DECOMP; DECOMP_KERNEL]]; eexists; (split; [reflexivity|]);
    split; by apply (bool_decide_unpack _).
Qed.

Definition group_tasks (g : ThreadGroup (Task := task)) : list task := g.(running) ++ g.(tasks).
Definition pool_tasks (p : task_pool) : list task :=
  flat_map (λ t, match p.(groups) t with Some g => group_tasks g | None => [] end) all_types.

Lemma pool_tasks_set t p g : p.(groups) t = Some g → ∃ rest,
  pool_tasks p ≡ₚ group_tasks g ++ rest ∧
  ∀ g', pool_tasks (set_group t g' p) ≡ₚ group_tasks g' ++ rest.
Proof.
  intros Hg. destruct (all_types_split t) as (l1 & l2 & Hall & H1 & H2).
  unfold pool_tasks. rewrite Hall.
  set (f := λ u, match p.(groups) u with Some g => group_tasks g | None => [] end).
  exists (flat_map f l1 ++ flat_map f l2). split.
  - rewrite flat_map_app. cbn [flat_map]. unfold f at 2. rewrite Hg. solve_Permutation.
  - intros g'. rewrite flat_map_app. cbn [flat_map].
    assert (Hext : ∀ l, t ∉ l → flat_map (λ u, match (set_group t g' p).(groups) u with
                     Some g => group_tasks g | None => [] end) l = flat_map f l).
    { intros l Hl. induction l as [|u l IH]; [done|]. cbn [flat_map].
      apply not_elem_of_cons in Hl as [Hu Hl]. rewrite (IH Hl). f_equal. unfold f.
      by rewrite set_group_agree. }
    rewrite !Hext by done. cbn [set_group groups]. rewrite fn_lookup_insert. solve_Permutation.
Qed.

Lemma elem_of_pool_tasks p x : x ∈ pool_tasks p ↔ ∃ t g, p.(groups) t = Some g ∧ x ∈ group_tasks g.
Proof.
  unfold pool_tasks. rewrite list_elem_of_In, in_flat_map. split.
  - intros (t & _ & Hx). exists t. destruct (groups p t) as [g|]; [|done]. exists g.
    split; [done|]. by apply list_elem_of_In.
  - intros (t & g & Hg & Hx). exists t. rewrite Hg. split; [|by apply list_elem_of_In].
    apply list_elem_of_In. destruct t; by apply (bool_decide_unpack _).
Qed.

(** ** The pool: typed, live, not stopped *)
Record pool_good (p : task_pool) : Prop := PoolGood {
  pg_ok : pool_ok p;
  pg_stop : p.(stop) = false;
  pg_home : ∀ x, is_Some (p.(groups) (home x));
  pg_workers : ∀ t g, p.(groups) t = Some g → 0 < g.(workers);
  pg_typed : ∀ t g x, p.(groups) t = Some g → x ∈ group_tasks g → home x = t }.

Lemma set_group_at t g (p : task_pool) : (set_group t g p).(groups) t = Some g.
Proof. apply fn_lookup_insert. Qed.

Lemma pool_good_set t g g' p : pool_good p → p.(groups) t = Some g →
  group_ok g' → g'.(workers) = g.(workers) → (∀ x, x ∈ group_tasks g' → home x = t) →
  pool_good (set_group t g' p).
Proof.
  intros [p1 p2 p3 p4 p5] Hg Hok Hw Ht. split.
  - by apply set_group_ok.
  - done.
  - intros x. destruct (decide (home x = t)) as [->|Hne].
    + cbn. rewrite fn_lookup_insert. eauto.
    + by rewrite set_group_agree.
  - intros u gu Hu. destruct (decide (u = t)) as [->|Hne].
    + cbn in Hu. rewrite fn_lookup_insert in Hu. injection Hu as <-. rewrite Hw. by apply (p4 t).
    + rewrite set_group_agree in Hu by done. by apply (p4 u).
  - intros u gu x Hu Hx. destruct (decide (u = t)) as [->|Hne].
    + cbn in Hu. rewrite fn_lookup_insert in Hu. injection Hu as <-. by apply Ht.
    + rewrite set_group_agree in Hu by done. by apply (p5 u gu).
Qed.

Lemma enqueue_good x p : pool_good p → ∃ p', enqueue (home x) x p = Ok p' ∧ pool_good p' ∧
  pool_tasks p' ≡ₚ x :: pool_tasks p.
Proof.
  intros Hp. destruct (pg_home _ Hp x) as [g Hg]. unfold enqueue. rewrite Hg, (pg_stop _ Hp).
  eexists. split; [reflexivity|]. split.
  - eapply pool_good_set; [done|done| |done|].
    + refine (enqueue_ok (home x) x p _ (pg_ok _ Hp) _ (home x) _ (set_group_at _ _ _)).
      unfold enqueue. by rewrite Hg, (pg_stop _ Hp).
    + intros y. unfold group_tasks. cbn. rewrite app_assoc, elem_of_app, list_elem_of_singleton.
      intros [Hy| ->]; [by apply (pg_typed _ Hp _ g)|done].
  - destruct (pool_tasks_set _ p g Hg) as (rest & H1 & H2). rewrite H1, H2.
    unfold group_tasks. cbn. solve_Permutation.
Qed.

Lemma take_good t p p' : pool_good p → take t p = Some p' →
  pool_good p' ∧ pool_tasks p' ≡ₚ pool_tasks p.
Proof.
  intros Hp Ht. pose proof (take_ok t p p' (pg_ok _ Hp) Ht) as Hok. unfold take in Ht.
  destruct (groups p t) as [g|] eqn:Hg; [|done]. destruct (active g <? workers g); [|done].
  destruct (tasks g) as [|x l] eqn:Etk; [done|]. injection Ht as <-.
  destruct (pool_tasks_set _ p g Hg) as (rest & H1 & H2). split.
  - eapply pool_good_set; [done|done| |done|].
    + exact (Hok t _ (set_group_at _ _ _)).
    + intros y Hy. apply (pg_typed _ Hp t g); [done|]. revert Hy. unfold group_tasks. cbn.
      rewrite Etk. rewrite !elem_of_app, !elem_of_cons, !elem_of_nil. tauto.
  - rewrite H1, H2. unfold group_tasks. cbn. rewrite Etk. solve_Permutation.
Qed.

Lemma finish_good t p p' : pool_good p → finish t p = Some p' →
  pool_good p' ∧ pool_tasks p' ≡ₚ pool_tasks p.
Proof.
  intros Hp Ht. pose proof (finish_ok t p p' (pg_ok _ Hp) Ht) as Hok. unfold finish in Ht.
  destruct (groups p t) as [g|] eqn:Hg; [|done]. destruct (0 <? ending g); [|done].
  injection Ht as <-. destruct (pool_tasks_set _ p g Hg) as (rest & H1 & H2). split.
  - eapply pool_good_set; [done|done| |done|].
    + exact (Hok t _ (set_group_at _ _ _)).
    + intros y Hy. by apply (pg_typed _ Hp t g).
  - by rewrite H1, H2.
Qed.

Lemma end_body_good t l1 x l2 g p : pool_good p → p.(groups) t = Some g →
  g.(running) = l1 ++ x :: l2 →
  pool_good (end_body t l1 x l2 g p) ∧ pool_tasks p ≡ₚ x :: pool_tasks (end_body t l1 x l2 g p) ∧
  home x = t.
Proof.
  intros Hp Hg Hr. pose proof (end_body_ok t l1 x l2 g p (pg_ok _ Hp) Hg Hr) as Hok.
  destruct (pool_tasks_set _ p g Hg) as (rest & H1 & H2). split; [|split].
  - eapply pool_good_set; [done|done| |done|].
    + exact (Hok t _ (set_group_at _ _ _)).
    + intros y Hy. apply (pg_typed _ Hp t g); [done|]. revert Hy. unfold group_tasks. cbn.
      rewrite Hr. rewrite !elem_of_app, elem_of_cons. tauto.
  - unfold end_body. rewrite H1, H2. unfold group_tasks. cbn. rewrite Hr. solve_Permutation.
  - apply (pg_typed _ Hp t g); [done|]. unfold group_tasks. rewrite Hr, !elem_of_app, elem_of_cons. tauto.
Qed.
