(* ===== verification/KvSystemInv.v ===== *)
(** The invariant of a running swap-in ([KvSystem]) and its preservation by
    every step. *)
From S2P Require Import Prelude Floats Profile ThreadPool KvTypes KvPlan KvLadder KvInv KvFrame.
From S2P Require Import KvSwapOut KvSwapOutThms KvSwapIn Weight KvWorkers KvRestore KvRestoreW.
From S2P Require Import KvSystem.

(** ** What the main thread has still to do *)
Definition act_task (a : action) : option task := match a with Enqueue _ x => Some x | _ => None end.
Definition act_reg (a : action) : option pos := match a with Register p => Some p | _ => None end.
Definition act_wreg (a : action) : option Z := match a with RegisterW L => Some L | _ => None end.
Definition main_tasks (m : list action) : list task := omap act_task m.
Definition main_regs (m : list action) : list pos := omap act_reg m.
Definition main_wregs (m : list action) : list Z := omap act_wreg m.

(** Nothing the body of [x] needs is still in the main thread's hands. *)
Definition clear (x : task) (m : list action) : Prop :=
  registered_for x (main_regs m) (main_wregs m) ∧ ∀ y, prereq x = Some y → y ∉ main_tasks m.

(** The order of the main thread's actions: a promise is registered before its
    allocation is enqueued, that before the task that waits for it, and chunks
    are waited for before their task is enqueued. *)
Definition act_ok (a : action) (l : list action) : Prop :=
  match a with
  | Enqueue t x => t = home x ∧ clear x l
  | WaitAlloc p => clear (kv_read p) l ∧ (kv_read p ∈ main_tasks l ∨ kv_decomp p ∈ main_tasks l)
  | WaitAllocW L => clear (weight_read L) l ∧ weight_read L ∈ main_tasks l
  | Register _ | RegisterW _ => True
  | WaitIdle t => t = READ ∨ t = DECOMP
  | WaitLayer L => ∀ x, x ∈ main_tasks l → sync_of L x = false
  | Decode => True
  | CleanAfterDecompress _ | CleanAfterRead _ => False
  end.
Fixpoint main_ok (m : list action) : Prop :=
  match m with [] => True | a :: l => act_ok a l ∧ main_ok l end.

Lemma clear_cons x a l : clear x (a :: l) → clear x l.
Proof.
  intros [Hr Hp]. split.
  - destruct x; cbn in *; try done; intros Hin; apply Hr; destruct a; cbn; try done;
      apply elem_of_cons; by right.
  - intros y Hy Hin. apply (Hp y Hy). destruct a; cbn; try done. apply elem_of_cons. by right.
Qed.

Lemma main_regs_cons p a l : p ∈ main_regs l → p ∈ main_regs (a :: l).
Proof. intros Hp. destruct a; cbn; try done. apply elem_of_cons. by right. Qed.
Lemma main_wregs_cons L a l : L ∈ main_wregs l → L ∈ main_wregs (a :: l).
Proof. intros Hp. destruct a; cbn; try done. apply elem_of_cons. by right. Qed.

Section inv.
Context `{Cd : Codec} `{Ev : Env} {CL : CodecLaws Cd} `{Re : ReloadEnv}.

(** ** Permutations of the outstanding tasks *)
Lemma chunk_inv_perm s0 s T T' : T ≡ₚ T' → chunk_inv s0 s T → chunk_inv s0 s T'.
Proof.
  intros HP [c1 c2 c3 c4 c5 c6 c7 c8 c9 c10 c11 c12 c13].
  assert (Hm : ∀ y, y ∈ T' ↔ y ∈ T) by (intros; by rewrite HP).
  split; try done; intros; rewrite ?Hm; eauto using count_perm.
  - apply c5. by rewrite <- Hm.
  - apply c7; [done|]. by rewrite <- Hm.
  - apply (c8 p q b); rewrite <- ?Hm; done.
  - apply c10. by rewrite <- Hm.
  - rewrite c11 by done. by apply count_perm.
  - apply (c12 L). by rewrite <- Hm.
Qed.

Lemma world_inv_perm s0 w T T' U UW : T ≡ₚ T' → world_inv s0 w T U UW → world_inv s0 w T' U UW.
Proof.
  intros HP [i1 i2 i3 [p1 p2 p3 p4] i5 [w1 w2 w3 w4 w5 w6]].
  assert (Hm : ∀ y, y ∈ T' ↔ y ∈ T) by (intros; by rewrite HP).
  split; [done|by rewrite <- HP|by eapply chunk_inv_perm| | |].
  - split; intros p; rewrite ?Hm; auto.
  - intros L HL. rewrite (i5 L HL). by rewrite (count_perm _ _ _ HP).
  - split; intros L; rewrite ?Hm; auto.
Qed.

(** Registering a promise. *)
Lemma register_inv s0 w T p l : world_inv s0 w T (main_regs (Register p :: l)) (main_wregs l) →
  world_inv s0 (set_alloc w p Pending) T (main_regs l) (main_wregs l).
Proof.
  intros [i1 i2 i3 [p1 p2 p3 p4] i5 i6]. cbn in *.
  assert (Hp : kv_alloc p ∈ T) by (apply p4, elem_of_cons; by left).
  assert (Hset : ∀ q, (<[p := Pending]> w.(kv_alloc_done)) q
                 = if decide (p = q) then Pending else w.(kv_alloc_done) q).
  { intros q. case_decide; [subst; apply fn_lookup_insert|by apply fn_lookup_insert_ne]. }
  split; [done|done|done| |done|by destruct i6]. split; cbn -[fn_insert]; intros q; rewrite ?Hset.
  - intros Hq. case_decide; [congruence|auto].
  - intros Hq Ha. case_decide; [by subst|auto].
  - intros Hq HU. case_decide as Hd; [done|]. apply p3; [done|]. intros [->|?]%elem_of_cons; done.
  - intros Hq. apply p4, elem_of_cons. by right.
Qed.

Lemma register_w_inv s0 w T L l : world_inv s0 w T (main_regs l) (main_wregs (RegisterW L :: l)) →
  world_inv s0 (set_walloc w L Pending) T (main_regs l) (main_wregs l).
Proof.
  intros [i1 i2 i3 i4 i5 [w1 w2 w3 w4 w5 w6]]. cbn in *.
  assert (Hp : weight_alloc L ∈ T) by (apply w5, elem_of_cons; by left).
  assert (Hset : ∀ q, (<[L := Pending]> w.(weight_alloc_done)) q
                 = if decide (L = q) then Pending else w.(weight_alloc_done) q).
  { intros q. case_decide; [subst; apply fn_lookup_insert|by apply fn_lookup_insert_ne]. }
  split; [done|done|done|by destruct i4|done|]. split; cbn -[fn_insert]; try done; intros q; rewrite ?Hset.
  - intros Hq. case_decide; [congruence|auto].
  - intros Hq Ha. case_decide; [by subst|auto].
  - intros Hq HU. case_decide as Hd; [done|]. apply w4; [done|]. intros [->|?]%elem_of_cons; done.
  - intros Hq. apply w5, elem_of_cons. by right.
Qed.

(** ** The invariant *)
Record sys_inv (s0 : kv_state) (st : sys) : Prop := SysInv {
  si_world : world_inv s0 st.(s_world) (main_tasks st.(s_main) ++ pool_tasks st.(s_pool))
               (main_regs st.(s_main)) (main_wregs st.(s_main));
  si_main : main_ok st.(s_main);
  si_clear : ∀ x, x ∈ pool_tasks st.(s_pool) → clear x st.(s_main);
  si_pool : pool_good st.(s_pool) }.

Hypothesis Halloc_ok : ∀ p, svm_alloc_ok p = true.
Hypothesis Hread_ok : ∀ p, pwrite_ok p = true.
Hypothesis Hw_open : ∀ L, weight_open_ok L = true.
Hypothesis Hw_alloc : ∀ L, weight_alloc_ok L = true.
Hypothesis Hw_aligned : weight_aligned = true.
Hypothesis Hw_read : ∀ L, weight_read_ok L = true.

(** One action: it waits, or keeps the invariant. *)
Lemma wait_status s0 w m p T : (kv_read p ∈ T ∨ kv_decomp p ∈ T) → clear (kv_read p) m →
  world_inv s0 w T (main_regs m) (main_wregs m) → w.(kv_alloc_done) p ≠ Unregistered.
Proof.
  intros Hx [Hr _] Hw. pose proof (iv_prom _ _ _ _ _ Hw) as [p1 p2 p3 p4].
  destruct (decide (kv_alloc p ∈ T)) as [Ha|Ha]; [by rewrite (p3 p Ha Hr)|by rewrite (p2 p Hx Ha)].
Qed.

Lemma wait_status_w s0 w m L T : weight_read L ∈ T → clear (weight_read L) m →
  world_inv s0 w T (main_regs m) (main_wregs m) → w.(weight_alloc_done) L ≠ Unregistered.
Proof.
  intros Hx [Hr _] Hw. pose proof (iv_weight _ _ _ _ _ Hw) as [w1 w2 w3 w4 w5 w6].
  destruct (decide (weight_alloc L ∈ T)) as [Ha|Ha]; [by rewrite (w4 L Ha Hr)|by rewrite (w3 L Hx Ha)].
Qed.

Lemma main_act_inv s0 a l w p w' p' : sys_inv s0 (Sys (a :: l) w p) →
  main_act a w p = Some (w', p') → sys_inv s0 (Sys l w' p').
Proof.
  intros [Hw [Ha Hm] Hc Hp] Hact. cbn [s_main s_world s_pool] in *.
  assert (Hc' : ∀ x, x ∈ pool_tasks p → clear x l) by (intros x Hx; by eapply clear_cons, Hc).
  destruct a as [q|t x|L|q|L|t|L| |n|n]; cbn -[andb] in Hact; cbn in Ha; try done.
  - injection Hact as <- <-. split; cbn; try done. by apply register_inv.
  - destruct Ha as [-> Hx]. destruct (enqueue_good x p Hp) as (p1 & He & Hg & HP).
    rewrite He in Hact. injection Hact as <- <-. split; cbn; try done.
    + eapply world_inv_perm; [|exact Hw]. cbn. rewrite HP. by rewrite Permutation_middle.
    + intros y. rewrite HP. intros [->|Hy]%elem_of_cons; [done|by apply Hc'].
  - injection Hact as <- <-. split; cbn; try done. by apply register_w_inv.
  - destruct Ha as [Hcl Hin]. pose proof (wait_status s0 w l q (main_tasks l ++ pool_tasks p)) as Hs.
    destruct (kv_alloc_done w q) eqn:E; [|done|by injection Hact as <- <-].
    exfalso. apply Hs; [|done|exact Hw|done].
    rewrite !elem_of_app. tauto.
  - destruct Ha as [Hcl Hin]. pose proof (wait_status_w s0 w l L (main_tasks l ++ pool_tasks p)) as Hs.
    destruct (weight_alloc_done w L) eqn:E; [|done|by injection Hact as <- <-].
    exfalso. apply Hs; [|done|exact Hw|done].
    rewrite elem_of_app. tauto.
  - assert (is_Some (groups p t)) as [g Hg].
    { destruct Ha as [->| ->]; [apply (pg_home _ Hp (kv_read (0, 0)))|apply (pg_home _ Hp (kv_decomp (0, 0)))]. }
    rewrite Hg in Hact. destruct (idle g); [|done]. by injection Hact as <- <-.
  - destruct (_ && _ && _); [done|]. by injection Hact as <- <-.
  - by injection Hact as <- <-.
Qed.

Lemma run_inv s0 m w p t g l1 x l2 : sys_inv s0 (Sys m w p) →
  p.(groups) t = Some g → g.(running) = l1 ++ x :: l2 →
  match exec t x w with
  | None => ∃ y, prereq x = Some y ∧ y ∈ pool_tasks p
  | Some (w', ch) => ∃ p', enqueue_all ch (end_body t l1 x l2 g p) = Ok p' ∧
      sys_inv s0 (Sys m w' p') ∧
      (p' = end_body t l1 x l2 g p ∨ ∃ q, x = kv_decomp q ∧
         enqueue FREE (free_arenas q.1) (end_body t l1 x l2 g p) = Ok p')
  end.
Proof.
  intros [Hw Hm Hc Hp] Hg Hr. cbn [s_main s_world s_pool] in *.
  destruct (end_body_good t l1 x l2 g p Hp Hg Hr) as (Hp1 & HP & Hh).
  assert (Hx : clear x m) by (apply Hc; rewrite HP; apply elem_of_cons; by left).
  assert (HT : main_tasks m ++ pool_tasks p
               ≡ₚ x :: (main_tasks m ++ pool_tasks (end_body t l1 x l2 g p))).
  { rewrite HP. by rewrite <- Permutation_middle. }
  pose proof (exec_inv Halloc_ok Hread_ok Hw_open Hw_alloc Hw_aligned Hw_read s0 w x _ _ _ t
                (world_inv_perm _ _ _ _ _ _ HT Hw) (proj1 Hx)) as He.
  destruct (exec t x w) as [[w' ch]|].
  - destruct He as (Hw' & _ & [->|(q & Hq & ->)]).
    + exists (end_body t l1 x l2 g p). split; [done|]. split; [|by left].
      split; cbn; try done. intros y Hy. apply Hc. rewrite HP. apply elem_of_cons. by right.
    + destruct (enqueue_good (free_arenas q.1) (end_body t l1 x l2 g p) Hp1) as (p' & Hen & Hg' & HP').
      cbn [home] in Hen. exists p'. cbn [enqueue_all]. rewrite Hen. split; [done|].
      split; [|right; by eauto]. split; cbn; try done.
      * refine (world_inv_perm _ _ _ _ _ _ _ Hw'). cbn [s_main s_pool].
        transitivity (main_tasks m ++ free_arenas q.1 :: pool_tasks (end_body t l1 x l2 g p)).
        -- exact (Permutation_middle _ _ _).
        -- apply Permutation_app_head. by rewrite HP'.
      * intros y. rewrite HP'. intros [->|Hy]%elem_of_cons; [done|].
        apply Hc. rewrite HP. apply elem_of_cons. by right.
  - destruct He as (y & Hy & Hin). exists y. split; [done|]. rewrite HP.
    apply elem_of_app in Hin as [Hin|Hin]; [by destruct (proj2 Hx y Hy)|]. apply elem_of_cons. by right.
Qed.

Lemma sys_step_inv s0 st st' : sys_inv s0 st → sys_step st st' → sys_inv s0 st'.
Proof.
  intros Hi. destruct 1 as [a l w w' p p' _ Ha|m w p p' t _ Ht|m w w' p p' t g l1 x l2 ch _ Hg Hr He Hq
    |m w p p' t _ Ht].
  - by eapply main_act_inv.
  - destruct Hi as [Hw Hm Hc Hp]. cbn in *. destruct (take_good t p p' Hp Ht) as [Hg HP].
    split; cbn; try done; [|by intros x; rewrite HP; apply Hc].
    eapply world_inv_perm; [|exact Hw]. by rewrite HP.
  - pose proof (run_inv s0 m w p t g l1 x l2 Hi Hg Hr) as H. rewrite He in H.
    destruct H as (p1 & Hp1 & Hi' & _). congruence.
  - destruct Hi as [Hw Hm Hc Hp]. cbn in *. destruct (finish_good t p p' Hp Ht) as [Hg HP].
    split; cbn; try done; [|by intros x; rewrite HP; apply Hc].
    eapply world_inv_perm; [|exact Hw]. by rewrite HP.
Qed.

Lemma sys_steps_inv s0 st st' : sys_inv s0 st → rtc sys_step st st' → sys_inv s0 st'.
Proof. intros Hi Hs. induction Hs as [|a b c Hab _ IH]; [done|]. apply IH. by eapply sys_step_inv. Qed.

End inv.
