(* ===== verification/KvProgress.v ===== *)
(** Progress and termination of a swap-in: some thread can always move until
    everything is done, and every step decreases a measure. *)
From S2P Require Import Prelude Floats Profile ThreadPool KvTypes KvPlan KvLadder KvInv KvFrame.
From S2P Require Import KvSwapOut KvSwapOutThms KvSwapIn Weight KvWorkers KvRestore KvRestoreW.
From S2P Require Import KvSystem KvSystemInv.

(** ** The measure *)
Definition sum_list {A} (f : A → Z) (l : list A) : Z := foldr (λ x n, f x + n) 0 l.

Lemma sum_list_app {A} (f : A → Z) l1 l2 : sum_list f (l1 ++ l2) = sum_list f l1 + sum_list f l2.
Proof. unfold sum_list. induction l1; simpl; lia. Qed.
Lemma sum_list_nonneg {A} (f : A → Z) l : (∀ x, 0 <= f x) → 0 <= sum_list f l.
Proof. intros Hf. unfold sum_list. induction l as [|x l IH]; simpl; [lia|]. specialize (Hf x). lia. Qed.

(** The steps a queued task still takes: taken, body, worker free again; a
    decompression may add one such task. *)
Definition task_cost (x : task) : Z := match x with kv_decomp _ => 6 | _ => 3 end.
Definition act_cost (a : action) : Z := match a with Enqueue _ x => 1 + task_cost x | _ => 1 end.
Definition group_cost (g : ThreadGroup (Task := task)) : Z :=
  sum_list task_cost g.(tasks) + sum_list (λ x, task_cost x - 1) g.(running) + g.(ending).
Definition opt_cost (o : option ThreadGroup) : Z := match o with Some g => group_cost g | None => 0 end.
Definition pool_cost (p : task_pool) : Z := sum_list (λ t, opt_cost (p.(groups) t)) all_types.
Definition sys_cost (st : sys) : Z := sum_list act_cost st.(s_main) + pool_cost st.(s_pool).

Lemma task_cost_pos x : 3 <= task_cost x.
Proof. destruct x; cbn; lia. Qed.

Lemma pool_cost_set t p g : p.(groups) t = Some g → ∃ rest,
  pool_cost p = group_cost g + rest ∧
  ∀ g', pool_cost (set_group t g' p) = group_cost g' + rest.
Proof.
  intros Hg. destruct (all_types_split t) as (l1 & l2 & Hall & H1 & H2).
  unfold pool_cost. rewrite Hall.
  set (f := λ u, opt_cost (p.(groups) u)). exists (sum_list f l1 + sum_list f l2). split.
  - rewrite sum_list_app. cbn [sum_list foldr]. fold (sum_list f l2).
    unfold f at 2. rewrite Hg. cbn [opt_cost]. lia.
  - intros g'. rewrite sum_list_app. cbn [sum_list foldr].
    assert (Hext : ∀ l, t ∉ l → sum_list (λ u, opt_cost ((set_group t g' p).(groups) u)) l = sum_list f l).
    { intros l Hl. induction l as [|u l IH]; [done|]. unfold sum_list in *. cbn [foldr].
      apply not_elem_of_cons in Hl as [Hu Hl]. rewrite (IH Hl). f_equal. unfold f.
      by rewrite set_group_agree. }
    fold (sum_list (λ u, opt_cost ((set_group t g' p).(groups) u)) l2).
    rewrite !Hext by done. rewrite set_group_at. cbn [opt_cost]. lia.
Qed.

Lemma group_cost_nonneg g : group_ok g → 0 <= group_cost g.
Proof.
  intros [? He ? ? ?]. unfold group_cost.
  pose proof (sum_list_nonneg task_cost (tasks g)) as H1.
  pose proof (sum_list_nonneg (λ x, task_cost x - 1) (running g)) as H2.
  assert (∀ x, 0 <= task_cost x) by (intros x; pose proof (task_cost_pos x); lia).
  assert (∀ x, 0 <= task_cost x - 1) by (intros x; pose proof (task_cost_pos x); lia).
  specialize (H1 ltac:(done)). specialize (H2 ltac:(done)). lia.
Qed.

Lemma pool_cost_nonneg p : pool_good p → 0 <= pool_cost p.
Proof.
  intros Hp. apply sum_list_nonneg. intros t. unfold opt_cost. destruct (groups p t) as [g|] eqn:E; [|done].
  apply group_cost_nonneg. by apply (pg_ok _ Hp t).
Qed.

Lemma enqueue_cost t x p p' : enqueue t x p = Ok p' → pool_cost p' = pool_cost p + task_cost x.
Proof.
  unfold enqueue. destruct (groups p t) as [g|] eqn:Hg; [|done]. destruct (stop p); [done|].
  intros [= <-]. destruct (pool_cost_set t p g Hg) as (rest & -> & H). rewrite H.
  unfold group_cost. cbn [tasks running ending]. rewrite sum_list_app. cbn [sum_list foldr]. lia.
Qed.

Section progress.
Context `{Cd : Codec} `{Ev : Env} {CL : CodecLaws Cd} `{Re : ReloadEnv}.
Hypothesis Halloc_ok : ∀ p, svm_alloc_ok p = true.
Hypothesis Hread_ok : ∀ p, pwrite_ok p = true.
Hypothesis Hw_open : ∀ L, weight_open_ok L = true.
Hypothesis Hw_alloc : ∀ L, weight_alloc_ok L = true.
Hypothesis Hw_aligned : weight_aligned = true.
Hypothesis Hw_read : ∀ L, weight_read_ok L = true.

Lemma main_act_cost s0 a l w p w' p' : sys_inv s0 (Sys (a :: l) w p) →
  main_act a w p = Some (w', p') → sys_cost (Sys l w' p') < sys_cost (Sys (a :: l) w p).
Proof.
  intros [Hw [Ha Hm] Hc Hp] Hact. unfold sys_cost. cbn [s_main s_pool] in *. cbn [sum_list foldr].
  fold (sum_list act_cost l).
  destruct a as [q|t x|L|q|L|t|L| |n|n]; cbn in Hact; cbn in Ha; cbn [act_cost]; try done;
    repeat case_match; simplify_eq; try lia.
  - erewrite enqueue_cost by done. lia.
  - destruct Ha as [-> _]. destruct (enqueue_good x p' Hp) as (p1 & He & _). congruence.
  - destruct Ha as [-> _]. destruct (enqueue_good x p' Hp) as (p1 & He & _). congruence.
Qed.

Lemma sys_step_cost s0 st st' : sys_inv s0 st → sys_step st st' → sys_cost st' < sys_cost st.
Proof.
  intros Hi. destruct 1 as [a l w w' p p' _ Ha|m w p p' t _ Ht|m w w' p p' t g l1 x l2 ch _ Hg Hr He Hq
    |m w p p' t _ Ht].
  - by eapply main_act_cost.
  - unfold sys_cost, take in *. cbn [s_main s_pool]. destruct (groups p t) as [g|] eqn:Hg; [|done].
    destruct (active g <? workers g); [|done]. destruct (tasks g) as [|x rest] eqn:Et; [done|].
    injection Ht as <-. destruct (pool_cost_set t p g Hg) as (r & -> & H). rewrite H.
    unfold group_cost. cbn [tasks running ending]. rewrite Et, sum_list_app. cbn [sum_list foldr].
    fold (sum_list task_cost rest). lia.
  - pose proof (run_inv Halloc_ok Hread_ok Hw_open Hw_alloc Hw_aligned Hw_read
                  s0 m w p t g l1 x l2 Hi Hg Hr) as H. rewrite He in H.
    destruct H as (p1 & Hp1 & _ & Hc). assert (p1 = p') as -> by congruence.
    unfold sys_cost. cbn [s_main s_pool]. destruct (pool_cost_set t p g Hg) as (r & -> & H).
    assert (Hend : pool_cost (end_body t l1 x l2 g p) = group_cost g + r - (task_cost x - 1) + 1).
    { unfold end_body. rewrite H. unfold group_cost. cbn [tasks running ending].
      rewrite Hr, !sum_list_app. cbn [sum_list foldr]. fold (sum_list (λ x, task_cost x - 1) l2). lia. }
    destruct Hc as [->|(q & -> & Hen)].
    + rewrite Hend. pose proof (task_cost_pos x). lia.
    + rewrite (enqueue_cost _ _ _ _ Hen), Hend. cbn [task_cost]. lia.
  - unfold sys_cost, finish in *. cbn [s_main s_pool]. destruct (groups p t) as [g|] eqn:Hg; [|done].
    destruct (0 <? ending g); [|done]. injection Ht as <-.
    destruct (pool_cost_set t p g Hg) as (r & -> & H). rewrite H.
    unfold group_cost. cbn [tasks running ending]. lia.
Qed.

(** Every run is at most as long as the measure of its first state. *)
Lemma sys_run_bounded s0 n st st' : sys_inv s0 st → nsteps sys_step n st st' →
  sys_inv s0 st' ∧ Z.of_nat n + sys_cost st' <= sys_cost st ∧ 0 <= sys_cost st'.
Proof.
  intros Hi Hs. induction Hs as [st|n st1 st2 st3 H12 _ IH].
  - split; [done|]. split; [lia|]. unfold sys_cost.
    pose proof (pool_cost_nonneg _ (si_pool _ _ Hi)).
    assert (0 <= sum_list act_cost (s_main st)); [|lia].
    apply sum_list_nonneg. intros [| ? x | | | | | | | |]; cbn; try lia. pose proof (task_cost_pos x). lia.
  - pose proof (sys_step_cost s0 _ _ Hi H12).
    destruct IH as (Hi3 & Hc & Hn); [by eapply sys_step_inv|]. split; [done|]. lia.
Qed.

(** ** Progress *)

(** A group with something to do moves, unless one of its bodies waits for an
    allocation that is still in the pool. *)
Lemma group_progress s0 m w p t g : sys_inv s0 (Sys m w p) → p.(groups) t = Some g →
  idle g = false →
  (∃ st', sys_step (Sys m w p) st') ∨
  (∃ x y, home x = t ∧ prereq x = Some y ∧ y ∈ pool_tasks p).
Proof.
  intros Hi Hg Hid. pose proof (si_pool _ _ Hi) as Hp. cbn in Hp.
  pose proof (iv_crash _ _ _ _ _ (si_world _ _ Hi)) as Hcr. cbn in Hcr.
  destruct (pg_ok _ Hp t g Hg) as [Hact Hend Hwk Hall Hfifo].
  destruct (Z.ltb_spec 0 (ending g)) as [He|He].
  { left. eexists. eapply (st_finish m w p _ t); [done|]. unfold finish. rewrite Hg.
    by rewrite (proj2 (Z.ltb_lt _ _) He). }
  destruct (running g) as [|x r] eqn:Hr.
  - left. cbn in Hact. assert (active g = 0) by lia. unfold idle in Hid.
    destruct (tasks g) as [|x l] eqn:Et; [by apply Z.eqb_neq in Hid|].
    eexists. eapply (st_take m w p _ t); [done|]. unfold take. rewrite Hg.
    pose proof (pg_workers _ Hp t g Hg). rewrite (proj2 (Z.ltb_lt _ _)) by lia. by rewrite Et.
  - pose proof (run_inv Halloc_ok Hread_ok Hw_open Hw_alloc Hw_aligned Hw_read
                  s0 m w p t g [] x r Hi Hg Hr) as H.
    destruct (exec t x w) as [[w' ch]|] eqn:He'.
    + destruct H as (p' & Hp' & _). left. eexists.
      by eapply (st_run m w w' p p' t g [] x r ch).
    + right. destruct H as (y & Hy & Hin). exists x, y. split; [|done].
      apply (pg_typed _ Hp t g); [done|]. unfold group_tasks. rewrite Hr. apply elem_of_cons. by left.
Qed.

Lemma busy_group p t g x : pool_good p → p.(groups) t = Some g → x ∈ group_tasks g → idle g = false.
Proof.
  intros Hp Hg Hx. destruct (pg_ok _ Hp t g Hg) as [Hact Hend _ _ _]. unfold idle, group_tasks in *.
  destruct (tasks g); [|done]. rewrite app_nil_r in Hx. apply Z.eqb_neq.
  destruct (running g); [by apply elem_of_nil in Hx|]. simpl in Hact. lia.
Qed.

Lemma pool_progress s0 m w p t g : sys_inv s0 (Sys m w p) → p.(groups) t = Some g →
  idle g = false → ∃ st', sys_step (Sys m w p) st'.
Proof.
  intros Hi Hg Hid. destruct (group_progress s0 m w p t g Hi Hg Hid) as [?|(x & y & Hh & Hy & Hin)];
    [done|].
  pose proof (si_pool _ _ Hi) as Hp. cbn in Hp.
  apply elem_of_pool_tasks in Hin as (u & gu & Hu & Hin).
  assert (u = ALLOC) as ->.
  { rewrite <- (pg_typed _ Hp u gu y Hu Hin). destruct x; cbn in Hy; try done; by injection Hy as <-. }
  destruct (group_progress s0 m w p ALLOC gu Hi Hu (busy_group p ALLOC gu y Hp Hu Hin))
    as [?|(x' & y' & Hh' & Hy' & _)]; [done|]. by destruct x'.
Qed.

Definition pool_idle (p : task_pool) : bool :=
  forallb (λ t, match p.(groups) t with Some g => idle g | None => true end) all_types.

Lemma pool_idle_true p t g : pool_idle p = true → p.(groups) t = Some g → idle g = true.
Proof.
  intros Hi Hg. unfold pool_idle in Hi. rewrite forallb_forall in Hi. specialize (Hi t).
  rewrite Hg in Hi. apply Hi. destruct t; cbn; tauto.
Qed.

Lemma pool_idle_false p : pool_idle p = false → ∃ t g, p.(groups) t = Some g ∧ idle g = false.
Proof.
  unfold pool_idle. induction all_types as [|t l IH]; [done|]. cbn [forallb].
  destruct (groups p t) as [g|] eqn:Hg; [|apply IH]. destruct (idle g) eqn:Hid; [apply IH|]. eauto.
Qed.

Lemma count_pos f T : count f T ≠ 0 → ∃ x, x ∈ T ∧ f x = true.
Proof.
  induction T as [|x T IH]; [done|]. rewrite count_cons. intros H. destruct (f x) eqn:E.
  - exists x. split; [apply elem_of_cons; by left|done].
  - destruct (IH ltac:(lia)) as (y & Hy & Hf). exists y. split; [apply elem_of_cons; by right|done].
Qed.

(** A wait of the main thread ends: what it waits for is in the pool. *)
Lemma sys_progress s0 st : sys_inv s0 st → sys_done st ∨ ∃ st', sys_step st st'.
Proof.
  intros Hi. destruct st as [m w p]. pose proof (si_pool _ _ Hi) as Hp. cbn in Hp.
  pose proof (iv_crash _ _ _ _ _ (si_world _ _ Hi)) as Hcr. cbn in Hcr.
  assert (Hbusy : ∀ y, y ∈ pool_tasks p → ∃ st', sys_step (Sys m w p) st').
  { intros y (u & gu & Hu & Hin)%elem_of_pool_tasks.
    exact (pool_progress s0 m w p u gu Hi Hu (busy_group p u gu y Hp Hu Hin)). }
  destruct m as [|a l].
  - destruct (pool_idle p) eqn:Eid; [left|right].
    + split; [done|]. intros t g Hg. by eapply pool_idle_true.
    + apply pool_idle_false in Eid as (t & g & Hg & Hid). by eapply pool_progress.
  - right. destruct (main_act a w p) as [[w' p']|] eqn:Ha; [eexists; by eapply st_main|].
    pose proof Hi as [Hw [Hao Hm] Hc _]. cbn [s_main s_world s_pool] in Hw, Hc.
    destruct a as [q|t x|L|q|L|t|L| |n|n]; cbn in Ha; cbn in Hao; try done.
    + by destruct (enqueue t x p).
    + destruct Hao as [Hcl Hin]. apply (Hbusy (kv_alloc q)).
      assert (Hal : kv_alloc q ∈ main_tasks l ++ pool_tasks p).
      { destruct (decide (kv_alloc q ∈ main_tasks l ++ pool_tasks p)) as [|Hn]; [done|].
        pose proof (iv_prom _ _ _ _ _ Hw) as [_ p2 _ _]. rewrite (p2 q) in Ha; [done| |exact Hn].
        cbn. rewrite !elem_of_app. tauto. }
      apply elem_of_app in Hal as [Hal|?]; [|done]. by destruct (proj2 Hcl (kv_alloc q) eq_refl).
    + destruct Hao as [Hcl Hin]. apply (Hbusy (weight_alloc L)).
      assert (Hal : weight_alloc L ∈ main_tasks l ++ pool_tasks p).
      { destruct (decide (weight_alloc L ∈ main_tasks l ++ pool_tasks p)) as [|Hn]; [done|].
        pose proof (iv_weight _ _ _ _ _ Hw) as [_ _ w3 _ _ _]. rewrite (w3 L) in Ha; [done| |exact Hn].
        cbn. rewrite elem_of_app. tauto. }
      apply elem_of_app in Hal as [Hal|?]; [|done]. by destruct (proj2 Hcl (weight_alloc L) eq_refl).
    + destruct (groups p t) as [g|] eqn:Hg; [|done]. destruct (idle g) eqn:Hid; [done|].
      exact (pool_progress s0 _ w p t g Hi Hg Hid).
    + destruct (Z.leb_spec 0 L) as [HL|]; [|done]. destruct (Z.ltb_spec L (num_layers (kv w))) as [HL'|]; [|done].
      set (n := count (sync_of L) (main_tasks l ++ pool_tasks p)).
      assert (Hs : layer_sync w L = Sync n (n =? 0)) by exact (iv_sync _ _ _ _ _ Hw L (conj HL HL')).
      rewrite Hs in Ha. cbn [ready] in Ha. destruct (Z.eqb_spec n 0) as [|Hne]; [done|]. unfold n in Hne.
      destruct (count_pos _ _ Hne) as (x & Hx & Hf).
      apply elem_of_app in Hx as [Hx|Hx]; [|by apply (Hbusy x)]. by rewrite (Hao x Hx) in Hf.
Qed.

End progress.
