(* ===== verification/KvCore.v ===== *)
(** The swap-in entry points of [mzcache_core.cpp]: [initialize_layer_sync], the
    four [swapin_generate*] variants and [finish_swapin_cycle]. *)
From Stdlib Require Import Sorting.Sorted.
From S2P Require Import Prelude Floats Profile ThreadPool KvTypes KvPlan KvLadder KvInv KvFrame.
From S2P Require Import KvSwapOut KvSwapOutThms KvSwapIn Weight KvWorkers KvRestore KvRestoreW.
From S2P Require Import KvSystem KvOffload.

(** ** [initialize_layer_sync] *)

Definition compress_init (s : kv_state) (i : Z) : Z :=
  let Bc := s.(pln).(chunk_bound) i in
  if i <? s.(cur).(cur_layer_idx_to_compress) then 0
  else if i =? s.(cur).(cur_layer_idx_to_compress) then Bc - (s.(cur).(cur_chunk_idx_to_compress) + 1)
  else Bc.

Definition store_init (s : kv_state) (i : Z) : Z :=
  let Bc := s.(pln).(chunk_bound) i in
  let N := s.(num_chunks_per_tensor) in
  if i <? s.(cur).(cur_layer_idx_to_store) then 0
  else if i =? s.(cur).(cur_layer_idx_to_store) then N - (s.(cur).(cur_chunk_idx_to_store) + 1)
  else N - Bc.

(** The loop over the layers: counters per layer, [comp_left], and the numbers
    of chunks to decompress and to load. *)
Fixpoint sync_loop (todo : nat) (i : Z) (s : kv_state) (Wc : Z) (cl : Z → Z) (sy : Z → LayerSync)
    (decomp_num_chunks load_num_chunks : Z) : (Z → Z) * (Z → LayerSync) * Z * Z :=
  match todo with
  | O => (cl, sy, decomp_num_chunks, load_num_chunks)
  | S todo =>
      let ci := compress_init s i in
      let si := store_init s i in
      let total_init := ci + si + (if i >? Wc then 1 else 0) in
      sync_loop todo (i + 1) s Wc (<[i := ci]> cl) (<[i := new_sync total_init]> sy)
        (decomp_num_chunks + ci) (load_num_chunks + si)
  end.

Definition initialize_layer_sync (wt : mzcache_weight) (w : world) : world * Z * Z :=
  let s := w.(kv) in
  let '(cl, sy, d, l) := sync_loop (Z.to_nat s.(num_layers)) 0 s wt.(cur_layer_idx_to_unload)
                           s.(comp_left) w.(layer_sync) 0 0 in
  (World (set_comp_left s cl) (λ _, Unregistered) (λ _, Unregistered) w.(weight_loaded) sy w.(crashed),
   d, l).

(** ** The swap-in variants *)
Section swapin.
Context `{Cd : Codec} `{Ev : Env} `{Sw : SwapEnv}.

Definition all_layers (s : kv_state) : list Z := seqZ 0 s.(num_layers).

(** What the main thread does between the clock readings, as [action]s, and the
    state it leaves: chunks and weights in one go ... *)
Definition restore_overlapped (d l : Z) (s : kv_state) (wt : mzcache_weight)
    : outcome (kv_state * mzcache_weight * list action) :=
  '(s1, a1) <~ mzcache_enqueue_decomp_load_chunks d l s ;;
  let '(wt', a2) := mzcache_reload_w_layers wt in
  Ok (s1, wt', a1 ++ a2).

(** ... or all the allocations first. *)
Definition restore_alloc_first (d l : Z) (s : kv_state) (wt : mzcache_weight)
    : outcome (kv_state * mzcache_weight * list action) :=
  let a1 := mzcache_reload_w_layers_alloc_only wt in
  '(a2, _) <~ mzcache_enqueue_kv_alloc_only d l s ;;
  let a3 := WaitAllocW <$> unloaded_layers wt in
  '(a4, _) <~ mzcache_wait_for_kv d l s ;;
  '(s1, a5, _) <~ mzcache_enqueue_kv_decomp_read_only d l s ;;
  let '(wt', a6) := mzcache_reload_w_layers_reload_only wt in
  Ok (s1, wt', a1 ++ a2 ++ a3 ++ a4 ++ a5 ++ a6).

(** The world in which a swap-in starts and the numbers of chunks to bring
    back: the layer counters are set first, then the arenas are reloaded. *)
Definition swapin_start (wt : mzcache_weight) (w : world) : world * Z * Z :=
  let '(w1, d, l) := initialize_layer_sync wt w in
  (set_kv w1 (mzcache_reload_all_arenas w1.(kv)), d, l).

Inductive swapin_variant := Generate | NoPrefillOverlap | NoAllocOverlap | NoOverlap.

(** [swapin_generate], [swapin_generate_no_prefill_overlap],
    [swapin_generate_no_alloc_overlap] and [swapin_generate_no_overlap] up to
    [finish_swapin_cycle].  In the first and third the decode runs in a thread of
    its own, which waits for each layer's counter; in the others the main thread
    waits for all of them and then decodes. *)
Definition swapin_generate (v : swapin_variant) (wt : mzcache_weight) (w : world)
    : outcome (world * mzcache_weight * list action * Z * Z) :=
  let '(w1, d, l) := swapin_start wt w in
  let then_decode := (WaitLayer <$> all_layers w1.(kv)) ++ [Decode] in
  match v with
  | Generate =>
      '(s, wt', acts) <~ restore_overlapped d l w1.(kv) wt ;; Ok (set_kv w1 s, wt', acts, d, l)
  | NoPrefillOverlap =>
      '(s, wt', acts) <~ restore_overlapped d l w1.(kv) wt ;;
      Ok (set_kv w1 s, wt', acts ++ then_decode, d, l)
  | NoAllocOverlap =>
      '(s, wt', acts) <~ restore_alloc_first d l w1.(kv) wt ;; Ok (set_kv w1 s, wt', acts, d, l)
  | NoOverlap =>
      '(s, wt', acts) <~ restore_alloc_first d l w1.(kv) wt ;;
      Ok (set_kv w1 s, wt', acts ++ then_decode, d, l)
  end.

(** [finish_swapin_cycle], once its waits are over. *)
Definition finish_swapin_cycle (decomp_chunks load_chunks : Z) (s : kv_state) (wt : mzcache_weight)
    : kv_state * mzcache_weight :=
  (clean_after_read load_chunks (clean_after_decompress decomp_chunks s),
   Weight wt.(w_num_layers) (wt.(w_num_layers) - 1) 0).
End swapin.

(** ** What [initialize_layer_sync] computes *)

Lemma sync_loop_spec todo i s Wc cl sy d l :
  let '(cl', sy', d', l') := sync_loop todo i s Wc cl sy d l in
  (∀ j, i <= j < i + Z.of_nat todo →
     cl' j = compress_init s j ∧
     sy' j = new_sync (compress_init s j + store_init s j + (if j >? Wc then 1 else 0))) ∧
  (∀ j, j < i → cl' j = cl j ∧ sy' j = sy j) ∧
  d' = d + sum_to (λ j, compress_init s (i + j)) todo ∧
  l' = l + sum_to (λ j, store_init s (i + j)) todo.
Proof.
  revert i cl sy d l. induction todo as [|todo IH]; intros i cl sy d l; cbn [sync_loop].
  - cbn [sum_to]. repeat split; try lia; intros; lia.
  - set (x := new_sync _). set (ci := compress_init s i) in *.
    specialize (IH (i + 1) (<[i := ci]> cl) (<[i := x]> sy) (d + ci) (l + store_init s i)).
    destruct (sync_loop todo _ _ _ _ _ _ _) as [[[cl' sy'] d'] l'].
    destruct IH as (H1 & H2 & -> & ->). repeat split.
    + destruct (decide (j = i)) as [->|Hne]; [|apply H1; lia].
      destruct (H2 i ltac:(lia)) as [-> _]. apply fn_lookup_insert.
    + destruct (decide (j = i)) as [->|Hne]; [|apply H1; lia].
      destruct (H2 i ltac:(lia)) as [_ ->]. apply fn_lookup_insert.
    + destruct (H2 j ltac:(lia)) as [-> _]. rewrite fn_lookup_insert_ne by lia. done.
    + destruct (H2 j ltac:(lia)) as [_ ->]. rewrite fn_lookup_insert_ne by lia. done.
    + rewrite (sum_to_split _ (S todo) 1) by lia. cbn [sum_to]. replace (S todo - 1)%nat with todo by lia.
      rewrite (sum_to_ext (λ j, compress_init s (i + 1 + j))
                 (λ j, compress_init s (i + (j + Z.of_nat 1)))).
      * unfold ci. replace (i + Z.of_nat 0) with i by lia. lia.
      * intros j Hj. f_equal. lia.
    + rewrite (sum_to_split _ (S todo) 1) by lia. cbn [sum_to]. replace (S todo - 1)%nat with todo by lia.
      rewrite (sum_to_ext (λ j, store_init s (i + 1 + j))
                 (λ j, store_init s (i + (j + Z.of_nat 1)))).
      * replace (i + Z.of_nat 0) with i by lia. lia.
      * intros j Hj. f_equal. lia.
Qed.

(** ** Counting the tasks of a layer *)

Definition on_layer (L : Z) (l : list pos) : Z := Z.of_nat (length (List.filter (λ p, p.1 =? L) l)).

Lemma on_layer_app L l1 l2 : on_layer L (l1 ++ l2) = on_layer L l1 + on_layer L l2.
Proof. unfold on_layer. rewrite List.filter_app, length_app. lia. Qed.

Lemma on_layer_chunks L M lo hi : on_layer L (layer_chunks M lo hi) = if M =? L then Z.max 0 (hi - lo) else 0.
Proof.
  rewrite <- (length_layer_chunks M lo hi). unfold on_layer, layer_chunks.
  induction (seqZ lo (hi - lo)) as [|c l IH]; cbn; [by destruct (M =? L)|].
  destruct (Z.eqb_spec M L); cbn; lia.
Qed.

Lemma on_layer_regions L lo hi i k :
  on_layer L (regions lo hi i k)
  = if (i <=? L) && (L <? i + Z.of_nat k) then Z.max 0 (hi L - lo L) else 0.
Proof.
  revert i. induction k as [|k IH]; intros i; cbn [regions].
  - destruct (Z.leb_spec i L), (Z.ltb_spec L (i + Z.of_nat 0)); try done. lia.
  - rewrite on_layer_app, on_layer_chunks, IH.
    destruct (Z.eqb_spec i L) as [->|Hne].
    + destruct (Z.leb_spec (L + 1) L); [lia|]. destruct (Z.leb_spec L L); [|lia].
      destruct (Z.ltb_spec L (L + Z.of_nat (S k))); [|lia]. cbn [andb]. lia.
    + destruct (Z.leb_spec (i + 1) L), (Z.leb_spec i L), (Z.ltb_spec L (i + 1 + Z.of_nat k)),
        (Z.ltb_spec L (i + Z.of_nat (S k))); cbn [andb]; lia.
Qed.

Section counts.
Context `{Cd : Codec} `{Ev : Env}.

Lemma on_layer_decompress s L : ladder_ok s → tidy s → 0 <= L < s.(num_layers) →
  on_layer L (to_decompress s) = compress_init s L.
Proof.
  intros Hl [Hc _ _] HL. destruct (ladder_ccur s Hl) as (HcL & HcC & HcC').
  pose proof (ladder_bounds s Hl L HL) as Hb. rewrite (proj2 (Z.ltb_ge _ _) Hc) in HcC'.
  unfold to_decompress, above_comp, compress_init.
  rewrite on_layer_app, on_layer_chunks, on_layer_regions.
  set (cl := cur_layer_idx_to_compress (cur s)) in *.
  destruct (Z.eqb_spec cl L) as [->|Hne].
  - rewrite (proj2 (Z.ltb_ge L L)), Z.eqb_refl, (proj2 (Z.leb_gt (L + 1) L)) by lia. cbn [andb]. lia.
  - rewrite (proj2 (Z.eqb_neq L cl)) by lia.
    destruct (Z.ltb_spec L cl), (Z.leb_spec (cl + 1) L),
      (Z.ltb_spec L (cl + 1 + Z.of_nat (Z.to_nat (num_layers s - (cl + 1))))); cbn [andb]; lia.
Qed.

Lemma on_layer_load s L : ladder_ok s → tidy s → 0 <= L < s.(num_layers) →
  on_layer L (to_load s) = store_init s L.
Proof.
  intros Hl [_ Hs _] HL. destruct (ladder_scur s Hl) as (HsL & HsC & HsC'). specialize (HsC' Hs).
  pose proof (ladder_bounds s Hl L HL) as Hb.
  unfold to_load, above_store, store_init.
  rewrite on_layer_app, on_layer_chunks, on_layer_regions.
  set (sl := cur_layer_idx_to_store (cur s)) in *.
  destruct (Z.eqb_spec sl L) as [->|Hne].
  - rewrite (proj2 (Z.ltb_ge L L)), Z.eqb_refl, (proj2 (Z.leb_gt (L + 1) L)) by lia. cbn [andb]. lia.
  - rewrite (proj2 (Z.eqb_neq L sl)) by lia.
    destruct (Z.ltb_spec L sl), (Z.leb_spec (sl + 1) L),
      (Z.ltb_spec L (sl + 1 + Z.of_nat (Z.to_nat (num_layers s - (sl + 1))))); cbn [andb]; lia.
Qed.
End counts.
