(* ===== verification/KvStart.v ===== *)
(** The start of a swap-in: the action lists of the four variants are well
    ordered and carry exactly the tasks of what is swapped out, and the world
    [swapin_start] sets up satisfies the invariant of [KvSystemInv]. *)
From Stdlib Require Import Sorting.Sorted.
From S2P Require Import Prelude Floats Profile ThreadPool KvTypes KvPlan KvLadder KvInv KvFrame.
From S2P Require Import KvSwapOut KvSwapOutThms KvSwapIn Weight KvWorkers KvRestore KvRestoreW.
From S2P Require Import KvSystem KvSystemInv KvOffload KvOffloadThms KvCore.

(** ** Reading off a list of actions *)
Lemma main_tasks_app m1 m2 : main_tasks (m1 ++ m2) = main_tasks m1 ++ main_tasks m2.
Proof. apply omap_app. Qed.
Lemma main_regs_app m1 m2 : main_regs (m1 ++ m2) = main_regs m1 ++ main_regs m2.
Proof. apply omap_app. Qed.
Lemma main_wregs_app m1 m2 : main_wregs (m1 ++ m2) = main_wregs m1 ++ main_wregs m2.
Proof. apply omap_app. Qed.

Definition full_load (p : pos) : list action := alloc_acts p ++ read_acts p.
Definition full_decomp (p : pos) : list action := alloc_acts p ++ decomp_acts p.
Definition w_full (L : Z) : list action :=
  [RegisterW L; Enqueue ALLOC (weight_alloc L); Enqueue READ (weight_read L)].
Definition w_alloc (L : Z) : list action := [RegisterW L; Enqueue ALLOC (weight_alloc L)].

(** A block is a list of equal little action lists, one per chunk or layer. *)
Lemma block_tasks {A} (f : A → list action) (g : A → list task) l :
  (∀ x, main_tasks (f x) = g x) → main_tasks (flat_map f l) = flat_map g l.
Proof. intros H. induction l as [|x l IH]; [done|]. cbn [flat_map]. by rewrite main_tasks_app, H, IH. Qed.
Lemma block_regs {A} (f : A → list action) (g : A → list pos) l :
  (∀ x, main_regs (f x) = g x) → main_regs (flat_map f l) = flat_map g l.
Proof. intros H. induction l as [|x l IH]; [done|]. cbn [flat_map]. by rewrite main_regs_app, H, IH. Qed.
Lemma block_wregs {A} (f : A → list action) (g : A → list Z) l :
  (∀ x, main_wregs (f x) = g x) → main_wregs (flat_map f l) = flat_map g l.
Proof. intros H. induction l as [|x l IH]; [done|]. cbn [flat_map]. by rewrite main_wregs_app, H, IH. Qed.

Lemma flat_map_nil {A B} (l : list A) : flat_map (λ _, @nil B) l = [].
Proof. by induction l. Qed.
Lemma flat_map_self {A} (l : list A) : flat_map (λ x, [x]) l = l.
Proof. induction l as [|x l IH]; [done|]. cbn [flat_map app]. by rewrite IH. Qed.

Lemma map_block {A} (f : A → action) l : f <$> l = flat_map (λ x, [f x]) l.
Proof. induction l as [|x l IH]; [done|]. cbn. by rewrite IH. Qed.

Lemma elem_of_flat_map {A B} (f : A → list B) l y : y ∈ flat_map f l ↔ ∃ x, x ∈ l ∧ y ∈ f x.
Proof.
  rewrite list_elem_of_In, in_flat_map. split; intros (x & H1 & H2); exists x; by rewrite !list_elem_of_In in *.
Qed.

(** ** Order of a block in front of the remaining actions *)
Definition clear_pos (p : pos) (m : list action) : Prop := (p ∉ main_regs m) ∧ kv_alloc p ∉ main_tasks m.
Definition clear_layer (L : Z) (m : list action) : Prop := (L ∉ main_wregs m) ∧ weight_alloc L ∉ main_tasks m.

Lemma clear_read p m : clear_pos p m → clear (kv_read p) m.
Proof. intros [H1 H2]. split; [done|]. by intros y [= <-]. Qed.
Lemma clear_decomp p m : clear_pos p m → clear (kv_decomp p) m.
Proof. intros [H1 H2]. split; [done|]. by intros y [= <-]. Qed.
Lemma clear_weight L m : clear_layer L m → clear (weight_read L) m.
Proof. intros [H1 H2]. split; [done|]. by intros y [= <-]. Qed.

Lemma clear_pos_app p m1 m2 : clear_pos p m1 → clear_pos p m2 → clear_pos p (m1 ++ m2).
Proof.
  intros [H1 H2] [H3 H4]. split; rewrite ?main_regs_app, ?main_tasks_app, elem_of_app; tauto.
Qed.
Lemma clear_layer_app L m1 m2 : clear_layer L m1 → clear_layer L m2 → clear_layer L (m1 ++ m2).
Proof.
  intros [H1 H2] [H3 H4]. split; rewrite ?main_wregs_app, ?main_tasks_app, elem_of_app; tauto.
Qed.

(** A block without the chunk (layer) is clear of it. *)
Lemma clear_pos_block {A} (f : A → list action) l p :
  (∀ x, x ∈ l → clear_pos p (f x)) → clear_pos p (flat_map f l).
Proof.
  intros H. induction l as [|x l IH]; [split; apply not_elem_of_nil|]. cbn [flat_map].
  apply clear_pos_app; [apply H, elem_of_cons; by left|]. apply IH. intros y Hy. apply H, elem_of_cons. by right.
Qed.
Lemma clear_layer_block {A} (f : A → list action) l L :
  (∀ x, x ∈ l → clear_layer L (f x)) → clear_layer L (flat_map f l).
Proof.
  intros H. induction l as [|x l IH]; [split; apply not_elem_of_nil|]. cbn [flat_map].
  apply clear_layer_app; [apply H, elem_of_cons; by left|]. apply IH. intros y Hy. apply H, elem_of_cons. by right.
Qed.

Lemma block_main_ok {A} (f : A → list action) l m :
  NoDup l → main_ok m →
  (∀ x l1 l2, l = l1 ++ x :: l2 → main_ok (flat_map f l2 ++ m) → main_ok (f x ++ flat_map f l2 ++ m)) →
  main_ok (flat_map f l ++ m).
Proof.
  intros Hnd Hm. induction Hnd as [|x l Hx Hnd IH]; intros H; [done|]. cbn [flat_map].
  rewrite <- app_assoc. assert (Hr : main_ok (flat_map f l ++ m)).
  { apply IH. intros y l1 l2 Heq. apply (H y (x :: l1) l2). by rewrite Heq. }
  by apply (H x [] l).
Qed.

(** [tail_pos]: the chunk's block entries behind the current one are clear. *)
Lemma tail_clear_pos (f : pos → list action) l l1 p l2 m :
  NoDup l → l = l1 ++ p :: l2 → (∀ q, q ≠ p → clear_pos p (f q)) → clear_pos p m →
  clear_pos p (flat_map f l2 ++ m).
Proof.
  intros Hnd -> Hf Hm. apply clear_pos_app; [|done]. apply clear_pos_block. intros q Hq. apply Hf.
  intros ->. apply NoDup_app in Hnd as (_ & _ & Hnd). by apply NoDup_cons in Hnd as [? _].
Qed.
Lemma tail_clear_layer (f : Z → list action) l l1 L l2 m :
  NoDup l → l = l1 ++ L :: l2 → (∀ M, M ≠ L → clear_layer L (f M)) → clear_layer L m →
  clear_layer L (flat_map f l2 ++ m).
Proof.
  intros Hnd -> Hf Hm. apply clear_layer_app; [|done]. apply clear_layer_block. intros q Hq. apply Hf.
  intros ->. apply NoDup_app in Hnd as (_ & _ & Hnd). by apply NoDup_cons in Hnd as [? _].
Qed.

Ltac clear_little := intros; split; cbn; rewrite ?not_elem_of_cons;
  repeat split; try apply not_elem_of_nil; congruence.

Lemma ok_full_load l m : NoDup l → main_ok m → (∀ p, p ∈ l → clear_pos p m) →
  main_ok (flat_map full_load l ++ m).
Proof.
  intros Hnd Hm Hc. apply block_main_ok; [done|done|]. intros p l1 l2 Hl Hr.
  assert (Ht : clear_pos p (flat_map full_load l2 ++ m)).
  { eapply tail_clear_pos; [exact Hnd|exact Hl|clear_little|]. apply Hc. rewrite Hl. set_solver. }
  cbn. split; [done|]. split; [|split; [|exact Hr]].
  - split; [done|]. split; [apply Ht|done].
  - split; [done|]. by apply clear_read.
Qed.
Lemma ok_full_decomp l m : NoDup l → main_ok m → (∀ p, p ∈ l → clear_pos p m) →
  main_ok (flat_map full_decomp l ++ m).
Proof.
  intros Hnd Hm Hc. apply block_main_ok; [done|done|]. intros p l1 l2 Hl Hr.
  assert (Ht : clear_pos p (flat_map full_decomp l2 ++ m)).
  { eapply tail_clear_pos; [exact Hnd|exact Hl|clear_little|]. apply Hc. rewrite Hl. set_solver. }
  cbn. split; [done|]. split; [|split; [|exact Hr]].
  - split; [done|]. split; [apply Ht|done].
  - split; [done|]. by apply clear_decomp.
Qed.
Lemma ok_alloc l m : NoDup l → main_ok m → (∀ p, p ∈ l → clear_pos p m) →
  main_ok (flat_map alloc_acts l ++ m).
Proof.
  intros Hnd Hm Hc. apply block_main_ok; [done|done|]. intros p l1 l2 Hl Hr.
  assert (Ht : clear_pos p (flat_map alloc_acts l2 ++ m)).
  { eapply tail_clear_pos; [exact Hnd|exact Hl|clear_little|]. apply Hc. rewrite Hl. set_solver. }
  cbn. split; [done|]. split; [|exact Hr]. split; [done|]. split; [apply Ht|done].
Qed.
Lemma ok_w_full l m : NoDup l → main_ok m → (∀ L, L ∈ l → clear_layer L m) →
  main_ok (flat_map w_full l ++ m).
Proof.
  intros Hnd Hm Hc. apply block_main_ok; [done|done|]. intros L l1 l2 Hl Hr.
  assert (Ht : clear_layer L (flat_map w_full l2 ++ m)).
  { eapply tail_clear_layer; [exact Hnd|exact Hl|clear_little|]. apply Hc. rewrite Hl. set_solver. }
  cbn. split; [done|]. split; [|split; [|exact Hr]].
  - split; [done|]. split; [apply Ht|done].
  - split; [done|]. by apply clear_weight.
Qed.
Lemma ok_w_alloc l m : NoDup l → main_ok m → (∀ L, L ∈ l → clear_layer L m) →
  main_ok (flat_map w_alloc l ++ m).
Proof.
  intros Hnd Hm Hc. apply block_main_ok; [done|done|]. intros L l1 l2 Hl Hr.
  assert (Ht : clear_layer L (flat_map w_alloc l2 ++ m)).
  { eapply tail_clear_layer; [exact Hnd|exact Hl|clear_little|]. apply Hc. rewrite Hl. set_solver. }
  cbn. split; [done|]. split; [|exact Hr]. split; [done|]. split; [apply Ht|done].
Qed.

(** Blocks that only enqueue work or only wait. *)
Lemma ok_decomp l m : main_ok m → (∀ p, p ∈ l → clear_pos p m) → main_ok (flat_map decomp_acts l ++ m).
Proof.
  intros Hm. induction l as [|p l IH]; intros Hc; [done|]. cbn [flat_map]. split; [split; [done|]|].
  - apply clear_decomp. apply clear_pos_app; [apply clear_pos_block; clear_little|].
    apply Hc, elem_of_cons. by left.
  - apply IH. intros q Hq. apply Hc, elem_of_cons. by right.
Qed.
Lemma ok_read l m : main_ok m → (∀ p, p ∈ l → clear_pos p m) → main_ok (flat_map read_acts l ++ m).
Proof.
  intros Hm. induction l as [|p l IH]; intros Hc; [done|]. cbn [flat_map]. split; [split; [done|]|].
  - apply clear_read. apply clear_pos_app; [apply clear_pos_block; clear_little|].
    apply Hc, elem_of_cons. by left.
  - apply IH. intros q Hq. apply Hc, elem_of_cons. by right.
Qed.
Definition w_read (L : Z) : list action := [Enqueue READ (weight_read L)].
Lemma ok_w_read l m : main_ok m → (∀ L, L ∈ l → clear_layer L m) → main_ok (flat_map w_read l ++ m).
Proof.
  intros Hm. induction l as [|p l IH]; intros Hc; [done|]. cbn [flat_map]. split; [split; [done|]|].
  - apply clear_weight. apply clear_layer_app; [apply clear_layer_block; clear_little|].
    apply Hc, elem_of_cons. by left.
  - apply IH. intros q Hq. apply Hc, elem_of_cons. by right.
Qed.

Definition wait1 (p : pos) : list action := [WaitAlloc p].
Definition w_wait1 (L : Z) : list action := [WaitAllocW L].
Lemma ok_wait l m : main_ok m →
  (∀ p, p ∈ l → clear_pos p m ∧ (kv_read p ∈ main_tasks m ∨ kv_decomp p ∈ main_tasks m)) →
  main_ok (flat_map wait1 l ++ m).
Proof.
  intros Hm. induction l as [|p l IH]; intros Hc; [done|]. cbn [flat_map].
  destruct (Hc p ltac:(apply elem_of_cons; by left)) as [Hp Hin]. split; [split|].
  - apply clear_read, clear_pos_app; [apply clear_pos_block; clear_little|done].
  - rewrite main_tasks_app, !elem_of_app. tauto.
  - apply IH. intros q Hq. apply Hc, elem_of_cons. by right.
Qed.
Lemma ok_w_wait l m : main_ok m → (∀ L, L ∈ l → clear_layer L m ∧ weight_read L ∈ main_tasks m) →
  main_ok (flat_map w_wait1 l ++ m).
Proof.
  intros Hm. induction l as [|p l IH]; intros Hc; [done|]. cbn [flat_map].
  destruct (Hc p ltac:(apply elem_of_cons; by left)) as [Hp Hin]. split; [split|].
  - apply clear_weight, clear_layer_app; [apply clear_layer_block; clear_little|done].
  - rewrite main_tasks_app, elem_of_app. by right.
  - apply IH. intros q Hq. apply Hc, elem_of_cons. by right.
Qed.

(** ** The action lists of the variants *)

Definition restore_tasks (loads decs : list pos) (ls : list Z) : list task :=
  (kv_alloc <$> loads) ++ (kv_read <$> loads) ++ (kv_alloc <$> decs) ++ (kv_decomp <$> decs)
  ++ (weight_alloc <$> ls) ++ (weight_read <$> ls).

Record start_acts (loads decs : list pos) (ls : list Z) (acts : list action) : Prop := StartActs {
  sa_tasks : main_tasks acts ≡ₚ restore_tasks loads decs ls;
  sa_regs : ∀ p, p ∈ main_regs acts ↔ p ∈ loads ∨ p ∈ decs;
  sa_wregs : ∀ L, L ∈ main_wregs acts ↔ L ∈ ls;
  sa_ok : main_ok acts }.

(** What may follow: actions without tasks or registrations. *)
Record quiet (m : list action) : Prop := Quiet {
  qu_tasks : main_tasks m = []; qu_regs : main_regs m = []; qu_wregs : main_wregs m = [];
  qu_ok : main_ok m }.

Lemma quiet_clear_pos m p : quiet m → clear_pos p m.
Proof. intros [H1 H2 H3 _]. split; rewrite ?H1, ?H2; apply not_elem_of_nil. Qed.
Lemma quiet_clear_layer m L : quiet m → clear_layer L m.
Proof. intros [H1 H2 H3 _]. split; rewrite ?H1, ?H3; apply not_elem_of_nil. Qed.

Lemma fmap_pair_perm {A} (f g : A → task) l : flat_map (λ x, [f x; g x]) l ≡ₚ (f <$> l) ++ (g <$> l).
Proof.
  induction l as [|x l IH]; [done|]. cbn [flat_map app fmap list_fmap]. rewrite IH.
  by rewrite <- Permutation_middle.
Qed.

Section variants.
Context (loads decs : list pos) (ls : list Z) (m : list action).
Hypothesis Hloads : NoDup loads.
Hypothesis Hdecs : NoDup decs.
Hypothesis Hls : NoDup ls.
Hypothesis Hdisj : ∀ p, p ∈ loads → p ∈ decs → False.
Hypothesis Hquiet : quiet m.

Lemma start_overlapped :
  start_acts loads decs ls ((flat_map full_load loads ++ flat_map full_decomp decs) ++ flat_map w_full ls ++ m).
Proof.
  rewrite <- app_assoc. split.
  - rewrite !main_tasks_app, (qu_tasks _ Hquiet), app_nil_r.
    rewrite (block_tasks full_load (λ p, [kv_alloc p; kv_read p])) by done.
    rewrite (block_tasks full_decomp (λ p, [kv_alloc p; kv_decomp p])) by done.
    rewrite (block_tasks w_full (λ L, [weight_alloc L; weight_read L])) by done.
    rewrite !fmap_pair_perm. unfold restore_tasks. by rewrite <- !app_assoc.
  - intros p. rewrite !main_regs_app, (qu_regs _ Hquiet), app_nil_r.
    rewrite (block_regs full_load (λ p, [p])), (block_regs full_decomp (λ p, [p])),
      (block_regs w_full (λ L, [])) by done.
    rewrite !flat_map_self, flat_map_nil, app_nil_r. apply elem_of_app.
  - intros L. rewrite !main_wregs_app, (qu_wregs _ Hquiet), app_nil_r.
    rewrite (block_wregs full_load (λ p, [])), (block_wregs full_decomp (λ p, [])),
      (block_wregs w_full (λ L, [L])) by done.
    by rewrite !flat_map_self, !flat_map_nil.
  - assert (Hc : ∀ p, clear_pos p (flat_map w_full ls ++ m)).
    { intros p. apply clear_pos_app; [apply clear_pos_block; clear_little|by apply quiet_clear_pos]. }
    apply ok_full_load; [done| |].
    + apply ok_full_decomp; [done| |by intros; apply Hc].
      apply ok_w_full; [done|apply Hquiet|]. intros. by apply quiet_clear_layer.
    + intros p Hp. apply clear_pos_app; [|apply Hc]. apply clear_pos_block. intros q Hq.
      assert (q ≠ p) by (intros ->; by apply (Hdisj p)). clear_little.
Qed.

Lemma start_alloc_first :
  start_acts loads decs ls
    ((flat_map w_alloc ls ++ (WaitAllocW <$> ls))
     ++ (flat_map alloc_acts decs ++ flat_map alloc_acts loads
         ++ (WaitAlloc <$> decs) ++ (WaitAlloc <$> loads))
     ++ (WaitAllocW <$> ls)
     ++ ((WaitAlloc <$> decs) ++ (WaitAlloc <$> loads))
     ++ (flat_map decomp_acts decs ++ flat_map read_acts loads)
     ++ ((Enqueue READ ∘ weight_read <$> ls) ++ [WaitIdle READ]) ++ m).
Proof.
  rewrite !(map_block WaitAllocW), !(map_block WaitAlloc), (map_block (Enqueue READ ∘ weight_read)).
  rewrite <- !app_assoc. fold wait1. fold w_wait1. change (λ x : Z, [(Enqueue READ ∘ weight_read) x]) with w_read.
  set (m' := [WaitIdle READ] ++ m).
  assert (Hq : quiet m').
  { destruct Hquiet as [H1 H2 H3 H4]. split; [done|done|done|]. split; [by left|done]. }
  split.
  - rewrite !main_tasks_app, (qu_tasks _ Hq), app_nil_r.
    rewrite (block_tasks w_alloc (λ L, [weight_alloc L])) by done.
    rewrite !(block_tasks w_wait1 (λ L, [])), !(block_tasks wait1 (λ L, [])) by done.
    rewrite !(block_tasks alloc_acts (λ p, [kv_alloc p])) by done.
    rewrite (block_tasks decomp_acts (λ p, [kv_decomp p])) by done.
    rewrite (block_tasks read_acts (λ p, [kv_read p])) by done.
    rewrite (block_tasks w_read (λ L, [weight_read L])) by done.
    rewrite !flat_map_nil. cbn [app].
    assert (Hf : ∀ A (f : A → task) l, flat_map (λ x, [f x]) l = f <$> l).
    { intros A f l. induction l as [|x l IH]; [done|]. cbn. by rewrite IH. }
    rewrite !Hf. unfold restore_tasks. solve_Permutation.
  - intros p. rewrite !main_regs_app, (qu_regs _ Hq), app_nil_r.
    rewrite (block_regs w_alloc (λ L, [])), !(block_regs w_wait1 (λ L, [])), !(block_regs wait1 (λ L, [])),
      !(block_regs alloc_acts (λ p, [p])), (block_regs decomp_acts (λ p, [])),
      (block_regs read_acts (λ p, [])), (block_regs w_read (λ p, [])) by done.
    rewrite !flat_map_self, !flat_map_nil, !app_nil_r. cbn [app]. rewrite elem_of_app. tauto.
  - intros L. rewrite !main_wregs_app, (qu_wregs _ Hq), app_nil_r.
    rewrite (block_wregs w_alloc (λ L, [L])), !(block_wregs w_wait1 (λ L, [])), !(block_wregs wait1 (λ L, [])),
      !(block_wregs alloc_acts (λ p, [])), (block_wregs decomp_acts (λ p, [])),
      (block_wregs read_acts (λ p, [])), (block_wregs w_read (λ p, [])) by done.
    by rewrite !flat_map_self, !flat_map_nil, !app_nil_r.
  - assert (Hw : main_ok (flat_map w_read ls ++ m')).
    { apply ok_w_read; [apply Hq|]. intros. by apply quiet_clear_layer. }
    assert (Hcp : ∀ p, clear_pos p (flat_map w_read ls ++ m')).
    { intros p. apply clear_pos_app; [apply clear_pos_block; clear_little|by apply quiet_clear_pos]. }
    assert (Hcl : ∀ L, clear_layer L (flat_map w_read ls ++ m')).
    { intros p. apply clear_layer_app; [apply clear_layer_block; clear_little|by apply quiet_clear_layer]. }
    set (m1 := flat_map decomp_acts decs ++ flat_map read_acts loads ++ flat_map w_read ls ++ m').
    assert (H1 : main_ok m1).
    { apply ok_decomp; [apply ok_read; auto|]. intros p _. apply clear_pos_app; [apply clear_pos_block; clear_little|auto]. }
    assert (Hcp1 : ∀ p, clear_pos p m1).
    { intros p. do 2 (apply clear_pos_app; [apply clear_pos_block; clear_little|]). auto. }
    assert (Hcl1 : ∀ L, clear_layer L m1).
    { intros p. do 2 (apply clear_layer_app; [apply clear_layer_block; clear_little|]). auto. }
    assert (Hin : (∀ p, p ∈ decs → kv_decomp p ∈ main_tasks m1) ∧ (∀ p, p ∈ loads → kv_read p ∈ main_tasks m1)
                  ∧ (∀ L, L ∈ ls → weight_read L ∈ main_tasks m1)).
    { unfold m1. rewrite !main_tasks_app.
      rewrite (block_tasks decomp_acts (λ p, [kv_decomp p])), (block_tasks read_acts (λ p, [kv_read p])),
        (block_tasks w_read (λ L, [weight_read L])) by done.
      split; [|split]; intros x Hx; rewrite !elem_of_app, !elem_of_flat_map; [left|right; left|right; right; left];
        exists x; (split; [done|apply elem_of_cons; by left]). }
    destruct Hin as (Hd & Hl & Hwr).
    set (W := flat_map wait1 decs ++ flat_map wait1 loads).
    assert (HWt : ∀ k, main_tasks (W ++ k) = main_tasks k).
    { intros k. unfold W. rewrite !main_tasks_app, !(block_tasks wait1 (λ p, [])) by done. by rewrite !flat_map_nil. }
    assert (HWp : ∀ p, clear_pos p W).
    { intros p. apply clear_pos_app; apply clear_pos_block; clear_little. }
    assert (HWl : ∀ p, clear_layer p W).
    { intros p. apply clear_layer_app; apply clear_layer_block; clear_little. }
    assert (HVp : ∀ p, clear_pos p (flat_map w_wait1 ls)) by (intros; apply clear_pos_block; clear_little).
    assert (HVl : ∀ p, clear_layer p (flat_map w_wait1 ls)) by (intros; apply clear_layer_block; clear_little).
    assert (HVt : ∀ k, main_tasks (flat_map w_wait1 ls ++ k) = main_tasks k).
    { intros k. rewrite main_tasks_app, (block_tasks w_wait1 (λ p, [])) by done. by rewrite flat_map_nil. }
    assert (HW : ∀ k, main_ok k → (∀ p, clear_pos p k) → (∀ p, p ∈ decs → kv_decomp p ∈ main_tasks k) →
      (∀ p, p ∈ loads → kv_read p ∈ main_tasks k) → main_ok (W ++ k)).
    { intros k Hk Hkc Hkd Hkl. unfold W. rewrite <- app_assoc. apply ok_wait; [apply ok_wait; [done|]|].
      - intros p Hp. split; [apply Hkc|]. left. by apply Hkl.
      - intros p Hp. split; [apply clear_pos_app; [apply clear_pos_block; clear_little|apply Hkc]|].
        right. rewrite main_tasks_app, elem_of_app. right. by apply Hkd. }
    set (m2 := flat_map w_wait1 ls ++ W ++ m1).
    assert (H2 : main_ok m2).
    { apply ok_w_wait; [by apply HW|]. intros L HL. split; [by apply clear_layer_app|]. rewrite HWt. by apply Hwr. }
    assert (Hcp2 : ∀ p, clear_pos p m2) by (intros; apply clear_pos_app; [|apply clear_pos_app]; auto).
    assert (Hcl2 : ∀ p, clear_layer p m2) by (intros; apply clear_layer_app; [|apply clear_layer_app]; auto).
    assert (Ht2 : main_tasks m2 = main_tasks m1) by (unfold m2; by rewrite HVt, HWt).
    set (m3 := W ++ m2).
    assert (H3 : main_ok m3) by (apply HW; auto; rewrite Ht2; auto).
    assert (Hcp3 : ∀ p, clear_pos p m3) by (intros; apply clear_pos_app; auto).
    assert (Hcl3 : ∀ p, clear_layer p m3) by (intros; apply clear_layer_app; auto).
    set (m4 := flat_map alloc_acts decs ++ flat_map alloc_acts loads ++ m3).
    assert (H4 : main_ok m4).
    { apply ok_alloc; [done|apply ok_alloc; auto|]. intros p Hp. apply clear_pos_app; [|apply Hcp3].
      apply clear_pos_block. intros q Hql. assert (q ≠ p) by (intros ->; by apply (Hdisj p)). clear_little. }
    assert (Hcl4 : ∀ p, clear_layer p m4).
    { intros p. do 2 (apply clear_layer_app; [apply clear_layer_block; clear_little|]). auto. }
    assert (Ht4 : ∀ x, x ∈ main_tasks m1 → x ∈ main_tasks m4).
    { intros x Hx. unfold m4, m3. rewrite !main_tasks_app, !elem_of_app. right. right.
      right. rewrite Ht2. done. }
    assert (H5 : main_ok (flat_map w_wait1 ls ++ m4)) by (apply ok_w_wait; auto).
    unfold m4, m3, m2, m1, W in H5. rewrite <- !app_assoc in H5.
    match goal with |- main_ok (_ ++ ?k) => assert (Hk : main_ok k) by exact H5 end.
    apply ok_w_alloc; [done|exact Hk|]. intros L _.
    assert (Hcl5 : clear_layer L (flat_map w_wait1 ls ++ m4)) by (apply clear_layer_app; auto).
    unfold m4, m3, m2, m1, W in Hcl5. rewrite <- !app_assoc in Hcl5. exact Hcl5.
Qed.
End variants.

(** ** The tasks of a start *)

Lemma count_fmap {A} (f : task → bool) (g : A → task) l :
  count f (g <$> l) = Z.of_nat (length (List.filter (λ x, f (g x)) l)).
Proof.
  induction l as [|x l IH]; [done|]. cbn [fmap list_fmap]. rewrite count_cons, IH. cbn [List.filter].
  destruct (f (g x)); cbn [length]; lia.
Qed.

Lemma filter_false {A} (l : list A) : List.filter (λ _, false) l = [].
Proof. by induction l. Qed.

Lemma count_restore_decomp loads decs ls L :
  count (decomp_of L) (restore_tasks loads decs ls) = on_layer L decs.
Proof.
  unfold restore_tasks. rewrite !count_app, !count_fmap. cbn [decomp_of]. rewrite !filter_false.
  unfold on_layer. cbn [length]. lia.
Qed.

Lemma count_layer L ls : NoDup ls →
  Z.of_nat (length (List.filter (λ M, M =? L) ls)) = if decide (L ∈ ls) then 1 else 0.
Proof.
  induction 1 as [|M ls HM Hnd IH]; [done|]. cbn [List.filter]. destruct (Z.eqb_spec M L) as [->|Hne].
  - cbn [length]. rewrite decide_True by (apply elem_of_cons; by left).
    rewrite decide_False in IH by done. lia.
  - rewrite IH. destruct (decide (L ∈ ls)) as [Hin|Hin].
    + by rewrite decide_True by (apply elem_of_cons; by right).
    + rewrite decide_False; [done|]. by intros [->|?]%elem_of_cons.
Qed.

Lemma count_restore_sync loads decs ls L : NoDup ls →
  count (sync_of L) (restore_tasks loads decs ls)
  = on_layer L loads + on_layer L decs + (if decide (L ∈ ls) then 1 else 0).
Proof.
  intros Hnd. unfold restore_tasks. rewrite !count_app, !count_fmap. cbn [sync_of].
  rewrite !filter_false, (count_layer L ls Hnd). unfold on_layer. cbn [length]. lia.
Qed.

Lemma elem_restore_read loads decs ls p : kv_read p ∈ restore_tasks loads decs ls ↔ p ∈ loads.
Proof.
  unfold restore_tasks. rewrite !elem_of_app, !list_elem_of_fmap. split; [|by eauto 10].
  intros [(?&?&?)|[(?&?&?)|[(?&?&?)|[(?&?&?)|[(?&?&?)|(?&?&?)]]]]]; simplify_eq; done.
Qed.
Lemma elem_restore_decomp loads decs ls p : kv_decomp p ∈ restore_tasks loads decs ls ↔ p ∈ decs.
Proof.
  unfold restore_tasks. rewrite !elem_of_app, !list_elem_of_fmap. split; [|by eauto 12].
  intros [(?&?&?)|[(?&?&?)|[(?&?&?)|[(?&?&?)|[(?&?&?)|(?&?&?)]]]]]; simplify_eq; done.
Qed.
Lemma elem_restore_alloc loads decs ls p :
  kv_alloc p ∈ restore_tasks loads decs ls ↔ p ∈ loads ∨ p ∈ decs.
Proof.
  unfold restore_tasks. rewrite !elem_of_app, !list_elem_of_fmap. split; [|intros [?|?]; by eauto 10].
  intros [(?&?&?)|[(?&?&?)|[(?&?&?)|[(?&?&?)|[(?&?&?)|(?&?&?)]]]]]; simplify_eq; tauto.
Qed.
Lemma elem_restore_walloc loads decs ls L : weight_alloc L ∈ restore_tasks loads decs ls ↔ L ∈ ls.
Proof.
  unfold restore_tasks. rewrite !elem_of_app, !list_elem_of_fmap. split; [|by eauto 12].
  intros [(?&?&?)|[(?&?&?)|[(?&?&?)|[(?&?&?)|[(?&?&?)|(?&?&?)]]]]]; simplify_eq; done.
Qed.
Lemma elem_restore_wread loads decs ls L : weight_read L ∈ restore_tasks loads decs ls ↔ L ∈ ls.
Proof.
  unfold restore_tasks. rewrite !elem_of_app, !list_elem_of_fmap. split; [|by eauto 12].
  intros [(?&?&?)|[(?&?&?)|[(?&?&?)|[(?&?&?)|[(?&?&?)|(?&?&?)]]]]]; simplify_eq; done.
Qed.
Lemma elem_restore_free loads decs ls L : free_arenas L ∉ restore_tasks loads decs ls.
Proof.
  unfold restore_tasks. rewrite !elem_of_app, !list_elem_of_fmap.
  intros [(?&?&?)|[(?&?&?)|[(?&?&?)|[(?&?&?)|[(?&?&?)|(?&?&?)]]]]]; simplify_eq; done.
Qed.

Lemma NoDup_restore loads decs ls : NoDup loads → NoDup decs → NoDup ls →
  (∀ p, p ∈ loads → p ∈ decs → False) → NoDup (restore_tasks loads decs ls).
Proof.
  intros H1 H2 H3 Hd. unfold restore_tasks.
  assert (Hin : ∀ A (f : A → task) l, Inj eq eq f → NoDup l → NoDup (f <$> l)) by (intros; by apply NoDup_fmap_2).
  rewrite !NoDup_app. repeat split; try (apply Hin; [intros ?? [=]; done|done]);
    intros x (y & -> & Hy)%list_elem_of_fmap; rewrite ?elem_of_app, !list_elem_of_fmap;
    intros Hx; repeat destruct Hx as [Hx|Hx]; destruct Hx as (z & [=] & Hz); subst; by eapply Hd.
Qed.

(** ** The state that is swapped in *)
Section start.
Context `{Cd : Codec} `{Ev : Env} {CL : CodecLaws Cd} `{Sw : SwapEnv} `{Re : ReloadEnv}.

(** What a swap-out leaves behind. *)
Record swapped_out (s : kv_state) : Prop := SwappedOut {
  so_ladder : ladder_ok s;
  so_mem : mem_ok s;
  so_tidy : tidy s;
  so_closed : ∀ i, s.(dsk).(layer_fds) i = FdClosed }.

Lemma so_layers s : swapped_out s → 0 < s.(num_layers).
Proof. intros H. apply (lo_L _ (so_ladder _ H)). Qed.

Lemma NoDup_sorted l : StronglySorted lex l → NoDup l.
Proof.
  induction 1 as [|p l Hl IH Hp]; constructor; [|done].
  intros Hin. rewrite Forall_forall in Hp. destruct (Hp p Hin); lia.
Qed.

Lemma loads_decs_disjoint s p : swapped_out s → p ∈ to_load s → p ∈ to_decompress s → False.
Proof.
  intros [Hl _ Ht _] H1 H2. apply (elem_of_to_load s p Hl Ht) in H1 as [_ H1].
  apply (elem_of_to_decompress s p Hl Ht) in H2 as [_ H2]. congruence.
Qed.

(** The chunks of the state the workers start from. *)
Lemma start_chunk_inv s c d cl ls : swapped_out s → fetched s c d →
  (∀ L, 0 <= L < s.(num_layers) → cl L = compress_init s L) →
  let s3 := set_dsk (set_cur (set_comp_left s cl) c) d in
  chunk_inv s3 s3 (restore_tasks (to_load s) (to_decompress s) ls) ∧
  ∀ p, in_range s p → view s3 p = view s p.
Proof.
  intros [Hl Hm Ht Hcl] Hf Hcl0 s3. pose proof (elem_of_to_load s) as Hel.
  assert (HL : ∀ p, p ∈ to_load s ↔ in_range s p ∧ s.(tab).(states) p = Stored) by (intros; by apply Hel).
  assert (HD : ∀ p, p ∈ to_decompress s ↔ in_range s p ∧ s.(tab).(states) p = Compressed)
    by (intros; by apply elem_of_to_decompress).
  assert (Hraw : ∀ p, in_range s p → kv_alloc p ∉ restore_tasks (to_load s) (to_decompress s) ls →
            s.(tab).(states) p = Raw).
  { intros p Hp. rewrite elem_restore_alloc, HL, HD. destruct (states (tab s) p); tauto. }
  assert (Hrawc : ∀ p, in_range s p → s.(tab).(states) p = Raw →
    s.(mem).(svm_k) p = s.(tab).(k_raw) p ∧ s.(mem).(svm_v) p = s.(tab).(v_raw) p ∧
    resident s.(mem).(heap) (raw_chunk_bytes s) (s.(tab).(k_raw) p) (s.(tab).(v_raw) p)).
  { intros p Hp Hr. pose proof (mo_chunks _ Hm p Hp) as Hc. unfold chunk_ok in Hc. by rewrite Hr in Hc. }
  assert (Hview : ∀ p, in_range s p → view s3 p = view s p).
  { intros p Hp. unfold view, s3. cbn -[load]. by rewrite (fe_file _ _ _ Hf). }
  split; [|done]. split; unfold s3; cbn -[load].
  - done.
  - apply Hm.
  - intros p. by rewrite elem_restore_read, HL.
  - intros p. by rewrite elem_restore_decomp, HD.
  - intros p. rewrite elem_restore_alloc, HL, HD. intros [[? E]|[? E]]; (split; [done|by rewrite E]).
  - intros p Hp. split; [|done]. pose proof (mo_chunks _ Hm p Hp) as Hc. unfold chunk_ok in Hc. unfold data_ok. cbn.
    destruct (states (tab s) p) eqn:Est; [done| |].
    + destruct Hc as (_ & _ & a & Ha & H1 & H2). exists a. split; [done|]. split; [|done].
      pose proof (mo_arenas _ Hm p.1) as Hal. rewrite Forall_forall in Hal. apply Hal. by eapply list_elem_of_lookup_2.
    + destruct Hc as (_ & _ & f & Hfl & Ho & Hov & Hlen). exists f. rewrite (fe_file _ _ _ Hf).
      split; [done|]. rewrite Ho. split; [|by split].
      assert (chunk_bound (pln s) p.1 <= p.2).
      { rewrite (lo_states _ Hl p Hp) in Est. destruct p as [L C]. cbn in *.
        destruct (Z.ltb_spec C (chunk_bound (pln s) L)); [|done].
        by destruct (_ || _) in Est. }
      pose proof (mo_dim _ Hm). rewrite raw_chunk_bytes_512. nia.
  - intros p Hp Ha. destruct (Hrawc p Hp (Hraw p Hp Ha)) as (Hk & Hv & Hr). by rewrite Hk, Hv.
  - intros p q b Hp Hq Hne Ha Hb. pose proof (Hraw p Hp Ha) as H1. pose proof (Hraw q Hq Hb) as H2.
    destruct (Hrawc p Hp H1) as (-> & -> & _). destruct (Hrawc q Hq H2) as (-> & -> & _).
    by apply (mo_sep _ Hm p q b).
  - apply Hm.
  - intros p. rewrite elem_restore_read. apply (fe_fds _ _ _ Hf).
  - intros L HL'. rewrite (Hcl0 L HL'), count_restore_decomp. symmetry. by apply on_layer_decompress.
  - intros L HL'. by apply elem_restore_free in HL'.
  - apply Hm.
Qed.

(** The numbers of chunks counted layer by layer. *)
Lemma sum_on_layer l n : (∀ p, p ∈ l → 0 <= p.1 < Z.of_nat n) →
  sum_to (λ j, on_layer j l) n = Z.of_nat (length l).
Proof.
  induction l as [|p l IH]; intros Hl.
  - rewrite (sum_to_ext _ (λ _, 0)) by done. by rewrite sum_to_const.
  - cbn [length]. rewrite Nat2Z.inj_succ, <- IH by (intros q Hq; apply Hl, elem_of_cons; by right).
    assert (Hp : 0 <= p.1 < Z.of_nat n) by (apply Hl, elem_of_cons; by left).
    rewrite (sum_to_ext _ (λ j, (if j =? p.1 then 1 else 0) + on_layer j l)).
    + rewrite sum_to_plus, sum_to_single by done. lia.
    + intros j Hj. unfold on_layer. cbn [List.filter]. rewrite (Z.eqb_sym j).
      destruct (p.1 =? j); cbn [length]; lia.
Qed.

Lemma swapped_counts s : swapped_out s →
  sum_to (λ j, compress_init s (0 + j)) (Z.to_nat s.(num_layers)) = s.(cnt).(n_cur_comp_chunks) ∧
  sum_to (λ j, store_init s (0 + j)) (Z.to_nat s.(num_layers)) = s.(cnt).(n_cur_store_chunks).
Proof.
  intros [Hl Hm Ht Hcl]. pose proof (lo_L _ Hl) as HL.
  rewrite <- (length_to_decompress s Hl Ht), <- (length_to_load s Hl Ht).
  rewrite <- (sum_on_layer (to_decompress s) (Z.to_nat (num_layers s))).
  2: { intros p Hp. apply (elem_of_to_decompress s p Hl Ht) in Hp as [[Hp _] _]. lia. }
  rewrite <- (sum_on_layer (to_load s) (Z.to_nat (num_layers s))).
  2: { intros p Hp. apply (elem_of_to_load s p Hl Ht) in Hp as [[Hp _] _]. lia. }
  split; apply sum_to_ext; intros j Hj; rewrite Z.add_0_l; symmetry;
    [apply on_layer_decompress|apply on_layer_load]; (done || lia).
Qed.

(** [initialize_layer_sync]: the counters are the numbers of tasks the swap-in
    will enqueue for each layer. *)
Lemma start_sync s wt w : swapped_out s → w.(kv) = s → wt.(w_num_layers) = s.(num_layers) →
  weight_ok wt →
  ∃ cl sy, initialize_layer_sync wt w
    = (World (set_comp_left s cl) (λ _, Unregistered) (λ _, Unregistered) w.(weight_loaded) sy w.(crashed),
       s.(cnt).(n_cur_comp_chunks), s.(cnt).(n_cur_store_chunks)) ∧
    (∀ L, 0 <= L < s.(num_layers) → cl L = compress_init s L) ∧
    ∀ L, 0 <= L < s.(num_layers) →
      let n := count (sync_of L) (restore_tasks (to_load s) (to_decompress s) (unloaded_layers wt)) in
      sy L = Sync n (n =? 0).
Proof.
  intros Hso <- Hw [_ Hwc]. unfold initialize_layer_sync. set (s := kv w) in *.
  pose proof (sync_loop_spec (Z.to_nat (num_layers s)) 0 s (cur_layer_idx_to_unload wt) (comp_left s)
                (layer_sync w) 0 0) as H.
  destruct (sync_loop _ _ _ _ _ _ _ _) as [[[cl sy] d] l]. destruct H as (H1 & _ & -> & ->).
  destruct (swapped_counts s Hso) as [-> ->]. rewrite !Z.add_0_l. pose proof (so_layers s Hso).
  exists cl, sy. split; [done|]. split; [intros L HL; apply H1; lia|]. intros L HL. cbv zeta.
  set (n := count (sync_of L) _).
  destruct (H1 L ltac:(lia)) as [_ ->]. unfold new_sync.
  assert (Hn : compress_init s L + store_init s L + (if L >? cur_layer_idx_to_unload wt then 1 else 0) = n).
  { unfold n. rewrite count_restore_sync by (apply NoDup_seqZ). destruct Hso as [Hl Hm Ht Hcl].
    rewrite on_layer_load, on_layer_decompress by done.
    destruct (decide (L ∈ unloaded_layers wt)) as [Hin|Hin]; rewrite elem_of_unloaded in Hin;
      rewrite Z.gtb_ltb; destruct (Z.ltb_spec (cur_layer_idx_to_unload wt) L); lia. }
  by rewrite Hn.
Qed.

(** The world and the pool of a swap-in about to start. *)
Lemma start_world_inv s c d cl sy wt (w : world) acts (p : task_pool) : swapped_out s → fetched s c d →
  weight_ok wt → wt.(w_num_layers) = s.(num_layers) →
  (∀ L, 0 <= L < s.(num_layers) → cl L = compress_init s L) →
  (∀ L, 0 <= L < s.(num_layers) →
    let n := count (sync_of L) (restore_tasks (to_load s) (to_decompress s) (unloaded_layers wt)) in
    sy L = Sync n (n =? 0)) →
  (∀ L, 0 <= L < s.(num_layers) → L ∉ unloaded_layers wt → w.(weight_loaded) L = true) →
  w.(crashed) = false → pool_good p → pool_tasks p = [] →
  start_acts (to_load s) (to_decompress s) (unloaded_layers wt) acts →
  let s3 := set_dsk (set_cur (set_comp_left s cl) c) d in
  let w3 := World s3 (λ _, Unregistered) (λ _, Unregistered) w.(weight_loaded) sy w.(crashed) in
  sys_inv s3 (Sys acts w3 p).
Proof.
  intros Hso Hf [_ Hwc] Hwn Hcl Hsy Hld Hcr Hpg Hpt [Ht Hr Hwr Hok] s3 w3.
  destruct (start_chunk_inv s c d cl (unloaded_layers wt) Hso Hf Hcl) as [Hch _].
  split; cbn [s_main s_world s_pool]; [|done|by intros x; rewrite Hpt; intros Hx%elem_of_nil|done].
  rewrite Hpt, app_nil_r. apply (world_inv_perm _ _ _ _ _ _ (symmetry Ht)).
  split; [done| |exact Hch| | |].
  - apply NoDup_restore; [apply NoDup_sorted, to_load_sorted|apply NoDup_sorted, to_decompress_sorted
      |apply NoDup_seqZ|]. intros q. by apply loads_decs_disjoint.
  - split; cbn; intros q; rewrite ?elem_restore_alloc, ?elem_restore_read, ?elem_restore_decomp, ?Hr;
      (done || tauto).
  - exact Hsy.
  - split; cbn; intros L; rewrite ?elem_restore_walloc, ?elem_restore_wread, ?Hwr; try (done || tauto).
    + rewrite elem_of_unloaded. lia.
    + intros HL HnL. by apply Hld.
Qed.

End start.
