(* ===== verification/KvCycle.v ===== *)
(** A whole swap-in: for each of the four variants, under any scheduling of the
    main thread and the workers, nothing crashes, the run ends, a layer whose
    counter is complete is back in memory with its content, and
    [finish_swapin_cycle] leaves a state from which the next swap-out starts. *)
From Stdlib Require Import Sorting.Sorted.
From S2P Require Import Prelude Floats Profile ThreadPool KvTypes KvPlan KvLadder KvInv KvFrame.
From S2P Require Import KvSwapOut KvSwapOutThms KvSwapIn Weight KvWorkers KvRestore KvRestoreW.
From S2P Require Import KvSystem KvSystemInv KvProgress KvOffload KvOffloadThms KvCore KvStart.

(** The environment answers every request: memory, files and weight dumps. *)
Record env_good `{Cd : Codec} `{Ev : Env} `{Sw : SwapEnv} `{Re : ReloadEnv} : Prop := EnvGood {
  eg_open : ∀ L, open_ok L = true;
  eg_alloc : ∀ p, svm_alloc_ok p = true;
  eg_read : ∀ p, pwrite_ok p = true;
  eg_swap_open : ∀ L, odirect_read_ok L = true;
  eg_swap_read : preads_ok;
  eg_w_open : ∀ L, weight_open_ok L = true;
  eg_w_alloc : ∀ L, weight_alloc_ok L = true;
  eg_w_aligned : weight_aligned = true;
  eg_w_read : ∀ L, weight_read_ok L = true }.

Section cycle.
Context `{Cd : Codec} `{Ev : Env} {CL : CodecLaws Cd} `{Sw : SwapEnv} `{Re : ReloadEnv}.

(** A state like a swapped-out one is swapped out. *)
Lemma swapped_out_similar s s' : similar s s' → swapped_out s → swapped_out s'.
Proof.
  intros Hsim [Hl Hm Ht Hcl]. destruct (similar_ok s s' Hsim Hm) as [Hm' _].
  pose proof (sim_strip _ _ Hsim) as Hs. unfold strip in Hs.
  injection Hs as e1 e2 e3 e4 e5 e6 e7 e8 e9 e9' e9'' e10 e11 e12 e13 e14 e15 e16 e17 e18.
  assert (Hir : ∀ p, in_range s' p ↔ in_range s p) by (intros; unfold in_range; by rewrite e1, e3).
  split; [|done| |].
  - destruct Hl as [l1 l2 l3 l4 l5 l6 l7 l8 l9 l10 l11 l12 l13 l14].
    split; unfold comp_rem, store_rem in *; rewrite ?e1, ?e3, ?e7, ?e8, ?e9, ?e9', ?e10; try done.
    intros p Hp%Hir. by apply l12.
  - destruct Ht. split; by rewrite ?e1, ?e3, ?e7, ?e8.
  - intros i. by rewrite e16.
Qed.

(** ** Where a swap-in starts *)

(** The swapped-out state [s], possibly with layers offloaded since. *)
Record swapin_ready (s : kv_state) (wt : mzcache_weight) (w : world) : Prop := SwapinReady {
  sr_out : swapped_out s;
  sr_offloaded : offloaded s w.(kv);
  sr_aligned : round_up_4k s.(arena_bytes) = s.(arena_bytes);
  sr_weight : weight_ok wt;
  sr_layers : wt.(w_num_layers) = s.(num_layers);
  sr_loaded : ∀ L, 0 <= L < s.(num_layers) → L ∉ unloaded_layers wt → w.(weight_loaded) L = true;
  sr_alive : w.(crashed) = false }.

(** What the main thread's part of a swap-in amounts to. *)
Record started (s : kv_state) (wt wt' : mzcache_weight) (w3 : world) (acts : list action) : Prop := Started {
  st_inv : ∀ p, pool_good p → pool_tasks p = [] → sys_inv w3.(kv) (Sys acts w3 p);
  st_view : ∀ p, in_range s p → view w3.(kv) p = view s p;
  st_from : ∃ s2 c d cl, swapped_out s2 ∧ similar (set_comp_left s cl) s2 ∧ fetched s2 c d ∧
            s2.(next_layer_to_offload) = s.(num_layers) - 1 ∧
            (s.(cnt).(n_cur_arena_offload_bytes) = 0 → s2.(cnt).(n_cur_arena_offload_bytes) = 0) ∧
            w3.(kv) = set_dsk (set_cur s2 c) d;
  st_weight : wt' = reset_unload wt }.

Lemma offloaded_comp_left s s1 cl : offloaded s s1 → offloaded (set_comp_left s cl) (set_comp_left s1 cl).
Proof.
  intros [Hs Hn Hk Hg Hb]. split; [|done|done|done|done].
  unfold strip in *. cbn. by injection Hs as -> -> -> -> -> -> -> -> -> -> -> -> -> -> -> -> -> -> ->.
Qed.

Lemma reload_comp_left s cl : mzcache_reload_all_arenas (set_comp_left s cl)
  = set_comp_left (mzcache_reload_all_arenas s) cl.
Proof.
  unfold mzcache_reload_all_arenas. cbn. destruct (_ <=? _); [done|].
  set (ls := seqZ _ _). assert (H : ∀ l s0, fold_left reload_layer l (set_comp_left s0 cl)
                = set_comp_left (fold_left reload_layer l s0) cl).
  { clear. induction l as [|L l IH]; intros s; [done|]. cbn [fold_left]. rewrite <- IH. f_equal.
    unfold reload_layer. cbn. destruct (offload_used_bytes s L); [done|].
    destruct (odirect_read_ok L); [|done]. by destruct (swap_file (dsk s) L). }
  by rewrite H.
Qed.

Hypothesis Henv : env_good.

Lemma sync_loop_cong todo i s s' Wc cl sy d l :
  s'.(pln) = s.(pln) → s'.(cur) = s.(cur) → s'.(num_chunks_per_tensor) = s.(num_chunks_per_tensor) →
  sync_loop todo i s' Wc cl sy d l = sync_loop todo i s Wc cl sy d l.
Proof.
  intros H1 H2 H3. revert i cl sy d l. induction todo as [|todo IH]; intros; cbn [sync_loop]; [done|].
  rewrite IH. unfold compress_init, store_init. by rewrite H1, H2, H3.
Qed.

(** The counters do not depend on where the arenas are. *)
Lemma initialize_strip s wt w cl sy d l : strip w.(kv) = strip s →
  initialize_layer_sync wt (set_kv w s)
    = (World (set_comp_left s cl) (λ _, Unregistered) (λ _, Unregistered) w.(weight_loaded) sy w.(crashed), d, l) →
  initialize_layer_sync wt w
    = (World (set_comp_left w.(kv) cl) (λ _, Unregistered) (λ _, Unregistered) w.(weight_loaded) sy
         w.(crashed), d, l).
Proof.
  intros Hs. unfold strip in Hs.
  injection Hs as e1 e2 e3 e4 e5 e6 e7 e8 e9 e9' e9'' e10 e11 e12 e13 e14 e15 e16 e17 e18.
  unfold initialize_layer_sync. cbn [kv set_kv weight_loaded layer_sync crashed].
  rewrite (sync_loop_cong _ _ s w.(kv)), e1, e18 by done.
  destruct (sync_loop _ _ _ _ _ _ _ _) as [[[cl' sy'] d'] l']. intros [= <- <- <- <-]. done.
Qed.

(** Setting up: counters, arenas back in memory. *)
Lemma swapin_start_spec s wt w : swapin_ready s wt w →
  ∃ cl sy s2, swapin_start wt w
    = (World (set_comp_left s2 cl) (λ _, Unregistered) (λ _, Unregistered) w.(weight_loaded) sy w.(crashed),
       s2.(cnt).(n_cur_comp_chunks), s2.(cnt).(n_cur_store_chunks)) ∧
    swapped_out s2 ∧ similar s s2 ∧ s2.(next_layer_to_offload) = s.(num_layers) - 1 ∧
    (s.(cnt).(n_cur_arena_offload_bytes) = 0 → s2.(cnt).(n_cur_arena_offload_bytes) = 0) ∧
    (∀ L, 0 <= L < s2.(num_layers) → cl L = compress_init s2 L) ∧
    (∀ L, 0 <= L < s2.(num_layers) →
      let n := count (sync_of L) (restore_tasks (to_load s2) (to_decompress s2) (unloaded_layers wt)) in
      sy L = Sync n (n =? 0)).
Proof.
  intros [Hso Hof Hal Hwt Hwn Hld Hcr]. unfold swapin_start.
  pose proof (mem_arenas_ok s (so_mem _ Hso) Hal) as Har.
  destruct (strip_same _ _ (of_strip _ _ Hof)) as [_ Hnl].
  destruct (reload_all_spec s w.(kv) Hof Har (eg_swap_read Henv) (eg_swap_open Henv)) as (Hsim & Hnext & Hby).
  { rewrite Hnl. by apply so_layers. }
  set (s2 := mzcache_reload_all_arenas w.(kv)) in *.
  pose proof (swapped_out_similar s s2 Hsim Hso) as Hso2.
  (* the counters are computed on [kv w], which has the cursors of [s2] *)
  assert (Hinit : ∃ cl sy, initialize_layer_sync wt w
      = (World (set_comp_left w.(kv) cl) (λ _, Unregistered) (λ _, Unregistered) w.(weight_loaded) sy w.(crashed),
         s2.(cnt).(n_cur_comp_chunks), s2.(cnt).(n_cur_store_chunks)) ∧
      (∀ L, 0 <= L < s2.(num_layers) → cl L = compress_init s2 L) ∧
      (∀ L, 0 <= L < s2.(num_layers) →
        let n := count (sync_of L) (restore_tasks (to_load s2) (to_decompress s2) (unloaded_layers wt)) in
        sy L = Sync n (n =? 0))).
  { pose proof (sim_strip _ _ Hsim) as Hst2.
    assert (Hst : strip w.(kv) = strip s2) by (rewrite (of_strip _ _ Hof); by rewrite Hst2).
    destruct (start_sync s2 wt (set_kv w s2) Hso2 eq_refl) as (cl & sy & Hrun & H1 & H2); [|done|].
    { rewrite Hwn. by destruct (strip_same _ _ Hst2) as [_ ->]. }
    exists cl, sy. split; [|done]. by apply (initialize_strip s2). }
  destruct Hinit as (cl & sy & Hin & H1 & H2). rewrite Hin. exists cl, sy, s2.
  cbn [kv set_kv]. rewrite reload_comp_left. fold s2.
  split; [done|]. split; [done|]. split; [done|]. split; [by rewrite Hnext, Hnl|].
  split; [|done]. intros Hz. destruct Hby as [?|[Hfull Heq]]; [done|].
  rewrite Heq. by rewrite (of_bytes _ _ Hof Hfull).
Qed.

Lemma then_decode_quiet (b : bool) ls : quiet ((WaitLayer <$> ls) ++ (if b then [Decode] else [])).
Proof.
  assert (H : ∀ l m, quiet m → quiet ((WaitLayer <$> l) ++ m)).
  { intros l m [H1 H2 H3 H4]. induction l as [|L l [I1 I2 I3 I4]]; [done|]. cbn [fmap list_fmap app].
    split; [done|done|done|]. split; [|done]. cbn. intros x. rewrite I1. by intros ?%elem_of_nil. }
  apply H. destruct b; split; done.
Qed.

(** [comp_left] plays no role in the invariants of a swapped-out state. *)
Lemma swapped_out_comp_left s cl : swapped_out s → swapped_out (set_comp_left s cl).
Proof.
  intros [[l1 l2 l3 l4 l5 l6 l7 l8 l9 l10 l11 l12 l13 l14] [m1 m2 m3 m4 m5 m6 m7] [t1 t2 t3] Hc].
  split; [by split|by split|by split|done].
Qed.

Lemma similar_comp_left s s' cl : similar s s' → similar (set_comp_left s cl) (set_comp_left s' cl).
Proof.
  intros [Hs Ha]. split; [|done]. unfold strip in *. cbn.
  by injection Hs as -> -> -> -> -> -> -> -> -> -> -> -> -> -> -> -> -> -> ->.
Qed.

(** The invariant at the first action, for actions carrying the right tasks. *)
Lemma started_intro s s2 wt w c d cl sy acts :
  swapin_ready s wt w → swapped_out s2 → similar (set_comp_left s cl) s2 → fetched s2 c d →
  s2.(next_layer_to_offload) = s.(num_layers) - 1 →
  (s.(cnt).(n_cur_arena_offload_bytes) = 0 → s2.(cnt).(n_cur_arena_offload_bytes) = 0) →
  s2.(comp_left) = cl →
  (∀ L, 0 <= L < s2.(num_layers) → cl L = compress_init s2 L) →
  (∀ L, 0 <= L < s2.(num_layers) →
    let n := count (sync_of L) (restore_tasks (to_load s2) (to_decompress s2) (unloaded_layers wt)) in
    sy L = Sync n (n =? 0)) →
  start_acts (to_load s2) (to_decompress s2) (unloaded_layers wt) acts →
  started s wt (reset_unload wt)
    (World (set_dsk (set_cur s2 c) d) (λ _, Unregistered) (λ _, Unregistered) w.(weight_loaded) sy w.(crashed))
    acts.
Proof.
  intros [Hso Hof Hal Hwt Hwn Hld Hcr] Hso2 Hsim Hf Hnx Hby Hcl2 Hcl Hsy Hsa.
  destruct (strip_same _ _ (sim_strip _ _ Hsim)) as [_ Hnl]. cbn in Hnl.
  assert (Heq : set_comp_left s2 cl = s2) by (rewrite <- Hcl2; by destruct s2).
  assert (Hm : mem_ok (set_comp_left s cl)) by apply (swapped_out_comp_left s cl Hso).
  destruct (similar_ok _ _ Hsim Hm) as [_ Hview].
  split; [| |by exists s2, c, d, cl|done].
  - intros p Hp Hpt. rewrite <- Heq. apply (start_world_inv s2 c d cl sy wt w acts p); try done.
    + by rewrite Hwn, Hnl.
    + intros L. rewrite Hnl. apply Hld.
  - intros p Hp. cbn [kv]. destruct (start_chunk_inv s2 c d cl [] Hso2 Hf Hcl) as [_ Hv].
    rewrite Heq in Hv. rewrite Hv; [by apply Hview|].
    pose proof (sim_strip _ _ Hsim) as Hst. unfold strip in Hst. injection Hst as e1 _ e3.
    unfold in_range. by rewrite e1, e3.
Qed.

(** The restoring actions do not decode. *)
Ltac no_decode :=
  unfold swapin_actions; cbn [mzcache_reload_w_layers mzcache_reload_w_layers_reload_only snd];
  rewrite ?elem_of_app, ?elem_of_flat_map, ?list_elem_of_fmap, ?list_elem_of_singleton;
  intros Hin; repeat first
    [ done
    | match type of Hin with _ ∨ _ => destruct Hin as [Hin|Hin] end
    | match type of Hin with ∃ _, _ => let y := fresh in destruct Hin as (y & Hin) end
    | match type of Hin with _ ∈ _ ∧ _ => destruct Hin as [_ Hin] end
    | match type of Hin with _ = _ ∧ _ => destruct Hin as [Hin _] end
    | apply elem_of_cons in Hin | by apply elem_of_nil in Hin ].

(** The main thread's part of each variant. *)
Lemma swapin_generate_spec v s wt w : swapin_ready s wt w →
  ∃ w3 wt' acts, swapin_generate v wt w
    = Ok (w3, wt', acts, s.(cnt).(n_cur_comp_chunks), s.(cnt).(n_cur_store_chunks)) ∧
    started s wt wt' w3 acts ∧
    (v = NoPrefillOverlap ∨ v = NoOverlap →
     ∃ acts', acts = acts' ++ (WaitLayer <$> seqZ 0 s.(num_layers)) ++ [Decode] ∧ Decode ∉ acts').
Proof.
  intros Hr. destruct (swapin_start_spec s wt w Hr) as (cl & sy & s20 & Hstart & Hso0 & Hsim0 & Hnx & Hby & Hcl & Hsy).
  set (s2 := set_comp_left s20 cl) in *.
  pose proof (swapped_out_comp_left s20 cl Hso0) as Hso.
  pose proof (similar_comp_left s s20 cl Hsim0) as Hsim.
  assert (Hcnt : s20.(cnt).(n_cur_comp_chunks) = s.(cnt).(n_cur_comp_chunks) ∧
                 s20.(cnt).(n_cur_store_chunks) = s.(cnt).(n_cur_store_chunks) ∧
                 s20.(num_layers) = s.(num_layers)).
  { pose proof (sim_strip _ _ Hsim0) as Hst. unfold strip in Hst. by injection Hst. }
  destruct Hcnt as (Hnc & Hns & Hnl). rewrite Hnc, Hns in Hstart.
  pose proof Hso as [Hl Hm Ht Hcd].
  destruct (enqueue_full s2 Hl Hm Ht (eg_open Henv) Hcd) as (c & d & Henq & Hf).
  destruct (two_phase_full s2 Hl Hm Ht (eg_open Henv) Hcd) as (c' & d' & Hwait & Hal & Hdr & Hf').
  change (cnt s2) with (cnt s20) in *. rewrite Hnc, Hns in Henq, Hwait, Hal, Hdr.
  assert (Hlists : NoDup (to_load s2) ∧ NoDup (to_decompress s2) ∧ NoDup (unloaded_layers wt)).
  { split; [apply NoDup_sorted, to_load_sorted|]. split; [apply NoDup_sorted, to_decompress_sorted|apply NoDup_seqZ]. }
  destruct Hlists as (Hnd1 & Hnd2 & Hnd3).
  assert (Hdisj : ∀ q, q ∈ to_load s2 → q ∈ to_decompress s2 → False)
    by (intros q; by apply loads_decs_disjoint).
  assert (Hov : ∀ m, quiet m → start_acts (to_load s2) (to_decompress s2) (unloaded_layers wt)
     ((swapin_actions s2 ++ (mzcache_reload_w_layers wt).2) ++ m)).
  { intros m Hq. rewrite <- app_assoc. exact (start_overlapped _ _ _ m Hnd1 Hnd2 Hnd3 Hdisj Hq). }
  pose proof (start_alloc_first (to_load s2) (to_decompress s2) (unloaded_layers wt)) as Haf.
  assert (Hnil : quiet []) by (by split).
  pose proof (then_decode_quiet true (all_layers s2)) as Hdec.
  unfold swapin_generate. rewrite Hstart. cbn [kv].
  fold s2. unfold restore_overlapped, restore_alloc_first.
  destruct v; rewrite ?Henq, ?Hal, ?Hwait, ?Hdr; cbn [obind mzcache_reload_w_layers mzcache_reload_w_layers_reload_only].
  - eexists _, _, _. split; [reflexivity|]. split; [|by intros [?|?]].
    apply (started_intro s s2 wt w c d cl sy); try done. rewrite <- (app_nil_r (_ ++ _)). by apply Hov.
  - eexists _, _, _. split; [reflexivity|]. split; [|].
    + apply (started_intro s s2 wt w c d cl sy); try done. by apply Hov.
    + intros _. eexists. split; [unfold all_layers; cbn [num_layers s2 set_comp_left]; by rewrite Hnl|]. no_decode.
  - eexists _, _, _. split; [reflexivity|]. split; [|by intros [?|?]].
    apply (started_intro s s2 wt w c' d' cl sy); try done.
    pose proof (Haf [] Hnd1 Hnd2 Hnd3 Hdisj Hnil) as Hsa. rewrite !app_nil_r in Hsa.
    unfold mzcache_reload_w_layers_alloc_only.
    rewrite <- !app_assoc in *. exact Hsa.
  - eexists _, _, _. split; [reflexivity|]. split.
    + apply (started_intro s s2 wt w c' d' cl sy); try done.
      pose proof (Haf _ Hnd1 Hnd2 Hnd3 Hdisj Hdec) as Hsa. unfold mzcache_reload_w_layers_alloc_only.
    rewrite <- !app_assoc in *. exact Hsa.
    + intros _. eexists. split; [unfold all_layers; cbn [num_layers s2 set_comp_left]; by rewrite Hnl|].
      unfold mzcache_reload_w_layers_alloc_only. no_decode.
Qed.

(** ** The default pool *)
Lemma default_pool_good b soc :
  let p : task_pool := make_pool (default_core_configs b soc) in pool_good p ∧ pool_tasks p = [].
Proof.
  cbv zeta. split; [|by destruct b, soc]. split.
  - apply make_pool_ok.
  - done.
  - intros x. destruct b, soc, x; cbn; eauto.
  - intros t g. destruct b, soc, t; cbn; intros [=]; subst; cbn; lia.
  - intros t g x. destruct b, soc, t; cbn; intros [=]; subst; cbn; by intros ?%elem_of_nil.
Qed.

Lemma done_no_tasks st : pool_good st.(s_pool) → sys_done st → main_tasks st.(s_main) ++ pool_tasks st.(s_pool) = [].
Proof.
  intros Hp [-> Hid]. cbn [main_tasks omap list_omap app].
  destruct (pool_tasks (s_pool st)) as [|x T] eqn:ET; [done|].
  assert (Hx : x ∈ pool_tasks (s_pool st)) by (rewrite ET; apply elem_of_cons; by left).
  apply elem_of_pool_tasks in Hx as (t & g & Hg & Hx).
  pose proof (busy_group _ t g x Hp Hg Hx) as Hb. by rewrite (Hid t g Hg) in Hb.
Qed.

(** A chunk without outstanding tasks is back. *)
Lemma chunk_back s0 s T p : chunk_inv s0 s T → in_range s p → kv_read p ∉ T → kv_decomp p ∉ T →
  s.(tab).(states) p = Raw ∧ view s p = view s0 p ∧
  resident s.(mem).(heap) (raw_chunk_bytes s) (s.(mem).(svm_k) p) (s.(mem).(svm_v) p).
Proof.
  intros Hc Hp Hr Hd. assert (Hraw : s.(tab).(states) p = Raw).
  { destruct (states (tab s) p) eqn:E; [done| |].
    - destruct Hd. by apply (ci_decomp _ _ _ Hc).
    - destruct Hr. by apply (ci_read _ _ _ Hc). }
  split; [done|]. split; [by apply (ci_data _ _ _ Hc)|]. apply (ci_live _ _ _ Hc p Hp).
  intros Ha. by destruct (ci_alloc _ _ _ Hc p Ha).
Qed.

(** What a reader of layer [L] finds in [w]: weights and all chunks in place,
    with the content they have in [s]. *)
Definition layer_restored (s : kv_state) (w : world) (L : Z) : Prop :=
  w.(weight_loaded) L = true ∧
  ∀ C, 0 <= C < s.(num_chunks_per_tensor) →
    w.(kv).(tab).(states) (L, C) = Raw ∧ view w.(kv) (L, C) = view s (L, C) ∧
    resident w.(kv).(mem).(heap) (raw_chunk_bytes w.(kv))
      (w.(kv).(mem).(svm_k) (L, C)) (w.(kv).(mem).(svm_v) (L, C)).

Lemma ready_restored s wt wt' w3 acts st L : started s wt wt' w3 acts → sys_inv w3.(kv) st →
  0 <= L < s.(num_layers) → (st.(s_world).(layer_sync) L).(ready) = true →
  layer_restored s st.(s_world) L.
Proof.
  intros [_ Hv (s2 & c & d & cl & _ & Hsim & _ & _ & _ & Hkv) _] Hi HL Hrd.
  pose proof (si_world _ _ Hi) as [_ _ Hch _ Hsy Hwt].
  set (T := main_tasks _ ++ pool_tasks _) in *. set (s4 := kv (s_world st)) in *.
  pose proof (sim_strip _ _ Hsim) as Hst. unfold strip in Hst. injection Hst as e1 e2 e3.
  pose proof (ci_cfg _ _ _ Hch) as [(f1 & _ & f3 & _) _]. rewrite Hkv in f1, f3. cbn in f1, f3.
  assert (HL4 : 0 <= L < num_layers s4) by lia.
  rewrite (Hsy L HL4) in Hrd. cbn in Hrd. apply Z.eqb_eq in Hrd.
  assert (Hno : ∀ x, sync_of L x = true → x ∉ T).
  { intros x Hx Hin. by rewrite (count_zero _ _ _ Hrd Hin) in Hx. }
  split.
  - apply (wi_loaded _ _ _ Hwt); [done|]. apply Hno. cbn. apply Z.eqb_refl.
  - intros C HC. assert (Hin : in_range s4 (L, C)) by (split; cbn; lia).
    destruct (chunk_back _ _ _ (L, C) Hch Hin) as (Hr1 & Hv1 & Hres1);
      [apply Hno; cbn; apply Z.eqb_refl..|]. split; [done|]. split; [|done].
    etrans; [exact Hv1|]. apply Hv. split; cbn; lia.
Qed.

End cycle.
