(* ===== verification/KvFinish.v ===== *)
(** The end of a swap-in: it terminates, and the synchronous variants decode only
    on a restored cache. *)
From Stdlib Require Import Sorting.Sorted.
From S2P Require Import Prelude Floats Profile ThreadPool KvTypes KvPlan KvLadder KvInv KvFrame.
From S2P Require Import KvSwapOut KvSwapOutThms KvGrow KvSwapIn Weight KvWorkers KvRestore.
From S2P Require Import KvRestoreW KvSystem KvSystemInv KvProgress KvOffload KvOffloadThms KvCore.
From S2P Require Import KvStart KvCycle.

Section finish.
Context `{Cd : Codec} `{Ev : Env} {CL : CodecLaws Cd} `{Sw : SwapEnv} `{Re : ReloadEnv}.
Hypothesis Henv : env_good.


(** ** Decoding after the waits *)

Lemma taskDone_ready x y : taskDone x = Ok y → x.(ready) = true → y.(ready) = true.
Proof.
  unfold taskDone. destruct (remaining x =? 1); [destruct (ready x) eqn:E; [done|]|]; by intros [= <-].
Qed.

Lemma task_done_mono M w L : w.(crashed) = false → (task_done M w).(crashed) = false →
  (w.(layer_sync) L).(ready) = true → ((task_done M w).(layer_sync) L).(ready) = true.
Proof.
  unfold task_done. intros Hw. destruct (taskDone (layer_sync w M)) as [y| |] eqn:E; [|done|done].
  intros _ Hr. cbn -[fn_insert]. destruct (decide (M = L)) as [->|Hne].
  - rewrite fn_lookup_insert. by eapply taskDone_ready.
  - by rewrite fn_lookup_insert_ne.
Qed.

Lemma exec_ready_mono t x w w' ch L : w.(crashed) = false → exec t x w = Some (w', ch) →
  w'.(crashed) = false → (w.(layer_sync) L).(ready) = true → (w'.(layer_sync) L).(ready) = true.
Proof.
  intros Hw He Hc Hr. destruct x; cbn [exec] in He; repeat case_match; simplify_eq;
    first [done | by apply task_done_mono].
Qed.

Lemma step_ready_mono st st' L : sys_step st st' → st'.(s_world).(crashed) = false →
  (st.(s_world).(layer_sync) L).(ready) = true → (st'.(s_world).(layer_sync) L).(ready) = true.
Proof.
  destruct 1 as [a l w w' p p' Hc Ha|m w p p' t _ Ht|m w w' p p' t g l1 x l2 ch Hc Hg Hr He Hq
    |m w p p' t _ Ht]; cbn [s_world]; intros Hc' Hrd; try done.
  - destruct a; cbn in Ha; repeat case_match; simplify_eq; done.
  - exact (exec_ready_mono _ _ _ _ _ L Hc He Hc' Hrd).
Qed.

Lemma started_layers s wt wt' w3 acts : started s wt wt' w3 acts →
  w3.(kv).(num_layers) = s.(num_layers).
Proof.
  intros [_ _ (s2 & c & d & cl & _ & Hsim & _ & _ & _ & ->) _].
  pose proof (sim_strip _ _ Hsim) as Hst. unfold strip in Hst. by injection Hst.
Qed.

(** Each layer is complete or still waited for. *)
Definition waited (s : kv_state) (st : sys) : Prop :=
  ∀ L, 0 <= L < s.(num_layers) →
    WaitLayer L ∈ st.(s_main) ∨ (st.(s_world).(layer_sync) L).(ready) = true.

Lemma waited_step s st st' : sys_step st st' → st'.(s_world).(crashed) = false →
  st.(s_world).(kv).(num_layers) = s.(num_layers) → waited s st → waited s st'.
Proof.
  intros Hs Hc Hn Hw L HL. destruct (Hw L HL) as [Hin|Hr]; [|right; by eapply step_ready_mono].
  destruct Hs as [a l w w' p p' _ Ha|m w p p' t _ Ht|m w w' p p' t g l1 x l2 ch _ Hg Hr He Hq
    |m w p p' t _ Ht]; cbn [s_main s_world] in *; try (by left).
  apply elem_of_cons in Hin as [<-|Hin]; [right|by left].
  cbn [main_act] in Ha. rewrite Hn in Ha.
  rewrite (proj2 (Z.leb_le 0 L)), (proj2 (Z.ltb_lt L (num_layers s))) in Ha by lia. cbn [andb] in Ha.
  destruct (ready (layer_sync w L)) eqn:E; [|done]. by injection Ha as <- <-.
Qed.

(** The waits come before the decode, and nothing else after it. *)
Lemma decode_last acts' ls m l : Decode ∉ acts' →
  acts' ++ (WaitLayer <$> ls) ++ [Decode] = m ++ Decode :: l → l = [].
Proof.
  intros Hno. revert m. induction acts' as [|a acts' IH]; intros m.
  - cbn [app]. revert m. induction ls as [|x ls IHl]; intros [|b m]; cbn [fmap list_fmap app]; intros [=]; try done.
    + by destruct m.
    + by eapply IHl.
  - apply not_elem_of_cons in Hno as [Hne Hno].
    destruct m as [|b m]; cbn [app]; intros [=]; [by subst|]. by eapply IH.
Qed.

Lemma sys_step_main st st' : sys_step st st' → ∃ m, st.(s_main) = m ++ st'.(s_main).
Proof. destruct 1; cbn [s_main]; (by exists []) || by eexists [_]. Qed.

Lemma steps_waited s s0 st st' : sys_inv s0 st → s0.(num_layers) = s.(num_layers) → waited s st →
  rtc sys_step st st' → sys_inv s0 st' ∧ waited s st' ∧ ∃ m, st.(s_main) = m ++ st'.(s_main).
Proof.
  intros Hi Hn Hw Hs. induction Hs as [st|st st1 st' Hstep _ IH]; [split; [done|]; split; [done|by exists []]|].
  assert (Hi1 : sys_inv s0 st1).
  { exact (sys_step_inv (eg_alloc Henv) (eg_read Henv) (eg_w_open Henv) (eg_w_alloc Henv)
             (eg_w_aligned Henv) (eg_w_read Henv) _ _ _ Hi Hstep). }
  destruct IH as (Hi' & Hw' & m & Hm); [done| |].
  - eapply waited_step; [exact Hstep|apply (si_world _ _ Hi1)| |done].
    pose proof (ci_cfg _ _ _ (iv_chunk _ _ _ _ _ (si_world _ _ Hi))) as [Hc _].
    etrans; [|exact Hn]. by destruct Hc as [-> _].
  - split; [done|]. split; [done|]. destruct (sys_step_main _ _ Hstep) as [m0 Hm0].
    exists (m0 ++ m). by rewrite Hm0, Hm, app_assoc.
Qed.

(** C6: In the variants without prefill overlap the decode runs on a fully
    restored cache: whenever it is the main thread's next action, every layer has
    its weights and all its chunks in place. *)
Theorem decode_after_restore (v : swapin_variant) (b : backend) (soc : SocClass)
    (s : kv_state) (wt : mzcache_weight) (w : world) :
  swapin_ready s wt w → v = NoPrefillOverlap ∨ v = NoOverlap →
  ∃ w3 wt' acts, swapin_generate v wt w
      = Ok (w3, wt', acts, s.(cnt).(n_cur_comp_chunks), s.(cnt).(n_cur_store_chunks)) ∧
    Decode ∈ acts ∧
    ∀ st, rtc sys_step (Sys acts w3 (make_pool (default_core_configs b soc))) st →
      head st.(s_main) = Some Decode →
      ∀ L, 0 <= L < s.(num_layers) → layer_restored s st.(s_world) L.
Proof.
  intros Hr Hv. destruct (swapin_generate_spec Henv v s wt w Hr) as (w3 & wt' & acts & Hrun & Hst & Hacts).
  exists w3, wt', acts. split; [done|]. destruct (Hacts Hv) as (acts' & Hae & Hno).
  split; [rewrite Hae, !elem_of_app; right; right; apply elem_of_cons; by left|].
  intros st Hs Hhd L HL. destruct (default_pool_good b soc) as [Hp Hpt].
  pose proof (st_inv _ _ _ _ _ Hst _ Hp Hpt) as Hi0.
  destruct (steps_waited s w3.(kv) _ st Hi0 (started_layers _ _ _ _ _ Hst)) as (Hi & Hw & m & Hm); [|exact Hs|].
  { intros M HM. left. cbn [s_main]. rewrite Hae, !elem_of_app. right. left.
    apply list_elem_of_fmap. exists M. split; [done|]. apply elem_of_seqZ. lia. }
  cbn [s_main] in Hm. destruct (s_main st) as [|a l] eqn:Em; [done|]. injection Hhd as ->.
  rewrite Hae in Hm. apply decode_last in Hm as ->; [|done].
  eapply ready_restored; [done|done|done|].
  destruct (Hw L HL) as [Hin|Hr']; [|done]. rewrite Em in Hin.
  by apply elem_of_cons in Hin as [?|?%elem_of_nil].
Qed.

End finish.
