(* ===== verification/KvDone.v ===== *)
(** After a swap-in: once the pool is idle, [finish_swapin_cycle] leaves every
    chunk raw, the arenas released, the files closed and a clean ladder - a state
    from which the next swap-out starts. *)
From Stdlib Require Import Sorting.Sorted.
From S2P Require Import Prelude Floats Profile ThreadPool KvTypes KvPlan KvLadder KvInv KvFrame.
From S2P Require Import KvSwapOut KvSwapOutThms KvGrow KvSwapIn Weight KvWorkers KvRestore.
From S2P Require Import KvRestoreW KvSystem KvSystemInv KvProgress KvOffload KvOffloadThms KvCore.
From S2P Require Import KvStart KvCycle.

Section fin.
Context `{Cd : Codec} `{Ev : Env} {CL : CodecLaws Cd} `{Sw : SwapEnv} `{Re : ReloadEnv}.

(** ** [clean_after_decompress] when nothing is compressed any more *)

Lemma last_used_raw t N L : (∀ C, 0 <= C < N → t.(states) (L, C) = Raw) → last_used t N L = (-1, 0).
Proof.
  intros H. unfold last_used.
  assert (Hl : ∀ C, C ∈ seqZ 0 N → t.(states) (L, C) = Raw) by (intros C HC%elem_of_seqZ; apply H; lia).
  induction (seqZ 0 N) as [|C l IH]; [done|]. cbn [fold_left]. unfold last_used_chunk at 2.
  rewrite Hl by (apply elem_of_cons; by left). apply IH. intros D HD. apply Hl, elem_of_cons. by right.
Qed.

Lemma clean_layer_raw t N l L : (∀ C, 0 <= C < N → t.(states) (L, C) = Raw) → clean_layer t N l L = [].
Proof. intros H. unfold clean_layer. by rewrite last_used_raw. Qed.

(** Everything is back: the chunks are raw, live and disjoint. *)
Record all_back (s : kv_state) : Prop := AllBack {
  ab_raw : ∀ p, in_range s p → s.(tab).(states) p = Raw;
  ab_live : ∀ p, in_range s p →
    s.(mem).(svm_k) p = s.(tab).(k_raw) p ∧ s.(mem).(svm_v) p = s.(tab).(v_raw) p ∧
    resident s.(mem).(heap) (raw_chunk_bytes s) (s.(tab).(k_raw) p) (s.(tab).(v_raw) p);
  ab_sep : ∀ p q b, in_range s p → in_range s q → p ≠ q →
    uses (s.(tab).(k_raw) p) (s.(tab).(v_raw) p) b →
    uses (s.(tab).(k_raw) q) (s.(tab).(v_raw) q) b → False;
  ab_fresh : ∀ b, is_Some (s.(mem).(heap) !! b) → (b < s.(mem).(next_block))%positive;
  ab_arenas : ∀ L, Forall (arena_ok s.(arena_bytes)) (s.(mem).(arenas) L) }.

Lemma all_back_intro s0 s : chunk_inv s0 s [] → all_back s.
Proof.
  intros Hc.
  assert (Hnil : ∀ x : task, x ∉ []) by (intros x; apply not_elem_of_nil).
  assert (Hlive : ∀ p, in_range s p → s.(mem).(svm_k) p = s.(tab).(k_raw) p ∧
    s.(mem).(svm_v) p = s.(tab).(v_raw) p ∧
    resident s.(mem).(heap) (raw_chunk_bytes s) (s.(tab).(k_raw) p) (s.(tab).(v_raw) p)).
  { intros p Hp. destruct (ci_live _ _ _ Hc p Hp (Hnil _)) as (Hr & -> & ->). done. }
  split; [|exact Hlive| |apply Hc|apply Hc].
  - intros p Hp. by destruct (chunk_back _ _ _ p Hc Hp (Hnil _) (Hnil _)).
  - intros p q b Hp Hq Hne. destruct (Hlive p Hp) as (<- & <- & _), (Hlive q Hq) as (<- & <- & _).
    by apply (ci_sep _ _ _ Hc).
Qed.

(** What [finish_swapin_cycle] leaves, field by field. *)
Lemma finish_fields d l s wt : all_back s → d = s.(cnt).(n_cur_comp_chunks) →
  l = s.(cnt).(n_cur_store_chunks) → 0 <= d → 0 <= l →
  let s5 := (finish_swapin_cycle d l s wt).1 in
  same_cfg s s5 ∧ s5.(cur) = s.(cur) ∧ s5.(tab) = s.(tab) ∧
  (∃ ar, s5.(mem) = Memory s.(mem).(heap) s.(mem).(next_block) s.(mem).(svm_k) s.(mem).(svm_v) ar ∧
     ∀ L, ar L = s.(mem).(arenas) L ∨ ar L = []) ∧
  (0 < d → ∀ L, 0 <= L < s.(num_layers) → s5.(mem).(arenas) L = []) ∧
  s5.(dsk).(kv_file) = s.(dsk).(kv_file) ∧
  s5.(dsk).(layer_fds) = (mzcache_close_stored_files s).(dsk).(layer_fds) ∧
  s5.(cnt).(n_cur_comp_chunks) = 0 ∧ s5.(cnt).(n_cur_store_chunks) = 0 ∧
  s5.(cnt).(n_cur_arena_offload_bytes) = s.(cnt).(n_cur_arena_offload_bytes).
Proof.
  intros Hab -> -> Hd Hl. unfold finish_swapin_cycle, clean_after_read, clean_after_decompress.
  rewrite (Z.ltb_irrefl (n_cur_comp_chunks (cnt s))), Z.sub_diag. cbn [Z.eqb].
  destruct (Z.leb_spec (n_cur_comp_chunks (cnt s)) 0) as [Hz|Hz]; cbn -[clean_layer];
    rewrite ?Z.ltb_irrefl, ?Z.sub_diag.
  - split; [done|]. do 2 (split; [done|]). split; [|split; [lia|by repeat split; try lia]].
    exists (s.(mem).(arenas)). split; [by destruct (mem s)|by left].
  - assert (Hcl : ∀ L, 0 <= L < num_layers s →
        clean_layer (tab s) (num_chunks_per_tensor s) (arenas (mem s) L) L = []).
    { intros L HL. apply clean_layer_raw. intros C HC. apply (ab_raw _ Hab). by split. }
    split; [done|]. do 2 (split; [done|]). split; [|split; [|by repeat split]].
    + eexists. split; [reflexivity|]. intros L.
      cbv beta. destruct (Z.leb_spec 0 L), (Z.ltb_spec L (num_layers s)); cbn [andb]; try (by left).
      right. apply Hcl. lia.
    + intros _ L HL. rewrite (proj2 (Z.leb_le _ _)), (proj2 (Z.ltb_lt _ _)) by lia. by apply Hcl.
Qed.

(** ** The cursors after the swap-in *)

Lemma fetched_cursors s c d : swapped_out s → fetched s c d →
  (0 <= c.(cur_layer_idx_to_compress) < s.(num_layers) ∧
   -1 <= c.(cur_chunk_idx_to_compress) < s.(pln).(chunk_bound) c.(cur_layer_idx_to_compress)) ∧
  0 <= c.(cur_layer_idx_to_store) < s.(num_layers) ∧
  s.(pln).(chunk_bound) c.(cur_layer_idx_to_store) - 1 <= c.(cur_chunk_idx_to_store) < s.(num_chunks_per_tensor) ∧
  (s.(pln).(chunk_bound) c.(cur_layer_idx_to_store) < s.(num_chunks_per_tensor)
   ∨ c.(cur_layer_idx_to_store) = s.(num_layers) - 1).
Proof.
  intros [Hl _ [Hc Hs Hf] _] Hfe.
  destruct (ladder_ccur s Hl) as (HcL & HcC & HcC'). destruct (ladder_scur s Hl) as (HsL & HsC & HsC').
  specialize (HsC' Hs). rewrite (proj2 (Z.ltb_ge _ _) Hc) in HcC'. split.
  - destruct (fe_ccur _ _ _ Hfe) as [[= -> ->]|Hin]; [lia|].
    unfold to_decompress in Hin. apply elem_of_above_comp in Hin; [|lia|lia]. cbn in Hin. lia.
  - destruct (fe_scur _ _ _ Hfe) as [[= -> ->]|Hin]; [lia|].
    unfold to_load in Hin. apply elem_of_above_store in Hin; [|lia|lia]. cbn in Hin. lia.
Qed.

(** All states are raw where the cursors have passed nothing, and the remaining
    work of the ladder is all of it. *)
Lemma fetched_ladder s c d : swapped_out s → fetched s c d →
  let s' := set_dsk (set_cur s c) d in
  (∀ p, in_range s p → expected_state s.(pln).(chunk_bound) c p = Raw) ∧
  comp_rem s' = s.(pln).(max_comp_chunks) ∧ store_rem s' = s.(pln).(max_store_chunks).
Proof.
  intros Hso Hf. destruct (fetched_cursors s c d Hso Hf) as ([HcL HcC] & HsL & HsC & _).
  pose proof Hso as [Hl _ _ _]. pose proof (ladder_bounds s Hl) as Hb.
  pose proof (fe_decomp _ _ _ Hf) as Hd. pose proof (fe_load _ _ _ Hf) as Hs.
  unfold to_decompress in Hd. unfold to_load in Hs. cbn in Hd, Hs. split; [|split].
  - intros p [Hp1 Hp2]. specialize (Hb p.1 Hp1). rewrite expected_state_passed.
    destruct (Z.ltb_spec p.2 (chunk_bound (pln s) p.1)); destruct (passed _ _ p) eqn:Hpa; try done; exfalso.
    + apply (not_elem_of_nil p). rewrite <- Hd. apply elem_of_above_comp; [lia|lia|]. left. split; [done|]. split; [lia|done].
    + apply (not_elem_of_nil p). rewrite <- Hs. apply elem_of_above_store; [lia|lia|]. left. split; [done|]. split; [lia|done].
  - pose proof (length_above_comp s.(pln).(chunk_bound) s.(num_layers) c.(cur_layer_idx_to_compress)
                  c.(cur_chunk_idx_to_compress) HcL (proj2 HcC) (λ i Hi, proj1 (Hb i Hi))) as H.
    rewrite Hd in H. cbn [length] in H. unfold comp_rem. cbn. rewrite (lo_maxc _ Hl). lia.
  - pose proof (length_above_store s.(pln).(chunk_bound) s.(num_chunks_per_tensor) s.(num_layers)
                  c.(cur_layer_idx_to_store) c.(cur_chunk_idx_to_store) HsL (proj2 HsC)
                  (λ i Hi, proj2 (Hb i Hi))) as H.
    rewrite Hs in H. cbn [length] in H. unfold store_rem. cbn.
    rewrite (proj2 (Z.ltb_ge _ _)), (lo_maxs _ Hl) by lia. lia.
Qed.

(** The invariants of the finished state. *)
Lemma finished_ok s2 c d s5 : swapped_out s2 → fetched s2 c d → same_cfg s2 s5 → s5.(cur) = c →
  all_back s5 → (∀ L, s5.(dsk).(layer_fds) L = FdClosed) →
  s5.(cnt).(n_cur_comp_chunks) = 0 → s5.(cnt).(n_cur_store_chunks) = 0 →
  swapped_out s5 ∧ comp_rem s5 = s5.(pln).(max_comp_chunks) ∧ store_rem s5 = s5.(pln).(max_store_chunks).
Proof.
  intros Hso Hf (f1 & f2 & f3 & f4 & f5 & f6 & f7) Hcur Hab Hfd Hc0 Hs0.
  destruct (fetched_cursors s2 c d Hso Hf) as ([HcL HcC] & HsL & HsC & Hfull).
  destruct (fetched_ladder s2 c d Hso Hf) as (Hst & Hcr & Hsr).
  pose proof Hso as [Hl Hm _ _].
  assert (Hcr5 : comp_rem s5 = s5.(pln).(max_comp_chunks)).
  { rewrite f7, <- Hcr. unfold comp_rem. cbn. by rewrite f7, Hcur. }
  assert (Hsr5 : store_rem s5 = s5.(pln).(max_store_chunks)).
  { rewrite f7, <- Hsr. unfold store_rem. cbn. by rewrite f7, f3, Hcur. }
  assert (Hir : ∀ p, in_range s5 p → in_range s2 p) by (intros p; unfold in_range; by rewrite f1, f3).
  split; [|done]. split; [| | |done].
  - destruct Hl as [l1 l2 l3 l4 l5 l6 l7 l8 l9 l10 l11 l12 l13 l14].
    split; rewrite ?f1, ?f3, ?f7, ?Hcur, ?Hc0, ?Hs0, <- ?f7, ?Hcr5, ?Hsr5, ?f7; try done; try lia.
    + destruct (Z.ltb_spec (cur_layer_idx_to_compress c) 0); lia.
    + intros p Hp. rewrite (Hst p (Hir p Hp)). by apply (ab_raw _ Hab).
  - split; rewrite ?f2, ?f5; try apply Hm; try (rewrite <- ?f5; apply Hab).
    + intros p Hp. unfold chunk_ok. rewrite (ab_raw _ Hab p Hp). apply (ab_live _ Hab p Hp).
    + intros p q b' Hp Hq Hne _ _. by apply (ab_sep _ Hab).
    + intros L. left. apply Hfd.
  - split; rewrite ?f1, ?f3, ?f7, ?Hcur; try lia.
Qed.

(** The state of the workers when there is nothing left to do. *)
Lemma done_finish s wt wt' w3 acts st : started s wt wt' w3 acts → sys_inv w3.(kv) st → sys_done st →
  s.(cnt).(n_cur_arena_offload_bytes) = 0 →
  let w' := st.(s_world) in
  let s5 := (finish_swapin_cycle s.(cnt).(n_cur_comp_chunks) s.(cnt).(n_cur_store_chunks) w'.(kv) wt').1 in
  swapped_out s5 ∧ clean_ladder s5 = true ∧
  (∀ p, in_range s p → s5.(tab).(states) p = Raw ∧ view s5 p = view s p) ∧
  (∀ L, 0 <= L < s.(num_layers) → w'.(weight_loaded) L = true) ∧
  comp_rem s5 = s5.(pln).(max_comp_chunks) ∧ store_rem s5 = s5.(pln).(max_store_chunks) ∧
  s5.(next_layer_to_offload) = s5.(num_layers) - 1 ∧ same_cfg s s5.
Proof.
  intros [_ Hv (s2 & c & d & cl & Hso & Hsim & Hf & Hnx & Hby & Hkv) _] Hi Hdone Hoff w' s5.
  pose proof (si_world _ _ Hi) as Hw. rewrite (done_no_tasks _ (si_pool _ _ Hi) Hdone) in Hw.
  destruct Hw as [_ _ Hch _ _ Hwt]. fold w' in Hch, Hwt. set (s4 := kv w') in *.
  pose proof (sim_strip _ _ Hsim) as Hst. unfold strip in Hst. injection Hst as e1 e2' e3 e4' e5' e6' e7'. cbn in e1, e3.
  pose proof (all_back_intro _ _ Hch) as Hab.
  destruct (ci_cfg _ _ _ Hch) as (Hcf & Hcu & Hcn & Hds & Hnl & _). rewrite Hkv in Hcf, Hcu, Hcn, Hds, Hnl.
  cbn in Hcu, Hcn, Hds, Hnl. change (same_cfg s2 s4) in Hcf.
  assert (Hcnt : s4.(cnt).(n_cur_comp_chunks) = s.(cnt).(n_cur_comp_chunks) ∧
                 s4.(cnt).(n_cur_store_chunks) = s.(cnt).(n_cur_store_chunks)).
  { rewrite Hcn. pose proof (sim_strip _ _ Hsim) as Hst2. unfold strip in Hst2. by injection Hst2. }
  destruct Hcnt as [Hc4 Hs4].
  assert (Hpos : 0 <= s.(cnt).(n_cur_comp_chunks) ∧ 0 <= s.(cnt).(n_cur_store_chunks)).
  { rewrite <- Hc4, <- Hs4, Hcn, <- (length_to_decompress s2 (so_ladder _ Hso) (so_tidy _ Hso)),
      <- (length_to_load s2 (so_ladder _ Hso) (so_tidy _ Hso)). lia. }
  pose proof (finish_fields _ _ s4 wt' Hab (eq_sym Hc4) (eq_sym Hs4) (proj1 Hpos) (proj2 Hpos)) as HF.
  cbv zeta in HF. change (finish_swapin_cycle _ _ s4 wt').1 with s5 in HF.
  destruct HF as (Hcf5 & Hcu5 & Htab & (ar & Hmem & Har) & _ & _ & Hfd & Hn1 & Hn2 & Hn3).
  assert (Hnl5 : s5.(next_layer_to_offload) = s4.(next_layer_to_offload)).
  { unfold s5, finish_swapin_cycle, clean_after_read, clean_after_decompress.
    destruct (_ <=? 0); [done|]. by destruct (_ <? _). }
  clearbody s5. pose proof (same_cfg_trans _ _ _ Hcf Hcf5) as Hcf'.
  assert (Hir : ∀ p, in_range s5 p ↔ in_range s p).
  { intros p. unfold in_range. destruct Hcf' as (-> & _ & -> & _). by rewrite e1, e3. }
  assert (Hir4 : ∀ p, in_range s5 p → in_range s4 p).
  { intros p. unfold in_range. destruct Hcf5 as (-> & _ & -> & _). done. }
  assert (Hrcb : raw_chunk_bytes s5 = raw_chunk_bytes s4).
  { unfold raw_chunk_bytes. by destruct Hcf5 as (_ & -> & _). }
  assert (Hab5 : all_back s5).
  { destruct Hab as [a1 a2 a3 a4 a5]. split; rewrite ?Htab, ?Hmem, ?Hrcb; cbn.
    - auto.
    - auto.
    - intros p q b Hp Hq. apply (a3 p q b); auto.
    - exact a4.
    - intros L. destruct Hcf5 as (_ & _ & _ & _ & -> & _). destruct (Har L) as [-> | ->]; [apply a5|constructor]. }
  destruct (finished_ok s2 c d s5 Hso Hf Hcf') as (Hso5 & Hr1 & Hr2); try done.
  { by rewrite Hcu5. }
  { intros L. rewrite Hfd. cbn. destruct (Z.leb_spec 0 L), (Z.ltb_spec L (num_layers s4)); cbn [andb]; try done;
      (rewrite Hds, (fe_out _ _ _ Hf); [apply (so_closed _ Hso)|]; destruct Hcf as (<- & _); lia). }
  split; [done|]. split; [|split; [|split; [|split; [done|split; [done|split]]]]].
  - unfold clean_ladder. rewrite Hn1, Hn2, Hn3, Hcn, Hby by done. done.
  - intros p Hp%Hir. pose proof (ab_raw _ Hab5 p Hp) as Hr5. split; [done|].
    etrans; [|apply Hv, Hir, Hp]. etrans; [|apply (ci_data _ _ _ Hch p (Hir4 p Hp))].
    unfold view. rewrite Hr5. fold s4. rewrite (ab_raw _ Hab p (Hir4 p Hp)). by rewrite Hrcb, Hmem.
  - intros L HL. apply (wi_loaded _ _ _ Hwt); [|apply not_elem_of_nil].
    destruct Hcf as [Hcf _]. unfold s4 in Hcf. lia.
  - destruct Hcf' as (-> & _). by rewrite Hnl5, Hnl, Hnx, e1.
  - unfold same_cfg in *. cbn in *. intuition congruence.
Qed.

Hypothesis Henv : env_good.

Lemma swapin_complete_run (v : swapin_variant) (b : backend) (soc : SocClass)
    (s : kv_state) (wt : mzcache_weight) (w : world) :
  swapin_ready s wt w → s.(cnt).(n_cur_arena_offload_bytes) = 0 →
  ∃ w3 wt' acts, swapin_generate v wt w
      = Ok (w3, wt', acts, s.(cnt).(n_cur_comp_chunks), s.(cnt).(n_cur_store_chunks)) ∧
    ∀ st, rtc sys_step (Sys acts w3 (make_pool (default_core_configs b soc))) st → sys_done st →
      let w' := st.(s_world) in
      let '(s5, wt5) := finish_swapin_cycle s.(cnt).(n_cur_comp_chunks) s.(cnt).(n_cur_store_chunks)
                          w'.(kv) wt' in
      swapped_out s5 ∧ clean_ladder s5 = true ∧
      (∀ p, in_range s p → s5.(tab).(states) p = Raw ∧ view s5 p = view s p) ∧
      (∀ L, 0 <= L < s.(num_layers) → w'.(weight_loaded) L = true) ∧
      comp_rem s5 = s5.(pln).(max_comp_chunks) ∧ store_rem s5 = s5.(pln).(max_store_chunks) ∧
      s5.(next_layer_to_offload) = s5.(num_layers) - 1 ∧ same_cfg s s5 ∧
      wt5 = new_weight s.(num_layers).
Proof.
  intros Hr Hoff. destruct (swapin_generate_spec Henv v s wt w Hr) as (w3 & wt' & acts & Hrun & Hst & _).
  exists w3, wt', acts. split; [done|]. intros st Hs Hdone w'.
  destruct (default_pool_good b soc) as [Hp Hpt].
  pose proof (sys_steps_inv (eg_alloc Henv) (eg_read Henv) (eg_w_open Henv) (eg_w_alloc Henv)
                (eg_w_aligned Henv) (eg_w_read Henv) _ _ _ (st_inv _ _ _ _ _ Hst _ Hp Hpt) Hs) as Hi.
  pose proof (done_finish s wt wt' w3 acts st Hst Hi Hdone Hoff) as H. cbv zeta in H. fold w' in H.
  destruct (finish_swapin_cycle _ _ _ _) as [s5 wt5] eqn:Hfin. injection Hfin as _ <-. cbn [fst] in H.
  destruct H as (H1 & H2 & H3 & H4 & H5 & H6 & H7 & H8). rewrite (st_weight _ _ _ _ _ Hst).
  do 8 (split; [done|]). unfold new_weight. cbn. by rewrite (sr_layers _ _ _ Hr).
Qed.

(** C3: A completed swap-in brings everything back: once the main thread has done
    its actions and the pool is idle, [finish_swapin_cycle] leaves every chunk raw
    in live, disjoint memory with exactly the content it had in the swapped-out
    state, every layer's weights loaded, all files closed, cursors and counters of
    the ladder and of the weights reset (so pending growth may be registered), and
    a state that satisfies every invariant the next swap-out needs. *)
Theorem swapin_complete (v : swapin_variant) (b : backend) (soc : SocClass)
    (s : kv_state) (wt : mzcache_weight) (w : world) :
  swapin_ready s wt w → s.(cnt).(n_cur_arena_offload_bytes) = 0 →
  ∃ w3 wt' acts, swapin_generate v wt w
      = Ok (w3, wt', acts, s.(cnt).(n_cur_comp_chunks), s.(cnt).(n_cur_store_chunks)) ∧
    ∀ st, rtc sys_step (Sys acts w3 (make_pool (default_core_configs b soc))) st → sys_done st →
      let w' := st.(s_world) in
      let '(s5, wt5) := finish_swapin_cycle s.(cnt).(n_cur_comp_chunks) s.(cnt).(n_cur_store_chunks)
                          w'.(kv) wt' in
      swapped_out s5 ∧ clean_ladder s5 = true ∧
      (∀ p, in_range s p → s5.(tab).(states) p = Raw ∧ view s5 p = view s p) ∧
      (∀ L, 0 <= L < s.(num_layers) → w'.(weight_loaded) L = true) ∧
      comp_rem s5 = s5.(pln).(max_comp_chunks) ∧ store_rem s5 = s5.(pln).(max_store_chunks) ∧
      s5.(next_layer_to_offload) = s5.(num_layers) - 1 ∧ same_cfg s s5 ∧
      wt5 = new_weight s.(num_layers).
Proof. apply swapin_complete_run. Qed.
End fin.
