(* ===== verification/Swapout.v ===== *)
(** Swap-out orchestration: [mzcache_core] of [mzcache/src/mzcache_core.cpp] -
    [swapout] with its three phases, and growth.

    [decomp_load_ratio] of the core is the field of that name of [kv_state]. *)
From S2P Require Import Prelude Floats Profile KvTypes KvPlan KvLadder KvGrow KvOffload.
From S2P Require Import KvSwapIn Weight.

(** ** Loops with a break and an early return *)
Inductive flow (S : Type) : Type := Go (s : S) | Leave (s : S) | Return (s : S).
Arguments Go {S} s.
Arguments Leave {S} s.
Arguments Return {S} s.

(** [while (true) body]; the flag tells an early return from a break, [None]
    that [fuel] iterations were not enough. *)
Fixpoint while_loop {S} (fuel : nat) (body : S → outcome (flow S)) (s : S)
    : outcome (option (bool * S)) :=
  match fuel with
  | O => Ok None
  | S fuel => r <~ body s ;;
      match r with
      | Go s' => while_loop fuel body s'
      | Leave s' => Ok (Some (false, s'))
      | Return s' => Ok (Some (true, s'))
      end
  end.

(** [for (i = n; i > 0; i--) body]. *)
Fixpoint for_flow {S} (n : nat) (body : S → outcome (flow S)) (s : S) : outcome (bool * S) :=
  match n with
  | O => Ok (false, s)
  | S n => r <~ body s ;;
      match r with
      | Go s' => for_flow n body s'
      | Leave s' => Ok (false, s')
      | Return s' => Ok (true, s')
      end
  end.

(** ** The core *)
Record mzcache_core := Core {
  core_layers : Z;
  core_chunks : Z;              (* num_chunks_per_tensor *)
  weight_layer_bytes : Z;
  full_bytes : Z;
  ckv : kv_state;
  cwt : mzcache_weight }.

Definition with_kv (c : mzcache_core) (s : kv_state) : mzcache_core :=
  Core c.(core_layers) c.(core_chunks) c.(weight_layer_bytes) c.(full_bytes) s c.(cwt).
Definition with_weight (c : mzcache_core) (w : mzcache_weight) : mzcache_core :=
  Core c.(core_layers) c.(core_chunks) c.(weight_layer_bytes) c.(full_bytes) c.(ckv) w.

(** K and V of one chunk. *)
Definition kv_chunk_bytes (s : kv_state) : Z := TOKENS_PER_CHUNK * s.(kv_hidden_dim) * sizeof_fp16 * 2.

Definition compute_full_bytes (wlb layers chunks : Z) (s : kv_state) : Z :=
  wlb * layers + kv_chunk_bytes s * chunks * layers.

(** Following the KV state's (possibly deferred) chunk count. *)
Definition sync_chunks (c : mzcache_core) : mzcache_core :=
  let n := c.(ckv).(num_chunks_per_tensor) in
  if n =? c.(core_chunks) then c
  else Core c.(core_layers) n c.(weight_layer_bytes)
         (compute_full_bytes c.(weight_layer_bytes) c.(core_layers) n c.(ckv)) c.(ckv) c.(cwt).

Definition on_kv_chunks_grown (n_chunks_total : Z) (c : mzcache_core) : outcome mzcache_core :=
  s <~ register_grown_chunks n_chunks_total c.(ckv) ;; Ok (sync_chunks (with_kv c s)).

(** [1.0f - (double)freed / (double)full], narrowed to [float]. *)
Definition resident_ratio (freed full : Z) : float :=
  to_f32 (f64_sub (f64_of_Z 1) (f64_div (f64_of_Z freed) (f64_of_Z full))).

(** ** Distributing chunks between the two regions *)

(** The lambda [allocate_chunks] of [swapout_impl]. *)
Definition allocate_chunks (max_comp max_store n_comp n_store requested : Z) (r : float)
    : option (Z * Z) :=
  match scale requested r with
  | None => None
  | Some want_comp =>
      let want_store := requested - want_comp in
      let comp_room := Z.max 0 (max_comp - n_comp) in
      let store_room := Z.max 0 (max_store - n_store) in
      let add_comp := Z.min want_comp comp_room in
      let add_store := Z.min want_store store_room in
      let shortage := requested - (add_comp + add_store) in
      if 0 <? shortage then
        let current_comp_room := Z.max 0 (max_comp - (n_comp + add_comp)) in
        let current_store_room := Z.max 0 (max_store - (n_store + add_store)) in
        let '(add_store', shortage') :=
          if (add_comp <? want_comp) && (0 <? current_store_room)
          then let compensate := Z.min shortage (Z.min (want_comp - add_comp) current_store_room) in
               (add_store + compensate, shortage - compensate)
          else (add_store, shortage) in
        let add_comp' :=
          if (0 <? shortage') && (add_store' <? want_store) && (0 <? current_comp_room)
          then add_comp + Z.min shortage' (Z.min (want_store - add_store') current_comp_room)
          else add_comp in
        Some (add_comp', add_store')
      else Some (add_comp, add_store)
  end.

(** The one of [mzcache_profile_chunks_layers]. *)
Definition allocate_chunks_profile (max_comp max_store n_comp n_store requested : Z) (r : float)
    : option (Z * Z) :=
  match scale requested r with
  | None => None
  | Some want_comp =>
      let want_store := requested - want_comp in
      let comp_room := Z.max 0 (max_comp - n_comp) in
      let store_room := Z.max 0 (max_store - n_store) in
      let add_comp := Z.min want_comp comp_room in
      let add_store := Z.min want_store store_room in
      let shortage := requested - (add_comp + add_store) in
      if 0 <? shortage then
        if (add_comp <? want_comp) && (add_store <? store_room) then
          Some (add_comp, add_store + Z.min shortage (store_room - add_store))
        else if (add_store <? want_store) && (add_comp <? comp_room) then
          Some (add_comp + Z.min shortage (comp_room - add_comp), add_store)
        else Some (add_comp, add_store)
      else Some (add_comp, add_store)
  end.

(** ** [swapout] *)
Section swapout.
Context `{Cd : Codec} `{Ev : Env} `{Sw : SwapEnv} `{We : WeightEnv}.

Definition current_freed (c : mzcache_core) : Z :=
  let k := c.(ckv).(cnt) in
  k.(n_cur_comp_saved_bytes) + k.(n_cur_arena_offload_bytes)
  + k.(n_cur_store_chunks) * kv_chunk_bytes c.(ckv)
  + c.(cwt).(n_cur_unload_layers) * c.(weight_layer_bytes).

Definition cur_ratio (c : mzcache_core) : float := resident_ratio (current_freed c) c.(full_bytes).

(** The lambda [check_target]. *)
Definition check_target (target_ratio : float) (c : mzcache_core) : bool :=
  SFleb (cur_ratio c) target_ratio.

Definition total_chunks (c : mzcache_core) : Z := c.(core_chunks) * c.(core_layers).
Definition balance_total (c : mzcache_core) : Z := c.(ckv).(per_layer_balance) * c.(core_layers).
Definition bound_chunks (c : mzcache_core) : Z := total_chunks c - balance_total c.
Definition processed_chunks (c : mzcache_core) : Z :=
  c.(ckv).(cnt).(n_cur_comp_chunks) + c.(ckv).(cnt).(n_cur_store_chunks).

(** [if (n > 0) f(n)] on the KV state. *)
Definition when_pos (n : Z) (f : Z → kv_state → outcome kv_state) (s : kv_state) : outcome kv_state :=
  if 0 <? n then f n s else Ok s.

(** Phase 1: up to the boundary, 20 chunks at a time. *)
Definition phase1_body (target : float) (c : mzcache_core) : outcome (flow mzcache_core) :=
  if processed_chunks c <? bound_chunks c then
    let to_process := Z.min 20 (total_chunks c - processed_chunks c) in
    let s := c.(ckv) in
    match allocate_chunks (s.(pln).(max_comp_chunks) - balance_total c) s.(pln).(max_store_chunks)
            s.(cnt).(n_cur_comp_chunks) s.(cnt).(n_cur_store_chunks) to_process s.(decomp_load_ratio) with
    | None => Ub
    | Some (add_comp, add_store) =>
        s1 <~ when_pos add_comp mzcache_compress_chunks s ;;
        s2 <~ when_pos add_store mzcache_store_chunks s1 ;;
        let c2 := with_kv c s2 in
        if check_target target c2 then Ok (Return (with_kv c (mzcache_close_stored_files s2)))
        else if add_comp + add_store =? 0 then Ok (Leave c2) else Ok (Go c2)
    end
  else Ok (Leave c).

(** Phase 2: unload a layer's weights while compressing its balance chunks. *)
Definition phase2_body (target : float) (c : mzcache_core) : outcome (flow mzcache_core) :=
  let to_process := Z.min c.(ckv).(per_layer_balance) (total_chunks c - processed_chunks c) in
  s1 <~ when_pos to_process mzcache_compress_chunks c.(ckv) ;;
  let '(w1, ok) := mzcache_unload_layers 1 c.(cwt) in
  let c1 := with_weight (with_kv c s1) w1 in
  if negb ok then Ok (Leave c1)
  else if check_target target c1 then Ok (Return c1)
  else if (w1.(n_cur_unload_layers) =? c.(core_layers)) && (processed_chunks c1 =? total_chunks c1)
  then Ok (Leave c1) else Ok (Go c1).

(** Phase 3: offload the arenas layer by layer. *)
Definition phase3_body (target : float) (c : mzcache_core) : outcome (flow mzcache_core) :=
  if 0 <=? c.(ckv).(next_layer_to_offload) then
    '(s1, _) <~ mzcache_offload_arenas c.(ckv) ;;
    let c1 := with_kv c s1 in
    if check_target target c1 then Ok (Return c1) else Ok (Go c1)
  else Ok (Leave c).

(** Phases 2 and 3, after the files were closed. *)
Definition swapout_tail (fuel : nat) (target : float) (initial_unload_layers : Z) (c : mzcache_core)
    : outcome (option mzcache_core) :=
  '(ret, c1) <~ for_flow (Z.to_nat (c.(core_layers) - initial_unload_layers)) (phase2_body target) c ;;
  if (ret : bool) then Ok (Some c1)
  else if (total_chunks c1 - processed_chunks c1 =? 0)
          && (c1.(cwt).(n_cur_unload_layers) =? c1.(core_layers)) then
    r <~ while_loop fuel (phase3_body target) c1 ;;
    match r with None => Ok None | Some (_, c2) => Ok (Some c2) end
  else Ok (Some c1).

(** [swapout_impl]; [None]: the loops did not end within [fuel] iterations. *)
Definition swapout_impl (fuel : nat) (target : float) (c : mzcache_core) : outcome (option mzcache_core) :=
  s <~ apply_pending_growth c.(ckv) ;;
  let c0 := sync_chunks (with_kv c s) in
  let initial_unload_layers := c0.(cwt).(n_cur_unload_layers) in
  if check_target target c0 then Ok (Some c0)
  else
    r <~ while_loop fuel (phase1_body target) c0 ;;
    match r with
    | None => Ok None
    | Some (true, c1) => Ok (Some c1)
    | Some (false, c1) =>
        swapout_tail fuel target initial_unload_layers (with_kv c1 (mzcache_close_stored_files c1.(ckv)))
    end.

(** The tuple returned: the ratio and what this call added. *)
Definition swapout_result (c c' : mzcache_core) : float * Z * Z * Z :=
  (cur_ratio c',
   c'.(ckv).(cnt).(n_cur_comp_chunks) - c.(ckv).(cnt).(n_cur_comp_chunks),
   c'.(ckv).(cnt).(n_cur_store_chunks) - c.(ckv).(cnt).(n_cur_store_chunks),
   c'.(cwt).(n_cur_unload_layers) - c.(cwt).(n_cur_unload_layers)).

(** [swapout]: the arenas are locked afterwards. *)
Definition swapout (fuel : nat) (target : float) (c : mzcache_core)
    : outcome (option (mzcache_core * (float * Z * Z * Z))) :=
  r <~ swapout_impl fuel target c ;;
  match r with
  | None => Ok None
  | Some c' => Ok (Some (with_kv c' (mlock_resident_arenas c'.(ckv)), swapout_result c c'))
  end.
End swapout.
