(* ===== verification/SwapoutThms.v ===== *)
(** What [swapout] does to the cache: the invariants it keeps, the content it
    keeps or compresses, when it reaches its target and when it ends. *)
From Stdlib Require Import Sorting.Sorted.
From S2P Require Import Prelude Floats Profile KvTypes KvPlan KvLadder KvInv KvFrame KvSwapOut.
From S2P Require Import KvSwapOutThms KvGrow KvOffload KvOffloadThms KvSwapIn Weight Swapout.

(** ** [allocate_chunks] *)

(** The share of the compressor behaves as one for the steps of phase 1. *)
Definition step_ratio_ok (r : float) : bool :=
  forallb (λ n, match scale n r with Some d => (0 <=? d) && (d <=? n) | None => false end) (seqZ 0 21).

Lemma step_ratio_elim r n : step_ratio_ok r = true → 0 <= n <= 20 →
  ∃ d, scale n r = Some d ∧ 0 <= d <= n.
Proof.
  intros H Hn. unfold step_ratio_ok in H. rewrite forallb_forall in H.
  specialize (H n). rewrite <- list_elem_of_In, elem_of_seqZ in H. specialize (H ltac:(lia)).
  destruct (scale n r) as [d|]; [|done]. exists d. split; [done|]. propify. lia.
Qed.

(** Both versions hand out as much as is asked for and fits, never more than
    either region has room for - and the same amounts. *)
Lemma allocate_chunks_agree mc ms nc ns n r d : scale n r = Some d → 0 <= d <= n →
  let cr := Z.max 0 (mc - nc) in
  let sr := Z.max 0 (ms - ns) in
  ∃ ac ass, allocate_chunks mc ms nc ns n r = Some (ac, ass) ∧
    allocate_chunks_profile mc ms nc ns n r = Some (ac, ass) ∧
    0 <= ac <= cr ∧ 0 <= ass <= sr ∧ ac + ass = Z.min n (cr + sr).
Proof.
  intros Hs Hd cr sr. unfold allocate_chunks, allocate_chunks_profile. rewrite Hs.
  cbv zeta. fold cr sr. set (ac := Z.min d cr). set (ass := Z.min (n - d) sr).
  replace (Z.max 0 (mc - (nc + ac))) with (cr - ac) by lia.
  replace (Z.max 0 (ms - (ns + ass))) with (sr - ass) by lia.
  assert (Hac : (ac = d ∧ d <= cr) ∨ (ac = cr ∧ cr < d)) by lia.
  assert (Has : (ass = n - d ∧ n - d <= sr) ∨ (ass = sr ∧ sr < n - d)) by lia.
  assert (0 <= cr ∧ 0 <= sr) as [? ?] by lia. clearbody ac ass cr sr. clear Hs.
  destruct Hac as [[-> ?]|[-> ?]], Has as [[-> ?]|[-> ?]];
    repeat (match goal with |- context [?a <? ?b] => destruct (Z.ltb_spec a b) end;
            cbn [andb]; try lia);
    eexists _, _; (split; [reflexivity|]); (split; [do 2 f_equal; lia|lia]).
Qed.

(** ** Steps of the ladder, composed *)
Section moves.
Context `{Cd : Codec} `{Ev : Env} {CL : CodecLaws Cd}.

Record swap_inv (s : kv_state) : Prop := SwapInv {
  si_ladder : ladder_ok s;
  si_mem : mem_ok s;
  si_tidy : tidy s }.

(** Content after some compress and store steps: a chunk is as it was, or it
    was raw and is now stored with its content, or compressed with what the
    codec makes of it. *)
Definition content (s0 s : kv_state) (q : pos) : Prop :=
  (s.(tab).(states) q = s0.(tab).(states) q ∧ view s q = view s0 q) ∨
  (s0.(tab).(states) q = Raw ∧ s.(tab).(states) q = Stored ∧ view s q = view s0 q) ∨
  (s0.(tab).(states) q = Raw ∧ s.(tab).(states) q = Compressed ∧
   view s q = lossy_view s0.(kv_hidden_dim) (view s0 q)).

Lemma content_trans s1 s2 s3 q : s2.(kv_hidden_dim) = s1.(kv_hidden_dim) →
  content s1 s2 q → content s2 s3 q → content s1 s3 q.
Proof.
  unfold content. intros Hh v1 v2. rewrite Hh in v2.
  destruct v1 as [(A1 & A2)|[(A1 & A2 & A3)|(A1 & A2 & A3)]],
    v2 as [(B1 & B2)|[(B1 & B2 & B3)|(B1 & B2 & B3)]]; try congruence; rewrite ?A2, ?A3 in *; auto 8;
    first [left; split; congruence | right; left; split_and!; congruence
          | right; right; split_and!; congruence].
Qed.

(** What any number of compress and store steps makes of a cache. *)
Record moved (s0 s : kv_state) : Prop := Moved {
  mv_cfg : same_cfg s0 s;
  mv_rest : same_rest s0 s;
  mv_out : ∀ i, ¬ (0 <= i < s0.(num_layers)) →
    s.(dsk).(layer_fds) i = s0.(dsk).(layer_fds) i ∨ s.(dsk).(layer_fds) i = FdClosed;
  mv_view : ∀ q, in_range s0 q → content s0 s q }.

Lemma moved_refl s : moved s s.
Proof. split; try done; [by left|]. intros q _. by left. Qed.

Lemma in_range_cfg s s' q : same_cfg s s' → in_range s' q ↔ in_range s q.
Proof. intros (H1 & _ & H3 & _). unfold in_range. by rewrite H1, H3. Qed.

Lemma moved_trans s1 s2 s3 : moved s1 s2 → moved s2 s3 → moved s1 s3.
Proof.
  intros [c1 r1 o1 v1] [c2 r2 o2 v2]. pose proof c1 as (HL & Hh & _). split.
  - by eapply same_cfg_trans.
  - by eapply same_rest_trans.
  - intros i Hi. destruct (o2 i) as [->| ->]; [by rewrite HL|by apply o1|by right].
  - intros q Hq. eapply content_trans; [done|by apply v1|apply v2, (in_range_cfg _ _ _ c1), Hq].
Qed.

Lemma comp_moved s0 s : comp_progress s0 s → moved s0 s.
Proof.
  intros [Hc Hr Hd _ Hv]. split; try done; [intros i _; left; by rewrite Hd|].
  intros q Hq. unfold content. destruct (Hv q Hq) as [?|(? & ? & _ & _ & ?)]; auto.
Qed.

Lemma store_moved s0 s : store_progress s0 s → moved s0 s.
Proof.
  intros [Hc Hr Ho _ Hv]. split; try done.
  intros q Hq. unfold content. destruct (Hv q Hq) as [? [?|(? & ? & _)]]; auto.
Qed.

(** The two accounts of what is left are independent. *)
Lemma comp_progress_store_rem s0 s : comp_progress s0 s → store_rem s = store_rem s0.
Proof.
  intros [(_ & _ & A3 & _ & _ & _ & A7) _ _ (B1 & B2 & _) _].
  unfold store_rem. by rewrite A3, A7, B1, B2.
Qed.
Lemma store_progress_comp_rem s0 s : store_progress s0 s → comp_rem s = comp_rem s0.
Proof.
  intros [(_ & _ & A3 & _ & _ & _ & A7) _ _ (B1 & B2 & _) _].
  unfold comp_rem. by rewrite A7, B1, B2.
Qed.

(** [if (n > 0) compress(n)] within what is left. *)
Lemma when_compress n s : 0 <= n <= comp_rem s → swap_inv s →
  ∃ s', when_pos n mzcache_compress_chunks s = Ok s' ∧ swap_inv s' ∧ moved s s' ∧
    comp_rem s' = comp_rem s - n ∧ store_rem s' = store_rem s ∧
    s'.(dsk).(layer_fds) = s.(dsk).(layer_fds).
Proof.
  intros Hn [Hl Hm Ht]. unfold when_pos. destruct (Z.ltb_spec 0 n).
  - destruct (compress_chunks_run n s ltac:(lia) Hl Hm) as (s' & Hrun & Hl' & Hm' & _ & Hr & Hp).
    destruct (compress_chunks_tidy n s Hn Hl Hm Ht) as (s'' & Hrun' & Ht').
    assert (s'' = s') as -> by congruence. exists s'. split; [done|]. split; [done|].
    split; [by apply comp_moved|]. split; [lia|]. split; [by apply comp_progress_store_rem|].
    by rewrite (cp_dsk _ _ Hp).
  - exists s. split; [done|]. split; [done|]. split; [apply moved_refl|].
    split; [lia|done].
Qed.

Hypothesis Hopen : ∀ L, open_ok L = true.
Hypothesis Hpwrite : ∀ p, pwrite_ok p = true.

Lemma when_store n s : 0 <= n <= store_rem s → swap_inv s →
  ∃ s', when_pos n mzcache_store_chunks s = Ok s' ∧ swap_inv s' ∧ moved s s' ∧
    store_rem s' = store_rem s - n ∧ comp_rem s' = comp_rem s.
Proof.
  intros Hn [Hl Hm Ht]. unfold when_pos. destruct (Z.ltb_spec 0 n).
  - destruct (store_chunks_run Hopen Hpwrite n s ltac:(lia) Hl Hm) as (s' & Hrun & Hl' & Hm' & _ & Hr & Hp).
    destruct (store_chunks_tidy Hopen Hpwrite n s Hn Hl Hm Ht) as (s'' & Hrun' & Ht').
    assert (s'' = s') as -> by congruence. exists s'. split; [done|]. split; [done|].
    split; [by apply store_moved|]. split; [lia|]. by apply store_progress_comp_rem.
  - exists s. split; [done|]. split; [done|]. split; [apply moved_refl|]. split; [lia|done].
Qed.

(** Closing the files. *)
Lemma close_files s : swap_inv s →
  let s' := mzcache_close_stored_files s in
  swap_inv s' ∧ moved s s' ∧ comp_rem s' = comp_rem s ∧ store_rem s' = store_rem s ∧
  s'.(cnt) = s.(cnt) ∧ ∀ i, 0 <= i < s.(num_layers) → s'.(dsk).(layer_fds) i = FdClosed.
Proof.
  intros [Hl Hm Ht] s'. destruct (mem_ok_set_dsk s s'.(dsk)) as [Hm' Hv]; [done| |done|].
  { intros L. cbn. destruct (_ && _); [by left|]. apply (mo_fds _ Hm). }
  split; [split; [by apply ladder_set_dsk|exact Hm'|by destruct Ht]|]. split.
  - split; try done.
    + intros i Hi. cbn. destruct (_ && _); auto.
    + intros q Hq. left. split; [done|]. by apply Hv.
  - repeat split; try done. intros i Hi. cbn.
    by rewrite (proj2 (Z.leb_le 0 i)), (proj2 (Z.ltb_lt i _)) by lia.
Qed.
End moves.

(** ** Phase 1 *)

(** How far the swap-out has come: [u] layers of weights are unloaded.  Either
    the balance chunks are untouched and no layer is unloaded, or everything
    else is done and enough layers are left to compress them along the way. *)
Record staged (s : kv_state) (u : Z) : Prop := Staged {
  sg_balance : 0 <= s.(per_layer_balance);
  sg_plan : Z.min (s.(per_layer_balance) * s.(num_layers)) (s.(num_chunks_per_tensor) * s.(num_layers))
            <= s.(pln).(max_comp_chunks);
  sg_ratio : step_ratio_ok s.(decomp_load_ratio) = true;
  sg_stage : (s.(cnt).(n_cur_comp_chunks) <= s.(pln).(max_comp_chunks) - s.(per_layer_balance) * s.(num_layers)
              ∧ u = 0) ∨
             (store_rem s = 0 ∧ comp_rem s <= s.(per_layer_balance) * (s.(num_layers) - u));
  sg_used : 0 < u → 0 < s.(cnt).(n_cur_comp_chunks) + s.(cnt).(n_cur_store_chunks) }.

(** Phase 1 is over. *)
Definition phase1_over (s : kv_state) (u : Z) : Prop :=
  store_rem s = 0 ∧ comp_rem s <= s.(per_layer_balance) * (s.(num_layers) - u).

Section phases.
Context `{Cd : Codec} `{Ev : Env} {CL : CodecLaws Cd} `{Sw : SwapEnv} `{We : WeightEnv}.

(** Unloading only goes on, and only over layers with a readable dump. *)
Record unloaded_more (w0 w : mzcache_weight) : Prop := UnloadedMore {
  um_ok : weight_ok w;
  um_layers : w.(w_num_layers) = w0.(w_num_layers);
  um_more : w0.(n_cur_unload_layers) <= w.(n_cur_unload_layers);
  um_dump : ∀ L, L ∈ unloaded_layers w → L ∉ unloaded_layers w0 → dump_readable L = true }.

(** The core during [swapout_impl]; it started with cache [s0], weights [w0]. *)
Record core_run (s0 : kv_state) (w0 : mzcache_weight) (c : mzcache_core) : Prop := CoreRun {
  cr_inv : swap_inv c.(ckv);
  cr_moved : moved s0 c.(ckv);
  cr_staged : staged c.(ckv) c.(cwt).(n_cur_unload_layers);
  cr_layers : c.(core_layers) = c.(ckv).(num_layers);
  cr_chunks : c.(core_chunks) = c.(ckv).(num_chunks_per_tensor);
  cr_weight : unloaded_more w0 c.(cwt);
  cr_wlayers : c.(cwt).(w_num_layers) = c.(ckv).(num_layers) }.

Lemma capacity s : ladder_ok s →
  s.(pln).(max_comp_chunks) + s.(pln).(max_store_chunks) = s.(num_chunks_per_tensor) * s.(num_layers).
Proof.
  intros Hl. rewrite (lo_maxc _ Hl), (lo_maxs _ Hl), sum_to_minus, sum_to_const.
  pose proof (lo_L _ Hl). rewrite Z2Nat.id by lia. lia.
Qed.

(** What is left of the plan, in the core's terms. *)
Lemma run_left s0 w0 c : core_run s0 w0 c →
  total_chunks c - processed_chunks c = comp_rem c.(ckv) + store_rem c.(ckv).
Proof.
  intros [[Hl _ _] _ _ HL HN _ _]. unfold total_chunks, processed_chunks.
  rewrite HL, HN, (lo_ncomp _ Hl), (lo_nstore _ Hl). pose proof (capacity _ Hl). lia.
Qed.

Lemma counts_nonneg s : swap_inv s → 0 <= s.(cnt).(n_cur_comp_chunks) ∧ 0 <= s.(cnt).(n_cur_store_chunks).
Proof.
  intros [Hl _ Ht]. rewrite <- (length_to_decompress s Hl Ht), <- (length_to_load s Hl Ht). lia.
Qed.

Lemma staged_over s u : ladder_ok s → staged s u → 0 <= u <= s.(num_layers) →
  s.(num_chunks_per_tensor) * s.(num_layers) - s.(per_layer_balance) * s.(num_layers)
  <= s.(cnt).(n_cur_comp_chunks) + s.(cnt).(n_cur_store_chunks) →
  phase1_over s u.
Proof.
  intros Hl [Hb _ _ Hst] Hu Hge. destruct Hst as [[Hc ->]|Hst]; [|exact Hst].
  pose proof (capacity s Hl). pose proof (lo_ncomp _ Hl). pose proof (lo_nstore _ Hl).
  pose proof (store_rem_nonneg s Hl). split; lia.
Qed.

Lemma run_set s0 w0 c s' : core_run s0 w0 c → swap_inv s' → moved c.(ckv) s' →
  staged s' c.(cwt).(n_cur_unload_layers) → core_run s0 w0 (with_kv c s').
Proof.
  intros [_ Hm _ HL HN Hw HwL] Hi Hm' Hs. pose proof (mv_cfg _ _ Hm') as (E1 & _ & E3 & _).
  split; cbn; rewrite ?E1, ?E3; try done. by eapply moved_trans.
Qed.

Hypothesis Hopen : ∀ L, open_ok L = true.
Hypothesis Hpwrite : ∀ p, pwrite_ok p = true.

(** Both regions shrink by what was handed out; the stage is kept. *)
Lemma staged_step s s' : staged s 0 → moved s s' →
  s.(cnt).(n_cur_comp_chunks) <= s.(pln).(max_comp_chunks) - s.(per_layer_balance) * s.(num_layers) →
  s'.(cnt).(n_cur_comp_chunks) <= s.(pln).(max_comp_chunks) - s.(per_layer_balance) * s.(num_layers) →
  staged s' 0.
Proof.
  intros [Hb Hp Hr _ _] [(E1 & E2 & E3 & E4 & E5 & E6 & E7) _ _ _] Hc Hc'.
  split; rewrite ?E1, ?E3, ?E4, ?E6, ?E7; try done. left. done.
Qed.

(** What an iteration of phase 1 took out, in the planner's terms. *)
Definition grew (c c' : mzcache_core) : Prop :=
  processed_chunks c < bound_chunks c ∧ ∃ add_comp add_store,
    allocate_chunks_profile (c.(ckv).(pln).(max_comp_chunks) - balance_total c)
      c.(ckv).(pln).(max_store_chunks) c.(ckv).(cnt).(n_cur_comp_chunks)
      c.(ckv).(cnt).(n_cur_store_chunks) (Z.min 20 (total_chunks c - processed_chunks c))
      c.(ckv).(decomp_load_ratio) = Some (add_comp, add_store) ∧ 0 < add_comp + add_store ∧
    c'.(ckv).(cnt).(n_cur_comp_chunks) = c.(ckv).(cnt).(n_cur_comp_chunks) + add_comp ∧
    c'.(ckv).(cnt).(n_cur_store_chunks) = c.(ckv).(cnt).(n_cur_store_chunks) + add_store.

Lemma phase1_step s0 w0 c target : core_run s0 w0 c →
  ∃ r, phase1_body target c = Ok r ∧
    match r with
    | Go c' => core_run s0 w0 c' ∧ (c'.(cwt) = c.(cwt) ∧ grew c c') ∧
        0 <= comp_rem c'.(ckv) + store_rem c'.(ckv) < comp_rem c.(ckv) + store_rem c.(ckv)
    | Leave c' => core_run s0 w0 c' ∧ (c' = c ∧ bound_chunks c <= processed_chunks c) ∧
        phase1_over c'.(ckv) c'.(cwt).(n_cur_unload_layers)
    | Return c' => core_run s0 w0 c' ∧ (c'.(cwt) = c.(cwt) ∧ grew c c') ∧ check_target target c' = true ∧
        ∀ i, 0 <= i < c'.(ckv).(num_layers) → c'.(ckv).(dsk).(layer_fds) i = FdClosed
    end.
Proof.
  intros Hc. pose proof Hc as [Hi Hm Hs HL HN Hw HwL]. unfold phase1_body.
  set (s := ckv c) in *. pose proof (si_ladder _ Hi) as Hl.
  pose proof (run_left _ _ _ Hc) as Hleft. fold s in Hleft.
  assert (Hu : 0 <= n_cur_unload_layers (cwt c) <= num_layers s) by (destruct (um_ok _ _ Hw); lia).
  assert (Hbt : balance_total c = per_layer_balance s * num_layers s) by (unfold balance_total; by rewrite HL).
  assert (Htot : total_chunks c = num_chunks_per_tensor s * num_layers s) by (unfold total_chunks; by rewrite HL, HN).
  pose proof (capacity s Hl) as Hcap. pose proof (lo_ncomp _ Hl) as Hnc. pose proof (lo_nstore _ Hl) as Hns.
  pose proof (comp_rem_nonneg s Hl). pose proof (store_rem_nonneg s Hl).
  assert (Hbal : 0 <= per_layer_balance s * num_layers s).
  { pose proof (lo_L _ Hl). apply Z.mul_nonneg_nonneg; [apply Hs|lia]. }
  assert (Hbd : bound_chunks c = num_chunks_per_tensor s * num_layers s - per_layer_balance s * num_layers s)
    by (unfold bound_chunks; by rewrite Hbt, Htot).
  rewrite Hbt, Htot. destruct (Z.ltb_spec (processed_chunks c) (bound_chunks c)) as [Hlt|Hge].
  2:{ eexists. split; [reflexivity|]. split; [done|]. split; [done|]. apply staged_over; try done.
      by rewrite Hbd in Hge. }
  set (room := max_comp_chunks (pln s) - per_layer_balance s * num_layers s - n_cur_comp_chunks (cnt s)).
  assert (Hroom : 0 <= room ∧ n_cur_unload_layers (cwt c) = 0).
  { destruct (sg_stage _ _ Hs) as [[? ?]|[? ?]]; [unfold room; lia|]. exfalso.
    pose proof (sg_balance _ _ Hs). unfold processed_chunks in Hlt. fold s in Hlt. nia. }
  destruct Hroom as [Hroom Hu0].
  set (n := Z.min 20 (num_chunks_per_tensor s * num_layers s - processed_chunks c)).
  assert (Hproc : processed_chunks c = n_cur_comp_chunks (cnt s) + n_cur_store_chunks (cnt s)) by done.
  destruct (step_ratio_elim _ n (sg_ratio _ _ Hs)) as (d & Hd & Hdn); [lia|].
  destruct (allocate_chunks_agree (max_comp_chunks (pln s) - per_layer_balance s * num_layers s)
              (max_store_chunks (pln s)) (n_cur_comp_chunks (cnt s)) (n_cur_store_chunks (cnt s)) n _ d Hd Hdn)
    as (ac & ass & -> & Hprof & Hac & Has & Hsum).
  fold room in Hac, Hsum. rewrite Z.max_r in Hac by lia. rewrite (Z.max_r 0 room) in Hsum by lia.
  rewrite Z.max_r in Has by lia. rewrite Z.max_r in Hsum by lia.
  assert (Hcr : ac <= comp_rem s) by lia.
  destruct (when_compress ac s ltac:(lia) Hi) as (s1 & -> & Hi1 & Hm1 & Hr1 & Hr1' & _). cbn [obind].
  destruct (when_store Hopen Hpwrite ass s1 ltac:(lia) Hi1) as (s2 & -> & Hi2 & Hm2 & Hr2 & Hr2'). cbn [obind].
  pose proof (moved_trans _ _ _ Hm1 Hm2) as Hm12.
  pose proof (mv_cfg _ _ Hm12) as (E1 & _ & E3 & E4 & _ & _ & E7).
  pose proof (lo_ncomp _ (si_ladder _ Hi2)) as Hnc2. pose proof (lo_nstore _ (si_ladder _ Hi2)) as Hns2.
  rewrite E7 in Hnc2, Hns2.
  assert (Hs2 : staged s2 0) by (rewrite Hu0 in Hs; apply (staged_step s s2); (done || lia)).
  assert (Hc2 : core_run s0 w0 (with_kv c s2)) by (apply run_set; [done..|by rewrite Hu0]).
  pose proof (comp_rem_nonneg s2 (si_ladder _ Hi2)). pose proof (store_rem_nonneg s2 (si_ladder _ Hi2)).
  assert (Hgrew : ∀ s3, s3.(cnt) = s2.(cnt) → grew c (with_kv c s3)).
  { intros s3 E. split; [done|]. exists ac, ass. rewrite Hbt, Htot. split; [exact Hprof|].
    cbn. rewrite E. fold s. lia. }
  destruct (check_target target (with_kv c s2)) eqn:Ect.
  - destruct (close_files s2 Hi2) as (Hi3 & Hm3 & Hr3 & Hr3' & Hcn & Hcl).
    eexists. split; [reflexivity|]. cbn iota.
    split; [|split; [by split; [|apply Hgrew]|split; [exact Ect|exact Hcl]]].
    apply (run_set s0 w0 (with_kv c s2)); [done..|]. cbn. rewrite Hu0.
    apply (staged_step s2); [done..| |]; cbn; rewrite ?E1, ?E4, ?E7; lia.
  - rewrite (proj2 (Z.eqb_neq (ac + ass) 0)) by lia. eexists. split; [reflexivity|]. cbn iota.
    split; [done|]. split; [by split; [|apply Hgrew]|]. cbn. lia.
Qed.

(** ** Phase 2 *)

(** The next layer cannot be unloaded. *)
Definition weight_stuck (w : mzcache_weight) : Prop :=
  dump_readable w.(cur_layer_idx_to_unload) = false ∨
  unload_buffers_ok w.(cur_layer_idx_to_unload) = false.

Hypothesis Hno_dump : dump_readable (-1) = false.

Lemma unload_one w0 w w' ok : unloaded_more w0 w → mzcache_unload_layers 1 w = (w', ok) →
  unloaded_more w0 w' ∧
  (if ok : bool then w'.(n_cur_unload_layers) = w.(n_cur_unload_layers) + 1
   else w'.(n_cur_unload_layers) = w.(n_cur_unload_layers) ∧ weight_stuck w').
Proof.
  intros [Hw HL Hm Hd] Hrun.
  destruct (unload_loop_spec _ _ _ _ Hno_dump Hw Hrun) as (Hw' & HL' & Hle & Hok & Hko & Hd').
  split.
  - split; [done|congruence|lia|]. intros L HL1 HL0.
    destruct (decide (L ∈ unloaded_layers w)); [by apply Hd|by apply Hd'].
  - destruct ok; [by apply Hok|]. destruct (Hko eq_refl) as [? ?]. split; [|done].
    change (Z.of_nat (Z.to_nat 1)) with 1 in *. lia.
Qed.

(** One iteration of phase 2. *)
Lemma phase2_step s0 w0 c target : core_run s0 w0 c →
  phase1_over c.(ckv) c.(cwt).(n_cur_unload_layers) →
  ∃ r, phase2_body target c = Ok r ∧
    let post c' := core_run s0 w0 c' ∧ c'.(ckv).(dsk).(layer_fds) = c.(ckv).(dsk).(layer_fds) ∧
      phase1_over c'.(ckv) c'.(cwt).(n_cur_unload_layers) in
    let next c' := comp_rem c'.(ckv) = comp_rem c.(ckv) - Z.min c.(ckv).(per_layer_balance) (comp_rem c.(ckv)) ∧
      c'.(cwt).(n_cur_unload_layers) = c.(cwt).(n_cur_unload_layers) + 1 in
    match r with
    | Go c' => post c' ∧ next c' ∧ c'.(ckv).(num_layers) = c.(ckv).(num_layers)
    | Leave c' => post c' ∧ (weight_stuck c'.(cwt) ∨ (next c' ∧
        c'.(cwt).(n_cur_unload_layers) = c'.(ckv).(num_layers) ∧ comp_rem c'.(ckv) = 0))
    | Return c' => post c' ∧ next c' ∧ check_target target c' = true
    end.
Proof.
  intros Hc [Hsr Hcr]. pose proof Hc as [Hi Hm Hs HL HN Hw HwL]. unfold phase2_body.
  pose proof (run_left _ _ _ Hc) as Hleft. set (s := ckv c) in *. rewrite Hsr in Hleft.
  pose proof (comp_rem_nonneg s (si_ladder _ Hi)).
  set (n := Z.min (per_layer_balance s) _).
  pose proof (sg_balance _ _ Hs) as Hb.
  destruct (when_compress n s ltac:(lia) Hi) as (s1 & -> & Hi1 & Hm1 & Hr1 & Hr1' & Hf1). cbn [obind].
  destruct (mzcache_unload_layers 1 (cwt c)) as [w1 ok] eqn:Eu.
  destruct (unload_one _ _ _ _ Hw Eu) as [Hw1 Hok].
  set (c1 := with_weight (with_kv c s1) w1).
  pose proof (mv_cfg _ _ Hm1) as (E1 & _ & E3 & E4 & _ & E6 & E7).
  assert (Hu1 : 0 <= n_cur_unload_layers w1 <= num_layers s).
  { destruct (um_ok _ _ Hw1). rewrite (um_layers _ _ Hw1), <- (um_layers _ _ Hw), HwL in *. lia. }
  assert (Hover : phase1_over s1 (n_cur_unload_layers w1)).
  { split; [congruence|]. rewrite E1, E4, Hr1. destruct ok.
    - rewrite Hok in *. assert (0 <= num_layers s - (n_cur_unload_layers (cwt c) + 1)) as H0 by lia.
      pose proof (Z.mul_nonneg_nonneg _ _ Hb H0). lia.
    - destruct Hok as [-> _]. lia. }
  assert (Hc1 : core_run s0 w0 c1).
  { split; cbn; rewrite ?E1, ?E3; try done; [by eapply moved_trans| |].
    - destruct Hs. split; rewrite ?E1, ?E3, ?E4, ?E6, ?E7; try done.
      + right. rewrite <- E1, <- E4. exact Hover.
      + intros _. pose proof (lo_ncomp _ (si_ladder _ Hi1)). pose proof (lo_nstore _ (si_ladder _ Hi1)).
        pose proof (capacity _ (si_ladder _ Hi1)). pose proof (counts_nonneg s Hi).
        pose proof (lo_ncomp _ (si_ladder _ Hi)). pose proof (lo_nstore _ (si_ladder _ Hi)).
        pose proof (lo_L _ (si_ladder _ Hi)). pose proof (lo_N _ (si_ladder _ Hi)).
        assert (0 < num_chunks_per_tensor s * num_layers s) by (apply Z.mul_pos_pos; lia).
        rewrite E1, E3, E7 in *. destruct (Z.eqb_spec (per_layer_balance s) 0) as [E0|E0]; [|lia].
        rewrite E0 in Hcr. lia.
    - rewrite (um_layers _ _ Hw1), <- (um_layers _ _ Hw). done. }
  assert (Hpost : core_run s0 w0 c1 ∧ layer_fds (dsk (ckv c1)) = layer_fds (dsk s) ∧
                  phase1_over (ckv c1) (n_cur_unload_layers (cwt c1))) by done.
  destruct ok; cbn [negb].
  - assert (Hnext : comp_rem (ckv c1) = comp_rem s - Z.min (per_layer_balance s) (comp_rem s) ∧
      n_cur_unload_layers (cwt c1) = n_cur_unload_layers (cwt c) + 1) by (split; [cbn; lia|exact Hok]).
    destruct (check_target target c1) eqn:Ect; [by eexists|].
    destruct (_ && _) eqn:Eb; eexists; (split; [reflexivity|]); cbn iota.
    + propify. split; [done|]. right. pose proof (run_left _ _ _ Hc1) as Hl1. cbn in *.
      pose proof (proj1 Hover). split; [done|]. split; [rewrite HL, E1 in *; done|lia].
    + split; [done|]. split; [done|]. done.
  - eexists. split; [reflexivity|]. split; [done|]. left. apply Hok.
Qed.
End phases.
