(* ===== verification/SwapoutRun.v ===== *)
(** A whole [swapout]: its loops end, and what it leaves is a state from which a
    swap-in brings everything back. *)
From Stdlib Require Import Sorting.Sorted.
From S2P Require Import Prelude Floats Profile ThreadPool KvTypes KvPlan KvLadder KvInv KvFrame.
From S2P Require Import KvSwapOut KvSwapOutThms KvGrow KvOffload KvOffloadThms KvSwapIn Weight.
From S2P Require Import KvWorkers KvRestore KvRestoreW KvSystem KvSystemInv KvProgress KvCore.
From S2P Require Import KvStart KvCycle Swapout SwapoutThms.

(** ** The loops *)

(** A body that lowers a measure until it leaves. *)
Lemma while_loop_ends {S} (P Q R : S → Prop) (m : S → Z) body fuel s :
  (∀ s, P s → ∃ r, body s = Ok r ∧
     match r with Go s' => P s' ∧ 0 <= m s' < m s | Leave s' => Q s' | Return s' => R s' end) →
  P s → 0 <= m s < Z.of_nat fuel →
  ∃ b s', while_loop fuel body s = Ok (Some (b, s')) ∧ if (b : bool) then R s' else Q s'.
Proof.
  intros Hstep. revert s. induction fuel as [|fuel IH]; intros s Hs Hm; [lia|]. cbn [while_loop].
  destruct (Hstep s Hs) as (r & -> & Hr). cbn [obind]. destruct r as [s'|s'|s'].
  - apply IH; [apply Hr|lia].
  - by exists false, s'.
  - by exists true, s'.
Qed.

Lemma for_flow_ends {S} (P Q R : S → Prop) (k : S → Z) body n s :
  (∀ s, P s → 0 < k s → ∃ r, body s = Ok r ∧
     match r with Go s' => P s' ∧ k s' = k s - 1 | Leave s' => Q s' | Return s' => R s' end) →
  (∀ s, P s → k s = 0 → Q s) → P s → k s = Z.of_nat n →
  ∃ b s', for_flow n body s = Ok (b, s') ∧ if (b : bool) then R s' else Q s'.
Proof.
  intros Hstep Hend. revert s. induction n as [|n IH]; intros s Hs Hk; cbn [for_flow].
  - exists false, s. split; [done|]. by apply Hend.
  - destruct (Hstep s Hs ltac:(lia)) as (r & -> & Hr). cbn [obind]. destruct r as [s'|s'|s'].
    + apply IH; [apply Hr|lia].
    + by exists false, s'.
    + by exists true, s'.
Qed.

(** ** Offloading with complete writes *)
Section run.
Context `{Cd : Codec} `{Ev : Env} {CL : CodecLaws Cd} `{Sw : SwapEnv} `{We : WeightEnv}.

(** Every transfer to a swap file is answered in full. *)
Definition pwrites_ok : Prop := ∀ L i data f off,
  (full_pwrite (pwrite_rets L i (Z.of_nat (length data))) data 0 off f).1 = Z.of_nat (length data).

Lemma offload_loop_complete size L todo past f off used ok l f' off' u : pwrites_ok →
  Forall (arena_range size) todo →
  offload_loop L todo past f off used = Ok (ok, l, f', off', u) → ok = true.
Proof.
  intros Hw Hall. revert past f off used. induction Hall as [|a todo Ha _ IH]; intros past f off used;
    cbn [offload_loop]; [by intros [= <- _ _ _ _]|].
  destruct (Z.eqb_spec a.(top) 0) as [H0|Hne]; [apply IH|].
  pose proof (pad_fits size a Ha Hne) as [Ht Hp]. rewrite (proj2 (Z.leb_le _ _) Hp).
  destruct (pad_pool_spec size a Ha Hne) as [_ Himg]. cbn [pool with_pool]. rewrite Himg.
  pose proof (length_img size a Ha) as Hli. rewrite (proj2 (Z.eqb_neq _ _) Hne) in Hli.
  pose proof (Hw L (length past) (img a) f off) as Hn. rewrite Hli in Hn.
  destruct (full_pwrite _ (img a) 0 _ f) as [n f2]. cbn [fst] in Hn.
  rewrite (proj2 (Z.eqb_eq n _) Hn). apply IH.
Qed.

Lemma offload_arenas_progress s0 s : offloaded s0 s → arenas_ok s0 → pwrites_ok →
  (∀ L, odirect_write_ok L = true) → 0 <= s.(next_layer_to_offload) →
  ∃ s' n, mzcache_offload_arenas s = Ok (s', n) ∧ offloaded s0 s' ∧
    s'.(next_layer_to_offload) = s.(next_layer_to_offload) - 1.
Proof.
  intros Hof Har Hw Hop Hn. destruct (offload_arenas_step s0 s Hof Har) as (s' & n & Hrun & Hof' & _ & Hs').
  exists s', n. split; [done|]. split; [done|]. destruct Hs' as [[Heq _]|[? _]]; [|done]. exfalso.
  unfold mzcache_offload_arenas in Hrun. rewrite (proj2 (Z.ltb_ge _ _) Hn), Hop in Hrun. cbn [negb] in Hrun.
  apply obind_ok in Hrun as ([[[[ok l] f] off] u] & Hl & Hrun).
  assert (ok = true) as ->.
  { eapply (offload_loop_complete (arena_bytes s0)); [done| |exact Hl].
    eapply Forall_range_same; [|apply Har]. apply (of_kept _ _ Hof). lia. }
  injection Hrun as <- _. cbn in Heq. lia.
Qed.

(** Locking the arenas in memory changes none of them. *)
Lemma lock_used_same a : same_arena a (lock_used a).
Proof. unfold lock_used. repeat case_match; done. Qed.

Lemma mlock_offloaded s0 s : offloaded s0 s → offloaded s0 (mlock_resident_arenas s).
Proof.
  intros [Hs Hn Hk Hg Hb]. split; try done.
  - intros L HL. cbn. specialize (Hk L HL). destruct (_ && _); [|done].
    eapply same_arenas_trans; [exact Hk|]. clear. induction (arenas (mem s) L); constructor;
      [apply lock_used_same|done].
  - intros L HL. cbn. destruct (Hg L HL) as (-> & H2). by destruct (_ && _).
Qed.

(** One iteration of phase 3. *)
Lemma phase3_step s1 c target : offloaded s1 c.(ckv) → arenas_ok s1 → pwrites_ok →
  (∀ L, odirect_write_ok L = true) →
  ∃ r, phase3_body target c = Ok r ∧
    let post c' := offloaded s1 c'.(ckv) ∧ c'.(cwt) = c.(cwt) ∧ c'.(core_layers) = c.(core_layers) ∧
      c'.(core_chunks) = c.(core_chunks) in
    match r with
    | Go c' => post c' ∧ 0 <= c'.(ckv).(next_layer_to_offload) + 1 < c.(ckv).(next_layer_to_offload) + 1
    | Leave c' => post c' ∧ c'.(ckv).(next_layer_to_offload) = -1
    | Return c' => post c' ∧ check_target target c' = true
    end.
Proof.
  intros Hof Har Hw Hop. unfold phase3_body.
  destruct (Z.leb_spec 0 (next_layer_to_offload (ckv c))) as [Hn|Hn].
  - destruct (offload_arenas_progress _ _ Hof Har Hw Hop Hn) as (s' & n & -> & Hof' & Hn'). cbn [obind].
    destruct (check_target target _) eqn:Ect; eexists; (split; [reflexivity|]); cbn iota; [by split|].
    split; [done|]. pose proof (of_next _ _ Hof'). cbn. lia.
  - eexists. split; [reflexivity|]. split; [done|]. pose proof (of_next _ _ Hof). lia.
Qed.

(** ** The core between two calls *)

(** The core [c] between calls: [s] is its cache with the offloaded arenas
    brought back.  Arenas are offloaded only after everything else. *)
Record core_ok (s : kv_state) (c : mzcache_core) : Prop := CoreOk {
  co_out : swapped_out s;
  co_offloaded : offloaded s c.(ckv);
  co_staged : staged s c.(cwt).(n_cur_unload_layers);
  co_full : c.(ckv).(next_layer_to_offload) < s.(num_layers) - 1 →
    comp_rem s = 0 ∧ store_rem s = 0 ∧ c.(cwt).(n_cur_unload_layers) = s.(num_layers);
  co_bytes : s.(cnt).(n_cur_arena_offload_bytes) = 0;
  co_aligned : round_up_4k s.(arena_bytes) = s.(arena_bytes);
  co_layers : c.(core_layers) = s.(num_layers);
  co_weight : weight_ok c.(cwt);
  co_wlayers : c.(cwt).(w_num_layers) = s.(num_layers) }.

(** The cache agrees with [s] in everything but the arenas' place. *)
Lemma core_ok_kv s c : core_ok s c →
  c.(ckv).(num_layers) = s.(num_layers) ∧ c.(ckv).(num_chunks_per_tensor) = s.(num_chunks_per_tensor) ∧
  c.(ckv).(per_layer_balance) = s.(per_layer_balance) ∧
  c.(ckv).(decomp_load_ratio) = s.(decomp_load_ratio) ∧ c.(ckv).(pln) = s.(pln) ∧
  c.(ckv).(cnt).(n_cur_comp_chunks) = s.(cnt).(n_cur_comp_chunks) ∧
  c.(ckv).(cnt).(n_cur_store_chunks) = s.(cnt).(n_cur_store_chunks).
Proof. intros [_ [Hs _ _ _ _] _ _ _ _ _ _ _]. unfold strip in Hs. by injection Hs. Qed.

Lemma staged_same s s' u : s'.(num_layers) = s.(num_layers) →
  s'.(num_chunks_per_tensor) = s.(num_chunks_per_tensor) → s'.(per_layer_balance) = s.(per_layer_balance) →
  s'.(decomp_load_ratio) = s.(decomp_load_ratio) → s'.(pln) = s.(pln) → s'.(cur) = s.(cur) →
  s'.(cnt).(n_cur_comp_chunks) = s.(cnt).(n_cur_comp_chunks) →
  s'.(cnt).(n_cur_store_chunks) = s.(cnt).(n_cur_store_chunks) → staged s u → staged s' u.
Proof.
  intros E1 E2 E3 E4 E5 E6 E7 E8 [H1 H2 H3 H4 H5].
  split; unfold comp_rem, store_rem in *; by rewrite ?E1, ?E2, ?E3, ?E4, ?E5, ?E6, ?E7, ?E8.
Qed.

(** The chunks of [s] are all in [s'], with their states and contents. *)
Definition same_chunks (s s' : kv_state) : Prop := s'.(kv_hidden_dim) = s.(kv_hidden_dim) ∧
  ∀ q, in_range s q →
    in_range s' q ∧ s'.(tab).(states) q = s.(tab).(states) q ∧ view s' q = view s q.

(** As long as no arena is offloaded the cache itself will do for [s]. *)
Lemma core_ok_reset s c : core_ok s c → c.(ckv).(next_layer_to_offload) = s.(num_layers) - 1 →
  core_ok c.(ckv) c ∧ same_chunks s c.(ckv).
Proof.
  intros Hc Hn. pose proof Hc as [Ho Hof Hst Hf Hb Ha HL Hw HwL].
  pose proof (of_strip _ _ Hof) as Hs. unfold strip in Hs.
  injection Hs as e1 e2 e3 e4 e5 e6 e7 e8 e9 e9' e9'' e10 e11 e12 e13 e14 e15 e16 e17 e18.
  assert (Hsim : similar s (ckv c)).
  { split; [apply Hof|]. intros L. apply (of_kept _ _ Hof). lia. }
  destruct (similar_ok _ _ Hsim (so_mem _ Ho)) as [_ Hv].
  split.
  - split; rewrite ?e1, ?e5; try done.
    + by eapply swapped_out_similar.
    + apply offloaded_refl; rewrite e1; [done|]. apply (so_layers _ Ho).
    + eapply staged_same; [..|exact Hst]; done.
    + lia.
    + rewrite (of_bytes _ _ Hof); [done|]. by rewrite e1.
  - split; [by rewrite e2|]. intros q Hq. split; [unfold in_range; by rewrite e1, e3|].
    split; [by rewrite e10|by apply Hv].
Qed.

(** *** Pending growth *)

(** Growth that is pending can be carried out: the new tensors exist. *)
Definition growth_ready (s : kv_state) : Prop :=
  s.(num_chunks_per_tensor) < s.(pending_chunks_total) <= MAX_CHUNKS_PER_TENSOR → clean_ladder s = true →
  ratio_ok s.(pending_chunks_total) s.(decomp_load_ratio) = true ∧
  tensors_ok s.(num_layers) s.(pending_chunks_total) (raw_chunk_bytes s) s.(mem).

Lemma swapped_out_pending s x : swapped_out s → swapped_out (set_pending s x).
Proof. intros [Hl Hm Ht Hc]. split; [by destruct Hl|by destruct Hm|by destruct Ht|done]. Qed.

Lemma offloaded_pending s s1 x : offloaded s s1 → offloaded (set_pending s x) (set_pending s1 x).
Proof.
  intros [Hs Hn Hk Hg Hb]. split; [|done|done|done|done].
  unfold strip in *. cbn. by injection Hs as -> -> -> -> -> -> -> -> -> -> -> -> -> -> -> -> -> -> _ ->.
Qed.

Lemma core_ok_pending s c x : core_ok s c → core_ok (set_pending s x) (with_kv c (set_pending c.(ckv) x)).
Proof.
  intros [Ho Hof Hst Hf Hb Ha HL Hw HwL]. split; try done.
  - by apply swapped_out_pending.
  - by apply offloaded_pending.
  - by destruct Hst; split.
Qed.

Lemma core_ok_sync s c : core_ok s c → core_ok s (sync_chunks c) ∧
  (sync_chunks c).(core_chunks) = c.(ckv).(num_chunks_per_tensor) ∧ (sync_chunks c).(ckv) = c.(ckv) ∧
  (sync_chunks c).(cwt) = c.(cwt).
Proof.
  intros Hc. unfold sync_chunks. destruct (Z.eqb_spec (num_chunks_per_tensor (ckv c)) (core_chunks c)); [done|].
  split; [|done]. by destruct Hc.
Qed.

(** A plan none of which is carried out yet. *)
Lemma staged_fresh s : swap_inv s → 0 <= s.(per_layer_balance) →
  Z.min (s.(per_layer_balance) * s.(num_layers)) (s.(num_chunks_per_tensor) * s.(num_layers))
    <= s.(pln).(max_comp_chunks) → step_ratio_ok s.(decomp_load_ratio) = true →
  comp_rem s = s.(pln).(max_comp_chunks) → store_rem s = s.(pln).(max_store_chunks) → staged s 0.
Proof.
  intros [Hl _ _] Hb Hp Hr Hc Hs. pose proof (lo_ncomp _ Hl). pose proof (lo_nstore _ Hl).
  pose proof (capacity s Hl). pose proof (store_rem_nonneg s Hl).
  split; [done|done|done| |lia].
  destruct (Z.le_gt_cases (per_layer_balance s * num_layers s) (max_comp_chunks (pln s))); [left; lia|right; lia].
Qed.

Lemma same_chunks_refl s : same_chunks s s.
Proof. by split. Qed.
Lemma same_chunks_trans s1 s2 s3 : same_chunks s1 s2 → same_chunks s2 s3 → same_chunks s1 s3.
Proof.
  intros [E1 H1] [E2 H2]. split; [congruence|]. intros q Hq. destruct (H1 q Hq) as (A1 & A2 & A3). destruct (H2 q A1) as (B1 & B2 & B3).
  split; [done|]. split; congruence.
Qed.

Lemma clean_counts s : clean_ladder s = true →
  s.(cnt).(n_cur_comp_chunks) = 0 ∧ s.(cnt).(n_cur_store_chunks) = 0 ∧ s.(cnt).(n_cur_arena_offload_bytes) = 0.
Proof. unfold clean_ladder. intros H. by propify. Qed.

(** A clean cache can only be one without offloaded arenas or unloaded weights. *)
Lemma core_clean s c : core_ok s c → clean_ladder c.(ckv) = true →
  c.(ckv).(next_layer_to_offload) = s.(num_layers) - 1 ∧ c.(cwt).(n_cur_unload_layers) = 0.
Proof.
  intros Hc (Hn1 & Hn2 & _)%clean_counts. pose proof Hc as [Ho Hof Hst Hf _ _ _ Hw HwL].
  destruct (core_ok_kv s c Hc) as (_ & _ & _ & _ & _ & E1 & E2). rewrite E1 in Hn1. rewrite E2 in Hn2.
  pose proof (of_next _ _ Hof) as Hx. destruct (strip_same _ _ (of_strip _ _ Hof)) as [_ HL]. rewrite HL in Hx.
  pose proof (sg_used _ _ Hst) as Hu. destruct Hw as [Hu1 Hu2].
  split; [|lia]. destruct (Z.lt_ge_cases (next_layer_to_offload (ckv c)) (num_layers s - 1)) as [Hlt|]; [|lia].
  destruct (Hf Hlt) as (_ & _ & Hall). pose proof (so_layers _ Ho). lia.
Qed.

(** A grown cache is ready for a swap-out. *)
Lemma grown_core_ok n s c s' : core_ok s c → clean_ladder c.(ckv) = true →
  grown n c.(ckv) s' → c.(ckv).(num_chunks_per_tensor) < n →
  core_ok s' (with_kv c s') ∧ same_chunks s s'.
Proof.
  intros Hc Hcl [g1 g2 g3 g4 g5 g6 _ g8 (x & t & p & cu & Hsh)] Hmax.
  destruct (core_clean s c Hc Hcl) as [Hn Hu]. destruct (core_ok_reset s c Hc Hn) as [Hc1 Hsame].
  pose proof Hc1 as [Ho1 Hof1 Hst1 Hf1 Hb1 Ha1 HL1 Hw1 HwL1]. set (k := ckv c) in *.
  assert (Hpl : plan_spec n (num_layers s') (per_layer_balance s' * num_layers s') s') by (by rewrite Hsh in g8 |- *).
  assert (Hlay : num_layers s' = num_layers k) by (by rewrite Hsh).
  destruct Hpl as [_ Hpt Hpc Hpb Hpcur].
  pose proof (so_layers _ Ho1) as Hpos. pose proof (lo_N _ g1) as HN. rewrite g3 in HN.
  assert (Ht : tidy s') by (split; rewrite Hpcur, Hlay; cbn; [lia|lia|right; lia]).
  assert (Hi : swap_inv s') by done.
  destruct (clean_counts _ g4) as (Hz1 & Hz2 & Hz3).
  pose proof (lo_ncomp _ g1). pose proof (lo_nstore _ g1).
  assert (HLs : num_layers k = num_layers s) by (by destruct (core_ok_kv s c Hc)).
  split.
  - split; try done.
    + split; try done. intros i. rewrite Hsh. apply (so_closed _ Ho1).
    + apply offloaded_refl; cbn; [|lia]. rewrite Hlay, HLs. rewrite Hsh. exact Hn.
    + cbn. rewrite Hu. apply staged_fresh; try done; try lia.
      * rewrite Hsh. apply Hst1.
      * rewrite Hsh. apply Hst1.
    + cbn. rewrite Hsh in *. cbn in *. rewrite HLs, Hn. lia.
    + rewrite Hsh. exact Ha1.
    + rewrite Hlay. exact HL1.
    + rewrite Hlay. exact HwL1.
  - destruct Hsame as [Eh Hsame]. split; [by rewrite Hsh|]. intros q Hq.
    destruct (Hsame q Hq) as (A1 & A2 & A3).
    assert (Hq' : in_range s' q).
    { destruct A1 as [A11 A12]. split; [by rewrite Hlay|]. rewrite g3. fold k in Hmax. lia. }
    split; [done|]. rewrite (g5 q Hq'), (g6 q A1), <- A2, <- A3. split; [|done].
    symmetry. by apply clean_all_raw; [apply Ho1| |].
Qed.

(** ** The phases, run *)
Hypothesis Hopen : ∀ L, open_ok L = true.
Hypothesis Hpwrite : ∀ p, pwrite_ok p = true.
Hypothesis Hswap : pwrites_ok.
Hypothesis Hswap_open : ∀ L, odirect_write_ok L = true.
Hypothesis Hno_dump : dump_readable (-1) = false.

(** There is nothing left to take out of memory. *)
Definition all_out (s : kv_state) (c : mzcache_core) : Prop :=
  comp_rem s = 0 ∧ store_rem s = 0 ∧ c.(cwt).(n_cur_unload_layers) = s.(num_layers).

(** Why a swap-out ends. *)
Definition ended (target : float) (s : kv_state) (c : mzcache_core) : Prop :=
  check_target target c = true ∨ (all_out s c ∧ c.(ckv).(next_layer_to_offload) = -1) ∨ weight_stuck c.(cwt).

Lemma core_ok_phase3 s c c' : core_ok s c → all_out s c → offloaded s c'.(ckv) →
  c'.(cwt) = c.(cwt) → c'.(core_layers) = c.(core_layers) → core_ok s c'.
Proof. intros [Ho Hof Hst Hf Hb Ha HL Hw HwL] Hall Hof' E1 E2. split; rewrite ?E1, ?E2; done. Qed.

Lemma core_arenas_ok s c : core_ok s c → arenas_ok s.
Proof. intros Hc. apply mem_arenas_ok; [apply (so_mem _ (co_out _ _ Hc))|apply Hc]. Qed.

Lemma phase3_run s c target fuel : core_ok s c → all_out s c → MAX_NUM_LAYERS < Z.of_nat fuel →
  ∃ b c', while_loop fuel (phase3_body target) c = Ok (Some (b, c')) ∧ core_ok s c' ∧
    c'.(cwt) = c.(cwt) ∧ ended target s c'.
Proof.
  intros Hc Hall Hfuel. pose proof (core_arenas_ok _ _ Hc) as Har.
  pose proof (of_next _ _ (co_offloaded _ _ Hc)) as Hn. pose proof (lo_L _ (so_ladder _ (co_out _ _ Hc))).
  pose proof (proj1 (core_ok_kv _ _ Hc)) as HLk.
  destruct (while_loop_ends
    (λ c', core_ok s c' ∧ c'.(cwt) = c.(cwt))
    (λ c', (core_ok s c' ∧ c'.(cwt) = c.(cwt)) ∧ c'.(ckv).(next_layer_to_offload) = -1)
    (λ c', (core_ok s c' ∧ c'.(cwt) = c.(cwt)) ∧ check_target target c' = true)
    (λ c', c'.(ckv).(next_layer_to_offload) + 1) (phase3_body target) fuel c)
    as (b & c' & Hrun & Hc').
  - intros x [Hx Ex]. assert (Hax : all_out s x) by (unfold all_out; by rewrite Ex).
    destruct (phase3_step s x target (co_offloaded _ _ Hx) Har Hswap Hswap_open) as (r & -> & Hr).
    exists r. split; [done|]. destruct r as [y|y|y]; destruct Hr as ((H1 & H2 & H3 & _) & H4);
      (split; [split; [by eapply core_ok_phase3|congruence]|done]).
  - done.
  - lia.
  - exists b, c'. split; [done|]. unfold ended, all_out. destruct b; destruct Hc' as [[Hc' E] He].
    + split; [done|]. split; [done|]. by left.
    + split; [done|]. split; [done|]. right; left. by rewrite E.
Qed.

(** The core's invariant when a ladder phase stops with its files closed. *)
Lemma run_core_ok s0 c0 c : core_ok s0 c0 → s0.(next_layer_to_offload) = s0.(num_layers) - 1 →
  core_run s0 c0.(cwt) c → (∀ i, 0 <= i < c.(ckv).(num_layers) → c.(ckv).(dsk).(layer_fds) i = FdClosed) →
  core_ok c.(ckv) c.
Proof.
  intros [Ho _ _ _ Hb Ha _ _ _] Hn [[Hl Hm Ht] Hmv Hst HL HN Hw HwL] Hcl.
  destruct Hmv as [(E1 & E2 & E3 & E4 & E5 & _) (R1 & _ & _ & _ & R5 & _) Hout _].
  split; rewrite ?E5; try done.
  - split; try done. intros i. destruct (decide (0 <= i < num_layers (ckv c))) as [Hi|Hi]; [by apply Hcl|].
    destruct (Hout i) as [->| ->]; [by rewrite <- E1|apply (so_closed _ Ho)|done].
  - apply offloaded_refl; [by rewrite R1, E1|]. rewrite E1. apply (so_layers _ Ho).
  - rewrite R1, E1. lia.
  - by rewrite R5.
  - apply Hw.
Qed.

Lemma core_run_start s c : core_ok s c → c.(ckv) = s → c.(core_chunks) = s.(num_chunks_per_tensor) →
  core_run s c.(cwt) c.
Proof.
  intros [[Hl Hm Ht _] _ Hst _ _ _ HL Hw HwL] E HN. split; rewrite ?E; try done.
  apply moved_refl.
Qed.

Lemma run_all_out s0 w0 c : core_run s0 w0 c →
  ((total_chunks c - processed_chunks c =? 0) && (c.(cwt).(n_cur_unload_layers) =? c.(core_layers))) = true
  ↔ all_out c.(ckv) c.
Proof.
  intros Hc. rewrite (run_left _ _ _ Hc). unfold all_out. rewrite (cr_layers _ _ _ Hc).
  pose proof (comp_rem_nonneg _ (si_ladder _ (cr_inv _ _ _ Hc))).
  pose proof (store_rem_nonneg _ (si_ladder _ (cr_inv _ _ _ Hc))).
  rewrite andb_true_iff, !Z.eqb_eq. lia.
Qed.

(** Phase 1, from a core whose arenas are all in place. *)
Lemma phase1_run c target fuel : core_ok c.(ckv) c → c.(core_chunks) = c.(ckv).(num_chunks_per_tensor) →
  MAX_CHUNKS_PER_TENSOR * MAX_NUM_LAYERS < Z.of_nat fuel →
  ∃ b c', while_loop fuel (phase1_body target) c = Ok (Some (b, c')) ∧
    core_run c.(ckv) c.(cwt) c' ∧ c'.(cwt) = c.(cwt) ∧
    if b then check_target target c' = true ∧
         ∀ i, 0 <= i < c'.(ckv).(num_layers) → c'.(ckv).(dsk).(layer_fds) i = FdClosed
    else phase1_over c'.(ckv) c'.(cwt).(n_cur_unload_layers).
Proof.
  intros Hc HN Hfuel. pose proof (core_run_start _ c Hc eq_refl HN) as Hrun.
  pose proof (so_ladder _ (co_out _ _ Hc)) as Hl. pose proof (lo_L _ Hl) as HL. pose proof (lo_N _ Hl) as HN'.
  assert (Hm : 0 <= comp_rem (ckv c) + store_rem (ckv c) < Z.of_nat fuel).
  { pose proof (comp_rem_nonneg _ Hl). pose proof (store_rem_nonneg _ Hl).
    pose proof (run_left _ _ _ Hrun) as Hleft. pose proof (counts_nonneg _ (cr_inv _ _ _ Hrun)).
    unfold total_chunks, processed_chunks in Hleft.
    rewrite HN, (co_layers _ _ Hc) in Hleft. unfold MAX_CHUNKS_PER_TENSOR, MAX_NUM_LAYERS in *. nia. }
  destruct (while_loop_ends (λ x, core_run (ckv c) (cwt c) x ∧ x.(cwt) = c.(cwt))
    (λ x, (core_run (ckv c) (cwt c) x ∧ x.(cwt) = c.(cwt)) ∧ phase1_over x.(ckv) x.(cwt).(n_cur_unload_layers))
    (λ x, (core_run (ckv c) (cwt c) x ∧ x.(cwt) = c.(cwt)) ∧ check_target target x = true ∧
       ∀ i, 0 <= i < x.(ckv).(num_layers) → x.(ckv).(dsk).(layer_fds) i = FdClosed)
    (λ x, comp_rem x.(ckv) + store_rem x.(ckv)) (phase1_body target) fuel c) as (b & c' & Hw & Hc').
  - intros x [Hx Ex]. destruct (phase1_step Hopen Hpwrite _ _ x target Hx) as (r & -> & Hr).
    exists r. split; [done|]. destruct r as [y|y|y]; destruct Hr as (H1 & [H2 _] & H3);
      (split; [split; [done|congruence]|done]).
  - done.
  - exact Hm.
  - exists b, c'. split; [done|]. destruct b; destruct Hc' as [[H1 H2] H3]; done.
Qed.

(** Phase 2. *)
Lemma phase2_run s0 w0 c target n : core_run s0 w0 c → phase1_over c.(ckv) c.(cwt).(n_cur_unload_layers) →
  Z.of_nat n = c.(ckv).(num_layers) - c.(cwt).(n_cur_unload_layers) →
  ∃ b c', for_flow n (phase2_body target) c = Ok (b, c') ∧ core_run s0 w0 c' ∧
    c'.(ckv).(dsk).(layer_fds) = c.(ckv).(dsk).(layer_fds) ∧
    phase1_over c'.(ckv) c'.(cwt).(n_cur_unload_layers) ∧
    if b then check_target target c' = true else weight_stuck c'.(cwt) ∨ all_out c'.(ckv) c'.
Proof.
  intros Hc Hov Hn.
  set (P := λ x, core_run s0 w0 x ∧ x.(ckv).(dsk).(layer_fds) = c.(ckv).(dsk).(layer_fds) ∧
    phase1_over x.(ckv) x.(cwt).(n_cur_unload_layers)).
  destruct (for_flow_ends P
    (λ x, P x ∧ (weight_stuck x.(cwt) ∨ all_out x.(ckv) x)) (λ x, P x ∧ check_target target x = true)
    (λ x, x.(ckv).(num_layers) - x.(cwt).(n_cur_unload_layers)) (phase2_body target) n c)
    as (b & c' & Hw & Hc').
  - intros x (Hx & Hf & Ho) _. destruct (phase2_step Hno_dump s0 w0 x target Hx Ho) as (r & -> & Hr).
    exists r. split; [done|]. destruct r as [y|y|y]; cbv zeta in Hr; destruct Hr as ((H1 & H2 & H3) & H4);
      (split; [split; [done|split; [congruence|done]]|]).
    + lia.
    + destruct H4 as [?|(_ & ? & ?)]; [by left|right]. split; [done|]. split; [apply H3|done].
    + apply H4.
  - intros x Hx Hk. split; [done|]. right. destruct Hx as (Hx & _ & [Hs Hr]).
    pose proof (comp_rem_nonneg _ (si_ladder _ (cr_inv _ _ _ Hx))). unfold all_out. rewrite Hk in Hr. lia.
  - done.
  - lia.
  - exists b, c'. split; [done|]. destruct b; destruct Hc' as [(H1 & H2 & H3) H4]; done.
Qed.

(** Phases 2 and 3. *)
Lemma tail_run s0 w0 c00 c target fuel : core_ok s0 c00 → s0.(next_layer_to_offload) = s0.(num_layers) - 1 →
  c00.(cwt) = w0 → core_run s0 w0 c →
  (∀ i, 0 <= i < c.(ckv).(num_layers) → c.(ckv).(dsk).(layer_fds) i = FdClosed) →
  phase1_over c.(ckv) c.(cwt).(n_cur_unload_layers) → MAX_NUM_LAYERS < Z.of_nat fuel →
  ∃ c' s', swapout_tail fuel target c.(cwt).(n_cur_unload_layers) c = Ok (Some c') ∧
    core_ok s' c' ∧ moved s0 s' ∧ unloaded_more w0 c'.(cwt) ∧ ended target s' c'.
Proof.
  intros Hc0 Hn0 <- Hc Hcl Hov Hfuel. unfold swapout_tail. rewrite (cr_layers _ _ _ Hc).
  destruct (phase2_run _ _ c target (Z.to_nat (num_layers (ckv c) - n_cur_unload_layers (cwt c))) Hc Hov)
    as (b & c1 & -> & Hc1 & Hf1 & Hov1 & Hb).
  { pose proof (um_ok _ _ (cr_weight _ _ _ Hc)) as [? ?]. rewrite (cr_wlayers _ _ _ Hc) in *. lia. }
  cbn [obind]. pose proof (mv_cfg _ _ (cr_moved _ _ _ Hc)) as [EL _].
  pose proof (mv_cfg _ _ (cr_moved _ _ _ Hc1)) as [EL1 _].
  assert (Hok1 : core_ok (ckv c1) c1).
  { eapply run_core_ok; [exact Hc0|done|exact Hc1|]. intros i Hi. rewrite Hf1. apply Hcl. lia. }
  pose proof (cr_moved _ _ _ Hc1) as Hm1. pose proof (cr_weight _ _ _ Hc1) as Hu1.
  destruct b.
  { exists c1, (ckv c1). split; [done|]. do 3 (split; [done|]). by left. }
  destruct (_ && _) eqn:Eall.
  - apply (run_all_out _ _ _ Hc1) in Eall.
    destruct (phase3_run _ _ target fuel Hok1 Eall Hfuel) as (b2 & c2 & -> & Hc2 & E2 & He). cbn [obind].
    exists c2, (ckv c1). split; [done|]. rewrite E2. done.
  - exists c1, (ckv c1). split; [done|]. do 3 (split; [done|]). right; right.
    destruct Hb as [?|Hall]; [done|]. apply (run_all_out _ _ _ Hc1) in Hall. congruence.
Qed.

(** ** Starting a swap-out *)

Lemma start_grow s c : core_ok s c → growth_ready c.(ckv) →
  ∃ k s0, apply_pending_growth c.(ckv) = Ok k ∧ core_ok s0 (with_kv c k) ∧ same_chunks s s0.
Proof.
  intros Hc Hg. unfold apply_pending_growth. cbv zeta. set (n := pending_chunks_total (ckv c)).
  assert (Hkeep : ∀ x, ∃ s0, core_ok s0 (with_kv c (set_pending (ckv c) x)) ∧ same_chunks s s0).
  { intros x. exists (set_pending s x). split; [by apply core_ok_pending|done]. }
  destruct (Z.ltb_spec (num_chunks_per_tensor (ckv c)) n) as [Hlt|Hge].
  2:{ eexists. destruct (Hkeep 0) as (s0 & H). by exists s0. }
  destruct (clean_ladder (ckv c)) eqn:Ecl, (Z.le_gt_cases n MAX_CHUNKS_PER_TENSOR) as [Hmax|Hmax].
  - destruct (Hg (conj Hlt Hmax) Ecl) as [Hr Hten].
    destruct (core_clean s c Hc Ecl) as [Hn _]. destruct (core_ok_reset s c Hc Hn) as [Hc1 _].
    pose proof (core_ok_pending _ _ 0 Hc1) as Hc2. pose proof (co_out _ _ Hc2) as Ho2.
    destruct (register_grown_spec n (set_pending (ckv c) 0) (so_ladder _ Ho2) (so_mem _ Ho2) Ecl)
      as (k & Hrun & Hgr & _); try done.
    { exact (sg_balance _ _ (co_staged _ _ Hc1)). }
    rewrite Hrun. exists k, k. split; [done|].
    destruct (grown_core_ok n (set_pending s 0) (with_kv c (set_pending (ckv c) 0)) k) as [H1 H2]; try done.
    by apply core_ok_pending.
  - eexists. destruct (Hkeep 0) as (s0 & H). exists s0. split; [|exact H].
    unfold register_grown_chunks. cbn. rewrite (proj2 (Z.leb_gt _ _) Hlt).
    by rewrite (proj2 (Z.ltb_lt _ _) Hmax).
  - eexists. destruct (Hkeep (Z.max 0 n)) as (s0 & H). exists s0. split; [|exact H].
    unfold register_grown_chunks. cbn. rewrite (proj2 (Z.leb_gt _ _) Hlt).
    rewrite (proj2 (Z.ltb_ge _ _) Hmax). unfold clean_ladder in *. cbn. by rewrite Ecl.
  - eexists. destruct (Hkeep 0) as (s0 & H). exists s0. split; [|exact H].
    unfold register_grown_chunks. cbn. rewrite (proj2 (Z.leb_gt _ _) Hlt).
    by rewrite (proj2 (Z.ltb_lt _ _) Hmax).
Qed.

(** What [swapout] makes of the chunks of [s]. *)
Definition swapped_to (s s' : kv_state) : Prop := s'.(kv_hidden_dim) = s.(kv_hidden_dim) ∧
  ∀ q, in_range s q → in_range s' q ∧ content s s' q.

Lemma swapped_to_intro s s0 s' : same_chunks s s0 → moved s0 s' → swapped_to s s'.
Proof.
  intros [Eh Hs] [Hc _ _ Hv]. split; [by destruct Hc as (_ & -> & _)|]. intros q Hq.
  destruct (Hs q Hq) as (A1 & A2 & A3). split; [by apply (in_range_cfg _ _ _ Hc)|].
  specialize (Hv q A1). unfold content in *. by rewrite <- Eh, <- A2, <- A3.
Qed.

Lemma unloaded_refl w : weight_ok w → unloaded_more w w.
Proof. intros Hw. split; [done|done|lia|]. intros L H1 H2. done. Qed.

(** The loops of [swapout_impl], once growth is folded in. *)
Lemma loops_run s c target fuel : core_ok s c → c.(core_chunks) = c.(ckv).(num_chunks_per_tensor) →
  MAX_CHUNKS_PER_TENSOR * MAX_NUM_LAYERS < Z.of_nat fuel →
  ∃ b c1, while_loop fuel (phase1_body target) c = Ok (Some (b, c1)) ∧
    if b then ∃ s', core_ok s' c1 ∧ swapped_to s s' ∧ unloaded_more c.(cwt) c1.(cwt) ∧ ended target s' c1
    else ∃ c' s', swapout_tail fuel target c.(cwt).(n_cur_unload_layers)
           (with_kv c1 (mzcache_close_stored_files c1.(ckv))) = Ok (Some c') ∧
         core_ok s' c' ∧ swapped_to s s' ∧ unloaded_more c.(cwt) c'.(cwt) ∧ ended target s' c'.
Proof.
  intros Hc HN Hfuel.
  assert (Hf3 : MAX_NUM_LAYERS < Z.of_nat fuel) by (unfold MAX_CHUNKS_PER_TENSOR, MAX_NUM_LAYERS in *; lia).
  destruct (Z.eq_dec c.(ckv).(next_layer_to_offload) (s.(num_layers) - 1)) as [Hn|Hn].
  - destruct (core_ok_reset s c Hc Hn) as [Hc1 Hsame].
    destruct (phase1_run c target fuel Hc1 HN Hfuel) as (b & c1 & -> & Hr1 & Ew & Hb).
    exists b, c1. split; [done|].
    assert (Hn' : next_layer_to_offload (ckv c) = num_layers (ckv c) - 1).
    { by rewrite (proj1 (core_ok_kv _ _ Hc)). }
    destruct b.
    + destruct Hb as [Ht Hcl]. exists (ckv c1). split; [by eapply run_core_ok|].
      split; [eapply swapped_to_intro; [done|apply Hr1]|]. split; [apply Hr1|by left].
    + destruct (close_files (ckv c1) (cr_inv _ _ _ Hr1)) as (Hi2 & Hm2 & Hr2 & Hr2' & Hcn & Hcl).
      set (c2 := with_kv c1 _) in *.
      assert (Hst2 : staged (ckv c2) (n_cur_unload_layers (cwt c2))) by (by destruct (cr_staged _ _ _ Hr1); split).
      assert (Hc2 : core_run (ckv c) (cwt c) c2) by (by apply run_set).
      destruct (tail_run (ckv c) (cwt c) c c2 target fuel Hc1 Hn' eq_refl Hc2 Hcl)
        as (c' & s' & Hrun & Hok & Hmv & Hum & He); [exact Hb|done|].
      cbn in Hrun. rewrite Ew in Hrun. exists c', s'. split; [exact Hrun|]. split; [done|].
      split; [by eapply swapped_to_intro|done].
  - pose proof (of_next _ _ (co_offloaded _ _ Hc)) as Hx. pose proof (core_ok_kv _ _ Hc) as Hkv.
    destruct Hkv as (E1 & E2 & E3 & E4 & E5 & E6 & E7).
    destruct (co_full _ _ Hc) as (Hz1 & Hz2 & Hz3); [lia|]. pose proof (so_ladder _ (co_out _ _ Hc)) as Hl.
    pose proof (lo_ncomp _ Hl). pose proof (lo_nstore _ Hl). pose proof (capacity _ Hl).
    assert (Htot : total_chunks c - processed_chunks c = 0).
    { unfold total_chunks, processed_chunks. rewrite HN, E2, E6, E7, (co_layers _ _ Hc). lia. }
    assert (0 <= balance_total c).
    { unfold balance_total. rewrite E3, (co_layers _ _ Hc). pose proof (lo_L _ Hl).
      apply Z.mul_nonneg_nonneg; [apply (co_staged _ _ Hc)|lia]. }
    exists false, c. split.
    { destruct fuel as [|fuel]; [unfold MAX_NUM_LAYERS in Hf3; lia|]. cbn [while_loop]. unfold phase1_body, bound_chunks.
      rewrite (proj2 (Z.ltb_ge _ _)) by lia. done. }
    set (c2 := with_kv c _). unfold swapout_tail.
    replace (core_layers c2 - _) with 0 by (cbn; rewrite Hz3, (co_layers _ _ Hc); lia).
    change (for_flow (Z.to_nat 0) (phase2_body target) c2) with (@Ok (bool * mzcache_core) (false, c2)).
    cbn [obind]. change (total_chunks c2 - processed_chunks c2) with (total_chunks c - processed_chunks c).
    rewrite Htot. change (n_cur_unload_layers (cwt c2)) with (n_cur_unload_layers (cwt c)).
    change (core_layers c2) with (core_layers c). rewrite Hz3, (co_layers _ _ Hc), !Z.eqb_refl. cbn [andb].
    set (s2 := mzcache_close_stored_files s).
    assert (Hc2 : core_ok s2 c2).
    { destruct Hc as [[Hl' Hm' Ht' Hcl'] [Hs' Hn2 Hk2 Hg2 Hb2] Hst Hfl Hby Hal HLc Hw HwL].
      split; try done.
      - destruct (close_files s) as ([? ? ?] & _); [done|]. split; try done.
        intros i. cbn. destruct (_ && _); [done|apply Hcl'].
      - split; try done. unfold strip in *. cbn. by injection Hs' as -> -> -> -> -> -> -> -> -> -> -> -> -> -> -> -> -> -> -> ->.
      - by destruct Hst; split. }
    destruct (phase3_run s2 c2 target fuel Hc2) as (b & c' & -> & Hc' & Ew' & He);
      [by split|done|]. cbn [obind].
    exists c', s2. split; [done|]. split; [done|]. split; [|split; [rewrite Ew'; by apply unloaded_refl, (co_weight _ _ Hc)|done]].
    destruct (close_files s) as (_ & Hmv & _); [by destruct (co_out _ _ Hc)|].
    eapply swapped_to_intro; [apply same_chunks_refl|exact Hmv].
Qed.

(** [mlock_resident_arenas] at the end: best effort, on every arena left. *)
Lemma mlock_locks s L a : 0 <= L < s.(num_layers) → mlock_ok = true →
  a ∈ (mlock_resident_arenas s).(mem).(arenas) L → a.(svm) = true ∨ a.(locked) = true ∨ a.(top) = 0.
Proof.
  intros HL Hm. cbn. rewrite (proj2 (Z.leb_le 0 L)), (proj2 (Z.ltb_lt L _)) by lia. cbn [andb].
  intros (x & -> & _)%list_elem_of_fmap. unfold lock_used. rewrite Hm.
  destruct (svm x) eqn:E1, (locked x) eqn:E2; cbn [orb]; auto.
  destruct (Z.eqb_spec (top x) 0); auto.
Qed.

Lemma swapout_run (fuel : nat) (target : float) (s : kv_state) (c : mzcache_core) :
  core_ok s c → growth_ready c.(ckv) → MAX_CHUNKS_PER_TENSOR * MAX_NUM_LAYERS < Z.of_nat fuel →
  ∃ c' s', swapout fuel target c = Ok (Some (c', swapout_result c c')) ∧
    core_ok s' c' ∧ swapped_to s s' ∧ unloaded_more c.(cwt) c'.(cwt) ∧ ended target s' c'.
Proof.
  intros Hc Hg Hfuel. destruct (start_grow s c Hc Hg) as (k & s0 & Hk & Hc0 & Hsame).
  destruct (core_ok_sync _ _ Hc0) as (Hc1 & HN & Ek & Ew). set (c1 := sync_chunks (with_kv c k)) in *.
  assert (Hgoal : ∃ c' s', swapout_impl fuel target c = Ok (Some c') ∧ core_ok s' c' ∧
    swapped_to s s' ∧ unloaded_more c.(cwt) c'.(cwt) ∧ ended target s' c').
  { unfold swapout_impl. rewrite Hk. cbn [obind]. cbv zeta. fold c1.
    assert (Ht : ∀ s', swapped_to s0 s' → swapped_to s s').
    { intros s' [E H]. destruct Hsame as [E' Hs]. split; [congruence|]. intros q Hq.
      destruct (Hs q Hq) as (A1 & A2 & A3). destruct (H q A1) as [B1 B2]. split; [done|].
      unfold content in *. by rewrite <- E', <- A2, <- A3. }
    destruct (check_target target c1) eqn:Ect.
    - exists c1, s0. split; [done|]. split; [done|]. split; [|split; [rewrite Ew; apply unloaded_refl, Hc|by left]].
      eapply swapped_to_intro; [exact Hsame|apply moved_refl].
    - destruct (loops_run s0 c1 target fuel Hc1) as (b & c2 & -> & Hb); [by rewrite HN, Ek|done|].
      cbn [obind]. rewrite Ew in Hb. cbn in Hb. destruct b.
      + destruct Hb as (s' & H1 & H2 & H3 & H4). exists c2, s'. auto 10.
      + rewrite Ew. destruct Hb as (c' & s' & Hrun & H1 & H2 & H3 & H4). exists c', s'. split; [exact Hrun|]. auto 10. }
  destruct Hgoal as (c' & s' & Hrun & Hok & Hsw & Hum & He).
  exists (with_kv c' (mlock_resident_arenas c'.(ckv))), s'. unfold swapout. rewrite Hrun. cbn [obind].
  split; [done|]. split; [|done].
  destruct Hok as [Ho Hof Hst Hf Hb Ha HL Hw HwL]. split; try done. by apply mlock_offloaded.
Qed.

(** When a swap file cannot be opened the layer stays, and the loop of phase 3
    goes round forever: the measured ratio cannot change any more. *)
Lemma offload_refused c : odirect_write_ok c.(ckv).(next_layer_to_offload) = false →
  0 <= c.(ckv).(next_layer_to_offload) → mzcache_offload_arenas c.(ckv) = Ok (c.(ckv), 0).
Proof.
  intros Ho Hn. unfold mzcache_offload_arenas. by rewrite (proj2 (Z.ltb_ge _ _) Hn), Ho.
Qed.

Lemma with_kv_same c : with_kv c c.(ckv) = c.
Proof. by destruct c. Qed.

End run.

(** C38: Phase 3 of [swapout] does not end when the swap file of the next layer
    cannot be opened and the target is not reached yet: no number of iterations
    is enough. *)
Theorem offload_phase_diverges `{Ev : Env} `{Sw : SwapEnv} (target : float) (c : mzcache_core) :
  0 <= c.(ckv).(next_layer_to_offload) → odirect_write_ok c.(ckv).(next_layer_to_offload) = false →
  check_target target c = false → ∀ fuel, while_loop fuel (phase3_body target) c = Ok None.
Proof.
  intros Hn Ho Ht fuel. induction fuel as [|fuel IH]; [done|]. cbn [while_loop]. unfold phase3_body.
  rewrite (proj2 (Z.leb_le _ _) Hn), offload_refused by done. cbn [obind]. by rewrite with_kv_same, Ht.
Qed.
