(* ===== verification/SwapPlan.v ===== *)
(** The planner [mzcache_core::mzcache_profile_chunks_layers]
    ([mzcache/src/mzcache_core.cpp]): how many chunks and layers a target ratio
    needs, predicted without moving anything.  It walks the phases 1 and 2 of
    [swapout_impl] on counters; the theorems bound what it returns and show that
    its walk follows the one of [swapout_impl]. *)
From Stdlib Require Import Sorting.Sorted.
From S2P Require Import Prelude Floats Profile ThreadPool KvTypes KvPlan KvLadder KvInv KvFrame.
From S2P Require Import KvSwapOut KvSwapOutThms KvGrow KvOffload KvOffloadThms KvSwapIn Weight.
From S2P Require Import KvWorkers KvRestore KvRestoreW KvSystem KvSystemInv KvProgress KvCore.
From S2P Require Import KvStart KvCycle Swapout SwapoutThms SwapoutRun.

(** [COMP_FREED_NUM] over [COMP_FREED_DEN]: the share of a chunk a compression frees. *)
Definition COMP_FREED_NUM (b : backend) : Z :=
  match b with FLEXGEN_8BIT => 15 | NONE => 0 | _ => 23 end.
Definition COMP_FREED_DEN : Z := 32.

(** The planner's working variables. *)
Record plan_vars := PlanVars {
  comp_chunks : Z; store_chunks : Z; unload_layers : Z; processed : Z }.

Section planner.
Context (b : backend) (target_ratio : float) (c : mzcache_core).

Definition get_freed_bytes (n_cur_comp_chunks n_cur_store_chunks n_cur_unload_layers : Z) : Z :=
  let chunk_bytes := kv_chunk_bytes c.(ckv) in
  Z.quot (n_cur_comp_chunks * chunk_bytes * COMP_FREED_NUM b) COMP_FREED_DEN
  + n_cur_store_chunks * chunk_bytes
  + c.(weight_layer_bytes) * n_cur_unload_layers.

Definition plan_ratio (p : plan_vars) : float :=
  resident_ratio (get_freed_bytes p.(comp_chunks) p.(store_chunks) p.(unload_layers)) c.(full_bytes).

Definition plan_reached (p : plan_vars) : bool := SFleb (plan_ratio p) target_ratio.

Definition plan_phase1_body (p : plan_vars) : outcome (flow plan_vars) :=
  if p.(processed) <? bound_chunks c then
    if plan_reached p then Ok (Return p)
    else
      let to_process := Z.min 20 (total_chunks c - p.(processed)) in
      match allocate_chunks_profile (c.(ckv).(pln).(max_comp_chunks) - balance_total c)
              c.(ckv).(pln).(max_store_chunks) p.(comp_chunks) p.(store_chunks) to_process
              c.(ckv).(decomp_load_ratio) with
      | None => Ub
      | Some (add_comp, add_store) =>
          if add_comp + add_store =? 0 then Ok (Leave p)
          else Ok (Go (PlanVars (p.(comp_chunks) + add_comp) (p.(store_chunks) + add_store)
                         p.(unload_layers) (p.(processed) + (add_comp + add_store))))
      end
  else Ok (Leave p).

Definition plan_phase2_body (p : plan_vars) : outcome (flow plan_vars) :=
  if plan_reached p then Ok (Return p)
  else
    let to_process := Z.min c.(ckv).(per_layer_balance) (total_chunks c - p.(processed)) in
    Ok (Go (PlanVars (p.(comp_chunks) + to_process) p.(store_chunks) (p.(unload_layers) + 1)
              (p.(processed) + to_process))).

Definition plan_start : plan_vars :=
  let n := c.(ckv).(cnt) in
  PlanVars n.(n_cur_comp_chunks) n.(n_cur_store_chunks) c.(cwt).(n_cur_unload_layers)
    (n.(n_cur_comp_chunks) + n.(n_cur_store_chunks)).

(** The whole planner; the tuple returned is read off the variables. *)
Definition mzcache_profile_chunks_layers (fuel : nat) : outcome (option plan_vars) :=
  r <~ while_loop fuel plan_phase1_body plan_start ;;
  match r with
  | None => Ok None
  | Some (true, p) => Ok (Some p)
  | Some (false, p) =>
      '(_, p') <~ for_flow (Z.to_nat c.(core_layers)) plan_phase2_body p ;; Ok (Some p')
  end.
End planner.

(** ** What the planner returns *)
Section thms.
Context `{Cd : Codec} `{Ev : Env} {CL : CodecLaws Cd} `{Sw : SwapEnv} `{We : WeightEnv}.
Context (b : backend) (target : float).

(** The variables describe a stage of the swap-out [c] is in. *)
Record plan_stage (c : mzcache_core) (p : plan_vars) : Prop := PlanStage {
  pg_proc : p.(processed) = p.(comp_chunks) + p.(store_chunks);
  pg_comp : c.(ckv).(cnt).(n_cur_comp_chunks) <= p.(comp_chunks) <= c.(ckv).(pln).(max_comp_chunks);
  pg_store : c.(ckv).(cnt).(n_cur_store_chunks) <= p.(store_chunks) <= c.(ckv).(pln).(max_store_chunks);
  pg_unload : c.(cwt).(n_cur_unload_layers) <= p.(unload_layers)
              <= c.(cwt).(n_cur_unload_layers) + c.(core_layers) }.

(** In phase 1: the balance chunks are untouched, or nothing is left to do. *)
Definition plan_early (c : mzcache_core) (p : plan_vars) : Prop :=
  p.(unload_layers) = c.(cwt).(n_cur_unload_layers) ∧
  (p.(comp_chunks) <= c.(ckv).(pln).(max_comp_chunks) - balance_total c ∨
   (p.(store_chunks) = c.(ckv).(pln).(max_store_chunks) ∧ bound_chunks c <= p.(processed))).

Lemma core_capacity s0 w0 c : core_run s0 w0 c →
  c.(ckv).(pln).(max_comp_chunks) + c.(ckv).(pln).(max_store_chunks) = total_chunks c ∧
  0 <= balance_total c ∧ bound_chunks c = total_chunks c - balance_total c.
Proof.
  intros [[Hl _ _] _ Hs HL HN _ _]. unfold bound_chunks, total_chunks, balance_total. rewrite HL, HN.
  split; [by apply capacity|]. split; [|done]. pose proof (lo_L _ Hl).
  apply Z.mul_nonneg_nonneg; [apply Hs|lia].
Qed.

Lemma plan_start_stage s0 w0 c : core_run s0 w0 c → plan_stage c (plan_start c) ∧ plan_early c (plan_start c).
Proof.
  intros Hc. pose proof Hc as [[Hl Hm Ht] _ Hs HL HN Hw HwL].
  destruct (core_capacity _ _ _ Hc) as (Hcap & Hb & Hbd).
  pose proof (comp_rem_nonneg _ Hl). pose proof (store_rem_nonneg _ Hl).
  pose proof (lo_ncomp _ Hl). pose proof (lo_nstore _ Hl). pose proof (lo_L _ Hl).
  split; [split; cbn; lia|]. split; [done|]. cbn.
  destruct (sg_stage _ _ Hs) as [[Hx _]|[Hx Hy]]; [left; unfold balance_total; lia|right].
  split; [lia|]. rewrite Hbd. unfold balance_total in *. rewrite HL in *.
  pose proof (sg_balance _ _ Hs). destruct (um_ok _ _ Hw) as [? ?]. rewrite HwL in *. nia.
Qed.

Lemma plan_phase1_step s0 w0 c p : core_run s0 w0 c → plan_stage c p → plan_early c p →
  ∃ r, plan_phase1_body b target c p = Ok r ∧
    match r with
    | Go p' => (plan_stage c p' ∧ plan_early c p') ∧
               0 <= total_chunks c - p'.(processed) < total_chunks c - p.(processed)
    | Leave p' => plan_stage c p' ∧ p'.(unload_layers) = c.(cwt).(n_cur_unload_layers) ∧
                  p'.(store_chunks) = c.(ckv).(pln).(max_store_chunks) ∧ bound_chunks c <= p'.(processed)
    | Return p' => plan_stage c p' ∧ plan_reached b target c p' = true
    end.
Proof.
  intros Hc [Hp1 Hp2 Hp3 Hp4] [He1 He2]. destruct (core_capacity _ _ _ Hc) as (Hcap & Hb & Hbd).
  unfold plan_phase1_body. destruct (Z.ltb_spec (processed p) (bound_chunks c)) as [Hlt|Hge].
  2:{ eexists. split; [reflexivity|]. split; [done|]. split; [done|]. split; [|done].
      destruct He2 as [?|[? _]]; [lia|done]. }
  destruct He2 as [He2|[_ ?]]; [|lia].
  destruct (plan_reached b target c p) eqn:Er; [by eexists|].
  set (n := Z.min 20 _).
  destruct (step_ratio_elim _ n (sg_ratio _ _ (cr_staged _ _ _ Hc))) as (d & Hd & Hdn); [lia|].
  destruct (allocate_chunks_agree (max_comp_chunks (pln (ckv c)) - balance_total c)
              (max_store_chunks (pln (ckv c))) (comp_chunks p) (store_chunks p) n _ d Hd Hdn)
    as (ac & ass & _ & -> & Hac & Has & Hsum).
  rewrite (proj2 (Z.eqb_neq (ac + ass) 0)) by lia. eexists. split; [reflexivity|]. cbn.
  split; [split; split; cbn; try lia; left; lia|lia].
Qed.

Lemma planner_run (fuel : nat) (s : kv_state) (c : mzcache_core) :
  core_run s c.(cwt) c → total_chunks c < Z.of_nat fuel →
  ∃ p, mzcache_profile_chunks_layers b target c fuel = Ok (Some p) ∧ plan_stage c p ∧
    (plan_reached b target c p = true ∨
     (p.(comp_chunks) = c.(ckv).(pln).(max_comp_chunks) ∧
      p.(store_chunks) = c.(ckv).(pln).(max_store_chunks) ∧
      p.(unload_layers) = c.(cwt).(n_cur_unload_layers) + c.(core_layers))).
Proof.
  intros Hc Hfuel. destruct (core_capacity _ _ _ Hc) as (Hcap & Hb & Hbd).
  destruct (plan_start_stage _ _ _ Hc) as [Hst Hea]. pose proof (counts_nonneg _ (cr_inv _ _ _ Hc)).
  unfold mzcache_profile_chunks_layers.
  destruct (while_loop_ends (λ p, plan_stage c p ∧ plan_early c p)
    (λ p, plan_stage c p ∧ p.(unload_layers) = c.(cwt).(n_cur_unload_layers) ∧
       p.(store_chunks) = c.(ckv).(pln).(max_store_chunks) ∧ bound_chunks c <= p.(processed))
    (λ p, plan_stage c p ∧ plan_reached b target c p = true)
    (λ p, total_chunks c - p.(processed)) (plan_phase1_body b target c) fuel (plan_start c))
    as (ret & p1 & -> & Hp1).
  - intros p [Hp He]. by eapply plan_phase1_step.
  - done.
  - destruct Hst as [h1 h2 h3 h4]. lia.
  - cbn [obind]. destruct ret; [exists p1; split; [done|]; split; [apply Hp1|left; apply Hp1]|].
    destruct Hp1 as (Hp1 & Hu1 & Hs1 & Hb1). pose proof (lo_L _ (si_ladder _ (cr_inv _ _ _ Hc))) as HL.
    pose proof (cr_layers _ _ _ Hc) as HcL. pose proof (sg_balance _ _ (cr_staged _ _ _ Hc)) as Hplb.
    set (k := λ p, core_layers c - (unload_layers p - n_cur_unload_layers (cwt c))).
    destruct (for_flow_ends (λ p, plan_stage c p ∧ p.(store_chunks) = c.(ckv).(pln).(max_store_chunks) ∧
        total_chunks c - p.(processed) <= c.(ckv).(per_layer_balance) * k p)
      (λ p, plan_stage c p ∧ (p.(comp_chunks) = c.(ckv).(pln).(max_comp_chunks) ∧
         p.(store_chunks) = c.(ckv).(pln).(max_store_chunks) ∧
         p.(unload_layers) = c.(cwt).(n_cur_unload_layers) + c.(core_layers)))
      (λ p, plan_stage c p ∧ plan_reached b target c p = true) k
      (plan_phase2_body b target c) (Z.to_nat (core_layers c)) p1) as (ret & p2 & -> & Hp2).
    + intros p ([Q1 Q2 Q3 Q4] & Qs & Qk) Hk. unfold plan_phase2_body.
      destruct (plan_reached b target c p) eqn:Er; eexists; (split; [reflexivity|]); cbn iota; [done|].
      unfold k in *. cbn. split; [|lia].
      assert (0 <= core_layers c - (unload_layers p + 1 - n_cur_unload_layers (cwt c))) as H0 by lia.
      pose proof (Z.mul_nonneg_nonneg _ _ Hplb H0).
      split; [split; cbn; lia|]. split; [done|]. lia.
    + intros p (Q & Qs & Qk) Hk. split; [done|]. rewrite Hk in Qk. unfold k in Hk. destruct Q. lia.
    + split; [done|]. split; [done|]. unfold k. rewrite Hu1. unfold bound_chunks, balance_total in *. lia.
    + unfold k. rewrite Hu1. lia.
    + cbn [obind]. exists p2. split; [done|]. destruct ret; destruct Hp2 as [? ?]; auto.
Qed.


(** When weights were unloaded before and the target is out of reach, the
    planner answers with more layers than the model has: its second loop always
    runs over all layers, where the one of [swapout_impl] leaves out those already
    unloaded. *)
Theorem planner_overruns (fuel : nat) (s : kv_state) (c : mzcache_core) :
  core_run s c.(cwt) c → total_chunks c < Z.of_nat fuel → 0 < c.(cwt).(n_cur_unload_layers) →
  (∀ p, plan_reached b target c p = false) →
  ∃ p, mzcache_profile_chunks_layers b target c fuel = Ok (Some p) ∧ c.(core_layers) < p.(unload_layers).
Proof.
  intros Hc Hfuel Hu Hnot. destruct (planner_run fuel s c Hc Hfuel) as (p & Hrun & _ & Hp).
  exists p. split; [done|]. rewrite Hnot in Hp. destruct Hp as [|(_ & _ & ->)]; [done|lia].
Qed.

Hypothesis Hopen : ∀ L, open_ok L = true.
Hypothesis Hpwrite : ∀ p, pwrite_ok p = true.
Hypothesis Hno_dump : dump_readable (-1) = false.

(** C28: The planner's walk is the one of [swapout_impl]: from the counters of
    any core during a swap-out, as long as the predicted ratio is above the
    target, one iteration of its phase 1 (2) changes its counters exactly as one
    iteration of the corresponding phase of [swapout_impl] changes the core's -
    whatever the compression really saved. *)
Theorem planner_follows_swapout (real : float) (s0 : kv_state) (w0 : mzcache_weight) (c : mzcache_core) :
  core_run s0 w0 c → plan_reached b target c (plan_start c) = false →
  (∃ r, phase1_body real c = Ok r ∧
     plan_phase1_body b target c (plan_start c) =
       Ok match r with Go c' | Return c' => Go (plan_start c') | Leave c' => Leave (plan_start c') end) ∧
  (phase1_over c.(ckv) c.(cwt).(n_cur_unload_layers) →
   ∃ r, phase2_body real c = Ok r ∧
     match r with
     | Go c' | Return c' => plan_phase2_body b target c (plan_start c) = Ok (Go (plan_start c'))
     | Leave c' => weight_stuck c'.(cwt) ∨
                   plan_phase2_body b target c (plan_start c) = Ok (Go (plan_start c'))
     end).
Proof.
  intros Hc Hnot. split.
  - destruct (phase1_step Hopen Hpwrite s0 w0 c real Hc) as (r & Hr & Hs).
    exists r. split; [done|].
    assert (Hg : ∀ c', c'.(cwt) = c.(cwt) ∧ grew c c' →
      plan_phase1_body b target c (plan_start c) = Ok (Go (plan_start c'))).
    { intros c' (Ew & Hlt & ac & ass & Ha & Hp & E1 & E2). unfold plan_phase1_body.
      change (processed (plan_start c)) with (processed_chunks c).
      rewrite (proj2 (Z.ltb_lt _ _) Hlt), Hnot. cbn [comp_chunks store_chunks plan_start].
      rewrite Ha, (proj2 (Z.eqb_neq _ _)) by lia. unfold plan_start. rewrite E1, E2, Ew. cbn.
      unfold processed_chunks. do 2 f_equal. f_equal. lia. }
    destruct r as [c'|c'|c']; destruct Hs as (_ & Hs & _); [by apply Hg| |by apply Hg].
    destruct Hs as [-> Hge]. unfold plan_phase1_body. change (processed (plan_start c)) with (processed_chunks c).
    by rewrite (proj2 (Z.ltb_ge _ _) Hge).
  - intros Hov. destruct (phase2_step Hno_dump s0 w0 c real Hc Hov) as (r & Hr & Hs).
    exists r. split; [done|]. cbv zeta in Hs.
    assert (Hg : ∀ c', core_run s0 w0 c' → store_rem c'.(ckv) = 0 →
      comp_rem c'.(ckv) = comp_rem c.(ckv) - Z.min c.(ckv).(per_layer_balance) (comp_rem c.(ckv)) ∧
      c'.(cwt).(n_cur_unload_layers) = c.(cwt).(n_cur_unload_layers) + 1 →
      plan_phase2_body b target c (plan_start c) = Ok (Go (plan_start c'))).
    { intros c' Hc' Hsr [Hcr Hu]. unfold plan_phase2_body. rewrite Hnot. cbv zeta.
      change (processed (plan_start c)) with (processed_chunks c). rewrite (run_left _ _ _ Hc), (proj1 Hov), Z.add_0_r.
      pose proof (lo_ncomp _ (si_ladder _ (cr_inv _ _ _ Hc))). pose proof (lo_ncomp _ (si_ladder _ (cr_inv _ _ _ Hc'))).
      pose proof (lo_nstore _ (si_ladder _ (cr_inv _ _ _ Hc))). pose proof (lo_nstore _ (si_ladder _ (cr_inv _ _ _ Hc'))).
      destruct (mv_cfg _ _ (cr_moved _ _ _ Hc)) as (_ & _ & _ & _ & _ & _ & P1).
      destruct (mv_cfg _ _ (cr_moved _ _ _ Hc')) as (_ & _ & _ & _ & _ & _ & P2).
      rewrite P1 in *. rewrite P2 in *. pose proof (proj1 Hov). unfold plan_start, processed_chunks. cbn.
      do 2 f_equal. f_equal; lia. }
    destruct r as [c'|c'|c']; destruct Hs as ((H1 & _ & H3) & H4).
    + apply Hg; [done|apply H3|apply H4].
    + destruct H4 as [?|[H4 _]]; [by left|right]. apply Hg; [done|apply H3|apply H4].
    + apply Hg; [done|apply H3|apply H4].
Qed.
End thms.
