(* ===== verification/CoreCtor.v ===== *)
(** Construction of the core: [mzcache_core::mzcache_core]
    ([mzcache/src/mzcache_core.cpp]) - the scheduling constants derived from the
    device profile, the legacy values and the overrides, then the KV state and
    the weights. *)
From Stdlib Require Import Ascii Sorting.Sorted.
From S2P Require Import Prelude Floats Profile ThreadPool KvTypes KvPlan KvLadder KvInv KvFrame.
From S2P Require Import KvSwapOut KvSwapOutThms KvGrow KvOffload KvOffloadThms KvSwapIn Weight.
From S2P Require Import KvWorkers KvRestore KvRestoreW KvSystem KvSystemInv KvProgress KvCore.
From S2P Require Import KvStart KvCycle Swapout SwapoutThms SwapoutRun.

(** What the constructor reads from the device and the environment. *)
Record device := Device {
  soc_str : string;                  (* mzcache::soc_model() *)
  profile_file : option string;      (* the profile's text, if it can be opened *)
  env_ratio : option string;         (* MZCACHE_DECOMP_LOAD_RATIO *)
  env_balance : option string }.     (* MZCACHE_PER_LAYER_BALANCE *)

(** [std::replace(name.begin(), name.end(), ' ', '_')]. *)
Fixpoint sanitize (s : string) : string :=
  match s with
  | EmptyString => EmptyString
  | String c s => String (if Ascii.eqb c (ascii_of_nat 32) then ascii_of_nat 95 else c) (sanitize s)
  end.

Definition layer_bytes_of (model_name : string) : Z :=
  if String.eqb model_name "EXAONE-4.0-1.2B" then 71323648
  else if String.eqb model_name "Qwen3-0.6B" then 31469568
  else 0.

(** The profile in use and the ratio it, or the legacy table, gives. *)
Definition core_ratio (b : backend) (soc : SocClass) (file : option string)
    : outcome (option device_profile * float) :=
  if profiling_supported b then
    let '(ok, p) := load_device_profile file empty_profile in
    if negb ok then Throw
    else if negb (String.eqb p.(compression) (compression_name b)) then Throw
    else Ok (Some p, derive_decomp_load_ratio p)
  else Ok (None, match soc with SM8750 => to_f32 (atof "0.16") | _ => f32_of_Z 0 end).

(** [v > 0.0f && v <= 1.0f]. *)
Definition override_ratio (env : option string) (r : float) : float :=
  match env with
  | Some e => let v := to_f32 (atof e) in if f_pos v && SFleb v (f32_of_Z 1) then v else r
  | None => r
  end.

(** [profiled_balance]; [Ub] where [std::lround] is unspecified. *)
Definition profiled_balance (p : option device_profile) (weight_layer_bytes kv_hidden_dim : Z) : outcome Z :=
  match p with
  | Some p =>
      if 0 <? weight_layer_bytes then
        match derive_per_layer_balance p weight_layer_bytes kv_hidden_dim with
        | Some n => Ok n
        | None => Ub
        end
      else Ok (-1)
  | None => Ok (-1)
  end.

(** The balance the KV state ends up with; [Ub] when nothing sets it. *)
Definition core_balance (b : backend) (d : device) (name : string) (p : option device_profile)
    (kv_hidden_dim : Z) : outcome Z :=
  pb <~ profiled_balance p (layer_bytes_of name) kv_hidden_dim ;;
  match initial_balance b name (classify_soc d.(soc_str)) pb d.(env_balance) with
  | Some n => Ok n
  | None => Ub
  end.

Section ctor.
Context `{Cd : Codec} `{Ev : Env}.

(** The constructor, up to the thread pool (see [ThreadPool.make_pool] and
    [Profile.default_core_configs]). *)
Definition mzcache_core_ctor (b : backend) (d : device) (model : string)
    (n_layer _num_layers _kv_hidden_dim _num_chunks_per_tensor : Z) (m : memory) (t0 : chunks)
    : outcome mzcache_core :=
  '(prof, r0) <~ core_ratio b (classify_soc d.(soc_str)) d.(profile_file) ;;
  let decomp_load_ratio := override_ratio d.(env_ratio) r0 in
  let model_name := sanitize model in
  let wlb := layer_bytes_of model_name in
  balance <~ core_balance b d model_name prof _kv_hidden_dim ;;
  s <~ mzcache_kv_state_ctor _num_layers _kv_hidden_dim _num_chunks_per_tensor balance
         decomp_load_ratio m t0 ;;
  Ok (Core _num_layers _num_chunks_per_tensor wlb
        (wlb * _num_layers + TOKENS_PER_CHUNK * _kv_hidden_dim * sizeof_fp16 * 2
                             * _num_chunks_per_tensor * _num_layers)
        s (new_weight n_layer)).

Lemma round_up_4k_idem n : round_up_4k (round_up_4k n) = round_up_4k n.
Proof.
  rewrite (round_up_4k_div n), round_up_4k_div. f_equal.
  rewrite Z.div_add_l by lia. change (4095 / 4096) with 0. apply Z.add_0_r.
Qed.

(** The parts of a fresh KV state the other invariants do not mention. *)
Lemma ctor_rest (L hidden N balance : Z) (r : float) (m : memory) (t0 : chunks) s :
  0 < L → 0 < N → 0 <= balance → ratio_ok N r = true →
  mzcache_kv_state_ctor L hidden N balance r m t0 = Ok s →
  tidy s ∧ (∀ i, s.(dsk).(layer_fds) i = FdClosed) ∧ s.(next_layer_to_offload) = L - 1 ∧
  round_up_4k s.(arena_bytes) = s.(arena_bytes) ∧
  Z.min (balance * L) (N * L) <= s.(pln).(max_comp_chunks) ∧
  s.(cnt).(n_cur_arena_offload_bytes) = 0.
Proof.
  intros HL HN Hb Hr. unfold mzcache_kv_state_ctor. set (s0 := KvState _ _ _ _ _ _ _ _ _ _ _ _ _ _ _ _).
  destruct (derive_plan_spec s0 HN HL Hb Hr) as (pl & c & _ & _ & -> & [_ _ _ Hbal Hcur] & _).
  cbn [obind]. destruct (register_layers _ _ _ _ _ _) as [t []]; [|done]. intros [= <-]. cbn in *.
  split; [split; cbn; rewrite Hcur; cbn; [lia|lia|right; lia]|].
  split; [done|]. split; [done|]. split; [apply round_up_4k_idem|]. done.
Qed.
End ctor.

Section thms.
Context `{Cd : Codec} `{Ev : Env} {CL : CodecLaws Cd}.

(** C32: A core whose profile is usable (or whose build needs none) and whose
    settled constants are sane starts in the state from which every session
    begins: all invariants hold, the ladder is clean, nothing is unloaded, every
    chunk is raw, and the measure of residency starts with nothing freed. *)
Theorem core_ctor_starts (b : backend) (d : device) (model : string) (L hidden N : Z)
    (m : memory) (t0 : chunks) (prof : option device_profile) (r0 : float) (balance : Z) :
  let r := override_ratio d.(env_ratio) r0 in
  core_ratio b (classify_soc d.(soc_str)) d.(profile_file) = Ok (prof, r0) →
  core_balance b d (sanitize model) prof hidden = Ok balance →
  0 < L <= MAX_NUM_LAYERS → 0 < N <= MAX_CHUNKS_PER_TENSOR → 0 < hidden → 0 <= balance →
  ratio_ok N r = true → step_ratio_ok r = true → 0 <= comp_bound hidden →
  tensors_ok L N (TOKENS_PER_CHUNK * hidden * sizeof_fp16) m →
  ∃ c, mzcache_core_ctor b d model L L hidden N m t0 = Ok c ∧ core_ok c.(ckv) c ∧
    clean_ladder c.(ckv) = true ∧ unloaded_layers c.(cwt) = [] ∧ growth_ready c.(ckv) ∧
    c.(ckv).(per_layer_balance) = balance ∧ c.(ckv).(decomp_load_ratio) = r ∧
    c.(full_bytes) = compute_full_bytes c.(weight_layer_bytes) L N c.(ckv) ∧
    (∀ p, in_range c.(ckv) p → c.(ckv).(tab).(states) p = Raw) ∧
    c.(ckv).(mem).(heap) = m.(heap).
Proof.
  intros r Hrat Hbal HL HN Hh Hb Hr Hsr Hcb Hten. unfold mzcache_core_ctor. rewrite Hrat. cbn [obind].
  fold r. rewrite Hbal. cbn [obind].
  destruct (ctor_spec L hidden N balance r m t0 HL HN Hh Hb Hr Hcb Hten)
    as (s & Hs & Hl & Hm & Hc & Hcr & Hsrem & Hraw & Hheap).
  rewrite Hs. cbn [obind]. eexists. split; [reflexivity|]. cbn.
  destruct (ctor_rest L hidden N balance r m t0 s (proj1 HL) (proj1 HN) Hb Hr Hs)
    as (Ht & Hfd & Hnx & Har & Hpl & Hof).
  destruct (ctor_fields _ _ _ _ _ _ _ _ Hs) as (E1 & E2 & E3 & E4 & E5 & E6 & E7).
  split; [|split; [done|split; [|split; [|split; [done|split; [done|split; [|done]]]]]]].
  - split; cbn; try done.
    + apply offloaded_refl; rewrite E1; [done|lia].
    + apply staged_fresh; rewrite ?E1, ?E2, ?E3, ?E5; done.
    + rewrite E1. lia.
    + split; cbn; lia.
  - unfold unloaded_layers. cbn. by rewrite seqZ_nil by lia.
  - intros Hg. rewrite E6, E2 in Hg. lia.
  - unfold compute_full_bytes, kv_chunk_bytes. by rewrite E4.
Qed.

(** A build that supports profiling starts only with a usable profile: the
    constructor throws when the file is missing, when one of its throughputs is
    not positive, or when it was measured with another compression, and otherwise
    takes its ratio from the profile. *)
Theorem core_ctor_refuses (b : backend) (d : device) (model : string) (n_layer L hidden N : Z)
    (m : memory) (t0 : chunks) :
  profiling_supported b = true →
  let '(ok, p) := load_device_profile d.(profile_file) empty_profile in
  if ok && String.eqb p.(compression) (compression_name b)
  then core_ratio b (classify_soc d.(soc_str)) d.(profile_file) = Ok (Some p, derive_decomp_load_ratio p)
  else mzcache_core_ctor b d model n_layer L hidden N m t0 = Throw.
Proof.
  intros Hb. unfold mzcache_core_ctor, core_ratio. rewrite Hb.
  destruct (load_device_profile _ _) as [[] p]; cbn [negb andb]; [|done]. by destruct (String.eqb _ _).
Qed.
End thms.
