(* ===== verification/SwapoutCycle.v ===== *)
(** The life of a cache: swap out, swap in again, and the core is back where it
    was - with every chunk in memory and its content the same, up to one codec
    round trip for the chunks that were compressed. *)
From Stdlib Require Import Sorting.Sorted.
From S2P Require Import Prelude Floats Profile ThreadPool KvTypes KvPlan KvLadder KvInv KvFrame.
From S2P Require Import KvSwapOut KvSwapOutThms KvGrow KvOffload KvOffloadThms KvSwapIn Weight.
From S2P Require Import KvWorkers KvRestore KvRestoreW KvSystem KvSystemInv KvProgress KvCore.
From S2P Require Import KvStart KvCycle KvDone Swapout SwapoutThms SwapoutRun.

Section cycle.
Context `{Cd : Codec} `{Ev : Env} {CL : CodecLaws Cd} `{Sw : SwapEnv} `{Re : ReloadEnv} `{We : WeightEnv}.
Hypothesis Henv : env_good.
Hypothesis Hswap : pwrites_ok.
Hypothesis Hswap_open : ∀ L, odirect_write_ok L = true.
Hypothesis Hno_dump : dump_readable (-1) = false.

(** The world a swap-in finds: the core's cache, the weights in memory except
    those that were unloaded. *)
Definition world_of (c : mzcache_core) (w : world) : Prop :=
  w.(kv) = c.(ckv) ∧ w.(crashed) = false ∧
  ∀ L, 0 <= L < c.(core_layers) → L ∉ unloaded_layers c.(cwt) → w.(weight_loaded) L = true.

Lemma core_ready s c w : core_ok s c → world_of c w → swapin_ready s c.(cwt) w.
Proof.
  intros [Ho Hof Hst Hf Hb Ha HL Hw HwL] (Ek & Hcr & Hl). split; try done; [by rewrite Ek|].
  intros L HL'. apply Hl. by rewrite HL.
Qed.

(** A restored cache and fresh weight counters: the core is at rest. *)
Lemma restored_core_ok s c s5 : core_ok s c → swapped_out s5 → clean_ladder s5 = true →
  comp_rem s5 = s5.(pln).(max_comp_chunks) → store_rem s5 = s5.(pln).(max_store_chunks) →
  s5.(next_layer_to_offload) = s5.(num_layers) - 1 → same_cfg s s5 →
  core_ok s5 (with_weight (with_kv c s5) (new_weight s.(num_layers))).
Proof.
  intros [Ho Hof Hst Hf Hb Ha HL Hw HwL] Ho5 Hc5 Hcr Hsr Hn (E1 & E2 & E3 & E4 & E5 & E6 & E7).
  destruct (clean_counts _ Hc5) as (_ & _ & Hz). pose proof (so_layers _ Ho) as Hpos.
  assert (Hi : swap_inv s5) by (destruct Ho5; done).
  split; rewrite ?E1, ?E5; try done.
  - apply offloaded_refl; [done|]. cbn. by rewrite E1.
  - apply staged_fresh; rewrite ?E1, ?E3, ?E4, ?E6, ?E7; try done; try apply Hst; by rewrite <- E7.
  - cbn. rewrite Hn, E1. lia.
  - split; cbn; lia.
Qed.

(** C1: A whole session.  From a core at rest or half swapped out, [swapout] to
    any target ends; after it any of the four swap-in variants, on any device and
    under any interleaving of main thread and workers, brings the core back to
    rest: the invariants of the next session hold, the ladder is clean, all
    weights are loaded, and every chunk is in memory with its old content or,
    where it was compressed, with what one codec round trip makes of it. *)
Theorem session_cycle (v : swapin_variant) (b : backend) (soc : SocClass) (fuel : nat)
    (target : float) (s : kv_state) (c : mzcache_core) :
  core_ok s c → growth_ready c.(ckv) → MAX_CHUNKS_PER_TENSOR * MAX_NUM_LAYERS < Z.of_nat fuel →
  ∃ c' s', swapout fuel target c = Ok (Some (c', swapout_result c c')) ∧ swapped_to s s' ∧
    ∀ w, world_of c' w →
      ∃ w3 wt' acts, swapin_generate v c'.(cwt) w
          = Ok (w3, wt', acts, s'.(cnt).(n_cur_comp_chunks), s'.(cnt).(n_cur_store_chunks)) ∧
        ∀ st, rtc sys_step (Sys acts w3 (make_pool (default_core_configs b soc))) st → sys_done st →
          let '(s5, wt5) := finish_swapin_cycle s'.(cnt).(n_cur_comp_chunks)
                              s'.(cnt).(n_cur_store_chunks) st.(s_world).(kv) wt' in
          core_ok s5 (with_weight (with_kv c' s5) wt5) ∧ clean_ladder s5 = true ∧
          (∀ L, 0 <= L < c.(core_layers) → st.(s_world).(weight_loaded) L = true) ∧
          ∀ q, in_range s q → s5.(tab).(states) q = Raw ∧
            (view s5 q = view s q ∨
             s.(tab).(states) q = Raw ∧ view s5 q = lossy_view s.(kv_hidden_dim) (view s q)).
Proof.
  intros Hc Hg Hfuel.
  destruct (swapout_run (eg_open Henv) (eg_read Henv) Hswap Hswap_open Hno_dump fuel target s c Hc Hg Hfuel)
    as (c' & s' & Hrun & Hc' & Hsw & Hum & _).
  exists c', s'. split; [done|]. split; [done|]. intros w Hw.
  destruct (swapin_complete_run Henv v b soc s' _ w (core_ready _ _ _ Hc' Hw) (co_bytes _ _ Hc'))
    as (w3 & wt' & acts & Hgen & Hst).
  exists w3, wt', acts. split; [done|]. intros st Hs Hd. specialize (Hst st Hs Hd). cbv zeta in Hst.
  destruct (finish_swapin_cycle _ _ _ _) as [s5 wt5].
  destruct Hst as (H1 & H2 & H3 & H4 & H5 & H6 & H7 & H8 & ->).
  split; [by apply restored_core_ok|]. split; [done|]. split.
  - intros L HL. apply H4. rewrite <- (co_wlayers _ _ Hc'), (um_layers _ _ Hum), (co_wlayers _ _ Hc).
    by rewrite <- (co_layers _ _ Hc).
  - intros q Hq. destruct (proj2 Hsw q Hq) as [Hq' Hv]. destruct (H3 q Hq') as [-> ->].
    split; [done|]. destruct Hv as [[_ ->]|[(_ & _ & ->)|(? & _ & ->)]]; auto.
Qed.
End cycle.
