(* ===== verification/Decode.v ===== *)
(** [mzcache::decode_chunk_aligned] ([mzcache/src/mzcache_core.cpp]): a batch is
    handed to the decoder in pieces that do not straddle a KV chunk. *)
From S2P Require Import Prelude KvTypes.

(** [struct llama_batch]: the arrays are lists, a null pointer is [None]. *)
Record llama_batch := Batch {
  n_tokens : Z;
  token : option (list Z);
  embd : option (list Z);
  positions : option (list Z);
  n_seq_id : option (list Z);
  seq_id : option (list (list Z));
  logits : option (list Z) }.

(** Advancing a pointer by [n] entries. *)
Definition advance {A} (n : Z) (l : option (list A)) : option (list A) := drop (Z.to_nat n) <$> l.

Definition sub_batch (batch : llama_batch) (start_end : Z * Z) : llama_batch :=
  let '(b, e) := start_end in
  Batch (e - b) (advance b batch.(token)) batch.(embd) (advance b batch.(positions))
    (advance b batch.(n_seq_id)) (advance b batch.(seq_id)) (advance b batch.(logits)).

(** [while (end < n && pos[end] % TOKENS_PER_CHUNK != 0) end++]; a read past the
    array is undefined. *)
Fixpoint piece_end (fuel : nat) (pos : list Z) (n e : Z) : outcome Z :=
  match fuel with
  | O => Ok e
  | S fuel =>
      if e <? n then
        match pos !! Z.to_nat e with
        | None => Ub
        | Some p => if Z.rem p TOKENS_PER_CHUNK =? 0 then Ok e else piece_end fuel pos n (e + 1)
        end
      else Ok e
  end.

Section decode.
Context {C : Type} (decode : C → llama_batch → C * Z).

Fixpoint decode_pieces (fuel : nat) (batch : llama_batch) (pos : list Z) (start : Z) (ctx : C)
    : outcome (C * Z) :=
  match fuel with
  | O => Ok (ctx, 0)
  | S fuel =>
      if start <? batch.(n_tokens) then
        e <~ piece_end (Z.to_nat (batch.(n_tokens) - start)) pos batch.(n_tokens) (start + 1) ;;
        let '(ctx', ret) := decode ctx (sub_batch batch (start, e)) in
        if negb (ret =? 0) then Ok (ctx', ret) else decode_pieces fuel batch pos e ctx'
      else Ok (ctx, 0)
  end.

(** A failing [GGML_ASSERT] aborts. *)
Definition decode_chunk_aligned (ctx : C) (batch : llama_batch) : outcome (C * Z) :=
  if batch.(n_tokens) <=? 0 then Ok (decode ctx batch)
  else match batch.(token), batch.(positions) with
       | Some _, Some pos => decode_pieces (Z.to_nat batch.(n_tokens)) batch pos 0 ctx
       | _, _ => Throw
       end.

(** ** Reference: decoding a list of pieces in order, up to the first error *)
Fixpoint decode_all (ctx : C) (l : list llama_batch) : C * Z :=
  match l with
  | [] => (ctx, 0)
  | b :: l => let '(ctx', ret) := decode ctx b in
              if ret =? 0 then decode_all ctx' l else (ctx', ret)
  end.

(** The pieces of [s..n): each ends at the batch's end or where a new chunk
    begins, and nowhere earlier. *)
Inductive chunk_pieces (pos : list Z) (n : Z) : Z → list (Z * Z) → Prop :=
  | pieces_end : chunk_pieces pos n n []
  | pieces_cons s e l : s < e <= n →
      (∀ i p, s < i < e → pos !! Z.to_nat i = Some p → Z.rem p TOKENS_PER_CHUNK <> 0) →
      (e = n ∨ ∃ p, pos !! Z.to_nat e = Some p ∧ Z.rem p TOKENS_PER_CHUNK = 0) →
      chunk_pieces pos n e l → chunk_pieces pos n s ((s, e) :: l).

Lemma piece_end_spec fuel pos n e : n <= Z.of_nat (length pos) → 0 <= e <= n → n - e < Z.of_nat fuel →
  ∃ e', piece_end fuel pos n e = Ok e' ∧ e <= e' <= n ∧
    (∀ i p, e <= i < e' → pos !! Z.to_nat i = Some p → Z.rem p TOKENS_PER_CHUNK <> 0) ∧
    (e' = n ∨ ∃ p, pos !! Z.to_nat e' = Some p ∧ Z.rem p TOKENS_PER_CHUNK = 0).
Proof.
  intros Hn. revert e. induction fuel as [|fuel IH]; intros e He Hf; [lia|]. cbn [piece_end].
  destruct (Z.ltb_spec e n) as [Hlt|Hge]; [|exists e; repeat split; lia || (left; lia)].
  destruct (lookup_lt_is_Some_2 pos (Z.to_nat e)) as [p Hp]; [lia|]. rewrite Hp.
  destruct (Z.eqb_spec (Z.rem p TOKENS_PER_CHUNK) 0) as [Hz|Hz].
  - exists e. split; [done|]. split; [lia|]. split; [lia|]. right. eauto.
  - destruct (IH (e + 1)) as (e' & -> & He' & Hin & Hend); [lia|lia|]. exists e'.
    split; [done|]. split; [lia|]. split; [|done]. intros i q Hi Hq.
    destruct (decide (i = e)) as [->|]; [by simplify_eq|]. apply (Hin i q); [lia|done].
Qed.


Lemma pieces_exist pos n s : 0 <= s <= n → n <= Z.of_nat (length pos) → ∃ l, chunk_pieces pos n s l.
Proof.
  intros Hs Hn. remember (Z.to_nat (n - s)) as k eqn:Hk. revert s Hs Hk.
  induction k as [k IH] using lt_wf_ind. intros s Hs ->.
  destruct (decide (s = n)) as [->|Hne]; [exists []; constructor|].
  destruct (piece_end_spec (S (Z.to_nat (n - s))) pos n (s + 1)) as (e & _ & He & Hin & Hend); [done|lia|lia|].
  destruct (IH (Z.to_nat (n - e)) ltac:(lia) e ltac:(lia) eq_refl) as [l Hl].
  exists ((s, e) :: l). constructor; try done; [lia|]. intros i p Hi. apply Hin. lia.
Qed.

Lemma decode_pieces_spec fuel batch pos s ctx l : n_tokens batch <= Z.of_nat (length pos) →
  0 <= s → n_tokens batch - s <= Z.of_nat fuel → chunk_pieces pos (n_tokens batch) s l →
  decode_pieces fuel batch pos s ctx = Ok (decode_all ctx (sub_batch batch <$> l)).
Proof.
  intros Hn Hs Hf Hl. revert fuel ctx Hs Hf. induction Hl as [|s e l He Hin Hend Hl IH]; intros fuel ctx Hs Hf.
  - destruct fuel; cbn; [done|]. by rewrite Z.ltb_irrefl.
  - destruct fuel as [|fuel]; [lia|]. cbn [decode_pieces fmap list_fmap decode_all].
    rewrite (proj2 (Z.ltb_lt _ _)) by lia.
    destruct (piece_end_spec (Z.to_nat (n_tokens batch - s)) pos (n_tokens batch) (s + 1))
      as (e' & -> & He' & Hin' & Hend'); [done|lia|lia|].
    assert (e' = e) as ->.
    { destruct (Z.lt_trichotomy e' e) as [Hlt|[?|Hlt]]; [|done|]; exfalso.
      - destruct Hend' as [?|(p & Hp & Hz)]; [lia|]. by apply (Hin e' p); [lia|..].
      - destruct Hend as [?|(p & Hp & Hz)]; [lia|]. by apply (Hin' e p); [lia|..]. }
    cbn [obind]. destruct (decode ctx (sub_batch batch (s, e))) as [ctx' ret].
    destruct (Z.eqb_spec ret 0); cbn [negb]; [|done]. apply IH; lia.
Qed.

(** Contiguous positions from [p0] on. *)
Definition contiguous (pos : list Z) (n p0 : Z) : Prop :=
  ∀ i, 0 <= i < n → pos !! Z.to_nat i = Some (p0 + i).

(** A piece of contiguous positions lies within one chunk. *)
Lemma pieces_in_chunk pos n p0 s l : contiguous pos n p0 → 0 <= p0 → 0 <= s → chunk_pieces pos n s l →
  ∀ b e, (b, e) ∈ l → s <= b < e ∧ e <= n ∧
    (p0 + b) / TOKENS_PER_CHUNK = (p0 + (e - 1)) / TOKENS_PER_CHUNK.
Proof.
  intros Hc Hp0 Hs Hl. induction Hl as [|s e l He Hin Hend Hl IH]; intros b e'; [by intros ?%elem_of_nil|].
  intros [[= -> ->]|Hbe]%elem_of_cons.
  - split; [lia|]. split; [lia|].
    assert (Hno : ∀ i, s < i < e → (p0 + i) mod TOKENS_PER_CHUNK <> 0).
    { intros i Hi. specialize (Hin i (p0 + i) Hi). rewrite Z.rem_mod_nonneg in Hin by (unfold TOKENS_PER_CHUNK; lia).
      apply Hin, Hc. lia. }
    unfold TOKENS_PER_CHUNK in *.
    set (q := (p0 + s) / 256). pose proof (Z.div_mod (p0 + s) 256 ltac:(lia)) as Hdm. fold q in Hdm.
    pose proof (Z.mod_pos_bound (p0 + s) 256 ltac:(lia)).
    destruct (Z.lt_ge_cases (p0 + (e - 1)) (256 * (q + 1))) as [Hlt|Hge].
    + apply (Z.div_unique _ 256 q (p0 + (e - 1) - 256 * q)); lia.
    + exfalso. apply (Hno (256 * (q + 1) - p0)); [lia|].
      replace (p0 + (256 * (q + 1) - p0)) with ((q + 1) * 256) by lia. apply Z.mod_mul. lia.
  - destruct (IH ltac:(lia) b e' Hbe) as (? & ? & ?). split; [lia|done].
Qed.

(** The pieces put together are the batch. *)
Lemma pieces_concat {A} (xs : list A) pos n s l : 0 <= s → chunk_pieces pos n s l →
  concat ((λ '(b, e), take (Z.to_nat (e - b)) (drop (Z.to_nat b) xs)) <$> l)
  = take (Z.to_nat (n - s)) (drop (Z.to_nat s) xs).
Proof.
  intros Hs Hl. induction Hl as [|s e l He Hin Hend Hl IH]; cbn [fmap list_fmap concat].
  - by rewrite Z.sub_diag.
  - rewrite IH by lia. replace (Z.to_nat e) with (Z.to_nat s + Z.to_nat (e - s))%nat by lia.
    rewrite <- drop_drop. replace (Z.to_nat (n - s)) with (Z.to_nat (e - s) + Z.to_nat (n - e))%nat by lia.
    apply take_take_drop.
Qed.

(** C31: Decoding a batch chunk by chunk: for contiguous positions the batch is
    cut at exactly the chunk boundaries, every piece is non-empty and lies within
    one KV chunk, the pieces put together are the whole batch in order, and the
    decoder is run on them one after the other until it reports an error. *)
Theorem decode_chunk_aligned_spec (ctx : C) (batch : llama_batch) (toks pos : list Z) (p0 : Z) :
  0 < batch.(n_tokens) → batch.(token) = Some toks → batch.(positions) = Some pos →
  contiguous pos batch.(n_tokens) p0 → 0 <= p0 → batch.(n_tokens) <= Z.of_nat (length pos) →
  ∃ l, decode_chunk_aligned ctx batch = Ok (decode_all ctx (sub_batch batch <$> l)) ∧
    chunk_pieces pos batch.(n_tokens) 0 l ∧
    (∀ b e, (b, e) ∈ l → 0 <= b < e ∧ e <= batch.(n_tokens) ∧
       (p0 + b) / TOKENS_PER_CHUNK = (p0 + (e - 1)) / TOKENS_PER_CHUNK) ∧
    concat ((λ '(b, e), take (Z.to_nat (e - b)) (drop (Z.to_nat b) toks)) <$> l)
      = take (Z.to_nat batch.(n_tokens)) toks.
Proof.
  intros Hn Ht Hp Hc Hp0 Hlen.
  destruct (pieces_exist pos (n_tokens batch) 0 ltac:(lia) Hlen) as [l Hl]. exists l.
  unfold decode_chunk_aligned. rewrite (proj2 (Z.leb_gt _ _) Hn), Ht, Hp.
  rewrite (decode_pieces_spec _ batch pos 0 ctx l) by (done || lia).
  split; [done|]. split; [done|]. split; [by apply (pieces_in_chunk pos)|].
  rewrite (pieces_concat toks pos (n_tokens batch) 0 l) by done. by rewrite Z.sub_0_r, drop_0.
Qed.
End decode.

(** 300 tokens from position 250 on: 6 up to the first boundary, a whole chunk,
    then the rest.  The decoder here counts the tokens it is given. *)
Definition count_decode (n : Z) (b : llama_batch) : Z * Z := (n + b.(n_tokens), 0).
Definition demo_batch : llama_batch :=
  Batch 300 (Some (seqZ 1 300)) None (Some (seqZ 250 300)) None None None.

Lemma decode_chunk_aligned_spec_witness :
  decode_chunk_aligned count_decode 0 demo_batch
    = Ok (decode_all count_decode 0 (sub_batch demo_batch <$> [(0, 6); (6, 262); (262, 300)])) ∧
  ∃ l, decode_chunk_aligned count_decode 0 demo_batch
    = Ok (decode_all count_decode 0 (sub_batch demo_batch <$> l)) ∧
    concat ((λ '(b, e), take (Z.to_nat (e - b)) (drop (Z.to_nat b) (seqZ 1 300))) <$> l) = seqZ 1 300.
Proof.
  split; [vm_compute; reflexivity|].
  destruct (decode_chunk_aligned_spec count_decode 0 demo_batch (seqZ 1 300) (seqZ 250 300) 250)
    as (l & Hrun & _ & _ & Hcat).
  - reflexivity.
  - reflexivity.
  - reflexivity.
  - intros i Hi. apply lookup_seqZ. cbn in Hi. lia.
  - lia.
  - rewrite length_seqZ. reflexivity.
  - exists l. split; [exact Hrun|]. etransitivity; [exact Hcat|]. vm_compute. reflexivity.
Defined.
