(* ===== verification/Flexgen.v ===== *)
(** The FLEXGEN compression backends ([mzcache/kernels/compress.cpp],
    [mzcache/kernels/decompress.cpp]): groups of 64 [__fp16] values quantised to
    4 (8) bits between the group's minimum and maximum.

    The NEON kernels are modelled lane by lane: a vector is a list, every
    operation is the IEEE operation of its element format.  NaN payloads are not
    modelled: a NaN is written as the default NaN. *)
From S2P Require Import Prelude Floats KvTypes.

Definition GROUP_SZ : Z := 64.

(** ** [__fp16] in memory *)

Definition f16_of_bits (w : Z) : float :=
  let s := Z.testbit w 15 in
  let e := Z.land (Z.shiftr w 10) 31 in
  let m := Z.land w 1023 in
  if e =? 0 then
    if m =? 0 then S754_zero s else S754_finite s (Z.to_pos m) (-24)
  else if e =? 31 then
    if m =? 0 then S754_infinity s else S754_nan
  else S754_finite s (Z.to_pos (m + 1024)) (e - 25).

Definition bits_of_f16 (x : float) : Z :=
  match x with
  | S754_zero s => if s then 32768 else 0
  | S754_infinity s => (if s then 32768 else 0) + 31744
  | S754_nan => 32256
  | S754_finite s m e =>
      (if s then 32768 else 0)
      + (if Zpos m <? 1024 then Zpos m else (e + 25) * 1024 + (Zpos m - 1024))
  end.

(** Little-endian halves. *)
Fixpoint halves (l : list byte) : list float :=
  match l with
  | b0 :: b1 :: l => f16_of_bits (Z.lor b0 (Z.shiftl b1 8)) :: halves l
  | _ => []
  end.
Definition half_bytes (x : float) : list byte :=
  let w := bits_of_f16 x in [Z.land w 255; Z.shiftr w 8].
Definition bytes_of (l : list float) : list byte := flat_map half_bytes l.

(** ** NEON lanes *)

(** FMIN/FMAX: a NaN wins, and [-0] is below [+0]. *)
Definition fmin (a b : float) : float :=
  match a, b with
  | S754_nan, _ | _, S754_nan => S754_nan
  | S754_zero s, S754_zero s' => S754_zero (s || s')
  | _, _ => if SFltb a b then a else b
  end.
Definition fmax (a b : float) : float :=
  match a, b with
  | S754_nan, _ | _, S754_nan => S754_nan
  | S754_zero s, S754_zero s' => S754_zero (s && s')
  | _, _ => if SFltb a b then b else a
  end.

(** [vpmin_f16]/[vpmax_f16]: neighbours, of [a] then of [b]. *)
Fixpoint pairwise (f : float → float → float) (l : list float) : list float :=
  match l with
  | x :: y :: l => f x y :: pairwise f l
  | _ => []
  end.
Definition vp (f : float → float → float) (a b : list float) : list float := pairwise f (a ++ b).

(** FCVTNS/FCVTNU: to nearest, ties to even, saturating; NaN gives 0. *)
Definition cvtn (lo hi : Z) (x : float) : Z :=
  match x with
  | S754_zero _ | S754_nan => 0
  | S754_infinity s => if s then lo else hi
  | S754_finite s m e => Z.max lo (Z.min (signed s (mag_round_even m e)) hi)
  end.
Definition cvtn_s32 : float → Z := cvtn (- 2 ^ 31) (2 ^ 31 - 1).
Definition cvtn_u32 : float → Z := cvtn 0 (2 ^ 32 - 1).

(** ** Groups *)

(** Entries [8 i .. 8 i + 7] of a group: one vector. *)
Definition vec (src : list float) (i : nat) : list float := take 8 (drop (8 * i) src).

(** The reduction of a group: the eight vectors, then pairs of lanes. *)
Definition reduce (f : float → float → float) (src : list float) : float :=
  let v := fold_left (λ acc i, zip_with f acc (vec src i)) (seq 1 7) (vec src 0) in
  let p1 := vp f (take 4 v) (drop 4 v) in
  let p2 := vp f p1 p1 in
  hd S754_nan (vp f p2 p2).

(** [range], [scale] and [bias] for [levels] steps. *)
Definition group_scale (levels : Z) (grp_min grp_max : float) : float * float :=
  let range := f32_sub (to_f32 grp_max) (to_f32 grp_min) in
  let scale := if SFltb f32_zero range then f32_div (f32_of_Z levels) range else f32_zero in
  let bias := f32_mul (SFopp (to_f32 grp_min)) scale in
  (scale, bias).

(** [vmlaq_f32(bias, x, scale)]: a product, then a sum. *)
Definition quantise (scale bias x : float) : float := f32_add bias (f32_mul (to_f32 x) scale).

Definition code4 (scale bias x : float) : Z := Z.max 0 (Z.min (cvtn_s32 (quantise scale bias x)) 15).
Definition code8 (scale bias x : float) : Z := Z.max 0 (Z.min (cvtn_u32 (quantise scale bias x)) 255).

(** Two codes per byte, the first in the low nibble. *)
Fixpoint pack4 (l : list Z) : list byte :=
  match l with
  | a :: b :: l => Z.lor (Z.land a 15) (Z.shiftl (Z.land b 15) 4) :: pack4 l
  | _ => []
  end.
(** [vandq], [vshrq_n] and [vzipq]. *)
Definition unpack4 (l : list byte) : list Z := flat_map (λ b, [Z.land b 15; Z.shiftr b 4]) l.

Definition compress_group4 (src : list float) : list byte * float * float :=
  let grp_min := reduce fmin src in
  let grp_max := reduce fmax src in
  let '(scale, bias) := group_scale 15 grp_min grp_max in
  (pack4 (code4 scale bias <$> src), grp_min, grp_max).

Definition compress_group8 (src : list float) : list byte * float * float :=
  let grp_min := reduce fmin src in
  let grp_max := reduce fmax src in
  let '(scale, bias) := group_scale 255 grp_min grp_max in
  (code8 scale bias <$> src, grp_min, grp_max).

(** [flexgen_decompress] works in [__fp16] with a fused product. *)
Definition decompress_group4 (grp_in : list byte) (min_h max_h : float) : list float :=
  let inv15 := f32_div f32_one (f32_of_Z 15) in
  let step_f := f32_mul (f32_sub (to_f32 max_h) (to_f32 min_h)) inv15 in
  let step_h := to_f16 step_f in
  (λ c, fma F16_prec F16_emax (f16_of_Z c) step_h min_h) <$> unpack4 grp_in.

(** [flexgen_decompress_8bit] in [float], then narrows. *)
Definition decompress_group8 (grp_in : list byte) (min_h max_h : float) : list float :=
  let step_f := f32_div (f32_sub (to_f32 max_h) (to_f32 min_h)) (f32_of_Z 255) in
  (λ c, to_f16 (fma F32_prec F32_emax (f32_of_Z c) step_f (to_f32 min_h))) <$> grp_in.

(** ** Whole chunks *)

Definition num_groups (hidden_dim : Z) : Z := TOKENS_PER_CHUNK * hidden_dim / GROUP_SZ.

(** Group [g] of an array with [n] entries per group. *)
Definition group {A} (n : nat) (l : list A) (g : Z) : list A := take n (drop (n * Z.to_nat g) l).

(** The split of the groups over the threads of the pool. *)
Definition worker_ranges (groups num_threads : Z) : list (Z * Z) :=
  let per := (groups + num_threads - 1) / num_threads in
  filter (λ '(b, e), b < e) ((λ t, (t * per, Z.min (t * per + per) groups)) <$> seqZ 0 num_threads).

(** What the workers write: [output], [mins] and [maxs] by group.  The ranges are
    handed to the pool in order and run in any order. *)
Record planes := Planes { p_out : Z → list byte; p_min : Z → float; p_max : Z → float }.

Definition write_group (f : list float → list byte * float * float) (input : list float)
    (p : planes) (g : Z) : planes :=
  let '(out, mn, mx) := f (group 64 input g) in
  Planes (<[g := out]> p.(p_out)) (<[g := mn]> p.(p_min)) (<[g := mx]> p.(p_max)).

Definition worker (f : list float → list byte * float * float) (input : list float)
    (p : planes) (r : Z * Z) : planes :=
  fold_left (write_group f input) (seqZ r.1 (r.2 - r.1)) p.

Definition no_planes : planes := Planes (λ _, []) (λ _, S754_zero false) (λ _, S754_zero false).

(** The arrays read back in order. *)
Definition collect (groups : Z) (p : planes) : list byte * list byte :=
  (concat (p.(p_out) <$> seqZ 0 groups),
   bytes_of (p.(p_min) <$> seqZ 0 groups) ++ bytes_of (p.(p_max) <$> seqZ 0 groups)).

Definition flexgen_run (f : list float → list byte * float * float) (ranges : list (Z * Z))
    (hidden_dim : Z) (input : list byte) : list byte * list byte :=
  collect (num_groups hidden_dim) (fold_left (worker f (halves input)) ranges no_planes).

Definition flexgen_compress (num_threads hidden_dim : Z) (input : list byte) : list byte * list byte :=
  flexgen_run compress_group4 (worker_ranges (num_groups hidden_dim) num_threads) hidden_dim input.
Definition flexgen_compress_8bit (num_threads hidden_dim : Z) (input : list byte) : list byte * list byte :=
  flexgen_run compress_group8 (worker_ranges (num_groups hidden_dim) num_threads) hidden_dim input.

(** Minimum and maximum of group [g] from the metadata (mins, then maxs). *)
Definition meta_at (meta : list byte) (groups g : Z) : float * float :=
  let m := halves meta in
  (nth (Z.to_nat g) m S754_nan, nth (Z.to_nat (groups + g)) m S754_nan).

(** The loop of [flexgen_decompress_single_thread] and [flexgen_decompress_8bit]. *)
Definition flexgen_expand (f : list byte → float → float → list float) (comp_bytes : nat)
    (hidden_dim : Z) (input meta : list byte) : list byte :=
  let groups := num_groups hidden_dim in
  bytes_of (flat_map (λ g, let '(mn, mx) := meta_at meta groups g in f (group comp_bytes input g) mn mx)
              (seqZ 0 groups)).

Definition flexgen_decompress_single_thread : Z → list byte → list byte → list byte :=
  flexgen_expand decompress_group4 32.
Definition flexgen_decompress_8bit : Z → list byte → list byte → list byte :=
  flexgen_expand decompress_group8 64.
