(* ===== verification/FlexgenThms.v ===== *)
(** The FLEXGEN backends: the work split over the threads of the pool, the
    nibble packing, the round trip of a chunk, and the codec interface the KV
    state is proved against. *)
From S2P Require Import Prelude Floats KvTypes KvLadder KvInv Flexgen.

(** ** The split of the groups over the workers *)

(** The groups of one range, in the order its worker visits them. *)
Definition range_groups (r : Z * Z) : list Z := seqZ r.1 (r.2 - r.1).

Lemma ranges_upto per groups k : 0 <= per → 0 <= groups → 0 <= k →
  flat_map range_groups
    (filter (λ '(b, e), b < e)
       ((λ t, (t * per, Z.min (t * per + per) groups)) <$> seqZ 0 k))
  = seqZ 0 (Z.min (k * per) groups).
Proof.
  intros Hp Hg. revert k. apply natlike_ind.
  - rewrite Z.mul_0_l. rewrite (seqZ_nil 0 (Z.min _ _)) by lia. reflexivity.
  - intros k Hk IH. rewrite <- Z.add_1_r, (seqZ_app 0 k 1) by lia.
    rewrite fmap_app, filter_app, flat_map_app, IH, (Z.add_0_l k).
    replace ((k + 1) * per) with (k * per + per) by lia.
    change (seqZ k 1) with [k]. cbn [fmap list_fmap].
    destruct (decide (k * per < Z.min (k * per + per) groups)) as [Hlt|Hge].
    + rewrite filter_cons_True by done. rewrite filter_nil. cbn [flat_map].
      rewrite app_nil_r. unfold range_groups. cbn [fst snd].
      replace (Z.min (k * per) groups) with (k * per) by lia.
      rewrite <- (seqZ_app 0 (k * per)) by lia. f_equal. lia.
    + rewrite filter_cons_False by done. rewrite filter_nil. cbn [flat_map].
      rewrite app_nil_r. f_equal. lia.
Qed.

(** Every group is visited, once, whatever the number of threads. *)
Lemma worker_ranges_cover groups num_threads : 0 <= groups → 0 < num_threads →
  flat_map range_groups (worker_ranges groups num_threads) = seqZ 0 groups.
Proof.
  intros Hg Hn. unfold worker_ranges.
  set (per := (groups + num_threads - 1) / num_threads).
  assert (0 <= per) by (apply Z.div_pos; lia).
  pose proof (Z.div_mod (groups + num_threads - 1) num_threads ltac:(lia)).
  pose proof (Z.mod_pos_bound (groups + num_threads - 1) num_threads Hn).
  rewrite ranges_upto by lia. f_equal. fold per in H0. nia.
Qed.

(** ** Writes of the workers commute *)

Section planes.
Context (f : list float → list byte * float * float) (input : list float).

(** What the arrays hold once the groups of [gs] are written. *)
Definition written (gs : list Z) (p : planes) : Prop :=
  ∀ g, g ∈ gs → let '(out, mn, mx) := f (group 64 input g) in
    p.(p_out) g = out ∧ p.(p_min) g = mn ∧ p.(p_max) g = mx.

Lemma write_group_written gs p g :
  written gs p → written (g :: gs) (write_group f input p g).
Proof.
  intros Hw g' Hg'. unfold write_group.
  destruct (f (group 64 input g)) as [[out mn] mx] eqn:Hf. cbn [p_out p_min p_max].
  destruct (decide (g' = g)) as [->|Hne].
  - rewrite Hf, !fn_lookup_insert. done.
  - rewrite !fn_lookup_insert_ne by done. apply Hw. by apply elem_of_cons in Hg' as [?|?].
Qed.

Lemma writes_written order gs p :
  written gs p → written (gs ++ order) (fold_left (write_group f input) order p).
Proof.
  revert gs p. induction order as [|g order IH]; intros gs p Hw; cbn [fold_left].
  - by rewrite app_nil_r.
  - pose proof (IH _ _ (write_group_written _ _ g Hw)) as H.
    intros g' Hg'. apply H. apply elem_of_app. rewrite elem_of_cons.
    apply elem_of_app in Hg' as [?|Hg']; [|apply elem_of_cons in Hg']; tauto.
Qed.

Definition group_out (g : Z) : list byte := (f (group 64 input g)).1.1.
Definition group_min (g : Z) : float := (f (group 64 input g)).1.2.
Definition group_max (g : Z) : float := (f (group 64 input g)).2.

(** The arrays in order, group by group. *)
Definition by_group (groups : Z) : list byte * list byte :=
  (concat (group_out <$> seqZ 0 groups),
   bytes_of (group_min <$> seqZ 0 groups) ++ bytes_of (group_max <$> seqZ 0 groups)).

Lemma collect_written groups p : written (seqZ 0 groups) p → collect groups p = by_group groups.
Proof.
  intros Hw. unfold collect, by_group.
  assert (∀ g, g ∈ seqZ 0 groups →
    p.(p_out) g = group_out g ∧ p.(p_min) g = group_min g ∧ p.(p_max) g = group_max g) as He.
  { intros g Hg. specialize (Hw g Hg). unfold group_out, group_min, group_max.
    by destruct (f (group 64 input g)) as [[??]?]. }
  f_equal; [f_equal|f_equal; f_equal]; apply list_fmap_ext; intros i x Hx;
    apply He; by eapply list_elem_of_lookup_2.
Qed.

(** Any interleaving of the workers' groups gives the same arrays. *)
Lemma interleaved_collect groups order p : order ≡ₚ seqZ 0 groups →
  collect groups (fold_left (write_group f input) order p) = by_group groups.
Proof.
  intros Hp. apply collect_written. intros g Hg.
  apply (writes_written order [] p); [intros ? []%elem_of_nil|]. cbn [app].
  by rewrite Hp.
Qed.

Lemma workers_fold ranges p :
  fold_left (worker f input) ranges p
  = fold_left (write_group f input) (flat_map range_groups ranges) p.
Proof.
  revert p. induction ranges as [|r ranges IH]; intros p; [done|].
  cbn [fold_left flat_map]. rewrite fold_left_app. apply IH.
Qed.
End planes.

(** ** Bytes *)

#[export] Instance float_eq_dec : EqDecision float.
Proof. solve_decision. Defined.

(** A value a half can hold (the default NaN among the NaNs). *)
Definition is_f16 (x : float) : Prop := f16_of_bits (bits_of_f16 x) = x.

Lemma f16_of_bits_low w : f16_of_bits w = f16_of_bits (Z.land w 65535).
Proof.
  unfold f16_of_bits. change 65535 with (Z.ones 16).
  assert (∀ k n, 0 <= k → 0 <= n → k + n <= 16 →
    Z.land (Z.shiftr (Z.land w (Z.ones 16)) k) (Z.ones n) = Z.land (Z.shiftr w k) (Z.ones n)) as Hl.
  { intros k n Hk Hn Hs. apply Z.bits_inj'. intros i Hi.
    rewrite !Z.land_spec, !Z.shiftr_spec, Z.land_spec by lia.
    rewrite !Z.testbit_ones_nonneg by lia.
    destruct (Z.ltb_spec i n); [|by rewrite !andb_false_r].
    destruct (Z.ltb_spec (i + k) 16); [by rewrite andb_true_r|lia]. }
  change 31 with (Z.ones 5). change 1023 with (Z.ones 10).
  rewrite (Hl 10 5) by lia. pose proof (Hl 0 10 ltac:(lia) ltac:(lia) ltac:(lia)) as H0.
  rewrite !Z.shiftr_0_r in H0. rewrite H0.
  rewrite Z.land_spec, Z.testbit_ones_nonneg by lia. by rewrite andb_true_r.
Qed.

(** Every 16-bit pattern, read and written, reads as the same value. *)
Lemma all_halves_roundtrip :
  forallb (λ hi, forallb (λ lo, bool_decide (is_f16 (f16_of_bits (hi * 256 + lo)))) (seqZ 0 256))
    (seqZ 0 256) = true.
Proof. vm_compute. reflexivity. Qed.

Lemma f16_of_bits_is_f16 w : is_f16 (f16_of_bits w).
Proof.
  rewrite f16_of_bits_low. pose proof all_halves_roundtrip as H. rewrite forallb_forall in H.
  change 65535 with (Z.ones 16). rewrite Z.land_ones by lia.
  pose proof (Z.mod_pos_bound w (2 ^ 16) ltac:(lia)) as Hv. revert Hv.
  generalize (w mod 2 ^ 16). intros v Hv.
  pose proof (Z.div_mod v 256 ltac:(lia)) as Hd.
  pose proof (Z.mod_pos_bound v 256 ltac:(lia)) as Hm.
  assert (∀ i, 0 <= i < 256 → In i (seqZ 0 256)) as Hin
    by (intros i Hi; apply list_elem_of_In, elem_of_seqZ; lia).
  specialize (H (v / 256) (Hin (v / 256) ltac:(lia))). rewrite forallb_forall in H.
  specialize (H (v mod 256) (Hin _ Hm)). apply bool_decide_eq_true_1 in H.
  by replace (v / 256 * 256 + v mod 256) with v in H by lia.
Qed.

Lemma halves_is_f16 l : Forall is_f16 (halves l).
Proof.
  induction l as [| |b0 b1 l IH] using list_pair_ind; cbn [halves]; constructor; [|done].
  apply f16_of_bits_is_f16.
Qed.

Lemma half_bytes_read x l : halves (half_bytes x ++ l) = f16_of_bits (bits_of_f16 x) :: halves l.
Proof.
  unfold half_bytes. cbn [app halves]. f_equal. f_equal.
  set (w := bits_of_f16 x). change 255 with (Z.ones 8).
  apply Z.bits_inj'. intros i Hi. rewrite Z.lor_spec, Z.land_spec.
  rewrite Z.testbit_ones_nonneg, Z.shiftl_spec by lia.
  destruct (Z.ltb_spec i 8).
  - rewrite (Z.testbit_neg_r _ (i - 8)) by lia. by rewrite andb_true_r, orb_false_r.
  - rewrite Z.shiftr_spec by lia. rewrite andb_false_r. cbn. f_equal. lia.
Qed.

Lemma halves_bytes_of l : Forall is_f16 l → halves (bytes_of l) = l.
Proof.
  induction 1 as [|x l Hx Hl IH]; [done|]. unfold bytes_of. cbn [flat_map].
  rewrite half_bytes_read. f_equal; [exact Hx|exact IH].
Qed.

Lemma length_bytes_of l : length (bytes_of l) = (2 * length l)%nat.
Proof. induction l as [|x l IH]; [done|]. unfold bytes_of in *. simpl. rewrite IH. lia. Qed.

Lemma length_halves l : length (halves l) = (length l / 2)%nat.
Proof.
  induction l as [| |b0 b1 l IH] using list_pair_ind; [done|done|].
  cbn [halves length]. rewrite IH. change (S (S (length l))) with (1 * 2 + length l)%nat.
  by rewrite Nat.div_add_l by lia.
Qed.

(** ** Minimum and maximum of a group *)

Section minmax.
Context (op : float → float → float).
Hypothesis op_f16 : ∀ a b, is_f16 a → is_f16 b → is_f16 (op a b).

Lemma zip_f16 l k : Forall is_f16 l → Forall is_f16 k → Forall is_f16 (zip_with op l k).
Proof. intros Hl. revert k. induction Hl; intros k []; simpl; eauto. Qed.

Lemma pairwise_f16 l : Forall is_f16 l → Forall is_f16 (pairwise op l).
Proof.
  induction l as [| |x y l IH] using list_pair_ind; intros Hl; cbn [pairwise]; [done|done|].
  apply Forall_cons in Hl as [Hx [Hy Hl]%Forall_cons]. constructor; auto.
Qed.

Lemma vp_f16 a b : Forall is_f16 a → Forall is_f16 b → Forall is_f16 (vp op a b).
Proof. intros. by apply pairwise_f16, Forall_app. Qed.

Lemma reduce_f16 src : Forall is_f16 src → is_f16 (reduce op src).
Proof.
  intros Hs. unfold reduce.
  assert (∀ i, Forall is_f16 (vec src i)) as Hv by (intros i; by apply Forall_take, Forall_drop).
  assert (∀ ks acc, Forall is_f16 acc →
    Forall is_f16 (fold_left (λ acc i, zip_with op acc (vec src i)) ks acc)) as Hf.
  { intros ks. induction ks as [|k ks IH]; intros acc Ha; cbn [fold_left]; [done|].
    by apply IH, zip_f16. }
  specialize (Hf (seq 1 7) _ (Hv 0%nat)). revert Hf.
  generalize (fold_left (λ acc i, zip_with op acc (vec src i)) (seq 1 7) (vec src 0)).
  intros v Hf.
  assert (Forall is_f16 (vp op (take 4 v) (drop 4 v))) as H1
    by (apply vp_f16; [by apply Forall_take|by apply Forall_drop]).
  pose proof (vp_f16 _ _ H1 H1) as H2. pose proof (vp_f16 _ _ H2 H2) as H3.
  cbv zeta. by destruct H3.
Qed.
End minmax.

Lemma fmin_f16 a b : is_f16 a → is_f16 b → is_f16 (fmin a b).
Proof.
  intros Ha Hb. destruct a as [s| | |], b as [s'| | |]; cbn [fmin]; try case_match; try done.
  by destruct (s || s').
Qed.
Lemma fmax_f16 a b : is_f16 a → is_f16 b → is_f16 (fmax a b).
Proof.
  intros Ha Hb. destruct a as [s| | |], b as [s'| | |]; cbn [fmax]; try case_match; try done.
  by destruct (s && s').
Qed.

(** ** Nibbles *)

Lemma code4_range scale bias x : 0 <= code4 scale bias x < 16.
Proof. unfold code4. lia. Qed.
Lemma code8_range scale bias x : 0 <= code8 scale bias x < 256.
Proof. unfold code8. lia. Qed.

Lemma nibbles_byte a b : 0 <= a < 16 → 0 <= b < 16 →
  Z.land (Z.lor (Z.land a 15) (Z.shiftl (Z.land b 15) 4)) 15 = a ∧
  Z.shiftr (Z.lor (Z.land a 15) (Z.shiftl (Z.land b 15) 4)) 4 = b.
Proof.
  intros Ha Hb. change 15 with (Z.ones 4).
  rewrite Z.land_lor_distr_l, Z.shiftr_lor, Z.shiftr_shiftl_l by lia. cbn [Z.sub].
  rewrite !Z.land_ones by lia. rewrite (Z.mod_small a), (Z.mod_small b) by lia.
  rewrite (Z.mod_small a) by lia. rewrite Z.shiftl_mul_pow2, Z.shiftr_div_pow2 by lia.
  rewrite Z.mod_mul, (Z.div_small a) by lia. by rewrite Z.lor_0_r, Z.lor_0_l, Z.shiftl_0_r.
Qed.

Lemma unpack_pack4 l : Forall (λ c, 0 <= c < 16) l → Nat.Even (length l) →
  unpack4 (pack4 l) = l.
Proof.
  induction l as [| |a b l IH] using list_pair_ind; intros Hl Hev; [done| |].
  - exfalso. destruct Hev as [k Hk]. simpl in Hk. lia.
  - apply Forall_cons in Hl as [Ha [Hb Hl]%Forall_cons].
    destruct (nibbles_byte a b Ha Hb) as [E1 E2].
    cbn [pack4]. unfold unpack4. cbn [flat_map app]. rewrite E1, E2. do 2 f_equal.
    apply IH; [done|]. destruct Hev as [k Hk]. exists (k - 1)%nat. simpl in Hk. lia.
Qed.

Lemma length_pack4 l : length (pack4 l) = (length l / 2)%nat.
Proof.
  induction l as [| |a b l IH] using list_pair_ind; [done|done|].
  cbn [pack4 length]. rewrite IH. change (S (S (length l))) with (1 * 2 + length l)%nat.
  by rewrite Nat.div_add_l by lia.
Qed.

Lemma length_unpack4 l : length (unpack4 l) = (2 * length l)%nat.
Proof. induction l as [|b l IH]; [done|]. unfold unpack4 in *. simpl. rewrite IH. lia. Qed.

(** ** Groups *)

(** What one group becomes: the minimum plus the value's number of steps. *)
Definition approx4 (src : list float) : list float :=
  let mn := reduce fmin src in
  let mx := reduce fmax src in
  let '(scale, bias) := group_scale 15 mn mx in
  let step_h := to_f16 (f32_mul (f32_sub (to_f32 mx) (to_f32 mn)) (f32_div f32_one (f32_of_Z 15))) in
  (λ x, fma F16_prec F16_emax (f16_of_Z (code4 scale bias x)) step_h mn) <$> src.

Definition approx8 (src : list float) : list float :=
  let mn := reduce fmin src in
  let mx := reduce fmax src in
  let '(scale, bias) := group_scale 255 mn mx in
  let step_f := f32_div (f32_sub (to_f32 mx) (to_f32 mn)) (f32_of_Z 255) in
  (λ x, to_f16 (fma F32_prec F32_emax (f32_of_Z (code8 scale bias x)) step_f (to_f32 mn))) <$> src.

(** A group compressor, with the bytes of a group and what it decompresses to. *)
Record group_codec := GroupCodec {
  gc_bytes : nat;
  gc_comp : list float → list byte * float * float;
  gc_dec : list byte → float → float → list float;
  gc_approx : list float → list float }.

Class GroupLaws (gc : group_codec) : Prop := {
  gl_bytes : ∀ src, length src = 64%nat → length (gc.(gc_comp) src).1.1 = gc.(gc_bytes);
  gl_min : ∀ src, Forall is_f16 src → is_f16 (gc.(gc_comp) src).1.2;
  gl_max : ∀ src, Forall is_f16 src → is_f16 (gc.(gc_comp) src).2;
  gl_dec : ∀ src, length src = 64%nat →
    gc.(gc_dec) (gc.(gc_comp) src).1.1 (gc.(gc_comp) src).1.2 (gc.(gc_comp) src).2
    = gc.(gc_approx) src;
  gl_len : ∀ src, length src = 64%nat → length (gc.(gc_approx) src) = 64%nat }.

Definition group4 : group_codec := GroupCodec 32 compress_group4 decompress_group4 approx4.
Definition group8 : group_codec := GroupCodec 64 compress_group8 decompress_group8 approx8.

#[export] Instance group4_laws : GroupLaws group4.
Proof.
  split; intros src Hs; cbn [group4 gc_bytes gc_comp gc_dec gc_approx];
    unfold compress_group4, approx4; destruct (group_scale _ _ _) as [scale bias]; cbn [fst snd].
  - by rewrite length_pack4, length_fmap, Hs.
  - by apply reduce_f16; [apply fmin_f16|].
  - by apply reduce_f16; [apply fmax_f16|].
  - unfold decompress_group4. cbv zeta. rewrite unpack_pack4.
    + by rewrite <- list_fmap_compose.
    + apply Forall_fmap, Forall_true. intros x. apply code4_range.
    + rewrite length_fmap, Hs. by exists 32%nat.
  - by rewrite length_fmap, Hs.
Qed.

#[export] Instance group8_laws : GroupLaws group8.
Proof.
  split; intros src Hs; cbn [group8 gc_bytes gc_comp gc_dec gc_approx];
    unfold compress_group8, approx8; destruct (group_scale _ _ _) as [scale bias]; cbn [fst snd].
  - by rewrite length_fmap.
  - by apply reduce_f16; [apply fmin_f16|].
  - by apply reduce_f16; [apply fmax_f16|].
  - unfold decompress_group8. cbv zeta. by rewrite <- list_fmap_compose.
  - by rewrite length_fmap, Hs.
Qed.
