(* ===== verification/FlexgenError.v ===== *)
(** How far a value is from what FLEXGEN makes of it: the codes, the step and
    the reconstruction of a group, with every rounding of the kernels counted. *)
From Stdlib Require Import Reals Lra.
From S2P Require Import Prelude Floats FloatReal KvTypes Flexgen FlexgenThms.

(** ** Finite halves *)

(** A finite half: eleven significant bits, and the smallest exponent or a full
    significand. *)
Definition half_shape (x : float) : Prop :=
  match x with
  | S754_finite _ m e => Zpos m < 2048 ∧ -24 <= e <= 5 ∧ (e = -24 ∨ 1024 <= Zpos m)
  | S754_zero _ => True
  | _ => False
  end.

Lemma half_shape_of x : is_f16 x → fin x → half_shape x.
Proof.
  unfold is_f16. generalize (bits_of_f16 x). intros w <-. unfold f16_of_bits.
  change 31 with (Z.ones 5). change 1023 with (Z.ones 10). rewrite !Z.land_ones by lia.
  change (Z.ones 5) with 31.
  pose proof (Z.mod_pos_bound (Z.shiftr w 10) (2 ^ 5) ltac:(lia)) as He.
  pose proof (Z.mod_pos_bound w (2 ^ 10) ltac:(lia)) as Hm.
  destruct (Z.eqb_spec (Z.shiftr w 10 mod 2 ^ 5) 0).
  - destruct (Z.eqb_spec (w mod 2 ^ 10) 0); cbn [half_shape fin]; [done|]. intros _.
    rewrite Z2Pos.id by lia. lia.
  - destruct (Z.eqb_spec (Z.shiftr w 10 mod 2 ^ 5) 31); [by destruct (_ =? _)|].
    cbn [half_shape fin]. intros _. rewrite Z2Pos.id by lia. lia.
Qed.

Lemma half_pos_bounds m e : Zpos m < 2048 →
  (b2 e <= IZR (Zpos m) * b2 e)%R ∧ (IZR (Zpos m) * b2 e < b2 (11 + e))%R.
Proof.
  intros Hm. pose proof (b2_pos e). rewrite b2_add, <- (b2_IZR 11) by lia.
  apply IZR_lt in Hm. assert (1 <= IZR (Zpos m))%R by (apply (IZR_le 1); lia).
  change (IZR (2 ^ 11)) with 2048%R. split; nra.
Qed.

(** *** Comparison *)

Lemma half_shape_canonical x : half_shape x → fin x ∧ canonical 11 16 x.
Proof. by destruct x. Qed.

Lemma half_ltb a b : half_shape a → half_shape b → SFltb a b = true ↔ (val a < val b)%R.
Proof.
  intros [Fa Ca]%half_shape_canonical [Fb Cb]%half_shape_canonical.
  by apply (canonical_ltb 11 16 ltac:(lia)).
Qed.

Lemma half_minmax a b : half_shape a → half_shape b →
  (half_shape (fmin a b) ∧ (val (fmin a b) <= val a)%R ∧ (val (fmin a b) <= val b)%R) ∧
  (half_shape (fmax a b) ∧ (val a <= val (fmax a b))%R ∧ (val b <= val (fmax a b))%R).
Proof.
  intros Ha Hb. pose proof (half_ltb a b Ha Hb) as Hlt.
  destruct a as [sa| | |sa ma ea], b as [sb| | |sb mb eb]; cbn [fmin fmax]; try done;
    (destruct (SFltb _ _) eqn:E;
     [pose proof (proj1 Hlt eq_refl)|
      match type of Hlt with _ ↔ (?u < ?v)%R =>
        assert (v <= u)%R by (apply Rnot_lt_le; intros Hn; apply Hlt in Hn; congruence) end];
     split; (split; [done|split; lra])).
Qed.

(** ** Minimum and maximum of a group *)

(** Every value of [l] is on the right side of some value of [l']. *)
Definition covers (R : float → float → Prop) (l' l : list float) : Prop :=
  ∀ x, x ∈ l → ∃ y, y ∈ l' ∧ R y x.

Section reduce.
Context (op : float → float → float) (R : float → float → Prop) (P : float → Prop).
Hypothesis R_refl : ∀ x, R x x.
Hypothesis R_trans : ∀ x y z, R x y → R y z → R x z.
Hypothesis op_half : ∀ a b, P a → P b → P (op a b).
Hypothesis op_R : ∀ a b, P a → P b → R (op a b) a ∧ R (op a b) b.

Lemma zip_half l k : Forall P l → Forall P k → Forall P (zip_with op l k).
Proof. intros Hl. revert k. induction Hl; intros k []; simpl; eauto. Qed.

Lemma zip_covers l k : length l = length k → Forall P l → Forall P k →
  covers R (zip_with op l k) (l ++ k).
Proof.
  intros Hlen Hl Hk x Hx. rewrite Forall_forall in Hl, Hk.
  apply elem_of_app in Hx as [Hx|Hx]; apply list_elem_of_lookup in Hx as [i Hi].
  - destruct (lookup_lt_is_Some_2 k i) as [y Hy].
    { rewrite <- Hlen. by eapply lookup_lt_Some. }
    exists (op x y). split.
    + eapply list_elem_of_lookup_2. by rewrite (lookup_zip_with _ _ _ i), Hi; cbn; rewrite Hy.
    + apply op_R; [eapply Hl|eapply Hk]; by eapply list_elem_of_lookup_2.
  - destruct (lookup_lt_is_Some_2 l i) as [y Hy].
    { rewrite Hlen. by eapply lookup_lt_Some. }
    exists (op y x). split.
    + eapply list_elem_of_lookup_2. by rewrite (lookup_zip_with _ _ _ i), Hy; cbn; rewrite Hi.
    + apply op_R; [eapply Hl|eapply Hk]; by eapply list_elem_of_lookup_2.
Qed.

(** The eight lanes after the vector part. *)
Lemma lanes src ks acc : length acc = 8%nat → Forall P acc →
  (∀ i, i ∈ ks → length (vec src i) = 8%nat ∧ Forall P (vec src i)) →
  let v := fold_left (λ acc i, zip_with op acc (vec src i)) ks acc in
  length v = 8%nat ∧ Forall P v ∧ covers R v acc ∧
  ∀ i, i ∈ ks → covers R v (vec src i).
Proof.
  revert acc. induction ks as [|k ks IH]; intros acc Hlen Hacc Hv; cbn [fold_left]; cbv zeta.
  - split; [done|split; [done|split; [|intros i []%elem_of_nil]]]. intros x Hx. eauto.
  - destruct (Hv k) as [Hk1 Hk2]; [apply list_elem_of_here|].
    pose proof (zip_covers acc (vec src k) ltac:(congruence) Hacc Hk2) as Hz.
    destruct (IH (zip_with op acc (vec src k))) as (H1 & H2 & H3 & H4).
    + rewrite length_zip_with. lia.
    + by apply zip_half.
    + intros i Hi. apply Hv. by apply list_elem_of_further.
    + assert (∀ l, (∀ x, x ∈ l → x ∈ acc ++ vec src k) → covers R
        (fold_left (λ acc i, zip_with op acc (vec src i)) ks (zip_with op acc (vec src k))) l) as Hc.
      { intros l Hl x Hx. destruct (Hz x (Hl x Hx)) as (y & Hy & Hyx).
        destruct (H3 y Hy) as (z & Hz' & Hzy). eauto. }
      split; [done|split; [done|split]].
      * apply Hc. intros x Hx. apply elem_of_app. by left.
      * intros i Hi. apply elem_of_cons in Hi as [->|Hi]; [|by apply H4].
        apply Hc. intros x Hx. apply elem_of_app. by right.
Qed.

Lemma reduce_covers src : length src = 64%nat → Forall P src →
  P (reduce op src) ∧ ∀ x, x ∈ src → R (reduce op src) x.
Proof.
  intros Hlen Hs.
  assert (∀ i, (i < 8)%nat → length (vec src i) = 8%nat ∧ Forall P (vec src i)) as Hvec.
  { intros i Hi. unfold vec. split; [rewrite length_take, length_drop; lia|].
    by apply Forall_take, Forall_drop. }
  destruct (lanes src (seq 1 7) (vec src 0)) as (H1 & H2 & H3 & H4);
    [apply Hvec; lia|apply Hvec; lia|intros i Hi%elem_of_seq; apply Hvec; lia|].
  unfold reduce. cbv zeta. revert H1 H2 H3 H4.
  generalize (fold_left (λ acc i, zip_with op acc (vec src i)) (seq 1 7) (vec src 0)).
  intros v H1 H2 H3 H4.
  assert (∀ x, x ∈ src → ∃ y, y ∈ v ∧ R y x) as Hcov.
  { intros x Hx. apply list_elem_of_lookup in Hx as [n Hn].
    assert (n < 64)%nat by (rewrite <- Hlen; by eapply lookup_lt_Some).
    assert (x ∈ vec src (n / 8)) as Hin.
    { apply (list_elem_of_lookup_2 _ (n mod 8)). unfold vec.
      pose proof (Nat.mod_upper_bound n 8). rewrite lookup_take_lt, lookup_drop by lia.
      by rewrite <- Nat.div_mod_eq. }
    destruct (decide (n / 8 = 0)%nat) as [Hz|Hnz]; [rewrite Hz in Hin; by apply H3|].
    apply (H4 (n / 8)%nat); [|done]. apply elem_of_seq.
    pose proof (Nat.Div0.div_lt_upper_bound n 8 8). lia. }
  do 8 (destruct v as [|? v]; [done|]). destruct v; [|done].
  repeat match goal with H : Forall _ (_ :: _) |- _ => apply Forall_cons in H as [? H] end.
  cbn [take drop vp pairwise app hd].
  repeat match goal with
  | |- context [op ?a ?b] =>
      assert (P (op a b)) by (by apply op_half);
      let Ha := fresh in let Hb := fresh in
      assert (R (op a b) a ∧ R (op a b) b) as [Ha Hb] by (by apply op_R);
      let c := fresh "c" in set (c := op a b) in *; clearbody c
  end.
  split; [done|]. intros x Hx. destruct (Hcov x Hx) as (y & Hy & Hyx).
  repeat (apply elem_of_cons in Hy as [->|Hy]; [by eauto 6|]). by apply elem_of_nil in Hy.
Qed.
End reduce.

Lemma minmax_attained a b : half_shape a → half_shape b →
  (val (fmin a b) = val a ∨ val (fmin a b) = val b) ∧
  (val (fmax a b) = val a ∨ val (fmax a b) = val b).
Proof.
  intros Ha Hb. destruct a as [sa| | |sa ma ea], b as [sb| | |sb mb eb]; try done; cbn [fmin fmax];
    [by split; left|..]; destruct (SFltb _ _); auto.
Qed.

(** The minimum and the maximum of a group are values of it, and bound it. *)
Lemma group_bounds src : length src = 64%nat → Forall half_shape src →
  (half_shape (reduce fmin src) ∧ ∃ y, y ∈ src ∧ val (reduce fmin src) = val y) ∧
  (half_shape (reduce fmax src) ∧ ∃ y, y ∈ src ∧ val (reduce fmax src) = val y) ∧
  ∀ x, x ∈ src → (val (reduce fmin src) <= val x <= val (reduce fmax src))%R.
Proof.
  intros Hlen Hs. set (P x := half_shape x ∧ ∃ y, y ∈ src ∧ val x = val y).
  assert (Forall P src) as HP.
  { rewrite Forall_forall in Hs |- *. intros x Hx. split; [by apply Hs|by exists x]. }
  assert (∀ a b, P a → P b → P (fmin a b) ∧ P (fmax a b)) as Hcl.
  { intros a b [Ha (ya & Hya & Ea)] [Hb (yb & Hyb & Eb)].
    destruct (half_minmax a b Ha Hb) as [[? _] [? _]].
    destruct (minmax_attained a b Ha Hb) as [[E1|E1] [E2|E2]];
      split; (split; [done|]); rewrite ?E1, ?E2; eauto. }
  destruct (reduce_covers fmin (λ y x, (val y <= val x)%R) P) with (src := src) as [H1 H2];
    [intros; lra|intros; lra|intros a b Ha Hb; by apply Hcl
    |intros a b Ha Hb; by apply (half_minmax a b (proj1 Ha) (proj1 Hb))|done|done|].
  destruct (reduce_covers fmax (λ y x, (val x <= val y)%R) P) with (src := src) as [H3 H4];
    [intros; lra|intros; lra|intros a b Ha Hb; by apply Hcl
    |intros a b Ha Hb; by apply (half_minmax a b (proj1 Ha) (proj1 Hb))|done|done|].
  split; [done|split; [done|]]. intros x Hx. auto.
Qed.

(** ** Two different halves are not too close *)

Lemma multiple_apart k x y : ∀ e, (x = IZR k * b2 e)%R → (y < x)%R → (∃ k', y = IZR k' * b2 e)%R →
  (b2 e <= x - y)%R.
Proof.
  intros e -> Hlt [k' ->]. pose proof (b2_pos e).
  assert (k' < k) as Hk by (apply lt_IZR; nra).
  assert (IZR (k' + 1) <= IZR k)%R as Hk' by (apply IZR_le; lia). rewrite plus_IZR in Hk'. nra.
Qed.

(** The exponent of [x] is at least [e]. *)
Definition exp_ge (e : Z) (x : float) : bool :=
  match x with S754_finite _ _ ex => e <=? ex | _ => true end.

Lemma half_multiple x e : half_shape x → exp_ge e x → ∃ k, (val x = IZR k * b2 e)%R.
Proof.
  intros Hx He. destruct x as [s| | |s m ex]; try done.
  - exists 0. cbn [val]. lra.
  - exists (cond_Zopp s (Zpos m) * 2 ^ (ex - e)). cbn [val].
    apply Is_true_eq_true, Z.leb_le in He.
    rewrite mult_IZR, b2_IZR, Rmult_assoc, <- b2_add by lia.
    replace (ex - e + e) with ex by lia. by rewrite val_cond_Zopp.
Qed.

Lemma apart_multiple x y e : half_shape x → half_shape y → exp_ge e x → exp_ge e y →
  (val x ≠ val y) → (b2 e <= Rabs (val x - val y))%R.
Proof.
  intros Hx Hy Hex Hey Hne.
  destruct (half_multiple x e Hx Hex) as [k Hk]. destruct (half_multiple y e Hy Hey) as [k' Hk'].
  destruct (Rlt_or_le (val y) (val x)) as [Hlt|Hle].
  - rewrite Rabs_pos_eq by lra. eapply multiple_apart; eauto.
  - rewrite Rabs_left1 by lra. replace (- (val x - val y))%R with (val y - val x)%R by lra.
    eapply multiple_apart; eauto. lra.
Qed.

Lemma half_exp_ge x : half_shape x → exp_ge (-24) x.
Proof.
  intros Hx. destruct x as [| | |s m e]; try done. destruct Hx as (_ & He & _).
  apply Is_true_eq_left, Z.leb_le. lia.
Qed.

Lemma halves_apart_le x y : half_shape x → half_shape y → val x ≠ val y →
  (Rabs (val y) <= Rabs (val x))%R →
  (Rabs (val x) * b2 (-12) <= Rabs (val x - val y))%R ∧ (b2 (-24) <= Rabs (val x - val y))%R.
Proof.
  intros Hx Hy Hne Hle.
  assert (b2 (-24) <= Rabs (val x - val y))%R as Hlow.
  { apply apart_multiple; try done; by apply half_exp_ge. }
  split; [|done].
  destruct x as [s| | |s m e]; try done.
  { cbn [val]. rewrite Rabs_R0, Rmult_0_l. apply Rabs_pos. }
  pose proof Hx as (Hm & He & Hc). destruct (half_pos_bounds m e Hm) as [Hb1 Hb2].
  assert (Rabs (val (S754_finite s m e)) = IZR (Zpos m) * b2 e)%R as Habs.
  { cbn [val]. rewrite sgn_abs. apply Rabs_pos_eq. pose proof (b2_pos e). lra. }
  assert (b2 (11 + e) * b2 (-12) = b2 (e - 1))%R as Hp by (rewrite <- b2_add; f_equal; lia).
  pose proof (b2_pos (-12)) as H12. pose proof (b2_pos e) as Hbe.
  assert (b2 (-12) <= / 4)%R as H12le.
  { transitivity (b2 (-2)); [apply b2_le; lia|]. change (b2 (-2)) with (/ (2 * (2 * 1)))%R. lra. }
  destruct (exp_ge (e - 1) y) eqn:Hey.
  - rewrite Habs. transitivity (b2 (11 + e) * b2 (-12))%R; [nra|]. rewrite Hp.
    destruct (decide (e = -24)) as [->|Hne24].
    + transitivity (b2 (-24)); [apply b2_le; lia|done].
    + apply apart_multiple; try done; [|by rewrite Hey]. cbn [exp_ge]. apply Is_true_eq_left, Z.leb_le. lia.
  - destruct y as [s'| | |s' m' e']; try done.
    cbn [exp_ge] in Hey. apply Z.leb_gt in Hey. pose proof Hy as (Hm' & He' & Hc'). destruct (half_pos_bounds m' e' Hm') as [_ Hb'].
    assert (Rabs (val (S754_finite s' m' e')) = IZR (Zpos m') * b2 e')%R as Habs'.
    { cbn [val]. rewrite sgn_abs. apply Rabs_pos_eq. pose proof (half_pos_bounds m' e' Hm').
      pose proof (b2_pos e'). lra. }
    assert (b2 (11 + e') <= b2 (e + 9))%R by (apply b2_le; lia).
    assert (2 * b2 (e + 9) = 1024 * b2 e)%R as Hq.
    { replace (e + 9) with (9 + e) by lia. rewrite b2_add, <- (b2_IZR 9) by lia.
      change (IZR (2 ^ 9)) with 512%R. lra. }
    assert (1024 <= IZR (Zpos m))%R by (apply (IZR_le 1024); lia).
    pose proof (Rabs_triang_inv (val (S754_finite s m e)) (val (S754_finite s' m' e'))) as Ht.
    rewrite Habs, Habs' in Ht. rewrite Habs. nra.
Qed.

Lemma halves_apart x y : half_shape x → half_shape y → (val x < val y)%R →
  let M := Rmax (Rabs (val x)) (Rabs (val y)) in
  (M * b2 (-12) <= val y - val x)%R ∧ (b2 (-24) <= val y - val x)%R.
Proof.
  intros Hx Hy Hlt. cbv zeta.
  destruct (Rle_or_lt (Rabs (val y)) (Rabs (val x))) as [Hle|Hgt].
  - rewrite Rmax_left by done.
    destruct (halves_apart_le x y Hx Hy ltac:(lra) Hle) as [H1 H2].
    rewrite (Rabs_left (val x - val y)) in H1, H2 by lra. lra.
  - rewrite Rmax_right by lra.
    destruct (halves_apart_le y x Hy Hx ltac:(lra) ltac:(lra)) as [H1 H2].
    rewrite (Rabs_pos_eq (val y - val x)) in H1, H2 by lra. lra.
Qed.

(** ** The single-precision operations of the kernels *)

(** [r] is [v] rounded to [float] (the absolute part covers subnormal results). *)
Definition near32 (v r : R) : Prop :=
  (Rabs (r - v) <= Rabs v * / 16777216 + / 1152921504606846976)%R.
(** [r] is [v] rounded to [__fp16]. *)
Definition near16 (v r : R) : Prop := (Rabs (r - v) <= Rabs v * / 2048 + / 33554432)%R.

Definition huge : R := 1152921504606846976%R.

Lemma huge_b2 : huge = b2 60.
Proof. rewrite <- b2_IZR by lia. done. Qed.

Lemma b2_inv e n : 0 <= e → 2 ^ e = n → b2 (- e) = (/ IZR n)%R.
Proof.
  intros He <-. rewrite b2_IZR by done. pose proof (b2_mul_inv e). pose proof (b2_pos e).
  apply (Rmult_eq_reg_l (b2 e)); [|lra]. rewrite Rinv_r; lra.
Qed.

Lemma near_near32 v r : near 24 128 v r → near32 v r.
Proof.
  unfold near, near32. intros H. etransitivity; [exact H|].
  rewrite (b2_inv 24 16777216) by (done || lia).
  apply Rplus_le_compat_l. rewrite <- (b2_inv 60) by (done || lia). apply b2_le.
  unfold SpecFloat.emin. lia.
Qed.

Lemma near_near16 v r : near 11 16 v r → near16 v r.
Proof.
  unfold near, near16. intros H. etransitivity; [exact H|].
  change (SpecFloat.emin 11 16 - 1) with (- (25)).
  rewrite (b2_inv 11 2048), (b2_inv 25 33554432) by (done || lia). lra.
Qed.

Section f32.
Context (x y : float).
Hypothesis Hx : fin x.
Hypothesis Hy : fin y.

Lemma huge_ok v e : 60 <= e → (Rabs v <= huge)%R → (Rabs v <= b2 e)%R.
Proof. intros He Hv. rewrite huge_b2 in Hv. etransitivity; [exact Hv|by apply b2_le]. Qed.

Lemma f32_add_near : (Rabs (val x + val y) <= huge)%R →
  fin (f32_add x y) ∧ near32 (val x + val y) (val (f32_add x y)).
Proof.
  intros Hv. destruct (SFadd_near 24 128 ltac:(lia) ltac:(lia) x y Hx Hy) as [H1 H2].
  - by apply huge_ok.
  - split; [exact H1|by apply near_near32].
Qed.

Lemma f32_sub_near : (Rabs (val x - val y) <= huge)%R →
  fin (f32_sub x y) ∧ near32 (val x - val y) (val (f32_sub x y)).
Proof.
  intros Hv. destruct (SFsub_near 24 128 ltac:(lia) ltac:(lia) x y Hx Hy) as [H1 H2].
  - by apply huge_ok.
  - split; [exact H1|by apply near_near32].
Qed.

Lemma f32_mul_near : (Rabs (val x * val y) <= huge)%R →
  fin (f32_mul x y) ∧ near32 (val x * val y) (val (f32_mul x y)).
Proof.
  intros Hv. destruct (SFmul_near 24 128 ltac:(lia) ltac:(lia) x y Hx Hy) as [H1 H2].
  - by apply huge_ok.
  - split; [exact H1|by apply near_near32].
Qed.

Lemma f32_div_near : is_zero y = false → (Rabs (val x / val y) <= huge)%R →
  fin (f32_div x y) ∧ near32 (val x / val y) (val (f32_div x y)).
Proof.
  intros H0 Hv. destruct (SFdiv_near 24 128 ltac:(lia) ltac:(lia) x y Hx Hy H0) as [H1 H2].
  - by apply huge_ok.
  - split; [exact H1|by apply near_near32].
Qed.
End f32.

Lemma to_f32_half x : half_shape x → fin (to_f32 x) ∧ val (to_f32 x) = val x.
Proof.
  intros Hx. destruct x as [s| | |s m e]; try done. destruct Hx as (Hm & He & _).
  apply (round_to_exact 24 128); [lia|lia|lia|unfold SpecFloat.emin; lia|].
  cbn [val]. rewrite sgn_abs. destruct (half_pos_bounds m e Hm) as [H1 H2].
  pose proof (b2_pos e). rewrite Rabs_pos_eq by lra.
  transitivity (b2 (11 + e)); [lra|apply b2_le; lia].
Qed.

Lemma of_Z_exact prec emax n : 0 < prec → prec < emax → 11 <= prec → 16 <= emax → 0 <= n < 2048 →
  fin (binary_normalize prec emax n 0 false) ∧ val (binary_normalize prec emax n 0 false) = IZR n.
Proof.
  intros Hp He Hp' He' Hn.
  assert (IZR n * b2 0 = IZR n)%R as H0 by (rewrite b2_0; lra).
  destruct (binary_normalize_near prec emax Hp He n 0 false) as (H1 & _ & H2).
  - rewrite H0. rewrite Rabs_pos_eq by (apply IZR_le; lia).
    transitivity (b2 11); [|apply b2_le; lia]. rewrite <- b2_IZR by lia. apply IZR_le. lia.
  - split; [exact H1|]. rewrite H2, H0; [done| |unfold SpecFloat.emin; lia].
    pose proof (Z.pow_le_mono_r 2 11 prec). lia.
Qed.

(** ** Rounding to an integer, and the clamp *)

Lemma mag_round_even_near m e : (Rabs (IZR (mag_round_even m e) - IZR (Zpos m) * b2 e) <= / 2)%R.
Proof.
  unfold mag_round_even. destruct (Z.leb_spec 0 e) as [He|He].
  { rewrite mult_IZR, b2_IZR by done. rewrite Rminus_diag. rewrite Rabs_R0. lra. }
  set (k := 2 ^ (- e)). assert (0 < k) as Hk by (apply Z.pow_pos_nonneg; lia).
  pose proof (Z.div_mod (Zpos m) k ltac:(lia)) as Hd.
  pose proof (Z.mod_pos_bound (Zpos m) k Hk) as Hr. cbv zeta.
  set (q := Zpos m / k) in *. set (r := Zpos m mod k) in *.
  assert (0 < IZR k)%R as HK by (apply IZR_lt; lia).
  assert (IZR (Zpos m) * b2 e = IZR q + IZR r / IZR k)%R as ->.
  { rewrite Hd, plus_IZR, mult_IZR. replace (b2 e) with (/ IZR k)%R; [field; lra|].
    unfold k. rewrite <- (b2_inv (- e)) by (done || lia). f_equal. lia. }
  assert (IZR r / IZR k * IZR k = IZR r)%R as Hdk by (field; lra).
  revert Hdk. generalize (IZR r / IZR k)%R. intros d Hdk.
  assert (0 <= IZR r)%R as Hr0 by (apply IZR_le; lia).
  assert (0 <= d)%R by nra.
  assert (d < 1)%R. { assert (IZR r < IZR k)%R by (apply IZR_lt; lia). nra. }
  assert (2 * r <= k → (d <= / 2)%R) as Hle.
  { intros H1. apply IZR_le in H1. rewrite mult_IZR in H1. nra. }
  assert (k <= 2 * r → (/ 2 <= d)%R) as Hge.
  { intros H1. apply IZR_le in H1. rewrite mult_IZR in H1. nra. }
  destruct (Z.ltb_spec (2 * r) k); [specialize (Hle ltac:(lia)); apply Rabs_le; lra|].
  specialize (Hge ltac:(lia)).
  destruct (Z.ltb_spec k (2 * r)); [rewrite plus_IZR; apply Rabs_le; lra|].
  specialize (Hle ltac:(lia)). destruct (Z.even q); rewrite ?plus_IZR; apply Rabs_le; lra.
Qed.

(** The code of a quantised value: half a unit from the value it came from. *)
Lemma code_near lo hi levels q t : fin q → lo <= 0 → levels <= hi → 0 <= levels →
  (0 <= t <= IZR levels)%R →
  let c := Z.max 0 (Z.min (cvtn lo hi q) levels) in
  0 <= c <= levels ∧ (Rabs (IZR c - t) <= / 2 + Rabs (val q - t))%R.
Proof.
  intros Hq Hlo Hhi Hl Ht. cbv zeta. split; [lia|].
  assert (∃ n, Z.max 0 (Z.min (cvtn lo hi q) levels) = Z.max 0 (Z.min n levels) ∧
    (Rabs (IZR n - val q) <= / 2)%R) as (n & -> & Hn).
  { destruct q as [s| | |s m e]; try done; cbn [cvtn].
    - exists 0. split; [done|]. cbn [val]. rewrite Rminus_diag, Rabs_R0. lra.
    - exists (signed s (mag_round_even m e)). split; [lia|]. cbn [val].
      pose proof (mag_round_even_near m e) as H. destruct s; cbn [signed sgn].
      + rewrite opp_IZR. rewrite <- Rabs_Ropp.
        match goal with |- (Rabs ?a <= _)%R => replace a with
          (IZR (mag_round_even m e) - IZR (Zpos m) * b2 e)%R by ring end. done.
      + by rewrite Rmult_1_l. }
  assert (Rabs (IZR (Z.max 0 (Z.min n levels)) - t) <= Rabs (IZR n - t))%R as Hc.
  { destruct (Z.le_gt_cases n 0) as [H0|H0].
    - replace (Z.max 0 (Z.min n levels)) with 0 by lia. apply IZR_le in H0.
      rewrite !Rabs_left1 by lra. lra.
    - destruct (Z.le_gt_cases n levels) as [H1|H1].
      + replace (Z.max 0 (Z.min n levels)) with n by lia. lra.
      + replace (Z.max 0 (Z.min n levels)) with levels by lia. apply IZR_lt in H1.
        rewrite !Rabs_pos_eq by lra. lra. }
  etransitivity; [exact Hc|].
  replace (IZR n - t)%R with ((IZR n - val q) + (val q - t))%R by ring.
  etransitivity; [apply Rabs_triang|]. lra.
Qed.
