(* ===== verification/FlexgenCodec.v ===== *)
(** Whole chunks through the FLEXGEN backends: the compressed layout, the round
    trip, and the two instances of the codec interface of [KvLadder]. *)
From S2P Require Import Prelude Floats KvTypes KvLadder KvInv Flexgen FlexgenThms.

(** ** Pieces of a list built piece by piece *)

Lemma length_pieces {A B} (n : nat) (f : A → list B) (l : list A) :
  (∀ x, x ∈ l → length (f x) = n) → length (concat (f <$> l)) = (n * length l)%nat.
Proof.
  induction l as [|x l IH]; intros Hl; [cbn; lia|].
  cbn [fmap list_fmap concat length]. rewrite length_app, (Hl x), IH; [lia| |].
  - intros y Hy. by apply Hl, list_elem_of_further.
  - apply list_elem_of_here.
Qed.

Lemma group_concat {A} (n : nat) (f : Z → list A) (rest : list A) m g :
  (∀ i, 0 <= i < m → length (f i) = n) → 0 <= g < m →
  group n (concat (f <$> seqZ 0 m) ++ rest) g = f g.
Proof.
  intros Hf Hg. unfold group.
  replace (seqZ 0 m) with (seqZ 0 g ++ [g] ++ seqZ (g + 1) (m - g - 1)).
  - rewrite !fmap_app, !concat_app, <- !app_assoc.
    assert (n * Z.to_nat g = length (concat (f <$> seqZ 0 g)))%nat as ->.
    { rewrite (length_pieces n); [by rewrite length_seqZ|].
      intros i Hi%elem_of_seqZ. apply Hf. lia. }
    rewrite drop_app_length. cbn [fmap list_fmap concat]. rewrite app_nil_r.
    rewrite <- (Hf g Hg). apply take_app_length.
  - change [g] with (seqZ (0 + g) 1). rewrite <- (seqZ_app (0 + g)), <- seqZ_app by lia.
    f_equal. lia.
Qed.

Lemma nth_seqZ {A} (f : Z → A) m g d : 0 <= g < m → nth (Z.to_nat g) (f <$> seqZ 0 m) d = f g.
Proof.
  intros Hg. apply nth_lookup_Some. rewrite list_lookup_fmap, lookup_seqZ_lt by lia.
  cbn. do 2 f_equal. lia.
Qed.

Section chunk.
Context (gc : group_codec) `{!GroupLaws gc}.

Definition chunk_comp (num_threads h : Z) (d : list byte) : list byte * list byte :=
  flexgen_run gc.(gc_comp) (worker_ranges (num_groups h) num_threads) h d.
Definition chunk_dec : Z → list byte → list byte → list byte :=
  flexgen_expand gc.(gc_dec) gc.(gc_bytes).

(** What a chunk reads as after one round trip. *)
Definition chunk_approx (h : Z) (d : list byte) : list byte :=
  bytes_of (flat_map (λ g, gc.(gc_approx) (group 64 (halves d) g)) (seqZ 0 (num_groups h))).

Lemma num_groups_4 h : num_groups h = 4 * h.
Proof.
  unfold num_groups, TOKENS_PER_CHUNK, GROUP_SZ.
  replace (256 * h) with (4 * h * 64) by lia. by rewrite Z.div_mul.
Qed.

Lemma chunk_comp_by_group num_threads h d : 0 < num_threads → 0 < h →
  chunk_comp num_threads h d = by_group gc.(gc_comp) (halves d) (num_groups h).
Proof.
  intros Hn Hh. unfold chunk_comp, flexgen_run. rewrite workers_fold.
  apply interleaved_collect. rewrite worker_ranges_cover; [done| |done].
  rewrite num_groups_4. lia.
Qed.

Context (h : Z) (d : list byte).
Hypothesis d_len : Z.of_nat (length d) = 512 * h.

Lemma group_len g : 0 <= g < num_groups h → length (group 64 (halves d) g) = 64%nat.
Proof.
  intros Hg. rewrite num_groups_4 in Hg. unfold group.
  rewrite length_take, length_drop, length_halves.
  assert (length d = Z.to_nat (256 * h) * 2)%nat as -> by lia. rewrite Nat.div_mul by lia. lia.
Qed.

Lemma group_f16 g : Forall is_f16 (group 64 (halves d) g).
Proof. apply Forall_take, Forall_drop, halves_is_f16. Qed.

Lemma length_out : Z.of_nat (length (by_group gc.(gc_comp) (halves d) (num_groups h)).1)
  = Z.of_nat gc.(gc_bytes) * num_groups h.
Proof.
  unfold by_group. cbn [fst].
  rewrite (length_pieces gc.(gc_bytes)); [rewrite length_seqZ, num_groups_4; lia|].
  intros g Hg%elem_of_seqZ. apply gl_bytes, group_len. lia.
Qed.

Lemma metas_read :
  halves (by_group gc.(gc_comp) (halves d) (num_groups h)).2
  = (group_min gc.(gc_comp) (halves d) <$> seqZ 0 (num_groups h))
    ++ (group_max gc.(gc_comp) (halves d) <$> seqZ 0 (num_groups h)).
Proof.
  unfold by_group. cbn [snd]. unfold bytes_of. rewrite <- flat_map_app. apply halves_bytes_of.
  apply Forall_app; split; apply Forall_fmap, Forall_true; intros g;
    [apply gl_min|apply gl_max]; apply group_f16.
Qed.

(** The bytes after the compressed chunk are not read. *)
Lemma expand_by_group rest :
  chunk_dec h ((by_group gc.(gc_comp) (halves d) (num_groups h)).1 ++ rest)
    (by_group gc.(gc_comp) (halves d) (num_groups h)).2 = chunk_approx h d.
Proof.
  unfold chunk_dec, flexgen_expand, chunk_approx. cbv zeta. f_equal.
  rewrite !flat_map_concat_map. f_equal. apply map_ext_in.
  intros g Hg%list_elem_of_In%elem_of_seqZ. unfold meta_at. cbv zeta. rewrite metas_read.
  rewrite app_nth1 by (rewrite length_fmap, length_seqZ; lia).
  rewrite app_nth2; rewrite length_fmap, length_seqZ; [|lia].
  replace (Z.to_nat (num_groups h + g) - Z.to_nat (num_groups h))%nat with (Z.to_nat g) by lia.
  rewrite !nth_seqZ by lia. unfold by_group at 1. cbn [fst].
  rewrite group_concat; [|intros i Hi; apply gl_bytes, group_len; lia|lia].
  apply gl_dec, group_len. lia.
Qed.

Lemma length_approx : length (chunk_approx h d) = length d.
Proof.
  unfold chunk_approx. rewrite length_bytes_of.
  rewrite flat_map_concat_map, (length_pieces 64).
  - rewrite length_seqZ, num_groups_4. lia.
  - intros g Hg%elem_of_seqZ. apply gl_len, group_len. lia.
Qed.
End chunk.

(** ** The codec interface *)

(** The sizes are those of [mzcache_kv_state]: [raw_chunk * 9 / 32] (17 / 32 with
    8 bits) bounds a compressed pair with its metadata, which counts for
    [2 * TOKENS_PER_CHUNK * kv_hidden_dim * sizeof(uint16_t) / 32]. *)
Definition flexgen_meta_bytes (h : Z) : Z := 2 * TOKENS_PER_CHUNK * h * 2 / 32.

Definition flexgen_codec (num_threads : Z) : Codec := {|
  enc := flexgen_compress num_threads;
  dec := flexgen_decompress_single_thread;
  comp_bound h := 2 * (TOKENS_PER_CHUNK * h * 2) * 9 / 32;
  meta_bytes := flexgen_meta_bytes |}.

Definition flexgen_8bit_codec (num_threads : Z) : Codec := {|
  enc := flexgen_compress_8bit num_threads;
  dec := flexgen_decompress_8bit;
  comp_bound h := 2 * (TOKENS_PER_CHUNK * h * 2) * 17 / 32;
  meta_bytes := flexgen_meta_bytes |}.

Lemma half_bytes_bound h k : 2 * (TOKENS_PER_CHUNK * h * 2) * k / 32 = 32 * k * h.
Proof.
  unfold TOKENS_PER_CHUNK. replace (2 * (256 * h * 2) * k) with (32 * k * h * 32) by lia.
  by rewrite Z.div_mul.
Qed.

(** The laws, from what a chunk's compressed size is. *)
Lemma chunk_codec_laws gc `{!GroupLaws gc} (num_threads k : Z) (C : Codec) :
  0 < num_threads → k <= 32 → 8 * Z.of_nat gc.(gc_bytes) <= 32 * k →
  C.(enc) = chunk_comp gc num_threads → C.(dec) = chunk_dec gc →
  (∀ h, C.(comp_bound) h = 2 * (TOKENS_PER_CHUNK * h * 2) * k / 32) → CodecLaws C.
Proof.
  intros Hn Hk Hb He Hd Hc. split.
  - intros h Hh. rewrite Hc, half_bytes_bound. nia.
  - intros h d1 d2 Hh H1 H2. rewrite Hc, half_bytes_bound, He.
    rewrite !chunk_comp_by_group by done. rewrite !length_out by done.
    rewrite num_groups_4. nia.
  - intros h d Hh Hl. rewrite Hd, He, chunk_comp_by_group by done.
    rewrite <- (app_nil_r (by_group _ _ _).1), expand_by_group by done. by apply length_approx.
  - intros h d rest Hh Hl. rewrite Hd, He, chunk_comp_by_group by done.
    rewrite <- (app_nil_r (by_group _ _ _).1) at 2. by rewrite !expand_by_group.
Qed.

(** C21: Both FLEXGEN backends discharge the codec interface the KV state is
    proved against, whatever the number of compression threads: a compressed
    pair fits the arena slot [mzcache_kv_state] sizes for it, a chunk comes back
    with its length, and decompression reads nothing past the compressed bytes.
    So every theorem about the KV state holds with these backends. *)
Theorem flexgen_codec_laws (num_threads : Z) (Hn : 0 < num_threads) :
  CodecLaws (flexgen_codec num_threads) ∧ CodecLaws (flexgen_8bit_codec num_threads).
Proof.
  split.
  - by apply (chunk_codec_laws group4 num_threads 9).
  - by apply (chunk_codec_laws group8 num_threads 17).
Qed.

(** C22: A chunk compressed by [flexgen_compress] and decompressed by
    [flexgen_decompress_single_thread] (also when other data follows it in the
    arena) comes back group by group as the group's minimum plus a whole number of
    steps: the packing, the threads' split and the metadata layout lose nothing
    beyond the quantisation itself.  The same for the 8-bit pair. *)
Theorem flexgen_roundtrip (num_threads h : Z) (d rest : list byte)
    (Hn : 0 < num_threads) (Hh : 0 < h) (Hl : Z.of_nat (length d) = 512 * h) :
  (let '(c, m) := flexgen_compress num_threads h d in
   flexgen_decompress_single_thread h (c ++ rest) m
   = bytes_of (flat_map (λ g, approx4 (group 64 (halves d) g)) (seqZ 0 (4 * h)))) ∧
  (let '(c, m) := flexgen_compress_8bit num_threads h d in
   flexgen_decompress_8bit h (c ++ rest) m
   = bytes_of (flat_map (λ g, approx8 (group 64 (halves d) g)) (seqZ 0 (4 * h)))).
Proof.
  pose proof (chunk_comp_by_group group4 num_threads h d Hn Hh) as H4.
  pose proof (chunk_comp_by_group group8 num_threads h d Hn Hh) as H8.
  pose proof (expand_by_group group4 h d Hl rest) as E4.
  pose proof (expand_by_group group8 h d Hl rest) as E8.
  unfold chunk_approx in E4, E8. rewrite num_groups_4 in E4, E8, H4, H8.
  split.
  - change (flexgen_compress num_threads h d) with (chunk_comp group4 num_threads h d).
    rewrite H4. exact E4.
  - change (flexgen_compress_8bit num_threads h d) with (chunk_comp group8 num_threads h d).
    rewrite H8. exact E8.
Qed.

(** C23: The compressed arrays do not depend on the threads: however the pool
    interleaves the groups of the ranges handed to it, and however many threads
    there are, [output], [mins] and [maxs] end up the same. *)
Theorem flexgen_any_interleaving (num_threads num_threads' h : Z) (d : list byte) (order : list Z)
    (Hn : 0 < num_threads) (Hn' : 0 < num_threads') (Hh : 0 < h)
    (Hp : order ≡ₚ flat_map range_groups (worker_ranges (num_groups h) num_threads)) :
  collect (num_groups h) (fold_left (write_group compress_group4 (halves d)) order no_planes)
    = flexgen_compress num_threads' h d ∧
  collect (num_groups h) (fold_left (write_group compress_group8 (halves d)) order no_planes)
    = flexgen_compress_8bit num_threads' h d.
Proof.
  assert (0 <= num_groups h) by (rewrite num_groups_4; lia).
  rewrite worker_ranges_cover in Hp by lia.
  split; rewrite interleaved_collect by done; symmetry.
  - by apply (chunk_comp_by_group group4).
  - by apply (chunk_comp_by_group group8).
Qed.

(** ** Concrete chunks *)

Definition demo_half (i : Z) : list byte := [Z.land i 255; 60].
(** One chunk with [h = 1]: the halves 0x3c00 to 0x3cff, which lie in [1, 1.25). *)
Definition demo_chunk : list byte := flat_map demo_half (seqZ 0 256).

Lemma flexgen_codec_laws_witness : CodecLaws (flexgen_codec 4).
Proof. exact (proj1 (flexgen_codec_laws 4 ltac:(lia))). Defined.

Lemma flexgen_roundtrip_witness :
  flexgen_decompress_single_thread 1 ((flexgen_compress 3 1 demo_chunk).1 ++ [7; 7])
    (flexgen_compress 3 1 demo_chunk).2
  = bytes_of (flat_map (λ g, approx4 (group 64 (halves demo_chunk) g)) (seqZ 0 4)).
Proof.
  destruct (flexgen_roundtrip 3 1 demo_chunk [7; 7] ltac:(lia) ltac:(lia) eq_refl) as [H _].
  destruct (flexgen_compress 3 1 demo_chunk) as [c m]. exact H.
Defined.

(** Three threads, the last of which gets nothing; the groups in another order. *)
Lemma flexgen_any_interleaving_witness :
  collect 4 (fold_left (write_group compress_group4 (halves demo_chunk)) [2; 0; 3; 1] no_planes)
  = flexgen_compress 1 1 demo_chunk.
Proof.
  assert ([2; 0; 3; 1] ≡ₚ flat_map range_groups (worker_ranges (num_groups 1) 3)) as Hp.
  { change (flat_map range_groups (worker_ranges (num_groups 1) 3)) with [0; 1; 2; 3].
    apply NoDup_Permutation; [apply (bool_decide_eq_true_1 _); vm_compute; reflexivity
      |apply (bool_decide_eq_true_1 _); vm_compute; reflexivity|].
    intros i. rewrite !elem_of_cons, !elem_of_nil. tauto. }
  exact (proj1 (flexgen_any_interleaving 3 1 1 demo_chunk [2; 0; 3; 1] ltac:(lia) ltac:(lia) ltac:(lia) Hp)).
Defined.
