(* ===== verification/FlexgenBound.v ===== *)
(** The error bound of the FLEXGEN backends: every value of a chunk comes back
    within a fraction of its group's range plus the precision of a half. *)
From Stdlib Require Import Reals Lra.
From S2P Require Import Prelude Floats FloatReal KvTypes Flexgen FlexgenThms FlexgenError.
From S2P Require Import FlexgenCodec.
#[local] Open Scope R_scope.

(** ** Real arithmetic *)

Lemma Rabs_between x y : Rabs x <= y → - y <= x <= y.
Proof. unfold Rabs. destruct (Rcase_abs x); lra. Qed.

Definition eps : R := / 16777216.
Definition tiny : R := / 1152921504606846976.

Section quantise.
Context (L D r S : R).
Hypothesis HL : 15 <= L <= 255.
Hypothesis HD : eps <= D <= 65536.
Hypothesis Hr : near32 D r.
Hypothesis HS : near32 (L / r) S.

Lemma range_close : Rabs (r - D) <= D * (eps + 16777216 * tiny).
Proof.
  unfold near32 in Hr. rewrite (Rabs_pos_eq D) in Hr by (unfold eps in HD; lra).
  unfold eps, tiny in *. lra.
Qed.

Lemma range_pos : D / 2 <= r <= 2 * D.
Proof.
  pose proof range_close as H. apply Rabs_between in H. unfold eps, tiny in *. lra.
Qed.

(** The scale, times the range: the number of steps, nearly. *)
Lemma scale_close : Rabs (S * D - L) <= L * (/ 2097152).
Proof.
  pose proof range_close as Hc. pose proof range_pos as Hp. unfold near32 in HS.
  assert (0 < D) by (unfold eps in HD; lra).
  assert (0 < L / r) as Hq by (apply Rdiv_lt_0_compat; lra).
  rewrite (Rabs_pos_eq (L / r)) in HS by lra.
  assert (L / r * r = L) as Hqr by (field; lra).
  apply Rabs_between in Hc, HS.
  assert (Rabs (S * r - L) <= L * eps + tiny * r) as Hsr.
  { apply Rabs_le. unfold eps, tiny in *. nra. }
  apply Rabs_between in Hsr.
  assert (0 <= S * r) by (unfold eps, tiny in *; lra).
  assert (0 <= S) by nra.
  assert (S * D <= 2 * (S * r)) as Hsd by nra.
  assert (S * (r - D) <= S * (D * (eps + 16777216 * tiny))) by (apply Rmult_le_compat_l; lra).
  assert (- (S * (D * (eps + 16777216 * tiny))) <= S * (r - D)) by nra.
  apply Rabs_le. unfold eps, tiny in *. lra.
Qed.

Lemma scale_pos : 0 < S.
Proof.
  pose proof scale_close as H. apply Rabs_between in H. assert (0 < D) by (unfold eps in HD; lra).
  assert (0 < S * D) by lra. nra.
Qed.

Context (A X M bb P Q : R).
Hypothesis HM : M <= 4096 * D.
Hypothesis HA : Rabs A <= M.
Hypothesis HX : Rabs X <= M.
Hypothesis HAX : A <= X <= A + D.
Hypothesis Hbb : near32 (- A * S) bb.
Hypothesis HP : near32 (X * S) P.
Hypothesis HQ : near32 (bb + P) Q.

(** The quantised value, before it is rounded to its code. *)
Lemma quantised_close : Rabs (Q - L * ((X - A) / D)) <= L * (/ 2000).
Proof.
  pose proof scale_close as Hw. pose proof scale_pos as HS0.
  assert (0 < D) as HD0 by (unfold eps in HD; lra).
  set (tau := (X - A) / D).
  assert (tau * D = X - A) as Htau by (unfold tau; field; lra).
  assert (0 <= tau <= 1) as Ht by nra. clearbody tau.
  set (w := S * D) in *.
  assert (S * (X - A) = w * tau) as Hwt by (unfold w; rewrite <- Htau; ring).
  assert (M * S <= 4096 * w) as HMS by (unfold w; nra).
  assert (∀ Y, Rabs Y <= M → Rabs (Y * S) <= 4096 * w) as Habs.
  { intros Y HY. rewrite Rabs_mult, (Rabs_pos_eq S) by lra. nra. }
  assert (∀ Y r, Rabs Y <= M → near32 (Y * S) r → Rabs (r - Y * S) <= 4096 * w * eps + tiny) as Hnear.
  { intros Y r' HY Hn. unfold near32 in Hn. specialize (Habs Y HY). unfold eps, tiny in *. lra. }
  assert (Rabs (- A) <= M) as HA' by (by rewrite Rabs_Ropp).
  pose proof (Hnear _ _ HA' Hbb) as H1. pose proof (Hnear _ _ HX HP) as H2.
  apply Rabs_between in H1, H2, Hw.
  assert (Rabs (bb + P - w * tau) <= 8192 * w * eps + 2 * tiny) as H3.
  { apply Rabs_le. rewrite <- Hwt. lra. }
  apply Rabs_between in H3.
  assert (0 <= w * tau <= w) as Hwt' by nra.
  assert (Rabs (w * tau - L * tau) <= L * (/ 2097152)) as H4.
  { replace (w * tau - L * tau) with ((w - L) * tau) by ring. rewrite Rabs_mult, (Rabs_pos_eq tau) by lra.
    assert (Rabs (w - L) <= L * / 2097152) by (apply Rabs_le; lra).
    pose proof (Rabs_pos (w - L)). nra. }
  apply Rabs_between in H4.
  assert (Rabs (bb + P) <= 2 * L) as H5 by (apply Rabs_le; unfold eps, tiny in *; lra).
  unfold near32 in HQ. apply Rabs_between in HQ.
  apply Rabs_le. unfold eps, tiny in *. lra.
Qed.
End quantise.

(** ** Reconstruction *)

Lemma scaled_by c x b k : 0 <= c <= k → Rabs x <= b → Rabs (c * x) <= k * b.
Proof.
  intros Hc Hx. rewrite Rabs_mult, (Rabs_pos_eq c) by lra. pose proof (Rabs_pos x). nra.
Qed.

Section reconstruct.
Context (D r A X M c : R).
Hypothesis HD : 0 <= D <= 65536.
Hypothesis Hr : near32 D r.
Hypothesis HA : Rabs A <= M.
Hypothesis HX : Rabs X <= M.

Lemma range_close_any : Rabs (r - D) <= D * eps + tiny.
Proof. unfold near32 in Hr. rewrite (Rabs_pos_eq D) in Hr by lra. unfold eps, tiny. lra. Qed.

Lemma step4_close inv15 f s :
  Rabs (inv15 - / 15) <= / 134217728 → near32 (r * inv15) f → near16 f s →
  Rabs f <= D * (/ 15 + / 1000000) + 3 * tiny ∧
  Rabs (s - D / 15) <= D * / 29000 + / 33500000.
Proof.
  intros Hinv Hf Hs. pose proof range_close_any as Hrc. apply Rabs_between in Hrc, Hinv.
  assert (Rabs (f - D / 15) <= D * / 1000000 + 3 * tiny) as Hf'.
  { unfold near32 in Hf.
    assert (Rabs (r * inv15 - D / 15) <= D * / 4000000 + tiny) as H1.
    { replace (r * inv15 - D / 15) with ((r - D) * inv15 + D * (inv15 - / 15)) by field.
      apply Rabs_le. unfold eps, tiny in *. nra. }
    apply Rabs_between in H1.
    assert (Rabs (r * inv15) <= D + tiny) as H2 by (apply Rabs_le; lra).
    apply Rabs_between in Hf. apply Rabs_le. unfold eps, tiny in *. lra. }
  apply Rabs_between in Hf'.
  assert (Rabs f <= D * (/ 15 + / 1000000) + 3 * tiny) as H1 by (apply Rabs_le; lra).
  split; [done|]. unfold near16 in Hs. apply Rabs_between in Hs. apply Rabs_le. unfold tiny in *. lra.
Qed.

Lemma sum4_close s : 0 <= c <= 15 → Rabs (c * D - 15 * (X - A)) <= D * (/ 2 + 15 * / 2000) →
  Rabs (s - D / 15) <= D * / 29000 + / 33500000 →
  Rabs (c * s + A - X) <= D * (/ 30 + / 2000 + / 1900) + / 2200000 ∧
  Rabs (c * s + A) <= M + D / 20 + / 2200000.
Proof.
  intros Hc HcD Hs. pose proof (scaled_by c _ _ 15 Hc Hs) as Hcs. apply Rabs_between in Hcs, HcD.
  assert (Rabs (c * s + A - X) <= D * (/ 30 + / 2000 + / 1900) + / 2200000) as HE.
  { replace (c * s + A - X) with (c * (s - D / 15) + (c * D - 15 * (X - A)) / 15) by field.
    apply Rabs_le. lra. }
  split; [done|]. apply Rabs_between in HE. pose proof (Rabs_between _ _ HX). apply Rabs_le. lra.
Qed.

Lemma reconstruct4_close s d :
  Rabs (c * s + A - X) <= D * (/ 30 + / 2000 + / 1900) + / 2200000 →
  Rabs (c * s + A) <= M + D / 20 + / 2200000 →
  near16 (c * s + A) d → Rabs (d - X) <= D / 28 + M / 2048 + / 1048576.
Proof.
  intros HE HEM Hd. apply Rabs_between in HE. unfold near16 in Hd. apply Rabs_between in Hd.
  apply Rabs_le. lra.
Qed.

Lemma step8_close f : near32 (r / 255) f → Rabs (f - D / 255) <= D * / 1000000000 + 2 * tiny.
Proof.
  intros Hf. pose proof range_close_any as Hrc. apply Rabs_between in Hrc. unfold near32 in Hf.
  assert (Rabs (r / 255) <= D * / 200 + tiny) as H2 by (apply Rabs_le; unfold eps, tiny in *; lra).
  apply Rabs_between in Hf. apply Rabs_le. unfold eps, tiny in *. lra.
Qed.

Lemma sum8_close f : 0 <= c <= 255 → Rabs (c * D - 255 * (X - A)) <= D * (/ 2 + 255 * / 2000) →
  Rabs (f - D / 255) <= D * / 1000000000 + 2 * tiny →
  Rabs (c * f + A - X) <= D * (/ 255 * (/ 2 + 255 * / 2000) + / 3900000) + 510 * tiny ∧
  Rabs (c * f + A) <= M + D / 200 + 510 * tiny.
Proof.
  intros Hc HcD Hf. pose proof (scaled_by c _ _ 255 Hc Hf) as Hcs. apply Rabs_between in Hcs, HcD.
  assert (Rabs (c * f + A - X) <= D * (/ 255 * (/ 2 + 255 * / 2000) + / 3900000) + 510 * tiny) as HE.
  { replace (c * f + A - X) with (c * (f - D / 255) + (c * D - 255 * (X - A)) / 255) by field.
    apply Rabs_le. lra. }
  split; [done|]. apply Rabs_between in HE. pose proof (Rabs_between _ _ HX).
  apply Rabs_le. unfold tiny in *. lra.
Qed.

Lemma reconstruct8_close f g d :
  Rabs (c * f + A - X) <= D * (/ 255 * (/ 2 + 255 * / 2000) + / 3900000) + 510 * tiny →
  Rabs (c * f + A) <= M + D / 200 + 510 * tiny →
  near32 (c * f + A) g → 
  Rabs g <= M * (1 + / 16777216) + D / 199 + 600 * tiny ∧
  (near16 g d → Rabs (d - X) <= D / 400 + M / 2047 + / 1048576).
Proof.
  intros HE HEM Hg. apply Rabs_between in HE.
  pose proof (Rabs_between _ _ HEM) as HEM'. unfold near32 in Hg. apply Rabs_between in Hg.
  assert (Rabs (g - X) <= D * (/ 255 * (/ 2 + 255 * / 2000) + / 3000000) + M * / 16777216 + 600 * tiny) as Hg'
    by (apply Rabs_le; unfold tiny in *; lra).
  apply Rabs_between in Hg'.
  assert (Rabs g <= M * (1 + / 16777216) + D / 199 + 600 * tiny) as HgM by (apply Rabs_le; unfold tiny in *; lra).
  split; [done|]. intros Hd. unfold near16 in Hd. apply Rabs_between in Hd. apply Rabs_le.
  unfold tiny in *. lra.
Qed.
End reconstruct.

(** ** Groups *)

Lemma half_is_f16 x : half_shape x → is_f16 x.
Proof.
  intros Hx. destruct x as [[]| | |s m e]; try done. destruct Hx as (Hm & He & Hc).
  unfold is_f16. cbn [bits_of_f16].
  set (sb := (if s then 32768 else 0)%Z).
  set (w := (if (Zpos m <? 1024)%Z then Zpos m else (e + 25) * 1024 + (Zpos m - 1024))%Z).
  assert (∃ ef mf, w = (ef * 1024 + mf)%Z ∧ (0 <= ef < 31)%Z ∧ (0 <= mf < 1024)%Z ∧
    ((ef = 0 ∧ mf = Zpos m ∧ e = -24) ∨ (ef ≠ 0 ∧ Zpos m = mf + 1024 ∧ e = ef - 25))%Z)
    as (ef & mf & Hw & Hef & Hmf & Hcase).
  { unfold w. destruct (Z.ltb_spec (Zpos m) 1024).
    - exists 0%Z, (Zpos m). lia.
    - exists (e + 25)%Z, (Zpos m - 1024)%Z. lia. }
  rewrite Hw. unfold f16_of_bits.
  assert ((sb + (ef * 1024 + mf)) / 2 ^ 10 = (if s then 32 else 0) + ef)%Z as Hdiv.
  { symmetry. apply (Z.div_unique_pos _ _ _ mf); [lia|]. unfold sb. destruct s; lia. }
  assert ((sb + (ef * 1024 + mf)) mod 2 ^ 10 = mf)%Z as Hmod.
  { symmetry. apply (Z.mod_unique_pos _ _ ((if s then 32 else 0) + ef)); [lia|]. unfold sb. destruct s; lia. }
  assert (Z.testbit (sb + (ef * 1024 + mf)) 15 = s) as Hs.
  { rewrite Z.testbit_eqb by lia.
    assert ((sb + (ef * 1024 + mf)) / 2 ^ 15 = if s then 1 else 0)%Z as ->.
    { symmetry. apply (Z.div_unique_pos _ _ _ (ef * 1024 + mf)); [lia|]. unfold sb. destruct s; lia. }
    by destruct s. }
  assert (∀ z, Z.land z 31 = z mod 2 ^ 5)%Z as H31 by (intros z; by apply (Z.land_ones z 5)).
  assert (∀ z, Z.land z 1023 = z mod 2 ^ 10)%Z as H1023 by (intros z; by apply (Z.land_ones z 10)).
  rewrite !H31, !H1023, Z.shiftr_div_pow2, Hdiv, Hmod, Hs by lia.
  assert (((if s then 32 else 0) + ef) mod 2 ^ 5 = ef)%Z as ->.
  { symmetry. apply (Z.mod_unique_pos _ _ (if s then 1 else 0)); [lia|]. destruct s; lia. }
  destruct (Z.eqb_spec ef 0) as [He0|He0].
  - destruct Hcase as [(_ & Hm0 & ->)|]; [|lia].
    destruct (Z.eqb_spec mf 0); [lia|]. by rewrite Hm0, Pos2Z.id.
  - destruct Hcase as [|(_ & Hm0 & ->)]; [lia|].
    destruct (Z.eqb_spec ef 31); [lia|]. by rewrite <- Hm0, Pos2Z.id.
Qed.

Lemma canonical_half x : fin x → canonical 11 16 x → half_shape x.
Proof. by destruct x. Qed.

(** The values of a group the bound is stated for: finite, at most [2 ^ 14]. *)
Definition moderate (x : float) : Prop := half_shape x ∧ Rabs (val x) <= 16384.

(** The range and the largest magnitude of a group. *)
Definition spread (src : list float) : R := val (reduce fmax src) - val (reduce fmin src).
Definition magnitude (src : list float) : R :=
  Rmax (Rabs (val (reduce fmin src))) (Rabs (val (reduce fmax src))).

Lemma b2_m12 : b2 (-12) = / 4096.
Proof. by apply (b2_inv 12 4096). Qed.
Lemma b2_m24 : b2 (-24) = / 16777216.
Proof. by apply (b2_inv 24 16777216). Qed.

Lemma positive_cases r : fin r → 0 < val r → SFltb f32_zero r = true ∧ is_zero r = false.
Proof.
  intros Hf Hr. destruct r as [| | |[] m e]; try contradiction; cbn [val sgn] in Hr; [lra| |done].
  pose proof (b2_pos e). assert (0 < IZR (Zpos m)) by (apply IZR_lt; lia). nra.
Qed.

Section group.
Context (src : list float).
Hypothesis src_len : length src = 64%nat.
Hypothesis src_ok : Forall moderate src.

Abbreviation mn := (reduce fmin src).
Abbreviation mx := (reduce fmax src).
Abbreviation D := (spread src).
Abbreviation M := (magnitude src).

Lemma src_half : Forall half_shape src.
Proof. eapply Forall_impl; [exact src_ok|]. by intros x [H _]. Qed.

Lemma group_facts : half_shape mn ∧ half_shape mx ∧ 0 <= D <= 32768 ∧ M <= 16384 ∧
  Rabs (val mn) <= M ∧
  ∀ x, x ∈ src → half_shape x ∧ Rabs (val x) <= M ∧ val mn <= val x <= val mn + D.
Proof.
  destruct (group_bounds src src_len src_half) as ([H1 (y & Hy & Ey)] & [H2 (z & Hz & Ez)] & H3).
  pose proof src_ok as Hok. rewrite Forall_forall in Hok.
  assert (∀ x, x ∈ src → - 16384 <= val x <= 16384) as Hx by (intros x Hx; apply Rabs_between, Hok, Hx).
  assert (∃ x, x ∈ src) as [x0 Hx0].
  { pose proof src_len as Hl. destruct src as [|x ?]; [done|]. exists x. apply list_elem_of_here. }
  assert (- 16384 <= val mn ∧ val mx <= 16384) as [Hmn Hmx].
  { rewrite Ey, Ez. split; [apply Hx, Hy|apply Hx, Hz]. }
  pose proof (H3 x0 Hx0). unfold spread, magnitude.
  split; [done|split; [done|split; [lra|split; [|split; [apply Rmax_l|]]]]].
  - apply Rmax_lub; apply Rabs_le; lra.
  - intros x Hxs. specialize (H3 x Hxs). split; [by apply Hok|split; [|lra]].
    destruct (Rle_or_lt 0 (val x)).
    + rewrite (Rabs_pos_eq (val x)) by lra. etransitivity; [|apply Rmax_r]. rewrite Rabs_pos_eq by lra. lra.
    + rewrite (Rabs_left (val x)) by lra. etransitivity; [|apply Rmax_l]. rewrite Rabs_left by lra. lra.
Qed.

(** The quantised value of [x], with the scale the kernel computes. *)
Lemma quantise_group levels x : (15 <= levels <= 255)%Z → x ∈ src → 0 < D →
  let '(scale, bias) := group_scale levels mn mx in
  fin (quantise scale bias x) ∧
  Rabs (val (quantise scale bias x) - IZR levels * ((val x - val mn) / D)) <= IZR levels * / 2000.
Proof.
  intros HL Hx HD. destruct group_facts as (Hmn & Hmx & HDr & HM & HA & Hall).
  destruct (Hall x Hx) as (Hxh & HX & HAX).
  destruct (to_f32_half mn Hmn) as [Fmn Vmn]. destruct (to_f32_half mx Hmx) as [Fmx Vmx].
  destruct (to_f32_half x Hxh) as [Fx Vx].
  assert (15 <= IZR levels <= 255) as HLr by (split; apply IZR_le; lia).
  destruct (halves_apart mn mx Hmn Hmx) as [Hap Hlow]; [unfold spread in HD; lra|].
  rewrite b2_m12 in Hap. rewrite b2_m24 in Hlow.
  fold M D in Hap, Hlow.
  assert (eps <= D <= 65536) as HDe by (unfold eps; lra).
  unfold group_scale.
  destruct (f32_sub_near (to_f32 mx) (to_f32 mn) Fmx Fmn) as [Fr Nr].
  { rewrite Vmx, Vmn. apply Rabs_le. unfold huge. unfold spread in HDr. lra. }
  rewrite Vmx, Vmn in Nr. fold D in Nr.
  set (range := f32_sub (to_f32 mx) (to_f32 mn)) in *. clearbody range.
  pose proof (range_pos D (val range) HDe Nr) as Hrp.
  destruct (positive_cases range Fr ltac:(lra)) as [Hpos Hnz]. rewrite Hpos.
  destruct (of_Z_exact 24 128 levels) as [FL VL]; [lia|lia|lia|lia|lia|].
  change (binary_normalize 24 128 levels 0 false) with (f32_of_Z levels) in FL, VL.
  assert (0 < IZR levels / val range <= 2 * 255 * 16777216) as Hq.
  { split; [apply Rdiv_lt_0_compat; lra|]. apply (Rmult_le_reg_r (val range)); [lra|].
    unfold Rdiv. rewrite Rmult_assoc, Rinv_l by lra. unfold eps in HDe. lra. }
  destruct (f32_div_near (f32_of_Z levels) range FL Fr Hnz) as [FS NS].
  { rewrite VL. apply Rabs_le. unfold huge. lra. }
  rewrite VL in NS. set (scale := f32_div (f32_of_Z levels) range) in *. clearbody scale.
  pose proof (scale_pos _ _ _ _ HLr HDe Nr NS) as HS.
  pose proof (scale_close _ _ _ _ HLr HDe Nr NS) as HSD. apply Rabs_between in HSD.
  assert (val scale <= 8589934592) as HSb.
  { assert (val scale * eps <= val scale * D) by (apply Rmult_le_compat_l; lra). unfold eps in *. lra. }
  assert (∀ y, Rabs y <= M → Rabs (y * val scale) <= huge / 4) as Hsmall.
  { intros y Hy. rewrite Rabs_mult, (Rabs_pos_eq (val scale)) by lra.
    pose proof (Rabs_pos y). assert (Rabs y * val scale <= 16384 * 8589934592)
      by (apply Rmult_le_compat; lra). unfold huge. lra. }
  destruct (f32_mul_near (SFopp (to_f32 mn)) scale (fin_opp _ Fmn) FS) as [Fb Nb].
  { rewrite val_opp, Vmn. etransitivity; [apply Hsmall; by rewrite Rabs_Ropp|unfold huge; lra]. }
  rewrite val_opp, Vmn in Nb. set (bias := f32_mul (SFopp (to_f32 mn)) scale) in *. clearbody bias.
  unfold quantise.
  destruct (f32_mul_near (to_f32 x) scale Fx FS) as [Fp Np].
  { rewrite Vx. etransitivity; [by apply Hsmall|unfold huge; lra]. }
  rewrite Vx in Np. set (prod := f32_mul (to_f32 x) scale) in *. clearbody prod.
  destruct (f32_add_near bias prod Fb Fp) as [Fq Nq].
  { pose proof (Hsmall (- val mn) ltac:(by rewrite Rabs_Ropp)) as H1.
    pose proof (Hsmall (val x) HX) as H2.
    pose proof (Rabs_between _ _ H1). pose proof (Rabs_between _ _ H2).
    unfold near32 in Nb, Np. apply Rabs_between in Nb, Np.
    apply Rabs_le. unfold huge in *. lra. }
  split; [exact Fq|].
  apply (quantised_close _ D (val range) (val scale) HLr HDe Nr NS (val mn) (val x) M (val bias) (val prod));
    try assumption. lra.
Qed.

(** The code of a value is its number of steps, up to a half and the rounding. *)
Lemma code_close levels lo hi x : (15 <= levels <= 255)%Z → (lo <= 0)%Z → (levels <= hi)%Z → x ∈ src →
  let '(scale, bias) := group_scale levels mn mx in
  let c := Z.max 0 (Z.min (cvtn lo hi (quantise scale bias x)) levels) in
  0 <= IZR c <= IZR levels ∧ (0 <= c <= levels)%Z ∧
  Rabs (IZR c * D - IZR levels * (val x - val mn)) <= D * (/ 2 + IZR levels * / 2000).
Proof.
  intros HL Hlo Hhi Hx. pose proof (quantise_group levels x HL Hx) as Hq.
  destruct group_facts as (_ & _ & HD & _ & _ & Hall). destruct (Hall x Hx) as (_ & _ & HX).
  assert (0 <= IZR levels) as HL0 by (apply IZR_le; lia).
  destruct (group_scale levels mn mx) as [scale bias]. cbv zeta.
  set (c := Z.max 0 (Z.min (cvtn lo hi (quantise scale bias x)) levels)).
  assert (0 <= c <= levels)%Z as Hc by lia.
  split; [split; apply IZR_le; lia|split; [done|]].
  destruct (Rle_lt_or_eq_dec 0 D) as [HD0|HD0]; [lra| |].
  - destruct (Hq HD0) as [Hfin Hclose]. set (t := IZR levels * ((val x - val mn) / D)) in *.
    assert (t * D = IZR levels * (val x - val mn)) as Htd by (unfold t; field; lra).
    assert (0 <= t <= IZR levels) as Ht.
    { assert ((val x - val mn) / D * D = val x - val mn) as Hd by (field; lra).
      assert (0 <= (val x - val mn) / D <= 1) by nra. unfold t. nra. }
    destruct (code_near lo hi levels _ t Hfin Hlo Hhi ltac:(lia) Ht) as [_ Hn].
    fold c in Hn. rewrite <- Htd, <- Rmult_minus_distr_r, Rabs_mult, (Rabs_pos_eq D) by lra.
    rewrite Rmult_comm. apply Rmult_le_compat_l; lra.
  - rewrite <- HD0 in HX |- *. replace (val x - val mn) with 0 by lra.
    rewrite !Rmult_0_r, Rmult_0_l, Rminus_0_r, Rabs_R0. lra.
Qed.

(** The range of the group as both kernels compute it. *)
Lemma range_group : let range := f32_sub (to_f32 mx) (to_f32 mn) in
  fin range ∧ near32 D (val range).
Proof.
  destruct group_facts as (Hmn & Hmx & HD & _).
  destruct (to_f32_half mn Hmn) as [Fmn Vmn]. destruct (to_f32_half mx Hmx) as [Fmx Vmx].
  cbv zeta. destruct (f32_sub_near (to_f32 mx) (to_f32 mn) Fmx Fmn) as [H1 H2].
  { rewrite Vmx, Vmn. apply Rabs_le. unfold huge. unfold spread in HD. lra. }
  rewrite Vmx, Vmn in H2. split; assumption.
Qed.

Lemma canonical_fma a b c : canonical 11 16 c → fin c → fin a → fin b →
  canonical 11 16 (fma F16_prec F16_emax a b c).
Proof.
  intros Hc Hfc Ha Hb. assert (∀ m e b, canonical 11 16 (binary_normalize 11 16 m e b)) as Hn
    by (intros; apply binary_normalize_canonical; lia).
  destruct a as [sa| | |sa ma ea], b as [sb| | |sb mb eb]; try contradiction; destruct c as [sc| | |sc mc ec];
    try contradiction; cbn [fma SFmul SFadd]; try exact Hc; try apply Hn; try exact I;
    repeat case_match; exact I.
Qed.

Lemma half_canonical x : half_shape x → canonical 11 16 x.
Proof. by destruct x. Qed.

Lemma inv15_close : let inv15 := f32_div f32_one (f32_of_Z 15) in
  fin inv15 ∧ Rabs (val inv15 - / 15) <= / 134217728.
Proof.
  assert (f32_div f32_one (f32_of_Z 15) = S754_finite false 8947849 (-27)) as -> by (vm_compute; reflexivity).
  cbv zeta. split; [exact I|]. cbn [val sgn].
  assert (b2 (-27) = / 134217728) as -> by (by apply (b2_inv 27)).
  apply Rabs_le. lra.
Qed.

Lemma approx4_close x : x ∈ src →
  let '(scale, bias) := group_scale 15 mn mx in
  let step_h := to_f16 (f32_mul (f32_sub (to_f32 mx) (to_f32 mn)) (f32_div f32_one (f32_of_Z 15))) in
  let y := fma F16_prec F16_emax (f16_of_Z (code4 scale bias x)) step_h mn in
  half_shape y ∧ Rabs (val y - val x) <= D / 28 + M / 2048 + / 1048576.
Proof.
  intros Hx. pose proof (code_close 15 (- 2 ^ 31) (2 ^ 31 - 1) x ltac:(lia) ltac:(lia) ltac:(lia) Hx) as Hcode.
  destruct group_facts as (Hmn & Hmx & HD & HM & HA & Hall). destruct (Hall x Hx) as (_ & HX & _).
  destruct (group_scale 15 mn mx) as [scale bias]. cbv zeta in *. unfold code4, cvtn_s32.
  set (c := Z.max 0 _) in *. destruct Hcode as (Hc & HcZ & HcD). clearbody c.
  destruct range_group as [Fr Nr]. cbv zeta in *.
  set (range := f32_sub (to_f32 mx) (to_f32 mn)) in *. clearbody range.
  destruct inv15_close as [Fi Ni]. set (inv15 := f32_div f32_one (f32_of_Z 15)) in *. clearbody inv15.
  assert (0 <= D <= 65536) as HD' by lra.
  pose proof (range_close_any D (val range) HD' Nr) as Hrc.
  apply Rabs_between in Hrc. pose proof (Rabs_between _ _ Ni) as Hib.
  destruct (f32_mul_near range inv15 Fr Fi) as [Ff Nf].
  { rewrite Rabs_mult. transitivity (65537 * 1); [|unfold huge; lra].
    apply Rmult_le_compat; [apply Rabs_pos|apply Rabs_pos|apply Rabs_le..]; unfold eps, tiny in *; lra. }
  set (step_f := f32_mul range inv15) in *. clearbody step_f.
  assert (b2 (16 - 1) = 32768) as H15 by (by rewrite <- b2_IZR by lia).
  destruct (round_to_near 11 16 ltac:(lia) ltac:(lia) step_f Ff) as [Fs Ns].
  { destruct (step4_close D (val range) HD' Nr (val inv15) (val step_f) (val step_f) Ni Nf) as [Hb _].
    - unfold near16. rewrite Rminus_diag, Rabs_R0. pose proof (Rabs_pos (val step_f)). lra.
    - rewrite H15. unfold tiny in Hb. lra. }
  apply near_near16 in Ns. change (round_to 11 16 step_f) with (to_f16 step_f) in Fs, Ns.
  destruct (step4_close D (val range) HD' Nr (val inv15) (val step_f) (val (to_f16 step_f)) Ni Nf Ns) as [_ Hs].
  set (step_h := to_f16 step_f) in *. clearbody step_h.
  destruct (sum4_close D (val mn) (val x) M (IZR c) HD' HX (val step_h) Hc HcD Hs) as [HE HEM].
  destruct (of_Z_exact 11 16 c) as [Fc Vc]; [lia|lia|lia|lia|lia|].
  change (binary_normalize 11 16 c 0 false) with (f16_of_Z c) in Fc, Vc.
  assert (fin mn) as Fmn by (by destruct mn).
  destruct (fma_near 11 16 ltac:(lia) ltac:(lia) (f16_of_Z c) step_h mn Fc Fs Fmn) as [Fy Ny].
  { rewrite Vc, H15. lra. }
  rewrite Vc in Ny. apply near_near16 in Ny. split.
  - apply canonical_half; [exact Fy|]. apply canonical_fma; [by apply half_canonical|assumption..].
  - exact (reconstruct4_close D (val mn) (val x) M (IZR c) HD' (val step_h) _ HE HEM Ny).
Qed.

Lemma approx8_close x : x ∈ src →
  let '(scale, bias) := group_scale 255 mn mx in
  let step_f := f32_div (f32_sub (to_f32 mx) (to_f32 mn)) (f32_of_Z 255) in
  let y := to_f16 (fma F32_prec F32_emax (f32_of_Z (code8 scale bias x)) step_f (to_f32 mn)) in
  half_shape y ∧ Rabs (val y - val x) <= D / 400 + M / 2047 + / 1048576.
Proof.
  intros Hx. pose proof (code_close 255 0 (2 ^ 32 - 1) x ltac:(lia) ltac:(lia) ltac:(lia) Hx) as Hcode.
  destruct group_facts as (Hmn & Hmx & HD & HM & HA & Hall). destruct (Hall x Hx) as (_ & HX & _).
  destruct (group_scale 255 mn mx) as [scale bias]. cbv zeta in *. unfold code8, cvtn_u32.
  set (c := Z.max 0 _) in *. destruct Hcode as (Hc & HcZ & HcD). clearbody c.
  destruct range_group as [Fr Nr]. cbv zeta in *.
  set (range := f32_sub (to_f32 mx) (to_f32 mn)) in *. clearbody range.
  assert (0 <= D <= 65536) as HD' by lra.
  pose proof (range_close_any D (val range) HD' Nr) as Hrc. apply Rabs_between in Hrc.
  destruct (of_Z_exact 24 128 255) as [F255 V255]; [lia|lia|lia|lia|lia|].
  change (binary_normalize 24 128 255 0 false) with (f32_of_Z 255) in F255, V255.
  destruct (positive_cases (f32_of_Z 255) F255 ltac:(lra)) as [_ Hnz].
  destruct (f32_div_near range (f32_of_Z 255) Fr F255 Hnz) as [Ff Nf].
  { rewrite V255. apply Rabs_le. unfold huge, eps, tiny in *. lra. }
  rewrite V255 in Nf. set (step_f := f32_div range (f32_of_Z 255)) in *. clearbody step_f.
  pose proof (step8_close D (val range) HD' Nr (val step_f) Nf) as Hs.
  destruct (sum8_close D (val mn) (val x) M (IZR c) HD' HX (val step_f) Hc HcD Hs) as [HE HEM].
  destruct (of_Z_exact 24 128 c) as [Fc Vc]; [lia|lia|lia|lia|lia|].
  change (binary_normalize 24 128 c 0 false) with (f32_of_Z c) in Fc, Vc.
  destruct (to_f32_half mn Hmn) as [Fmn Vmn].
  destruct (fma_near 24 128 ltac:(lia) ltac:(lia) (f32_of_Z c) step_f (to_f32 mn) Fc Ff Fmn) as [Fg Ng].
  { rewrite Vc, Vmn. apply huge_ok; [lia|]. unfold huge, tiny in *. lra. }
  rewrite Vc, Vmn in Ng. apply near_near32 in Ng.
  change (fma F32_prec F32_emax) with (fma 24 128).
  set (g := fma 24 128 (f32_of_Z c) step_f (to_f32 mn)) in *. clearbody g.
  destruct (reconstruct8_close D (val mn) (val x) M (IZR c) HD' (val step_f) (val g) (val (to_f16 g)) HE HEM Ng)
    as [Hg Hd].
  assert (b2 (16 - 1) = 32768) as H15 by (by rewrite <- b2_IZR by lia).
  destruct (round_to_near 11 16 ltac:(lia) ltac:(lia) g Fg) as [Fy Ny].
  { rewrite H15. unfold tiny in Hg. lra. }
  apply near_near16 in Ny. split; [|exact (Hd Ny)].
  apply canonical_half; [exact Fy|]. unfold to_f16, round_to.
  destruct g; try contradiction; [exact I|]. apply (binary_normalize_canonical 11 16); lia.
Qed.
End group.

(** ** Chunks *)

(** The groups a chunk is cut into have moderate values. *)
Definition chunk_moderate (d : list byte) : Prop := Forall moderate (halves d).

(** [y] restores [x], a value of group [g]. *)
Definition within (range_share magnitude_share : R) (group : list float) (x y : float) : Prop :=
  Rabs (val y - val x) <= spread group / range_share + magnitude group / magnitude_share + / 1048576.

Lemma approx_within (gc : group_codec) `{!GroupLaws gc} (a b : R) h d :
  (∀ src, length src = 64%nat → Forall moderate src →
     ∃ f, gc.(gc_approx) src = f <$> src ∧ ∀ x, x ∈ src → half_shape (f x) ∧ within a b src x (f x)) →
  (0 < h)%Z → Z.of_nat (length d) = (512 * h)%Z → chunk_moderate d →
  ∀ g i x, (0 <= g < 4 * h)%Z → group 64 (halves d) g !! i = Some x →
  ∃ y, group 64 (halves (chunk_approx gc h d)) g !! i = Some y ∧ within a b (group 64 (halves d) g) x y.
Proof.
  intros Happ Hh Hl Hmod g i x Hg Hi. rewrite <- num_groups_4 in Hg.
  assert (∀ g', (0 <= g' < num_groups h)%Z → length (group 64 (halves d) g') = 64%nat) as Hlen
    by (intros; by apply (group_len h)).
  assert (∀ g', Forall moderate (group 64 (halves d) g')) as Hgm
    by (intros; by apply Forall_take, Forall_drop).
  unfold chunk_approx. rewrite flat_map_concat_map.
  rewrite halves_bytes_of.
  - rewrite <- (app_nil_r (concat _)). rewrite (group_concat 64); [| |done].
    + destruct (Happ _ (Hlen g Hg) (Hgm g)) as (f & -> & Hf).
      exists (f x). rewrite list_lookup_fmap, Hi. split; [done|]. apply Hf.
      by eapply list_elem_of_lookup_2.
    + intros g' Hg'. apply gl_len, Hlen, Hg'.
  - apply Forall_forall. intros y Hy. apply list_elem_of_In, in_concat in Hy as (l & Hl' & Hy).
    apply in_map_iff in Hl' as (g' & <- & Hg'). apply list_elem_of_In, elem_of_seqZ in Hg'.
    destruct (Happ _ (Hlen g' ltac:(lia)) (Hgm g')) as (f & Hf & Hall). rewrite Hf in Hy.
    apply list_elem_of_In, list_elem_of_fmap in Hy as (x' & -> & Hx').
    apply half_is_f16, Hall, Hx'.
Qed.

(** C20: FLEXGEN is accurate: in a chunk of finite values of at most 2^14, every
    value comes back from [flexgen_compress] and
    [flexgen_decompress_single_thread] within 1/28 of its group's range, plus
    1/2048 of the group's largest magnitude, plus 2^-20; from the 8-bit pair
    within 1/400 of the range, plus 1/2047 of the magnitude, plus 2^-20.  All the
    roundings of the kernels are counted, and nothing overflows. *)
Theorem flexgen_accuracy (num_threads h : Z) (d rest : list byte)
    (Hn : (0 < num_threads)%Z) (Hh : (0 < h)%Z) (Hl : Z.of_nat (length d) = (512 * h)%Z)
    (Hmod : chunk_moderate d) :
  ∀ g i x, (0 <= g < 4 * h)%Z → group 64 (halves d) g !! i = Some x →
  (let '(c, m) := flexgen_compress num_threads h d in
   ∃ y, group 64 (halves (flexgen_decompress_single_thread h (c ++ rest) m)) g !! i = Some y ∧
     within 28 2048 (group 64 (halves d) g) x y) ∧
  (let '(c, m) := flexgen_compress_8bit num_threads h d in
   ∃ y, group 64 (halves (flexgen_decompress_8bit h (c ++ rest) m)) g !! i = Some y ∧
     within 400 2047 (group 64 (halves d) g) x y).
Proof.
  intros g i x Hg Hi. split.
  - change (flexgen_compress num_threads h d) with (chunk_comp group4 num_threads h d).
    rewrite chunk_comp_by_group by done.
    destruct (by_group _ _ _) as [c m] eqn:Hcm.
    pose proof (expand_by_group group4 h d Hl rest) as He. rewrite Hcm in He. cbn [fst snd] in He.
    change (flexgen_decompress_single_thread h (c ++ rest) m) with (chunk_dec group4 h (c ++ rest) m).
    rewrite He. apply (approx_within group4); try done.
    intros src Hlen Hsrc. pose proof (λ y, approx4_close src Hlen Hsrc y) as Hc.
    cbn [group4 gc_approx]. unfold approx4. destruct (group_scale _ _ _) as [scale bias].
    eexists. split; [reflexivity|exact Hc].
  - change (flexgen_compress_8bit num_threads h d) with (chunk_comp group8 num_threads h d).
    rewrite chunk_comp_by_group by done.
    destruct (by_group _ _ _) as [c m] eqn:Hcm.
    pose proof (expand_by_group group8 h d Hl rest) as He. rewrite Hcm in He. cbn [fst snd] in He.
    change (flexgen_decompress_8bit h (c ++ rest) m) with (chunk_dec group8 h (c ++ rest) m).
    rewrite He. apply (approx_within group8); try done.
    intros src Hlen Hsrc. pose proof (λ y, approx8_close src Hlen Hsrc y) as Hc.
    cbn [group8 gc_approx]. unfold approx8. destruct (group_scale _ _ _) as [scale bias].
    eexists. split; [reflexivity|exact Hc].
Qed.

(** ** At the edge of the range *)

(** The largest finite half, and a group of its two signs. *)
Definition half_max (s : bool) : float := S754_finite s 2047 5.
Definition extreme_group : list float := replicate 32 (half_max true) ++ replicate 32 (half_max false).

(** Without a bound on the values the 4-bit pair is not safe: a group of
    finite halves comes back with infinities, because the rounded step is too
    large and [min + 15 * step] leaves the format.  The 8-bit pair, which rounds
    once from [float], restores the same group exactly. *)
Theorem flexgen_extreme_overflow :
  (let '(c, lo, hi) := compress_group4 extreme_group in
   decompress_group4 c lo hi = replicate 32 (half_max true) ++ replicate 32 (S754_infinity false)) ∧
  (let '(c, lo, hi) := compress_group8 extreme_group in
   decompress_group8 c lo hi = extreme_group).
Proof. split; vm_compute; reflexivity. Qed.

Lemma demo_moderate : chunk_moderate demo_chunk.
Proof.
  unfold chunk_moderate, demo_chunk.
  assert (halves (flat_map demo_half (seqZ 0 256))
    = (λ i, S754_finite false (Z.to_pos (1024 + i)) (-10)) <$> seqZ 0 256) as -> by (vm_compute; reflexivity).
  apply Forall_fmap, Forall_forall. intros i Hi%elem_of_seqZ. cbn [compose].
  split; [cbn [half_shape]; lia|]. cbn [val sgn].
  assert (b2 (-10) = / 1024) as -> by (by apply (b2_inv 10)).
  assert (0 <= IZR (Zpos (Z.to_pos (1024 + i))) <= 2048) as H by (split; apply IZR_le; lia).
  apply Rabs_le. lra.
Qed.

Lemma flexgen_accuracy_witness :
  ∃ y, group 64 (halves (flexgen_decompress_single_thread 1 (flexgen_compress 3 1 demo_chunk).1
         (flexgen_compress 3 1 demo_chunk).2)) 2 !! 5%nat = Some y ∧
    within 28 2048 (group 64 (halves demo_chunk) 2) (f16_of_bits 15493) y.
Proof.
  destruct (flexgen_accuracy 3 1 demo_chunk [] ltac:(lia) ltac:(lia) eq_refl demo_moderate
    2 5%nat (f16_of_bits 15493) ltac:(lia)) as [H _]; [vm_compute; reflexivity|].
  destruct (flexgen_compress 3 1 demo_chunk) as [c m]. cbn [fst snd].
  rewrite app_nil_r in H. exact H.
Defined.
