(* ===== verification/RangeCoder.v ===== *)
(** The range coder of the CACHEGEN backend ([mzcache/kernels/cachegen_utils.cpp]):
    the bit packer, [encode_ntokens_cpu_new_range] and
    [decode_ntokens_cpu_new_range].

    A loop that never ends and does no input or output is undefined behaviour in
    C++; the loops below return [Ub] where their fuel would not be enough. *)
From S2P Require Import Prelude KvTypes.

Definition FULL : Z := 2 ^ 32 - 1.
Definition HALF : Z := 2 ^ 31.
Definition QUARTER : Z := 2 ^ 30.
Definition CDF_TOP : Z := 65536.

(** [int8_t]. *)
Definition i8 (x : Z) : Z := (x + 128) mod 256 - 128.

(** ** Bit packer

    [output_reg], [output_reg_len] and [out]. *)
Record packer := Packer { output_reg : Z; output_reg_len : Z; pk_out : list byte }.

Definition spill_reg_to_vec (p : packer) : packer :=
  let r := u32 (Z.shiftl p.(output_reg) (32 - p.(output_reg_len))) in
  Packer 0 0 (p.(pk_out) ++ [u8 (Z.shiftr r 24); u8 (Z.land (Z.shiftr r 16) 255);
                             u8 (Z.land (Z.shiftr r 8) 255); u8 (Z.land r 255)]).

(** [n] bytes from the top of the register. *)
Fixpoint spill_bytes (n : nat) (reg : Z) : list byte :=
  match n with
  | O => []
  | S n => u8 (Z.shiftr reg 24) :: spill_bytes n (u32 (Z.shiftl reg 8))
  end.

Definition spill_partial_reg_to_vec (p : packer) : packer :=
  if p.(output_reg_len) <=? 0 then p
  else
    let reg := u32 (Z.shiftl p.(output_reg) (32 - p.(output_reg_len))) in
    let bytes := (p.(output_reg_len) + 7) / 8 in
    Packer 0 0 (p.(pk_out) ++ spill_bytes (Z.to_nat bytes) reg).

(** The branch for [take == 32] shifts a [uint32_t] by 32. *)
Fixpoint add_bits_slow (fuel : nat) (bit : bool) (num : Z) (p : packer) : outcome packer :=
  if num <=? 0 then Ok p
  else match fuel with
  | O => Ub
  | S fuel =>
      let can := 32 - p.(output_reg_len) in
      let take := if num <? can then num else can in
      if take =? 32 then Ub
      else
        let reg := u32 (Z.shiftl p.(output_reg) take) in
        let reg := if bit then Z.lor reg (Z.shiftl 1 take - 1) else reg in
        let p1 := Packer reg (p.(output_reg_len) + take) p.(pk_out) in
        let p2 := if p1.(output_reg_len) =? 32 then spill_reg_to_vec p1 else p1 in
        add_bits_slow fuel bit (num - take) p2
  end.
(** Every round takes at least one bit. *)
Definition add_bits_slow' (bit : bool) (num : Z) (p : packer) : outcome packer :=
  add_bits_slow (Z.to_nat num) bit num p.

Definition add_bits_run (bit : bool) (num : Z) (p : packer) : outcome packer :=
  if num =? 0 then Ok p
  else
    let mod8 := Z.land p.(output_reg_len) 7 in
    '(num, p) <~ (if negb (mod8 =? 0) then
        let fill := 8 - mod8 in
        let take := if num <? fill then num else fill in
        p1 <~ add_bits_slow' bit take p ;; Ok (num - take, p1)
      else Ok (num, p)) ;;
    let '(num, p) :=
      if (8 <=? num) && (p.(output_reg_len) =? 0) then
        (Z.land num 7,
         Packer p.(output_reg) p.(output_reg_len)
           (p.(pk_out) ++ replicate (Z.to_nat (Z.shiftr num 3)) (if bit then 255 else 0)))
      else (num, p) in
    if negb (num =? 0) then add_bits_slow' bit (i32 num) p else Ok p.

(** The bit, then [pending] inverted bits. *)
Definition append_bit_and_pending (bit : bool) (pending : Z) (p : packer) : outcome packer :=
  p1 <~ add_bits_run bit 1 p ;;
  if negb (pending =? 0) then add_bits_run (negb bit) pending p1 else Ok p1.

(** ** Encoder *)

(** One channel: the interval, the pending bits and the output so far. *)
Record encoder := Encoder { e_low : Z; e_range : Z; e_pending : Z; e_pack : packer }.

Definition encoder_start : encoder := Encoder 0 FULL 0 (Packer 0 0 []).

(** [while (range <= QUARTER)]: E1, E2, E3. *)
Definition renorm_round (e : encoder) : outcome encoder :=
  '(low, pending, p) <~
    (if e.(e_low) <? QUARTER then
       p <~ append_bit_and_pending false e.(e_pending) e.(e_pack) ;; Ok (e.(e_low), 0, p)
     else if HALF <=? e.(e_low) then
       p <~ append_bit_and_pending true e.(e_pending) e.(e_pack) ;; Ok (e.(e_low) - HALF, 0, p)
     else Ok (e.(e_low) - QUARTER, e.(e_pending) + 1, e.(e_pack))) ;;
  Ok (Encoder (u32 (Z.shiftl low 1)) (u32 (Z.shiftl e.(e_range) 1)) pending p).

Fixpoint renorm (fuel : nat) (e : encoder) : outcome encoder :=
  if QUARTER <? e.(e_range) then Ok e
  else match fuel with
  | O => Ub
  | S fuel => e1 <~ renorm_round e ;; renorm fuel e1
  end.
(** A range of at least one exceeds [QUARTER] after 31 doublings. *)
Definition renorm_fuel : nat := 31.

(** [c_lo] and [c_hi] of a symbol. *)
Definition symbol_lo (cdf_row : Z → Z) (sym : Z) : Z := cdf_row sym.
Definition symbol_hi (cdf_row : Z → Z) (lp sym : Z) : Z :=
  if sym =? lp - 2 then CDF_TOP else cdf_row (sym + 1).

(** [base] and [size]: the symbol's part of the range. *)
Definition sub_base (cdf_row : Z → Z) (range sym : Z) : Z :=
  Z.shiftr (range * symbol_lo cdf_row sym) 16.
Definition sub_size (cdf_row : Z → Z) (lp range sym : Z) : Z :=
  Z.shiftr (range * u32 (symbol_hi cdf_row lp sym - symbol_lo cdf_row sym)) 16.

Definition encode_symbol (cdf_row : Z → Z) (lp : Z) (e : encoder) (q : Z) : outcome encoder :=
  let sym := u8 q in
  let sym := if lp - 2 <? sym then lp - 2 else sym in
  renorm renorm_fuel
    (Encoder (u32 (e.(e_low) + sub_base cdf_row e.(e_range) sym))
             (u32 (sub_size cdf_row lp e.(e_range) sym)) e.(e_pending) e.(e_pack)).

Fixpoint encode_symbols (cdf_row : Z → Z) (lp : Z) (e : encoder) (qs : list Z) : outcome encoder :=
  match qs with
  | [] => Ok e
  | q :: qs => e1 <~ encode_symbol cdf_row lp e q ;; encode_symbols cdf_row lp e1 qs
  end.

(** The termination: one more bit, and the rest of the register. *)
Definition encode_finish (e : encoder) : outcome (list byte) :=
  p <~ append_bit_and_pending (negb (e.(e_low) <? QUARTER)) (e.(e_pending) + 1) e.(e_pack) ;;
  Ok (spill_partial_reg_to_vec p).(pk_out).

(** The tokens of one channel. *)
Definition channel_symbols (q : Z → Z) (C t_chunk c : Z) : list Z := (λ t, q (t * C + c)) <$> seqZ 0 t_chunk.

Definition encode_channel (cdf : Z → Z) (C lp : Z) (q : Z → Z) (t_chunk c : Z) : outcome (list byte) :=
  let cdf_row b := cdf (lp * c + b) in
  e <~ encode_symbols cdf_row lp encoder_start (channel_symbols q C t_chunk c) ;;
  encode_finish e.

(** [bytestream] and [lengths]. *)
Fixpoint encode_channels (cdf : Z → Z) (C lp : Z) (q : Z → Z) (t_chunk : Z) (cs : list Z)
    : outcome (list byte * list Z) :=
  match cs with
  | [] => Ok ([], [])
  | c :: cs =>
      v <~ encode_channel cdf C lp q t_chunk c ;;
      '(bytes, lengths) <~ encode_channels cdf C lp q t_chunk cs ;;
      Ok (v ++ bytes, u8 (Z.of_nat (length v)) :: lengths)
  end.

Definition encode_ntokens_cpu_new_range (cdf : Z → Z) (C lp : Z) (q_chunk : Z → Z) (t_chunk : Z)
    : outcome (list byte * list Z) :=
  if (C <=? 0) || (lp <=? 2) || (t_chunk <=? 0) then Throw
  else encode_channels cdf C lp q_chunk t_chunk (seqZ 0 C).

(** ** Decoder *)

Definition byte_at (bs : list byte) (i : Z) : byte := nth (Z.to_nat i) bs 0.

Definition load_u32_be (bs : list byte) (n_avail : Z) : Z :=
  let b i := if i <? n_avail then byte_at bs i else 0 in
  Z.lor (Z.lor (Z.lor (Z.shiftl (b 0) 24) (Z.shiftl (b 1) 16)) (Z.shiftl (b 2) 8)) (b 3).

Record BitReader := BR { br_pos : Z; br_byte : Z; br_bit_idx : Z }.

Definition bit_reader (bs : list byte) (len start : Z) : BitReader :=
  BR start (if start <? len then byte_at bs start else 0) 1.

Definition next_bit (bs : list byte) (len : Z) (br : BitReader) : Z * BitReader :=
  let b := Z.land (Z.shiftr br.(br_byte) (8 - br.(br_bit_idx))) 1 in
  if br.(br_bit_idx) + 1 =? 9 then
    let pos := br.(br_pos) + 1 in
    (b, BR pos (if pos <? len then byte_at bs pos else 0) 1)
  else (b, BR br.(br_pos) br.(br_byte) (br.(br_bit_idx) + 1)).

(** [while (lo <= hi)], then the fallback.  [c_hi] is a [uint16_t]. *)
Fixpoint binsearch (fuel : nat) (cdf_chan : Z → Z) (bins_p1 count lo hi : Z) : outcome Z :=
  if hi <? lo then
    Ok (if lo <=? 0 then 0 else if bins_p1 - 2 <? lo then bins_p1 - 2 else lo - 1)
  else match fuel with
  | O => Ub
  | S fuel =>
      let mid := Z.shiftr (lo + hi) 1 in
      let c_lo := cdf_chan mid in
      let c_hi := u16 (if mid =? bins_p1 - 2 then 65536 else cdf_chan (mid + 1)) in
      if count <? c_lo then binsearch fuel cdf_chan bins_p1 count lo (mid - 1)
      else if c_hi <=? count then binsearch fuel cdf_chan bins_p1 count (mid + 1) hi
      else Ok mid
  end.
Definition binsearch_symbol (cdf_chan : Z → Z) (bins_p1 count : Z) : outcome Z :=
  binsearch (Z.to_nat bins_p1) cdf_chan bins_p1 count 0 (bins_p1 - 2).

Record decoder := Decoder { d_low : Z; d_range : Z; d_value : Z; d_br : BitReader }.

(** One round of the decoder's [while (range <= QUARTER)]. *)
Definition renorm_dec_round (bs : list byte) (len : Z) (d : decoder) : decoder :=
  let sub := if HALF <=? d.(d_low) then HALF else if QUARTER <=? d.(d_low) then QUARTER else 0 in
  let '(b, br) := next_bit bs len d.(d_br) in
  Decoder (u32 (Z.shiftl (d.(d_low) - sub) 1)) (u32 (Z.shiftl d.(d_range) 1))
          (Z.lor (u32 (Z.shiftl (u32 (d.(d_value) - sub)) 1)) b) br.

Fixpoint renorm_dec (fuel : nat) (bs : list byte) (len : Z) (d : decoder) : outcome decoder :=
  if QUARTER <? d.(d_range) then Ok d
  else match fuel with
  | O => Ub
  | S fuel => renorm_dec fuel bs len (renorm_dec_round bs len d)
  end.

(** The symbol at [value]. *)
Definition find_symbol (cdf_chan : Z → Z) (bins_p1 : Z) (d : decoder) : outcome Z :=
  let num := u64 ((d.(d_value) - d.(d_low) + 1) * 65536 - 1) in
  if d.(d_range) =? 0 then Ub
  else binsearch_symbol cdf_chan bins_p1 (u16 (num / d.(d_range))).

Definition decode_update (cdf_chan : Z → Z) (bins_p1 : Z) (bs : list byte) (len : Z) (d : decoder)
    (sym : Z) : outcome decoder :=
  renorm_dec renorm_fuel bs len
    (Decoder (u32 (d.(d_low) + u32 (sub_base cdf_chan d.(d_range) sym)))
             (u32 (sub_size cdf_chan bins_p1 d.(d_range) sym)) d.(d_value) d.(d_br)).

(** [n] more tokens; the last one needs no update. *)
Fixpoint decode_symbols (cdf_chan : Z → Z) (bins_p1 : Z) (bs : list byte) (len : Z) (n : nat)
    (d : decoder) : outcome (list Z) :=
  match n with
  | O => Ok []
  | S n =>
      sym <~ find_symbol cdf_chan bins_p1 d ;;
      match n with
      | O => Ok [i8 sym]
      | _ =>
          d1 <~ decode_update cdf_chan bins_p1 bs len d sym ;;
          rest <~ decode_symbols cdf_chan bins_p1 bs len n d1 ;; Ok (i8 sym :: rest)
      end
  end.

Definition decoder_start (bs : list byte) (len : Z) : decoder :=
  Decoder 0 FULL (load_u32_be bs (if 4 <=? len then 4 else if 0 <? len then len else 0))
    (bit_reader bs len 4).

(** One channel, from the start of its bytes. *)
Definition decode_channel (cdf : Z → Z) (bins_p1 : Z) (bs : list byte) (len c : Z) : outcome (list Z) :=
  decode_symbols (λ b, cdf (bins_p1 * c + b)) bins_p1 bs len (Z.to_nat MAX_TOKENS_PER_CHUNK)
    (decoder_start bs len).

(** The channels, each at the offset the lengths before it add up to. *)
Fixpoint decode_channels (cdf : Z → Z) (bins_p1 : Z) (input : list byte) (c : Z) (lengths : list Z)
    : outcome (list (list Z)) :=
  match lengths with
  | [] => Ok []
  | len :: lengths =>
      col <~ decode_channel cdf bins_p1 input len c ;;
      rest <~ decode_channels cdf bins_p1 (drop (Z.to_nat len) input) (c + 1) lengths ;;
      Ok (col :: rest)
  end.

(** [out[t * C + c]]. *)
Definition tokens_first (C : Z) (cols : list (list Z)) (i : Z) : Z :=
  nth (Z.to_nat (i / C)) (nth (Z.to_nat (i mod C)) cols []) 0.

Definition decode_ntokens_cpu_new_range (cdf : Z → Z) (C bins_p1 : Z) (input : list byte)
    (lengths : list Z) : outcome (Z → Z) :=
  if negb (Z.of_nat (length lengths) =? C) then Throw
  else cols <~ decode_channels cdf bins_p1 input 0 lengths ;; Ok (tokens_first C cols).
