(* ===== verification/RangeCoderBits.v ===== *)
(** The bit packer of the range coder, and the reader's view of its bytes: what
    is written is a binary number, what is read are its leading digits. *)
From S2P Require Import Prelude KvTypes RangeCoder.

(** ** Bytes as a number *)

Definition is_byte (b : Z) : Prop := 0 <= b < 256.

(** The big-endian number of a list of bytes. *)
Fixpoint be_val (l : list Z) : Z :=
  match l with
  | [] => 0
  | b :: l => b * 256 ^ Z.of_nat (length l) + be_val l
  end.

Lemma be_val_app (l k : list Z) : be_val (l ++ k) = be_val l * 256 ^ Z.of_nat (length k) + be_val k.
Proof.
  induction l as [|b l IH]; [done|]. cbn [be_val app]. rewrite length_app, IH.
  rewrite Nat2Z.inj_add, Z.pow_add_r by lia. ring.
Qed.

Lemma be_val_bounds (l : list Z) : Forall is_byte l → 0 <= be_val l < 256 ^ Z.of_nat (length l).
Proof.
  induction 1 as [|b l Hb Hl IH]; [done|]. cbn [be_val length].
  rewrite Nat2Z.inj_succ, Z.pow_succ_r by lia. unfold is_byte in Hb.
  revert IH. generalize (256 ^ Z.of_nat (length l)). intros P IH.
  nia.
Qed.

Lemma be_val_replicate n b : be_val (replicate n b) * 255 = b * (256 ^ Z.of_nat n - 1).
Proof.
  induction n as [|n IH]; [cbn; lia|]. cbn [replicate be_val]. rewrite length_replicate.
  rewrite Nat2Z.inj_succ, Z.pow_succ_r by lia. lia.
Qed.

Lemma pow256 n : 0 <= n → 256 ^ n = 2 ^ (8 * n).
Proof. intros Hn. change 256 with (2 ^ 8). by rewrite <- Z.pow_mul_r by lia. Qed.

(** [n] copies of a bit. *)
Definition run_val (bit : bool) (n : Z) : Z := if bit then 2 ^ n - 1 else 0.

Lemma run_val_add bit a b : 0 <= a → 0 <= b →
  run_val bit (a + b) = run_val bit a * 2 ^ b + run_val bit b.
Proof. intros Ha Hb. unfold run_val. destruct bit; [rewrite Z.pow_add_r by lia; ring|ring]. Qed.

(** ** The packer *)

(** The packer holds the [N] bits of the number [V]. *)
Record packs (p : packer) (N V : Z) : Prop := Packs {
  pk_len : 0 <= p.(output_reg_len) < 32;
  pk_reg : 0 <= p.(output_reg) < 2 ^ p.(output_reg_len);
  pk_bytes : Forall is_byte p.(pk_out);
  pk_bits : N = 8 * Z.of_nat (length p.(pk_out)) + p.(output_reg_len);
  pk_val : V = be_val p.(pk_out) * 2 ^ p.(output_reg_len) + p.(output_reg) }.

Lemma packs_start : packs (Packer 0 0 []) 0 0.
Proof. split; cbn; try lia. constructor. Qed.

Lemma bytes_of_reg r : 0 <= r < 2 ^ 32 →
  let l := [u8 (Z.shiftr r 24); u8 (Z.land (Z.shiftr r 16) 255);
            u8 (Z.land (Z.shiftr r 8) 255); u8 (Z.land r 255)] in
  Forall is_byte l ∧ be_val l = r.
Proof.
  intros Hr. cbv zeta. change 255 with (Z.ones 8). rewrite !Z.land_ones by lia.
  unfold u8. rewrite !Z.mod_mod by lia. rewrite !Z.shiftr_div_pow2 by lia.
  split; [repeat constructor; apply Z.mod_pos_bound; lia|].
  cbn [be_val length]. change (Z.of_nat 3) with 3. change (Z.of_nat 2) with 2.
  change (Z.of_nat 1) with 1. change (Z.of_nat 0) with 0.
  change (256 ^ 3) with 16777216. change (256 ^ 2) with 65536. change (256 ^ 1) with 256.
  change (256 ^ 0) with 1. change (2 ^ 24) with 16777216. change (2 ^ 16) with 65536.
  change (2 ^ 8) with 256. change (2 ^ 32) with 4294967296 in Hr.
  Z.div_mod_to_equations. lia.
Qed.

Lemma spill_packs reg out N V : 0 <= reg < 2 ^ 32 → Forall is_byte out →
  N = 8 * Z.of_nat (length out) + 32 → V = be_val out * 2 ^ 32 + reg →
  packs (spill_reg_to_vec (Packer reg 32 out)) N V.
Proof.
  intros Hr Ho HN HV. unfold spill_reg_to_vec. cbn [output_reg output_reg_len pk_out].
  rewrite Z.sub_diag, Z.shiftl_0_r, u32_id by done.
  destruct (bytes_of_reg reg Hr) as [Hb Hv]. cbv zeta in *.
  split; cbn [output_reg output_reg_len pk_out].
  - lia.
  - lia.
  - by apply Forall_app.
  - rewrite length_app. cbn [length]. lia.
  - rewrite be_val_app, Hv. cbn [length]. change (256 ^ Z.of_nat 4) with (2 ^ 32). lia.
Qed.

(** [take] copies of a bit shifted into the register. *)
Lemma shift_in (bit : bool) (reg len take : Z) : 0 <= reg < 2 ^ len → 0 <= len → 0 < take → len + take <= 32 →
  let reg1 := u32 (Z.shiftl reg take) in
  let r := if bit then Z.lor reg1 (Z.shiftl 1 take - 1) else reg1 in
  r = reg * 2 ^ take + run_val bit take ∧ 0 <= r < 2 ^ (len + take).
Proof.
  intros Hr Hl Ht Hs. cbv zeta. rewrite Z.shiftl_mul_pow2 by lia.
  assert (0 < 2 ^ take) as Hp by (apply Z.pow_pos_nonneg; lia).
  assert (2 ^ (len + take) <= 2 ^ 32) as Hle by (apply Z.pow_le_mono_r; lia).
  assert (2 ^ (len + take) = 2 ^ len * 2 ^ take) as Hadd by (apply Z.pow_add_r; lia).
  assert (0 <= reg * 2 ^ take < 2 ^ (len + take)) as Hb by nia.
  rewrite u32_id by lia. unfold run_val. destruct bit; [|lia].
  assert (Z.lor (reg * 2 ^ take) (Z.shiftl 1 take - 1) = reg * 2 ^ take + (2 ^ take - 1)) as ->; [|nia].
  rewrite Z.shiftl_mul_pow2, Z.mul_1_l by lia.
  replace (2 ^ take - 1) with (Z.ones take) by (rewrite Z.ones_equiv; lia).
  assert (Z.land (reg * 2 ^ take) (Z.ones take) = 0) as Hd.
  { rewrite Z.land_ones by lia. apply Z.mod_mul. lia. }
  by rewrite <- Z.lxor_lor, <- Z.add_nocarry_lxor.
Qed.

(** Writing [num] copies of a bit: the slow path never meets an empty register
    with 32 bits to write. *)
Lemma add_bits_slow_packs bit fuel num p N V :
  packs p N V → 0 <= num → num < 32 ∨ p.(output_reg_len) ≠ 0 ∧ num < 64 - p.(output_reg_len) →
  num <= Z.of_nat fuel →
  ∃ p', add_bits_slow fuel bit num p = Ok p' ∧ packs p' (N + num) (V * 2 ^ num + run_val bit num).
Proof.
  revert num p N V. induction fuel as [|fuel IH]; intros num p N V Hp Hn Hs Hf; cbn [add_bits_slow].
  { assert (num = 0) as -> by lia. exists p. split; [done|].
    replace (V * 2 ^ 0 + run_val bit 0) with V by (destruct bit; cbn; lia).
    by replace (N + 0) with N by lia. }
  destruct (Z.leb_spec num 0).
  { assert (num = 0) as -> by lia. exists p. split; [done|].
    replace (V * 2 ^ 0 + run_val bit 0) with V by (destruct bit; cbn; lia).
    by replace (N + 0) with N by lia. }
  destruct Hp as [Hlen Hreg Hbytes HN HV].
  set (len := p.(output_reg_len)) in *. set (reg := p.(output_reg)) in *.
  set (take := if num <? 32 - len then num else 32 - len).
  assert (0 < take <= num ∧ take <= 32 - len ∧ take ≠ 32 ∧ (take = num ∨ take = 32 - len)) as (Ht & Hcan & H32 & Hor).
  { unfold take. destruct (Z.ltb_spec num (32 - len)); lia. }
  destruct (Z.eqb_spec take 32); [lia|].
  destruct (shift_in bit reg len take Hreg ltac:(lia) ltac:(lia) ltac:(lia)) as [Hr Hrb].
  cbv zeta in *. set (r := if bit then _ else _) in *. cbn [output_reg_len].
  assert (∃ p2, (if len + take =? 32 then spill_reg_to_vec (Packer r (len + take) p.(pk_out))
      else Packer r (len + take) p.(pk_out)) = p2 ∧
    packs p2 (N + take) (V * 2 ^ take + run_val bit take) ∧
    (num - take < 32)) as (p2 & -> & Hp2 & Hrest).
  { eexists. split; [done|].
    assert (V * 2 ^ take + run_val bit take = be_val p.(pk_out) * 2 ^ (len + take) + r) as HV2.
    { rewrite HV, Hr, Z.pow_add_r by lia. ring. }
    destruct (Z.eqb_spec (len + take) 32) as [He|He].
    - split; [|lia]. rewrite He in *. apply spill_packs; [lia|done|lia|done].
    - split; [|lia]. split; cbn [output_reg output_reg_len pk_out]; [lia|done|done|lia|done]. }
  destruct (IH (num - take) p2 _ _ Hp2 ltac:(lia) ltac:(lia) ltac:(lia)) as (p' & Hok & Hp').
  exists p'. split; [done|].
  replace (N + num) with (N + take + (num - take)) by lia.
  replace (V * 2 ^ num + run_val bit num)
    with ((V * 2 ^ take + run_val bit take) * 2 ^ (num - take) + run_val bit (num - take)); [done|].
  replace num with (take + (num - take)) at 3 4 by lia.
  rewrite run_val_add, Z.pow_add_r by lia. ring.
Qed.

(** The longest run that never meets an empty register with 32 bits left. *)
Definition SAFE_RUN : Z := 39.

Lemma add_bits_slow'_packs (bit : bool) (num : Z) p N V :
  packs p N V → 0 <= num → num < 32 ∨ p.(output_reg_len) ≠ 0 ∧ num < 64 - p.(output_reg_len) →
  ∃ p', add_bits_slow' bit num p = Ok p' ∧ packs p' (N + num) (V * 2 ^ num + run_val bit num).
Proof. intros Hp Hn Hs. apply add_bits_slow_packs; try done. lia. Qed.

Lemma packs_mod8 p N V : packs p N V → p.(output_reg_len) mod 8 = N mod 8.
Proof. intros [_ _ _ -> _]. by rewrite Z.add_comm, Z.mul_comm, Z.mod_add. Qed.

(** Whole bytes of one bit. *)
Lemma bulk_packs (bit : bool) (num : Z) p N V : packs p N V → p.(output_reg_len) = 0 → 0 <= num →
  packs (Packer p.(output_reg) p.(output_reg_len)
           (p.(pk_out) ++ replicate (Z.to_nat num) (if bit then 255 else 0)))
    (N + 8 * num) (V * 2 ^ (8 * num) + run_val bit (8 * num)).
Proof.
  intros [Hl Hr Hb HN HV] H0 Hn. rewrite H0 in *. change (2 ^ 0) with 1 in *.
  split; cbn [output_reg output_reg_len pk_out].
  - lia.
  - lia.
  - apply Forall_app. split; [done|]. apply Forall_replicate. unfold is_byte. destruct bit; lia.
  - rewrite length_app, length_replicate. lia.
  - rewrite be_val_app, length_replicate, pow256 by lia. rewrite Z2Nat.id by lia.
    pose proof (be_val_replicate (Z.to_nat num) (if bit then 255 else 0)) as Hrep.
    rewrite pow256, Z2Nat.id in Hrep by lia. rewrite HV. unfold run_val. destruct bit; lia.
Qed.

Lemma land_7 n : Z.land n 7 = n mod 8.
Proof. by apply (Z.land_ones n 3). Qed.

Lemma add_bits_run_packs (bit : bool) (num : Z) p N V : packs p N V → 0 <= num <= SAFE_RUN →
  ∃ p', add_bits_run bit num p = Ok p' ∧ packs p' (N + num) (V * 2 ^ num + run_val bit num).
Proof.
  unfold SAFE_RUN. intros Hp Hn. unfold add_bits_run.
  destruct (Z.eqb_spec num 0) as [->|Hn0].
  { exists p. split; [done|]. replace (N + 0) with N by lia.
    by replace (V * 2 ^ 0 + run_val bit 0) with V by (destruct bit; cbn; lia). }
  rewrite land_7. set (mod8 := p.(output_reg_len) mod 8).
  pose proof (pk_len _ _ _ Hp) as Hlen.
  assert (0 <= mod8 < 8) as Hmod by (apply Z.mod_pos_bound; lia).
  assert (∃ take p1, (if negb (mod8 =? 0) then
        p1 <~ add_bits_slow' bit (if num <? 8 - mod8 then num else 8 - mod8) p ;;
        Ok (num - (if num <? 8 - mod8 then num else 8 - mod8), p1) else Ok (num, p)) = Ok (num - take, p1) ∧
      packs p1 (N + take) (V * 2 ^ take + run_val bit take) ∧ 0 <= take <= num ∧
      (take = num ∨ p1.(output_reg_len) mod 8 = 0)) as (take & p1 & -> & Hp1 & Htk & Hal).
  { destruct (Z.eqb_spec mod8 0) as [Hm|Hm]; cbn [negb].
    - exists 0, p. split; [f_equal; f_equal; lia|]. replace (N + 0) with N by lia.
      replace (V * 2 ^ 0 + run_val bit 0) with V by (destruct bit; cbn; lia). auto with lia.
    - set (t := if num <? 8 - mod8 then num else 8 - mod8).
      assert (0 < t <= num ∧ t <= 8 - mod8 ∧ (t = num ∨ t = 8 - mod8)) as (H1 & H2 & H3)
        by (unfold t; destruct (Z.ltb_spec num (8 - mod8)); lia).
      destruct (add_bits_slow'_packs bit t p N V Hp ltac:(lia) ltac:(lia)) as (p1 & -> & Hp1).
      exists t, p1. split; [done|split; [done|split; [lia|]]].
      destruct H3 as [|H3]; [by left|right].
      rewrite (packs_mod8 _ _ _ Hp1), H3. unfold mod8. rewrite (packs_mod8 _ _ _ Hp).
      pose proof (Z.div_mod N 8 ltac:(lia)).
      replace (N + (8 - N mod 8)) with ((N / 8 + 1) * 8) by lia. apply Z.mod_mul. lia. }
  cbn [obind]. set (rest := num - take).
  assert (∃ bulk p2, (if (8 <=? rest) && (p1.(output_reg_len) =? 0) then
        (Z.land rest 7, Packer p1.(output_reg) p1.(output_reg_len)
           (p1.(pk_out) ++ replicate (Z.to_nat (Z.shiftr rest 3)) (if bit then 255 else 0)))
      else (rest, p1)) = (rest - bulk, p2) ∧
      packs p2 (N + take + bulk) (V * 2 ^ (take + bulk) + run_val bit (take + bulk)) ∧ 0 <= bulk <= rest ∧
      (rest - bulk < 32 ∨ p2.(output_reg_len) ≠ 0 ∧ rest - bulk < 64 - p2.(output_reg_len)))
    as (bulk & p2 & -> & Hp2 & Hbk & Hs2).
  { destruct (Z.leb_spec 8 rest) as [H8|H8]; cbn [andb].
    2:{ exists 0, p1. rewrite !Z.add_0_r, Z.sub_0_r. split; [done|split; [done|split; [lia|lia]]]. }
    pose proof (pk_len _ _ _ Hp1).
    destruct (Z.eqb_spec p1.(output_reg_len) 0) as [He|He].
    - rewrite land_7. pose proof (Z.div_mod rest 8 ltac:(lia)) as Hd.
      pose proof (Z.mod_pos_bound rest 8 ltac:(lia)).
      exists (8 * (rest / 8)). eexists. split; [f_equal; lia|].
      assert (Z.shiftr rest 3 = rest / 8) as Hsh by (by rewrite Z.shiftr_div_pow2 by lia).
      split; [|split; [lia|lia]]. rewrite Hsh.
      pose proof (bulk_packs bit (rest / 8) p1 _ _ Hp1 He ltac:(lia)) as Hb.
      rewrite run_val_add, Z.pow_add_r by lia.
      by replace (V * (2 ^ take * 2 ^ (8 * (rest / 8))) + (run_val bit take * 2 ^ (8 * (rest / 8))
        + run_val bit (8 * (rest / 8)))) with ((V * 2 ^ take + run_val bit take) * 2 ^ (8 * (rest / 8))
        + run_val bit (8 * (rest / 8))) by ring.
    - exists 0, p1. rewrite !Z.add_0_r, Z.sub_0_r. split; [done|split; [done|split; [lia|]]].
      destruct Hal as [Hal|Hal]; [lia|]. right. split; [done|].
      pose proof (Z.div_mod p1.(output_reg_len) 8 ltac:(lia)). lia. }
  destruct (Z.eqb_spec (rest - bulk) 0) as [Hz|Hz]; cbn [negb].
  - exists p2. split; [done|]. replace num with (take + bulk) by lia. by rewrite Z.add_assoc.
  - assert (i32 (rest - bulk) = rest - bulk) as -> by (unfold i32; rewrite Z.mod_small; lia).
    destruct (add_bits_slow'_packs bit (rest - bulk) p2 _ _ Hp2 ltac:(lia) Hs2) as (p3 & -> & Hp3).
    exists p3. split; [done|].
    replace (N + num) with (N + take + bulk + (rest - bulk)) by lia.
    assert (V * 2 ^ (take + bulk + (rest - bulk)) + run_val bit (take + bulk + (rest - bulk)) =
      (V * 2 ^ (take + bulk) + run_val bit (take + bulk)) * 2 ^ (rest - bulk) + run_val bit (rest - bulk)) as Hv
      by (rewrite (run_val_add bit (take + bulk)), (Z.pow_add_r 2 (take + bulk)) by lia; ring).
    replace (take + bulk + (rest - bulk)) with num in Hv by lia. by rewrite Hv.
Qed.

Lemma append_bit_packs (bit : bool) (pending : Z) p N V : packs p N V → 0 <= pending <= SAFE_RUN →
  ∃ p', append_bit_and_pending bit pending p = Ok p' ∧
    packs p' (N + 1 + pending) ((V * 2 + Z.b2z bit) * 2 ^ pending + run_val (negb bit) pending).
Proof.
  intros Hp Hn. unfold append_bit_and_pending.
  destruct (add_bits_run_packs bit 1 p N V Hp) as (p1 & -> & Hp1); [unfold SAFE_RUN; lia|]. cbn [obind].
  replace (V * 2 ^ 1 + run_val bit 1) with (V * 2 + Z.b2z bit) in Hp1 by (destruct bit; cbn; lia).
  destruct (Z.eqb_spec pending 0) as [->|Hz]; cbn [negb].
  - exists p1. split; [done|]. rewrite Z.add_0_r.
    by replace ((V * 2 + Z.b2z bit) * 2 ^ 0 + run_val (negb bit) 0) with (V * 2 + Z.b2z bit)
      by (destruct bit; cbn; lia).
  - by apply add_bits_run_packs.
Qed.

(** ** The end of a channel *)

Lemma spill_bytes_spec n reg : 0 <= reg < 2 ^ 32 → (n <= 4)%nat →
  length (spill_bytes n reg) = n ∧ Forall is_byte (spill_bytes n reg) ∧
  be_val (spill_bytes n reg) = reg / 2 ^ (32 - 8 * Z.of_nat n).
Proof.
  revert reg. induction n as [|n IH]; intros reg Hr Hn; cbn [spill_bytes length be_val].
  { split; [done|split; [constructor|]]. change (32 - 8 * Z.of_nat 0) with 32. by rewrite Z.div_small. }
  set (reg' := u32 (Z.shiftl reg 8)).
  assert (0 <= reg' < 2 ^ 32) as Hr' by (apply Z.mod_pos_bound; lia).
  destruct (IH reg' Hr' ltac:(lia)) as (H1 & H2 & H3). rewrite H1, H3.
  assert (0 <= reg / 2 ^ 24 < 256) as Hb.
  { split; [apply Z.div_pos; lia|apply Z.div_lt_upper_bound; lia]. }
  assert (u8 (Z.shiftr reg 24) = reg / 2 ^ 24) as Hu by (rewrite Z.shiftr_div_pow2 by lia; by apply u8_id).
  split; [by rewrite Nat2Z.id || lia|split; [constructor; [by rewrite Hu|done]|]].
  rewrite Hu, pow256 by lia.
  assert (reg' = (reg mod 2 ^ 24) * 2 ^ 8) as ->.
  { unfold reg', u32. rewrite Z.shiftl_mul_pow2 by lia. change (2 ^ 32) with (2 ^ 24 * 2 ^ 8).
    by rewrite Z.mul_mod_distr_r. }
  set (k := Z.of_nat n). assert (0 <= k <= 3) as Hk by lia.
  replace (32 - 8 * k) with (24 - 8 * k + 8) by lia.
  replace (32 - 8 * Z.of_nat (S n)) with (24 - 8 * k) by lia.
  rewrite Z.pow_add_r, Z.div_mul_cancel_r by lia.
  pose proof (Z.div_mod reg (2 ^ 24) ltac:(lia)) as Hd.
  assert (2 ^ 24 = 2 ^ (8 * k) * 2 ^ (24 - 8 * k)) as H24 by (rewrite <- Z.pow_add_r by lia; f_equal; lia).
  rewrite Hd at 3. rewrite H24 at 3.
  replace (2 ^ (8 * k) * 2 ^ (24 - 8 * k) * (reg / 2 ^ 24) + reg mod 2 ^ 24)
    with (reg mod 2 ^ 24 + (reg / 2 ^ 24 * 2 ^ (8 * k)) * 2 ^ (24 - 8 * k)) by ring.
  rewrite Z.div_add by lia. lia.
Qed.

Lemma finish_packs p N V : packs p N V →
  let out := (spill_partial_reg_to_vec p).(pk_out) in
  Forall is_byte out ∧ N <= 8 * Z.of_nat (length out) < N + 8 ∧
  be_val out = V * 2 ^ (8 * Z.of_nat (length out) - N).
Proof.
  intros [Hlen Hreg Hb HN HV]. cbv zeta. unfold spill_partial_reg_to_vec.
  destruct (Z.leb_spec p.(output_reg_len) 0) as [H0|H0].
  - assert (p.(output_reg_len) = 0) as He by lia. rewrite He in *. split; [done|split; [lia|]].
    change (2 ^ 0) with 1 in *. replace (8 * Z.of_nat (length p.(pk_out)) - N) with 0 by lia. lia.
  - cbn [pk_out]. set (len := p.(output_reg_len)) in *. set (reg := p.(output_reg)) in *.
    rewrite Z.shiftl_mul_pow2 by lia.
    assert (2 ^ 32 = 2 ^ len * 2 ^ (32 - len)) as H32 by (rewrite <- Z.pow_add_r by lia; f_equal; lia).
    assert (0 < 2 ^ (32 - len)) as Hp by (apply Z.pow_pos_nonneg; lia).
    assert (0 <= reg * 2 ^ (32 - len) < 2 ^ 32) as Hr by nia. rewrite u32_id by done.
    set (n := (len + 7) / 8).
    assert (len <= 8 * n < len + 8 ∧ 0 <= n <= 4) as [Hn Hn4].
    { unfold n. pose proof (Z.div_mod (len + 7) 8 ltac:(lia)).
      pose proof (Z.mod_pos_bound (len + 7) 8 ltac:(lia)). lia. }
    destruct (spill_bytes_spec (Z.to_nat n) _ Hr ltac:(lia)) as (H1 & H2 & H3).
    rewrite length_app, H1. rewrite Z2Nat.id in H3 by lia.
    split; [by apply Forall_app|split; [lia|]].
    rewrite be_val_app, H1, H3, pow256, Z2Nat.id by lia.
    replace (8 * Z.of_nat (length p.(pk_out) + Z.to_nat n) - N) with (8 * n - len) by lia.
    assert (reg * 2 ^ (32 - len) / 2 ^ (32 - 8 * n) = reg * 2 ^ (8 * n - len)) as ->.
    { replace (32 - len) with (8 * n - len + (32 - 8 * n)) by lia. rewrite Z.pow_add_r by lia.
      rewrite Z.mul_assoc. apply Z.div_mul. lia. }
    rewrite HV. replace (8 * n) with (len + (8 * n - len)) at 1 by lia. rewrite Z.pow_add_r by lia. ring.
Qed.

(** ** Reading *)

(** The number of the first [m] bits of the [len] bytes, which zeros follow. *)
Definition leading (bs : list Z) (len m : Z) : Z :=
  be_val (take (Z.to_nat len) bs) * 2 ^ m / 2 ^ (8 * len).

(** The byte at a position: 0 beyond the end. *)
Definition get_byte (bs : list Z) (len i : Z) : Z := if i <? len then byte_at bs i else 0.

Lemma leading_half bs len m : 0 <= len → 0 <= m →
  leading bs len (m + 1) / 2 = leading bs len m.
Proof.
  intros Hl Hm. unfold leading. rewrite Z.div_div by lia.
  rewrite Z.pow_add_r, Z.mul_assoc by lia. rewrite (Z.mul_comm (2 ^ (8 * len)) 2).
  change (2 ^ 1) with 2. rewrite (Z.mul_comm _ 2), (Z.mul_comm 2 (2 ^ _)), (Z.mul_comm 2 (_ * _)).
  by rewrite Z.div_mul_cancel_r by lia.
Qed.

Section reading.
Context (bs : list Z) (len : Z).
Hypothesis len_ok : 0 <= len <= Z.of_nat (length bs).
Hypothesis bytes_ok : Forall is_byte (take (Z.to_nat len) bs).

(** The bit at index [i] of the bytes. *)
Lemma leading_bit i : 0 <= i →
  leading bs len (i + 1) mod 2 = Z.land (Z.shiftr (get_byte bs len (i / 8)) (7 - i mod 8)) 1.
Proof.
  intros Hi. rewrite (Z.land_ones _ 1) by lia. change (2 ^ 1) with 2.
  pose proof (Z.div_mod i 8 ltac:(lia)) as Hd. pose proof (Z.mod_pos_bound i 8 ltac:(lia)) as Hr.
  set (j := i / 8) in *. set (r := i mod 8) in *. assert (0 <= j) as Hj by lia.
  unfold leading, get_byte. destruct (Z.ltb_spec j len) as [Hlt|Hge].
  - set (l := take (Z.to_nat len) bs).
    assert (length l = Z.to_nat len) as Hl by (unfold l; rewrite length_take; lia).
    destruct (lookup_lt_is_Some_2 l (Z.to_nat j) ltac:(lia)) as [b Hb].
    assert (byte_at bs j = b) as ->.
    { unfold byte_at. apply nth_lookup_Some. unfold l in Hb. rewrite lookup_take_lt in Hb by lia. done. }
    pose proof (take_drop_middle l _ _ Hb) as Hsplit.
    set (pre := take (Z.to_nat j) l) in *. set (post := drop (S (Z.to_nat j)) l) in *.
    assert (is_byte b ∧ Forall is_byte post) as [Hbb Hpost].
    { fold l in bytes_ok. rewrite <- Hsplit in bytes_ok. apply Forall_app in bytes_ok as [_ H].
      by apply Forall_cons in H. }
    assert (Z.of_nat (length post) = len - j - 1) as Hpl by (unfold post; rewrite length_drop; lia).
    rewrite <- Hsplit, be_val_app. cbn [be_val length]. rewrite Nat2Z.inj_succ, Hpl.
    rewrite !pow256 by lia.
    pose proof (be_val_bounds post Hpost) as Hpb. rewrite Hpl, pow256 in Hpb by lia.
    replace (8 * Z.succ (len - j - 1)) with (8 + 8 * (len - j - 1)) by lia.
    rewrite (Z.pow_add_r 2 8) by lia. set (P := 2 ^ (8 * (len - j - 1))) in *.
    replace (8 * len) with (7 - r + 8 * (len - j - 1) + (i + 1)) by lia.
    rewrite (Z.pow_add_r 2 _ (i + 1)), Z.div_mul_cancel_r by lia.
    rewrite (Z.pow_add_r 2 (7 - r)) by lia. fold P.
    replace (be_val pre * (2 ^ 8 * P) + (b * P + be_val post))
      with (be_val post + (be_val pre * 256 + b) * P) by (change (2 ^ 8) with 256; ring).
    assert (0 < P) as HP by (apply Z.pow_pos_nonneg; lia).
    rewrite (Z.mul_comm (2 ^ (7 - r))), <- Z.div_div by lia.
    rewrite Z.div_add, (Z.div_small (be_val post)), Z.add_0_l by lia.
    rewrite Z.shiftr_div_pow2 by lia.
    replace (be_val pre * 256) with (be_val pre * 2 ^ r * 2 * 2 ^ (7 - r)).
    + rewrite (Z.add_comm _ b), Z.div_add by lia. by rewrite Z.mod_add by lia.
    + rewrite <- !Z.mul_assoc. f_equal. rewrite (Z.mul_comm 2), Z.mul_assoc, <- Z.pow_add_r by lia.
      by replace (r + (7 - r)) with 7 by lia.
  - rewrite Z.shiftr_0_l. change (0 mod 2) with 0.
    replace (i + 1) with (i - 8 * len + 1 + 8 * len) by lia.
    rewrite Z.pow_add_r, Z.mul_assoc, Z.div_mul by lia.
    rewrite Z.pow_add_r, Z.mul_assoc by lia. by apply Z.mod_mul.
Qed.
End reading.
