(* ===== verification/RangeCoderThms.v ===== *)
(** The range coder decodes what it encodes: the encoder's interval inside the
    unbounded integers, and the decoder following it. *)
From S2P Require Import Prelude KvTypes RangeCoder RangeCoderBits.

(** ** The interval without its output

    [i_acc + i_low] is the exact lower end of the interval after [i_n] doublings:
    [i_acc] counts what the renormalisation has subtracted. *)
Record icoder := IC { i_low : Z; i_range : Z; i_pending : Z; i_acc : Z; i_n : Z }.

Definition icoder_start : icoder := IC 0 FULL 0 0 0.

(** What a doubling subtracts. *)
Definition shift_sub (low : Z) : Z :=
  if low <? QUARTER then 0 else if HALF <=? low then HALF else QUARTER.

Definition ishift (s : icoder) : icoder :=
  let sub := shift_sub s.(i_low) in
  IC (2 * (s.(i_low) - sub)) (2 * s.(i_range)) (if sub =? QUARTER then s.(i_pending) + 1 else 0)
     (2 * (s.(i_acc) + sub)) (s.(i_n) + 1).

(** The doublings of a symbol; none when a run of pending bits is too long for
    the packer. *)
Fixpoint irenorm (fuel : nat) (s : icoder) : option icoder :=
  if QUARTER <? s.(i_range) then Some s
  else match fuel with
  | O => None
  | S fuel => if SAFE_RUN <? s.(i_pending) then None else irenorm fuel (ishift s)
  end.

Definition inarrow (cdf_row : Z → Z) (lp : Z) (s : icoder) (sym : Z) : icoder :=
  IC (s.(i_low) + sub_base cdf_row s.(i_range) sym) (sub_size cdf_row lp s.(i_range) sym)
     s.(i_pending) s.(i_acc) s.(i_n).

Fixpoint isymbols (cdf_row : Z → Z) (lp : Z) (s : icoder) (syms : list Z) : option icoder :=
  match syms with
  | [] => Some s
  | sym :: syms => s1 ← irenorm renorm_fuel (inarrow cdf_row lp s sym); isymbols cdf_row lp s1 syms
  end.

(** The channels the coder is right on: no long run of pending bits, and a final
    interval that does not lie above its middle. *)
Definition channel_safe (cdf_row : Z → Z) (lp : Z) (syms : list Z) : bool :=
  match isymbols cdf_row lp icoder_start syms with
  | Some s => (s.(i_low) <=? HALF) && (s.(i_pending) + 1 <=? SAFE_RUN)
  | None => false
  end.

(** Rows of the table: they start at 0, increase, and stay below [CDF_TOP]. *)
Record row_ok (cdf_row : Z → Z) (lp : Z) : Prop := RowOk {
  row_lp : 2 < lp <= 129;
  row_zero : cdf_row 0 = 0;
  row_incr : ∀ b, 0 <= b < lp - 2 → cdf_row b < cdf_row (b + 1);
  row_top : cdf_row (lp - 2) < CDF_TOP }.

Definition symbol_ok (lp sym : Z) : Prop := 0 <= sym <= lp - 2.

(** ** Rows *)

Section rows.
Context (cdf_row : Z → Z) (lp : Z).
Hypothesis row : row_ok cdf_row lp.

Lemma row_mono a b : 0 <= a → a <= b → b <= lp - 2 → cdf_row a <= cdf_row b.
Proof.
  intros Ha Hab. revert b Hab.
  apply (Zlt_lower_bound_ind (λ b, b <= lp - 2 → cdf_row a <= cdf_row b) a). intros b IH Hab Hb.
  destruct (decide (a = b)) as [->|]; [done|].
  pose proof (IH (b - 1) ltac:(lia) ltac:(lia)). pose proof (row_incr _ _ row (b - 1) ltac:(lia)) as Hi.
  replace (b - 1 + 1) with b in Hi by lia. lia.
Qed.

Lemma row_symbol sym : symbol_ok lp sym →
  0 <= symbol_lo cdf_row sym < symbol_hi cdf_row lp sym ∧ symbol_hi cdf_row lp sym <= CDF_TOP ∧
  (sym < lp - 2 → symbol_hi cdf_row lp sym = cdf_row (sym + 1) ∧ symbol_hi cdf_row lp sym < CDF_TOP).
Proof.
  intros Hs. unfold symbol_ok, symbol_lo, symbol_hi, CDF_TOP in *.
  pose proof (row_mono 0 sym ltac:(lia) ltac:(lia) ltac:(lia)). rewrite (row_zero _ _ row) in *.
  pose proof (row_top _ _ row) as Ht. unfold CDF_TOP in Ht.
  destruct (Z.eqb_spec sym (lp - 2)) as [->|]; [lia|].
  pose proof (row_incr _ _ row sym ltac:(lia)).
  pose proof (row_mono (sym + 1) (lp - 2) ltac:(lia) ltac:(lia) ltac:(lia)). lia.
Qed.

(** The part of a symbol lies in the range, and is never empty. *)
Lemma sub_part range sym : symbol_ok lp sym → QUARTER < range < 2 ^ 32 →
  0 <= sub_base cdf_row range sym ∧ 2 ^ 14 <= sub_size cdf_row lp range sym ∧
  sub_base cdf_row range sym + sub_size cdf_row lp range sym <= range ∧
  sub_base cdf_row range sym = range * symbol_lo cdf_row sym / 65536 ∧
  sub_size cdf_row lp range sym =
    range * (symbol_hi cdf_row lp sym - symbol_lo cdf_row sym) / 65536.
Proof.
  intros Hs Hr. destruct (row_symbol sym Hs) as (Hlo & Hhi & _). unfold CDF_TOP, QUARTER in *.
  unfold sub_base, sub_size. rewrite !Z.shiftr_div_pow2 by lia. change (2 ^ 16) with 65536.
  rewrite u32_id by lia.
  set (a := symbol_lo cdf_row sym) in *. set (b := symbol_hi cdf_row lp sym) in *.
  pose proof (Z.div_mod (range * a) 65536 ltac:(lia)).
  pose proof (Z.mod_pos_bound (range * a) 65536 ltac:(lia)).
  pose proof (Z.div_mod (range * (b - a)) 65536 ltac:(lia)).
  pose proof (Z.mod_pos_bound (range * (b - a)) 65536 ltac:(lia)).
  assert (range * 1 <= range * (b - a)) by (apply Z.mul_le_mono_nonneg_l; lia).
  assert (range * b <= range * 65536) by (apply Z.mul_le_mono_nonneg_l; lia).
  assert (0 <= range * a) by lia.
  assert (range * (b - a) = range * b - range * a) by ring.
  repeat split; lia.
Qed.

(** [binsearch_symbol] returns the symbol a count belongs to. *)
Lemma binsearch_finds sym count fuel lo hi : symbol_ok lp sym →
  symbol_lo cdf_row sym <= count < symbol_hi cdf_row lp sym →
  0 <= lo → hi <= lp - 2 → sym <= hi → lo <= sym ∨ (lo = lp - 1 ∧ sym = lp - 2) →
  hi - lo + 1 <= Z.of_nat fuel → binsearch fuel cdf_row lp count lo hi = Ok sym.
Proof.
  intros Hs Hc. destruct (row_symbol sym Hs) as (Hlo & Hhi & Hbelow). unfold symbol_ok, CDF_TOP in *.
  revert lo hi. induction fuel as [|fuel IH]; intros lo hi H0 Hh Hsh Hl Hf; cbn [binsearch].
  { destruct (Z.ltb_spec hi lo); [|lia].
    destruct (Z.leb_spec lo 0); [f_equal; lia|]. destruct (Z.ltb_spec (lp - 2) lo); f_equal; lia. }
  destruct (Z.ltb_spec hi lo).
  { destruct (Z.leb_spec lo 0); [f_equal; lia|]. destruct (Z.ltb_spec (lp - 2) lo); f_equal; lia. }
  rewrite Z.shiftr_div_pow2 by lia. change (2 ^ 1) with 2.
  assert (lo <= (lo + hi) / 2 <= hi) as Hm
    by (split; [apply Z.div_le_lower_bound|apply Z.div_le_upper_bound]; lia).
  set (mid := (lo + hi) / 2) in *.
  destruct (row_symbol mid ltac:(unfold symbol_ok; lia)) as (Hmlo & Hmhi & Hmb). unfold symbol_lo, CDF_TOP in *.
  destruct (Z.ltb_spec count (cdf_row mid)) as [Hcm|Hcm].
  { apply IH; try lia. assert (¬ mid <= sym); [|lia]. intros Hle.
    pose proof (row_mono mid sym ltac:(lia) ltac:(lia) ltac:(lia)). lia. }
  destruct (Z.eqb_spec mid (lp - 2)) as [He|Hne].
  - change (u16 65536) with 0. destruct (Z.leb_spec 0 count); [|lia].
    apply IH; try lia. right. split; [lia|]. destruct (decide (sym = lp - 2)); [done|].
    destruct (Hbelow ltac:(lia)) as [Heq _].
    pose proof (row_mono (sym + 1) mid ltac:(lia) ltac:(lia) ltac:(lia)). lia.
  - destruct (Hmb ltac:(lia)) as [Heq Hlt]. rewrite Heq in *. rewrite u16_id by lia.
    destruct (Z.leb_spec (cdf_row (mid + 1)) count).
    + apply IH; try lia. left. destruct Hl as [Hl|]; [|lia].
      assert (¬ sym <= mid); [|lia]. intros Hle.
      destruct (decide (sym = lp - 2)); [lia|]. destruct (Hbelow ltac:(lia)) as [Heq2 _].
      pose proof (row_mono (sym + 1) (mid + 1) ltac:(lia) ltac:(lia) ltac:(lia)). lia.
    + f_equal. destruct (Z.lt_trichotomy mid sym) as [Hlt'|[->|Hgt]]; [|done|].
      * pose proof (row_mono (mid + 1) sym ltac:(lia) ltac:(lia) ltac:(lia)). lia.
      * destruct (Hbelow ltac:(lia)) as [Heq2 _].
        pose proof (row_mono (sym + 1) mid ltac:(lia) ltac:(lia) ltac:(lia)). lia.
Qed.

(** The decoder finds the symbol whose part holds the value. *)
Lemma find_symbol_finds sym d : symbol_ok lp sym → QUARTER < d.(d_range) < 2 ^ 32 →
  sub_base cdf_row d.(d_range) sym <= d.(d_value) - d.(d_low) <
    sub_base cdf_row d.(d_range) sym + sub_size cdf_row lp d.(d_range) sym →
  find_symbol cdf_row lp d = Ok sym.
Proof.
  intros Hs Hr Hx. destruct (row_symbol sym Hs) as (Hlo & Hhi & _).
  destruct (sub_part d.(d_range) sym Hs Hr) as (Hb0 & Hsz & Hfit & Hb & Hz).
  unfold CDF_TOP, QUARTER in *. unfold find_symbol.
  set (range := d.(d_range)) in *. set (x := d.(d_value) - d.(d_low)) in *.
  set (a := symbol_lo cdf_row sym) in *. set (b := symbol_hi cdf_row lp sym) in *.
  rewrite Hb, Hz in *. clear Hb Hz.
  destruct (Z.eqb_spec range 0); [lia|]. rewrite u64_id by lia.
  assert (a <= ((x + 1) * 65536 - 1) / range < b) as Hc.
  { pose proof (Z.div_mod (range * a) 65536 ltac:(lia)).
    pose proof (Z.mod_pos_bound (range * a) 65536 ltac:(lia)).
    pose proof (Z.div_mod (range * (b - a)) 65536 ltac:(lia)).
    pose proof (Z.mod_pos_bound (range * (b - a)) 65536 ltac:(lia)).
    assert (range * b = range * a + range * (b - a)) by ring.
    split; [apply Z.div_le_lower_bound; lia|apply Z.div_lt_upper_bound; lia]. }
  rewrite u16_id by lia. unfold binsearch_symbol. pose proof (row_lp _ _ row).
  unfold symbol_ok in *. apply binsearch_finds; try done; lia.
Qed.
End rows.

(** ** The interval *)

Record icoder_ok (s : icoder) : Prop := IcOk {
  ic_low : 0 <= s.(i_low);
  ic_range : 0 < s.(i_range) < 2 ^ 32;
  ic_top : s.(i_low) + s.(i_range) <= 2 ^ 32;
  ic_pending : 0 <= s.(i_pending);
  ic_n : 0 <= s.(i_n) }.

Lemma icoder_start_ok : icoder_ok icoder_start.
Proof. split; cbn; unfold FULL; lia. Qed.

Lemma shift_sub_cases low :
  low < QUARTER ∧ shift_sub low = 0 ∨ HALF <= low ∧ shift_sub low = HALF ∨
  QUARTER <= low < HALF ∧ shift_sub low = QUARTER.
Proof.
  unfold shift_sub, QUARTER, HALF. destruct (Z.ltb_spec low (2 ^ 30)); [lia|].
  destruct (Z.leb_spec (2 ^ 31) low); lia.
Qed.

Lemma ishift_ok s : icoder_ok s → s.(i_range) <= QUARTER → icoder_ok (ishift s).
Proof.
  intros [H1 H2 H3 H4 H5] Hr. unfold ishift.
  pose proof (shift_sub_cases s.(i_low)) as Hc. unfold QUARTER, HALF in *.
  split; cbn; [lia|lia|lia| |lia]. destruct (Z.eqb_spec (shift_sub s.(i_low)) (2 ^ 30)); lia.
Qed.

(** The doublings of a symbol end: what they preserve. *)
Lemma irenorm_ind (P : icoder → Prop) fuel s s' :
  icoder_ok s → P s →
  (∀ t, icoder_ok t → t.(i_range) <= QUARTER → t.(i_pending) <= SAFE_RUN → P t → P (ishift t)) →
  irenorm fuel s = Some s' → P s' ∧ icoder_ok s' ∧ QUARTER < s'.(i_range).
Proof.
  intros Hok HP Hstep. revert s Hok HP. induction fuel as [|fuel IH]; intros s Hok HP; cbn [irenorm].
  all: destruct (Z.ltb_spec QUARTER s.(i_range)); [intros [= <-]; done|try done].
  destruct (Z.ltb_spec SAFE_RUN s.(i_pending)); [done|]. apply IH; [by apply ishift_ok|by apply Hstep].
Qed.

Section coder.
Context (cdf_row : Z → Z) (lp : Z).
Hypothesis row : row_ok cdf_row lp.

Lemma inarrow_ok s sym : symbol_ok lp sym → icoder_ok s → QUARTER < s.(i_range) →
  icoder_ok (inarrow cdf_row lp s sym).
Proof.
  intros Hs [H1 H2 H3 H4 H5] Hr.
  destruct (sub_part _ _ row s.(i_range) sym Hs ltac:(lia)) as (Ha & Hb & Hc & _).
  split; cbn; lia.
Qed.

(** ** Inside the interval *)

(** The code of the bytes lies in the interval. *)
Definition inside (bs : list Z) (len : Z) (s : icoder) : Prop :=
  s.(i_acc) + s.(i_low) <= leading bs len (32 + s.(i_n)) < s.(i_acc) + s.(i_low) + s.(i_range).

Lemma inside_ishift bs len s : 0 <= len → 0 <= s.(i_n) →
  inside bs len (ishift s) → inside bs len s.
Proof.
  intros Hl Hn. unfold inside, ishift. cbn.
  pose proof (leading_half bs len (32 + s.(i_n)) Hl ltac:(lia)) as Hh.
  replace (32 + s.(i_n) + 1) with (32 + (s.(i_n) + 1)) in Hh by lia. rewrite <- Hh.
  set (v := leading _ _ _). pose proof (Z.div_mod v 2 ltac:(lia)).
  pose proof (Z.mod_pos_bound v 2 ltac:(lia)). lia.
Qed.

Lemma inside_irenorm bs len fuel s s' : 0 <= len → icoder_ok s → irenorm fuel s = Some s' →
  inside bs len s' → inside bs len s.
Proof.
  intros Hl Hok He Hi. apply (irenorm_ind (λ t, inside bs len t → inside bs len s) fuel s s'); auto.
  intros t [] _ _ IH Ht. apply IH. by apply inside_ishift.
Qed.

Lemma inside_inarrow bs len s sym : symbol_ok lp sym → icoder_ok s → QUARTER < s.(i_range) →
  inside bs len (inarrow cdf_row lp s sym) → inside bs len s.
Proof.
  intros Hs [] Hr. unfold inside. cbn.
  destruct (sub_part _ _ row s.(i_range) sym Hs ltac:(lia)) as (Ha & Hb & Hc & _). lia.
Qed.

(** One symbol: it is encoded in an interval that holds more than a quarter,
    and leaves one. *)
Lemma isymbol_step s sym syms s' : symbol_ok lp sym → icoder_ok s → QUARTER < s.(i_range) →
  isymbols cdf_row lp s (sym :: syms) = Some s' →
  ∃ s1, irenorm renorm_fuel (inarrow cdf_row lp s sym) = Some s1 ∧
    isymbols cdf_row lp s1 syms = Some s' ∧ icoder_ok (inarrow cdf_row lp s sym) ∧
    icoder_ok s1 ∧ QUARTER < s1.(i_range).
Proof.
  intros Hs Hok Hr. cbn [isymbols]. intros (s1 & H1 & H2)%bind_Some. exists s1.
  pose proof (inarrow_ok s sym Hs Hok Hr) as Hok1.
  destruct (irenorm_ind (λ _, True) _ _ _ Hok1 I ltac:(done) H1) as (_ & ? & ?). done.
Qed.

Lemma inside_isymbols bs len syms s s' : 0 <= len → Forall (symbol_ok lp) syms →
  icoder_ok s → QUARTER < s.(i_range) → isymbols cdf_row lp s syms = Some s' → inside bs len s' → inside bs len s.
Proof.
  intros Hl. revert s. induction syms as [|sym syms IH]; intros s Hf Hok Hr He Hi; [by injection He as ->|].
  apply Forall_cons in Hf as [Hs Hf].
  destruct (isymbol_step _ _ _ _ Hs Hok Hr He) as (s1 & H1 & H2 & Hok0 & Hok1 & Hr1).
  apply (inside_inarrow _ _ _ sym); [done..|]. apply (inside_irenorm _ _ _ _ _ Hl Hok0 H1). by apply IH.
Qed.

(** ** The encoder writes the interval *)

(** The packer holds the bits of the interval that are decided. *)
Record encodes (e : encoder) (s : icoder) : Prop := Encodes {
  en_low : e.(e_low) = s.(i_low);
  en_range : e.(e_range) = s.(i_range);
  en_pending : e.(e_pending) = s.(i_pending);
  en_bits : ∃ X, packs e.(e_pack) (s.(i_n) - s.(i_pending)) X ∧
    s.(i_acc) + HALF = HALF * (2 * 2 ^ s.(i_pending) * X + 2 ^ s.(i_pending)) }.

Lemma encoder_start_encodes : encodes encoder_start icoder_start.
Proof. split; try done. exists 0. split; [apply packs_start|done]. Qed.

Lemma renorm_round_encodes e s : icoder_ok s → s.(i_range) <= QUARTER → s.(i_pending) <= SAFE_RUN →
  encodes e s → ∃ e', renorm_round e = Ok e' ∧ encodes e' (ishift s).
Proof.
  intros [H1 H2 H3 H4 H5] Hr Hp [Hel Her Hep (X & HX & Hacc)]. unfold renorm_round, ishift.
  rewrite Hel, Her, Hep. set (p := s.(i_pending)) in *.
  assert (0 < 2 ^ p) as H2p by (apply Z.pow_pos_nonneg; lia).
  assert (u32 (Z.shiftl s.(i_range) 1) = 2 * s.(i_range)) as ->.
  { rewrite Z.shiftl_mul_pow2 by lia. unfold QUARTER in Hr. rewrite u32_id; lia. }
  assert (∀ sub, 0 <= s.(i_low) - sub < 2 ^ 31 →
    u32 (Z.shiftl (s.(i_low) - sub) 1) = 2 * (s.(i_low) - sub)) as Hlow.
  { intros sub Hs. rewrite Z.shiftl_mul_pow2 by lia. rewrite u32_id; lia. }
  destruct (shift_sub_cases s.(i_low)) as [[Hc ->]|[[Hc ->]|[Hc ->]]]; unfold HALF, QUARTER in *.
  - destruct (Z.ltb_spec s.(i_low) (2 ^ 30)); [|lia]. change (0 =? 2 ^ 30) with false.
    destruct (append_bit_packs false p _ _ _ HX ltac:(lia)) as (p1 & -> & Hp1). cbn [obind].
    eexists. split; [done|]. specialize (Hlow 0 ltac:(lia)). rewrite Z.sub_0_r in *.
    split; cbn; [done..|]. eexists. split; [|].
    + replace (s.(i_n) + 1 - 0) with (s.(i_n) - p + 1 + p) by lia. exact Hp1.
    + cbn [i_acc i_pending]. unfold HALF. cbn [negb Z.b2z run_val]. change (2 ^ 0) with 1. lia.
  - destruct (Z.ltb_spec s.(i_low) (2 ^ 30)); [lia|]. destruct (Z.leb_spec (2 ^ 31) s.(i_low)); [|lia].
    change (2 ^ 31 =? 2 ^ 30) with false.
    destruct (append_bit_packs true p _ _ _ HX ltac:(lia)) as (p1 & -> & Hp1). cbn [obind].
    eexists. split; [done|]. specialize (Hlow (2 ^ 31) ltac:(lia)).
    split; cbn; [done..|]. eexists. split; [|].
    + replace (s.(i_n) + 1 - 0) with (s.(i_n) - p + 1 + p) by lia. exact Hp1.
    + cbn [i_acc i_pending]. unfold HALF. cbn [negb Z.b2z run_val]. change (2 ^ 0) with 1. lia.
  - destruct (Z.ltb_spec s.(i_low) (2 ^ 30)); [lia|]. destruct (Z.leb_spec (2 ^ 31) s.(i_low)); [lia|].
    change (2 ^ 30 =? 2 ^ 30) with true. cbn [obind].
    eexists. split; [done|]. specialize (Hlow (2 ^ 30) ltac:(lia)).
    split; cbn; [done..|]. exists X. split; [|].
    + by replace (s.(i_n) + 1 - (p + 1)) with (s.(i_n) - p) by lia.
    + cbn [i_acc i_pending]. unfold HALF. rewrite Z.pow_add_r by lia. lia.
Qed.

Lemma renorm_encodes fuel e s s' : icoder_ok s → encodes e s → irenorm fuel s = Some s' →
  ∃ e', renorm fuel e = Ok e' ∧ encodes e' s'.
Proof.
  revert e s. induction fuel as [|fuel IH]; intros e s Hok He; cbn [irenorm renorm].
  all: rewrite (en_range _ _ He).
  all: destruct (Z.ltb_spec QUARTER s.(i_range)) as [|Hr]; [intros [= <-]; by exists e|try done].
  destruct (Z.ltb_spec SAFE_RUN s.(i_pending)) as [|Hp]; [done|]. intros Hs.
  destruct (renorm_round_encodes e s Hok Hr Hp He) as (e1 & -> & He1). cbn [obind].
  apply (IH _ (ishift s)); [by apply ishift_ok|done|done].
Qed.

Lemma encode_symbol_encodes e s sym s1 : symbol_ok lp sym → icoder_ok s → QUARTER < s.(i_range) →
  encodes e s → irenorm renorm_fuel (inarrow cdf_row lp s sym) = Some s1 →
  ∃ e1, encode_symbol cdf_row lp e sym = Ok e1 ∧ encodes e1 s1.
Proof.
  intros Hs Hok Hr [Hel Her Hep Hbits] Hn. pose proof (inarrow_ok s sym Hs Hok Hr) as Hok1.
  pose proof (row_lp _ _ row). unfold encode_symbol. rewrite Hel, Her, Hep.
  unfold symbol_ok in Hs. rewrite u8_id by lia. destruct (Z.ltb_spec (lp - 2) sym); [lia|].
  pose proof (ic_low _ Hok1). pose proof (ic_range _ Hok1). pose proof (ic_top _ Hok1).
  pose proof (ic_low _ Hok). cbn [inarrow i_low i_range] in *.
  apply (renorm_encodes _ _ _ _ Hok1); [|exact Hn].
  rewrite !u32_id by lia. by split.
Qed.

Lemma encode_symbols_encodes e s syms s' : Forall (symbol_ok lp) syms → icoder_ok s →
  QUARTER < s.(i_range) → encodes e s → isymbols cdf_row lp s syms = Some s' →
  ∃ e', encode_symbols cdf_row lp e syms = Ok e' ∧ encodes e' s'.
Proof.
  revert e s. induction syms as [|sym syms IH]; intros e s Hf Hok Hr He Hi.
  { injection Hi as <-. by exists e. }
  apply Forall_cons in Hf as [Hs Hf].
  destruct (isymbol_step _ _ _ _ Hs Hok Hr Hi) as (s1 & H1 & H2 & _ & Hok1 & Hr1).
  destruct (encode_symbol_encodes e s sym s1 Hs Hok Hr He H1) as (e1 & Hs1 & He1).
  cbn [encode_symbols]. rewrite Hs1. by apply (IH e1 s1).
Qed.

(** What the bytes of a channel say: the quarter or the half of the last
    interval's frame. *)
Lemma encode_finish_leading e s : icoder_ok s → encodes e s → s.(i_pending) + 1 <= SAFE_RUN →
  ∃ out, encode_finish e = Ok out ∧ Forall is_byte out ∧
    8 * Z.of_nat (length out) < s.(i_n) + 10 ∧
    leading out (Z.of_nat (length out)) (32 + s.(i_n)) =
      s.(i_acc) + (if s.(i_low) <? QUARTER then QUARTER else HALF).
Proof.
  intros [H1 H2 H3 H4 H5] [Hel Her Hep (X & HX & Hacc)] Hp. unfold encode_finish. rewrite Hel, Hep.
  set (b := negb _). set (p := s.(i_pending)) in *.
  destruct (append_bit_packs b (p + 1) _ _ _ HX ltac:(lia)) as (p1 & -> & Hp1). cbn [obind].
  eexists. split; [done|]. destruct (finish_packs _ _ _ Hp1) as (Hb & Hn & Hv).
  set (out := pk_out _) in *. set (L := Z.of_nat (length out)) in *.
  split; [done|split; [lia|]]. unfold leading, L. rewrite Nat2Z.id, take_ge, Hv by done. fold L.
  replace (s.(i_n) - p + 1 + (p + 1)) with (s.(i_n) + 2) in * by lia.
  set (V := _ + run_val _ _) in *.
  rewrite <- Z.mul_assoc, <- Z.pow_add_r by lia.
  replace (8 * L - (s.(i_n) + 2) + (32 + s.(i_n))) with (30 + 8 * L) by lia.
  rewrite Z.pow_add_r, Z.mul_assoc, Z.div_mul by lia.
  assert (0 < 2 ^ p) by (apply Z.pow_pos_nonneg; lia).
  unfold V, b, run_val, QUARTER, HALF in *. rewrite !(Z.pow_add_r 2 p) by lia.
  destruct (Z.ltb_spec s.(i_low) (2 ^ 30)); cbn [negb Z.b2z]; lia.
Qed.

(** ** How much is written *)

(** At most 17 doublings for a symbol. *)
Lemma irenorm_count s sym s1 : symbol_ok lp sym → icoder_ok s → QUARTER < s.(i_range) →
  irenorm renorm_fuel (inarrow cdf_row lp s sym) = Some s1 → s1.(i_n) <= s.(i_n) + 17.
Proof.
  intros Hs Hok Hr He. pose proof (inarrow_ok s sym Hs Hok Hr) as Hok1.
  pose proof (ic_range _ Hok). destruct (sub_part _ _ row s.(i_range) sym Hs ltac:(lia)) as (_ & Hz & _).
  set (z := sub_size _ _ _ _) in *.
  set (P t := s.(i_n) <= t.(i_n) <= s.(i_n) + 17 ∧ t.(i_range) = z * 2 ^ (t.(i_n) - s.(i_n))).
  assert (P s1 ∧ icoder_ok s1 ∧ QUARTER < s1.(i_range)) as [[Hn _] _]; [|lia].
  apply (irenorm_ind P renorm_fuel _ _ Hok1); [| |exact He]; unfold P; cbn [inarrow ishift i_n i_range].
  - rewrite Z.sub_diag. fold z. lia.
  - intros t _ Ht _ [Hn Hv].
    replace (t.(i_n) + 1 - s.(i_n)) with (t.(i_n) - s.(i_n) + 1) by lia.
    rewrite Z.pow_add_r by lia. split; [|lia]. split; [lia|].
    destruct (decide (t.(i_n) - s.(i_n) <= 16)); [lia|exfalso].
    replace (t.(i_n) - s.(i_n)) with 17 in Hv by lia. unfold QUARTER in Ht. lia.
Qed.

Lemma isymbols_count s syms s' : Forall (symbol_ok lp) syms → icoder_ok s → QUARTER < s.(i_range) →
  isymbols cdf_row lp s syms = Some s' →
  s'.(i_n) <= s.(i_n) + 17 * Z.of_nat (length syms) ∧ icoder_ok s' ∧ QUARTER < s'.(i_range).
Proof.
  revert s. induction syms as [|sym syms IH]; intros s Hf Hok Hr He.
  { injection He as <-. cbn. split; [lia|done]. }
  apply Forall_cons in Hf as [Hs Hf].
  destruct (isymbol_step _ _ _ _ Hs Hok Hr He) as (s1 & H1 & H2 & _ & Hok1 & Hr1).
  pose proof (irenorm_count s sym s1 Hs Hok Hr H1).
  destruct (IH s1 Hf Hok1 Hr1 H2) as [Hn Hrest]. split; [cbn [length]; lia|done].
Qed.
End coder.

(** ** The decoder follows the interval *)

Lemma lor_shift a b k : 0 <= k → 0 <= b < 2 ^ k → Z.lor (a * 2 ^ k) b = a * 2 ^ k + b.
Proof.
  intros Hk Hb. assert (Z.land (a * 2 ^ k) b = 0) as Hd.
  { rewrite <- (Z.mod_small b (2 ^ k)), <- Z.land_ones, Z.land_comm, <- Z.land_assoc by lia.
    rewrite (Z.land_comm (Z.ones k)), Z.land_ones, Z.mod_mul by lia. apply Z.land_0_r. }
  by rewrite <- Z.lxor_lor, <- Z.add_nocarry_lxor.
Qed.

Section follow.
Context (cdf_row : Z → Z) (lp : Z).
Hypothesis row : row_ok cdf_row lp.
Context (bs : list Z) (len : Z).
Hypothesis len_ok : 0 <= len <= Z.of_nat (length bs).
Hypothesis bytes_ok : Forall is_byte (take (Z.to_nat len) bs).

Definition reader_at (i : Z) : BitReader := BR (i / 8) (get_byte bs len (i / 8)) (i mod 8 + 1).

Lemma next_bit_at i : 0 <= i →
  next_bit bs len (reader_at i) = (leading bs len (i + 1) mod 2, reader_at (i + 1)).
Proof.
  intros Hi. rewrite leading_bit by done. unfold next_bit, reader_at. cbn [br_pos br_byte br_bit_idx].
  replace (8 - (i mod 8 + 1)) with (7 - i mod 8) by lia.
  pose proof (Z.div_mod i 8 ltac:(lia)). pose proof (Z.mod_pos_bound i 8 ltac:(lia)).
  destruct (Z.eqb_spec (i mod 8 + 1 + 1) 9).
  - replace (i + 1) with ((i / 8 + 1) * 8) by lia. rewrite Z.div_mul, Z.mod_mul by lia. done.
  - rewrite <- (Z.div_unique (i + 1) 8 (i / 8) (i mod 8 + 1)), <- (Z.mod_unique (i + 1) 8 (i / 8) (i mod 8 + 1))
      by lia. done.
Qed.

Record decodes (d : decoder) (s : icoder) : Prop := Decodes {
  de_low : d.(d_low) = s.(i_low);
  de_range : d.(d_range) = s.(i_range);
  de_value : d.(d_value) = leading bs len (32 + s.(i_n)) - s.(i_acc);
  de_br : d.(d_br) = reader_at (32 + s.(i_n)) }.

Lemma leading_succ i : 0 <= i → leading bs len (i + 1) = 2 * leading bs len i + leading bs len (i + 1) mod 2.
Proof.
  intros Hi. pose proof (leading_half bs len i ltac:(lia) Hi) as <-.
  apply (Z.div_mod (leading bs len (i + 1)) 2). lia.
Qed.

Lemma renorm_dec_round_decodes d s : icoder_ok s → s.(i_range) <= QUARTER → inside bs len s →
  decodes d s → decodes (renorm_dec_round bs len d) (ishift s).
Proof.
  intros [H1 H2 H3 H4 H5] Hr Hin [Hl Hrg Hv Hb]. unfold inside in Hin. unfold renorm_dec_round.
  rewrite Hb, next_bit_at by lia. rewrite Hl, Hrg, Hv.
  assert ((if HALF <=? s.(i_low) then HALF else if QUARTER <=? s.(i_low) then QUARTER else 0)
    = shift_sub s.(i_low)) as ->.
  { unfold shift_sub, HALF, QUARTER. destruct (Z.leb_spec (2 ^ 31) s.(i_low)), (Z.leb_spec (2 ^ 30) s.(i_low)),
      (Z.ltb_spec s.(i_low) (2 ^ 30)); lia. }
  pose proof (leading_succ (32 + s.(i_n)) ltac:(lia)) as Hsucc.
  set (v := leading bs len (32 + s.(i_n))) in *. set (b := leading bs len _ mod 2) in *.
  assert (0 <= b < 2) as Hb2 by (apply Z.mod_pos_bound; lia).
  assert (0 <= v - s.(i_acc) - shift_sub s.(i_low) < 2 ^ 31 ∧ 0 <= s.(i_low) - shift_sub s.(i_low) < 2 ^ 31)
    as [Hvb Hlb].
  { destruct (shift_sub_cases s.(i_low)) as [[Hc ->]|[[Hc ->]|[Hc ->]]]; unfold HALF, QUARTER in *; lia. }
  unfold QUARTER in Hr.
  rewrite !Z.shiftl_mul_pow2 by lia. rewrite (u32_id (v - _ - _)) by lia. rewrite !u32_id by lia.
  rewrite lor_shift by lia.
  split; cbn [ishift d_low d_range d_value d_br i_low i_range i_acc i_n]; [lia|lia| |].
  - replace (32 + (s.(i_n) + 1)) with (32 + s.(i_n) + 1) by lia. rewrite Hsucc. lia.
  - by replace (32 + (s.(i_n) + 1)) with (32 + s.(i_n) + 1) by lia.
Qed.

Lemma renorm_dec_decodes fuel d s s' : icoder_ok s → decodes d s → irenorm fuel s = Some s' →
  inside bs len s' → ∃ d', renorm_dec fuel bs len d = Ok d' ∧ decodes d' s'.
Proof.
  intros Hok Hd He Hin. revert d s Hok Hd He. induction fuel as [|fuel IH]; intros d s Hok Hd He.
  all: pose proof (inside_irenorm _ _ _ _ _ (proj1 len_ok) Hok He Hin) as Hin0.
  all: cbn [irenorm] in He; cbn [renorm_dec]; rewrite (de_range _ _ Hd).
  all: destruct (Z.ltb_spec QUARTER s.(i_range)) as [|Hr]; [injection He as <-; by exists d|try done].
  destruct (SAFE_RUN <? s.(i_pending)); [done|].
  apply (IH _ (ishift s)); [by apply ishift_ok|by apply renorm_dec_round_decodes|done].
Qed.

Lemma decode_update_decodes d s sym s1 : symbol_ok lp sym → icoder_ok s → QUARTER < s.(i_range) →
  decodes d s → irenorm renorm_fuel (inarrow cdf_row lp s sym) = Some s1 → inside bs len s1 →
  ∃ d1, decode_update cdf_row lp bs len d sym = Ok d1 ∧ decodes d1 s1.
Proof.
  intros Hs Hok Hr [Hl Hrg Hv Hb] Hn Hin. pose proof (inarrow_ok _ _ row s sym Hs Hok Hr) as Hok1.
  pose proof (ic_low _ Hok1). pose proof (ic_range _ Hok1). pose proof (ic_top _ Hok1).
  pose proof (ic_low _ Hok). pose proof (ic_range _ Hok).
  destruct (sub_part _ _ row s.(i_range) sym Hs ltac:(lia)) as (Hbase & _).
  cbn [inarrow i_low i_range] in *. unfold decode_update. rewrite Hl, Hrg.
  apply (renorm_dec_decodes _ _ _ _ Hok1); [|exact Hn|exact Hin].
  rewrite !u32_id by (try rewrite u32_id; lia). by split.
Qed.

(** What is decoded is what was encoded. *)
Lemma decode_symbols_ok d s syms s' : Forall (symbol_ok lp) syms → icoder_ok s →
  QUARTER < s.(i_range) → decodes d s → isymbols cdf_row lp s syms = Some s' → inside bs len s' →
  decode_symbols cdf_row lp bs len (length syms) d = Ok syms.
Proof.
  revert d s. induction syms as [|sym syms IH]; intros d s Hf Hok Hr Hd He Hin; [done|].
  apply Forall_cons in Hf as [Hs Hf].
  destruct (isymbol_step _ _ row _ _ _ _ Hs Hok Hr He) as (s1 & H1 & H2 & Hok0 & Hok1 & Hr1).
  pose proof (inside_isymbols _ _ row _ _ _ _ _ (proj1 len_ok) Hf Hok1 Hr1 H2 Hin) as Hin1.
  pose proof (inside_irenorm _ _ _ _ _ (proj1 len_ok) Hok0 H1 Hin1) as Hin0.
  pose proof (ic_range _ Hok). pose proof (row_lp _ _ row).
  assert (find_symbol cdf_row lp d = Ok sym) as Hfind.
  { apply find_symbol_finds; [done..| |]; rewrite (de_range _ _ Hd); [lia|].
    rewrite (de_value _ _ Hd), (de_low _ _ Hd). unfold inside in Hin0. cbn in Hin0. lia. }
  assert (i8 sym = sym) as Hi8 by (unfold i8, symbol_ok in *; rewrite Z.mod_small; lia).
  cbn [length decode_symbols]. rewrite Hfind. cbn [obind]. rewrite Hi8.
  destruct syms as [|sym' syms]; [done|].
  destruct (decode_update_decodes d s sym s1 Hs Hok Hr Hd H1 Hin1) as (d1 & -> & Hd1).
  pose proof (IH d1 s1 Hf Hok1 Hr1 Hd1 H2 Hin) as Hrest. cbn [obind length] in *. by rewrite Hrest.
Qed.
End follow.
