(* ===== verification/RangeCoderRound.v ===== *)
(** Round trips of the range coder: a channel, and the channels of a chunk. *)
From S2P Require Import Prelude KvTypes RangeCoder RangeCoderBits RangeCoderThms.

(** ** The first code value *)

Lemma leading_short bs len m : (Z.to_nat len <= length bs)%nat → 0 <= 8 * len <= m →
  leading bs len m = be_val (take (Z.to_nat len) bs) * 2 ^ (m - 8 * len).
Proof.
  intros Hl Hm. unfold leading. replace m with (m - 8 * len + 8 * len) at 1 by lia.
  by rewrite Z.pow_add_r, Z.mul_assoc, Z.div_mul by lia.
Qed.

(** The first four of the bytes. *)
Lemma leading_32 bs len : 4 <= len <= Z.of_nat (length bs) → Forall is_byte (take (Z.to_nat len) bs) →
  leading bs len 32 = be_val (take 4 bs).
Proof.
  intros Hl Hb. unfold leading.
  assert (take (Z.to_nat len) bs = take 4 bs ++ take (Z.to_nat len - 4) (drop 4 bs)) as Hs
    by (rewrite take_drop_commute, <- (take_drop 4 (take (Z.to_nat len) bs)), take_take at 1;
        do 3 f_equal; lia).
  rewrite Hs in *. apply Forall_app in Hb as [_ Hb]. apply be_val_bounds in Hb.
  set (l := take _ (drop 4 bs)) in *. rewrite be_val_app.
  assert (Z.of_nat (length l) = len - 4) as Hlen by (unfold l; rewrite length_take, length_drop; lia).
  rewrite Hlen, pow256 in * by lia. replace (8 * len) with (8 * (len - 4) + 32) by lia.
  rewrite Z.pow_add_r, Z.div_mul_cancel_r by lia.
  rewrite (Z.add_comm (_ * _)), Z.div_add, Z.div_small by lia. lia.
Qed.

Lemma lor_bytes b0 b1 b2 b3 : is_byte b0 → is_byte b1 → is_byte b2 → is_byte b3 →
  Z.lor (Z.lor (Z.lor (Z.shiftl b0 24) (Z.shiftl b1 16)) (Z.shiftl b2 8)) b3 =
  be_val [b0; b1; b2; b3].
Proof.
  unfold is_byte. intros H0 H1 H2 H3. rewrite !Z.shiftl_mul_pow2 by lia.
  rewrite (lor_shift b0 _ 24) by lia.
  replace (b0 * 2 ^ 24 + b1 * 2 ^ 16) with ((b0 * 256 + b1) * 2 ^ 16) by lia.
  rewrite (lor_shift _ _ 16) by lia.
  replace ((b0 * 256 + b1) * 2 ^ 16 + b2 * 2 ^ 8) with (((b0 * 256 + b1) * 256 + b2) * 2 ^ 8) by lia.
  rewrite lor_shift by lia. cbn [be_val length].
  change (256 ^ Z.of_nat 3) with 16777216. change (256 ^ Z.of_nat 2) with 65536.
  change (256 ^ Z.of_nat 1) with 256. change (256 ^ Z.of_nat 0) with 1. lia.
Qed.

Section channel.
Context (bs : list Z) (len : Z).
Hypothesis len_ok : 0 <= len <= Z.of_nat (length bs).
Hypothesis bytes_ok : Forall is_byte (take (Z.to_nat len) bs).

Lemma load_u32_be_leading :
  load_u32_be bs (if 4 <=? len then 4 else if 0 <? len then len else 0) = leading bs len 32.
Proof.
  unfold load_u32_be.
  assert (∀ i, 0 <= i → is_byte (if i <? len then byte_at bs i else 0)) as Hb.
  { intros i Hi. destruct (Z.ltb_spec i len); [|unfold is_byte; lia]. unfold byte_at.
    destruct (lookup_lt_is_Some_2 bs (Z.to_nat i) ltac:(lia)) as [b Hlk].
    rewrite (nth_lookup_Some _ _ _ _ Hlk). rewrite Forall_lookup in bytes_ok. apply (bytes_ok (Z.to_nat i)).
    by rewrite lookup_take_lt by lia. }
  assert (∀ i, 0 <= i < 4 → (i <? (if 4 <=? len then 4 else if 0 <? len then len else 0)) = (i <? len)) as Hi.
  { intros i Hi. destruct (Z.leb_spec 4 len), (Z.ltb_spec 0 len), (Z.ltb_spec i len); lia. }
  rewrite !Hi by lia. rewrite lor_bytes by (apply Hb; lia). clear Hb Hi.
  destruct (decide (4 <= len)) as [H4|H4].
  - rewrite leading_32 by (done || lia). destruct bs as [|b0 [|b1 [|b2 [|b3 bs']]]]; cbn [length] in *; try lia.
    destruct (Z.ltb_spec 0 len), (Z.ltb_spec 1 len), (Z.ltb_spec 2 len), (Z.ltb_spec 3 len); lia || done.
  - rewrite leading_short by lia.
    assert (len = 0 ∨ len = 1 ∨ len = 2 ∨ len = 3) as [->|[->|[->| ->]]] by lia.
    all: match goal with |- context [2 ^ ?k] => let v := eval compute in (2 ^ k) in change (2 ^ k) with v end.
    all: destruct bs as [|b0 [|b1 [|b2 bs']]]; cbn [length] in *; try lia; cbv -[Z.add Z.mul]; lia.
Qed.

Lemma decoder_start_decodes : decodes bs len (decoder_start bs len) icoder_start.
Proof. split; cbn [decoder_start icoder_start d_low d_range d_value d_br i_low i_range i_n i_acc]; try done.
  rewrite load_u32_be_leading, Z.sub_0_r. done. Qed.
End channel.

(** ** A channel *)

(** The bytes of a safe channel of sixteen symbols: at most 35, and they decode
    to the symbols whatever follows them. *)
Lemma channel_roundtrip cdf_row lp syms : row_ok cdf_row lp → Forall (symbol_ok lp) syms →
  channel_safe cdf_row lp syms = true → length syms = 16%nat →
  ∃ e out, encode_symbols cdf_row lp encoder_start syms = Ok e ∧ encode_finish e = Ok out ∧
    (length out <= 35)%nat ∧ ∀ rest,
    decode_symbols cdf_row lp (out ++ rest) (Z.of_nat (length out)) 16
      (decoder_start (out ++ rest) (Z.of_nat (length out))) = Ok syms.
Proof.
  intros Hrow Hf Hsafe H16. unfold channel_safe in Hsafe.
  destruct (isymbols cdf_row lp icoder_start syms) as [s|] eqn:Hs; [|done].
  apply andb_prop in Hsafe as [Hlow%Z.leb_le Hpend%Z.leb_le].
  assert (QUARTER < icoder_start.(i_range)) as Hr0 by done.
  destruct (encode_symbols_encodes _ _ Hrow _ _ _ _ Hf icoder_start_ok Hr0 encoder_start_encodes Hs)
    as (e & He & Hes).
  destruct (isymbols_count _ _ Hrow _ _ _ Hf icoder_start_ok Hr0 Hs) as (Hn & Hok & Hr).
  destruct (encode_finish_leading _ _ Hok Hes Hpend) as (out & Hout & Hbytes & Hlen & Hlead).
  exists e, out. split; [done|split; [done|]]. rewrite H16 in Hn. cbn [i_n icoder_start] in Hn.
  split; [lia|]. intros rest. set (len := Z.of_nat (length out)) in *.
  assert (take (Z.to_nat len) (out ++ rest) = out) as Htake by (unfold len; rewrite Nat2Z.id; apply take_app_length).
  assert (Forall is_byte (take (Z.to_nat len) (out ++ rest))) as Hb by (by rewrite Htake).
  assert (0 <= len <= Z.of_nat (length (out ++ rest))) as Hl by (rewrite length_app; lia).
  rewrite <- H16.
  apply (decode_symbols_ok _ _ Hrow _ _ Hl Hb _ icoder_start _ s); try done.
  - by apply decoder_start_decodes.
  - unfold inside.
    assert (leading (out ++ rest) len (32 + s.(i_n)) = leading out len (32 + s.(i_n))) as ->.
    { unfold leading. rewrite Htake. unfold len. by rewrite Nat2Z.id, take_ge. }
    rewrite Hlead. pose proof (ic_low _ Hok). unfold HALF, QUARTER in *.
    destruct (Z.ltb_spec s.(i_low) (2 ^ 30)); lia.
Qed.

(** ** A chunk *)

(** The channels of a chunk the coder is right on. *)
Record chunk_ok (cdf : Z → Z) (C lp : Z) (q : Z → Z) : Prop := ChunkOk {
  ch_rows : ∀ c, 0 <= c < C → row_ok (λ b, cdf (lp * c + b)) lp;
  ch_symbols : ∀ i, 0 <= i < 16 * C → symbol_ok lp (q i);
  ch_safe : ∀ c, 0 <= c < C →
    channel_safe (λ b, cdf (lp * c + b)) lp (channel_symbols q C MAX_TOKENS_PER_CHUNK c) = true }.

Section chunk.
Context (cdf : Z → Z) (C lp : Z) (q : Z → Z).
Hypothesis ok : chunk_ok cdf C lp q.

Lemma channel_symbols_ok c : 0 <= c < C →
  Forall (symbol_ok lp) (channel_symbols q C MAX_TOKENS_PER_CHUNK c).
Proof.
  intros Hc. unfold channel_symbols. apply Forall_fmap, Forall_forall. intros t Ht%elem_of_seqZ.
  unfold MAX_TOKENS_PER_CHUNK in Ht. apply (ch_symbols _ _ _ _ ok). nia.
Qed.

Lemma encode_channel_ok c : 0 <= c < C → ∃ out,
  encode_channel cdf C lp q MAX_TOKENS_PER_CHUNK c = Ok out ∧ (length out <= 35)%nat ∧ ∀ rest,
  decode_channel cdf lp (out ++ rest) (Z.of_nat (length out)) c =
    Ok (channel_symbols q C MAX_TOKENS_PER_CHUNK c).
Proof.
  intros Hc.
  destruct (channel_roundtrip _ _ _ (ch_rows _ _ _ _ ok c Hc) (channel_symbols_ok c Hc)
    (ch_safe _ _ _ _ ok c Hc) eq_refl) as (e & out & He & Hout & Hlen & Hdec).
  exists out. unfold encode_channel, decode_channel. rewrite He. cbn [obind]. done.
Qed.

Lemma encode_channels_ok k c : 0 <= c → c + Z.of_nat k <= C → ∃ bytes lengths,
  encode_channels cdf C lp q MAX_TOKENS_PER_CHUNK (seqZ c (Z.of_nat k)) = Ok (bytes, lengths) ∧
  length lengths = k ∧ (length bytes <= 35 * k)%nat ∧ foldr Z.add 0 lengths = Z.of_nat (length bytes) ∧
  Forall (λ l, 0 <= l <= 35) lengths ∧ ∀ rest,
  decode_channels cdf lp (bytes ++ rest) c lengths =
    Ok (channel_symbols q C MAX_TOKENS_PER_CHUNK <$> seqZ c (Z.of_nat k)).
Proof.
  revert c. induction k as [|k IH]; intros c Hc Hk.
  { exists [], []. by repeat split. }
  rewrite seqZ_cons, Z.pred_succ || replace (Z.of_nat (S k)) with (Z.succ (Z.of_nat k)) by lia.
  rewrite seqZ_cons by lia. rewrite Z.pred_succ. cbn [encode_channels fmap list_fmap].
  destruct (encode_channel_ok c ltac:(lia)) as (out & -> & Hlen & Hdec). cbn [obind].
  destruct (IH (Z.succ c) ltac:(lia) ltac:(lia)) as (bytes & lengths & -> & Hl & Hb & Hsum & Hall & Hrest).
  cbn [obind]. rewrite u8_id by lia. exists (out ++ bytes), (Z.of_nat (length out) :: lengths).
  split; [done|]. split; [cbn; lia|]. split; [rewrite length_app; lia|].
  split; [cbn [foldr]; rewrite Hsum, length_app; lia|].
  split; [constructor; [lia|done]|]. intros rest. cbn [decode_channels].
  rewrite <- app_assoc, Hdec. cbn [obind]. rewrite Nat2Z.id, drop_app_length.
  replace (c + 1) with (Z.succ c) by lia. by rewrite Hrest.
Qed.

Lemma tokens_first_channels i : 0 <= i < 16 * C →
  tokens_first C (channel_symbols q C MAX_TOKENS_PER_CHUNK <$> seqZ 0 C) i = q i.
Proof.
  intros Hi. unfold tokens_first.
  pose proof (Z.div_mod i C ltac:(lia)) as Hd. pose proof (Z.mod_pos_bound i C ltac:(lia)) as Hm.
  assert (0 <= i / C < 16) as Ht.
  { split; [apply Z.div_pos; lia|apply Z.div_lt_upper_bound; lia]. }
  rewrite (nth_lookup_Some _ _ _ (channel_symbols q C MAX_TOKENS_PER_CHUNK (i mod C))).
  - unfold channel_symbols. apply nth_lookup_Some. rewrite list_lookup_fmap.
    rewrite lookup_seqZ_lt by (unfold MAX_TOKENS_PER_CHUNK; lia). cbn [fmap option_fmap option_map].
    do 2 f_equal. lia.
  - rewrite list_lookup_fmap, lookup_seqZ_lt by lia. cbn [fmap option_fmap option_map]. do 2 f_equal. lia.
Qed.
End chunk.

Lemma coder_ok cdf C lp q : 0 < C → chunk_ok cdf C lp q →
  ∃ bytes lengths,
    encode_ntokens_cpu_new_range cdf C lp q MAX_TOKENS_PER_CHUNK = Ok (bytes, lengths) ∧
    Z.of_nat (length bytes) <= 35 * C ∧
    Forall (λ l, 0 <= l <= 35) lengths ∧ foldr Z.add 0 lengths = Z.of_nat (length bytes) ∧
    ∀ rest, ∃ out,
      decode_ntokens_cpu_new_range cdf C lp (bytes ++ rest) lengths = Ok out ∧
      ∀ i, 0 <= i < MAX_TOKENS_PER_CHUNK * C → out i = q i.
Proof.
  intros HC Hok. pose proof (row_lp _ _ (ch_rows _ _ _ _ Hok 0 ltac:(lia))) as Hlp.
  destruct (encode_channels_ok _ _ _ _ Hok (Z.to_nat C) 0 ltac:(lia) ltac:(lia))
    as (bytes & lengths & He & Hl & Hlen & Hsum & Hall & Hdec).
  rewrite Z2Nat.id in * by lia. exists bytes, lengths.
  unfold encode_ntokens_cpu_new_range, MAX_TOKENS_PER_CHUNK in *.
  destruct (Z.leb_spec C 0), (Z.leb_spec lp 2); try lia. cbn [orb].
  split; [exact He|split; [lia|split; [done|split; [done|]]]]. intros rest.
  unfold decode_ntokens_cpu_new_range.
  destruct (Z.eqb_spec (Z.of_nat (length lengths)) C); [|lia]. cbn [negb]. rewrite Hdec. cbn [obind].
  eexists. split; [done|]. intros i Hi. by apply tokens_first_channels.
Qed.

(** C25: what [encode_ntokens_cpu_new_range] writes for sixteen tokens of any
    number of channels - at most 35 bytes each, whose numbers fit the [uint8_t]
    of [lengths] and add up to the bytes written - [decode_ntokens_cpu_new_range]
    reads back, whatever follows it, for every table of increasing rows, as long
    as no channel has a pending run of more than 39 bits or ends in the upper half
    of its interval; and neither of the two shifts by 32, loops for ever or
    divides by zero. *)
Theorem range_coder_roundtrip cdf C lp q : 0 < C → chunk_ok cdf C lp q →
  ∃ bytes lengths,
    encode_ntokens_cpu_new_range cdf C lp q MAX_TOKENS_PER_CHUNK = Ok (bytes, lengths) ∧
    Forall (λ l, 0 <= l <= 35) lengths ∧ foldr Z.add 0 lengths = Z.of_nat (length bytes) ∧
    ∀ rest, ∃ out,
      decode_ntokens_cpu_new_range cdf C lp (bytes ++ rest) lengths = Ok out ∧
      ∀ i, 0 <= i < MAX_TOKENS_PER_CHUNK * C → out i = q i.
Proof.
  intros HC Hok. destruct (coder_ok cdf C lp q HC Hok) as (bytes & lengths & He & _ & Hl & Hs & Hd).
  by exists bytes, lengths.
Qed.
