(* ===== verification/Cachegen.v ===== *)
(** The CACHEGEN backend ([mzcache/kernels/cachegen_utils.cpp], [compress.cpp],
    [decompress.cpp]): quantisation, the frequency tables, dequantisation, and
    the two functions the KV state calls for a chunk.  The entropy coder is in
    [RangeCoder].

    Float expressions are evaluated operation by operation; the dequantisation is
    the one for a target with half-precision vector arithmetic. *)
From S2P Require Import Prelude Floats KvTypes RangeCoder.

(** ** Bins *)

Definition key_first_layers : Z := 1.
Definition key_second_layers : Z := 1.
Definition key_first_bins : Z := 32.
Definition key_second_bins : Z := 32.
Definition key_third_bins : Z := 32.
Definition value_first_layers : Z := 2.
Definition value_first_bins : Z := 32.
Definition value_second_bins : Z := 32.

Definition make_key_bins_cpp (n_layers : Z) : list Z :=
  (λ l, if l <? key_first_layers then key_first_bins
        else if l <? key_first_layers + key_second_layers then key_second_bins
        else key_third_bins) <$> seqZ 0 n_layers.

Definition make_value_bins_cpp (n_layers : Z) : list Z :=
  (λ l, if l <? value_first_layers then value_first_bins else value_second_bins) <$> seqZ 0 n_layers.

(** ** Quantisation *)

Record QuantResultRaw := QR { qr_q : Z → Z; qr_max1 : Z → float; qr_L : Z; qr_T : Z; qr_C : Z }.

(** [acc_max]: the largest magnitude of a token. *)
Definition acc_max (row : list float) : float :=
  fold_left (λ acc x, let av := SFabs (to_f32 x) in if SFltb acc av then av else acc) row f32_zero.

(** [std::round]. *)
Definition f32_round (x : float) : float :=
  match f_round_away x with Some n => f32_of_Z n | None => x end.

(** [clamp(round(x * factor + MAX), 0 .. 2 * MAX)]; casting a NaN is undefined. *)
Definition quant_code (MAXf factor x : float) : outcome Z :=
  let lo := f32_zero in
  let hi := f32_mul (f32_of_Z 2) MAXf in
  let qf := f32_round (f32_add (f32_mul (to_f32 x) factor) MAXf) in
  let qf := if SFltb qf lo then lo else qf in
  let qf := if SFltb hi qf then hi else qf in
  match f_to_int qf with Some n => Ok (i8 n) | None => Ub end.

(** One token: its largest magnitude, and its codes. *)
Definition quantize_row (bins : Z) (row : list float) : outcome (float * list Z) :=
  let MAXf := f32_of_Z (Z.quot bins 2 - 1) in
  let m := acc_max row in
  let factor := if SFltb f32_zero m then f32_div MAXf m else f32_zero in
  codes <~ otraverse (quant_code MAXf factor) row ;; Ok (m, codes).

(** The tokens of all layers; [load l t c] is the value read for a position. *)
Definition quantize_tokens (load : Z → Z → Z → float) (bins_L : list Z) (L T C : Z)
    : outcome QuantResultRaw :=
  if (L <=? 0) || (T <=? 0) || (C <=? 0) then Throw
  else
    rows <~ otraverse (λ lt, quantize_row (nth (Z.to_nat (lt / T)) bins_L 0)
                               (load (lt / T) (lt mod T) <$> seqZ 0 C)) (seqZ 0 (L * T)) ;;
    let row i := nth (Z.to_nat i) rows (f32_zero, []) in
    Ok (QR (λ i, nth (Z.to_nat (i mod C)) (row (i / C)).2 0) (λ i, (row i).1) L T C).

Definition quantize_from_bins_raw (bins_L : list Z) (L T C : Z) (x : Z → float) : outcome QuantResultRaw :=
  quantize_tokens (λ l t c, x (l * (C * T) + t * C + c)) bins_L L T C.

(** From the chunks of a layer: [raw_chunks[chunk].c[idx]]. *)
Definition load_from_chunks (C : Z) (chunks : Z → Z → float) (t c : Z) : float :=
  chunks (t / TOKENS_PER_CHUNK) (c + C * (t mod TOKENS_PER_CHUNK)).

Definition quantize_from_bins_raw_chunked (bins_L : list Z) (L T C : Z) (chunks : Z → Z → float)
    : outcome QuantResultRaw :=
  quantize_tokens (λ _ t c, load_from_chunks C chunks t c) bins_L L T C.

(** ** Frequency tables *)

Record CdfRaw := Cdf { cdf_data : Z → Z; cdf_C : Z; bins_p1 : Z }.

(** [hist[(int)value + 1]++] of a histogram of [max_bins + 1] entries. *)
Definition hist_count (max_bins : Z) (hist : Z → Z) (q : Z) : outcome (Z → Z) :=
  let value := u8 q in
  let value := if u8 max_bins <? value then u8 max_bins else value in
  if value + 1 <=? max_bins then Ok (<[value + 1 := u16 (hist (value + 1) + 1)]> hist) else Ub.

Fixpoint hist_of (max_bins : Z) (hist : Z → Z) (qs : list Z) : outcome (Z → Z) :=
  match qs with
  | [] => Ok hist
  | q :: qs => h <~ hist_count max_bins hist q ;; hist_of max_bins h qs
  end.

(** [hist[1 .. max_bins]] becomes its prefix sums; the state also holds [local_sum]. *)
Definition prefix_step (st : (Z → Z) * Z) (i : Z) : (Z → Z) * Z :=
  let '(hist, local_sum) := st in
  let v := hist (i + 1) in
  (<[i + 1 := u16 (v + local_sum)]> hist, u16 (local_sum + v)).
Definition prefix_sum (hist : Z → Z) (max_bins : Z) : (Z → Z) * Z :=
  fold_left prefix_step (seqZ 0 max_bins) (hist, 0).

(** The row of a channel, from its codes. *)
Definition cdf_row (max_bins : Z) (qs : list Z) : outcome (Z → Z) :=
  hist <~ hist_of max_bins (λ _, 0) qs ;;
  let '(hist, local_sum) := prefix_sum hist max_bins in
  let denom := Z.max 1 local_sum in
  Ok (λ b, u16 (u32 (u32 (u32 (65535 - max_bins) * hist b) / denom + b))).

Definition cdf_calculate_cpu (q : Z → Z) (L T C max_bins : Z) : outcome CdfRaw :=
  if (L <=? 0) || (T <=? 0) || (C <=? 0) then Throw
  else if max_bins <=? 0 then Throw
  else
    rows <~ otraverse (λ lc, cdf_row max_bins
              ((λ t, q (lc mod C + C * (t + T * (lc / C)))) <$> seqZ 0 T)) (seqZ 0 (L * C)) ;;
    Ok (Cdf (λ i, nth (Z.to_nat (i / (max_bins + 1))) rows (λ _, 0) (i mod (max_bins + 1)))
            C (max_bins + 1)).

(** ** Encoder *)

Record EncoderMeta := EM { cdf_key : CdfRaw; cdf_value : CdfRaw; max_key : list float;
                           max_value : list float; em_T : Z; em_C : Z }.

Definition encode_meta_function_new (k_chunks v_chunks : Z → Z → float) (total_tokens hidden_dim : Z)
    : outcome EncoderMeta :=
  let L := 1 in
  let T := total_tokens in
  let C := hidden_dim in
  let key_bins := make_key_bins_cpp L in
  let value_bins := make_value_bins_cpp L in
  qk <~ quantize_from_bins_raw_chunked key_bins L T C k_chunks ;;
  qv <~ quantize_from_bins_raw_chunked value_bins L T C v_chunks ;;
  cdf_key <~ cdf_calculate_cpu qk.(qr_q) L T C (nth 0 key_bins 0) ;;
  cdf_value <~ cdf_calculate_cpu qv.(qr_q) L T C (nth 0 value_bins 0) ;;
  Ok (EM cdf_key cdf_value (qk.(qr_max1) <$> seqZ 0 T) (qv.(qr_max1) <$> seqZ 0 T) T C).

(** What a chunk is encoded to: [output], [lengths_arr] and [byte_sums_arr]. *)
Record encoded := Encoded { en_output : list byte; lengths_arr : list (list Z); byte_sums_arr : list Z }.

(** The loop over the sub-chunks of [MAX_TOKENS_PER_CHUNK] tokens from [s] on. *)
Fixpoint encode_one_stream (cdf : CdfRaw) (C : Z) (q_base : Z → Z) (s : Z) (n : nat) : outcome encoded :=
  match n with
  | O => Ok (Encoded [] [] [])
  | S n =>
      '(bytes, lengths) <~ encode_ntokens_cpu_new_range cdf.(cdf_data) C cdf.(bins_p1)
                             (λ i, q_base (C * s + i)) MAX_TOKENS_PER_CHUNK ;;
      rest <~ encode_one_stream cdf C q_base (s + MAX_TOKENS_PER_CHUNK) n ;;
      Ok (Encoded (bytes ++ rest.(en_output)) (lengths :: rest.(lengths_arr))
                  (u16 (Z.of_nat (length bytes)) :: rest.(byte_sums_arr)))
  end.

Definition n_bs_per_raw : Z := TOKENS_PER_CHUNK / MAX_TOKENS_PER_CHUNK.

Definition encode_function_new (input : Z → float) (hidden_dim : Z) (is_key : bool) (cdf : CdfRaw)
    : outcome encoded :=
  let bins := if is_key then make_key_bins_cpp 1 else make_value_bins_cpp 1 in
  quantized_input <~ quantize_from_bins_raw bins 1 TOKENS_PER_CHUNK hidden_dim input ;;
  encode_one_stream cdf hidden_dim quantized_input.(qr_q) 0 (Z.to_nat n_bs_per_raw).

(** ** Decoder *)

(** One value: in the vector part of a row, and in its tail, where [__fp16]
    operands are promoted to [float]. *)
Definition dequantize_cell (C_scale_i C_vec : Z) (mul_h : float) (c q : Z) : float :=
  if c <? C_vec then f16_mul (f16_of_Z (q - C_scale_i)) mul_h
  else to_f16 (f32_mul (f32_sub (to_f32 (f16_of_Z q)) (to_f32 (f16_of_Z C_scale_i))) (to_f32 mul_h)).

(** [out[t * C + c]]. *)
Definition dequantize_cpu_into_new_neon (q : Z → Z) (max1 : Z → float) (C bins : Z) (i : Z) : float :=
  let C_scale_i := Z.quot bins 2 - 1 in
  if C_scale_i <=? 0 then S754_zero false
  else
    let invC := f32_div (f32_of_Z 1) (f32_of_Z C_scale_i) in
    let C_vec := Z.land C (Z.lnot 15) in
    let mul_h := to_f16 (f32_mul (max1 (i / C)) invC) in
    dequantize_cell C_scale_i C_vec mul_h (i mod C) (q i).

(** The sub-chunks, from the current offset on.  [m_base] is what the vector of
    maxima holds from the chunk's first token on: reading past it is undefined. *)
Fixpoint decode_streams (cdf : CdfRaw) (C : Z) (input : list byte) (lengths_arr : list (list Z))
    (byte_sums : list Z) (m_base : list float) : outcome (list (Z → float)) :=
  match lengths_arr, byte_sums with
  | lengths :: lengths_arr, bytes :: byte_sums =>
      q16 <~ decode_ntokens_cpu_new_range cdf.(cdf_data) C cdf.(bins_p1) input lengths ;;
      if Z.of_nat (length m_base) <? MAX_TOKENS_PER_CHUNK then Ub
      else
        rest <~ decode_streams cdf C (drop (Z.to_nat bytes) input) lengths_arr byte_sums
                  (drop (Z.to_nat MAX_TOKENS_PER_CHUNK) m_base) ;;
        Ok (dequantize_cpu_into_new_neon q16 (λ t, nth (Z.to_nat t) m_base f32_zero) C (cdf.(bins_p1) - 1)
            :: rest)
  | _, _ => Ok []
  end.

Definition decode_function_new (input : list byte) (hidden_dim : Z) (lengths_arr : list (list Z))
    (cdf : CdfRaw) (m_base : list float) (byte_sums : list Z) : outcome (Z → float) :=
  let C := hidden_dim in
  outs <~ decode_streams cdf C input (take (Z.to_nat n_bs_per_raw) lengths_arr)
            (take (Z.to_nat n_bs_per_raw) byte_sums) m_base ;;
  let sub := MAX_TOKENS_PER_CHUNK * C in
  Ok (λ i, nth (Z.to_nat (i / sub)) outs (λ _, S754_zero false) (i mod sub)).
