(* ===== verification/CachegenThms.v ===== *)
(** The frequency tables of the CACHEGEN backend: what [cdf_calculate_cpu]
    computes, and why the range coder can use it. *)
From S2P Require Import Prelude Floats KvTypes RangeCoder RangeCoderBits RangeCoderThms.
From S2P Require Import RangeCoderRound Cachegen.

(** ** Counting *)

(** The codes equal to, and below, a value. *)
Definition equal_to (qs : list Z) (v : Z) : Z := Z.of_nat (length (filter (λ q, q = v) qs)).
Definition below (qs : list Z) (b : Z) : Z := Z.of_nat (length (filter (λ q, q < b) qs)).

Definition code_ok (max_bins q : Z) : Prop := 0 <= q < max_bins.

Lemma equal_to_bounds qs v : 0 <= equal_to qs v <= Z.of_nat (length qs).
Proof. unfold equal_to. pose proof (length_filter (λ q, q = v) qs). lia. Qed.

Lemma below_succ qs b : below qs (b + 1) = below qs b + equal_to qs b.
Proof.
  unfold below, equal_to. induction qs as [|q qs IH]; [done|]. rewrite !filter_cons.
  repeat case_decide; cbn [length]; lia.
Qed.

Lemma below_mono qs a b : a <= b → below qs a <= below qs b.
Proof.
  intros Hab. unfold below. apply inj_le. induction qs as [|q qs IH]; [done|]. rewrite !filter_cons.
  repeat case_decide; cbn [length]; lia.
Qed.

Lemma equal_to_neg qs max_bins v : Forall (code_ok max_bins) qs → v < 0 → equal_to qs v = 0.
Proof.
  intros Hf Hv. unfold equal_to. induction Hf as [|q l Hq Hl IH]; [done|].
  rewrite filter_cons_False; [exact IH|]. unfold code_ok in Hq. lia.
Qed.

Lemma below_none qs max_bins : Forall (code_ok max_bins) qs → below qs 0 = 0.
Proof.
  intros Hf. unfold below. induction Hf as [|q l Hq Hl IH]; [done|].
  rewrite filter_cons_False; [exact IH|]. unfold code_ok in Hq. lia.
Qed.

Lemma below_full qs max_bins : Forall (code_ok max_bins) qs → below qs max_bins = Z.of_nat (length qs).
Proof.
  intros Hf. unfold below. induction Hf as [|q l Hq Hl IH]; [done|]. unfold code_ok in Hq.
  rewrite filter_cons_True by lia. cbn [length]. lia.
Qed.

Section table.
Context (max_bins : Z) (qs : list Z).
Hypothesis bins_ok : 2 <= max_bins <= 128.
Hypothesis codes_ok : Forall (code_ok max_bins) qs.
Hypothesis count_ok : 0 < Z.of_nat (length qs) < 65536.

Abbreviation n := (Z.of_nat (length qs)).

Lemma below_0 : below qs 0 = 0.
Proof. by apply (below_none _ max_bins). Qed.

Lemma below_all : below qs max_bins = n.
Proof. by apply below_full. Qed.

Lemma below_bounds b : 0 <= b <= max_bins → 0 <= below qs b <= n.
Proof. intros Hb. rewrite <- below_all, <- below_0. split; apply below_mono; lia. Qed.

(** ** The histogram and its prefix sums *)

Lemma hist_count_ok seen q hist : code_ok max_bins q → Z.of_nat (length seen) < 65535 →
  (∀ b, hist b = equal_to seen (b - 1)) →
  ∃ h, hist_count max_bins hist q = Ok h ∧ ∀ b, h b = equal_to (seen ++ [q]) (b - 1).
Proof.
  intros Hq Hn Hh. unfold code_ok in Hq. unfold hist_count. rewrite !u8_id by lia.
  destruct (Z.ltb_spec max_bins q); [lia|]. destruct (Z.leb_spec (q + 1) max_bins); [|lia].
  eexists. split; [done|]. intros b.
  assert (equal_to (seen ++ [q]) (b - 1) = equal_to seen (b - 1) + if decide (q = b - 1) then 1 else 0) as ->.
  { unfold equal_to. rewrite filter_app, length_app, filter_cons. case_decide; cbn; lia. }
  pose proof (equal_to_bounds seen (b - 1)).
  destruct (decide (q + 1 = b)) as [<-|Hne].
  - rewrite fn_lookup_insert, Hh. rewrite decide_True by lia. rewrite u16_id; lia.
  - rewrite fn_lookup_insert_ne, Hh by done. rewrite decide_False by lia. lia.
Qed.

Lemma hist_of_ok l seen hist : Forall (code_ok max_bins) l →
  Z.of_nat (length seen + length l) < 65536 → (∀ b, hist b = equal_to seen (b - 1)) →
  ∃ h, hist_of max_bins hist l = Ok h ∧ ∀ b, h b = equal_to (seen ++ l) (b - 1).
Proof.
  intros Hf. revert seen hist. induction Hf as [|q l Hq Hf IH]; intros seen hist Hn Hh;
    cbn [hist_of length] in *.
  { exists hist. by rewrite app_nil_r. }
  destruct (hist_count_ok seen q hist Hq ltac:(lia) Hh) as (h & -> & Hh'). cbn [obind].
  destruct (IH (seen ++ [q]) h) as (h' & -> & Hh''); [rewrite length_app; cbn [length]; lia|done|].
  exists h'. by rewrite <- app_assoc in Hh''.
Qed.

Section prefix.
Context (hist : Z → Z).
Hypothesis hist_ok : ∀ b, hist b = equal_to qs (b - 1).

Lemma prefix_sum_ok : let '(h, total) := prefix_sum hist max_bins in
  total = n ∧ ∀ b, 0 <= b <= max_bins → h b = below qs b.
Proof.
  assert (∀ k : nat, Z.of_nat k <= max_bins →
    let '(h, total) := fold_left prefix_step (seqZ 0 (Z.of_nat k)) (hist, 0) in
    total = below qs (Z.of_nat k) ∧ (∀ b, 0 <= b <= Z.of_nat k → h b = below qs b) ∧
    ∀ b, Z.of_nat k < b → h b = hist b) as H.
  { induction k as [|k IH]; intros Hk.
    - change (seqZ 0 (Z.of_nat 0)) with (@nil Z). change (Z.of_nat 0) with 0. cbn [fold_left].
      split; [by rewrite below_0|split; [|done]]. intros b Hb. replace b with 0 by lia.
      rewrite below_0, hist_ok. by apply (equal_to_neg _ max_bins).
    - rewrite Nat2Z.inj_succ, <- Z.add_1_r, seqZ_app, fold_left_app by lia.
      specialize (IH ltac:(lia)). destruct (fold_left _ _ _) as [h total].
      destruct IH as (-> & Hle & Hgt). rewrite Z.add_0_l.
      rewrite (seqZ_cons (Z.of_nat k) 1) by lia. change (Z.pred 1) with 0. cbn [seqZ seq fmap list_fmap fold_left].
      unfold prefix_step. rewrite (Hgt (Z.of_nat k + 1)) by lia.
      pose proof (below_succ qs (Z.of_nat k)) as Hs. rewrite hist_ok, Z.add_simpl_r.
      pose proof (below_bounds (Z.of_nat k + 1) ltac:(lia)).
      rewrite !u16_id by lia. split; [lia|split].
      + intros b Hb. destruct (decide (b = Z.of_nat k + 1)) as [->|].
        * rewrite fn_lookup_insert. lia.
        * rewrite fn_lookup_insert_ne by lia. apply Hle. lia.
      + intros b Hb. rewrite fn_lookup_insert_ne by lia. apply Hgt. lia. }
  specialize (H (Z.to_nat max_bins) ltac:(lia)). rewrite Z2Nat.id in H by lia.
  unfold prefix_sum. destruct (fold_left _ _ _) as [h total].
  destruct H as (-> & Hle & _). split; [apply below_all|exact Hle].
Qed.

End prefix.

(** ** The row *)

(** The share of the codes below [b], and [b] itself. *)
Definition scaled (b : Z) : Z := (65535 - max_bins) * below qs b / n + b.

Lemma scaled_bounds b : 0 <= b <= max_bins → 0 <= (65535 - max_bins) * below qs b < 2 ^ 32 ∧
  0 <= (65535 - max_bins) * below qs b / n <= 65535 - max_bins.
Proof.
  intros Hb. pose proof (below_bounds b Hb).
  assert ((65535 - max_bins) * below qs b <= (65535 - max_bins) * 65535) by (apply Z.mul_le_mono_nonneg_l; lia).
  assert (0 <= (65535 - max_bins) * below qs b) by (apply Z.mul_nonneg_nonneg; lia).
  split; [lia|]. split; [apply Z.div_pos; lia|]. apply Z.div_le_upper_bound; [lia|].
  rewrite Z.mul_comm. apply Z.mul_le_mono_nonneg_r; lia.
Qed.

(** Rows that agree with it where the coder looks. *)
Lemma scaled_row_ok row : (∀ b, 0 <= b <= max_bins → row b = scaled b) → row_ok row (max_bins + 1).
Proof.
  intros He. split; [lia| | |].
  - rewrite He by lia. unfold scaled. rewrite below_0, Z.mul_0_r, Z.div_0_l; lia.
  - intros b Hb. rewrite !He by lia. unfold scaled. pose proof (below_mono qs b (b + 1) ltac:(lia)).
    assert ((65535 - max_bins) * below qs b / n <= (65535 - max_bins) * below qs (b + 1) / n)
      by (apply Z.div_le_mono; [lia|apply Z.mul_le_mono_nonneg_l; lia]). lia.
  - rewrite He by lia. unfold scaled. destruct (scaled_bounds (max_bins + 1 - 2)); [lia|].
    unfold CDF_TOP. lia.
Qed.

Lemma cdf_row_ok : ∃ row, cdf_row max_bins qs = Ok row ∧ ∀ b, 0 <= b <= max_bins → row b = scaled b.
Proof.
  unfold cdf_row.
  destruct (hist_of_ok qs [] (λ _, 0) codes_ok ltac:(cbn; lia)) as (h & -> & Hh); [done|]. cbn [obind app] in *.
  pose proof (prefix_sum_ok h Hh) as Hp. destruct (prefix_sum h max_bins) as [h' total].
  destruct Hp as [-> Hp]. eexists. split; [done|]. intros b Hb. cbv beta. rewrite Hp by done.
  destruct (scaled_bounds b Hb) as [H1 H2]. rewrite Z.max_r by lia.
  rewrite (u32_id (65535 - max_bins)) by lia. rewrite (u32_id (_ * _)) by done.
  rewrite u32_id, u16_id by lia. done.
Qed.
End table.

(** ** The table *)

(** The codes of channel [lc mod C] in layer [lc / C]. *)
Definition channel_codes (q : Z → Z) (T C lc : Z) : list Z :=
  (λ t, q (lc mod C + C * (t + T * (lc / C)))) <$> seqZ 0 T.

Lemma length_seqZ_map {A} (f : Z → A) m n : 0 <= n → Z.of_nat (length (f <$> seqZ m n)) = n.
Proof. intros Hn. rewrite length_fmap, length_seqZ. lia. Qed.

Lemma nth_seqZ_map {A} (f : Z → A) n i d : 0 <= i < n → nth (Z.to_nat i) (f <$> seqZ 0 n) d = f i.
Proof.
  intros Hi. apply nth_lookup_Some. rewrite list_lookup_fmap, lookup_seqZ_lt by lia. cbn. do 2 f_equal. lia.
Qed.

(** A position of a two-dimensional layout. *)
Lemma layout_div n a b : 0 <= b < n → (n * a + b) / n = a.
Proof. intros Hb. symmetry. by apply (Z.div_unique_pos _ _ _ b). Qed.
Lemma layout_mod n a b : 0 <= b < n → (n * a + b) mod n = b.
Proof. intros Hb. symmetry. by apply (Z.mod_unique_pos _ _ a). Qed.

(** A loop of rounds that all yield a value related to their index. *)
Lemma otraverse_spec {A B} (P : A → B → Prop) (f : A → outcome B) (l : list A) :
  (∀ a, a ∈ l → ∃ b, f a = Ok b ∧ P a b) → ∃ bs, otraverse f l = Ok bs ∧ Forall2 P l bs.
Proof.
  induction l as [|a l IH]; intros H; [by exists []|]. cbn [otraverse].
  destruct (H a) as (b & -> & Hb); [left|]. cbn [obind].
  destruct IH as (bs & -> & Hbs); [intros; apply H; by right|]. exists (b :: bs). split; [done|by constructor].
Qed.

Lemma otraverse_seqZ {B} (P : Z → B → Prop) (f : Z → outcome B) (n : Z) :
  0 <= n → (∀ a, 0 <= a < n → ∃ b, f a = Ok b ∧ P a b) →
  ∃ bs, otraverse f (seqZ 0 n) = Ok bs ∧ Z.of_nat (length bs) = n ∧
    ∀ i d, 0 <= i < n → P i (nth (Z.to_nat i) bs d).
Proof.
  intros Hn H. destruct (otraverse_spec P f (seqZ 0 n)) as (bs & He & Hf).
  { intros a Ha%elem_of_seqZ. apply H. lia. }
  exists bs. split; [done|]. pose proof (Forall2_length _ _ _ Hf) as Hl. rewrite length_seqZ in Hl.
  split; [lia|]. intros i d Hi.
  destruct (lookup_lt_is_Some_2 bs (Z.to_nat i) ltac:(lia)) as [b Hb].
  rewrite (nth_lookup_Some _ _ _ _ Hb).
  eapply (Forall2_lookup_lr _ _ _ (Z.to_nat i)); [exact Hf| |exact Hb].
  rewrite lookup_seqZ_lt by lia. f_equal. lia.
Qed.

Section calculate.
Context (q : Z → Z) (L T C max_bins : Z).
Hypothesis dims_ok : 0 < L ∧ 0 < T < 65536 ∧ 0 < C.
Hypothesis bins_ok : 2 <= max_bins <= 128.
Hypothesis codes_ok : ∀ i, 0 <= i < L * T * C → code_ok max_bins (q i).

Lemma channel_codes_ok lc : 0 <= lc < L * C → Forall (code_ok max_bins) (channel_codes q T C lc).
Proof.
  intros Hlc. apply Forall_fmap, Forall_forall. intros t Ht%elem_of_seqZ. apply codes_ok.
  pose proof (Z.mod_pos_bound lc C ltac:(lia)) as Hm.
  assert (0 <= lc / C < L) as Hd.
  { split; [apply Z.div_pos; lia|apply Z.div_lt_upper_bound; lia]. }
  assert (0 <= t + T * (lc / C) < L * T) as Ht2 by nia. nia.
Qed.

Lemma cdf_calculate_ok : ∃ cdf, cdf_calculate_cpu q L T C max_bins = Ok cdf ∧
  cdf.(bins_p1) = max_bins + 1 ∧ cdf.(cdf_C) = C ∧
  ∀ lc b, 0 <= lc < L * C → 0 <= b <= max_bins →
    cdf.(cdf_data) ((max_bins + 1) * lc + b) = scaled max_bins (channel_codes q T C lc) b.
Proof.
  unfold cdf_calculate_cpu. destruct (Z.leb_spec L 0), (Z.leb_spec T 0), (Z.leb_spec C 0); try lia. cbn [orb].
  destruct (Z.leb_spec max_bins 0); [lia|].
  destruct (otraverse_seqZ (λ lc row, ∀ b, 0 <= b <= max_bins → row b = scaled max_bins (channel_codes q T C lc) b)
    (λ lc, cdf_row max_bins (channel_codes q T C lc)) (L * C)) as (rows & He & _ & Hrows); [lia| |].
  { intros lc Hlc. apply cdf_row_ok; [done|by apply channel_codes_ok|].
    unfold channel_codes. rewrite length_seqZ_map; lia. }
  unfold channel_codes in He. rewrite He. cbn [obind]. eexists. split; [done|]. cbn [bins_p1 cdf_C cdf_data].
  split; [done|split; [done|]]. intros lc b Hlc Hb. rewrite layout_div, layout_mod by lia. by apply Hrows.
Qed.
End calculate.

(** C26: [cdf_calculate_cpu] on fewer than 65536 tokens whose codes are in range
    indexes its histogram and wraps around nowhere, and its table is exactly the
    scaled share of the codes below each value plus the value - so every row is
    one the range coder can use: it starts at 0, increases strictly, even where a
    code never occurs, and stays below 65536. *)
Theorem cdf_calculate_spec q L T C max_bins :
  0 < L → 0 < T < 65536 → 0 < C → 2 <= max_bins <= 128 →
  (∀ i, 0 <= i < L * T * C → code_ok max_bins (q i)) →
  ∃ cdf, cdf_calculate_cpu q L T C max_bins = Ok cdf ∧ cdf.(bins_p1) = max_bins + 1 ∧
    ∀ lc, 0 <= lc < L * C →
      row_ok (λ b, cdf.(cdf_data) (cdf.(bins_p1) * lc + b)) cdf.(bins_p1) ∧
      ∀ b, 0 <= b <= max_bins → cdf.(cdf_data) (cdf.(bins_p1) * lc + b) =
        (65535 - max_bins) * below (channel_codes q T C lc) b / T + b.
Proof.
  intros HL HT HC Hb Hq.
  destruct (cdf_calculate_ok q L T C max_bins ltac:(lia) Hb Hq) as (cdf & He & Hp & _ & Hd).
  exists cdf. split; [done|split; [done|]]. rewrite Hp. intros lc Hlc.
  assert (Z.of_nat (length (channel_codes q T C lc)) = T) as Hlen by (apply length_seqZ_map; lia).
  split.
  - apply (scaled_row_ok max_bins (channel_codes q T C lc)); [done|by apply (channel_codes_ok q L T C max_bins)|lia|].
    intros b Hbb. by apply Hd.
  - intros b Hbb. rewrite Hd by done. unfold scaled. by rewrite Hlen.
Qed.
