(* ===== verification/CachegenError.v ===== *)
(** How far a value is from what CACHEGEN makes of it: the codes of a token and
    their dequantisation, with every rounding counted. *)
From Stdlib Require Import Reals Lra.
From S2P Require Import Prelude Floats FloatReal KvTypes FlexgenError FlexgenCodec FlexgenBound.
From S2P Require Import RangeCoder Cachegen.
#[local] Open Scope R_scope.

(** ** The largest magnitude of a token *)

Lemma to_f32_canonical x : canonical 24 128 (to_f32 x).
Proof. destruct x as [| | |s m e]; try exact I. by apply (binary_normalize_canonical 24 128 ltac:(lia)). Qed.

Lemma SFabs_val x : fin x → canonical 24 128 x →
  fin (SFabs x) ∧ canonical 24 128 (SFabs x) ∧ val (SFabs x) = Rabs (val x).
Proof.
  intros Hf Hc. destruct x as [s| | |s m e]; try contradiction; cbn [SFabs].
  - split; [exact I|split; [exact I|]]. cbn [val]. by rewrite Rabs_R0.
  - split; [exact I|split; [exact Hc|]]. cbn [val]. rewrite sgn_abs. cbn [sgn].
    pose proof (mag_pos m e). rewrite Rabs_pos_eq; lra.
Qed.

(** [m] is the largest magnitude of [row]. *)
Record is_max (row : list float) (m : float) : Prop := IsMax {
  im_fin : fin m;
  im_canonical : canonical 24 128 m;
  im_nonneg : 0 <= val m;
  im_bound : ∀ x, x ∈ row → Rabs (val x) <= val m;
  im_attained : val m = 0 ∨ ∃ x, x ∈ row ∧ val m = Rabs (val x) }.

Lemma max_step row m x : is_max row m → half_shape x →
  is_max (row ++ [x]) (let av := SFabs (to_f32 x) in if SFltb m av then av else m).
Proof.
  intros [Hf Hc Hn Hb Ha] Hx. cbv zeta. destruct (to_f32_half x Hx) as [Fx Vx].
  destruct (SFabs_val _ Fx (to_f32_canonical x)) as (F1 & C1 & V1). rewrite Vx in V1.
  pose proof (canonical_ltb 24 128 ltac:(lia) m (SFabs (to_f32 x)) Hf F1 Hc C1) as Hlt.
  pose proof (Rabs_pos (val x)).
  destruct (SFltb m (SFabs (to_f32 x))).
  - pose proof (proj1 Hlt eq_refl) as Hl. split; [exact F1|exact C1|lra| |].
    + intros y [Hy|Hy%list_elem_of_singleton]%elem_of_app; [pose proof (Hb y Hy); lra|]. subst y. lra.
    + right. exists x. split; [apply elem_of_app; right; by apply list_elem_of_singleton|exact V1].
  - assert (val (SFabs (to_f32 x)) <= val m).
    { apply Rnot_lt_le. intros Hl. by apply Hlt in Hl. }
    split; [exact Hf|exact Hc|exact Hn| |].
    + intros y [Hy|Hy%list_elem_of_singleton]%elem_of_app; [by apply Hb|]. subst y. lra.
    + destruct Ha as [Ha|(y & Hy & Ey)]; [by left|right]. exists y. split; [|exact Ey].
      apply elem_of_app. by left.
Qed.

Lemma acc_max_is_max row : Forall half_shape row → is_max row (acc_max row).
Proof.
  intros Hf. unfold acc_max.
  assert (∀ l seen m, Forall half_shape l → is_max seen m → is_max (seen ++ l)
    (fold_left (λ acc x, let av := SFabs (to_f32 x) in if SFltb acc av then av else acc) l m)) as H.
  { intros l. induction l as [|x l IH]; intros seen m Hl Hm; cbn [fold_left].
    { by rewrite app_nil_r. }
    apply Forall_cons in Hl as [Hx Hl].
    change (x :: l) with ([x] ++ l). rewrite app_assoc. apply IH; [exact Hl|]. by apply max_step. }
  apply (H row [] f32_zero Hf). split; [exact I|exact I|cbn; lra| |by left].
  intros x Hx. by apply not_elem_of_nil in Hx.
Qed.

Lemma half_small x : half_shape x → val x = 0 ∨ / 16777216 <= Rabs (val x).
Proof.
  intros Hx. destruct x as [s| | |s m e]; try contradiction; [by left|right].
  destruct Hx as (Hm & He & _). cbn [val]. rewrite sgn_abs.
  destruct (half_pos_bounds m e Hm) as [H1 _]. pose proof (b2_pos e). rewrite Rabs_pos_eq by lra.
  rewrite <- b2_m24. etransitivity; [apply (b2_le _ e); lia|exact H1].
Qed.

Lemma is_max_range row m : Forall moderate row → is_max row m →
  val m <= 16384 ∧ (val m = 0 ∨ / 16777216 <= val m).
Proof.
  intros Hf [_ _ _ _ Ha]. rewrite Forall_forall in Hf.
  destruct Ha as [Ha|(x & Hx & Ex)]; [split; [lra|by left]|].
  destruct (Hf x Hx) as [Hh Hm]. rewrite Ex. split; [exact Hm|].
  destruct (half_small x Hh) as [H0|H0]; [left; rewrite H0; apply Rabs_R0|by right].
Qed.

(** ** Codes *)

Lemma mag_round_away_near m e : Rabs (IZR (mag_round_away m e) - IZR (Zpos m) * b2 e) <= / 2.
Proof.
  unfold mag_round_away. destruct (Z.leb_spec 0 e) as [He|He].
  { rewrite mult_IZR, b2_IZR by done. rewrite Rminus_diag, Rabs_R0. lra. }
  set (h := (2 ^ (- e - 1))%Z). assert (0 < h)%Z as Hh by (apply Z.pow_pos_nonneg; lia).
  assert (2 ^ (- e) = 2 * h)%Z as Hk.
  { unfold h. rewrite <- Z.pow_succ_r by lia. f_equal. lia. }
  rewrite Hk. pose proof (Z.div_mod (Zpos m + h) (2 * h) ltac:(lia)) as Hd.
  pose proof (Z.mod_pos_bound (Zpos m + h) (2 * h) ltac:(lia)) as Hr.
  set (q := ((Zpos m + h) / (2 * h))%Z) in *. set (r := ((Zpos m + h) mod (2 * h))%Z) in *.
  assert (0 < IZR h) as HH by (apply IZR_lt; lia).
  assert (b2 e * (2 * IZR h) = 1) as Hb.
  { rewrite <- mult_IZR, <- Hk, b2_IZR by lia. apply (b2_mul_inv e). }
  assert (IZR (Zpos m) = 2 * IZR h * IZR q + IZR r - IZR h) as Hm.
  { rewrite <- !mult_IZR, <- plus_IZR, <- minus_IZR. f_equal. lia. }
  assert (0 <= IZR r < 2 * IZR h) as Hr2.
  { rewrite <- mult_IZR. split; [apply IZR_le; lia|apply IZR_lt; lia]. }
  assert (IZR (Zpos m) * b2 e = IZR q + (IZR r - IZR h) * b2 e) as ->.
  { rewrite Hm. replace ((2 * IZR h * IZR q + IZR r - IZR h) * b2 e)
      with (IZR q * (b2 e * (2 * IZR h)) + (IZR r - IZR h) * b2 e) by ring. rewrite Hb. ring. }
  pose proof (b2_pos e). apply Rabs_le. nra.
Qed.

Lemma round_away_near q : fin q → ∃ n, f_round_away q = Some n ∧ Rabs (IZR n - val q) <= / 2.
Proof.
  intros Hq. destruct q as [s| | |s m e]; try contradiction; cbn [f_round_away].
  - exists 0%Z. split; [done|]. cbn [val]. rewrite Rminus_diag, Rabs_R0. lra.
  - eexists. split; [done|]. cbn [val]. pose proof (mag_round_away_near m e) as H.
    destruct s; cbn [signed sgn]; [|by rewrite Rmult_1_l].
    rewrite opp_IZR, <- Rabs_Ropp.
    match goal with |- Rabs ?a <= _ => replace a with
      (IZR (mag_round_away m e) - IZR (Zpos m) * b2 e) by ring end. exact H.
Qed.

(** Casting and clamping an integral value in range. *)
Definition clamped (qf : float) : outcome Z :=
  let qf := if SFltb qf f32_zero then f32_zero else qf in
  let qf := if SFltb (f32_mul (f32_of_Z 2) (f32_of_Z 15)) qf then f32_mul (f32_of_Z 2) (f32_of_Z 15) else qf in
  match f_to_int qf with Some n => Ok (i8 n) | None => Ub end.

Lemma clamped_code n : (0 <= n <= 30)%Z → clamped (f32_of_Z n) = Ok n.
Proof.
  intros Hn. assert (n ∈ seqZ 0 31) as Hin by (apply elem_of_seqZ; lia).
  assert (forallb (λ n, match clamped (f32_of_Z n) with Ok k => (k =? n)%Z | _ => false end) (seqZ 0 31) = true)
    as Hall by (vm_compute; reflexivity).
  rewrite forallb_forall in Hall. specialize (Hall n (proj1 (list_elem_of_In _ _) Hin)).
  destruct (clamped (f32_of_Z n)); try discriminate. f_equal. by apply Z.eqb_eq.
Qed.

Lemma round_clamp q t : fin q → Rabs (val q - t) <= / 10000 → 0 <= t <= 30 →
  ∃ n, clamped (f32_round q) = Ok n ∧ (0 <= n <= 30)%Z ∧ Rabs (IZR n - t) <= / 2 + / 10000.
Proof.
  intros Hq Ht H30. destruct (round_away_near q Hq) as (n & He & Hn).
  apply Rabs_between in Ht, Hn. exists n.
  assert (-1 < n < 31)%Z as Hr.
  { split; apply lt_IZR; lra. }
  unfold f32_round. rewrite He. split; [apply clamped_code; lia|split; [lia|]]. apply Rabs_le. lra.
Qed.

(** The quantised value, before it is rounded to its code. *)
Lemma level_close A X F P Q : eps <= A <= 16384 → Rabs X <= A →
  near32 (15 / A) F → near32 (X * F) P → near32 (P + 15) Q → Rabs (Q - (15 + 15 * (X / A))) <= / 10000.
Proof.
  intros HA HX HF HP HQ. unfold near32 in *. assert (0 < A) as HA0 by (unfold eps in HA; lra).
  assert (0 < 15 / A) as Hq by (apply Rdiv_lt_0_compat; lra).
  rewrite (Rabs_pos_eq (15 / A)) in HF by lra.
  assert (15 / A * A = 15) as Hqa by (field; lra). set (w := 15 / A) in *.
  assert (15 * (X / A) = X * w) as -> by (unfold w; field; lra). clearbody w.
  apply Rabs_between in HX, HF.
  assert (Rabs (X * F - X * w) <= 15 * eps + 16384 * tiny) as H1.
  { replace (X * F - X * w) with (X * (F - w)) by ring. apply Rabs_le. unfold eps, tiny in *.
    assert (- (w * / 16777216 + / 1152921504606846976) <= F - w <= w * / 16777216 + / 1152921504606846976) by lra.
    set (d := w * / 16777216 + / 1152921504606846976) in *.
    assert (A * d = 15 * / 16777216 + A * / 1152921504606846976) by (rewrite <- Hqa; unfold d; ring).
    assert (0 <= d) by (unfold d; lra). nra. }
  assert (Rabs (X * w) <= 15) as H2 by (apply Rabs_le; nra).
  apply Rabs_between in H1, H2. assert (Rabs (X * F) <= 16) as H3 by (apply Rabs_le; unfold eps, tiny in *; lra).
  apply Rabs_between in HP.
  pose proof (Rabs_between _ _ H3).
  assert (Rabs (P + 15) <= 32) as H4 by (apply Rabs_le; unfold eps, tiny in *; lra).
  apply Rabs_between in HQ. apply Rabs_le. unfold eps, tiny in *. lra.
Qed.

Definition f15 : float := f32_of_Z 15.
Lemma f15_val : fin f15 ∧ val f15 = 15.
Proof. apply (of_Z_exact 24 128 15); lia. Qed.

(** The code of a value [x] of a token whose largest magnitude is [m]. *)
Lemma quant_code_near m x : fin m → canonical 24 128 m → half_shape x →
  0 <= val m <= 16384 → val m = 0 ∨ eps <= val m → Rabs (val x) <= val m →
  ∃ n, quant_code f15 (if SFltb f32_zero m then f32_div f15 m else f32_zero) x = Ok n ∧
    (0 <= n <= 30)%Z ∧ Rabs ((IZR n - 15) * val m - 15 * val x) <= val m * (/ 2 + / 10000).
Proof.
  intros Fm Cm Hx Hm Hcase HX. destruct f15_val as [F15 V15]. destruct (to_f32_half x Hx) as [Fx Vx].
  set (factor := if SFltb f32_zero m then f32_div f15 m else f32_zero).
  assert (∃ t, fin factor ∧ Rabs (val x * val factor) <= 20000 ∧ 0 <= t <= 30 ∧
    (t - 15) * val m = 15 * val x ∧
    ∀ P Q, near32 (val x * val factor) P → near32 (P + 15) Q → Rabs (Q - t) <= / 10000)
    as (t & Ff & Hsm & Ht & Htx & Hclose).
  { destruct Hcase as [H0|He].
    - assert (factor = f32_zero) as ->.
      { unfold factor. destruct (SFltb f32_zero m) eqn:E; [|reflexivity]. exfalso.
        apply (canonical_ltb 24 128 ltac:(lia) f32_zero m I Fm I Cm) in E. cbn in E. lra. }
      assert (val x = 0) as X0.
      { rewrite H0 in HX. apply Rabs_between in HX. lra. }
      exists 15. rewrite H0, X0. split; [exact I|]. cbn [val f32_zero].
      rewrite Rmult_0_l, Rabs_R0. split; [lra|split; [lra|split; [lra|]]].
      intros P Q HP HQ. unfold near32 in *. rewrite Rabs_R0 in HP. apply Rabs_between in HP.
      assert (Rabs (P + 15) <= 16) as H4 by (apply Rabs_le; lra). apply Rabs_between in HQ.
      apply Rabs_le. lra.
    - assert (0 < val m) as Hm0 by (unfold eps in He; lra).
      destruct (positive_cases m Fm Hm0) as [Hlt Hz]. unfold factor. rewrite Hlt.
      assert (0 < 15 / val m <= 15 * 16777216) as Hq.
      { split; [apply Rdiv_lt_0_compat; lra|]. apply (Rmult_le_reg_r (val m)); [lra|].
        unfold Rdiv. rewrite Rmult_assoc, Rinv_l by lra. unfold eps in He. lra. }
      destruct (f32_div_near f15 m F15 Fm Hz) as [FF NF].
      { rewrite V15. apply Rabs_le. unfold huge. lra. }
      rewrite V15 in NF. exists (15 + 15 * (val x / val m)). split; [exact FF|].
      assert (-1 <= val x / val m <= 1) as Hxm.
      { apply Rabs_between in HX. split; apply (Rmult_le_reg_r (val m)); try lra;
          unfold Rdiv; rewrite Rmult_assoc, Rinv_l by lra; lra. }
      split; [|split; [lra|split; [field; lra|]]].
      + unfold near32 in NF. rewrite (Rabs_pos_eq (15 / val m)) in NF by lra. apply Rabs_between in NF.
        assert (15 / val m * val m = 15) as Hqa by (field; lra). set (w := 15 / val m) in *.
        rewrite Rabs_mult. assert (Rabs (val (f32_div f15 m)) <= 2 * w + 1) as Hf by (apply Rabs_le; lra).
        assert (Rabs (val x) * Rabs (val (f32_div f15 m)) <= val m * (2 * w + 1))
          by (apply Rmult_le_compat; auto using Rabs_pos).
        assert (val m * (2 * w + 1) <= 30 + 16384) by nra.
        lra.
      + intros P Q HP HQ. apply (level_close (val m) (val x) (val (f32_div f15 m)) P Q); auto. lra. }
  clearbody factor. unfold quant_code.
  destruct (f32_mul_near (to_f32 x) factor Fx Ff) as [Fp Np].
  { rewrite Vx. unfold huge. lra. }
  rewrite Vx in Np. set (p := f32_mul (to_f32 x) factor) in *. clearbody p.
  destruct (f32_add_near p f15 Fp F15) as [Fq Nq].
  { rewrite V15. pose proof Np as Hp. unfold near32 in Hp. apply Rabs_between in Hp, Hsm.
    assert (Rabs (val x * val factor) <= 20000) by (apply Rabs_le; lra).
    apply Rabs_le. unfold huge. lra. }
  rewrite V15 in Nq. pose proof (Hclose _ _ Np Nq) as Hqt.
  destruct (round_clamp (f32_add p f15) t Fq Hqt Ht) as (n & Hn & Hrange & Hnt).
  exists n. split; [exact Hn|split; [exact Hrange|]].
  replace ((IZR n - 15) * val m - 15 * val x) with ((IZR n - t) * val m) by lra.
  rewrite Rabs_mult, (Rabs_pos_eq (val m)) by lra. pose proof (Rabs_pos (IZR n - t)). nra.
Qed.

(** ** Dequantisation *)

(** The half of a small integer is exact, and its exponent is small. *)
Lemma f16_small k : (-15 <= k <= 15)%Z →
  fin (f16_of_Z k) ∧ val (f16_of_Z k) = IZR k ∧
  match f16_of_Z k with S754_finite _ _ e => (e <= 0)%Z | _ => True end.
Proof.
  intros Hk.
  assert (k ∈ seqZ (-15) 31) as Hin by (apply elem_of_seqZ; lia).
  assert (forallb (λ k, match f16_of_Z k with S754_finite _ _ e => (e <=? 0)%Z | _ => true end)
    (seqZ (-15) 31) = true) as Hall by (vm_compute; reflexivity).
  rewrite forallb_forall in Hall. specialize (Hall k (proj1 (list_elem_of_In _ _) Hin)). cbv beta in Hall.
  assert (fin (f16_of_Z k) ∧ val (f16_of_Z k) = IZR k) as [Hf Hv].
  { destruct (binary_normalize_near 11 16 ltac:(lia) ltac:(lia) k 0 false) as (H1 & _ & H2).
    - rewrite b2_0, Rmult_1_r. transitivity (b2 11); [|apply b2_le; lia].
      rewrite <- b2_IZR by lia. rewrite <- abs_IZR. apply IZR_le. lia.
    - split; [exact H1|]. unfold f16_of_Z, F16_prec, F16_emax. rewrite H2; [|lia|unfold SpecFloat.emin; lia].
      rewrite b2_0. lra. }
  split; [exact Hf|split; [exact Hv|]]. destruct (f16_of_Z k); try exact I. by apply Z.leb_le.
Qed.

Lemma f16_mul_near x y : fin x → fin y → small_exps 11 16 x y → Rabs (val x * val y) <= 32768 →
  fin (f16_mul x y) ∧ near16 (val x * val y) (val (f16_mul x y)).
Proof.
  intros Hx Hy He Hv. destruct (SFmul_near_exps 11 16 ltac:(lia) ltac:(lia) x y Hx Hy He) as [H1 H2].
  - change 32768 with (IZR (2 ^ 15)) in Hv. by rewrite b2_IZR in Hv by lia.
  - split; [exact H1|by apply near_near16].
Qed.

Lemma to_f16_near x : fin x → Rabs (val x) <= 32768 →
  fin (to_f16 x) ∧ near16 (val x) (val (to_f16 x)) ∧ half_shape (to_f16 x).
Proof.
  intros Hx Hv. destruct (round_to_near 11 16 ltac:(lia) ltac:(lia) x Hx) as [H1 H2].
  - change 32768 with (IZR (2 ^ 15)) in Hv. by rewrite b2_IZR in Hv by lia.
  - split; [exact H1|split; [by apply near_near16|]]. apply canonical_half; [exact H1|].
    destruct x as [| | |s m e]; try exact I. by apply (binary_normalize_canonical 11 16 ltac:(lia)).
Qed.

(** The step between codes. *)
Definition step16 (m : float) : float := to_f16 (f32_mul m (f32_div (f32_of_Z 1) f15)).

Lemma step16_near m : fin m → 0 <= val m <= 16384 →
  half_shape (step16 m) ∧ Rabs (val (step16 m) - val m / 15) <= val m * / 30700 + / 33000000.
Proof.
  intros Fm Hm. unfold step16. destruct f15_val as [F15 V15].
  destruct (of_Z_exact 24 128 1) as [F1 V1]; [lia|lia|lia|lia|lia|].
  change (binary_normalize 24 128 1 0 false) with (f32_of_Z 1) in F1, V1.
  destruct (f32_div_near (f32_of_Z 1) f15 F1 F15 eq_refl) as [Fi Ni].
  { rewrite V1, V15. apply Rabs_le. unfold huge. lra. }
  rewrite V1, V15 in Ni. set (inv := f32_div (f32_of_Z 1) f15) in *. clearbody inv.
  unfold near32 in Ni. rewrite (Rabs_pos_eq (1 / 15)) in Ni by lra. apply Rabs_between in Ni.
  assert (Rabs (val inv - / 15) <= / 200000000) as Hinv by (apply Rabs_le; lra).
  apply Rabs_between in Hinv.
  assert (0 <= val m * val inv <= val m * / 14) as Hmi by nra.
  destruct (f32_mul_near m inv Fm Fi) as [Fp Np].
  { rewrite Rabs_pos_eq by lra. unfold huge. lra. }
  set (p := f32_mul m inv) in *. clearbody p.
  unfold near32 in Np. rewrite (Rabs_pos_eq (val m * val inv)) in Np by lra. apply Rabs_between in Np.
  assert (- (val m * / 200000000) <= val m * val inv - val m / 15 <= val m * / 200000000) as Hd.
  { replace (val m * val inv - val m / 15) with (val m * (val inv - / 15)) by lra. nra. }
  assert (Rabs (val p) <= val m * / 13 + / 1000000000) as Hp by (apply Rabs_le; lra).
  destruct (to_f16_near p Fp) as (_ & Ns & Hs); [lra|]. split; [exact Hs|].
  unfold near16 in Ns.
  assert (Rabs (val p) <= val m * (/ 15 + / 100000000) + / 1000000000) as Hp2 by (apply Rabs_le; lra).
  apply Rabs_between in Ns. apply Rabs_le. lra.
Qed.

Lemma f16_of_code n : (0 <= n <= 30)%Z → half_shape (f16_of_Z n) ∧ val (f16_of_Z n) = IZR n.
Proof.
  intros Hn. destruct (of_Z_exact 11 16 n) as [F V]; [lia|lia|lia|lia|lia|]. split; [|exact V].
  apply canonical_half; [exact F|]. by apply (binary_normalize_canonical 11 16 ltac:(lia)).
Qed.

(** A code back to a value: a 29th of the token's largest magnitude. *)
Lemma dequantize_near m n x C_vec c : fin m → 0 <= val m <= 16384 → Rabs (val x) <= val m →
  (0 <= n <= 30)%Z → Rabs ((IZR n - 15) * val m - 15 * val x) <= val m * (/ 2 + / 10000) →
  let d := dequantize_cell 15 C_vec (step16 m) c n in
  fin d ∧ Rabs (val d - val x) <= val m / 29 + / 1048576.
Proof.
  intros Fm Hm HX Hn Hcode. cbv zeta. destruct (step16_near m Fm Hm) as [Hsh Hstep].
  assert (fin (step16 m)) as Fs by (by destruct (step16 m)).
  set (A := val m) in *. set (S := val (step16 m)) in *. set (k := (n - 15)%Z).
  assert (IZR n - 15 = IZR k) as Hk by (unfold k; rewrite minus_IZR; lra). rewrite Hk in Hcode.
  assert (-15 <= IZR k <= 15) as Hkr by (unfold k; split; apply IZR_le; lia).
  apply Rabs_between in HX, Hcode, Hstep.
  assert (Rabs (IZR k * S - val x) <= A * (/ 30 + / 150000 + / 2046) + / 2200000) as HE.
  { replace (IZR k * S - val x) with (IZR k * (S - A / 15) + (IZR k * A - 15 * val x) / 15) by field.
    apply Rabs_le. set (d := A * / 30700 + / 33000000) in *. assert (0 <= d) by (unfold d; lra).
    assert (- (15 * d) <= IZR k * (S - A / 15) <= 15 * d) as Hd by nra. unfold d in Hd. lra. }
  apply Rabs_between in HE.
  assert (Rabs (IZR k * S) <= A * (1 + / 29) + / 2200000) as HkS by (apply Rabs_le; lra).
  unfold dequantize_cell. destruct (c <? C_vec)%Z.
  - destruct (f16_small k ltac:(lia)) as (Fk & Vk & Ek).
    destruct (f16_mul_near (f16_of_Z k) (step16 m) Fk Fs) as [Fd Nd].
    + destruct (f16_of_Z k), (step16 m); try exact I. cbn [small_exps]. destruct Hsh as (_ & He & _). lia.
    + rewrite Vk. fold S. lra.
    + split; [exact Fd|]. rewrite Vk in Nd. fold S in Nd. fold k. unfold near16 in Nd.
      apply Rabs_between in Nd. apply Rabs_le. lra.
  - destruct (f16_of_code n) as [Hhn Vn]; [lia|]. destruct (f16_of_code 15) as [Hhc Vc]; [lia|].
    destruct (to_f32_half _ Hhn) as [Fn' Vn']. destruct (to_f32_half _ Hhc) as [Fc' Vc'].
    destruct (to_f32_half _ Hsh) as [Fs' Vs'].
    destruct (f32_sub_near _ _ Fn' Fc') as [Fk Nk].
    { rewrite Vn', Vc', Vn, Vc. apply Rabs_le. unfold huge.
      assert (0 <= IZR n <= 30) by (split; apply IZR_le; lia). lra. }
    rewrite Vn', Vc', Vn, Vc in Nk. set (kf := f32_sub _ _) in *. clearbody kf.
    assert (Rabs (val kf - IZR k) <= / 1000000) as Hkf.
    { unfold near32 in Nk. rewrite Hk in Nk. assert (Rabs (IZR k) <= 15) by (apply Rabs_le; lra).
      etransitivity; [exact Nk|]. lra. }
    apply Rabs_between in Hkf.
    assert (Rabs (val kf * S - IZR k * S) <= A * / 10000000 + / 1000000000000) as HkfS.
    { replace (val kf * S - IZR k * S) with ((val kf - IZR k) * S) by ring.
      assert (- (A * / 14 + / 30000000) <= S <= A * / 14 + / 30000000) by lra.
      apply Rabs_le. nra. }
    apply Rabs_between in HkfS. pose proof (Rabs_between _ _ HkS).
    assert (Rabs (val kf * S) <= A * (1 + / 28) + / 2100000) as HkfS2 by (apply Rabs_le; lra).
    destruct (f32_mul_near kf (to_f32 (step16 m)) Fk Fs') as [Fp Np].
    { rewrite Vs'. fold S. unfold huge. lra. }
    rewrite Vs' in Np. fold S in Np. set (p := f32_mul _ _) in *. clearbody p.
    assert (Rabs (val p - IZR k * S) <= A * / 4000000 + / 1000000000) as Hp.
    { unfold near32 in Np. apply Rabs_between in Np. apply Rabs_le. lra. }
    apply Rabs_between in Hp.
    assert (Rabs (val p) <= A * (1 + / 28) + / 2000000) as Hp2 by (apply Rabs_le; lra).
    destruct (to_f16_near p Fp) as (Fd & Nd & _); [lra|]. split; [exact Fd|].
    unfold near16 in Nd. apply Rabs_between in Nd. apply Rabs_le. lra.
Qed.
