(* ===== verification/CachegenCodec.v ===== *)
(** A chunk through the CACHEGEN backend and back: the two functions the KV state
    calls compose to a bounded error where the range coder is safe. *)
From Stdlib Require Import Reals Lra.
From S2P Require Import Prelude Floats FloatReal KvTypes FlexgenError FlexgenCodec FlexgenBound.
From S2P Require Import RangeCoder RangeCoderBits RangeCoderThms RangeCoderRound.
From S2P Require Import Cachegen CachegenThms CachegenError.

(** ** Tokens *)

(** The code of a value, of a token whose largest magnitude is [m]. *)
Definition is_code (m x : float) (n : Z) : Prop :=
  0 <= n <= 30 ∧ (Rabs ((IZR n - 15) * val m - 15 * val x) <= val m * (/ 2 + / 10000))%R.

Lemma quantize_row_ok row : Forall moderate row →
  ∃ codes, quantize_row 32 row = Ok (acc_max row, codes) ∧ Forall2 (is_code (acc_max row)) row codes.
Proof.
  intros Hf. assert (Forall half_shape row) as Hh by (eapply Forall_impl; [exact Hf|by intros x []]).
  pose proof (acc_max_is_max row Hh) as Hm. destruct (is_max_range row _ Hf Hm) as [Hle Hcase].
  destruct (otraverse_spec (is_code (acc_max row))
    (quant_code f15 (if SFltb f32_zero (acc_max row) then f32_div f15 (acc_max row) else f32_zero)) row)
    as (codes & He & Hc).
  - intros x Hx. rewrite Forall_forall in Hh. pose proof (im_nonneg _ _ Hm).
    destruct (quant_code_near (acc_max row) x (im_fin _ _ Hm) (im_canonical _ _ Hm) (Hh x Hx)
      ltac:(lra) Hcase (im_bound _ _ Hm x Hx)) as (n & Hn & H30 & Herr).
    exists n. by split.
  - exists codes. unfold quantize_row. change (Z.quot 32 2 - 1) with 15. fold f15. rewrite He. done.
Qed.

Definition token_row (load : Z → Z → Z → float) (T C lt : Z) : list float :=
  load (lt / T) (lt mod T) <$> seqZ 0 C.

Lemma quantize_tokens_ok load bins_L L T C : 0 < L → 0 < T → 0 < C →
  (∀ l, 0 <= l < L → nth (Z.to_nat l) bins_L 0 = 32) →
  (∀ l t c, 0 <= l < L → 0 <= t < T → 0 <= c < C → moderate (load l t c)) →
  ∃ r, quantize_tokens load bins_L L T C = Ok r ∧
    ∀ lt, 0 <= lt < L * T → r.(qr_max1) lt = acc_max (token_row load T C lt) ∧
      ∀ c, 0 <= c < C →
        is_code (acc_max (token_row load T C lt)) (load (lt / T) (lt mod T) c) (r.(qr_q) (lt * C + c)).
Proof.
  intros HL HT HC Hbins Hload. unfold quantize_tokens.
  destruct (Z.leb_spec L 0), (Z.leb_spec T 0), (Z.leb_spec C 0); try lia. cbn [orb].
  destruct (otraverse_seqZ (λ lt r, r.1 = acc_max (token_row load T C lt) ∧
      Forall2 (is_code (acc_max (token_row load T C lt))) (token_row load T C lt) r.2)
    (λ lt, quantize_row (nth (Z.to_nat (lt / T)) bins_L 0) (token_row load T C lt)) (L * T))
    as (rows & He & _ & Hrows); [lia| |].
  { intros lt Hlt. assert (0 <= lt / T < L) as Hl.
    { split; [apply Z.div_pos; lia|apply Z.div_lt_upper_bound; lia]. }
    rewrite Hbins by done. destruct (quantize_row_ok (token_row load T C lt)) as (codes & -> & Hc).
    - apply Forall_fmap, Forall_forall. intros c Hcc%elem_of_seqZ. apply Hload; [done| |lia].
      apply Z.mod_pos_bound. lia.
    - by exists (acc_max (token_row load T C lt), codes). }
  unfold token_row in He. rewrite He. cbn [obind]. eexists. split; [done|]. cbn [qr_max1 qr_q].
  intros lt Hlt. destruct (Hrows lt (f32_zero, []) Hlt) as [Hm Hc]. split; [exact Hm|].
  intros c Hcc. rewrite (Z.mul_comm lt C), layout_div, layout_mod by lia.
  pose proof (Forall2_length _ _ _ Hc) as Hlen. unfold token_row in Hlen at 1.
  rewrite length_fmap, length_seqZ in Hlen.
  destruct (lookup_lt_is_Some_2 (nth (Z.to_nat lt) rows (f32_zero, [])).2 (Z.to_nat c) ltac:(lia)) as [n Hn].
  rewrite (nth_lookup_Some _ _ _ _ Hn).
  eapply (Forall2_lookup_lr _ _ _ (Z.to_nat c)); [exact Hc| |exact Hn].
  unfold token_row. rewrite list_lookup_fmap, lookup_seqZ_lt by lia. cbn. do 2 f_equal. lia.
Qed.

(** ** Streams *)

Section stream.
Context (cdf : CdfRaw) (C : Z) (q : Z → Z).
Hypothesis C_ok : 0 < C ∧ 35 * C < 65536.

Abbreviation dequantised q m_base t :=
  (dequantize_cpu_into_new_neon q (λ k, nth (Z.to_nat k) (drop (Z.to_nat t) m_base) f32_zero) C
     (cdf.(bins_p1) - 1)).

(** What is decoded of [n] sub-chunks from token [s] on. *)
Lemma encode_one_stream_ok n s : 0 <= s →
  (∀ j, 0 <= j < Z.of_nat n → chunk_ok cdf.(cdf_data) C cdf.(bins_p1) (λ i, q (C * (s + 16 * j) + i))) →
  ∃ e, encode_one_stream cdf C q s n = Ok e ∧ length e.(lengths_arr) = n ∧ length e.(byte_sums_arr) = n ∧
    (∀ rest m_base, (16 * n <= length m_base)%nat →
    ∃ outs, decode_streams cdf C (e.(en_output) ++ rest) e.(lengths_arr) e.(byte_sums_arr) m_base = Ok outs ∧
      ∀ j i d, 0 <= j < Z.of_nat n → 0 <= i < 16 * C →
        nth (Z.to_nat j) outs d i = dequantised (λ i, q (C * (s + 16 * j) + i)) m_base (16 * j) i) ∧
    ∀ rest, (0 < n)%nat →
      decode_streams cdf C (e.(en_output) ++ rest) e.(lengths_arr) e.(byte_sums_arr) [] = Ub.
Proof.
  revert s. induction n as [|n IH]; intros s Hs Hok; cbn [encode_one_stream].
  { exists (Encoded [] [] []). repeat split; try done; [|intros; lia].
    intros rest m_base _. exists []. split; [done|]. lia. }
  assert (chunk_ok cdf.(cdf_data) C cdf.(bins_p1) (λ i, q (C * s + i))) as H0.
  { specialize (Hok 0 ltac:(lia)). by rewrite Z.add_0_r in Hok. }
  destruct (coder_ok _ _ _ _ (proj1 C_ok) H0) as (bytes & lengths & -> & Hlen & _ & _ & Hdec). cbn [obind].
  destruct (IH (s + MAX_TOKENS_PER_CHUNK)) as (e & -> & Hl & Hb & He & _); [unfold MAX_TOKENS_PER_CHUNK; lia| |].
  { intros j Hj. specialize (Hok (j + 1) ltac:(lia)). unfold MAX_TOKENS_PER_CHUNK.
    by replace (s + 16 + 16 * j) with (s + 16 * (j + 1)) by lia. }
  cbn [obind]. eexists. split; [done|]. cbn [lengths_arr byte_sums_arr en_output length].
  split; [lia|split; [lia|]].
  split; [|intros rest _; cbn [decode_streams]; rewrite <- app_assoc;
           by destruct (Hdec (e.(en_output) ++ rest)) as (out & -> & _)].
  intros rest m_base Hm. cbn [decode_streams].
  rewrite <- app_assoc. destruct (Hdec (e.(en_output) ++ rest)) as (out & -> & Hout). cbn [obind].
  unfold MAX_TOKENS_PER_CHUNK in *. destruct (Z.ltb_spec (Z.of_nat (length m_base)) 16); [lia|].
  rewrite u16_id, Nat2Z.id, drop_app_length by lia.
  destruct (He rest (drop (Z.to_nat 16) m_base)) as (outs & -> & Houts); [rewrite length_drop; lia|].
  cbn [obind]. eexists. split; [done|]. intros j i d Hj Hi.
  destruct (decide (j = 0)) as [->|Hne].
  - change (Z.to_nat 0) with 0%nat. change (Z.to_nat (16 * 0)) with 0%nat. cbn [nth]. rewrite drop_0.
    unfold dequantize_cpu_into_new_neon. rewrite Hout by done. by rewrite Z.mul_0_r, Z.add_0_r.
  - replace (Z.to_nat j) with (S (Z.to_nat (j - 1))) by lia. cbn [nth].
    rewrite Houts by lia. rewrite drop_drop.
    replace (Z.to_nat 16 + Z.to_nat (16 * (j - 1)))%nat with (Z.to_nat (16 * j)) by lia.
    by replace (s + 16 + 16 * (j - 1)) with (s + 16 * j) by lia.
Qed.
End stream.

(** ** A chunk *)

(** The values of a token of a chunk. *)
Definition chunk_row (input : Z → float) (C t : Z) : list float := (λ c, input (t * C + c)) <$> seqZ 0 C.

(** The streams the range coder is right on. *)
Definition stream_safe (cdf : CdfRaw) (C : Z) (is_key : bool) (input : Z → float) : bool :=
  match quantize_from_bins_raw (if is_key then make_key_bins_cpp 1 else make_value_bins_cpp 1) 1
          TOKENS_PER_CHUNK C input with
  | Ok r => forallb (λ j, forallb (λ c,
      channel_safe (λ b, cdf.(cdf_data) (cdf.(bins_p1) * c + b)) cdf.(bins_p1)
        (channel_symbols (λ i, r.(qr_q) (C * (16 * j) + i)) C MAX_TOKENS_PER_CHUNK c))
      (seqZ 0 C)) (seqZ 0 n_bs_per_raw)
  | _ => false
  end.

(** A table of 32 bins. *)
Record table_ok (cdf : CdfRaw) (C : Z) : Prop := TableOk {
  tb_bins : cdf.(bins_p1) = 33;
  tb_rows : ∀ c, 0 <= c < C → row_ok (λ b, cdf.(cdf_data) (33 * c + b)) 33 }.

Lemma one_layer_bins (is_key : bool) : (if is_key then make_key_bins_cpp 1 else make_value_bins_cpp 1) = [32].
Proof. by destruct is_key. Qed.

Lemma bins_32 l : 0 <= l < 1 → nth (Z.to_nat l) [32] 0 = 32.
Proof. intros Hl. by replace l with 0 by lia. Qed.

Lemma is_code_symbol m x n : is_code m x n → symbol_ok 33 n ∧ code_ok 32 n.
Proof. intros [Hn _]. unfold symbol_ok, code_ok. lia. Qed.

Section chunk.
Context (C : Z).
Hypothesis C_ok : 0 < C ∧ 35 * C < 65536.

(** What [quantize_from_bins_raw] makes of a chunk. *)
Lemma quantize_chunk_ok (input : Z → float) : (∀ i, 0 <= i < 256 * C → moderate (input i)) →
  ∃ r, quantize_from_bins_raw [32] 1 TOKENS_PER_CHUNK C input = Ok r ∧
    ∀ i, 0 <= i < 256 * C → is_code (acc_max (chunk_row input C (i / C))) (input i) (r.(qr_q) i).
Proof.
  intros Hin. unfold quantize_from_bins_raw, TOKENS_PER_CHUNK.
  destruct (quantize_tokens_ok (λ l t c, input (l * (C * 256) + t * C + c)) [32] 1 256 C) as (r & -> & Hr);
    [lia|lia|lia|apply bins_32| |].
  { intros l t c Hl Ht Hc. apply Hin. nia. }
  exists r. split; [done|]. intros i Hi.
  pose proof (Z.div_mod i C ltac:(lia)) as Hd. pose proof (Z.mod_pos_bound i C ltac:(lia)) as Hm.
  assert (0 <= i / C < 256) as Ht by (split; [apply Z.div_pos; lia|apply Z.div_lt_upper_bound; lia]).
  destruct (Hr (i / C) ltac:(lia)) as [_ Hc]. specialize (Hc (i mod C) Hm).
  unfold token_row in Hc. rewrite (Z.div_small (i / C) 256), (Z.mod_small (i / C) 256) in Hc by lia.
  replace (i / C * C + i mod C) with i in Hc by lia.
  replace (0 * (C * 256) + i / C * C + i mod C) with i in Hc by lia.
  unfold chunk_row. rewrite Z.mul_0_l in Hc.
  erewrite (list_fmap_ext (λ c, input (i / C * C + c))); [exact Hc|]. intros k c _. reflexivity.
Qed.

(** What [encode_meta_function_new] makes of the chunks of a tensor. *)
Lemma meta_stream_ok (chunks : Z → Z → float) nchunks : 0 < nchunks < 256 →
  (∀ ch i, 0 <= ch < nchunks → 0 <= i < 256 * C → moderate (chunks ch i)) →
  ∃ r cdf, quantize_from_bins_raw_chunked [32] 1 (nchunks * 256) C chunks = Ok r ∧
    cdf_calculate_cpu r.(qr_q) 1 (nchunks * 256) C 32 = Ok cdf ∧ table_ok cdf C ∧
    ∀ ch t, 0 <= ch < nchunks → 0 <= t < 256 →
      r.(qr_max1) (ch * 256 + t) = acc_max (chunk_row (chunks ch) C t).
Proof.
  intros Hn Hin. unfold quantize_from_bins_raw_chunked, load_from_chunks, TOKENS_PER_CHUNK.
  set (T := nchunks * 256).
  destruct (quantize_tokens_ok (λ _ t c, chunks (t / 256) (c + C * (t mod 256))) [32] 1 T C)
    as (r & -> & Hr); [lia|lia|lia|apply bins_32| |].
  { intros l t c _ Ht Hc. pose proof (Z.mod_pos_bound t 256 ltac:(lia)). apply Hin; [|nia].
    split; [apply Z.div_pos; lia|apply Z.div_lt_upper_bound; lia]. }
  assert (∀ i, 0 <= i < 1 * T * C → code_ok 32 (r.(qr_q) i)) as Hcodes.
  { intros i Hi. pose proof (Z.div_mod i C ltac:(lia)). pose proof (Z.mod_pos_bound i C ltac:(lia)).
    assert (0 <= i / C < T) by (split; [apply Z.div_pos; lia|apply Z.div_lt_upper_bound; lia]).
    destruct (Hr (i / C) ltac:(lia)) as [_ Hc]. specialize (Hc (i mod C) ltac:(lia)).
    replace (i / C * C + i mod C) with i in Hc by lia. by apply is_code_symbol in Hc as []. }
  destruct (cdf_calculate_ok r.(qr_q) 1 T C 32) as (cdf & He & Hp & _ & Hd); [lia|lia|exact Hcodes|].
  exists r, cdf. split; [done|split; [done|split]].
  - split; [by rewrite Hp|]. intros c Hc.
    apply (scaled_row_ok 32 (channel_codes r.(qr_q) T C c)); [lia| |unfold channel_codes; rewrite length_seqZ_map; lia|].
    + apply (channel_codes_ok r.(qr_q) 1 T C 32); [lia|exact Hcodes|lia].
    + intros b Hb. apply Hd; lia.
  - intros ch t Hch Ht. destruct (Hr (ch * 256 + t)) as [-> _]; [unfold T; lia|].
    unfold token_row, chunk_row. f_equal. apply list_fmap_ext. intros k c _.
    rewrite (Z.mod_small (ch * 256 + t) T) by (unfold T; lia).
    rewrite (Z.mul_comm ch), layout_div, layout_mod by lia. f_equal. lia.
Qed.

(** A chunk's largest magnitudes are below any bound on its values. *)
Lemma acc_max_le (input : Z → float) (t : Z) (A : R) : (∀ i, 0 <= i < 256 * C → moderate (input i)) → 0 <= t < 256 →
  (∀ c, 0 <= c < C → (Rabs (val (input (t * C + c)%Z)) <= A)%R) → (val (acc_max (chunk_row input C t)) <= A)%R.
Proof.
  intros Hin Ht HA.
  assert (Forall half_shape (chunk_row input C t)) as Hh.
  { apply Forall_fmap, Forall_forall. intros c Hc%elem_of_seqZ. apply (Hin (t * C + c)). nia. }
  destruct (im_attained _ _ (acc_max_is_max _ Hh)) as [->|(x & Hx & ->)].
  - etransitivity; [apply Rabs_pos|apply (HA 0); lia].
  - apply list_elem_of_fmap in Hx as (c & -> & Hc%elem_of_seqZ). apply HA. lia.
Qed.

(** One chunk: its codes, and what is decoded with any maxima. *)
Lemma chunk_decodes (cdf : CdfRaw) (input : Z → float) is_key :
  table_ok cdf C → (∀ i, 0 <= i < 256 * C → moderate (input i)) → stream_safe cdf C is_key input = true →
  ∃ (q : Z → Z) e, encode_function_new input C is_key cdf = Ok e ∧
    (∀ i, 0 <= i < 256 * C → is_code (acc_max (chunk_row input C (i / C))) (input i) (q i)) ∧
    ∀ rest m_base,
    ((256 <= length m_base)%nat → ∃ out,
      decode_function_new (e.(en_output) ++ rest) C e.(lengths_arr) cdf m_base e.(byte_sums_arr) = Ok out ∧
      ∀ i, 0 <= i < 256 * C → ∃ C_vec c,
        out i = dequantize_cell 15 C_vec (step16 (nth (Z.to_nat (i / C)) m_base f32_zero)) c (q i)) ∧
    (m_base = [] →
      decode_function_new (e.(en_output) ++ rest) C e.(lengths_arr) cdf m_base e.(byte_sums_arr) = Ub).
Proof.
  intros [Hp Hrows] Hin Hsafe. unfold stream_safe in Hsafe. unfold encode_function_new.
  rewrite one_layer_bins in *. destruct (quantize_chunk_ok input Hin) as (r & Hq & Hcode).
  rewrite Hq in *. cbn [obind]. rewrite forallb_forall in Hsafe.
  destruct (encode_one_stream_ok cdf C r.(qr_q) C_ok (Z.to_nat n_bs_per_raw) 0 ltac:(lia))
    as (e & -> & Hl & Hb & Hdec & Hdec0).
  { intros j Hj. change (Z.of_nat (Z.to_nat n_bs_per_raw)) with 16 in Hj.
    assert (j ∈ seqZ 0 n_bs_per_raw) as Hjin by (apply elem_of_seqZ; change n_bs_per_raw with 16; lia).
    specialize (Hsafe j (proj1 (list_elem_of_In _ _) Hjin)). rewrite forallb_forall in Hsafe.
    rewrite Hp. split.
    - intros c Hc. apply Hrows, Hc.
    - intros i Hi. apply (is_code_symbol _ _ _ (Hcode (C * (0 + 16 * j) + i) ltac:(nia))).
    - intros c Hc. assert (c ∈ seqZ 0 C) as Hcin by (apply elem_of_seqZ; lia).
      specialize (Hsafe c (proj1 (list_elem_of_In _ _) Hcin)). by rewrite Hp in Hsafe. }
  exists r.(qr_q), e. split; [done|split; [exact Hcode|]]. intros rest m_base.
  change (Z.to_nat n_bs_per_raw) with 16%nat in *.
  unfold decode_function_new. change (Z.to_nat n_bs_per_raw) with 16%nat.
  rewrite !take_ge by lia. split; [|intros ->; by rewrite Hdec0 by lia].
  intros Hlen. destruct (Hdec rest m_base ltac:(lia)) as (outs & -> & Houts). cbn [obind].
  eexists. split; [done|]. intros i Hi. cbv beta.
  unfold MAX_TOKENS_PER_CHUNK. set (sub := 16 * C).
  pose proof (Z.div_mod i sub ltac:(lia)) as Hdm. pose proof (Z.mod_pos_bound i sub ltac:(lia)) as Hm.
  assert (0 <= i / sub < 16) as Hj by (split; [apply Z.div_pos; lia|apply Z.div_lt_upper_bound; lia]).
  rewrite Houts by lia. set (j := i / sub) in *. set (k := i mod sub) in *.
  assert (0 <= k / C < 16) as Hk by (split; [apply Z.div_pos; lia|apply Z.div_lt_upper_bound; lia]).
  assert (i / C = 16 * j + k / C) as Hic.
  { replace i with (k + 16 * j * C) by lia. rewrite Z.div_add by lia. lia. }
  unfold dequantize_cpu_into_new_neon. rewrite Hp. change (Z.quot (33 - 1) 2 - 1) with 15.
  change (15 <=? 0) with false. cbv iota. rewrite nth_skipn.
  replace (Z.to_nat (16 * j) + Z.to_nat (k / C))%nat with (Z.to_nat (i / C)) by lia.
  replace (C * (0 + 16 * j) + k) with i by lia. by do 2 eexists.
Qed.

(** Decoded with the maxima of its tokens. *)
Lemma chunk_near (input : Z → float) m_base (q : Z → Z) i C_vec c : (∀ i, 0 <= i < 256 * C → moderate (input i)) →
  0 <= i < 256 * C → is_code (acc_max (chunk_row input C (i / C))) (input i) (q i) →
  nth (Z.to_nat (i / C)) m_base f32_zero = acc_max (chunk_row input C (i / C)) →
  (Rabs (val (dequantize_cell 15 C_vec (step16 (nth (Z.to_nat (i / C)%Z) m_base f32_zero)) c (q i)) - val (input i))
    <= val (acc_max (chunk_row input C (i / C)%Z)) / 29 + / 1048576)%R.
Proof.
  intros Hin Hi [Hn Herr] ->.
  assert (Forall moderate (chunk_row input C (i / C))) as Hmod.
  { apply Forall_fmap, Forall_forall. intros c' Hc%elem_of_seqZ. apply Hin.
    assert (0 <= i / C < 256) by (split; [apply Z.div_pos; lia|apply Z.div_lt_upper_bound; lia]). nia. }
  assert (Forall half_shape (chunk_row input C (i / C))) as Hh by (eapply Forall_impl; [exact Hmod|by intros x []]).
  pose proof (acc_max_is_max _ Hh) as Hmx. destruct (is_max_range _ _ Hmod Hmx) as [Hle _].
  pose proof (im_nonneg _ _ Hmx).
  apply (dequantize_near (acc_max (chunk_row input C (i / C))) (q i) (input i));
    [apply Hmx|lra| |exact Hn|exact Herr].
  apply (im_bound _ _ Hmx). apply list_elem_of_fmap. exists (i mod C).
  pose proof (Z.mod_pos_bound i C ltac:(lia)). pose proof (Z.div_mod i C ltac:(lia)).
  split; [f_equal; lia|apply elem_of_seqZ; lia].
Qed.

(** What a tensor's stream of the metadata is. *)
Lemma max_of_chunk (max1 : Z → float) nchunks ch t : 0 <= ch < nchunks → 0 <= t < 256 →
  nth (Z.to_nat t) (drop (Z.to_nat (ch * 256)) (max1 <$> seqZ 0 (nchunks * 256))) f32_zero = max1 (ch * 256 + t).
Proof.
  intros Hch Ht. rewrite nth_skipn. rewrite <- Z2Nat.inj_add by lia. by rewrite nth_seqZ_map by lia.
Qed.
End chunk.

(** C24: CACHEGEN is accurate where its range coder is safe.  For every number of
    chunks below 256 - the tables wrap around at 65536 tokens - every content of
    finite values of magnitude at most 2^14, and keys as well as values:
    [encode_meta_function_new] succeeds, and every chunk whose streams are safe is
    encoded, and decoded with the maxima of its tokens, whatever follows its bytes,
    to values that are off by at most a 29th of the largest magnitude of their
    token and 2^-20; nothing is read or written out of range and no NaN is cast. *)
Theorem cachegen_accuracy (is_key : bool) (k_chunks v_chunks : Z → Z → float) (nchunks C : Z) :
  0 < C → 35 * C < 65536 → 0 < nchunks < 256 →
  (∀ ch i, 0 <= ch < nchunks → 0 <= i < 256 * C → moderate (k_chunks ch i) ∧ moderate (v_chunks ch i)) →
  ∃ m, encode_meta_function_new k_chunks v_chunks (nchunks * 256) C = Ok m ∧
    let chunks := if is_key then k_chunks else v_chunks in
    let cdf := if is_key then m.(cdf_key) else m.(cdf_value) in
    let maxima := if is_key then m.(max_key) else m.(max_value) in
    ∀ ch, 0 <= ch < nchunks → stream_safe cdf C is_key (chunks ch) = true →
    ∃ e, encode_function_new (chunks ch) C is_key cdf = Ok e ∧ ∀ rest, ∃ out,
      decode_function_new (e.(en_output) ++ rest) C e.(lengths_arr) cdf
        (drop (Z.to_nat (ch * TOKENS_PER_CHUNK)) maxima) e.(byte_sums_arr) = Ok out ∧
      ∀ (t c : Z) (A : R), 0 <= t < TOKENS_PER_CHUNK → 0 <= c < C →
        (∀ c', 0 <= c' < C → (Rabs (val (chunks ch (t * C + c')%Z)) <= A)%R) →
        (Rabs (val (out (t * C + c)%Z) - val (chunks ch (t * C + c)%Z)) <= A / 29 + / 1048576)%R.
Proof.
  intros HC H35 Hn Hin. unfold encode_meta_function_new.
  change (make_key_bins_cpp 1) with [32]. change (make_value_bins_cpp 1) with [32]. cbn [nth].
  destruct (meta_stream_ok C (conj HC H35) k_chunks nchunks Hn) as (rk & ck & -> & Hck & Tk & Mk);
    [intros; by apply Hin|].
  destruct (meta_stream_ok C (conj HC H35) v_chunks nchunks Hn) as (rv & cv & -> & Hcv & Tv & Mv);
    [intros; by apply Hin|].
  cbn [obind]. rewrite Hck. cbn [obind]. rewrite Hcv. cbn [obind]. eexists. split; [done|].
  cbn [cdf_key cdf_value max_key max_value]. cbv zeta. intros ch Hch Hsafe. unfold TOKENS_PER_CHUNK.
  set (max1 := if is_key then rk.(qr_max1) else rv.(qr_max1)).
  assert ((if is_key then rk.(qr_max1) <$> seqZ 0 (nchunks * 256) else rv.(qr_max1) <$> seqZ 0 (nchunks * 256))
    = max1 <$> seqZ 0 (nchunks * 256)) as -> by (by destruct is_key).
  assert (∀ i, 0 <= i < 256 * C → moderate ((if is_key then k_chunks else v_chunks) ch i)) as Hmod
    by (intros i Hi; destruct is_key; by apply Hin).
  destruct (chunk_decodes C (conj HC H35) (if is_key then ck else cv) ((if is_key then k_chunks else v_chunks) ch)
    is_key) as (q & e & He & Hq & Hdec); [by destruct is_key|exact Hmod|exact Hsafe|].
  exists e. split; [done|]. intros rest.
  destruct (Hdec rest (drop (Z.to_nat (ch * 256)) (max1 <$> seqZ 0 (nchunks * 256)))) as [Hok _].
  destruct Hok as (out & Ho & Hout); [rewrite length_drop, length_fmap, length_seqZ; lia|].
  exists out. split; [done|]. intros t c A Ht Hc HA. assert (0 <= t * C + c < 256 * C) as Hi by nia.
  destruct (Hout (t * C + c) Hi) as (C_vec & c' & Hv).
  pose proof (chunk_near C (conj HC H35) _ (drop (Z.to_nat (ch * 256)) (max1 <$> seqZ 0 (nchunks * 256)))
    q (t * C + c) C_vec c' Hmod Hi (Hq _ Hi)) as Hb. rewrite <- Hv in Hb.
  assert ((t * C + c) / C = t) as Htc by (rewrite (Z.mul_comm t); by apply layout_div). rewrite Htc in Hb.
  specialize (Hb ltac:(rewrite max_of_chunk by done; unfold max1; destruct is_key; [by apply Mk|by apply Mv])).
  pose proof (acc_max_le C (conj HC H35) _ t A Hmod Ht HA). lra.
Qed.
