(* ===== verification/CachegenExample.v ===== *)
(** The CACHEGEN backend on concrete caches: the theorems applied, a token its
    range coder loses, and metadata that have gone stale. *)
From Stdlib Require Import Reals Lra.
From S2P Require Import Prelude Floats FloatReal KvTypes FlexgenError FlexgenCodec FlexgenBound.
From S2P Require Import RangeCoder RangeCoderThms RangeCoderRound.
From S2P Require Import Cachegen CachegenThms CachegenError CachegenCodec.

(** One chunk per tensor, keys and values alike, through the backend and back. *)
Definition one_chunk (C : Z) (x : Z → float) : outcome (list float) :=
  m <~ encode_meta_function_new (λ _, x) (λ _, x) TOKENS_PER_CHUNK C ;;
  e <~ encode_function_new x C true m.(cdf_key) ;;
  out <~ decode_function_new e.(en_output) C e.(lengths_arr) m.(cdf_key) m.(max_key) e.(byte_sums_arr) ;;
  Ok (out <$> seqZ 0 (TOKENS_PER_CHUNK * C)).

(** A channel that holds 1 in its first 160 tokens, and 0 in the others. *)
Definition step_channel (i : Z) : float := if i <? 160 then f16_of_Z 1 else S754_zero false.


(** ** Stale metadata *)

Lemma acc_max_zeros row : Forall (λ x, x = S754_zero false) row → acc_max row = f32_zero.
Proof. unfold acc_max. induction 1 as [|x row -> _ IH]; [reflexivity|]. exact IH. Qed.

Lemma val_is_zero x : is_zero x = true → val x = 0%R.
Proof. destruct x; try discriminate. reflexivity. Qed.

Lemma dequantize_zero C_vec c n : 0 <= n <= 30 →
  val (dequantize_cell 15 C_vec (step16 f32_zero) c n) = 0%R.
Proof.
  intros Hn. assert (n ∈ seqZ 0 31) as Hin by (apply elem_of_seqZ; lia).
  assert (forallb (λ n, is_zero (dequantize_cell 15 1 (step16 f32_zero) 0 n) &&
    is_zero (dequantize_cell 15 0 (step16 f32_zero) 0 n)) (seqZ 0 31) = true) as Hall
    by (vm_compute; reflexivity).
  rewrite forallb_forall in Hall. specialize (Hall n (proj1 (list_elem_of_In _ _) Hin)).
  apply andb_prop in Hall as [H1 H2].
  assert (is_zero (dequantize_cell 15 C_vec (step16 f32_zero) c n) = true) as Hz
    by (unfold dequantize_cell in *; destruct (c <? C_vec); assumption).
  by apply val_is_zero.
Qed.

Lemma zero_moderate : moderate (S754_zero false).
Proof. split; [exact I|]. cbn [val]. rewrite Rabs_R0. lra. Qed.

(** C40: The metadata of the CACHEGEN backend are computed when the KV state is
    constructed, and never again: encoding takes the maxima of the tokens as they
    are, decoding those of the construction.  Whatever is written to a cache that
    was empty when its core was constructed - a chat's - is decoded as zeros after a
    swap-out, even where the range coder is safe; and for a chunk the cache has
    grown by since, decoding reads past the vector of maxima. *)
Theorem stale_metadata (C nchunks : Z) (input : Z → float) :
  0 < C → 35 * C < 65536 → 0 < nchunks < 256 → (∀ i, 0 <= i < 256 * C → moderate (input i)) →
  ∃ m, encode_meta_function_new (λ _ _, S754_zero false) (λ _ _, S754_zero false) (nchunks * 256) C = Ok m ∧
    (stream_safe m.(cdf_key) C true input = true →
     ∃ e, encode_function_new input C true m.(cdf_key) = Ok e ∧ ∀ ch rest, 0 <= ch →
      let r := decode_function_new (e.(en_output) ++ rest) C e.(lengths_arr) m.(cdf_key)
                 (drop (Z.to_nat (ch * TOKENS_PER_CHUNK)) m.(max_key)) e.(byte_sums_arr) in
      (ch < nchunks → ∃ out, r = Ok out ∧ ∀ i, 0 <= i < 256 * C → val (out i) = 0%R) ∧
      (nchunks <= ch → r = Ub)).
Proof.
  intros HC H35 Hn Hin. unfold encode_meta_function_new.
  change (make_key_bins_cpp 1) with [32]. change (make_value_bins_cpp 1) with [32]. cbn [nth].
  destruct (meta_stream_ok C (conj HC H35) (λ _ _, S754_zero false) nchunks Hn) as (r & cdf & -> & Hcdf & Tk & Mk);
    [intros; exact zero_moderate|].
  cbn [obind]. rewrite Hcdf. cbn [obind]. eexists. split; [reflexivity|]. cbn [cdf_key max_key].
  intros Hsafe. destruct (chunk_decodes C (conj HC H35) cdf input true Tk Hin Hsafe) as (q & e & He & Hq & Hdec).
  exists e. split; [exact He|]. intros ch rest Hch. cbv zeta. unfold TOKENS_PER_CHUNK.
  destruct (Hdec rest (drop (Z.to_nat (ch * 256)) (r.(qr_max1) <$> seqZ 0 (nchunks * 256)))) as [Hok Hub].
  split; intros Hlt.
  - destruct Hok as (out & Ho & Hout); [rewrite length_drop, length_fmap, length_seqZ; lia|].
    exists out. split; [exact Ho|]. intros i Hi. destruct (Hout i Hi) as (C_vec & c & ->).
    assert (0 <= i / C < 256) as Ht by (split; [apply Z.div_pos; lia|apply Z.div_lt_upper_bound; lia]).
    rewrite max_of_chunk, Mk by lia. rewrite acc_max_zeros.
    + apply dequantize_zero. apply (Hq i Hi).
    + apply Forall_fmap, Forall_forall. intros c' _. reflexivity.
  - apply Hub. apply drop_ge. rewrite length_fmap, length_seqZ. lia.
Qed.

(** ** The theorems applied *)

(** A chunk with five values. *)
Definition wave (ch i : Z) : float := f16_of_Z ((i * 7 + ch) mod 5 - 2).

Lemma wave_moderate ch i : moderate (wave ch i).
Proof.
  unfold wave. pose proof (Z.mod_pos_bound (i * 7 + ch) 5 ltac:(lia)) as Hm.
  set (k := (i * 7 + ch) mod 5 - 2) in *. destruct (f16_small k ltac:(lia)) as (Hf & Hv & _). split.
  - apply canonical_half; [exact Hf|]. by apply (binary_normalize_canonical 11 16 ltac:(lia)).
  - rewrite Hv. assert (-2 <= IZR k <= 2)%R by (split; apply IZR_le; lia). apply Rabs_le. lra.
Qed.

Lemma wave_bound ch i : (Rabs (val (wave ch i)) <= 2)%R.
Proof.
  unfold wave. pose proof (Z.mod_pos_bound (i * 7 + ch) 5 ltac:(lia)) as Hm.
  set (k := (i * 7 + ch) mod 5 - 2) in *. destruct (f16_small k ltac:(lia)) as (_ & Hv & _).
  rewrite Hv. assert (-2 <= IZR k <= 2)%R by (split; apply IZR_le; lia). apply Rabs_le. lra.
Qed.

(** What a computation says of the value it is known to return. *)
Lemma computed {A} (c : outcome A) (P : A → bool) m :
  match c with Ok m => P m | _ => false end = true → c = Ok m → P m = true.
Proof. by intros H ->. Qed.

Lemma zero_table_safe m :
  encode_meta_function_new (λ _ _, S754_zero false) (λ _ _, S754_zero false) (1 * 256) 1 = Ok m →
  stream_safe m.(cdf_key) 1 true (wave 0) = true.
Proof.
  apply (computed (encode_meta_function_new (λ _ _, S754_zero false) (λ _ _, S754_zero false) (1 * 256) 1)
    (λ m, stream_safe m.(cdf_key) 1 true (wave 0))). vm_compute. reflexivity.
Qed.

Lemma wave_table_safe m : encode_meta_function_new wave wave (2 * 256) 2 = Ok m →
  stream_safe m.(cdf_value) 2 false (wave 1) = true.
Proof.
  apply (computed (encode_meta_function_new wave wave (2 * 256) 2)
    (λ m, stream_safe m.(cdf_value) 2 false (wave 1))). vm_compute. reflexivity.
Qed.

Definition small_table (i : Z) : Z := nth (Z.to_nat (i mod 4)) [0; 20000; 40000; 65000] 0.

Lemma small_table_ok : chunk_ok small_table 2 4 (λ i, i mod 3).
Proof.
  split.
  - intros c Hc. assert (c = 0 ∨ c = 1) as [->| ->] by lia.
    all: split; [lia|reflexivity| |reflexivity]; intros b Hb; assert (b = 0 ∨ b = 1) as [->| ->] by lia; reflexivity.
  - intros i _. unfold symbol_ok. pose proof (Z.mod_pos_bound i 3 ltac:(lia)). lia.
  - intros c Hc. assert (c = 0 ∨ c = 1) as [->| ->] by lia; vm_compute; reflexivity.
Qed.

Lemma range_coder_roundtrip_witness : 0 < 2 ∧ chunk_ok small_table 2 4 (λ i, i mod 3) ∧
  ∃ bytes lengths,
    encode_ntokens_cpu_new_range small_table 2 4 (λ i, i mod 3) MAX_TOKENS_PER_CHUNK = Ok (bytes, lengths) ∧
    ∀ rest, ∃ out, decode_ntokens_cpu_new_range small_table 2 4 (bytes ++ rest) lengths = Ok out ∧
      ∀ i, 0 <= i < MAX_TOKENS_PER_CHUNK * 2 → out i = i mod 3.
Proof.
  split; [lia|split; [exact small_table_ok|]].
  destruct (range_coder_roundtrip small_table 2 4 (λ i, i mod 3) ltac:(lia) small_table_ok)
    as (bytes & lengths & He & _ & _ & Hd).
  exists bytes, lengths. split; [exact He|exact Hd].
Defined.

Lemma cdf_calculate_spec_witness : 0 < 1 ∧ 0 < 256 < 65536 ∧ 0 < 2 ∧ 2 <= 32 <= 128 ∧
  (∀ i, 0 <= i < 1 * 256 * 2 → code_ok 32 (i mod 31)) ∧
  ∃ cdf, cdf_calculate_cpu (λ i, i mod 31) 1 256 2 32 = Ok cdf ∧ row_ok (λ b, cdf.(cdf_data) (cdf.(bins_p1) * 1 + b)) cdf.(bins_p1).
Proof.
  assert (∀ i, 0 <= i < 1 * 256 * 2 → code_ok 32 (i mod 31)) as Hq.
  { intros i _. unfold code_ok. pose proof (Z.mod_pos_bound i 31 ltac:(lia)). lia. }
  split; [lia|split; [lia|split; [lia|split; [lia|split; [exact Hq|]]]]].
  destruct (cdf_calculate_spec (λ i, i mod 31) 1 256 2 32 ltac:(lia) ltac:(lia) ltac:(lia) ltac:(lia) Hq)
    as (cdf & He & _ & Hr).
  exists cdf. split; [exact He|]. apply (Hr 1). lia.
Defined.

Lemma stale_metadata_witness : 0 < 1 ∧ 35 * 1 < 65536 ∧ 0 < 1 < 256 ∧
  (∀ i, 0 <= i < 256 * 1 → moderate (wave 0 i)) ∧
  ∃ m, encode_meta_function_new (λ _ _, S754_zero false) (λ _ _, S754_zero false) (1 * 256) 1 = Ok m ∧
    stream_safe m.(cdf_key) 1 true (wave 0) = true ∧
    ∃ e out, encode_function_new (wave 0) 1 true m.(cdf_key) = Ok e ∧
      decode_function_new (e.(en_output) ++ []) 1 e.(lengths_arr) m.(cdf_key)
        (drop (Z.to_nat (0 * TOKENS_PER_CHUNK)) m.(max_key)) e.(byte_sums_arr) = Ok out ∧
      ∀ i, 0 <= i < 256 * 1 → val (out i) = 0%R.
Proof.
  assert (∀ i, 0 <= i < 256 * 1 → moderate (wave 0 i)) as Hw by (intros i _; apply wave_moderate).
  split; [lia|split; [lia|split; [lia|split; [exact Hw|]]]].
  destruct (stale_metadata 1 1 (wave 0) ltac:(lia) ltac:(lia) ltac:(lia) Hw) as (m & Hm & H).
  exists m. split; [exact Hm|]. pose proof (zero_table_safe m Hm) as Hs. split; [exact Hs|].
  destruct (H Hs) as (e & He & Hd). destruct (Hd 0 [] ltac:(lia)) as [Hok _].
  destruct (Hok ltac:(lia)) as (out & Ho & Hz). exists e, out. split; [exact He|split; [exact Ho|exact Hz]].
Defined.

Lemma cachegen_accuracy_witness : 0 < 2 ∧ 35 * 2 < 65536 ∧ 0 < 2 < 256 ∧
  (∀ ch i, 0 <= ch < 2 → 0 <= i < 256 * 2 → moderate (wave ch i) ∧ moderate (wave ch i)) ∧
  ∃ m, encode_meta_function_new wave wave (2 * 256) 2 = Ok m ∧
    stream_safe m.(cdf_value) 2 false (wave 1) = true ∧
    ∃ e out, encode_function_new (wave 1) 2 false m.(cdf_value) = Ok e ∧
      decode_function_new (e.(en_output) ++ []) 2 e.(lengths_arr) m.(cdf_value)
        (drop (Z.to_nat (1 * TOKENS_PER_CHUNK)) m.(max_value)) e.(byte_sums_arr) = Ok out ∧
      (Rabs (val (out (7 * 2 + 1)%Z) - val (wave 1 (7 * 2 + 1))) <= 2 / 29 + / 1048576)%R.
Proof.
  assert (∀ ch i, 0 <= ch < 2 → 0 <= i < 256 * 2 → moderate (wave ch i) ∧ moderate (wave ch i)) as Hw
    by (intros; split; apply wave_moderate).
  split; [lia|split; [lia|split; [lia|split; [exact Hw|]]]].
  destruct (cachegen_accuracy false wave wave 2 2 ltac:(lia) ltac:(lia) ltac:(lia) Hw) as (m & Hm & H).
  exists m. split; [exact Hm|]. pose proof (wave_table_safe m Hm) as Hs. split; [exact Hs|].
  destruct (H 1 ltac:(lia) Hs) as (e & He & Hd). destruct (Hd []) as (out & Ho & Hb).
  exists e, out. split; [exact He|split; [exact Ho|]].
  apply (Hb 7 1 2%R); [unfold TOKENS_PER_CHUNK; lia|lia|].
  intros c Hc. apply wave_bound.
Defined.
