(* ===== verification/KvOps.v ===== *)
(** Chunk-wise KV I/O and chunk creation: [mzcache/src/mzcache_kv_ops.cpp].

    A stream is the list of bytes written so far, or still to be read; reading
    past its end throws, as the buffers and files of llama.cpp do.  The second
    half of the file relates the chunked layout to a flat tensor of rows. *)
From S2P Require Import Prelude Floats KvTypes KvLadder KvInv KvFrame.

(** ** Streams *)

(** [llama_io_read_i::read]. *)
Definition io_read (n : Z) (io : list byte) : outcome (list byte * list byte) :=
  if Z.of_nat (length io) <? n then Throw else Ok (take (Z.to_nat n) io, drop (Z.to_nat n) io).

(** [io.write(&x, k)] of an integer writes its [k] little-endian bytes;
    [io.read_to] reads them back as an unsigned one. *)
Definition le_bytes (k x : Z) : list byte := (λ i, x / 2 ^ (8 * i) mod 2 ^ 8) <$> seqZ 0 k.
Fixpoint le_value (l : list byte) : Z :=
  match l with [] => 0 | b :: l => b + 2 ^ 8 * le_value l end.
Definition io_read_le (k : Z) (io : list byte) : outcome (Z * list byte) :=
  '(d, io') <~ io_read k io ;; Ok (le_value d, io').

(** ** The tables *)

(** [g_svm_chunk_ptrs[slot]->c[ci]]: slot [2 * il] is layer [il]'s K table,
    [2 * il + 1] its V table; an index past the array is undefined. *)
Definition svm_chunk_ptr (m : memory) (slot ci : Z) : outcome ptr :=
  if (0 <=? ci) && (ci <? MAX_CHUNKS_PER_TENSOR) then
    Ok (if Z.even slot then m.(svm_k) (slot / 2, ci) else m.(svm_v) (slot / 2, ci))
  else Ub.

Definition ptr_add (p : ptr) (n : Z) : ptr := '(b, o) ← p; Some (b, o + n).

Section kv_ops.
Context `{Ev : Env}.

(** ** Writing ranges of rows *)

(** Bytes of chunk [ci] that belong to the range, as offset and count; [int64_t]
    times [uint64_t] is [uint64_t]. *)
Definition write_span (size_row start_token end_token first_chunk last_chunk ci : Z) : Z * Z :=
  let full_chunk_bytes := u64 (TOKENS_PER_CHUNK * size_row) in
  let head_bytes := u64 (Z.rem start_token TOKENS_PER_CHUNK * size_row) in
  if first_chunk =? last_chunk then (head_bytes, u64 ((end_token - start_token) * size_row))
  else if ci =? first_chunk then (head_bytes, u64 (full_chunk_bytes - head_bytes))
  else if ci =? last_chunk then (0, u64 ((end_token - last_chunk * TOKENS_PER_CHUNK) * size_row))
  else (0, full_chunk_bytes).

(** One iteration of the inner loop of [chunk_write]. *)
Definition chunk_write_at (slot size_row start_token end_token first_chunk last_chunk : Z) (m : memory)
    (ci : Z) (io : list byte) : outcome (list byte) :=
  p <~ svm_chunk_ptr m slot ci ;;
  let '(offset_bytes, bytes_to_write) :=
    write_span size_row start_token end_token first_chunk last_chunk ci in
  if bytes_to_write =? 0 then Ok io
  else d <~ load (ptr_add p offset_bytes) bytes_to_write m ;; Ok (io ++ d).

Definition chunk_write_range (slot size_row : Z) (m : memory) (range : Z * Z) (io : list byte)
    : outcome (list byte) :=
  let '(start_token, end_token) := range in
  if end_token <=? start_token then Ok io
  else
    let first_chunk := Z.quot start_token TOKENS_PER_CHUNK in
    let last_chunk := Z.quot (end_token - 1) TOKENS_PER_CHUNK in
    ofold (chunk_write_at slot size_row start_token end_token first_chunk last_chunk m)
      (seqZ first_chunk (last_chunk - first_chunk + 1)) io.

Definition chunk_write (slot size_row : Z) (cell_ranges : list (Z * Z)) (m : memory) (io : list byte)
    : outcome (list byte) :=
  ofold (chunk_write_range slot size_row m) cell_ranges io.

(** ** Reading rows into [head, head + cell_count) *)
Definition read_span (size_row cell_count start_token end_token first_chunk last_chunk ci : Z) : Z * Z :=
  let full_chunk_bytes := u64 (TOKENS_PER_CHUNK * size_row) in
  let head_bytes := u64 (Z.rem start_token TOKENS_PER_CHUNK * size_row) in
  if first_chunk =? last_chunk then (head_bytes, u64 (cell_count * size_row))
  else if ci =? first_chunk then (head_bytes, u64 (full_chunk_bytes - head_bytes))
  else if ci =? last_chunk then (0, u64 ((end_token - last_chunk * TOKENS_PER_CHUNK) * size_row))
  else (0, full_chunk_bytes).

(** One iteration of the loop of [chunk_read]: a null chunk throws. *)
Definition chunk_read_at (slot size_row cell_count start_token end_token first_chunk last_chunk : Z)
    (ci : Z) (st : list byte * memory) : outcome (list byte * memory) :=
  let '(io, m) := st in
  p <~ svm_chunk_ptr m slot ci ;;
  match p with
  | None => Throw
  | Some _ =>
      let '(offset_bytes, bytes_to_read) :=
        read_span size_row cell_count start_token end_token first_chunk last_chunk ci in
      '(data, io') <~ io_read bytes_to_read io ;;
      m' <~ store (ptr_add p offset_bytes) data m ;;
      Ok (io', m')
  end.

(** [head + cell_count] is [uint32_t] arithmetic. *)
Definition chunk_read (slot size_row cell_count head : Z) (io : list byte) (m : memory)
    : outcome (list byte * memory) :=
  let start_token := head in
  let end_token := u32 (head + cell_count) in
  let first_chunk := Z.quot start_token TOKENS_PER_CHUNK in
  let last_chunk := Z.quot (end_token - 1) TOKENS_PER_CHUNK in
  ofold (chunk_read_at slot size_row cell_count start_token end_token first_chunk last_chunk)
    (seqZ first_chunk (last_chunk - first_chunk + 1)) (io, m).

Definition state_write_k_chunked (il size_row : Z) (cell_ranges : list (Z * Z)) :=
  chunk_write (2 * il) size_row cell_ranges.
Definition state_write_v_chunked (il size_row : Z) (cell_ranges : list (Z * Z)) :=
  chunk_write (2 * il + 1) size_row cell_ranges.
Definition state_read_k_chunked (il size_row cell_count head : Z) :=
  chunk_read (2 * il) size_row cell_count head.
Definition state_read_v_chunked (il size_row cell_count head : Z) :=
  chunk_read (2 * il + 1) size_row cell_count head.

(** ** Growing a layer by one chunk

    [made] says which entries of [layers_k_chunks[il].c] are set.  The flag of
    the result is [false] when the function throws; the state it has reached is
    what the caller finds. *)
Definition publish_chunk (p : pos) (k v : ptr) (m : memory) : memory :=
  Memory m.(heap) m.(next_block) (<[p := k]> m.(svm_k)) (<[p := v]> m.(svm_v)) m.(arenas).

Definition grow_layer_chunk (il n_embd_k_gqa idx : Z) (st : (pos → bool) * memory)
    : outcome (bool * ((pos → bool) * memory)) :=
  let '(made, m) := st in
  if (idx =? 0) || (MAX_CHUNKS_PER_TENSOR <=? idx) then Ok (false, (made, m))
  else if made (il, idx) then Ok (true, (made, m))
  else
    let chunk_bytes := u64 (u64 (TOKENS_PER_CHUNK * n_embd_k_gqa) * sizeof_fp16) in
    if negb (svm_alloc_ok (il, idx)) then Ok (false, (made, m))
    else
      let '(b, m1) := svm_alloc (chunk_bytes * 2) m in
      m2 <~ store (Some (b, 0)) (replicate (Z.to_nat (chunk_bytes * 2)) 0) m1 ;;
      Ok (true, (<[(il, idx) := true]> made,
                 publish_chunk (il, idx) (Some (b, 0)) (Some (b, chunk_bytes)) m2)).
End kv_ops.
