(* ===== verification/KvOpsThms.v ===== *)
(** Chunked rows as a flat tensor: what [chunk_write] writes is what a
    contiguous tensor of the same rows would give, and [chunk_read] stores its
    bytes where that tensor has them ([mzcache/src/mzcache_kv_ops.cpp]). *)
From S2P Require Import Prelude Floats KvTypes KvLadder KvInv KvFrame KvOps.

(** ** Byte ranges *)

Lemma read_at_app_l o k (l l' : list byte) : 0 <= o → 0 <= k → o + k <= Z.of_nat (length l) →
  read_at o k (l ++ l') = read_at o k l.
Proof.
  intros. unfold read_at. rewrite drop_app_le by lia. apply take_app_le. rewrite length_drop. lia.
Qed.

Lemma read_at_app_r o k (l l' : list byte) : Z.of_nat (length l) <= o →
  read_at o k (l ++ l') = read_at (o - Z.of_nat (length l)) k l'.
Proof. intros. unfold read_at. rewrite drop_app_ge by lia. do 2 f_equal. lia. Qed.

Lemma read_at_join o k k' (l : list byte) : 0 <= o → 0 <= k → 0 <= k' →
  read_at o k l ++ read_at (o + k) k' l = read_at o (k + k') l.
Proof.
  intros. unfold read_at. rewrite !Z2Nat.inj_add by lia. rewrite <- drop_drop. apply take_take_drop.
Qed.

Lemma read_at_0 o (l : list byte) : read_at o 0 l = [].
Proof. done. Qed.

Lemma write_at_nil o (l : list byte) : write_at o [] l = l.
Proof. unfold write_at. cbn [length app]. rewrite Nat.add_0_r. apply take_drop. Qed.

Lemma write_at_app_l o d (l l' : list byte) : 0 <= o → o + Z.of_nat (length d) <= Z.of_nat (length l) →
  write_at o d (l ++ l') = write_at o d l ++ l'.
Proof.
  intros. unfold write_at. rewrite take_app_le by lia. rewrite drop_app_le by lia. by rewrite <- !app_assoc.
Qed.

Lemma write_at_app_r o d (l l' : list byte) : Z.of_nat (length l) <= o →
  write_at o d (l ++ l') = l ++ write_at (o - Z.of_nat (length l)) d l'.
Proof.
  intros. unfold write_at. rewrite take_app_ge by lia. rewrite drop_app_ge by lia.
  rewrite <- app_assoc. do 2 f_equal; [f_equal; lia|f_equal; f_equal; lia].
Qed.

Lemma write_at_join o d d' (l : list byte) : 0 <= o →
  o + Z.of_nat (length d) <= Z.of_nat (length l) →
  write_at (o + Z.of_nat (length d)) d' (write_at o d l) = write_at o (d ++ d') l.
Proof.
  intros Ho Hl. unfold write_at at 2. rewrite app_assoc.
  set (l1 := take (Z.to_nat o) l ++ d).
  assert (Hl1 : Z.of_nat (length l1) = o + Z.of_nat (length d)).
  { unfold l1. rewrite length_app, length_take. lia. }
  rewrite write_at_app_r by lia. rewrite Hl1, Z.sub_diag. unfold write_at, l1. cbn [Z.to_nat take app Nat.add].
  rewrite <- !app_assoc, drop_drop, length_app. change (Z.to_nat 0) with 0%nat. cbn [take app Nat.add].
  by rewrite Nat.add_assoc.
Qed.

(** ** Concatenations of equally long pieces *)
Lemma length_concat_const {A} (ls : list (list A)) len : Forall (λ c, length c = len) ls →
  length (concat ls) = (length ls * len)%nat.
Proof. induction 1 as [|c ls Hc _ IH]; cbn [concat length]; [done|]. rewrite length_app. lia. Qed.

Section pieces.
Context (ls : list (list byte)) (len : Z) (i o : Z) (c : list byte).
Hypothesis Hlen : Forall (λ c, length c = Z.to_nat len) ls.
Hypothesis Hi : 0 <= i.
Hypothesis Hc : ls !! Z.to_nat i = Some c.
Hypothesis Ho : 0 <= o.

Lemma piece_length : length c = Z.to_nat len.
Proof using Hlen Hc. by apply (Forall_lookup_1 _ _ _ _ Hlen Hc). Qed.

Lemma piece_before : 0 <= len → Z.of_nat (length (concat (take (Z.to_nat i) ls))) = i * len.
Proof using Hlen Hi Hc.
  intros Hl. rewrite (length_concat_const _ (Z.to_nat len)) by by apply Forall_take.
  rewrite length_take. apply lookup_lt_Some in Hc. nia.
Qed.

Lemma read_at_piece k : 0 <= k → o + k <= len → read_at (i * len + o) k (concat ls) = read_at o k c.
Proof using Hlen Hi Hc Ho.
  intros Hk Hok. rewrite <- (take_drop_middle _ _ _ Hc), concat_app. cbn [concat].
  pose proof (piece_before ltac:(lia)) as Hb. pose proof piece_length.
  rewrite read_at_app_r by lia. rewrite Hb. replace (i * len + o - i * len) with o by lia.
  apply read_at_app_l; lia.
Qed.

Lemma write_at_piece d : o + Z.of_nat (length d) <= len →
  write_at (i * len + o) d (concat ls) = concat (<[Z.to_nat i := write_at o d c]> ls).
Proof using Hlen Hi Hc Ho.
  intros Hok. pose proof (lookup_lt_Some _ _ _ Hc). rewrite insert_take_drop by lia.
  rewrite <- (take_drop_middle _ _ _ Hc) at 1. rewrite !concat_app. cbn [concat].
  pose proof (piece_before ltac:(lia)) as Hb. pose proof piece_length.
  rewrite write_at_app_r by lia. f_equal. rewrite Hb. replace (i * len + o - i * len) with o by lia.
  apply write_at_app_l; lia.
Qed.
End pieces.

(** ** Chunks of a slot as one tensor *)

Definition cptr (m : memory) (slot ci : Z) : ptr :=
  if Z.even slot then m.(svm_k) (slot / 2, ci) else m.(svm_v) (slot / 2, ci).

Lemma svm_chunk_ptr_ok m slot ci : 0 <= ci < MAX_CHUNKS_PER_TENSOR →
  svm_chunk_ptr m slot ci = Ok (cptr m slot ci).
Proof.
  intros. unfold svm_chunk_ptr. by rewrite (proj2 (Z.leb_le _ _)), (proj2 (Z.ltb_lt _ _)) by lia.
Qed.

(** The rows of chunk [ci], and those of the first [n] chunks, of a slot with
    rows of [row slot] bytes. *)
Definition chunk_data (row : Z → Z) (m : memory) (slot ci : Z) : list byte :=
  match load (cptr m slot ci) (TOKENS_PER_CHUNK * row slot) m with Ok d => d | _ => [] end.
Definition flat (row : Z → Z) (n : Z) (m : memory) (slot : Z) : list byte :=
  concat (chunk_data row m slot <$> seqZ 0 n).

(** Two ranges of memory that share no byte. *)
Definition apart (b : positive) (o n : Z) (b' : positive) (o' n' : Z) : Prop :=
  b ≠ b' ∨ o + n <= o' ∨ o' + n' <= o.

(** The first [n] chunks of every slot are live and share no memory. *)
Record io_ok (slots n : Z) (row : Z → Z) (m : memory) : Prop := IoOk {
  io_n : 0 <= n <= MAX_CHUNKS_PER_TENSOR;
  io_row : ∀ s, 0 <= s < slots → 0 < row s < 2 ^ 32;
  io_live : ∀ s c, 0 <= s < slots → 0 <= c < n → ∃ b o d, cptr m s c = Some (b, o) ∧
    m.(heap) !! b = Some d ∧ 0 <= o ∧ o + TOKENS_PER_CHUNK * row s <= Z.of_nat (length d);
  io_apart : ∀ s c s' c' b o b' o', 0 <= s < slots → 0 <= c < n → 0 <= s' < slots → 0 <= c' < n →
    (s, c) ≠ (s', c') → cptr m s c = Some (b, o) → cptr m s' c' = Some (b', o') →
    apart b o (TOKENS_PER_CHUNK * row s) b' o' (TOKENS_PER_CHUNK * row s') }.

Lemma read_at_read_at o n o' n' (d : list byte) : 0 <= o → 0 <= o' → 0 <= n' → o' + n' <= n →
  read_at o' n' (read_at o n d) = read_at (o + o') n' d.
Proof.
  intros. unfold read_at. rewrite skipn_firstn_comm, take_take, drop_drop.
  rewrite Nat.min_l by lia. do 2 f_equal. lia.
Qed.

Section io.
Context (slots n : Z) (row : Z → Z).
Implicit Type m : memory.

Lemma chunk_data_length m s c : io_ok slots n row m → 0 <= s < slots → 0 <= c < n →
  length (chunk_data row m s c) = Z.to_nat (TOKENS_PER_CHUNK * row s).
Proof.
  intros Hio Hs Hc. destruct (io_live _ _ _ _ Hio s c Hs Hc) as (b & o & d & Hp & Hb & Ho & Hl).
  pose proof (io_row _ _ _ _ Hio s Hs). unfold TOKENS_PER_CHUNK in *.
  unfold chunk_data, TOKENS_PER_CHUNK. rewrite Hp, (load_ok b o _ d) by done. apply length_read_at; lia.
Qed.

Lemma flat_pieces m s : io_ok slots n row m → 0 <= s < slots →
  Forall (λ c, length c = Z.to_nat (TOKENS_PER_CHUNK * row s)) (chunk_data row m s <$> seqZ 0 n).
Proof.
  intros Hio Hs. apply Forall_fmap, Forall_forall. intros c Hc%elem_of_seqZ. cbn.
  by apply chunk_data_length.
Qed.

Lemma flat_length m s : io_ok slots n row m → 0 <= s < slots →
  Z.of_nat (length (flat row n m s)) = n * TOKENS_PER_CHUNK * row s.
Proof.
  intros Hio Hs. unfold flat. rewrite (length_concat_const _ _ (flat_pieces m s Hio Hs)).
  rewrite length_fmap, length_seqZ. pose proof (io_row _ _ _ _ Hio s Hs). pose proof (io_n _ _ _ _ Hio).
  unfold TOKENS_PER_CHUNK. nia.
Qed.

Lemma flat_lookup m s c : 0 <= c < n →
  (chunk_data row m s <$> seqZ 0 n) !! Z.to_nat c = Some (chunk_data row m s c).
Proof.
  intros Hc. rewrite list_lookup_fmap, lookup_seqZ_lt by lia. cbn. do 2 f_equal. lia.
Qed.

(** Reading part of a chunk reads the flat tensor. *)
Lemma load_flat m s c o k : io_ok slots n row m → 0 <= s < slots → 0 <= c < n →
  0 <= o → 0 <= k → o + k <= TOKENS_PER_CHUNK * row s →
  load (ptr_add (cptr m s c) o) k m = Ok (read_at (c * (TOKENS_PER_CHUNK * row s) + o) k (flat row n m s)).
Proof.
  intros Hio Hs Hc Ho Hk Hok. destruct (io_live _ _ _ _ Hio s c Hs Hc) as (b & p & d & Hp & Hb & Hp0 & Hl).
  unfold flat. rewrite (read_at_piece _ _ _ _ _ (flat_pieces m s Hio Hs) (proj1 Hc) (flat_lookup m s c Hc)) by done.
  rewrite Hp. change (ptr_add (Some (b, p)) o) with (Some (b, p + o)). rewrite (load_ok b (p + o) k d) by (done || lia). f_equal.
  unfold chunk_data. rewrite Hp, (load_ok b p _ d) by done. by rewrite read_at_read_at by lia.
Qed.

(** ** Writing *)

(** The bytes of chunk [ci] that lie in [a, b). *)
Lemma write_span_inter r a b ci : 0 < r < 2 ^ 32 → 0 <= a < b → b <= 2 ^ 24 →
  Z.quot a TOKENS_PER_CHUNK <= ci <= Z.quot (b - 1) TOKENS_PER_CHUNK →
  write_span r a b (Z.quot a TOKENS_PER_CHUNK) (Z.quot (b - 1) TOKENS_PER_CHUNK) ci
  = ((Z.max a (ci * TOKENS_PER_CHUNK) - ci * TOKENS_PER_CHUNK) * r,
     (Z.min b ((ci + 1) * TOKENS_PER_CHUNK) - Z.max a (ci * TOKENS_PER_CHUNK)) * r).
Proof.
  intros Hr Ha Hb. unfold write_span, TOKENS_PER_CHUNK.
  rewrite !Z.quot_div_nonneg, Z.rem_mod_nonneg by lia.
  pose proof (Z.div_mod a 256 ltac:(lia)). pose proof (Z.mod_pos_bound a 256 ltac:(lia)).
  pose proof (Z.div_mod (b - 1) 256 ltac:(lia)). pose proof (Z.mod_pos_bound (b - 1) 256 ltac:(lia)).
  set (f := a / 256) in *. set (g := (b - 1) / 256) in *. intros Hci.
  assert (Hu : ∀ x, 0 <= x <= 2 ^ 24 → u64 (x * r) = x * r) by (intros; apply u64_id; nia).
  rewrite !Hu by lia.
  destruct (Z.eqb_spec f g) as [Hfg|Hfg].
  - assert (ci = f) as -> by lia. f_equal; f_equal; lia.
  - destruct (Z.eqb_spec ci f) as [->|Hcf].
    + replace (256 * r - a mod 256 * r) with ((256 - a mod 256) * r) by lia. rewrite Hu by lia.
      f_equal; f_equal; lia.
    + destruct (Z.eqb_spec ci g) as [->|Hcg]; f_equal; try f_equal; lia.
Qed.

Lemma chunk_range_bounds a b : 0 <= a < b → b <= n * TOKENS_PER_CHUNK →
  0 <= Z.quot a TOKENS_PER_CHUNK ∧ Z.quot a TOKENS_PER_CHUNK <= Z.quot (b - 1) TOKENS_PER_CHUNK ∧
  Z.quot (b - 1) TOKENS_PER_CHUNK < n ∧
  Z.quot a TOKENS_PER_CHUNK * TOKENS_PER_CHUNK <= a < (Z.quot a TOKENS_PER_CHUNK + 1) * TOKENS_PER_CHUNK ∧
  Z.quot (b - 1) TOKENS_PER_CHUNK * TOKENS_PER_CHUNK < b <= (Z.quot (b - 1) TOKENS_PER_CHUNK + 1) * TOKENS_PER_CHUNK.
Proof.
  unfold TOKENS_PER_CHUNK. intros Ha Hb. rewrite !Z.quot_div_nonneg by lia.
  pose proof (Z.div_mod a 256 ltac:(lia)). pose proof (Z.mod_pos_bound a 256 ltac:(lia)).
  pose proof (Z.div_mod (b - 1) 256 ltac:(lia)). pose proof (Z.mod_pos_bound (b - 1) 256 ltac:(lia)).
  repeat split; nia.
Qed.

Lemma chunk_write_at_flat m s a b ci io : io_ok slots n row m → 0 <= s < slots →
  0 <= a < b → b <= n * TOKENS_PER_CHUNK →
  Z.quot a TOKENS_PER_CHUNK <= ci <= Z.quot (b - 1) TOKENS_PER_CHUNK →
  let lo := Z.max a (ci * TOKENS_PER_CHUNK) in
  let hi := Z.min b ((ci + 1) * TOKENS_PER_CHUNK) in
  chunk_write_at s (row s) a b (Z.quot a TOKENS_PER_CHUNK) (Z.quot (b - 1) TOKENS_PER_CHUNK) m ci io
  = Ok (io ++ read_at (lo * row s) ((hi - lo) * row s) (flat row n m s)).
Proof.
  intros Hio Hs Ha Hb Hci lo hi. destruct (chunk_range_bounds a b Ha Hb) as (H1 & H2 & H3 & H4 & H5).
  pose proof (io_row _ _ _ _ Hio s Hs) as Hr. pose proof (io_n _ _ _ _ Hio) as Hn.
  unfold chunk_write_at. rewrite svm_chunk_ptr_ok by lia. cbn [obind].
  rewrite write_span_inter by (done || unfold TOKENS_PER_CHUNK, MAX_CHUNKS_PER_TENSOR in *; lia).
  assert (Hlh : lo < hi ∧ ci * TOKENS_PER_CHUNK <= lo ∧ hi <= (ci + 1) * TOKENS_PER_CHUNK).
  { unfold lo, hi, TOKENS_PER_CHUNK in *. lia. }
  fold lo hi. clear Ha Hb H4 H5. destruct (Z.eqb_spec ((hi - lo) * row s) 0) as [H0|H0]; [exfalso; apply Z.mul_eq_0 in H0; lia|].
  clearbody lo hi. rewrite (load_flat m s ci); [|done|done|lia|unfold TOKENS_PER_CHUNK in *; nia..].
  cbn [obind]. do 3 f_equal. ring.
Qed.

Lemma chunk_write_range_flat m s a b io : io_ok slots n row m → 0 <= s < slots →
  0 <= a → b <= n * TOKENS_PER_CHUNK →
  chunk_write_range s (row s) m (a, b) io
  = Ok (io ++ read_at (a * row s) ((b - a) * row s) (flat row n m s)).
Proof.
  intros Hio Hs Ha Hb. pose proof (io_row _ _ _ _ Hio s Hs) as Hr. unfold chunk_write_range.
  destruct (Z.leb_spec b a) as [Hle|Hlt].
  { unfold read_at. rewrite (Z2Nat.nonpos ((b - a) * row s)) by nia. by rewrite app_nil_r. }
  destruct (chunk_range_bounds a b ltac:(lia) Hb) as (H1 & H2 & H3 & H4 & H5).
  set (f := Z.quot a _) in *. set (g := Z.quot (b - 1) _) in *.
  destruct (ofold_seqZ (λ i io', io' = io ++ read_at (a * row s)
      ((Z.max a (Z.min b (i * TOKENS_PER_CHUNK)) - a) * row s) (flat row n m s))
    (chunk_write_at s (row s) a b f g m) f (g - f + 1) io) as (io' & Hrun & ->).
  - lia.
  - unfold TOKENS_PER_CHUNK in *. replace (_ - a) with 0 by lia. by rewrite read_at_0, app_nil_r.
  - intros i si Hi ->. eexists.
    split; [by apply chunk_write_at_flat; [done|done|lia|done|fold f g; lia]|].
    rewrite <- app_assoc. f_equal. unfold TOKENS_PER_CHUNK in *.
    set (lo := Z.max a (i * 256)). set (hi := Z.min b ((i + 1) * 256)).
    replace (Z.max a (Z.min b (i * 256)) - a) with (lo - a) by lia.
    replace (Z.max a hi - a) with ((lo - a) + (hi - lo)) by lia.
    rewrite Z.mul_add_distr_r, <- read_at_join by nia. do 2 f_equal. ring.
  - rewrite Hrun. do 4 f_equal. unfold TOKENS_PER_CHUNK in *. lia.
Qed.

(** The rows of a list of ranges of a flat tensor, as
    [llama_io_write_i::write_tensor] would write them. *)
Definition gather (r : Z) (F : list byte) (ranges : list (Z * Z)) : list byte :=
  concat ((λ '(a, b), read_at (a * r) ((b - a) * r) F) <$> ranges).

Lemma chunk_write_flat m s ranges io : io_ok slots n row m → 0 <= s < slots →
  Forall (λ '(a, b), 0 <= a ∧ b <= n * TOKENS_PER_CHUNK) ranges →
  chunk_write s (row s) ranges m io = Ok (io ++ gather (row s) (flat row n m s) ranges).
Proof.
  intros Hio Hs Hf. apply ofold_append. intros [a b] s' [Ha Hb]%(proj1 (Forall_forall _ _) Hf).
  by apply chunk_write_range_flat.
Qed.

(** ** Reading *)

(** [m'] has the blocks of [m], possibly with other bytes in them, and the same
    tables. *)
Record same_layout m m' : Prop := SameLayout {
  sl_k : m'.(svm_k) = m.(svm_k);
  sl_v : m'.(svm_v) = m.(svm_v);
  sl_next : m'.(next_block) = m.(next_block);
  sl_arenas : m'.(arenas) = m.(arenas);
  sl_len : ∀ b, length <$> m'.(heap) !! b = length <$> m.(heap) !! b }.

#[global] Instance same_layout_preorder : PreOrder same_layout.
Proof.
  split; [by intros m; split|]. intros m1 m2 m3 [A1 A2 A3 A4 A5] [B1 B2 B3 B4 B5].
  split; congruence.
Qed.

Lemma same_layout_cptr m m' s c : same_layout m m' → cptr m' s c = cptr m s c.
Proof. intros [Hk Hv _ _ _]. unfold cptr. by rewrite Hk, Hv. Qed.

Lemma same_layout_block m m' b d : same_layout m m' → m.(heap) !! b = Some d →
  ∃ d', m'.(heap) !! b = Some d' ∧ length d' = length d.
Proof.
  intros Hs Hb. pose proof (sl_len _ _ Hs b) as Hl. rewrite Hb in Hl. cbn in Hl.
  destruct (m'.(heap) !! b) as [d'|]; [|done]. exists d'. by injection Hl.
Qed.

Lemma same_layout_io m m' : same_layout m m' → io_ok slots n row m → io_ok slots n row m'.
Proof.
  intros Hsl [H1 H2 H3 H4]. split; [done|done| |].
  - intros s c Hs Hc. destruct (H3 s c Hs Hc) as (b & o & d & Hp & Hb & Ho & Hl).
    destruct (same_layout_block _ _ _ _ Hsl Hb) as (d' & Hb' & Hd').
    exists b, o, d'. rewrite (same_layout_cptr _ _ _ _ Hsl), Hd'. done.
  - intros s c s' c' b o b' o' Hs Hc Hs' Hc' Hne Hp Hp'.
    rewrite !(same_layout_cptr _ _ _ _ Hsl) in *. eauto.
Qed.

Lemma read_write_inside (p N o : Z) (d D : list byte) : 0 <= p → 0 <= o → 0 <= N →
  o + Z.of_nat (length d) <= N → p + N <= Z.of_nat (length D) →
  read_at p N (write_at (p + o) d D) = write_at o d (read_at p N D).
Proof.
  intros Hp Ho HN Hd HD. set (A := take (Z.to_nat p) D). set (B := read_at p N D).
  assert (HA : Z.of_nat (length A) = p) by (unfold A; rewrite length_take; lia).
  assert (HB : Z.of_nat (length B) = N) by (unfold B; rewrite length_read_at; lia).
  assert (HDe : D = A ++ B ++ drop (Z.to_nat N) (drop (Z.to_nat p) D)).
  { unfold A, B, read_at. by rewrite take_drop, take_drop. }
  rewrite HDe. rewrite write_at_app_r, HA by lia. replace (p + o - p) with o by lia.
  rewrite write_at_app_l by lia. rewrite read_at_app_r, HA, Z.sub_diag by lia.
  rewrite read_at_app_l by (rewrite ?length_write_at by lia; lia).
  apply read_at_all. rewrite length_write_at by lia. lia.
Qed.

(** Storing into one chunk. *)
Lemma store_chunk m s c o d : io_ok slots n row m → 0 <= s < slots → 0 <= c < n → 0 <= o →
  o + Z.of_nat (length d) <= TOKENS_PER_CHUNK * row s →
  ∃ m', store (ptr_add (cptr m s c) o) d m = Ok m' ∧ same_layout m m' ∧
    chunk_data row m' s c = write_at o d (chunk_data row m s c) ∧
    ∀ s' c', 0 <= s' < slots → 0 <= c' < n → (s', c') ≠ (s, c) →
      chunk_data row m' s' c' = chunk_data row m s' c'.
Proof.
  intros Hio Hs Hc Ho Hd. destruct (io_live _ _ _ _ Hio s c Hs Hc) as (b & p & D & Hp & Hb & Hp0 & Hl).
  rewrite Hp. change (ptr_add (Some (b, p)) o) with (Some (b, p + o)).
  rewrite (store_ok b (p + o) D d) by (done || lia). eexists. split; [done|].
  set (m' := Memory _ _ _ _ _).
  assert (Hsl : same_layout m m').
  { split; try done. intros b'. cbn. destruct (decide (b = b')) as [<-|Hne].
    - rewrite lookup_insert_eq, Hb. cbn. f_equal. apply length_write_at; lia.
    - by rewrite lookup_insert_ne. }
  split; [done|]. pose proof (io_row _ _ _ _ Hio s Hs). unfold TOKENS_PER_CHUNK in *. split.
  - unfold chunk_data, TOKENS_PER_CHUNK. rewrite (same_layout_cptr _ _ _ _ Hsl), Hp.
    rewrite (load_ok b p _ D m) by done.
    rewrite (load_ok b p _ (write_at (p + o) d D)); [|by cbn; rewrite lookup_insert_eq|done|rewrite length_write_at by lia; lia].
    apply read_write_inside; lia.
  - intros s' c' Hs' Hc' Hne. pose proof (io_row _ _ _ _ Hio s' Hs').
    destruct (io_live _ _ _ _ Hio s' c' Hs' Hc') as (b' & p' & D' & Hp' & Hb' & Hp0' & Hl').
    pose proof (io_apart _ _ _ _ Hio s' c' s c _ _ _ _ Hs' Hc' Hs Hc Hne Hp' Hp) as Hap.
    unfold chunk_data, TOKENS_PER_CHUNK in *. rewrite (same_layout_cptr _ _ _ _ Hsl), Hp'.
    rewrite (load_ok b' p' _ D' m) by done.
    destruct (decide (b = b')) as [<-|Hbb].
    + assert (D' = D) as -> by congruence.
      rewrite (load_ok b p' _ (write_at (p + o) d D)); [|by cbn; rewrite lookup_insert_eq|done|rewrite length_write_at by lia; lia].
      destruct Hap as [?|[Hap|Hap]]; [done| |].
      * apply read_write_before; lia.
      * apply read_write_after; lia.
    + rewrite (load_ok b' p' _ D'); [done|by cbn; rewrite lookup_insert_ne|done|done].
Qed.

(** Storing at a chunk stores at the place of its rows in the flat tensor. *)
Lemma store_flat m s c o d : io_ok slots n row m → 0 <= s < slots → 0 <= c < n → 0 <= o →
  o + Z.of_nat (length d) <= TOKENS_PER_CHUNK * row s →
  ∃ m', store (ptr_add (cptr m s c) o) d m = Ok m' ∧ same_layout m m' ∧
    flat row n m' s = write_at (c * (TOKENS_PER_CHUNK * row s) + o) d (flat row n m s) ∧
    ∀ s', 0 <= s' < slots → s' ≠ s → flat row n m' s' = flat row n m s'.
Proof.
  intros Hio Hs Hc Ho Hd. destruct (store_chunk m s c o d Hio Hs Hc Ho Hd) as (m' & -> & Hsl & Hcd & Hoth).
  exists m'. split; [done|]. split; [done|]. split.
  - unfold flat. rewrite (write_at_piece _ _ _ _ _ (flat_pieces m s Hio Hs) (proj1 Hc) (flat_lookup m s c Hc)) by done.
    f_equal. apply list_eq. intros i. rewrite <- Hcd.
    destruct (decide (i = Z.to_nat c)) as [->|Hne].
    + rewrite list_lookup_insert_eq by (rewrite length_fmap, length_seqZ; lia). by apply flat_lookup.
    + rewrite list_lookup_insert_ne by done. rewrite !list_lookup_fmap.
      destruct (seqZ 0 n !! i) as [x|] eqn:Hx; [|done]. apply lookup_seqZ in Hx as [-> Hi]. cbn. f_equal.
      apply Hoth; [done|lia|]. intros [= ?]. lia.
  - intros s' Hs' Hne. unfold flat. f_equal. apply list_fmap_ext. intros i x Hx.
    apply lookup_seqZ in Hx as [-> Hi]. apply Hoth; [done|lia|]. intros [= ?]. congruence.
Qed.

Lemma read_span_write r cnt a b f g ci : cnt = b - a →
  read_span r cnt a b f g ci = write_span r a b f g ci.
Proof. by intros ->. Qed.

Lemma io_read_app d io : io_read (Z.of_nat (length d)) (d ++ io) = Ok (d, io).
Proof.
  unfold io_read. rewrite length_app, (proj2 (Z.ltb_ge _ _)) by lia.
  rewrite Nat2Z.id, take_app_length, drop_app_length. done.
Qed.

Lemma io_read_app_n d io k : Z.of_nat (length d) = k → io_read k (d ++ io) = Ok (d, io).
Proof. intros <-. apply io_read_app. Qed.

(** The state of the reading loop before chunk [ci]: the rows below it are
    stored, the others still to be read. *)
Definition reading (m0 : memory) (s a b : Z) (data io : list byte) (ci : Z) (st : list byte * memory) : Prop :=
  let k := (Z.max a (Z.min b (ci * TOKENS_PER_CHUNK)) - a) * row s in
  st.1 = drop (Z.to_nat k) data ++ io ∧ same_layout m0 st.2 ∧
  flat row n st.2 s = write_at (a * row s) (take (Z.to_nat k) data) (flat row n m0 s) ∧
  ∀ s', 0 <= s' < slots → s' ≠ s → flat row n st.2 s' = flat row n m0 s'.

Lemma chunk_read_step m0 s a b data io ci st : io_ok slots n row m0 → 0 <= s < slots →
  0 <= a < b → b <= n * TOKENS_PER_CHUNK → Z.of_nat (length data) = (b - a) * row s →
  Z.quot a TOKENS_PER_CHUNK <= ci <= Z.quot (b - 1) TOKENS_PER_CHUNK →
  reading m0 s a b data io ci st →
  ∃ st', chunk_read_at s (row s) (b - a) a b (Z.quot a TOKENS_PER_CHUNK) (Z.quot (b - 1) TOKENS_PER_CHUNK) ci st
    = Ok st' ∧ reading m0 s a b data io (ci + 1) st'.
Proof.
  intros Hio Hs Ha Hb Hlen Hci (Hst & Hsl & Hfl & Hoth). destruct st as [io1 m]. cbn [fst snd] in *.
  destruct (chunk_range_bounds a b Ha Hb) as (H1 & H2 & H3 & H4 & H5).
  pose proof (same_layout_io _ _ Hsl Hio) as Hio1. pose proof (io_row _ _ _ _ Hio s Hs) as Hr.
  pose proof (io_n _ _ _ _ Hio) as Hn. pose proof (flat_length m0 s Hio Hs) as HF.
  unfold chunk_read_at. rewrite svm_chunk_ptr_ok by lia. cbn [obind].
  destruct (io_live _ _ _ _ Hio1 s ci Hs ltac:(lia)) as (bk & p & d & Hp & _). rewrite Hp, <- Hp.
  rewrite read_span_write, write_span_inter by (done || unfold TOKENS_PER_CHUNK, MAX_CHUNKS_PER_TENSOR in *; lia).
  set (lo := Z.max a (ci * TOKENS_PER_CHUNK)). set (hi := Z.min b ((ci + 1) * TOKENS_PER_CHUNK)).
  assert (Hlh : a <= lo < hi ∧ ci * TOKENS_PER_CHUNK <= lo ∧ hi <= (ci + 1) * TOKENS_PER_CHUNK ∧ hi <= b ∧
    Z.max a (Z.min b (ci * TOKENS_PER_CHUNK)) = lo ∧ Z.max a hi = hi).
  { unfold lo, hi, TOKENS_PER_CHUNK in *. lia. }
  destruct Hlh as (Hlo & Hlo' & Hhi & Hhib & Emin & Emax). rewrite Emin in *. clearbody lo.
  set (part := take (Z.to_nat ((hi - lo) * row s)) (drop (Z.to_nat ((lo - a) * row s)) data)).
  assert (Hpart : Z.of_nat (length part) = (hi - lo) * row s).
  { unfold part. rewrite length_take, length_drop. nia. }
  assert (Hk : ((hi - a) * row s = (lo - a) * row s + (hi - lo) * row s)) by ring.
  rewrite Hst. rewrite <- (take_drop (Z.to_nat ((hi - lo) * row s)) (drop _ data)). fold part.
  rewrite <- app_assoc, (io_read_app_n part) by done. cbn [obind].
  destruct (store_flat m s ci ((lo - ci * TOKENS_PER_CHUNK) * row s) part Hio1 Hs) as (m' & -> & Hsl' & Hfl' & Hoth').
  { lia. }
  { nia. }
  { rewrite Hpart. unfold TOKENS_PER_CHUNK in *. nia. }
  eexists. split; [reflexivity|]. unfold reading. cbn [fst snd]. fold hi. rewrite Emax, Hk.
  rewrite Z2Nat.inj_add by nia. split; [by rewrite drop_drop|]. split; [by etrans|]. split.
  - rewrite Hfl', Hfl.
    assert (Htk : Z.of_nat (length (take (Z.to_nat ((lo - a) * row s)) data)) = (lo - a) * row s).
    { rewrite length_take. nia. }
    replace (ci * (TOKENS_PER_CHUNK * row s) + (lo - ci * TOKENS_PER_CHUNK) * row s)
      with (a * row s + Z.of_nat (length (take (Z.to_nat ((lo - a) * row s)) data))) by (rewrite Htk; ring).
    rewrite write_at_join by (rewrite ?Htk; unfold TOKENS_PER_CHUNK in *; nia).
    f_equal. unfold part. by rewrite take_take_drop.
  - intros s' Hs' Hne. by rewrite Hoth', Hoth.
Qed.

(** [chunk_read] stores the stream's bytes as the rows [head, head + cnt). *)
Lemma chunk_read_flat m s head cnt data io : io_ok slots n row m → 0 <= s < slots →
  0 <= head → 0 < cnt → head + cnt <= n * TOKENS_PER_CHUNK → Z.of_nat (length data) = cnt * row s →
  ∃ m', chunk_read s (row s) cnt head (data ++ io) m = Ok (io, m') ∧ same_layout m m' ∧
    flat row n m' s = write_at (head * row s) data (flat row n m s) ∧
    ∀ s', 0 <= s' < slots → s' ≠ s → flat row n m' s' = flat row n m s'.
Proof.
  intros Hio Hs Hh Hc Hend Hlen. pose proof (io_n _ _ _ _ Hio) as Hn.
  pose proof (io_row _ _ _ _ Hio s Hs) as Hr.
  unfold chunk_read. rewrite u32_id by (unfold TOKENS_PER_CHUNK, MAX_CHUNKS_PER_TENSOR in *; lia).
  destruct (chunk_range_bounds head (head + cnt) ltac:(lia) Hend) as (H1 & H2 & H3 & H4 & H5).
  set (b := head + cnt) in *. replace cnt with (b - head) in * by lia.
  set (f := Z.quot head _) in *. set (g := Z.quot (b - 1) _) in *.
  destruct (ofold_seqZ (reading m s head b data io)
    (chunk_read_at s (row s) (b - head) head b f g) f (g - f + 1) (data ++ io, m))
    as ((io' & m') & Hrun & Hst & Hsl & Hfl & Hoth).
  - lia.
  - unfold reading. unfold TOKENS_PER_CHUNK in *. replace (Z.max _ _ - head) with 0 by lia.
    cbn. rewrite write_at_nil. split; [done|]. split; [done|]. by split.
  - intros i st Hi Hrd. apply chunk_read_step; try done; [lia|fold f g; lia].
  - exists m'. replace (f + (g - f + 1)) with (g + 1) in * by lia. cbn [fst snd] in *.
    assert (Hk : (Z.max head (Z.min b ((g + 1) * TOKENS_PER_CHUNK)) - head) * row s = Z.of_nat (length data)).
    { rewrite Hlen. f_equal. lia. }
    rewrite Hk, Nat2Z.id, drop_all in Hst. rewrite Hk, Nat2Z.id, take_ge in Hfl by lia.
    rewrite Hrun, Hst. done.
Qed.
End io.
