(* ===== verification/KvCells.v ===== *)
(** The cells of the unified KV cache: [llama_kv_cells_unified] of
    [src/llama-kv-cells.h], which position and which sequences each row of the
    cache holds.

    The vectors [pos], [shift] and [seq] always have the same length and are one
    list of cells here.  A failed [assert] and an index past the vectors are
    undefined; [std::bitset] throws on a position it does not have. *)
From S2P Require Import Prelude.

Definition LLAMA_MAX_SEQ : Z := 64.

Record kv_cell := KvCell { c_pos : Z; c_shift : Z; c_seq : gset Z }.

Record llama_kv_cells_unified := KvCells {
  has_shift : bool;
  used : gset Z;
  cell_list : list kv_cell;
  seq_pos : Z → gset Z }.

Definition empty_cell : kv_cell := KvCell (-1) 0 ∅.

Definition cells_size (cs : llama_kv_cells_unified) : Z := Z.of_nat (length cs.(cell_list)).

Definition cells_reset (cs : llama_kv_cells_unified) : llama_kv_cells_unified :=
  KvCells false ∅ ((λ _, empty_cell) <$> cs.(cell_list)) (λ _, ∅).

Definition cells_resize (n : Z) (cs : llama_kv_cells_unified) : llama_kv_cells_unified :=
  cells_reset (KvCells cs.(has_shift) cs.(used) (resize (Z.to_nat n) empty_cell cs.(cell_list)) cs.(seq_pos)).

Definition cells_reset_shift (cs : llama_kv_cells_unified) : llama_kv_cells_unified :=
  KvCells false cs.(used) ((λ c, KvCell c.(c_pos) 0 c.(c_seq)) <$> cs.(cell_list)) cs.(seq_pos).

(** [pos[i]], [shift[i]], [seq[i]]. *)
Definition cell_at (cs : llama_kv_cells_unified) (i : Z) : outcome kv_cell :=
  if 0 <=? i then match cs.(cell_list) !! Z.to_nat i with Some c => Ok c | None => Ub end else Ub.

(** [seq[i].test(seq_id)] and the other accesses to one bit. *)
Definition check_bit (seq_id : Z) : outcome unit :=
  if (0 <=? seq_id) && (seq_id <? LLAMA_MAX_SEQ) then Ok tt else Throw.

Definition put_cell (i : Z) (c : kv_cell) (cs : llama_kv_cells_unified) : llama_kv_cells_unified :=
  KvCells cs.(has_shift) cs.(used) (<[Z.to_nat i := c]> cs.(cell_list)) cs.(seq_pos).
Definition put_used (u : gset Z) (cs : llama_kv_cells_unified) : llama_kv_cells_unified :=
  KvCells cs.(has_shift) u cs.(cell_list) cs.(seq_pos).
Definition put_seq_pos (f : Z → gset Z) (cs : llama_kv_cells_unified) : llama_kv_cells_unified :=
  KvCells cs.(has_shift) cs.(used) cs.(cell_list) f.

(** The helpers [seq_pos_rm] and [seq_pos_add], on the cell they read. *)
Definition seq_pos_rm (c : kv_cell) (f : Z → gset Z) : Z → gset Z :=
  λ s, if bool_decide (s ∈ c.(c_seq)) then f s ∖ {[c.(c_pos)]} else f s.
Definition seq_pos_add (c : kv_cell) (f : Z → gset Z) : Z → gset Z :=
  λ s, if bool_decide (s ∈ c.(c_seq)) then f s ∪ {[c.(c_pos)]} else f s.

Definition cells_is_empty (cs : llama_kv_cells_unified) (i : Z) : outcome bool :=
  c <~ cell_at cs i ;;
  _ <~ assert_that (-1 <=? c.(c_pos)) ;;
  Ok (c.(c_pos) =? -1).

Definition cells_get_used (cs : llama_kv_cells_unified) : Z := Z.of_nat (size cs.(used)).

(** [*begin()] and [*rbegin()] of an ordered set. *)
Definition set_min (X : gset Z) (dflt : Z) : Z :=
  match elements X with [] => dflt | x :: l => foldr Z.min x l end.
Definition set_max (X : gset Z) (dflt : Z) : Z :=
  match elements X with [] => dflt | x :: l => foldr Z.max x l end.

Definition cells_used_min (cs : llama_kv_cells_unified) : Z := set_min cs.(used) 0.
Definition cells_used_max_p1 (cs : llama_kv_cells_unified) : Z := set_max cs.(used) (-1) + 1.

Definition cells_mv (isrc idst : Z) (cs : llama_kv_cells_unified) : outcome llama_kv_cells_unified :=
  src <~ cell_at cs isrc ;;
  dst <~ cell_at cs idst ;;
  _ <~ assert_that (dst.(c_pos) =? -1) ;;
  _ <~ assert_that (negb (src.(c_pos) =? -1)) ;;
  Ok (put_used ((cs.(used) ∖ {[isrc]}) ∪ {[idst]}) (put_cell isrc empty_cell (put_cell idst src cs))).

(** A copy of the cells [i, i + n). *)
Definition cells_cp (i n : Z) (cs : llama_kv_cells_unified) : outcome llama_kv_cells_unified :=
  _ <~ assert_that (i + n <=? cells_size cs) ;;
  l <~ otraverse (λ j, c <~ cell_at cs (i + j) ;; _ <~ assert_that (c.(c_shift) =? 0) ;;
                       Ok (KvCell c.(c_pos) 0 c.(c_seq))) (seqZ 0 n) ;;
  Ok (KvCells false ∅ l (λ _, ∅)).

(** One round of the loop of [set]. *)
Definition cells_set_at (i : Z) (other : llama_kv_cells_unified) (j : Z) (cs : llama_kv_cells_unified)
    : outcome llama_kv_cells_unified :=
  c <~ cell_at cs (i + j) ;;
  o <~ cell_at other j ;;
  let u := if (c.(c_pos) =? -1) && negb (o.(c_pos) =? -1) then cs.(used) ∪ {[i + j]} else cs.(used) in
  let u := if negb (c.(c_pos) =? -1) && (o.(c_pos) =? -1) then u ∖ {[i + j]} else u in
  let f := if negb (c.(c_pos) =? -1) then seq_pos_rm c cs.(seq_pos) else cs.(seq_pos) in
  let c' := KvCell o.(c_pos) c.(c_shift) o.(c_seq) in
  let f := if negb (c'.(c_pos) =? -1) then seq_pos_add c' f else f in
  _ <~ assert_that (c.(c_shift) =? 0) ;;
  Ok (put_seq_pos f (put_used u (put_cell (i + j) c' cs))).

Definition cells_set (i : Z) (other cs : llama_kv_cells_unified) : outcome llama_kv_cells_unified :=
  _ <~ assert_that (i + cells_size other <=? cells_size cs) ;;
  ofold (cells_set_at i other) (seqZ 0 (cells_size other)) cs.

Definition cells_rm (i : Z) (cs : llama_kv_cells_unified) : outcome llama_kv_cells_unified :=
  c <~ cell_at cs i ;;
  _ <~ assert_that (negb (c.(c_pos) =? -1)) ;;
  Ok (put_used (cs.(used) ∖ {[i]}) (put_seq_pos (seq_pos_rm c cs.(seq_pos)) (put_cell i empty_cell cs))).

(** The flag tells whether the cell became empty. *)
Definition cells_seq_rm (i seq_id : Z) (cs : llama_kv_cells_unified) : outcome (bool * llama_kv_cells_unified) :=
  c <~ cell_at cs i ;;
  _ <~ check_bit seq_id ;;
  _ <~ assert_that (bool_decide (seq_id ∈ c.(c_seq))) ;;
  _ <~ assert_that (negb (c.(c_pos) =? -1)) ;;
  let sq := c.(c_seq) ∖ {[seq_id]} in
  let cs1 := put_seq_pos (<[seq_id := cs.(seq_pos) seq_id ∖ {[c.(c_pos)]}]> cs.(seq_pos)) cs in
  if bool_decide (sq = ∅)
  then Ok (true, put_used (cs.(used) ∖ {[i]}) (put_cell i empty_cell cs1))
  else Ok (false, put_cell i (KvCell c.(c_pos) c.(c_shift) sq) cs1).

Definition cells_seq_keep (i seq_id : Z) (cs : llama_kv_cells_unified) : outcome (bool * llama_kv_cells_unified) :=
  c <~ cell_at cs i ;;
  _ <~ check_bit seq_id ;;
  if bool_decide (seq_id ∈ c.(c_seq)) then
    let f := seq_pos_rm c cs.(seq_pos) in
    Ok (false, put_seq_pos (<[seq_id := f seq_id ∪ {[c.(c_pos)]}]> f)
                 (put_cell i (KvCell c.(c_pos) c.(c_shift) {[seq_id]}) cs))
  else if bool_decide (c.(c_seq) ≠ ∅) then
    Ok (true, put_used (cs.(used) ∖ {[i]})
                (put_seq_pos (seq_pos_rm c cs.(seq_pos)) (put_cell i empty_cell cs)))
  else
    _ <~ assert_that (c.(c_pos) =? -1) ;; Ok (false, cs).

Definition cells_seq_count (cs : llama_kv_cells_unified) (i : Z) : outcome Z :=
  c <~ cell_at cs i ;;
  _ <~ assert_that (negb (c.(c_pos) =? -1)) ;;
  Ok (Z.of_nat (size c.(c_seq))).

Definition cells_seq_has (cs : llama_kv_cells_unified) (i seq_id : Z) : outcome bool :=
  c <~ cell_at cs i ;;
  _ <~ assert_that (0 <=? seq_id) ;;
  _ <~ check_bit seq_id ;;
  Ok (bool_decide (seq_id ∈ c.(c_seq))).

Definition cells_seq_add (i seq_id : Z) (cs : llama_kv_cells_unified) : outcome llama_kv_cells_unified :=
  c <~ cell_at cs i ;;
  _ <~ assert_that (negb (c.(c_pos) =? -1)) ;;
  _ <~ check_bit seq_id ;;
  _ <~ assert_that (negb (bool_decide (seq_id ∈ c.(c_seq)))) ;;
  Ok (put_seq_pos (<[seq_id := cs.(seq_pos) seq_id ∪ {[c.(c_pos)]}]> cs.(seq_pos))
        (put_cell i (KvCell c.(c_pos) c.(c_shift) (c.(c_seq) ∪ {[seq_id]})) cs)).

(** The lowest bit set, -1 when there is none. *)
Definition cells_seq_get (cs : llama_kv_cells_unified) (i : Z) : outcome Z :=
  c <~ cell_at cs i ;;
  _ <~ assert_that (Nat.eqb (size c.(c_seq)) 1) ;;
  Ok (set_min c.(c_seq) (-1)).

Definition cells_seq_pos_min (cs : llama_kv_cells_unified) (seq_id : Z) : outcome Z :=
  _ <~ assert_that ((0 <=? seq_id) && (seq_id <? LLAMA_MAX_SEQ)) ;;
  Ok (set_min (cs.(seq_pos) seq_id) (-1)).
Definition cells_seq_pos_max (cs : llama_kv_cells_unified) (seq_id : Z) : outcome Z :=
  _ <~ assert_that ((0 <=? seq_id) && (seq_id <? LLAMA_MAX_SEQ)) ;;
  Ok (set_max (cs.(seq_pos) seq_id) (-1)).

Definition cells_pos_get (cs : llama_kv_cells_unified) (i : Z) : outcome Z :=
  c <~ cell_at cs i ;; _ <~ assert_that (negb (c.(c_pos) =? -1)) ;; Ok c.(c_pos).

Definition cells_pos_in (cs : llama_kv_cells_unified) (i p0 p1 : Z) : outcome bool :=
  c <~ cell_at cs i ;; Ok ((p0 <=? c.(c_pos)) && (c.(c_pos) <? p1)).

Definition cells_pos_set (i p : Z) (cs : llama_kv_cells_unified) : outcome llama_kv_cells_unified :=
  c <~ cell_at cs i ;;
  _ <~ assert_that (c.(c_pos) =? -1) ;;
  _ <~ assert_that (bool_decide (c.(c_seq) = ∅)) ;;
  Ok (put_used (cs.(used) ∪ {[i]}) (put_cell i (KvCell p c.(c_shift) c.(c_seq)) cs)).

(** [llama_pos] is a 32-bit integer; an overflow of its addition is undefined. *)
Definition pos_sum (a b : Z) : outcome Z :=
  if (- 2 ^ 31 <=? a + b) && (a + b <? 2 ^ 31) then Ok (a + b) else Ub.

Definition cells_pos_add (i d : Z) (cs : llama_kv_cells_unified) : outcome (bool * llama_kv_cells_unified) :=
  c <~ cell_at cs i ;;
  _ <~ assert_that (negb (c.(c_pos) =? -1)) ;;
  p <~ pos_sum c.(c_pos) d ;;
  sh <~ pos_sum c.(c_shift) d ;;
  let cs1 := KvCells true cs.(used) cs.(cell_list) (seq_pos_rm c cs.(seq_pos)) in
  if p <? 0 then Ok (true, put_used (cs.(used) ∖ {[i]}) (put_cell i empty_cell cs1))
  else let c' := KvCell p sh c.(c_seq) in
       Ok (false, put_seq_pos (seq_pos_add c' cs1.(seq_pos)) (put_cell i c' cs1)).

Definition cells_pos_div (i d : Z) (cs : llama_kv_cells_unified) : outcome llama_kv_cells_unified :=
  c <~ cell_at cs i ;;
  _ <~ assert_that (negb (c.(c_pos) =? -1)) ;;
  _ <~ assert_that (negb (d =? 0)) ;;
  let p := Z.quot c.(c_pos) d in
  sh <~ pos_sum c.(c_shift) (c.(c_pos) - p) ;;
  let c' := KvCell p sh c.(c_seq) in
  Ok (put_seq_pos (seq_pos_add c' (seq_pos_rm c cs.(seq_pos)))
        (put_cell i c' (KvCells true cs.(used) cs.(cell_list) cs.(seq_pos)))).
