(* ===== verification/KvUnified.v ===== *)
(** The unified KV cache on chunked SVM memory: [llama_kv_cache_unified] of
    [src/llama-kv-cache-unified.cpp] - construction, growth, slots, sequences and
    the session state it writes and reads.

    Defragmentation is modelled in [KvDefrag], the copies of a piece in [KvCopy];
    the rest of graph building and the layer filter are not modelled.
    [GGML_ASSERT] aborts; like a failed [assert] it is never given a value.  When a core exists its KV state and the cache share one memory. *)
From S2P Require Import Prelude Floats KvTypes KvLadder KvGrow KvOffload KvSwapIn Weight Swapout.
From S2P Require Import KvOps KvCells.

(** ** Data *)

(** The element types of [kv_cache_types]. *)
Inductive ggml_type := F32 | F16 | Q4_0 | Q4_1 | Q5_0 | Q5_1 | Q8_0 | IQ4_NL | BF16.
Definition ggml_type_id (t : ggml_type) : Z :=
  match t with F32 => 0 | F16 => 1 | Q4_0 => 2 | Q4_1 => 3 | Q5_0 => 6 | Q5_1 => 7 | Q8_0 => 8
             | IQ4_NL => 20 | BF16 => 30 end.
Definition ggml_type_size (t : ggml_type) : Z :=
  match t with F32 => 4 | F16 | BF16 => 2 | Q4_0 | IQ4_NL => 18 | Q4_1 => 20 | Q5_0 => 22 | Q5_1 => 24
             | Q8_0 => 34 end.
Definition ggml_blck_size (t : ggml_type) : Z := match t with F32 | F16 | BF16 => 1 | _ => 32 end.
Definition ggml_row_size (t : ggml_type) (ne : Z) : Z := ggml_type_size t * ne / ggml_blck_size t.

Inductive llama_swa_type := SWA_NONE | SWA_STANDARD | SWA_CHUNKED.

(** [kv_layer]: its tensors are the base chunks, of 256 rows. *)
Record kv_layer := KvLayer { il : Z; k_type : ggml_type; v_type : ggml_type }.

(** [llama_ubatch], as far as the cache reads it. *)
Record llama_ubatch := Ubatch { ub_tokens : Z; ub_pos : list Z; ub_seq_id : list (list Z) }.

Record llama_kv_cache_unified := KvUnified {
  layers : list kv_layer;
  n_embd_k_gqa : Z → Z;
  n_embd_v_gqa : Z → Z;
  v_trans : bool;
  n_seq_max : Z;
  n_pad : Z;
  n_swa : Z;
  swa_type : llama_swa_type;
  head : Z;
  cells : llama_kv_cells_unified;
  chunk_made : pos → bool;            (* layers_k_chunks[il].c[idx] != nullptr *)
  n_chunks_alloc : Z;
  child_bufs : list (ptr * Z);        (* svm_base and size of the children of bufs.front() *)
  umem : memory;
  g_mzcache_core : option mzcache_core }.

Section updates.
  Context (u : llama_kv_cache_unified).
Definition with_cells (h : Z) (cs : llama_kv_cells_unified) := KvUnified u.(layers) u.(n_embd_k_gqa)
    u.(n_embd_v_gqa) u.(v_trans) u.(n_seq_max) u.(n_pad) u.(n_swa) u.(swa_type) h cs u.(chunk_made)
    u.(n_chunks_alloc) u.(child_bufs) u.(umem) u.(g_mzcache_core).
Definition with_alloc (n : Z) (core : option mzcache_core) := KvUnified u.(layers) u.(n_embd_k_gqa)
    u.(n_embd_v_gqa) u.(v_trans) u.(n_seq_max) u.(n_pad) u.(n_swa) u.(swa_type) u.(head) u.(cells) u.(chunk_made)
    n u.(child_bufs) u.(umem) core.
(** The memory is shared with the core's KV state. *)
Definition with_mem (made : pos → bool) (m : memory) := KvUnified u.(layers) u.(n_embd_k_gqa)
    u.(n_embd_v_gqa) u.(v_trans) u.(n_seq_max) u.(n_pad) u.(n_swa) u.(swa_type) u.(head) u.(cells) made
    u.(n_chunks_alloc) u.(child_bufs) m
    ((λ c, with_kv c (set_mem c.(ckv) m)) <$> u.(g_mzcache_core)).
End updates.

Definition k_row (u : llama_kv_cache_unified) (l : kv_layer) : Z :=
  ggml_row_size l.(k_type) (u.(n_embd_k_gqa) l.(il)).
Definition v_row (u : llama_kv_cache_unified) (l : kv_layer) : Z :=
  ggml_row_size l.(v_type) (u.(n_embd_v_gqa) l.(il)).

(** A loop whose body can throw: the flag is [false] when it did, with the state
    reached. *)
Fixpoint try_fold {S A} (f : A → S → outcome (bool * S)) (l : list A) (s : S) : outcome (bool * S) :=
  match l with
  | [] => Ok (true, s)
  | a :: l => '(ok, s') <~ f a s ;; if ok : bool then try_fold f l s' else Ok (false, s')
  end.

Section unified.
Context `{Cd : Codec} `{Ev : Env}.

(** ** Construction *)

(** The base tensor of one slot: a zeroed buffer of 256 rows, whose address is
    entry 0 of the slot's table. *)
Definition new_base (size_row : Z) (m : memory) : outcome (ptr * memory) :=
  let '(b, m1) := svm_alloc (TOKENS_PER_CHUNK * size_row) m in
  m2 <~ store (Some (b, 0)) (replicate (Z.to_nat (TOKENS_PER_CHUNK * size_row)) 0) m1 ;;
  Ok (Some (b, 0), m2).

(** One layer: [create_chunked_kv_tensors], its share of the buffer allocation
    and clearing, and of [register_kv_chunk_offsets]. *)
Definition create_layer (type_k type_v : ggml_type) (kgqa vgqa : Z → Z) (kv_size l : Z)
    (st : list kv_layer * list (ptr * Z) * (pos → bool) * memory)
    : outcome (list kv_layer * list (ptr * Z) * (pos → bool) * memory) :=
  let '(ls, bufs, made, m) := st in
  if MAX_CHUNKS_PER_TENSOR <? u32 (kv_size + TOKENS_PER_CHUNK - 1) / TOKENS_PER_CHUNK then Throw
  else if negb (svm_alloc_ok (l, 0)) then Throw
  else
    let rk := ggml_row_size type_k (kgqa l) in
    let rv := ggml_row_size type_v (vgqa l) in
    '(k, m1) <~ new_base rk m ;;
    '(v, m2) <~ new_base rv m1 ;;
    Ok (ls ++ [KvLayer l type_k type_v],
        bufs ++ [(k, TOKENS_PER_CHUNK * rk); (v, TOKENS_PER_CHUNK * rv)],
        <[(l, 0) := true]> made, publish_chunk (l, 0) k v m2).

Definition kv_unified_ctor (n_layer : Z) (kgqa vgqa : Z → Z) (type_k type_v : ggml_type)
    (vt : bool) (kv_size seq_max pad swa : Z) (swat : llama_swa_type) (m : memory)
    : outcome llama_kv_cache_unified :=
  _ <~ assert_that (kv_size mod pad =? 0) ;;
  '(ls, bufs, made, m') <~ ofold (create_layer type_k type_v kgqa vgqa kv_size) (seqZ 0 n_layer)
                             ([], [], λ _, false, m) ;;
  Ok (KvUnified ls kgqa vgqa vt seq_max pad swa swat 0
        (cells_resize kv_size (KvCells false ∅ [] (λ _, ∅))) made 1 bufs m' None).

(** ** Growth *)

Definition grow_layer (lo hi : Z) (u : llama_kv_cache_unified) (l : kv_layer)
    : (pos → bool) * memory → outcome (bool * ((pos → bool) * memory)) :=
  try_fold (grow_layer_chunk l.(il) (u.(n_embd_k_gqa) l.(il))) (seqZ lo (hi - lo)).

(** The flag is [false] when an exception leaves the function. *)
Definition mz_grow_chunks (n_tokens_needed : Z) (u : llama_kv_cache_unified)
    : outcome (bool * llama_kv_cache_unified) :=
  let need := u32 (n_tokens_needed + TOKENS_PER_CHUNK - 1) / TOKENS_PER_CHUNK in
  if need <=? u.(n_chunks_alloc) then Ok (true, u)
  else if MAX_CHUNKS_PER_TENSOR <? need then Ok (false, u)
  else
    '(ok, (made, m)) <~ try_fold (grow_layer u.(n_chunks_alloc) need u) u.(layers)
                          (u.(chunk_made), u.(umem)) ;;
    let u1 := with_mem u made m in
    if negb ok then Ok (false, u1)
    else match u1.(g_mzcache_core) with
         | None => Ok (true, with_alloc u1 need None)
         | Some c => c' <~ on_kv_chunks_grown need c ;; Ok (true, with_alloc u1 need (Some c'))
         end.

(** ** Sequences *)

(** [ggml_backend_buffer_clear(buf, 0)]: a [memset] of every child buffer. *)
Definition buffer_clear (buf : ptr * Z) (m : memory) : outcome memory :=
  if buf.2 =? 0 then Ok m else store buf.1 (replicate (Z.to_nat buf.2) 0) m.

Definition kv_clear (data : bool) (u : llama_kv_cache_unified) : outcome llama_kv_cache_unified :=
  let u1 := with_cells u 0 (cells_reset u.(cells)) in
  if data then m <~ ofold buffer_clear u1.(child_bufs) u1.(umem) ;; Ok (with_mem u1 u1.(chunk_made) m)
  else Ok u1.

Definition pos_begin (p0 : Z) : Z := if p0 <? 0 then 0 else p0.
Definition pos_end (p1 : Z) : Z := if p1 <? 0 then 2 ^ 31 - 1 else p1.

(** Visiting the cells; an [op] that empties a cell offers it as new head. *)
Definition note_head (size i : Z) (freed : bool) (new_head : Z) : Z :=
  if freed && (new_head =? size) then i else new_head.

Definition seq_rm_at (seq_id p0 p1 i : Z) (st : llama_kv_cells_unified * Z)
    : outcome (llama_kv_cells_unified * Z) :=
  let '(cs, new_head) := st in
  b <~ cells_pos_in cs i p0 p1 ;;
  if negb b then Ok st
  else if 0 <=? seq_id then
    h <~ cells_seq_has cs i seq_id ;;
    if h : bool then '(e, cs') <~ cells_seq_rm i seq_id cs ;; Ok (cs', note_head (cells_size cs) i e new_head)
    else Ok st
  else cs' <~ cells_rm i cs ;; Ok (cs', note_head (cells_size cs) i true new_head).

(** "If we freed up a slot, set head to it". *)
Definition freed_head (size new_head h : Z) : Z :=
  if negb (new_head =? size) && (new_head <? h) then new_head else h.

Definition kv_seq_rm (seq_id p0 p1 : Z) (u : llama_kv_cache_unified) : outcome llama_kv_cache_unified :=
  let size := cells_size u.(cells) in
  '(cs, new_head) <~ ofold (seq_rm_at seq_id (pos_begin p0) (pos_end p1)) (seqZ 0 size)
                       (u.(cells), size) ;;
  Ok (with_cells u (freed_head size new_head u.(head)) cs).

Definition kv_seq_cp (seq_id_src seq_id_dst p0 p1 : Z) (u : llama_kv_cache_unified)
    : outcome llama_kv_cache_unified :=
  if seq_id_src =? seq_id_dst then Ok u
  else
    cs <~ ofold (λ i cs,
        b <~ cells_pos_in cs i (pos_begin p0) (pos_end p1) ;;
        if negb b then Ok cs
        else h <~ cells_seq_has cs i seq_id_src ;;
             if h : bool then cells_seq_add i seq_id_dst cs else Ok cs)
      (seqZ 0 (cells_size u.(cells))) u.(cells) ;;
    Ok (with_cells u u.(head) cs).

Definition kv_seq_keep (seq_id : Z) (u : llama_kv_cache_unified) : outcome llama_kv_cache_unified :=
  let size := cells_size u.(cells) in
  '(cs, new_head) <~ ofold (λ i '(cs, nh), '(e, cs') <~ cells_seq_keep i seq_id cs ;;
                              Ok (cs', note_head size i e nh)) (seqZ 0 size) (u.(cells), size) ;;
  Ok (with_cells u (freed_head size new_head u.(head)) cs).

Definition kv_seq_add (seq_id p0 p1 shift : Z) (u : llama_kv_cache_unified) : outcome llama_kv_cache_unified :=
  if (shift =? 0) || (pos_begin p0 =? pos_end p1) then Ok u
  else
    let size := cells_size u.(cells) in
    '(cs, new_head) <~ ofold (λ i '(cs, nh),
        b <~ cells_pos_in cs i (pos_begin p0) (pos_end p1) ;;
        if negb b then Ok (cs, nh)
        else h <~ cells_seq_has cs i seq_id ;;
             if h : bool then '(e, cs') <~ cells_pos_add i shift cs ;; Ok (cs', note_head size i e nh)
             else Ok (cs, nh))
      (seqZ 0 size) (u.(cells), size) ;;
    Ok (with_cells u (if negb (new_head =? size) then new_head else 0) cs).

Definition kv_seq_div (seq_id p0 p1 d : Z) (u : llama_kv_cache_unified) : outcome llama_kv_cache_unified :=
  if (d =? 1) || (pos_begin p0 =? pos_end p1) then Ok u
  else
    cs <~ ofold (λ i cs,
        b <~ cells_pos_in cs i (pos_begin p0) (pos_end p1) ;;
        if negb b then Ok cs
        else h <~ cells_seq_has cs i seq_id ;;
             if h : bool then cells_pos_div i d cs else Ok cs)
      (seqZ 0 (cells_size u.(cells))) u.(cells) ;;
    Ok (with_cells u u.(head) cs).

(** ** Slots *)

Definition is_masked_swa (u : llama_kv_cache_unified) (p0 p1 : Z) : outcome bool :=
  _ <~ assert_that ((0 <=? p0) && (0 <=? p1)) ;;
  match u.(swa_type) with
  | SWA_NONE => Ok false
  | SWA_STANDARD => Ok (i32 u.(n_swa) <=? p1 - p0)
  | SWA_CHUNKED =>
      if u.(n_swa) =? 0 then Ub else Ok (p0 <? i32 (u32 (p1 / u.(n_swa) * u.(n_swa))))
  end.

(** Can cell [i] be taken: it is empty, or holds one sequence whose window has
    left it behind. *)
Definition can_use (u : llama_kv_cache_unified) (i : Z) : outcome bool :=
  e <~ cells_is_empty u.(cells) i ;;
  if e : bool then Ok true
  else
    n <~ cells_seq_count u.(cells) i ;;
    if n =? 1 then
      pos_cell <~ cells_pos_get u.(cells) i ;;
      seq_id_cell <~ cells_seq_get u.(cells) i ;;
      mx <~ cells_seq_pos_max u.(cells) seq_id_cell ;;
      p1 <~ pos_sum mx 1 ;;
      is_masked_swa u pos_cell p1
    else Ok false.

(** The inner loop of [find_slot]: the first [i] whose cell cannot be used. *)
Fixpoint first_taken (u : llama_kv_cache_unified) (base i : Z) (todo : nat) : outcome (option Z) :=
  match todo with
  | O => Ok None
  | S todo => b <~ can_use u (u32 (base + i)) ;;
              if b : bool then first_taken u base (i + 1) todo else Ok (Some i)
  end.

(** [while (true)]; running out of [fuel] is given no value. *)
Fixpoint find_slot_loop (fuel : nat) (u : llama_kv_cache_unified) (n_tokens head_cur n_tested : Z) : outcome Z :=
  match fuel with
  | O => Ub
  | S fuel =>
      let size := cells_size u.(cells) in
      if size <? u32 (head_cur + n_tokens) then
        find_slot_loop fuel u n_tokens 0 (u32 (n_tested + u32 (size - head_cur)))
      else
        r <~ first_taken u head_cur 0 (Z.to_nat n_tokens) ;;
        match r with
        | None => Ok (i32 head_cur)
        | Some i =>
            let n_tested' := u32 (n_tested + (i + 1)) in
            if size <=? n_tested' then Ok (-1)
            else find_slot_loop fuel u n_tokens (u32 (head_cur + (i + 1))) n_tested'
        end
  end.

Definition find_slot (n_tokens : Z) (u : llama_kv_cache_unified) : outcome Z :=
  let size := cells_size u.(cells) in
  let head_cur := if u32 (cells_get_used u.(cells) + u32 (2 * n_tokens)) <? u.(head) then 0 else u.(head) in
  if size <? n_tokens then Ok (-1)
  else find_slot_loop (Z.to_nat (2 * size + 3)) u n_tokens head_cur 0.

(** One token of the first loop of [apply_ubatch]; [mx] is [seq_pos_max_rm]. *)
Definition place_token (head_cur : Z) (ub : llama_ubatch) (i : Z) (st : llama_kv_cells_unified * (Z → Z))
    : outcome (llama_kv_cells_unified * (Z → Z)) :=
  let '(cs, mx) := st in
  let c := u32 (head_cur + i) in
  e <~ cells_is_empty cs c ;;
  '(cs1, mx1) <~ (if e : bool then Ok (cs, mx)
      else
        n <~ cells_seq_count cs c ;;
        _ <~ assert_that (n =? 1) ;;
        seq_id <~ cells_seq_get cs c ;;
        p <~ cells_pos_get cs c ;;
        cs' <~ cells_rm c cs ;;
        Ok (cs', <[seq_id := Z.max (mx seq_id) p]> mx)) ;;
  match ub.(ub_pos) !! Z.to_nat i, ub.(ub_seq_id) !! Z.to_nat i with
  | Some p, Some ids =>
      cs2 <~ cells_pos_set c p cs1 ;;
      cs3 <~ ofold (cells_seq_add c) ids cs2 ;;
      Ok (cs3, mx1)
  | _, _ => Ub
  end.

(** One sequence of the purge loop. *)
Definition purge_seq (mx : Z → Z) (s : Z) (u : llama_kv_cache_unified) : outcome llama_kv_cache_unified :=
  if mx s =? -1 then Ok u
  else
    mn <~ cells_seq_pos_min u.(cells) s ;;
    if mn <=? mx s then kv_seq_rm s mn (mx s + 1) u else Ok u.

(** [apply_ubatch] after its growth of the chunks. *)
Definition apply_grown (head_cur : Z) (ub : llama_ubatch) (u1 : llama_kv_cache_unified)
    : outcome llama_kv_cache_unified :=
  '(cs, mx) <~ ofold (place_token head_cur ub) (seqZ 0 ub.(ub_tokens)) (u1.(cells), λ _, -1) ;;
  u2 <~ ofold (purge_seq mx) (seqZ 0 LLAMA_MAX_SEQ) (with_cells u1 u1.(head) cs) ;;
  Ok (with_cells u2 (u32 (head_cur + ub.(ub_tokens))) u2.(cells)).

(** The flag is [false] when an exception leaves the function. *)
Definition try_apply_ubatch (head_cur : Z) (ub : llama_ubatch) (u : llama_kv_cache_unified)
    : outcome (bool * llama_kv_cache_unified) :=
  '(ok, u1) <~ mz_grow_chunks (u32 (head_cur + ub.(ub_tokens))) u ;;
  if negb ok then Ok (false, u1)
  else u2 <~ apply_grown head_cur ub u1 ;; Ok (true, u2).

Definition apply_ubatch (head_cur : Z) (ub : llama_ubatch) (u : llama_kv_cache_unified)
    : outcome llama_kv_cache_unified :=
  '(ok, u') <~ try_apply_ubatch head_cur ub u ;; if ok : bool then Ok u' else Throw.

(** ** Writing the state *)

(** Selecting the cells of a sequence (all when -1) as ranges: the number of
    cells, the start of the open range ([size] when there is none), the ranges. *)
Definition scan_cell (cs : llama_kv_cells_unified) (seq_id i : Z) (st : Z * Z * list (Z * Z))
    : outcome (Z * Z * list (Z * Z)) :=
  let '(cnt, cell_range_begin, ranges) := st in
  let size := cells_size cs in
  e <~ cells_is_empty cs i ;;
  sel <~ (if e : bool then Ok false else if seq_id =? -1 then Ok true else cells_seq_has cs i seq_id) ;;
  if sel : bool then Ok (u32 (cnt + 1), if cell_range_begin =? size then i else cell_range_begin, ranges)
  else if negb (cell_range_begin =? size) then Ok (cnt, size, ranges ++ [(cell_range_begin, i)])
  else Ok (cnt, cell_range_begin, ranges).

Definition cell_ranges_of (cs : llama_kv_cells_unified) (seq_id : Z) : outcome (Z * list (Z * Z)) :=
  let size := cells_size cs in
  '(cnt, beg, ranges) <~ ofold (scan_cell cs seq_id) (seqZ 0 size) (0, size, []) ;;
  let ranges' := if negb (beg =? size) then ranges ++ [(beg, size)] else ranges in
  let check := foldl (λ n '(a, b), u32 (n + (b - a))) 0 ranges' in
  _ <~ assert_that (cnt =? check) ;;
  Ok (cnt, ranges').

Definition write_cell_meta (u : llama_kv_cache_unified) (seq_id i : Z) (io : list byte) : outcome (list byte) :=
  has <~ otraverse (λ cur, if (cur =? seq_id) || (seq_id =? -1) then cells_seq_has u.(cells) i cur else Ok false)
           (seqZ 0 u.(n_seq_max)) ;;
  let seq_ids := fst <$> filter (λ x, x.2 = true) (zip (seqZ 0 u.(n_seq_max)) has) in
  p <~ cells_pos_get u.(cells) i ;;
  Ok (io ++ le_bytes 4 p ++ le_bytes 4 (Z.of_nat (length seq_ids)) ++ concat (le_bytes 4 <$> seq_ids)).

Definition state_write_meta (ranges : list (Z * Z)) (seq_id : Z) (u : llama_kv_cache_unified)
    (io : list byte) : outcome (list byte) :=
  ofold (λ '(a, b), ofold (write_cell_meta u seq_id) (seqZ a (b - a))) ranges io.

(** [ggml_backend_tensor_get] and [_set] on the base tensor of a slot, which the
    child buffer of that index holds. *)
Definition tensor_get (slot off n : Z) (u : llama_kv_cache_unified) : outcome (list byte) :=
  if n =? 0 then Ok []
  else match u.(child_bufs) !! Z.to_nat slot with
       | Some (p, size) => if off + n <=? size then load (ptr_add p off) n u.(umem) else Ub
       | None => Ub
       end.
Definition tensor_set (slot off : Z) (data : list byte) (u : llama_kv_cache_unified)
    : outcome llama_kv_cache_unified :=
  if Z.of_nat (length data) =? 0 then Ok u
  else match u.(child_bufs) !! Z.to_nat slot with
       | Some (p, size) =>
           if off + Z.of_nat (length data) <=? size
           then m <~ store (ptr_add p off) data u.(umem) ;; Ok (with_mem u u.(chunk_made) m) else Ub
       | None => Ub
       end.

Definition write_k_layer (u : llama_kv_cache_unified) (ranges : list (Z * Z)) (l : kv_layer)
    (io : list byte) : outcome (list byte) :=
  state_write_k_chunked l.(il) (k_row u l) ranges u.(umem)
    (io ++ le_bytes 4 (ggml_type_id l.(k_type)) ++ le_bytes 8 (k_row u l)).

Definition write_v_layer (u : llama_kv_cache_unified) (ranges : list (Z * Z)) (l : kv_layer)
    (io : list byte) : outcome (list byte) :=
  state_write_v_chunked l.(il) (v_row u l) ranges u.(umem)
    (io ++ le_bytes 4 (ggml_type_id l.(v_type)) ++ le_bytes 8 (v_row u l)).

Definition write_v_trans_layer (u : llama_kv_cache_unified) (ranges : list (Z * Z)) (l : kv_layer)
    (io : list byte) : outcome (list byte) :=
  let kv_size := cells_size u.(cells) in
  let v_size_el := ggml_type_size l.(v_type) in
  let n := u.(n_embd_v_gqa) l.(il) in
  ofold (λ j, ofold (λ '(a, b) io,
            d <~ tensor_get (2 * l.(il) + 1) (u64 ((a + j * kv_size) * v_size_el))
                   (u64 ((b - a) * v_size_el)) u ;;
            Ok (io ++ d)) ranges)
    (seqZ 0 n) (io ++ le_bytes 4 (ggml_type_id l.(v_type)) ++ le_bytes 4 v_size_el ++ le_bytes 4 n).

Definition state_write_data (ranges : list (Z * Z)) (u : llama_kv_cache_unified) (io : list byte)
    : outcome (list byte) :=
  let io0 := io ++ le_bytes 4 (if u.(v_trans) then 1 else 0) ++ le_bytes 4 (Z.of_nat (length u.(layers))) in
  io1 <~ ofold (write_k_layer u ranges) u.(layers) io0 ;;
  if negb u.(v_trans) then ofold (write_v_layer u ranges) u.(layers) io1
  else ofold (write_v_trans_layer u ranges) u.(layers) io1.

Definition state_write (seq_id : Z) (u : llama_kv_cache_unified) (io : list byte) : outcome (list byte) :=
  '(cell_count, ranges) <~ cell_ranges_of u.(cells) seq_id ;;
  io1 <~ state_write_meta ranges seq_id u (io ++ le_bytes 4 cell_count) ;;
  state_write_data ranges u io1.

(** ** Reading the state

    A reader returns [false] on an incompatible stream; the stream and the cache
    it has reached go on. *)
Abbreviation reader := (list byte * llama_kv_cache_unified)%type.

(** One cell of a single sequence: its position and number of sequences; the
    sequence id in the stream is discarded. *)
Fixpoint read_seq_cells (n : nat) (ps : list Z) (io : list byte) : outcome (option (list Z) * list byte) :=
  match n with
  | O => Ok (Some ps, io)
  | S n =>
      '(p, io1) <~ io_read_le 4 io ;;
      '(n_seq_id, io2) <~ io_read_le 4 io1 ;;
      if negb (n_seq_id =? 1) then Ok (None, io2)
      else '(_, io3) <~ io_read_le 4 io2 ;; read_seq_cells n (ps ++ [i32 p]) io3
  end.

Definition state_read_meta_seq (cell_count dest_seq_id : Z) (io : list byte) (u : llama_kv_cache_unified)
    : outcome (bool * reader) :=
  u1 <~ kv_seq_rm dest_seq_id (-1) (-1) u ;;
  '(ps, io1) <~ read_seq_cells (Z.to_nat cell_count) [] io ;;
  match ps with
  | None => Ok (false, (io1, u1))
  | Some ps =>
      let ub := Ubatch cell_count ps (replicate (Z.to_nat cell_count) [dest_seq_id]) in
      head_cur <~ find_slot cell_count u1 ;;
      if head_cur <? 0 then Ok (false, (io1, u1))
      else
        u2 <~ apply_ubatch head_cur ub u1 ;;
        let u3 := with_cells u2 head_cur u2.(cells) in
        let last := u32 (head_cur + cell_count - 1) in
        _ <~ assert_that (u32 (head_cur + cell_count) <=? cells_size u3.(cells)) ;;
        match ps !! 0%nat, ps !! Z.to_nat (cell_count - 1) with
        | Some pf, Some pl =>
            p0 <~ cells_pos_get u3.(cells) head_cur ;;
            _ <~ assert_that (p0 =? pf) ;;
            p1 <~ cells_pos_get u3.(cells) last ;;
            _ <~ assert_that (p1 =? pl) ;;
            h0 <~ cells_seq_has u3.(cells) head_cur dest_seq_id ;;
            _ <~ assert_that h0 ;;
            h1 <~ cells_seq_has u3.(cells) last dest_seq_id ;;
            _ <~ assert_that h1 ;;
            Ok (true, (io1, u3))
        | _, _ => Ub
        end
  end.

(** The sequence ids of one cell; [false] at one out of range. *)
Definition read_cell_seq (seq_max i : Z) (_ : Z) (st : list byte * llama_kv_cells_unified)
    : outcome (bool * (list byte * llama_kv_cells_unified)) :=
  let '(io, cs) := st in
  '(s, io1) <~ io_read_le 4 io ;;
  let seq_id := i32 s in
  if (seq_id <? 0) || (seq_max <=? seq_id) then Ok (false, (io1, cs))
  else cs1 <~ cells_seq_add i seq_id cs ;; Ok (true, (io1, cs1)).

Definition read_cell (seq_max i : Z) (st : list byte * llama_kv_cells_unified)
    : outcome (bool * (list byte * llama_kv_cells_unified)) :=
  let '(io, cs) := st in
  '(p, io1) <~ io_read_le 4 io ;;
  '(n_seq_id, io2) <~ io_read_le 4 io1 ;;
  cs1 <~ cells_pos_set i (i32 p) cs ;;
  try_fold (read_cell_seq seq_max i) (seqZ 0 n_seq_id) (io2, cs1).

Definition state_read_meta_all (cell_count : Z) (io : list byte) (u : llama_kv_cache_unified)
    : outcome (bool * reader) :=
  if cells_size u.(cells) <? cell_count then Ok (false, (io, u))
  else
    u1 <~ kv_clear true u ;;
    '(ok, (io1, cs)) <~ try_fold (read_cell u1.(n_seq_max)) (seqZ 0 cell_count) (io, u1.(cells)) ;;
    if ok : bool then Ok (true, (io1, with_cells u1 0 cs)) else Ok (false, (io1, with_cells u1 u1.(head) cs)).

Definition state_read_meta (cell_count dest_seq_id : Z) (io : list byte) (u : llama_kv_cache_unified)
    : outcome (bool * reader) :=
  if negb (dest_seq_id =? -1) then state_read_meta_seq cell_count dest_seq_id io u
  else state_read_meta_all cell_count io u.

(** The keys (values) of one layer. *)
Definition read_k_layer (cell_count : Z) (l : kv_layer) (st : reader) : outcome (bool * reader) :=
  let '(io, u) := st in
  '(k_type_i_ref, io1) <~ io_read_le 4 io ;;
  if negb (ggml_type_id l.(k_type) =? i32 k_type_i_ref) then Ok (false, (io1, u))
  else
    '(k_size_row_ref, io2) <~ io_read_le 8 io1 ;;
    if negb (k_row u l =? k_size_row_ref) then Ok (false, (io2, u))
    else if cell_count =? 0 then Ok (true, (io2, u))
    else '(io3, m) <~ state_read_k_chunked l.(il) (k_row u l) cell_count u.(head) io2 u.(umem) ;;
         Ok (true, (io3, with_mem u u.(chunk_made) m)).

Definition read_v_layer (cell_count : Z) (l : kv_layer) (st : reader) : outcome (bool * reader) :=
  let '(io, u) := st in
  '(v_type_i_ref, io1) <~ io_read_le 4 io ;;
  if negb (ggml_type_id l.(v_type) =? i32 v_type_i_ref) then Ok (false, (io1, u))
  else
    '(v_size_row_ref, io2) <~ io_read_le 8 io1 ;;
    if negb (v_row u l =? v_size_row_ref) then Ok (false, (io2, u))
    else if cell_count =? 0 then Ok (true, (io2, u))
    else '(io3, m) <~ state_read_v_chunked l.(il) (v_row u l) cell_count u.(head) io2 u.(umem) ;;
         Ok (true, (io3, with_mem u u.(chunk_made) m)).

Definition read_v_trans_layer (cell_count : Z) (l : kv_layer) (st : reader) : outcome (bool * reader) :=
  let '(io, u) := st in
  let v_size_el := ggml_type_size l.(v_type) in
  let n := u.(n_embd_v_gqa) l.(il) in
  '(v_type_i_ref, io1) <~ io_read_le 4 io ;;
  if negb (ggml_type_id l.(v_type) =? i32 v_type_i_ref) then Ok (false, (io1, u))
  else
    '(v_size_el_ref, io2) <~ io_read_le 4 io1 ;;
    if negb (v_size_el =? v_size_el_ref) then Ok (false, (io2, u))
    else
      '(n_ref, io3) <~ io_read_le 4 io2 ;;
      if negb (n =? n_ref) then Ok (false, (io3, u))
      else if cell_count =? 0 then Ok (true, (io3, u))
      else
        st' <~ ofold (λ j '(io, u),
            '(d, io') <~ io_read (u64 (cell_count * v_size_el)) io ;;
            u' <~ tensor_set (2 * l.(il) + 1)
                    (u64 (u32 (u.(head) + j * cells_size u.(cells)) * v_size_el)) d u ;;
            Ok (io', u')) (seqZ 0 n) (io3, u) ;;
        Ok (true, st').

Definition state_read_data (cell_count : Z) (io : list byte) (u : llama_kv_cache_unified)
    : outcome (bool * reader) :=
  '(v_trans_ref, io1) <~ io_read_le 4 io ;;
  '(n_layer, io2) <~ io_read_le 4 io1 ;;
  if negb (n_layer =? Z.of_nat (length u.(layers))) then Ok (false, (io2, u))
  else if cells_size u.(cells) <? cell_count then Ok (false, (io2, u))
  else if negb (eqb u.(v_trans) (negb (v_trans_ref =? 0))) then Ok (false, (io2, u))
  else
    '(ok, u1) <~ mz_grow_chunks (u32 (u.(head) + cell_count)) u ;;
    if negb ok then Throw
    else
      '(okk, st) <~ try_fold (read_k_layer cell_count) u1.(layers) (io2, u1) ;;
      if negb okk then Ok (false, st)
      else if negb u1.(v_trans) then try_fold (read_v_layer cell_count) u1.(layers) st
      else try_fold (read_v_trans_layer cell_count) u1.(layers) st.

Definition state_read (seq_id : Z) (io : list byte) (u : llama_kv_cache_unified) : outcome reader :=
  '(cell_count, io1) <~ io_read_le 4 io ;;
  '(ok1, (io2, u1)) <~ state_read_meta cell_count seq_id io1 u ;;
  '(res, (io3, u2)) <~ (if ok1 : bool then state_read_data cell_count io2 u1 else Ok (false, (io2, u1))) ;;
  if res : bool then Ok (io3, u2)
  else
    _ <~ (if seq_id =? -1 then kv_clear true u2 else kv_seq_rm seq_id (-1) (-1) u2) ;; Throw.
End unified.
