(* ===== verification/KvUnifiedGrow.v ===== *)
(** Growth of the unified KV cache: the invariant of the cache's chunks
    ([unified_ok]) and [mz_grow_chunks], which creates the missing chunks of every
    layer and lets the core's KV state follow. *)
From S2P Require Import Prelude Floats KvTypes KvPlan KvLadder KvInv KvFrame KvGrow KvOffload KvSwapIn.
From S2P Require Import Weight Swapout KvOps KvOpsThms KvCells KvUnified.

(** ** Loops whose body can throw *)
Section try_fold.
Context {S A : Type} (f : A → S → outcome (bool * S)) (P : S → Prop) (R : S → S → Prop).
Context (G : A → S → Prop) (bad : A → Prop) `{!PreOrder R}.
Hypothesis Hmono : ∀ a s s', G a s → R s s' → G a s'.

(** Every round keeps [P], moves along [R], and establishes [G a], unless it
    throws, which it does only when [bad a]. *)
Lemma try_fold_spec l s : P s →
  (∀ a s, a ∈ l → P s → ∃ ok s', f a s = Ok (ok, s') ∧ P s' ∧ R s s' ∧ (if ok then G a s' else bad a)) →
  ∃ ok s', try_fold f l s = Ok (ok, s') ∧ P s' ∧ R s s' ∧
    (if ok then ∀ a, a ∈ l → G a s' else ∃ a, a ∈ l ∧ bad a).
Proof using Hmono PreOrder0.
  revert s. induction l as [|a l IH]; intros s HP Hf; cbn [try_fold].
  - exists true, s. split; [done|]. split; [done|]. split; [done|]. by intros a ?%elem_of_nil.
  - destruct (Hf a s ltac:(left) HP) as (ok & s1 & -> & H1 & HR1 & HG). cbn [obind].
    destruct ok; [|exists false, s1; split; [done|]; split; [done|]; split; [done|]; exists a; split; [left|done]].
    destruct (IH s1 H1) as (ok & s' & -> & H' & HR' & HG').
    { intros b s2 Hb. apply Hf. by right. }
    exists ok, s'. split; [done|]. split; [done|]. split; [by etrans|]. destruct ok.
    + intros b [->|Hb]%elem_of_cons; [by eapply Hmono|by apply HG'].
    + destruct HG' as (b & Hb & Hbad). exists b. split; [by right|done].
Qed.
End try_fold.

(** ** The invariant *)

(** A chunk that exists and that no swap-out has taken away. *)
Definition live (u : llama_kv_cache_unified) (p : pos) : Prop :=
  u.(chunk_made) p = true ∧
  ∀ c, u.(g_mzcache_core) = Some c → p.2 < c.(ckv).(num_chunks_per_tensor) →
    c.(ckv).(tab).(states) p = Raw.

Definition n_layers (u : llama_kv_cache_unified) : Z := Z.of_nat (length u.(layers)).

(** Bytes of one chunk of rows of [h] halves. *)
Definition chunk_len (h : Z) : Z := TOKENS_PER_CHUNK * h * sizeof_fp16.

Section unified_inv.
Context `{Cd : Codec} `{Ev : Env}.

(** A half-precision cache with rows of [h] elements. *)
Record unified_ok (h : Z) (u : llama_kv_cache_unified) : Prop := UnifiedOk {
  uo_h : 0 < h < 2 ^ 24;
  uo_layers : il <$> u.(layers) = seqZ 0 (n_layers u);
  uo_n : 0 < n_layers u <= MAX_NUM_LAYERS;
  uo_types : ∀ l, l ∈ u.(layers) → l.(k_type) = F16 ∧ l.(v_type) = F16 ∧
    u.(n_embd_k_gqa) l.(il) = h ∧ u.(n_embd_v_gqa) l.(il) = h;
  uo_alloc : 1 <= u.(n_chunks_alloc) <= MAX_CHUNKS_PER_TENSOR;
  uo_made : ∀ p : pos, 0 <= p.1 < n_layers u → 0 <= p.2 < u.(n_chunks_alloc) → u.(chunk_made) p = true;
  uo_range : ∀ p, u.(chunk_made) p = true → 0 <= p.1 < n_layers u ∧ 0 <= p.2 < MAX_CHUNKS_PER_TENSOR;
  uo_res : ∀ p, live u p → resident u.(umem).(heap) (chunk_len h) (u.(umem).(svm_k) p) (u.(umem).(svm_v) p);
  uo_sep : ∀ p q b, live u p → live u q → p ≠ q →
    uses (u.(umem).(svm_k) p) (u.(umem).(svm_v) p) b →
    uses (u.(umem).(svm_k) q) (u.(umem).(svm_v) q) b → False;
  uo_fresh : ∀ b, is_Some (u.(umem).(heap) !! b) → (b < u.(umem).(next_block))%positive;
  uo_core : ∀ c, u.(g_mzcache_core) = Some c → c.(ckv).(mem) = u.(umem) ∧
    c.(ckv).(num_layers) = n_layers u ∧ c.(ckv).(kv_hidden_dim) = h ∧
    c.(ckv).(num_chunks_per_tensor) <= u.(n_chunks_alloc) ∧ ladder_ok c.(ckv) ∧ mem_ok c.(ckv) }.

(** The chunks and the memory after some growth: existing chunks are where they
    were with what they held, new ones are zero. *)
Record grew (n : Z) (s s' : (pos → bool) * memory) : Prop := Grew {
  gw_made : ∀ q, s.1 q = true → s'.1 q = true;
  gw_tab : ∀ q, s.1 q = true ∨ s'.1 q = false →
    s'.2.(svm_k) q = s.2.(svm_k) q ∧ s'.2.(svm_v) q = s.2.(svm_v) q;
  gw_heap : ∀ b d, s.2.(heap) !! b = Some d → s'.2.(heap) !! b = Some d;
  gw_arenas : s'.2.(arenas) = s.2.(arenas);
  gw_zero : ∀ q, s.1 q = false → s'.1 q = true →
    load (s'.2.(svm_k) q) n s'.2 = Ok (replicate (Z.to_nat n) 0) ∧
    load (s'.2.(svm_v) q) n s'.2 = Ok (replicate (Z.to_nat n) 0) }.

Lemma load_mono p n (m m' : memory) d : (∀ b d, m.(heap) !! b = Some d → m'.(heap) !! b = Some d) →
  load p n m = Ok d → load p n m' = Ok d.
Proof.
  intros Hh. unfold load. destruct p as [[b o]|]; [|done].
  destruct (m.(heap) !! b) as [D|] eqn:Hb; [|done]. by rewrite (Hh _ _ Hb).
Qed.

Lemma resident_mono h h' n k v : (∀ b d, h !! b = Some d → h' !! b = Some d) →
  resident h n k v → resident h' n k v.
Proof.
  intros Hh (bk & bv & dk & Hk & -> & Hv). exists bk, bv, dk. split; [by apply Hh|]. split; [done|].
  destruct Hv as [?|(? & ? & ? & dv & Hdv & ?)]; [by left|]. right. repeat split; try done. exists dv. by split; [apply Hh|].
Qed.

#[global] Instance grew_preorder n : PreOrder (grew n).
Proof.
  split.
  - intros s. split; try done. intros q H1 H2. congruence.
  - intros s1 s2 s3 [A1 A2 A3 A4 A5] [B1 B2 B3 B4 B5]. split; auto; [| congruence|].
    + intros q Hq. assert (s1.1 q = true ∨ s2.1 q = false) as H1.
      { destruct Hq as [?|Hq]; [by left|]. right. destruct (s2.1 q) eqn:E; [|done]. by rewrite (B1 _ E) in Hq. }
      assert (s2.1 q = true ∨ s3.1 q = false) as H2.
      { destruct Hq as [?|Hq]; [left; auto|by right]. }
      destruct (A2 q H1), (B2 q H2). split; congruence.
    + intros q H1 H3. destruct (s2.1 q) eqn:E; [|by apply B5].
      destruct (A5 q H1 E) as [Hk Hv]. destruct (B2 q (or_introl E)) as [-> ->].
      split; by eapply load_mono.
Qed.

(** ** One chunk *)

(** A live chunk's pointers lead into live blocks. *)
Lemma resident_uses h n k v b : resident h n k v → uses k v b → is_Some (h !! b).
Proof.
  intros (bk & bv & dk & Hk & -> & Hv) [[o [= ->]]|[o Ho]]; [eauto|].
  destruct Hv as [(-> & -> & _)|(_ & -> & _ & dv & Hdv & _)]; injection Ho as ->; eauto.
Qed.

(** The KV state's invariants do not mind a fresh block that only entries beyond
    its chunks refer to. *)
Lemma mem_ok_grow s m' : mem_ok s →
  (∀ b d, s.(mem).(heap) !! b = Some d → m'.(heap) !! b = Some d) →
  (∀ p, in_range s p → m'.(svm_k) p = s.(mem).(svm_k) p ∧ m'.(svm_v) p = s.(mem).(svm_v) p) →
  m'.(arenas) = s.(mem).(arenas) →
  (∀ b, is_Some (m'.(heap) !! b) → (b < m'.(next_block))%positive) →
  mem_ok (set_mem s m') ∧ ∀ p, in_range s p → view (set_mem s m') p = view s p.
Proof.
  intros [M1 M2 M3 M4 M5 M6 M7] Hh Ht Ha Hf. split.
  - split; try done; [|by cbn; rewrite Ha].
    intros p Hp. specialize (M3 p Hp). destruct (Ht p Hp) as [Ek Ev']. unfold chunk_ok in *. cbn.
    rewrite Ek, Ev', Ha. destruct (states (tab s) p); [|exact M3|exact M3].
    destruct M3 as (? & ? & Hres). repeat split; try done. by eapply resident_mono.
  - intros p Hp. unfold view. cbn. destruct (Ht p Hp) as [-> ->]. rewrite Ha.
    destruct (states (tab s) p) eqn:E; [|done|done].
    specialize (M3 p Hp). unfold chunk_ok in M3. rewrite E in M3. destruct M3 as (-> & -> & Hres).
    assert (Hpos : 0 < raw_chunk_bytes s) by (unfold raw_chunk_bytes, TOKENS_PER_CHUNK, sizeof_fp16; lia).
    destruct (resident_load _ _ _ _ Hpos Hres) as (kd & vd & Hk & Hv & _).
    change (raw_chunk_bytes (set_mem s m')) with (raw_chunk_bytes s).
    by rewrite Hk, Hv, (load_mono _ _ _ _ _ Hh Hk), (load_mono _ _ _ _ _ Hh Hv).
Qed.

Lemma live_with_mem u made m p : live (with_mem u made m) p ↔
  made p = true ∧ ∀ c, u.(g_mzcache_core) = Some c → p.2 < c.(ckv).(num_chunks_per_tensor) →
    c.(ckv).(tab).(states) p = Raw.
Proof.
  unfold live. cbn. split; intros [Hm Hc]; (split; [done|]).
  - intros c Hu. specialize (Hc (with_kv c (set_mem c.(ckv) m))). rewrite Hu in Hc. by apply Hc.
  - intros c Hu. destruct (g_mzcache_core u) as [c0|]; [|done]. injection Hu as <-. cbn. by apply Hc.
Qed.

Lemma core_with_mem u made m c : (with_mem u made m).(g_mzcache_core) = Some c →
  ∃ c0, u.(g_mzcache_core) = Some c0 ∧ c = with_kv c0 (set_mem c0.(ckv) m).
Proof. cbn. destruct (g_mzcache_core u) as [c0|]; [|done]. intros [= <-]. by exists c0. Qed.

Lemma u64_chunk h : 0 < h < 2 ^ 24 →
  u64 (u64 (TOKENS_PER_CHUNK * h) * sizeof_fp16) = chunk_len h.
Proof.
  intros. unfold chunk_len, TOKENS_PER_CHUNK, sizeof_fp16. rewrite (u64_id (256 * h)) by lia. apply u64_id. lia.
Qed.

(** A zeroed block and the pointers to its halves. *)
Definition fresh_pair (n : Z) (p : pos) (m : memory) : memory :=
  Memory (<[m.(next_block) := replicate (Z.to_nat (n * 2)) 0]> m.(heap)) (Pos.succ m.(next_block))
    (<[p := Some (m.(next_block), 0)]> m.(svm_k)) (<[p := Some (m.(next_block), n)]> m.(svm_v)) m.(arenas).

Lemma grow_layer_chunk_run h l idx (made : pos → bool) m : 0 < h < 2 ^ 24 →
  0 < idx < MAX_CHUNKS_PER_TENSOR →
  grow_layer_chunk l h idx (made, m) =
    Ok (if made (l, idx) then (true, (made, m))
        else if svm_alloc_ok (l, idx) then
          (true, (<[(l, idx) := true]> made, fresh_pair (chunk_len h) (l, idx) m))
        else (false, (made, m))).
Proof.
  intros Hh Hi. unfold grow_layer_chunk. rewrite (proj2 (Z.eqb_neq _ _)), (proj2 (Z.leb_gt _ _)) by lia.
  cbn [orb]. destruct (made (l, idx)); [done|]. rewrite u64_chunk by done.
  destruct (svm_alloc_ok (l, idx)); [|done]. cbn [negb svm_alloc].
  assert (0 < chunk_len h) by (unfold chunk_len, TOKENS_PER_CHUNK, sizeof_fp16; lia).
  rewrite (store_ok _ 0 (fresh_mem (next_block m) (chunk_len h * 2)));
    [|cbn; by rewrite lookup_insert_eq|done|rewrite length_fresh_mem, length_replicate by lia; lia].
  cbn [obind]. replace (write_at 0 _ _) with (replicate (Z.to_nat (chunk_len h * 2)) 0).
  - unfold publish_chunk, fresh_pair. cbn. by rewrite insert_insert_eq.
  - unfold write_at. cbn [Z.to_nat take app Nat.add]. rewrite drop_ge; [by rewrite app_nil_r|].
    pose proof (length_fresh_mem (next_block m) (chunk_len h * 2)). rewrite length_replicate. lia.
Qed.

Lemma fresh_pair_resident n p m : 0 < n →
  resident (fresh_pair n p m).(heap) n ((fresh_pair n p m).(svm_k) p) ((fresh_pair n p m).(svm_v) p).
Proof.
  intros Hn. exists m.(next_block), m.(next_block), (replicate (Z.to_nat (n * 2)) 0). cbn.
  rewrite !fn_lookup_insert, lookup_insert_eq, length_replicate. split; [done|]. split; [done|]. left.
  split; [done|]. split; [done|]. lia.
Qed.

Lemma read_at_zeros o n k : 0 <= o → 0 <= n → o + n <= Z.of_nat k →
  read_at o n (replicate k 0) = replicate (Z.to_nat n) 0.
Proof.
  intros. unfold read_at. rewrite drop_replicate, take_replicate. f_equal. lia.
Qed.

Lemma fresh_pair_grew n p (made : pos → bool) m : 0 < n → made p = false →
  (∀ b, is_Some (m.(heap) !! b) → (b < m.(next_block))%positive) →
  grew n (made, m) (<[p := true]> made, fresh_pair n p m).
Proof.
  intros Hn Hp Hf. split; cbn.
  - intros q Hq. destruct (decide (p = q)) as [<-|]; [by rewrite fn_lookup_insert|by rewrite fn_lookup_insert_ne].
  - intros q Hq. destruct (decide (p = q)) as [<-|]; [|by rewrite !fn_lookup_insert_ne].
    rewrite fn_lookup_insert in Hq. destruct Hq; congruence.
  - intros b d Hb. rewrite lookup_insert_ne; [done|]. intros <-.
    assert (next_block m < next_block m)%positive; [|lia]. apply Hf. eauto.
  - done.
  - intros q Hq Hq'. destruct (decide (p = q)) as [<-|]; [|rewrite fn_lookup_insert_ne in Hq'; congruence].
    rewrite !fn_lookup_insert.
    split; rewrite (load_ok _ _ _ (replicate (Z.to_nat (n * 2)) 0)).
    all: rewrite ?read_at_zeros by lia; try done.
    all: cbn; rewrite ?lookup_insert_eq, ?length_replicate; (done || lia).
Qed.

Lemma grow_step_ok h u l idx (made : pos → bool) m : unified_ok h (with_mem u made m) →
  0 <= l < n_layers u → u.(n_chunks_alloc) <= idx < MAX_CHUNKS_PER_TENSOR → made (l, idx) = false →
  unified_ok h (with_mem u (<[(l, idx) := true]> made) (fresh_pair (chunk_len h) (l, idx) m)).
Proof.
  intros Hu Hl Hi Hnew. set (p := (l, idx)) in *. set (m' := fresh_pair _ p m).
  pose proof Hu as [U1 U2 U3 U4 U5 U6 U7 U8 U9 U10 U11]. cbn in U2, U4, U5, U6, U7, U8, U9, U10.
  assert (Hn : 0 < chunk_len h) by (unfold chunk_len, TOKENS_PER_CHUNK, sizeof_fp16; lia).
  pose proof (fresh_pair_grew (chunk_len h) p made m Hn Hnew U10) as [G1 G2 G3 G4 G5].
  fold m' in G1, G2, G3, G4, G5. cbn [fst snd] in G1, G2, G3, G4, G5.
  assert (Hlive : ∀ q, live (with_mem u (<[p := true]> made) m') q → q = p ∨ (q ≠ p ∧ live (with_mem u made m) q)).
  { intros q [Hq Hc]%live_with_mem. destruct (decide (p = q)) as [->|Hne]; [by left|right].
    split; [congruence|]. apply live_with_mem. rewrite fn_lookup_insert_ne in Hq by done. done. }
  assert (Hpb : ∀ b, uses (svm_k m' p) (svm_v m' p) b → b = m.(next_block)).
  { intros b. unfold m'. cbn. rewrite !fn_lookup_insert. intros [[o [= ->]]|[o [= ->]]]; done. }
  assert (Htq : ∀ q, q ≠ p → svm_k m' q = svm_k m q ∧ svm_v m' q = svm_v m q).
  { intros q Hq. unfold m'. cbn. by rewrite !fn_lookup_insert_ne. }
  assert (Hres : resident m'.(heap) (chunk_len h) (svm_k m' p) (svm_v m' p)) by by apply fresh_pair_resident.
  assert (Hdom : ∀ b, is_Some (heap m' !! b) → (b < m'.(next_block))%positive).
  { intros b. unfold m'. cbn. destruct (decide (b = next_block m)) as [->|Hne]; [lia|].
    rewrite lookup_insert_ne by done. intros Hb%U10. lia. }
  clearbody m'.
  assert (Hold : ∀ q b, q ≠ p → live (with_mem u made m) q → uses (svm_k m' q) (svm_v m' q) b → b ≠ m.(next_block)).
  { intros q b Hq Hlq Hub ->. destruct (Htq q Hq) as [Ek Ev']. rewrite Ek, Ev' in Hub.
    assert (next_block m < next_block m)%positive; [|lia]. apply U10.
    eapply resident_uses; [by apply U8|done]. }
  split; try done; cbn.
  - intros q H1 H2. by apply G1, U6.
  - intros q Hq. destruct (decide (p = q)) as [<-|]; [|rewrite fn_lookup_insert_ne in Hq by done; auto]. unfold p. change (n_layers _) with (n_layers u). cbn. lia.
  - intros q Hq. destruct (Hlive q Hq) as [->|[Hne Hlq]]; [done|].
    destruct (Htq q Hne) as [-> ->]. eapply resident_mono; [exact G3|by apply U8].
  - intros q r b Hq Hr Hne Hbq Hbr.
    destruct (Hlive q Hq) as [->|[Hqp Hlq]], (Hlive r Hr) as [->|[Hrp Hlr]]; [done| | |].
    + apply (Hold r b Hrp Hlr Hbr). by apply Hpb.
    + apply (Hold q b Hqp Hlq Hbq). by apply Hpb.
    + destruct (Htq q Hqp) as [Ek Ev'], (Htq r Hrp) as [Ek2 Ev2]. rewrite Ek, Ev' in Hbq. rewrite Ek2, Ev2 in Hbr.
      by apply (U9 q r b).
  - intros c Hc. destruct (g_mzcache_core u) as [c0|] eqn:Hc0; [|done]. injection Hc as <-.
    destruct (U11 (with_kv c0 (set_mem (ckv c0) m))) as (_ & C2 & C3 & C4 & C5 & C6); [cbn; by rewrite Hc0|].
    cbn in C2, C3, C4, C5, C6. split; [done|]. split; [done|]. split; [done|]. split; [done|].
    split; [by destruct C5|]. cbn.
    change (set_mem (ckv c0) m') with (set_mem (set_mem (ckv c0) m) m').
    apply mem_ok_grow; [done|exact G3| |done|done].
    intros q [_ Hq]. cbn in Hq. apply Htq. intros ->. cbn in Hq. lia.
Qed.

(** ** All chunks *)

Lemma n_layers_pos u h l : unified_ok h u → l ∈ u.(layers) → 0 <= l.(il) < n_layers u.
Proof.
  intros Hu Hl. assert (Hi : il l ∈ il <$> u.(layers)) by by apply list_elem_of_fmap_2.
  rewrite (uo_layers _ _ Hu) in Hi. by apply elem_of_seqZ in Hi.
Qed.

(** A chunk whose allocation the driver refuses. *)
Definition refused (lo hi : Z) (u : llama_kv_cache_unified) : Prop :=
  ∃ p : pos, 0 <= p.1 < n_layers u ∧ lo <= p.2 < hi ∧ svm_alloc_ok p = false.

Section loops.
Context (h : Z) (u : llama_kv_cache_unified) (need : Z).
Hypothesis Hneed : need <= MAX_CHUNKS_PER_TENSOR.

Lemma grow_layer_spec l s : unified_ok h (with_mem u s.1 s.2) → l ∈ u.(layers) →
  ∃ ok s', grow_layer u.(n_chunks_alloc) need u l s = Ok (ok, s') ∧ unified_ok h (with_mem u s'.1 s'.2) ∧
    grew (chunk_len h) s s' ∧
    (if ok then ∀ i, u.(n_chunks_alloc) <= i < need → s'.1 (l.(il), i) = true
     else refused u.(n_chunks_alloc) need u).
Proof using Hneed.
  intros Hu Hl. pose proof (n_layers_pos _ _ _ Hu Hl) as Hil. destruct (uo_types _ _ Hu l Hl) as (_ & _ & Hk & _).
  cbn in Hk. destruct (try_fold_spec (grow_layer_chunk l.(il) h) (λ s, unified_ok h (with_mem u s.1 s.2))
    (grew (chunk_len h)) (λ i s, s.1 (l.(il), i) = true) (λ i, svm_alloc_ok (l.(il), i) = false)
    (λ i s1 s2 H1 HR, gw_made _ _ _ HR _ H1) (seqZ u.(n_chunks_alloc) (need - u.(n_chunks_alloc))) s Hu)
    as (ok & s' & Hrun & Hu' & HR & HG).
  - intros i [made m] Hi%elem_of_seqZ Hs. cbn [fst snd] in *. pose proof (uo_alloc _ _ Hs) as Ha. cbn in Ha.
    pose proof (uo_h _ _ Hs) as Hh. rewrite grow_layer_chunk_run by lia.
    destruct (made (il l, i)) eqn:Em; [exists true, (made, m); split; [done|]; split; [done|]; by split|].
    destruct (svm_alloc_ok (il l, i)) eqn:Ea; [|exists false, (made, m); split; [done|]; split; [done|]; by split].
    eexists true, _. split; [done|]. cbn [fst snd]. split; [apply grow_step_ok; (done || lia)|].
    rewrite fn_lookup_insert. split; [|done]. apply fresh_pair_grew; [|done|apply (uo_fresh _ _ Hs)].
    unfold chunk_len, TOKENS_PER_CHUNK, sizeof_fp16. lia.
  - exists ok, s'. unfold grow_layer. rewrite Hk. split; [done|]. split; [done|]. split; [done|].
    destruct ok; [intros i Hi; apply HG, elem_of_seqZ; lia|].
    destruct HG as (i & Hi%elem_of_seqZ & Hb). exists (il l, i). cbn. split; [done|]. split; [lia|done].
Qed.

Lemma grow_all_spec s : unified_ok h (with_mem u s.1 s.2) →
  ∃ ok s', try_fold (grow_layer u.(n_chunks_alloc) need u) u.(layers) s = Ok (ok, s') ∧
    unified_ok h (with_mem u s'.1 s'.2) ∧ grew (chunk_len h) s s' ∧
    (if ok then ∀ p : pos, 0 <= p.1 < n_layers u → u.(n_chunks_alloc) <= p.2 < need → s'.1 p = true
     else refused u.(n_chunks_alloc) need u).
Proof using Hneed.
  intros Hu.
  destruct (try_fold_spec (grow_layer u.(n_chunks_alloc) need u) (λ s, unified_ok h (with_mem u s.1 s.2))
    (grew (chunk_len h)) (λ l s, ∀ i, u.(n_chunks_alloc) <= i < need → s.1 (l.(il), i) = true)
    (λ _, refused u.(n_chunks_alloc) need u)
    (λ l s1 s2 H1 HR i Hi, gw_made _ _ _ HR _ (H1 i Hi)) u.(layers) s Hu)
    as (ok & s' & Hrun & Hu' & HR & HG).
  - intros l s1 Hl Hs1. by apply grow_layer_spec.
  - exists ok, s'. split; [done|]. split; [done|]. split; [done|]. destruct ok; [|by destruct HG as (? & _ & ?)].
    intros [a b] Hp1 Hp2. cbn in *. pose proof (uo_layers _ _ Hu) as Hil. cbn in Hil.
    assert (Ha : a ∈ il <$> u.(layers)) by (rewrite Hil; apply elem_of_seqZ; exact (conj (proj1 Hp1) (proj2 Hp1))).
    apply list_elem_of_fmap in Ha as (l & -> & Hl). by apply (HG l Hl).
Qed.
End loops.

(** ** The core follows *)

Lemma with_mem_self h u : unified_ok h u → with_mem u u.(chunk_made) u.(umem) = u.
Proof.
  intros Hu. destruct u as [? ? ? ? ? ? ? ? ? ? ? ? ? m core]. unfold with_mem. cbn. f_equal.
  destruct core as [c|]; [|done]. cbn. f_equal.
  destruct (uo_core _ _ Hu c eq_refl) as (Hm & _). cbn in Hm. rewrite <- Hm.
  destruct c as [? ? ? ? k ?]. unfold with_kv. cbn. f_equal. by destruct k.
Qed.

(** Changing the registered chunks keeps the invariant when no chunk comes back
    to life. *)
Lemma unified_ok_core h u need core : unified_ok h u → u.(n_chunks_alloc) <= need <= MAX_CHUNKS_PER_TENSOR →
  (∀ p : pos, 0 <= p.1 < n_layers u → 0 <= p.2 < need → u.(chunk_made) p = true) →
  (∀ p, live (with_alloc u need core) p → live u p) →
  (∀ c, core = Some c → c.(ckv).(mem) = u.(umem) ∧ c.(ckv).(num_layers) = n_layers u ∧
     c.(ckv).(kv_hidden_dim) = h ∧ c.(ckv).(num_chunks_per_tensor) <= need ∧ ladder_ok c.(ckv) ∧ mem_ok c.(ckv)) →
  unified_ok h (with_alloc u need core).
Proof.
  intros [U1 U2 U3 U4 U5 U6 U7 U8 U9 U10 U11] Hn Hm Hl Hc.
  split; try done; cbn; [lia|intros p Hp; by apply U8, Hl|intros p q b Hp Hq; by apply U9; apply Hl].
Qed.

(** On a clean cache every chunk that exists is live, so the tensors are in
    place for the KV state to register. *)
Lemma unified_tensors h u need : unified_ok h u →
  (∀ c, u.(g_mzcache_core) = Some c → clean_ladder c.(ckv) = true) →
  (∀ p : pos, 0 <= p.1 < n_layers u → 0 <= p.2 < need → u.(chunk_made) p = true) →
  tensors_ok (n_layers u) need (chunk_len h) u.(umem).
Proof.
  intros Hu Hc Hm.
  assert (Hlive : ∀ p : pos, 0 <= p.1 < n_layers u → 0 <= p.2 < need → live u p).
  { intros p H1 H2. split; [by apply Hm|]. intros c Hco Hr.
    destruct (uo_core _ _ Hu c Hco) as (_ & HL & _ & _ & Hlad & _).
    apply clean_all_raw; [done|by apply Hc|]. split; [by rewrite HL|lia]. }
  split; [|intros p q b H1 H2 H3 H4; apply (uo_sep _ _ Hu); by apply Hlive|apply Hu].
  intros p H1 H2. by apply (uo_res _ _ Hu), Hlive.
Qed.

(** What becomes of the core's KV state when the cache has grown to [need]. *)
Definition followed (need : Z) (s s' : kv_state) : Prop :=
  if clean_ladder s then grown need s s' ∧ s'.(pending_chunks_total) = s.(pending_chunks_total)
  else s' = set_pending s (Z.max s.(pending_chunks_total) need).

Lemma sync_chunks_ckv c : (sync_chunks c).(ckv) = c.(ckv).
Proof. unfold sync_chunks. by destruct (_ =? _). Qed.

Lemma core_follows h u c need : unified_ok h u → u.(g_mzcache_core) = Some c →
  u.(n_chunks_alloc) < need <= MAX_CHUNKS_PER_TENSOR →
  (∀ p : pos, 0 <= p.1 < n_layers u → 0 <= p.2 < need → u.(chunk_made) p = true) →
  (clean_ladder c.(ckv) = true → 0 <= c.(ckv).(per_layer_balance) ∧ ratio_ok need c.(ckv).(decomp_load_ratio) = true) →
  ∃ c', on_kv_chunks_grown need c = Ok c' ∧ followed need c.(ckv) c'.(ckv) ∧
    unified_ok h (with_alloc u need (Some c')).
Proof.
  intros Hu Hco Hneed Hm Hready. destruct (uo_core _ _ Hu c Hco) as (E1 & E2 & E3 & E4 & Hlad & Hmem).
  unfold on_kv_chunks_grown, followed. destruct (clean_ladder (ckv c)) eqn:Hcl.
  - destruct (Hready eq_refl) as [Hb Hr].
    assert (Hten : tensors_ok (num_layers (ckv c)) need (raw_chunk_bytes (ckv c)) (mem (ckv c))).
    { unfold raw_chunk_bytes. rewrite E1, E2, E3. apply (unified_tensors h); [done| |done].
      intros c' Hc'. congruence. }
    destruct (register_grown_spec need (ckv c) Hlad Hmem Hcl Hb ltac:(lia) Hr Hten) as (s' & -> & Hg & Hp).
    cbn [obind]. eexists. split; [done|]. rewrite sync_chunks_ckv. cbn [with_kv ckv]. split; [done|].
    destruct Hg as [g1 g2 g3 g4 g5 g6 g7 g8 (x & t & p & cu & Hsh)].
    apply unified_ok_core; [done|lia|done| |].
    + intros q [Hq _]. split; [done|]. intros c0 Hc0 Hq2.
      assert (c0 = c) as -> by congruence. apply clean_all_raw; [done|done|].
      destruct (uo_range _ _ Hu q Hq) as [Hq1 Hq2']. split; [by rewrite E2|lia].
    + intros c0 [= <-]. rewrite sync_chunks_ckv. cbn [with_kv ckv]. rewrite g3.
      split; [by rewrite Hsh|]. split; [by rewrite Hsh|]. split; [by rewrite Hsh|]. split; [lia|done].
  - unfold register_grown_chunks. rewrite (proj2 (Z.leb_gt _ _)), (proj2 (Z.ltb_ge _ _)), Hcl by lia.
    cbn [negb obind]. eexists. split; [done|]. rewrite sync_chunks_ckv. cbn [with_kv ckv]. split; [done|].
    apply unified_ok_core; [done|lia|done| |].
    + intros q [Hq Hst]. split; [done|]. intros c0 Hc0 Hq2. assert (c0 = c) as -> by congruence.
      specialize (Hst _ eq_refl). rewrite sync_chunks_ckv in Hst. by apply Hst.
    + intros c0 [= <-]. rewrite sync_chunks_ckv. cbn [with_kv ckv]. cbn [set_pending mem num_layers kv_hidden_dim num_chunks_per_tensor].
      split; [done|]. split; [done|]. split; [done|]. split; [lia|].
      split; [by destruct Hlad|by destruct Hmem].
Qed.

(** The cache after growing: only the chunks, their number and the core's KV
    state are new. *)
Record grown_cache (h need : Z) (ok : bool) (u u' : llama_kv_cache_unified) : Prop := GrownCache {
  gc_ok : unified_ok h u';
  gc_chunks : grew (chunk_len h) (u.(chunk_made), u.(umem)) (u'.(chunk_made), u'.(umem));
  gc_alloc : u'.(n_chunks_alloc) = if ok then Z.max u.(n_chunks_alloc) need else u.(n_chunks_alloc);
  gc_frame : ∃ made m n core, u' = with_alloc (with_mem u made m) n core;
  gc_none : u.(g_mzcache_core) = None → u'.(g_mzcache_core) = None;
  gc_core : ∀ c, u.(g_mzcache_core) = Some c → ∃ c', u'.(g_mzcache_core) = Some c' ∧
    (if ok && (u.(n_chunks_alloc) <? need) then followed need (set_mem c.(ckv) u'.(umem)) c'.(ckv)
     else c' = with_kv c (set_mem c.(ckv) u'.(umem))) }.

Lemma unified_mem_self h u c : unified_ok h u → u.(g_mzcache_core) = Some c →
  with_kv c (set_mem c.(ckv) u.(umem)) = c.
Proof.
  intros Hu Hc. destruct (uo_core _ _ Hu c Hc) as (Hm & _). rewrite <- Hm.
  destruct c as [? ? ? ? k ?]. unfold with_kv. cbn. f_equal. by destruct k.
Qed.

Lemma with_alloc_self u : with_alloc u u.(n_chunks_alloc) u.(g_mzcache_core) = u.
Proof. by destruct u. Qed.

Lemma grown_nothing h need u : unified_ok h u → need <= u.(n_chunks_alloc) → grown_cache h need true u u.
Proof.
  intros Hu Hn. split; try done; [lia| |].
  - exists u.(chunk_made), u.(umem), u.(n_chunks_alloc), u.(g_mzcache_core).
    by rewrite (with_mem_self h), with_alloc_self.
  - intros c Hc. exists c. split; [done|]. rewrite (proj2 (Z.ltb_ge _ _)) by lia.
    symmetry. by apply (unified_mem_self h).
Qed.

Lemma need_chunks n : 0 <= n <= MAX_CHUNKS_PER_TENSOR * TOKENS_PER_CHUNK →
  u32 (n + TOKENS_PER_CHUNK - 1) / TOKENS_PER_CHUNK = (n + 255) / 256 ∧ (n + 255) / 256 <= 256.
Proof.
  unfold MAX_CHUNKS_PER_TENSOR, TOKENS_PER_CHUNK. intros Hn. rewrite u32_id by lia.
  split; [f_equal; lia|]. apply Z.lt_succ_r, Z.div_lt_upper_bound; lia.
Qed.

Lemma mz_grow_chunks_spec h n u : unified_ok h u → 0 <= n <= MAX_CHUNKS_PER_TENSOR * TOKENS_PER_CHUNK →
  let need := (n + 255) / 256 in
  (∀ c, u.(g_mzcache_core) = Some c → clean_ladder c.(ckv) = true →
     0 <= c.(ckv).(per_layer_balance) ∧ ratio_ok need c.(ckv).(decomp_load_ratio) = true) →
  ∃ ok u', mz_grow_chunks n u = Ok (ok, u') ∧ grown_cache h need ok u u' ∧
    (ok = false → refused u.(n_chunks_alloc) need u).
Proof.
  intros Hu Hn need Hready. unfold mz_grow_chunks. destruct (need_chunks n Hn) as [-> Hmax]. fold need in Hmax |- *.
  destruct (Z.leb_spec need (n_chunks_alloc u)) as [Hle|Hgt].
  { exists true, u. split; [done|]. split; [by apply grown_nothing|done]. }
  rewrite (proj2 (Z.ltb_ge _ _)) by (unfold MAX_CHUNKS_PER_TENSOR; lia).
  pose proof (with_mem_self h u Hu) as Hself.
  destruct (grow_all_spec h u need ltac:(done) (u.(chunk_made), u.(umem))) as (ok & [made m] & -> & Hu1 & Hgr & HG).
  { cbn. by rewrite Hself. }
  cbn [obind fst snd] in *. set (u1 := with_mem u made m) in *.
  destruct ok; cbn [negb].
  - assert (Hall : ∀ p : pos, 0 <= p.1 < n_layers u1 → 0 <= p.2 < need → u1.(chunk_made) p = true).
    { intros p H1 H2. destruct (Z.lt_ge_cases p.2 (n_chunks_alloc u)) as [Hlt|Hge].
      - apply (uo_made _ _ Hu1); [done|exact (conj (proj1 H2) Hlt)].
      - apply HG; [done|lia]. }
    pose proof (uo_alloc _ _ Hu1) as Ha. cbn in Ha.
    destruct (g_mzcache_core u) as [c|] eqn:Hc; unfold u1 at 1; cbn [with_mem g_mzcache_core]; rewrite Hc; cbn [fmap option_fmap option_map].
    + set (c1 := with_kv c (set_mem (ckv c) m)).
      assert (Hc1 : g_mzcache_core u1 = Some c1) by (unfold u1; cbn; by rewrite Hc).
      destruct (core_follows h u1 c1 need Hu1 Hc1 (conj Hgt Hmax) Hall (Hready c eq_refl)) as (c' & -> & Hf & Hok).
      cbn [obind]. exists true, (with_alloc u1 need (Some c')). split; [done|]. split; [|done]. split; try done.
      * cbn. lia.
      * by exists made, m, need, (Some c').
      * congruence.
      * intros c2 Hc2. assert (c2 = c) as -> by congruence. exists c'. split; [done|].
        by rewrite (proj2 (Z.ltb_lt _ _)).
    + exists true, (with_alloc u1 need None). split; [done|]. split; [|done]. split; try done.
      * apply unified_ok_core; [done|cbn; unfold MAX_CHUNKS_PER_TENSOR; lia|done| |done]. intros p [Hp _]. split; [done|].
        unfold u1. cbn. by rewrite Hc.
      * cbn. lia.
      * by exists made, m, need, None.
      * congruence.
  - exists false, u1. split; [done|]. split; [|done]. split; try done.
    + exists made, m, u1.(n_chunks_alloc), u1.(g_mzcache_core). symmetry. apply with_alloc_self.
    + intros Hc. unfold u1. cbn. by rewrite Hc.
    + intros c Hc. unfold u1. cbn. rewrite Hc. eexists. by split.
Qed.

(** What the core's chunks hold is not changed by the cache growing. *)
Lemma grown_views h need ok u u' c : unified_ok h u → grown_cache h need ok u u' → u.(g_mzcache_core) = Some c →
  ∃ c', u'.(g_mzcache_core) = Some c' ∧ ∀ p, in_range c.(ckv) p → view c'.(ckv) p = view c.(ckv) p.
Proof.
  intros Hu Hg Hc. destruct (gc_core _ _ _ _ _ Hg c Hc) as (c' & Hc' & Hf). exists c'. split; [done|].
  destruct (uo_core _ _ Hu c Hc) as (E1 & E2 & _ & E4 & _ & Hmem). pose proof (gc_chunks _ _ _ _ _ Hg) as Hgr.
  destruct (mem_ok_grow c.(ckv) u'.(umem) Hmem) as [_ Hv].
  - intros b d. rewrite E1. apply (gw_heap _ _ _ Hgr).
  - intros p [H1 H2]. rewrite E1. apply (gw_tab _ _ _ Hgr). left. cbn. apply (uo_made _ _ Hu); [by rewrite <- E2|lia].
  - rewrite E1. apply (gw_arenas _ _ _ Hgr).
  - apply (uo_fresh _ _ (gc_ok _ _ _ _ _ Hg)).
  - intros p Hp. rewrite <- (Hv p Hp). destruct (ok && _); [|by rewrite Hf]. unfold followed in Hf.
    destruct (clean_ladder (set_mem (ckv c) (umem u'))); [by apply (gr_view _ _ _ (proj1 Hf))|by rewrite Hf].
Qed.

(** C11: growing the cache.  For a cache in the invariant and at most 65536
    tokens, [mz_grow_chunks] ends without a failed assertion or an access out of
    bounds.  Afterwards the invariant holds again (so the core's tables and
    memory are those of the cache); chunks that existed are where they were and
    hold what they held, new ones are zero; every layer has a chunk for each of
    the rows asked for; and the core's KV state has followed - its chunks
    registered at once and the plan redone when nothing is swapped out, the
    number kept as pending otherwise - with what its chunks hold unchanged.  It
    throws only when the driver refuses a chunk, and then the number of chunks is
    the old one. *)
Theorem mz_grow_chunks_ok h n u : unified_ok h u → 0 <= n <= MAX_CHUNKS_PER_TENSOR * TOKENS_PER_CHUNK →
  let need := (n + 255) / 256 in
  (∀ c, u.(g_mzcache_core) = Some c → clean_ladder c.(ckv) = true →
     0 <= c.(ckv).(per_layer_balance) ∧ ratio_ok need c.(ckv).(decomp_load_ratio) = true) →
  ∃ ok u', mz_grow_chunks n u = Ok (ok, u') ∧ unified_ok h u' ∧ u'.(cells) = u.(cells) ∧
    grew (chunk_len h) (u.(chunk_made), u.(umem)) (u'.(chunk_made), u'.(umem)) ∧
    (∀ c, u.(g_mzcache_core) = Some c → ∃ c', u'.(g_mzcache_core) = Some c' ∧
       (∀ p, in_range c.(ckv) p → view c'.(ckv) p = view c.(ckv) p) ∧
       if ok && (u.(n_chunks_alloc) <? need) then followed need (set_mem c.(ckv) u'.(umem)) c'.(ckv)
       else c' = with_kv c (set_mem c.(ckv) u'.(umem))) ∧
    if ok then u'.(n_chunks_alloc) = Z.max u.(n_chunks_alloc) need ∧
               ∀ l r, 0 <= l < n_layers u → 0 <= r < n → u'.(chunk_made) (l, r / TOKENS_PER_CHUNK) = true
    else u'.(n_chunks_alloc) = u.(n_chunks_alloc) ∧ refused u.(n_chunks_alloc) need u.
Proof.
  intros Hu Hn need Hready. destruct (mz_grow_chunks_spec h n u Hu Hn Hready) as (ok & u' & Hrun & Hg & Href).
  fold need in Hg, Href. pose proof Hg as [Hok Hgr Ha (made & m & k & core & Hsh) _ Hcore].
  exists ok, u'. split; [done|]. split; [done|]. split; [by rewrite Hsh|]. split; [done|]. split.
  - intros c Hc. destruct (Hcore c Hc) as (c' & Hc' & Hf). exists c'. split; [done|]. split; [|done].
    destruct (grown_views _ _ _ _ _ _ Hu Hg Hc) as (c2 & Hc2 & Hv). by assert (c2 = c') as -> by congruence.
  - destruct ok; [|split; [done|by apply Href]]. split; [done|]. intros l r Hl Hr.
    apply (uo_made _ _ Hok); cbn; [by rewrite Hsh|]. rewrite Ha. unfold TOKENS_PER_CHUNK.
    split; [apply Z.div_pos; lia|]. apply Z.lt_le_trans with need; [|lia]. unfold need.
    apply Z.lt_le_trans with (r / 256 + 1); [lia|].
    rewrite <- (Z.div_add r 1 256) by lia. apply Z.div_le_mono; lia.
Qed.
End unified_inv.
