(* ===== verification/KvCellsThms.v ===== *)
(** The invariant of the cells ([cells_ok]) and the operations that fill empty
    cells ([src/llama-kv-cells.h]). *)
From S2P Require Import Prelude KvCells.

(** The redundant members agree with the vectors: [used] has the cells with a
    position, [seq_pos] the positions of each sequence. *)
Record cells_ok (cs : llama_kv_cells_unified) : Prop := CellsOk {
  ck_used : ∀ i, i ∈ cs.(used) ↔ 0 <= i ∧ ∃ c, cs.(cell_list) !! Z.to_nat i = Some c ∧ c.(c_pos) ≠ -1;
  ck_pos : ∀ i c, cs.(cell_list) !! i = Some c → -1 <= c.(c_pos) < 2 ^ 31 - 1;
  ck_empty : ∀ i c, cs.(cell_list) !! i = Some c → c.(c_pos) = -1 → c = empty_cell;
  ck_seq : ∀ i c s, cs.(cell_list) !! i = Some c → s ∈ c.(c_seq) → 0 <= s < LLAMA_MAX_SEQ;
  ck_seq_pos : ∀ s p, p ∈ cs.(seq_pos) s ↔
    ∃ i c, cs.(cell_list) !! i = Some c ∧ s ∈ c.(c_seq) ∧ c.(c_pos) = p }.

Lemma cell_at_ok cs i c : cell_at cs i = Ok c ↔ 0 <= i ∧ cs.(cell_list) !! Z.to_nat i = Some c.
Proof.
  unfold cell_at. destruct (Z.leb_spec 0 i) as [H|H]; [|split; [done|intros [? _]; lia]].
  destruct (cell_list cs !! Z.to_nat i) as [c'|] eqn:E; split; try done; [by intros [= ->]|by intros [_ [= ->]]|by intros [_ ?]].
Qed.

Lemma cell_lt cs i c : 0 <= i → cs.(cell_list) !! Z.to_nat i = Some c → i < cells_size cs.
Proof. intros Hi Hc%lookup_lt_Some. unfold cells_size. lia. Qed.

Lemma cell_some cs i : 0 <= i < cells_size cs → ∃ c, cs.(cell_list) !! Z.to_nat i = Some c.
Proof. intros Hi. apply lookup_lt_is_Some_2. unfold cells_size in Hi. lia. Qed.

Lemma cells_is_empty_ok cs i c : cells_ok cs → 0 <= i → cs.(cell_list) !! Z.to_nat i = Some c →
  cells_is_empty cs i = Ok (c.(c_pos) =? -1).
Proof.
  intros Hok Hi Hc. unfold cells_is_empty. rewrite (proj2 (cell_at_ok cs i c)) by done. cbn [obind].
  pose proof (ck_pos _ Hok _ _ Hc). by rewrite (proj2 (Z.leb_le (-1) _)) by lia.
Qed.

Lemma size_put cs i c : cells_size (put_cell i c cs) = cells_size cs.
Proof. unfold cells_size, put_cell. cbn. by rewrite length_insert. Qed.

Lemma reset_ok cs : cells_ok (cells_reset cs).
Proof.
  assert (H : ∀ i c, (cells_reset cs).(cell_list) !! i = Some c → c = empty_cell).
  { intros i c. cbn. rewrite list_lookup_fmap. destruct (cell_list cs !! i); [|done]. by intros [= <-]. }
  split.
  - intros i. split; [by intros ?%elem_of_empty|]. intros (_ & c & ->%H & Hc). done.
  - intros i c ->%H. cbn. lia.
  - intros i c Hc _. by apply (H i).
  - intros i c s ->%H Hs. by apply elem_of_empty in Hs.
  - intros s p. split; [by intros ?%elem_of_empty|]. intros (i & c & ->%H & Hs & _). by apply elem_of_empty in Hs.
Qed.

(** ** Filling an empty cell *)

Lemma pos_set_spec cs i p c : cells_ok cs → 0 <= i → cs.(cell_list) !! Z.to_nat i = Some c →
  c.(c_pos) = -1 → 0 <= p < 2 ^ 31 - 1 →
  ∃ cs', cells_pos_set i p cs = Ok cs' ∧ cells_ok cs' ∧
    cs'.(cell_list) = <[Z.to_nat i := KvCell p 0 ∅]> cs.(cell_list) ∧ cs'.(has_shift) = cs.(has_shift).
Proof.
  intros Hok Hi Hc Hp Hp'. pose proof (ck_empty _ Hok _ _ Hc Hp) as ->.
  unfold cells_pos_set. rewrite (proj2 (cell_at_ok cs i empty_cell)) by done. cbn [obind empty_cell c_pos c_seq c_shift].
  rewrite bool_decide_eq_true_2 by done. cbn. eexists. split; [reflexivity|]. split; [|done].
  pose proof (lookup_lt_Some _ _ _ Hc) as Hlt.
  assert (HL : ∀ j c, <[Z.to_nat i := KvCell p 0 ∅]> (cell_list cs) !! j = Some c →
    (j = Z.to_nat i ∧ c = KvCell p 0 ∅) ∨ (j ≠ Z.to_nat i ∧ cell_list cs !! j = Some c)).
  { intros j c Hj. destruct (decide (j = Z.to_nat i)) as [->|Hne].
    - rewrite list_lookup_insert_eq in Hj by done. left. by split; [|congruence].
    - rewrite list_lookup_insert_ne in Hj by done. by right. }
  split; unfold put_used, put_cell; cbn [used cell_list seq_pos].
  - intros j. rewrite elem_of_union, elem_of_singleton, (ck_used _ Hok). split.
    + intros [(Hj & d & Hd & Hdp)| ->]; [|split; [done|]; exists (KvCell p 0 ∅)].
      * split; [done|]. destruct (decide (j = i)) as [->|Hne]; [congruence|].
        exists d. rewrite list_lookup_insert_ne by lia. done.
      * rewrite list_lookup_insert_eq by done. split; [done|]. cbn. lia.
    + intros (Hj & d & Hd & Hdp). apply HL in Hd as [[He _]|[_ Hd]]; [right; lia|left; eauto].
  - intros j d Hd. apply HL in Hd as [[_ ->]|[_ Hd]]; [cbn; lia|by eapply ck_pos].
  - intros j d Hd. apply HL in Hd as [[_ ->]|[_ Hd]]; [cbn; lia|by eapply ck_empty].
  - intros j d s Hd. apply HL in Hd as [[_ ->]|[_ Hd]]; [by intros ?%elem_of_empty|by eapply ck_seq].
  - intros s q. rewrite (ck_seq_pos _ Hok). split; intros (j & d & Hd & Hs & Hq).
    + exists j, d. rewrite list_lookup_insert_ne; [done|]. intros <-.
      assert (d = empty_cell) as -> by congruence. by apply elem_of_empty in Hs.
    + apply HL in Hd as [[_ ->]|[_ Hd]]; [by apply elem_of_empty in Hs|eauto].
Qed.

Lemma seq_add_spec cs i s p sh sq : cells_ok cs → 0 <= i →
  cs.(cell_list) !! Z.to_nat i = Some (KvCell p sh sq) → p ≠ -1 → 0 <= s < LLAMA_MAX_SEQ → s ∉ sq →
  ∃ cs', cells_seq_add i s cs = Ok cs' ∧ cells_ok cs' ∧
    cs'.(cell_list) = <[Z.to_nat i := KvCell p sh (sq ∪ {[s]})]> cs.(cell_list) ∧
    cs'.(has_shift) = cs.(has_shift).
Proof.
  intros Hok Hi Hc Hp Hs Hn. unfold cells_seq_add, check_bit.
  rewrite (proj2 (cell_at_ok cs i _)) by done. cbn [obind c_pos c_seq c_shift].
  rewrite (proj2 (Z.eqb_neq p (-1)) Hp), (proj2 (Z.leb_le 0 s)), (proj2 (Z.ltb_lt s _)) by lia.
  rewrite bool_decide_eq_false_2 by done. cbn. eexists. split; [reflexivity|]. split; [|done].
  pose proof (lookup_lt_Some _ _ _ Hc) as Hlt. set (c' := KvCell p sh (sq ∪ {[s]})).
  assert (HL : ∀ j c, <[Z.to_nat i := c']> (cell_list cs) !! j = Some c →
    (j = Z.to_nat i ∧ c = c') ∨ (j ≠ Z.to_nat i ∧ cell_list cs !! j = Some c)).
  { intros j c Hj. destruct (decide (j = Z.to_nat i)) as [->|Hne].
    - rewrite list_lookup_insert_eq in Hj by done. left. by split; [|congruence].
    - rewrite list_lookup_insert_ne in Hj by done. by right. }
  pose proof (ck_pos _ Hok _ _ Hc) as Hpp. cbn in Hpp.
  split; unfold put_seq_pos, put_cell; cbn [used cell_list seq_pos].
  - intros j. rewrite (ck_used _ Hok). split; intros (Hj & d & Hd & Hdp); (split; [done|]).
    + destruct (decide (j = i)) as [->|Hne].
      * exists c'. rewrite list_lookup_insert_eq by done. done.
      * exists d. rewrite list_lookup_insert_ne by lia. done.
    + apply HL in Hd as [[He _]|[_ Hd]]; [|eauto]. assert (j = i) as -> by lia. eauto.
  - intros j d Hd. apply HL in Hd as [[_ ->]|[_ Hd]]; [done|by eapply ck_pos].
  - intros j d Hd. apply HL in Hd as [[_ ->]|[_ Hd]]; [done|by eapply ck_empty].
  - intros j d t Hd Ht. apply HL in Hd as [[_ ->]|[_ Hd]]; [|by eapply ck_seq]. cbn in Ht.
    apply elem_of_union in Ht as [Ht| ->%elem_of_singleton]; [|done]. by apply (ck_seq _ Hok _ _ t Hc).
  - intros t q. destruct (decide (s = t)) as [<-|Hne].
    + rewrite fn_lookup_insert, elem_of_union, elem_of_singleton, (ck_seq_pos _ Hok). split.
      * intros [(j & d & Hd & Ht & Hq)| ->].
        -- destruct (decide (j = Z.to_nat i)) as [->|Hj]; [assert (d = KvCell p sh sq) as -> by congruence; done|].
           exists j, d. rewrite list_lookup_insert_ne by done. done.
        -- exists (Z.to_nat i), c'. rewrite list_lookup_insert_eq by done. cbn.
           split; [done|]; split; [by apply elem_of_union_r, elem_of_singleton|done].
      * intros (j & d & Hd & Ht & Hq). apply HL in Hd as [[_ ->]|[_ Hd]]; [by right|left; eauto].
    + rewrite fn_lookup_insert_ne by done. rewrite (ck_seq_pos _ Hok). split; intros (j & d & Hd & Ht & Hq).
      * destruct (decide (j = Z.to_nat i)) as [->|Hj].
        -- assert (d = KvCell p sh sq) as -> by congruence. exists (Z.to_nat i), c'.
           rewrite list_lookup_insert_eq by done. cbn in *.
           split; [done|]; split; [by apply elem_of_union_l|done].
        -- exists j, d. rewrite list_lookup_insert_ne by done. done.
      * apply HL in Hd as [[-> ->]|[_ Hd]]; [|eauto]. cbn in Ht.
        exists (Z.to_nat i), (KvCell p sh sq). split; [done|]. cbn in *.
        split; [|done]. by apply elem_of_union in Ht as [?|?%elem_of_singleton].
Qed.

(** Adding several sequences. *)
Lemma seq_adds_spec ids : ∀ cs i p sh sq, cells_ok cs → 0 <= i →
  cs.(cell_list) !! Z.to_nat i = Some (KvCell p sh sq) → p ≠ -1 → NoDup ids →
  (∀ s, s ∈ ids → 0 <= s < LLAMA_MAX_SEQ ∧ s ∉ sq) →
  ∃ cs', ofold (cells_seq_add i) ids cs = Ok cs' ∧ cells_ok cs' ∧
    cs'.(cell_list) = <[Z.to_nat i := KvCell p sh (sq ∪ list_to_set ids)]> cs.(cell_list) ∧
    cs'.(has_shift) = cs.(has_shift).
Proof.
  induction ids as [|s ids IH]; intros cs i p sh sq Hok Hi Hc Hp Hnd Hids; cbn [ofold].
  - exists cs. split; [done|]. split; [done|]. split; [|done].
    rewrite list_insert_id; [done|]. rewrite Hc. do 2 f_equal. symmetry. apply leibniz_equiv, union_empty_r.
  - apply NoDup_cons in Hnd as [Hn Hnd].
    destruct (Hids s ltac:(left)) as [Hs Hsq].
    destruct (seq_add_spec cs i s p sh sq Hok Hi Hc Hp Hs Hsq) as (cs1 & -> & Hok1 & Hl1 & Hsh1). cbn [obind].
    pose proof (lookup_lt_Some _ _ _ Hc) as Hlt.
    destruct (IH cs1 i p sh (sq ∪ {[s]}) Hok1 Hi) as (cs' & -> & Hok' & Hl' & Hsh'); [|done|done| |].
    + rewrite Hl1, list_lookup_insert_eq by done. done.
    + intros t Ht. destruct (Hids t ltac:(by right)) as [Ht1 Ht2]. split; [done|].
      intros [?|Heq%elem_of_singleton]%elem_of_union; [done|]. by subst.
    + exists cs'. split; [done|]. split; [done|]. split; [|congruence].
      rewrite Hl', Hl1, list_insert_insert_eq. do 2 f_equal. apply leibniz_equiv. cbn [list_to_set]. by rewrite (assoc (∪)).
Qed.
