(* ===== verification/KvSlots.v ===== *)
(** Finding a slot: [find_slot] of [src/llama-kv-cache-unified.cpp] ends, and
    finds a run of usable cells exactly when there is one. *)
From S2P Require Import Prelude Floats KvTypes KvLadder Swapout KvCells KvCellsThms KvUnified.

(** ** Extremes of a set *)
Lemma set_min_in X d : X ≠ ∅ → set_min X d ∈ X.
Proof.
  intros Hne. unfold set_min. destruct (elements X) as [|x l] eqn:E; [by apply elements_empty_inv, leibniz_equiv in E|].
  apply elem_of_elements. rewrite E. clear. induction l as [|y l IH]; cbn; [left|].
  destruct (Z.min_spec y (foldr Z.min x l)) as [[_ ->]|[_ ->]]; [right; left|].
  apply elem_of_cons in IH as [->|IH]; [left|right; by right].
Qed.

Lemma set_max_lb X d k : d <= k → (∀ x, x ∈ X → k <= x) → d <= set_max X d.
Proof.
  intros Hd HX. unfold set_max. destruct (elements X) as [|x l] eqn:E; [done|].
  assert (Hx : k <= x) by (apply HX, elem_of_elements; rewrite E; left). clear -Hd Hx.
  induction l as [|y l IH]; cbn; lia.
Qed.

Lemma set_max_ub X d k : d <= k → (∀ x, x ∈ X → x <= k) → set_max X d <= k.
Proof.
  intros Hd HX. unfold set_max. destruct (elements X) as [|x l] eqn:E; [done|].
  assert (HX' : ∀ y, y ∈ x :: l → y <= k) by (intros y Hy; apply HX, elem_of_elements; by rewrite E).
  clear -HX'. induction l as [|y l IH]; cbn; [apply HX'; left|].
  apply Z.max_lub; [apply HX'; right; left|]. apply IH. intros z [->|Hz]%elem_of_cons; apply HX'; [left|by right; right].
Qed.

(** ** Usable cells *)

Lemma can_use_total u i : cells_ok u.(cells) → 0 <= i < cells_size u.(cells) →
  (u.(swa_type) = SWA_CHUNKED → u.(n_swa) ≠ 0) →
  ∃ b, can_use u i = Ok b ∧
    (∀ c, u.(cells).(cell_list) !! Z.to_nat i = Some c → c.(c_pos) = -1 → b = true) ∧
    (u.(swa_type) = SWA_NONE → ∀ c, u.(cells).(cell_list) !! Z.to_nat i = Some c → b = true → c.(c_pos) = -1).
Proof.
  intros Hok Hi Hswa. destruct (cell_some _ _ Hi) as [c Hc]. unfold can_use.
  rewrite (cells_is_empty_ok _ _ c) by (done || lia). cbn [obind].
  destruct (Z.eqb_spec (c_pos c) (-1)) as [He|Hne].
  { exists true. split; [done|]. split; [done|]. congruence. }
  unfold cells_seq_count, cells_pos_get, cells_seq_get.
  rewrite !(proj2 (cell_at_ok _ i c)) by (split; [lia|done]). cbn [obind].
  rewrite !(proj2 (Z.eqb_neq _ _) Hne). cbn [negb assert_that obind].
  assert (Hfalse : ∃ b, Ok false = Ok b ∧
    (∀ c0, cell_list (cells u) !! Z.to_nat i = Some c0 → c_pos c0 = -1 → b = true) ∧
    (swa_type u = SWA_NONE → ∀ c0, cell_list (cells u) !! Z.to_nat i = Some c0 → b = true → c_pos c0 = -1)).
  { exists false. split; [done|]. split; [congruence|done]. }
  destruct (Z.eqb_spec (Z.of_nat (size (c_seq c))) 1) as [H1|H1]; [|exact Hfalse].
  rewrite (proj2 (Nat.eqb_eq _ _)) by lia. cbn [assert_that obind].
  set (s := set_min (c_seq c) (-1)).
  assert (Hs : s ∈ c_seq c).
  { apply set_min_in. intros E. rewrite E, size_empty in H1. done. }
  pose proof (ck_seq _ Hok _ _ _ Hc Hs) as Hsb. pose proof (ck_pos _ Hok _ _ Hc) as Hpb.
  unfold cells_seq_pos_max. rewrite (proj2 (Z.leb_le 0 s)), (proj2 (Z.ltb_lt s _)) by lia. cbn [andb assert_that obind].
  set (mx := set_max _ _).
  assert (Hmx : -1 <= mx < 2 ^ 31 - 1).
  { split.
    - apply (set_max_lb _ _ (-1)); [lia|]. intros p (j & d & Hd & _ & <-)%(ck_seq_pos _ Hok).
      apply (ck_pos _ Hok _ _ Hd).
    - assert (mx <= 2 ^ 31 - 2); [|lia]. apply set_max_ub; [lia|].
      intros p (j & d & Hd & _ & <-)%(ck_seq_pos _ Hok). pose proof (ck_pos _ Hok _ _ Hd). lia. }
  unfold pos_sum. rewrite (proj2 (Z.leb_le (- 2 ^ 31) _)), (proj2 (Z.ltb_lt (mx + 1) _)) by lia. cbn [andb obind].
  unfold is_masked_swa. rewrite (proj2 (Z.leb_le 0 (c_pos c))), (proj2 (Z.leb_le 0 (mx + 1))) by lia.
  cbn [andb assert_that obind].
  destruct (swa_type u); [exact Hfalse| |].
  - eexists. split; [reflexivity|]. split; [congruence|done].
  - rewrite (proj2 (Z.eqb_neq (n_swa u) 0)) by auto. eexists. split; [reflexivity|]. split; [congruence|done].
Qed.

(** ** The search *)
Section search.
Context (u : llama_kv_cache_unified) (usable : Z → bool) (n : Z).
Local Abbreviation size := (cells_size u.(cells)).
Hypothesis Huse : ∀ i, 0 <= i < size → can_use u i = Ok (usable i).
Hypothesis Hn : 0 < n <= size.
Hypothesis Hsize : size < 2 ^ 29.

(** No slot starts at [h]: it does not fit, or one of its cells is taken. *)
Definition refuted (h : Z) : Prop := size < h + n ∨ ∃ i, 0 <= i < n ∧ usable (h + i) = false.

Definition free_run (h : Z) : Prop := 0 <= h ∧ h + n <= size ∧ ∀ i, 0 <= i < n → usable (h + i) = true.

Lemma first_taken_spec base todo i : 0 <= base → 0 <= i → base + i + Z.of_nat todo <= size →
  first_taken u base i todo = Ok None ∧ (∀ j, i <= j < i + Z.of_nat todo → usable (base + j) = true) ∨
  ∃ k, first_taken u base i todo = Ok (Some k) ∧ i <= k < i + Z.of_nat todo ∧ usable (base + k) = false.
Proof using Huse Hsize.
  intros Hb. revert i. induction todo as [|todo IH]; intros i Hi Hlt; cbn [first_taken].
  - left. split; [done|]. lia.
  - rewrite u32_id by lia. rewrite Huse by lia. cbn [obind]. destruct (usable (base + i)) eqn:E.
    + destruct (IH (i + 1) ltac:(lia) ltac:(lia)) as [[-> Hall]|(k & -> & Hk & Hf)].
      * left. split; [done|]. intros j Hj. destruct (decide (j = i)) as [->|]; [done|]. apply Hall. lia.
      * right. exists k. split; [done|]. split; [lia|done].
    + right. exists i. split; [done|]. split; [lia|done].
Qed.

(** A round that starts at [h]: it finds a slot, or refutes every start up to the
    cell it stopped at. *)
Lemma round_spec h : 0 <= h → h + n <= size →
  first_taken u h 0 (Z.to_nat n) = Ok None ∧ free_run h ∨
  ∃ k, first_taken u h 0 (Z.to_nat n) = Ok (Some k) ∧ 0 <= k < n ∧ ∀ x, h <= x < h + (k + 1) → refuted x.
Proof using Huse Hn Hsize.
  intros Hh Hfit. destruct (first_taken_spec h (Z.to_nat n) 0) as [[-> Hall]|(k & -> & Hk & Hf)]; [done|done|lia| |].
  - left. split; [done|]. split; [done|]. split; [done|]. intros i Hi. apply Hall. lia.
  - right. exists k. split; [done|]. split; [lia|]. intros x Hx. right. exists (h + k - x).
    split; [lia|]. by replace (x + (h + k - x)) with (h + k) by lia.
Qed.

Lemma refuted_run h : refuted h → ¬ free_run h.
Proof. intros [Hx|(i & Hi & Hf)] (H1 & H2 & H3); [lia|]. rewrite H3 in Hf by done. done. Qed.

(** What the search answers. *)
Definition answers (r : Z) : Prop := free_run r ∨ r = -1 ∧ ∀ h, 0 <= h → refuted h.

Lemma i32_id x : 0 <= x < 2 ^ 31 → i32 x = x.
Proof. intros. unfold i32. rewrite Z.mod_small by lia. lia. Qed.

(** Everything is refuted and enough has been counted. *)
Lemma search_last fuel t : (0 < fuel)%nat → size <= t < 2 ^ 31 → (∀ x, 0 <= x → refuted x) →
  ∃ r, find_slot_loop fuel u n 0 t = Ok r ∧ answers r.
Proof using Huse Hn Hsize.
  intros Hf Ht Hall. destruct fuel as [|fuel]; [lia|]. cbn [find_slot_loop].
  rewrite u32_id by lia. rewrite (proj2 (Z.ltb_ge _ _)) by lia.
  destruct (round_spec 0 ltac:(lia) ltac:(lia)) as [[_ Hr]|(k & -> & Hk & _)].
  { exfalso. by apply (refuted_run 0); [apply Hall|]. }
  cbn [obind]. rewrite (u32_id (t + (k + 1))) by lia. rewrite (proj2 (Z.leb_le _ _)) by lia.
  exists (-1). split; [done|]. by right.
Qed.

(** After the wrap: every start from [s0] on is refuted, and those below [h]. *)
Lemma search_wrapped s0 h fuel : 0 <= s0 <= size → 0 <= h <= size → size - h + 2 <= Z.of_nat fuel →
  (∀ x, s0 <= x → refuted x) → (∀ x, 0 <= x < h → refuted x) →
  ∃ r, find_slot_loop fuel u n h (size - s0 + h) = Ok r ∧ answers r.
Proof using Huse Hn Hsize.
  revert h. induction fuel as [|fuel IH]; intros h Hs Hh Hf Hup Hlow; [lia|]. cbn [find_slot_loop].
  rewrite (u32_id (h + n)) by lia. destruct (Z.ltb_spec size (h + n)) as [Hgt|Hle].
  - rewrite (u32_id (size - h)), u32_id by lia.
    replace (size - s0 + h + (size - h)) with (size - s0 + size) by lia.
    apply search_last; [lia|lia|]. intros x Hx.
    destruct (Z.lt_ge_cases x h); [apply Hlow; lia|left; lia].
  - destruct (round_spec h) as [[-> Hr]|(k & -> & Hk & Hrf)]; [lia|done| |]; cbn [obind].
    + rewrite i32_id by lia. exists h. split; [done|by left].
    + rewrite (u32_id (size - s0 + h + (k + 1))), (u32_id (h + (k + 1))) by lia.
      destruct (Z.leb_spec size (size - s0 + h + (k + 1))) as [Hd|Hd].
      * exists (-1). split; [done|]. right. split; [done|]. intros x Hx.
        destruct (Z.lt_ge_cases x s0) as [Hlt|]; [|by apply Hup].
        destruct (Z.lt_ge_cases x h); [apply Hlow; lia|apply Hrf; lia].
      * replace (size - s0 + h + (k + 1)) with (size - s0 + (h + (k + 1))) by lia.
        apply IH; try done; try lia. intros x Hx.
        destruct (Z.lt_ge_cases x h); [apply Hlow; lia|apply Hrf; lia].
Qed.

(** Before it: every start between [s0] and [h] is refuted. *)
Lemma search_first s0 h fuel : 0 <= s0 <= h → h <= size → size - h + size + 3 <= Z.of_nat fuel →
  (∀ x, s0 <= x < h → refuted x) →
  ∃ r, find_slot_loop fuel u n h (h - s0) = Ok r ∧ answers r.
Proof using Huse Hn Hsize.
  revert h. induction fuel as [|fuel IH]; intros h Hs Hh Hf Hmid; [lia|]. cbn [find_slot_loop].
  rewrite (u32_id (h + n)) by lia. destruct (Z.ltb_spec size (h + n)) as [Hgt|Hle].
  - rewrite (u32_id (size - h)), u32_id by lia.
    replace (h - s0 + (size - h)) with (size - s0 + 0) by lia.
    apply search_wrapped; try lia. intros x Hx.
    destruct (Z.lt_ge_cases x h); [apply Hmid; lia|left; lia].
  - destruct (round_spec h) as [[-> Hr]|(k & -> & Hk & Hrf)]; [lia|done| |]; cbn [obind].
    + rewrite i32_id by lia. exists h. split; [done|by left].
    + rewrite (u32_id (h - s0 + (k + 1))), (u32_id (h + (k + 1))) by lia.
      destruct (Z.leb_spec size (h - s0 + (k + 1))) as [Hd|Hd].
      * exists (-1). split; [done|]. right. split; [done|]. intros x Hx.
        destruct (Z.lt_ge_cases x h); [apply Hmid; lia|].
        destruct (Z.lt_ge_cases x (h + (k + 1))); [apply Hrf; lia|left; lia].
      * replace (h - s0 + (k + 1)) with (h + (k + 1) - s0) by lia.
        apply IH; try lia. intros x Hx.
        destruct (Z.lt_ge_cases x h); [apply Hmid; lia|apply Hrf; lia].
Qed.

Lemma find_slot_search : 0 <= u.(head) <= size → 0 <= cells_get_used u.(cells) →
  ∃ r, find_slot n u = Ok r ∧ answers r.
Proof using Huse Hn Hsize.
  intros Hh Hu. unfold find_slot. rewrite (proj2 (Z.ltb_ge _ _)) by lia.
  set (h := if _ <? _ then 0 else head u).
  assert (Hhb : 0 <= h <= size) by (unfold h; destruct (_ <? _); lia).
  replace 0 with (h - h) by lia. apply search_first; try lia.
Qed.
End search.
