(* ===== verification/KvApply.v ===== *)
(** Placing a batch: [apply_ubatch] on a free slot, and with [find_slot] before
    it ([src/llama-kv-cache-unified.cpp]). *)
From S2P Require Import Prelude Floats KvTypes KvPlan KvLadder KvInv KvFrame KvGrow KvOffload KvSwapIn.
From S2P Require Import Weight Swapout KvOps KvOpsThms KvCells KvCellsThms KvUnified KvUnifiedGrow KvSlots.

(** A batch as the decoder makes it: a position and distinct sequences per token. *)
Record ub_ok (ub : llama_ubatch) : Prop := UbOk {
  ub_n : 0 < ub.(ub_tokens);
  ub_len_pos : Z.of_nat (length ub.(ub_pos)) = ub.(ub_tokens);
  ub_len_seq : Z.of_nat (length ub.(ub_seq_id)) = ub.(ub_tokens);
  ub_pos_ok : ∀ p, p ∈ ub.(ub_pos) → 0 <= p < 2 ^ 31 - 1;
  ub_seq_ok : ∀ ids, ids ∈ ub.(ub_seq_id) → NoDup ids ∧ ∀ s, s ∈ ids → 0 <= s < LLAMA_MAX_SEQ }.

(** The cell token [i] becomes. *)
Definition token_cell (ub : llama_ubatch) (i : Z) : kv_cell :=
  KvCell (default (-1) (ub.(ub_pos) !! Z.to_nat i)) 0 (list_to_set (default [] (ub.(ub_seq_id) !! Z.to_nat i))).

Lemma place_token_spec hd ub i cs mx : cells_ok cs → ub_ok ub → 0 <= hd → 0 <= i < ub.(ub_tokens) →
  hd + i < cells_size cs → cells_size cs < 2 ^ 29 →
  cs.(cell_list) !! Z.to_nat (hd + i) = Some empty_cell →
  ∃ cs', place_token hd ub i (cs, mx) = Ok (cs', mx) ∧ cells_ok cs' ∧
    cs'.(cell_list) = <[Z.to_nat (hd + i) := token_cell ub i]> cs.(cell_list) ∧
    cs'.(has_shift) = cs.(has_shift).
Proof.
  intros Hok Hub Hhd Hi Hsz Hsz2 Hc. unfold place_token, token_cell. cbv zeta. rewrite u32_id by lia.
  rewrite (cells_is_empty_ok _ _ empty_cell) by (done || lia). cbn [obind empty_cell c_pos Z.eqb Pos.eqb].
  destruct (lookup_lt_is_Some_2 ub.(ub_pos) (Z.to_nat i)) as [p Hp]; [pose proof (ub_len_pos _ Hub); lia|].
  destruct (lookup_lt_is_Some_2 ub.(ub_seq_id) (Z.to_nat i)) as [ids Hids]; [pose proof (ub_len_seq _ Hub); lia|].
  rewrite Hp, Hids. cbn [default].
  pose proof (ub_pos_ok _ Hub p (list_elem_of_lookup_2 _ _ _ Hp)) as Hpb.
  destruct (ub_seq_ok _ Hub ids (list_elem_of_lookup_2 _ _ _ Hids)) as [Hnd Hsb].
  destruct (pos_set_spec cs (hd + i) p empty_cell Hok ltac:(lia) Hc eq_refl Hpb) as (cs2 & -> & Hok2 & Hl2 & Hs2).
  cbn [obind]. pose proof (lookup_lt_Some _ _ _ Hc).
  destruct (seq_adds_spec ids cs2 (hd + i) p 0 ∅ Hok2) as (cs3 & -> & Hok3 & Hl3 & Hs3); [lia| |lia|done| |].
  - by rewrite Hl2, list_lookup_insert_eq.
  - intros s Hs. split; [by apply Hsb|apply not_elem_of_empty].
  - cbn [obind]. exists cs3. split; [done|]. split; [done|]. split; [|congruence].
    rewrite Hl3, Hl2, list_insert_insert_eq. f_equal. f_equal. apply leibniz_equiv, union_empty_l.
Qed.

(** The cells with the tokens of [ub] in the slot at [hd]. *)
Definition placed (hd n : Z) (ub : llama_ubatch) (cs cs' : llama_kv_cells_unified) : Prop :=
  cells_ok cs' ∧ length cs'.(cell_list) = length cs.(cell_list) ∧ cs'.(has_shift) = cs.(has_shift) ∧
  ∀ i : Z, 0 <= i → cs'.(cell_list) !! Z.to_nat i =
    if (hd <=? i) && (i <? hd + n) then Some (token_cell ub (i - hd)) else cs.(cell_list) !! Z.to_nat i.

Lemma place_all hd ub cs mx : cells_ok cs → ub_ok ub → 0 <= hd → hd + ub.(ub_tokens) <= cells_size cs →
  cells_size cs < 2 ^ 29 →
  (∀ i, 0 <= i < ub.(ub_tokens) → cs.(cell_list) !! Z.to_nat (hd + i) = Some empty_cell) →
  ∃ cs', ofold (place_token hd ub) (seqZ 0 ub.(ub_tokens)) (cs, mx) = Ok (cs', mx) ∧
    placed hd ub.(ub_tokens) ub cs cs'.
Proof.
  intros Hok Hub Hhd Hfit Hsz Hemp. pose proof (ub_n _ Hub) as Hn.
  destruct (ofold_seqZ (λ i st, st.2 = mx ∧ placed hd i ub cs st.1) (place_token hd ub) 0 ub.(ub_tokens) (cs, mx))
    as ([cs' mx'] & Hrun & Hmx & Hpl).
  - lia.
  - split; [done|]. split; [done|]. split; [done|]. split; [done|]. intros i Hi. cbn.
    destruct (Z.leb_spec hd i), (Z.ltb_spec i (hd + 0)); cbn; (done || lia).
  - intros i [c1 m1] Hi [Hm1 (Hok1 & Hl1 & Hh1 & Hp1)]. cbn [fst snd] in *. subst m1.
    assert (Hz : cells_size c1 = cells_size cs) by (unfold cells_size; by rewrite Hl1).
    destruct (place_token_spec hd ub i c1 mx Hok1 Hub Hhd ltac:(lia)) as (c2 & Hrun & Hok2 & Hl2 & Hs2); [lia|lia| |].
    { rewrite Hp1 by lia. rewrite (proj2 (Z.ltb_ge _ _)) by lia. rewrite andb_false_r. apply Hemp. lia. }
    exists (c2, mx). split; [done|]. split; [done|]. split; [done|]. cbn [fst snd].
    split; [by rewrite Hl2, length_insert|]. split; [congruence|]. intros j Hj. rewrite Hl2.
    destruct (decide (j = hd + i)) as [->|Hne].
    + rewrite list_lookup_insert_eq by (unfold cells_size in *; lia).
      rewrite (proj2 (Z.leb_le _ _)), (proj2 (Z.ltb_lt _ _)) by lia. cbn. do 2 f_equal. lia.
    + rewrite list_lookup_insert_ne by lia. rewrite Hp1 by done.
      destruct (Z.leb_spec hd j), (Z.ltb_spec j (hd + i)), (Z.ltb_spec j (hd + (i + 1))); cbn; (done || lia).
  - cbn [fst snd] in *. subst mx'. exists cs'. by split.
Qed.

Lemma purge_nothing u : ofold (purge_seq (λ _, -1)) (seqZ 0 LLAMA_MAX_SEQ) u = Ok u.
Proof. reflexivity. Qed.

Section apply.
Context `{Cd : Codec} `{Ev : Env}.

(** What a core asks of a growth to [n] tokens while nothing is swapped out. *)
Definition growth_fits (n : Z) (u : llama_kv_cache_unified) : Prop :=
  ∀ c, u.(g_mzcache_core) = Some c → clean_ladder c.(ckv) = true →
    0 <= c.(ckv).(per_layer_balance) ∧ ratio_ok ((n + 255) / 256) c.(ckv).(decomp_load_ratio) = true.

Lemma grown_cells h need ok u u' : grown_cache h need ok u u' →
  u'.(cells) = u.(cells) ∧ u'.(head) = u.(head) ∧ u'.(layers) = u.(layers) ∧ n_layers u' = n_layers u ∧
  u'.(v_trans) = u.(v_trans) ∧ u'.(n_seq_max) = u.(n_seq_max) ∧ u'.(child_bufs) = u.(child_bufs) ∧
  u'.(n_embd_k_gqa) = u.(n_embd_k_gqa) ∧ u'.(n_embd_v_gqa) = u.(n_embd_v_gqa).
Proof. intros [_ _ _ (made & m & n & core & ->) _ _]. done. Qed.

Lemma apply_ubatch_run h hd ub u : unified_ok h u → cells_ok u.(cells) → ub_ok ub → 0 <= hd →
  hd + ub.(ub_tokens) <= cells_size u.(cells) → cells_size u.(cells) <= MAX_CHUNKS_PER_TENSOR * TOKENS_PER_CHUNK →
  growth_fits (hd + ub.(ub_tokens)) u →
  (∀ i, 0 <= i < ub.(ub_tokens) → u.(cells).(cell_list) !! Z.to_nat (hd + i) = Some empty_cell) →
  ∃ ok u1, mz_grow_chunks (hd + ub.(ub_tokens)) u = Ok (ok, u1) ∧
    grown_cache h ((hd + ub.(ub_tokens) + 255) / 256) ok u u1 ∧
    (ok = false → refused u.(n_chunks_alloc) ((hd + ub.(ub_tokens) + 255) / 256) u) ∧
    if ok then ∃ cs', try_apply_ubatch hd ub u = Ok (true, with_cells u1 (hd + ub.(ub_tokens)) cs') ∧
                      placed hd ub.(ub_tokens) ub u.(cells) cs'
    else try_apply_ubatch hd ub u = Ok (false, u1).
Proof.
  intros Hu Hok Hub Hhd Hfit Hsz Hgr Hemp. pose proof (ub_n _ Hub) as Hn.
  unfold MAX_CHUNKS_PER_TENSOR, TOKENS_PER_CHUNK in Hsz.
  destruct (mz_grow_chunks_spec h (hd + ub_tokens ub) u Hu ltac:(unfold MAX_CHUNKS_PER_TENSOR, TOKENS_PER_CHUNK; lia) Hgr)
    as (ok & u1 & Hrun & Hg & Href).
  exists ok, u1. split; [done|]. split; [done|]. split; [done|].
  unfold try_apply_ubatch. rewrite u32_id, Hrun by lia. cbn [obind]. destruct ok; [|done]. cbn [negb].
  unfold apply_grown. rewrite u32_id by lia.
  destruct (grown_cells _ _ _ _ _ Hg) as (Ec & Eh & _). rewrite Ec, Eh.
  destruct (place_all hd ub u.(cells) (λ _, -1) Hok Hub Hhd Hfit ltac:(lia) Hemp) as (cs' & -> & Hpl).
  cbn [obind]. rewrite purge_nothing. cbn [obind]. exists cs'. split; [|done]. done.
Qed.

Lemma with_cells_ok h u hd cs : unified_ok h u → unified_ok h (with_cells u hd cs).
Proof. intros [U1 U2 U3 U4 U5 U6 U7 U8 U9 U10 U11]. by split. Qed.

Lemma find_slot_run n u : cells_ok u.(cells) → 0 <= u.(head) <= cells_size u.(cells) → 0 < n →
  cells_size u.(cells) < 2 ^ 29 → u.(swa_type) = SWA_NONE →
  ∃ r, find_slot n u = Ok r ∧
    ((0 <= r ∧ r + n <= cells_size u.(cells) ∧
      ∀ i, 0 <= i < n → u.(cells).(cell_list) !! Z.to_nat (r + i) = Some empty_cell) ∨
     (r = -1 ∧ ∀ hd, 0 <= hd → hd + n <= cells_size u.(cells) →
      ∃ i c, 0 <= i < n ∧ u.(cells).(cell_list) !! Z.to_nat (hd + i) = Some c ∧ c.(c_pos) ≠ -1)).
Proof.
  intros Hok Hh Hn Hsz Hswa.
  destruct (Z.lt_ge_cases (cells_size u.(cells)) n) as [Hbig|Hfit].
  { exists (-1). unfold find_slot. rewrite (proj2 (Z.ltb_lt _ _)) by done. split; [done|]. right. split; [done|]. lia. }
  set (usable i := match can_use u i with Ok b => b | _ => false end).
  assert (Huse : ∀ i, 0 <= i < cells_size u.(cells) → can_use u i = Ok (usable i)).
  { intros i Hi. destruct (can_use_total u i Hok Hi) as (b & Hb & _); [congruence|]. unfold usable. by rewrite Hb. }
  assert (Hiff : ∀ i c, 0 <= i → u.(cells).(cell_list) !! Z.to_nat i = Some c → (usable i = true ↔ c.(c_pos) = -1)).
  { intros i c Hi Hc. destruct (can_use_total u i Hok) as (b & Hb & H1 & H2); [split; [done|by eapply cell_lt]|congruence|].
    unfold usable. rewrite Hb. split; [by apply H2|by apply H1]. }
  destruct (find_slot_search u usable n Huse ltac:(lia) Hsz Hh) as (r & -> & [(H1 & H2 & H3)|[-> Href]]).
  { unfold cells_get_used. lia. }
  - exists r. split; [done|]. left. split; [done|]. split; [done|]. intros i Hi.
    destruct (cell_some (cells u) (r + i)) as [c Hc]; [lia|]. rewrite Hc. f_equal.
    apply (ck_empty _ Hok _ _ Hc). apply (Hiff (r + i)); [lia|done|by apply H3].
  - exists (-1). split; [done|]. right. split; [done|]. intros hd Hhd Hfit2.
    destruct (Href hd Hhd) as [?|(i & Hi & Hf)]; [lia|].
    destruct (cell_some (cells u) (hd + i)) as [c Hc]; [lia|]. exists i, c. split; [done|]. split; [done|].
    intros Hp. apply (Hiff (hd + i)) in Hp; [congruence|lia|done].
Qed.

(** C12: Placing a batch on a cache without sliding window.  [find_slot] ends; it
    answers -1 exactly when no run of empty cells is long enough, and otherwise
    the start of one.  [apply_ubatch] on that slot creates the missing chunks
    first - after which every row of the slot lies in a chunk that exists, in
    every layer - then fills the slot with the tokens and changes no other cell;
    when the driver refuses a chunk it throws and the cells are untouched. *)
Theorem place_ubatch_spec (h : Z) (ub : llama_ubatch) (u : llama_kv_cache_unified) :
  unified_ok h u → cells_ok u.(cells) → 0 <= u.(head) <= cells_size u.(cells) →
  cells_size u.(cells) <= MAX_CHUNKS_PER_TENSOR * TOKENS_PER_CHUNK → u.(swa_type) = SWA_NONE → ub_ok ub →
  (∀ hd, 0 <= hd → hd + ub.(ub_tokens) <= cells_size u.(cells) → growth_fits (hd + ub.(ub_tokens)) u) →
  ∃ r, find_slot ub.(ub_tokens) u = Ok r ∧
    ((r = -1 ∧ ∀ hd, 0 <= hd → hd + ub.(ub_tokens) <= cells_size u.(cells) →
        ∃ i c, 0 <= i < ub.(ub_tokens) ∧ u.(cells).(cell_list) !! Z.to_nat (hd + i) = Some c ∧ c.(c_pos) ≠ -1) ∨
     0 <= r ∧ r + ub.(ub_tokens) <= cells_size u.(cells) ∧
     ∃ ok u1, mz_grow_chunks (r + ub.(ub_tokens)) u = Ok (ok, u1) ∧ u1.(cells) = u.(cells) ∧ unified_ok h u1 ∧
       if ok then ∃ cs', apply_ubatch r ub u = Ok (with_cells u1 (r + ub.(ub_tokens)) cs') ∧
         placed r ub.(ub_tokens) ub u.(cells) cs' ∧
         ∀ l i, 0 <= l < n_layers u → r <= i < r + ub.(ub_tokens) → u1.(chunk_made) (l, i / TOKENS_PER_CHUNK) = true
       else apply_ubatch r ub u = Throw ∧ refused u.(n_chunks_alloc) ((r + ub.(ub_tokens) + 255) / 256) u).
Proof.
  intros Hu Hok Hh Hsz Hswa Hub Hgr. pose proof (ub_n _ Hub) as Hn.
  assert (Hsz' : cells_size u.(cells) <= 65536) by done.
  destruct (find_slot_run ub.(ub_tokens) u Hok Hh Hn ltac:(lia) Hswa) as (r & Hr & [(H1 & H2 & H3)|[-> Hno]]).
  2: { exists (-1). split; [done|]. by left. }
  exists r. split; [done|]. right. split; [done|]. split; [done|].
  destruct (apply_ubatch_run h r ub u Hu Hok Hub H1 H2 Hsz (Hgr r H1 H2) H3) as (ok & u1 & Hrun & Hg & Href & Hap).
  exists ok, u1. unfold apply_ubatch. destruct (grown_cells _ _ _ _ _ Hg) as (Ec & _ & _ & EL & _).
  split; [done|]. split; [done|]. split; [by apply Hg|]. destruct ok; [|split; [by rewrite Hap|by apply Href]].
  destruct Hap as (cs' & Hap & Hpl). exists cs'. split; [by rewrite Hap|]. split; [done|].
  intros l i Hl Hi. apply (uo_made _ _ (gc_ok _ _ _ _ _ Hg)); cbn; [by rewrite EL|].
  rewrite (gc_alloc _ _ _ _ _ Hg). unfold TOKENS_PER_CHUNK. split; [apply Z.div_pos; lia|].
  assert (i / 256 < (r + ub_tokens ub + 255) / 256); [|lia].
  pose proof (Z.div_mod i 256 ltac:(lia)). pose proof (Z.mod_pos_bound i 256 ltac:(lia)).
  pose proof (Z.div_mod (r + ub_tokens ub + 255) 256 ltac:(lia)).
  pose proof (Z.mod_pos_bound (r + ub_tokens ub + 255) 256 ltac:(lia)). lia.
Qed.
End apply.
