(* ===== verification/KvState.v ===== *)
(** The session state's encoding: integers, the ranges of selected cells and the
    cells' positions and sequences, as [state_write] writes and [state_read]
    reads them ([src/llama-kv-cache-unified.cpp]). *)
From S2P Require Import Prelude Floats KvTypes KvLadder Swapout KvOps KvOpsThms KvCells KvCellsThms KvUnified.
From S2P Require Import KvSlots.

(** ** Integers *)

Lemma length_le_bytes k x : 0 <= k → Z.of_nat (length (le_bytes k x)) = k.
Proof. intros. unfold le_bytes. rewrite length_fmap, length_seqZ. lia. Qed.

Lemma le_value_bytes (n : nat) x : le_value (le_bytes (Z.of_nat n) x) = x mod 2 ^ (8 * Z.of_nat n).
Proof.
  revert x. induction n as [|n IH]; intros x; [by rewrite Z.mod_1_r|].
  unfold le_bytes. rewrite Nat2Z.inj_succ, seqZ_cons by lia. cbn [fmap list_fmap le_value].
  rewrite Z.mul_0_r, Z.pow_0_r, Z.div_1_r, Z.pred_succ.
  replace ((λ i, x / 2 ^ (8 * i) mod 2 ^ 8) <$> seqZ (Z.succ 0) (Z.of_nat n)) with (le_bytes (Z.of_nat n) (x / 2 ^ 8)).
  - rewrite IH. replace (8 * Z.succ (Z.of_nat n)) with (8 + 8 * Z.of_nat n) by lia.
    rewrite Z.pow_add_r by lia. rewrite Z.rem_mul_r by lia. lia.
  - unfold le_bytes. replace (Z.succ 0) with (0 + 1) by lia. rewrite <- (fmap_add_seqZ 1 0), <- list_fmap_compose.
    apply list_fmap_ext. intros i y Hy%list_elem_of_lookup_2%elem_of_seqZ. cbn.
    rewrite Z.div_div by lia. rewrite <- Z.pow_add_r by lia. do 3 f_equal. lia.
Qed.

Lemma io_read_le_bytes k x io : 0 <= k → io_read_le k (le_bytes k x ++ io) = Ok (x mod 2 ^ (8 * k), io).
Proof.
  intros Hk. unfold io_read_le. rewrite io_read_app_n by by apply length_le_bytes. cbn [obind].
  rewrite <- (Z2Nat.id k) by done. by rewrite le_value_bytes.
Qed.

Lemma io_read_le_small k x io : 0 <= k → 0 <= x < 2 ^ (8 * k) → io_read_le k (le_bytes k x ++ io) = Ok (x, io).
Proof. intros Hk Hx. rewrite io_read_le_bytes by done. by rewrite Z.mod_small. Qed.

Lemma i32_mod x : - 2 ^ 31 <= x < 2 ^ 31 → i32 (x mod 2 ^ (8 * 4)) = x.
Proof.
  intros. unfold i32. change (8 * 4) with 32. rewrite Zplus_mod_idemp_l. rewrite Z.mod_small by lia. lia.
Qed.

(** ** The ranges of selected cells *)

Definition indices (ranges : list (Z * Z)) : list Z := concat ((λ '(a, b), seqZ a (b - a)) <$> ranges).

Lemma indices_snoc ranges a b : indices (ranges ++ [(a, b)]) = indices ranges ++ seqZ a (b - a).
Proof. unfold indices. rewrite fmap_app, concat_app. cbn. by rewrite app_nil_r. Qed.

Section ranges.
Context (cs : llama_kv_cells_unified) (seq_id : Z) (sel : Z → bool).
Local Abbreviation size := (cells_size cs).
Local Abbreviation chosen i := (filter (λ j, sel j = true) (seqZ 0 i)).
Hypothesis Hsel : ∀ i, 0 <= i < size →
  (e <~ cells_is_empty cs i ;;
   if e : bool then Ok false else if seq_id =? -1 then Ok true else cells_seq_has cs i seq_id) = Ok (sel i).
Hypothesis Hsize : size < 2 ^ 31.

(** The scan before cell [i]. *)
Definition scanned (i : Z) (st : Z * Z * list (Z * Z)) : Prop :=
  let '(cnt, beg, ranges) := st in
  cnt = Z.of_nat (length (chosen i)) ∧ (beg = size ∨ 0 <= beg < i) ∧
  Forall (λ '(a, b), 0 <= a ∧ a < b ∧ b <= i) ranges ∧
  chosen i = indices ranges ++ (if beg =? size then [] else seqZ beg (i - beg)).

Lemma scan_cell_step i st : 0 <= i < size → scanned i st →
  ∃ st', scan_cell cs seq_id i st = Ok st' ∧ scanned (i + 1) st'.
Proof using Hsel Hsize.
  intros Hi. destruct st as [[cnt beg] ranges]. intros (-> & Hbeg & Hr & Hch). unfold scan_cell.
  specialize (Hsel i Hi). destruct (cells_is_empty cs i) as [e| |]; [|done|done]. cbn [obind] in Hsel |- *.
  rewrite Hsel. cbn [obind].
  assert (Hlen : Z.of_nat (length (chosen i)) <= i).
  { pose proof (length_filter (λ j, sel j = true) (seqZ 0 i)) as Hf. rewrite length_seqZ in Hf. lia. }
  assert (Hnext : chosen (i + 1) = chosen i ++ (if sel i then [i] else [])).
  { rewrite seqZ_snoc, filter_app by lia. f_equal. rewrite Z.add_0_l.
    destruct (sel i) eqn:E; [by rewrite filter_cons_True|by rewrite filter_cons_False by congruence]. }
  assert (Hr' : Forall (λ '(a, b), 0 <= a ∧ a < b ∧ b <= i + 1) ranges).
  { eapply Forall_impl; [exact Hr|]. intros [a b] (? & ? & ?). lia. }
  destruct (sel i) eqn:E.
  - eexists. split; [reflexivity|]. unfold scanned. rewrite Hnext, length_app. split; [rewrite u32_id; cbn; lia|].
    destruct (Z.eqb_spec beg size) as [->|Hne].
    + split; [lia|]. split; [done|]. rewrite (proj2 (Z.eqb_neq i size)) by lia.
      rewrite Hch, app_nil_r. f_equal. replace (i + 1 - i) with 1 by lia. by rewrite (seqZ_cons _ 1).
    + split; [lia|]. split; [done|]. rewrite (proj2 (Z.eqb_neq beg size)) by done.
      rewrite Hch, <- app_assoc. f_equal. replace (i + 1 - beg) with (i - beg + 1) by lia.
      rewrite seqZ_snoc by lia. do 2 f_equal. lia.
  - rewrite app_nil_r in Hnext. destruct (Z.eqb_spec beg size) as [->|Hne]; cbn [negb]; eexists;
      (split; [reflexivity|]); unfold scanned; rewrite Hnext; (split; [done|]).
    + split; [by left|]. split; [done|]. by rewrite Z.eqb_refl.
    + split; [by left|]. split; [apply Forall_app; split; [done|]; constructor; [lia|constructor]|].
      rewrite Z.eqb_refl, app_nil_r, indices_snoc. by rewrite Hch.
Qed.

Lemma foldl_count ranges n0 : Forall (λ '(a, b), 0 <= a ∧ a < b) ranges → 0 <= n0 →
  n0 + Z.of_nat (length (indices ranges)) < 2 ^ 32 →
  foldl (λ n '(a, b), u32 (n + (b - a))) n0 ranges = n0 + Z.of_nat (length (indices ranges)).
Proof.
  intros Hf. revert n0. induction Hf as [|[a b] l [Ha Hab] Hf IH]; intros n0 Hn Hlt; cbn [foldl]; [cbn; lia|].
  unfold indices in *. cbn [fmap list_fmap concat] in *. rewrite length_app, length_seqZ in *.
  rewrite u32_id by lia. rewrite IH by lia. lia.
Qed.

Lemma cell_ranges_spec : ∃ ranges, cell_ranges_of cs seq_id = Ok (Z.of_nat (length (chosen size)), ranges) ∧
  indices ranges = chosen size ∧ Forall (λ '(a, b), 0 <= a ∧ a < b ∧ b <= size) ranges.
Proof using Hsel Hsize.
  unfold cell_ranges_of.
  destruct (ofold_seqZ scanned (scan_cell cs seq_id) 0 size (0, size, []))
    as ([[cnt beg] ranges] & -> & -> & Hbeg & Hr & Hch).
  - unfold cells_size. lia.
  - split; [done|]. split; [by left|]. split; [constructor|]. by rewrite Z.eqb_refl.
  - intros i s Hi Hs. apply scan_cell_step; [lia|done].
  - cbn [obind]. rewrite Z.add_0_l in *. set (rs := if negb (beg =? size) then _ else _).
    assert (Hrs : indices rs = chosen size ∧ Forall (λ '(a, b), 0 <= a ∧ a < b ∧ b <= size) rs).
    { unfold rs. destruct (Z.eqb_spec beg size) as [->|Hne]; cbn [negb].
      - rewrite app_nil_r in Hch. by split.
      - rewrite indices_snoc. split; [done|]. apply Forall_app. split; [done|]. constructor; [lia|constructor]. }
    destruct Hrs as [Hi Hf]. rewrite foldl_count; [|eapply Forall_impl; [exact Hf|]; intros [a b] (? & ? & _); done|lia|].
    + rewrite Z.add_0_l, Hi, Z.eqb_refl. cbn. by exists rs.
    + rewrite Hi. pose proof (length_filter (λ j, sel j = true) (seqZ 0 size)) as Hl. rewrite length_seqZ in Hl. lia.
Qed.
End ranges.

(** A loop over ranges of indices is a loop over the indices. *)
Lemma ofold_indices {S} (f : Z → S → outcome S) ranges (s : S) :
  ofold (λ '(a, b), ofold f (seqZ a (b - a))) ranges s = ofold f (indices ranges) s.
Proof.
  revert s. induction ranges as [|[a b] l IH]; intros s; [done|]. unfold indices in *.
  cbn [ofold fmap list_fmap concat]. rewrite ofold_app. destruct (ofold f _ s); [apply IH|done|done].
Qed.

(** ** Cells *)

(** What a cell with position [p] and sequences [ids] is written as. *)
Definition cell_bytes (p : Z) (ids : list Z) : list byte :=
  le_bytes 4 p ++ le_bytes 4 (Z.of_nat (length ids)) ++ concat (le_bytes 4 <$> ids).

Definition cell_ids (seq_max seq_id : Z) (c : kv_cell) : list Z :=
  filter (λ s, (s = seq_id ∨ seq_id = -1) ∧ s ∈ c.(c_seq)) (seqZ 0 seq_max).

Lemma zip_filter {A} (l : list A) (g : A → bool) :
  fst <$> filter (λ x : A * bool, x.2 = true) (zip l (g <$> l)) = filter (λ x, g x = true) l.
Proof.
  induction l as [|a l IH]; [done|]. cbn [fmap list_fmap zip zip_with]. rewrite !filter_cons.
  cbn [snd]. case_decide; cbn [fmap list_fmap]; [by rewrite <- IH|done].
Qed.

Lemma write_cell_meta_spec u seq_id i c io : u.(n_seq_max) <= LLAMA_MAX_SEQ → 0 <= i →
  u.(cells).(cell_list) !! Z.to_nat i = Some c → c.(c_pos) ≠ -1 →
  write_cell_meta u seq_id i io = Ok (io ++ cell_bytes c.(c_pos) (cell_ids u.(n_seq_max) seq_id c)).
Proof.
  intros Hmax Hi Hc Hp. unfold write_cell_meta.
  set (g s := ((s =? seq_id) || (seq_id =? -1)) && bool_decide (s ∈ c.(c_seq))).
  rewrite (otraverse_ok _ g).
  - cbn [obind]. unfold cells_pos_get. rewrite (proj2 (cell_at_ok _ i c)) by done. cbn [obind].
    rewrite (proj2 (Z.eqb_neq _ _) Hp). cbn [negb assert_that obind]. unfold cell_bytes.
    replace (fst <$> _) with (cell_ids u.(n_seq_max) seq_id c); [done|].
    rewrite zip_filter. apply list_filter_iff. intros s. unfold g.
    rewrite andb_true_iff, orb_true_iff, !Z.eqb_eq, bool_decide_eq_true. done.
  - intros s [H0 Hs]%elem_of_seqZ. unfold g. destruct ((s =? seq_id) || (seq_id =? -1)); [|done].
    unfold cells_seq_has, check_bit. rewrite (proj2 (cell_at_ok _ i c)) by done. cbn [obind].
    rewrite (proj2 (Z.leb_le 0 s)), (proj2 (Z.ltb_lt s _)) by lia. done.
Qed.

Lemma write_meta_spec u seq_id l io : u.(n_seq_max) <= LLAMA_MAX_SEQ →
  (∀ i, i ∈ l → 0 <= i ∧ ∃ c, u.(cells).(cell_list) !! Z.to_nat i = Some c ∧ c.(c_pos) ≠ -1) →
  ofold (write_cell_meta u seq_id) l io = Ok (io ++ concat ((λ i,
    let c := default empty_cell (u.(cells).(cell_list) !! Z.to_nat i) in
    cell_bytes c.(c_pos) (cell_ids u.(n_seq_max) seq_id c)) <$> l)).
Proof.
  intros Hmax Hl. apply ofold_append. intros i s Hin. destruct (Hl i Hin) as (Hi & c & Hc & Hp).
  cbv zeta. rewrite Hc. by apply write_cell_meta_spec.
Qed.

(** Reading the sequences of a cell. *)
Lemma read_seqs_spec sm i ids : ∀ a cs io p sh sq, sm <= LLAMA_MAX_SEQ → cells_ok cs → 0 <= i →
  cs.(cell_list) !! Z.to_nat i = Some (KvCell p sh sq) → p ≠ -1 → NoDup ids →
  (∀ s, s ∈ ids → 0 <= s < sm ∧ s ∉ sq) →
  ∃ cs', try_fold (read_cell_seq sm i) (seqZ a (Z.of_nat (length ids))) (concat (le_bytes 4 <$> ids) ++ io, cs)
      = Ok (true, (io, cs')) ∧ cells_ok cs' ∧
    cs'.(cell_list) = <[Z.to_nat i := KvCell p sh (sq ∪ list_to_set ids)]> cs.(cell_list).
Proof.
  induction ids as [|s ids IH]; intros a cs io p sh sq Hsm Hok Hi Hc Hp Hnd Hids.
  - exists cs. split; [done|]. split; [done|]. rewrite list_insert_id; [done|]. rewrite Hc. do 2 f_equal.
    symmetry. apply leibniz_equiv, union_empty_r.
  - cbn [length]. rewrite Nat2Z.inj_succ, seqZ_cons by lia. cbn [try_fold fmap list_fmap concat].
    apply NoDup_cons in Hnd as [Hn Hnd]. destruct (Hids s ltac:(left)) as [Hs Hsq].
    unfold LLAMA_MAX_SEQ in Hsm.
    unfold read_cell_seq at 1. rewrite <- app_assoc, io_read_le_bytes by lia. cbn [obind].
    rewrite i32_mod by lia. rewrite (proj2 (Z.ltb_ge s 0)), (proj2 (Z.leb_gt sm s)) by lia. cbn [orb].
    destruct (seq_add_spec cs i s p sh sq Hok Hi Hc Hp ltac:(unfold LLAMA_MAX_SEQ; lia) Hsq)
      as (cs1 & -> & Hok1 & Hl1 & _). cbn [obind].
    rewrite Z.pred_succ. pose proof (lookup_lt_Some _ _ _ Hc) as Hlt.
    destruct (IH (Z.succ a) cs1 io p sh (sq ∪ {[s]}) Hsm Hok1 Hi) as (cs' & -> & Hok' & Hl'); [|done|done| |].
    + by rewrite Hl1, list_lookup_insert_eq.
    + intros t Ht. destruct (Hids t ltac:(by right)) as [Ht1 Ht2]. split; [done|].
      intros [?|Heq%elem_of_singleton]%elem_of_union; [done|]. by subst.
    + exists cs'. split; [done|]. split; [done|]. rewrite Hl', Hl1, list_insert_insert_eq. do 2 f_equal.
      apply leibniz_equiv. cbn [list_to_set]. by rewrite (assoc (∪)).
Qed.

Lemma read_cell_spec sm i p ids cs io : 0 <= sm <= LLAMA_MAX_SEQ → cells_ok cs → 0 <= i →
  cs.(cell_list) !! Z.to_nat i = Some empty_cell → 0 <= p < 2 ^ 31 - 1 → NoDup ids →
  (∀ s, s ∈ ids → 0 <= s < sm) →
  ∃ cs', read_cell sm i (cell_bytes p ids ++ io, cs) = Ok (true, (io, cs')) ∧ cells_ok cs' ∧
    cs'.(cell_list) = <[Z.to_nat i := KvCell p 0 (list_to_set ids)]> cs.(cell_list).
Proof.
  intros Hsm Hok Hi Hc Hp Hnd Hids. unfold read_cell, cell_bytes. rewrite <- !app_assoc.
  rewrite io_read_le_bytes by lia. cbn [obind].
  assert (Hlen : Z.of_nat (length ids) < 2 ^ 32).
  { assert (Hsub : (length ids <= length (seqZ 0 sm))%nat).
    { apply NoDup_incl_length; [by apply NoDup_ListNoDup|]. intros s Hs%list_elem_of_In. apply list_elem_of_In, elem_of_seqZ.
      specialize (Hids s Hs). lia. }
    rewrite length_seqZ in Hsub. unfold LLAMA_MAX_SEQ in Hsm. lia. }
  rewrite io_read_le_small by (change (8 * 4) with 32; lia). cbn [obind]. rewrite i32_mod by lia.
  destruct (pos_set_spec cs i p empty_cell Hok Hi Hc eq_refl Hp) as (cs1 & -> & Hok1 & Hl1 & _). cbn [obind].
  pose proof (lookup_lt_Some _ _ _ Hc) as Hlt.
  destruct (read_seqs_spec sm i ids 0 cs1 io p 0 ∅ ltac:(lia) Hok1 Hi) as (cs' & -> & Hok' & Hl'); [|lia|done| |].
  - by rewrite Hl1, list_lookup_insert_eq.
  - intros s Hs. split; [by apply Hids|apply not_elem_of_empty].
  - exists cs'. split; [done|]. split; [done|]. rewrite Hl', Hl1, list_insert_insert_eq. do 2 f_equal.
    apply leibniz_equiv, union_empty_l.
Qed.

(** Reading all cells: the [k]-th entry of [metas] becomes cell [j + k]. *)
Lemma read_cells_spec sm metas : ∀ j cs io, 0 <= sm <= LLAMA_MAX_SEQ → cells_ok cs → 0 <= j →
  j + Z.of_nat (length metas) <= cells_size cs →
  (∀ i, j <= i < cells_size cs → cs.(cell_list) !! Z.to_nat i = Some empty_cell) →
  Forall (λ '(p, ids), 0 <= p < 2 ^ 31 - 1 ∧ NoDup ids ∧ ∀ s, s ∈ ids → 0 <= s < sm) metas →
  ∃ cs', try_fold (read_cell sm) (seqZ j (Z.of_nat (length metas)))
      (concat ((λ '(p, ids), cell_bytes p ids) <$> metas) ++ io, cs) = Ok (true, (io, cs')) ∧
    cells_ok cs' ∧ cells_size cs' = cells_size cs ∧
    ∀ i, 0 <= i → cs'.(cell_list) !! Z.to_nat i =
      match (if j <=? i then metas !! Z.to_nat (i - j) else None) with
      | Some (p, ids) => Some (KvCell p 0 (list_to_set ids))
      | None => cs.(cell_list) !! Z.to_nat i
      end.
Proof.
  induction metas as [|[p ids] l IH]; intros j cs io Hsm Hok Hj Hfit Hemp Hf.
  - exists cs. split; [done|]. split; [done|]. split; [done|]. intros i Hi. by destruct (j <=? i).
  - apply Forall_cons in Hf as [(Hp & Hnd & Hids) Hf]. cbn [length fmap list_fmap concat] in *.
    rewrite Nat2Z.inj_succ, seqZ_cons by lia. cbn [try_fold]. rewrite <- app_assoc.
    destruct (read_cell_spec sm j p ids cs (concat ((λ '(p, ids), cell_bytes p ids) <$> l) ++ io) Hsm Hok Hj)
      as (cs1 & -> & Hok1 & Hl1); [apply Hemp; lia|done|done|done|].
    cbn [obind]. rewrite Z.pred_succ.
    assert (Hsz : cells_size cs1 = cells_size cs) by (unfold cells_size; by rewrite Hl1, length_insert).
    destruct (IH (Z.succ j) cs1 io Hsm Hok1) as (cs' & -> & Hok' & Hsz' & Hl'); [lia|lia| |done|].
    { intros i Hi. rewrite Hl1, list_lookup_insert_ne by lia. apply Hemp. lia. }
    exists cs'. split; [done|]. split; [done|]. split; [lia|]. intros i Hi. rewrite Hl' by done.
    destruct (Z.leb_spec j i) as [Hji|Hji].
    + destruct (decide (i = j)) as [->|Hne].
      * rewrite (proj2 (Z.leb_gt _ _)) by lia. rewrite Z.sub_diag. cbn.
        rewrite Hl1, list_lookup_insert_eq by (unfold cells_size in *; lia). done.
      * rewrite (proj2 (Z.leb_le _ _)) by lia. replace (Z.to_nat (i - j)) with (S (Z.to_nat (i - Z.succ j))) by lia.
        cbn [lookup list_lookup]. destruct (l !! Z.to_nat (i - Z.succ j)) as [[q qs]|]; [done|].
        rewrite Hl1, list_lookup_insert_ne by lia. done.
    + rewrite (proj2 (Z.leb_gt _ _)) by lia. rewrite Hl1, list_lookup_insert_ne by lia. done.
Qed.
