(* ===== verification/KvStateRows.v ===== *)
(** The session state's rows: what [state_write_data] writes of a cache whose
    chunks are resident, and where [state_read_data] puts it
    ([src/llama-kv-cache-unified.cpp]). *)
From S2P Require Import Prelude Floats KvTypes KvPlan KvLadder KvInv KvFrame KvGrow KvOffload KvSwapIn.
From S2P Require Import Weight Swapout KvOps KvOpsThms KvCells KvCellsThms KvUnified KvUnifiedGrow.
From S2P Require Import KvState.

(** Bytes of a row of [h] halves. *)
Definition row_len (h : Z) : Z := h * sizeof_fp16.

Lemma chunk_rows h : chunk_len h = TOKENS_PER_CHUNK * row_len h.
Proof. unfold chunk_len, row_len. ring. Qed.

Definition all_live (u : llama_kv_cache_unified) : Prop :=
  ∀ p : pos, 0 <= p.1 < n_layers u → 0 <= p.2 < u.(n_chunks_alloc) → live u p.

Section rows.
Context `{Cd : Codec} `{Ev : Env} (h : Z).
Local Abbreviation R := (λ _ : Z, row_len h).

Lemma slot_half L s : 0 <= s < 2 * L → 0 <= s / 2 < L.
Proof. intros. split; [apply Z.div_pos; lia|apply Z.div_lt_upper_bound; lia]. Qed.

Lemma slot_eq s s' : s / 2 = s' / 2 → Z.even s = Z.even s' → s = s'.
Proof.
  intros Hd He. pose proof (Z.div_mod s 2 ltac:(lia)). pose proof (Z.div_mod s' 2 ltac:(lia)).
  pose proof (Zmod_even s) as H1. pose proof (Zmod_even s') as H2. rewrite He in H1. lia.
Qed.

Lemma cptr_uses m s c b o : cptr m s c = Some (b, o) → uses (m.(svm_k) (s / 2, c)) (m.(svm_v) (s / 2, c)) b.
Proof. unfold cptr. destruct (Z.even s); [left|right]; eauto. Qed.

(** Resident chunks can be read and written as a flat tensor. *)
Lemma unified_io u : unified_ok h u → all_live u → io_ok (2 * n_layers u) u.(n_chunks_alloc) R u.(umem).
Proof.
  intros Hu Hl. pose proof (uo_h _ _ Hu) as Hh. pose proof (uo_alloc _ _ Hu) as Ha.
  assert (Hres : ∀ s c, 0 <= s < 2 * n_layers u → 0 <= c < n_chunks_alloc u →
    resident u.(umem).(heap) (chunk_len h) (u.(umem).(svm_k) (s / 2, c)) (u.(umem).(svm_v) (s / 2, c))).
  { intros s c Hs Hc. apply (uo_res _ _ Hu), Hl; [by apply slot_half|done]. }
  split; [lia|intros; unfold row_len, sizeof_fp16; lia| |].
  - intros s c Hs Hc. destruct (Hres s c Hs Hc) as (bk & bv & dk & Hk & Ek & Hv). unfold cptr. rewrite Ek.
    rewrite <- chunk_rows. assert (0 < chunk_len h) by (unfold chunk_len, TOKENS_PER_CHUNK, sizeof_fp16; lia).
    destruct Hv as [(-> & -> & Hlen)|(_ & -> & Hlen & dv & Hdv & Hlen')]; destruct (Z.even s).
    + exists bk, 0, dk. repeat split; (done || lia).
    + exists bk, (chunk_len h), dk. repeat split; (done || lia).
    + exists bk, 0, dk. repeat split; (done || lia).
    + exists bv, 0, dv. repeat split; (done || lia).
  - intros s c s' c' b o b' o' Hs Hc Hs' Hc' Hne Hp Hp'. unfold apart. rewrite <- chunk_rows.
    destruct (decide (b = b')) as [<-|]; [right|by left].
    destruct (decide ((s / 2, c) = (s' / 2, c'))) as [Heq|Hd].
    2: { exfalso. apply (uo_sep _ _ Hu (s / 2, c) (s' / 2, c') b); try done.
         - apply Hl; [by apply slot_half|done].
         - apply Hl; [by apply slot_half|done].
         - by eapply cptr_uses.
         - by eapply cptr_uses. }
    injection Heq as Es Ec. subst c'. destruct (Hres s c Hs Hc) as (bk & bv & dk & Hk & Ek & Hv).
    unfold cptr in Hp, Hp'. rewrite <- Es in Hp'. destruct (Z.even s) eqn:E1, (Z.even s') eqn:E2.
    + exfalso. apply Hne. f_equal. apply slot_eq; congruence.
    + destruct Hv as [(-> & Ev2 & Hlen)|(Hbb & Ev2 & _)]; [left; simplify_eq; lia|exfalso; congruence].
    + destruct Hv as [(-> & Ev2 & Hlen)|(Hbb & Ev2 & _)]; [right; simplify_eq; lia|exfalso; congruence].
    + exfalso. apply Hne. f_equal. apply slot_eq; congruence.
Qed.

(** ** Other bytes in the same blocks *)
Lemma resident_layout hp hp' n k v : (∀ b, length <$> hp' !! b = length <$> hp !! b) →
  resident hp n k v → resident hp' n k v.
Proof.
  intros Hl (bk & bv & dk & Hk & -> & Hv).
  assert (Hb : ∀ b d, hp !! b = Some d → ∃ d', hp' !! b = Some d' ∧ length d' = length d).
  { intros b d Hd. specialize (Hl b). rewrite Hd in Hl. cbn in Hl. destruct (hp' !! b) as [d'|]; [|done].
    exists d'. by injection Hl. }
  destruct (Hb _ _ Hk) as (dk' & Hk' & Hlk). exists bk, bv, dk'. split; [done|]. split; [done|]. rewrite Hlk.
  destruct Hv as [?|(? & ? & ? & dv & Hdv & ?)]; [by left|]. right. destruct (Hb _ _ Hdv) as (dv' & Hv' & Hlv).
  repeat split; try done. exists dv'. by rewrite Hlv.
Qed.

Lemma layout_fresh m m' : same_layout m m' → (∀ b, is_Some (m.(heap) !! b) → (b < m.(next_block))%positive) →
  ∀ b, is_Some (m'.(heap) !! b) → (b < m'.(next_block))%positive.
Proof.
  intros Hs Hf b [d Hb]. rewrite (sl_next _ _ Hs). apply Hf. pose proof (sl_len _ _ Hs b) as Hl.
  rewrite Hb in Hl. destruct (m.(heap) !! b); [eauto|done].
Qed.

Lemma mem_ok_layout s m' : mem_ok s → same_layout s.(mem) m' → mem_ok (set_mem s m').
Proof.
  intros [M1 M2 M3 M4 M5 M6 M7] Hs. split; try done; [|by apply (layout_fresh s.(mem))|cbn; by rewrite (sl_arenas _ _ Hs)].
  intros p Hp. specialize (M3 p Hp). unfold chunk_ok in *. cbn.
  rewrite (sl_k _ _ Hs), (sl_v _ _ Hs), (sl_arenas _ _ Hs). destruct (states (tab s) p); [|done|done].
  destruct M3 as (? & ? & Hres). repeat split; try done. by eapply resident_layout; [apply Hs|].
Qed.

Lemma unified_layout u m' : unified_ok h u → same_layout u.(umem) m' →
  unified_ok h (with_mem u u.(chunk_made) m').
Proof.
  intros Hu Hs. assert (Hlive : ∀ p, live (with_mem u u.(chunk_made) m') p → live u p).
  { intros p [Hm Hc]%live_with_mem. by split. }
  pose proof Hu as [U1 U2 U3 U4 U5 U6 U7 U8 U9 U10 U11]. split; try done; cbn.
  - intros p Hp. rewrite (sl_k _ _ Hs), (sl_v _ _ Hs). eapply resident_layout; [apply Hs|by apply U8, Hlive].
  - intros p q b Hp Hq. rewrite (sl_k _ _ Hs), (sl_v _ _ Hs). by apply U9; apply Hlive.
  - by apply (layout_fresh u.(umem)).
  - intros c Hc. destruct (g_mzcache_core u) as [c0|] eqn:Hc0; [|done]. injection Hc as <-.
    destruct (U11 c0 eq_refl) as (C1 & C2 & C3 & C4 & C5 & C6). cbn.
    split; [done|]. split; [done|]. split; [done|]. split; [done|]. split; [by destruct C5|].
    apply mem_ok_layout; [done|by rewrite C1].
Qed.

Lemma with_mem_twice u made m made' m' : with_mem (with_mem u made m) made' m' = with_mem u made' m'.
Proof. unfold with_mem. cbn. f_equal. by destruct (g_mzcache_core u). Qed.

(** ** Rows *)

(** Row [i] of a slot, where attention finds it. *)
Definition row_at (u : llama_kv_cache_unified) (slot i : Z) : outcome (list byte) :=
  load (ptr_add (cptr u.(umem) slot (i / TOKENS_PER_CHUNK)) (i mod TOKENS_PER_CHUNK * row_len h))
    (row_len h) u.(umem).

Lemma row_at_flat slots n u slot i : io_ok slots n R u.(umem) → 0 <= slot < slots → 0 <= i < n * TOKENS_PER_CHUNK →
  row_at u slot i = Ok (read_at (i * row_len h) (row_len h) (flat R n u.(umem) slot)).
Proof.
  intros Hio Hs Hi. pose proof (io_row _ _ _ _ Hio slot Hs) as Hr. cbn in Hr. unfold row_at, TOKENS_PER_CHUNK in *.
  pose proof (Z.div_mod i 256 ltac:(lia)). pose proof (Z.mod_pos_bound i 256 ltac:(lia)).
  assert (0 <= i / 256 < n) by (split; [apply Z.div_pos; lia|apply Z.div_lt_upper_bound; lia]).
  rewrite (load_flat slots n R) by (done || unfold TOKENS_PER_CHUNK; nia). do 2 f_equal.
  unfold TOKENS_PER_CHUNK. nia.
Qed.

(** The bytes of rows picked by index. *)
Definition pick (F : list byte) (idx : list Z) : list byte :=
  concat ((λ i, read_at (i * row_len h) (row_len h) F) <$> idx).

Lemma pick_run F a k : 0 < row_len h → 0 <= a → 0 <= k →
  pick F (seqZ a k) = read_at (a * row_len h) (k * row_len h) F.
Proof.
  intros Hr Ha Hk. remember (Z.to_nat k) as n eqn:Hn. revert a k Ha Hk Hn.
  induction n as [|n IH]; intros a k Ha Hk Hn.
  - assert (k = 0) as -> by lia. done.
  - unfold pick in *. rewrite seqZ_cons by lia. cbn [fmap list_fmap concat]. rewrite IH by lia.
    replace (Z.succ a * row_len h) with (a * row_len h + row_len h) by lia.
    rewrite read_at_join by nia. f_equal. lia.
Qed.

Lemma gather_pick F ranges : 0 < row_len h → Forall (λ '(a, b), 0 <= a ∧ a < b) ranges →
  gather (row_len h) F ranges = pick F (indices ranges).
Proof.
  intros Hr. induction 1 as [|[a b] l [Ha Hab] Hf IH]; [done|].
  unfold gather, indices, pick in *. cbn [fmap list_fmap concat]. rewrite fmap_app, concat_app, IH.
  f_equal. symmetry. apply (pick_run F a (b - a)); lia.
Qed.

Lemma pick_length F idx : 0 < row_len h → Forall (λ i, 0 <= i ∧ (i + 1) * row_len h <= Z.of_nat (length F)) idx →
  Z.of_nat (length (pick F idx)) = Z.of_nat (length idx) * row_len h.
Proof.
  intros Hr Hf. unfold pick. rewrite (length_concat_const _ (Z.to_nat (row_len h))).
  - rewrite length_fmap. nia.
  - apply Forall_fmap. eapply Forall_impl; [exact Hf|]. intros i [Hi Hb]. cbn. apply length_read_at; nia.
Qed.

(** After storing picked rows at row [hd], row [hd + k] is the [k]-th of them. *)
Lemma stored_row F F0 idx hd k i : 0 < row_len h → 0 <= hd →
  Forall (λ i, 0 <= i ∧ (i + 1) * row_len h <= Z.of_nat (length F)) idx →
  (hd + Z.of_nat (length idx)) * row_len h <= Z.of_nat (length F0) →
  idx !! k = Some i →
  read_at ((hd + Z.of_nat k) * row_len h) (row_len h) (write_at (hd * row_len h) (pick F idx) F0)
  = read_at (i * row_len h) (row_len h) F.
Proof.
  intros Hr Hhd Hf Hfit Hk. pose proof (pick_length F idx Hr Hf) as Hlen. pose proof (lookup_lt_Some _ _ _ Hk) as Hlt.
  replace ((hd + Z.of_nat k) * row_len h) with (hd * row_len h + Z.of_nat k * row_len h) by ring.
  assert (Hin : (Z.of_nat k + 1) * row_len h <= Z.of_nat (length idx) * row_len h) by (apply Z.mul_le_mono_nonneg_r; lia).
  rewrite <- (read_at_read_at _ (Z.of_nat (length (pick F idx)))) by (rewrite ?Hlen; nia).
  rewrite read_write_same by nia.
  unfold pick. replace (Z.of_nat k * row_len h) with (Z.of_nat k * row_len h + 0) by ring.
  rewrite (read_at_piece _ (row_len h) (Z.of_nat k) 0 (read_at (i * row_len h) (row_len h) F)); try lia.
  - apply read_at_all. rewrite Forall_lookup in Hf. destruct (Hf k i Hk). rewrite length_read_at by nia. lia.
  - apply Forall_fmap. eapply Forall_impl; [exact Hf|]. intros j [Hj Hb]. cbn. apply length_read_at; nia.
  - rewrite Nat2Z.id, list_lookup_fmap, Hk. done.
Qed.
End rows.
