(* ===== verification/KvSession.v ===== *)
(** Saving a session and restoring it: [state_write] and [state_read] of
    [src/llama-kv-cache-unified.cpp] for a whole cache. *)
From S2P Require Import Prelude Floats KvTypes KvPlan KvLadder KvInv KvFrame KvGrow KvOffload KvSwapIn.
From S2P Require Import Weight Swapout KvOps KvOpsThms KvCells KvCellsThms KvUnified KvUnifiedGrow KvSlots.
From S2P Require Import KvApply KvState KvStateRows.

Section session.
Context `{Cd : Codec} `{Ev : Env} (h : Z).
Local Abbreviation R := (λ _ : Z, row_len h).

(** ** Layers *)

(** What a layer's keys (or values) are written as. *)
Definition layer_bytes (rows : list byte) : list byte := le_bytes 4 (ggml_type_id F16) ++ le_bytes 8 (row_len h) ++ rows.

Lemma f16_row : ggml_row_size F16 h = row_len h.
Proof. unfold ggml_row_size, row_len, sizeof_fp16. cbn [ggml_type_size ggml_blck_size]. rewrite Z.div_1_r. ring. Qed.

Lemma layer_rows u l : unified_ok h u → l ∈ u.(layers) →
  l.(k_type) = F16 ∧ l.(v_type) = F16 ∧ k_row u l = row_len h ∧ v_row u l = row_len h.
Proof.
  intros Hu Hl. destruct (uo_types _ _ Hu l Hl) as (Hk & Hv & Ek & Ev'). unfold k_row, v_row.
  rewrite Hk, Hv, Ek, Ev', f16_row. done.
Qed.

(** The rows of a slot that the indices select. *)
Definition slot_rows (u : llama_kv_cache_unified) (idx : list Z) (slot : Z) : list byte :=
  pick h (flat R u.(n_chunks_alloc) u.(umem) slot) idx.

Definition ranges_fit (u : llama_kv_cache_unified) (ranges : list (Z * Z)) : Prop :=
  Forall (λ '(a, b), 0 <= a ∧ a < b ∧ b <= u.(n_chunks_alloc) * TOKENS_PER_CHUNK) ranges.

Lemma write_half u ranges slot io : unified_ok h u → all_live u → 0 <= slot < 2 * n_layers u →
  ranges_fit u ranges →
  chunk_write slot (row_len h) ranges u.(umem) io = Ok (io ++ slot_rows u (indices ranges) slot).
Proof.
  intros Hu Hl Hs Hr. pose proof (uo_h _ _ Hu). pose proof (unified_io h u Hu Hl) as Hio.
  unfold slot_rows. rewrite <- gather_pick; [|unfold row_len, sizeof_fp16; lia|].
  - apply (chunk_write_flat (2 * n_layers u) u.(n_chunks_alloc) R); [done|done|].
    eapply Forall_impl; [exact Hr|]. intros [a b] (? & ? & ?). by split.
  - eapply Forall_impl; [exact Hr|]. intros [a b] (? & ? & ?). by split.
Qed.

Lemma write_layers u ranges io : unified_ok h u → all_live u → u.(v_trans) = false → ranges_fit u ranges →
  state_write_data ranges u io = Ok (io ++ le_bytes 4 0 ++ le_bytes 4 (n_layers u)
    ++ concat ((λ l, layer_bytes (slot_rows u (indices ranges) (2 * l.(il)))) <$> u.(layers))
    ++ concat ((λ l, layer_bytes (slot_rows u (indices ranges) (2 * l.(il) + 1))) <$> u.(layers))).
Proof.
  intros Hu Hl Hv Hr. unfold state_write_data. rewrite Hv. cbn [negb].
  rewrite (ofold_append _ (λ l, layer_bytes (slot_rows u (indices ranges) (2 * l.(il))))).
  2: { intros l s Hin. destruct (layer_rows u l Hu Hin) as (Ek & _ & Er & _).
       unfold write_k_layer, state_write_k_chunked. rewrite Ek, Er.
       rewrite write_half by (done || pose proof (n_layers_pos _ _ _ Hu Hin); lia).
       unfold layer_bytes. by rewrite <- !app_assoc. }
  cbn [obind]. rewrite (ofold_append _ (λ l, layer_bytes (slot_rows u (indices ranges) (2 * l.(il) + 1)))).
  2: { intros l s Hin. destruct (layer_rows u l Hu Hin) as (_ & Ek & _ & Er).
       unfold write_v_layer, state_write_v_chunked. rewrite Ek, Er.
       rewrite write_half by (done || pose proof (n_layers_pos _ _ _ Hu Hin); lia).
       unfold layer_bytes. by rewrite <- !app_assoc. }
  unfold n_layers. by rewrite <- !app_assoc.
Qed.

(** Reading one half of a layer. *)
Definition read_half (cnt slot : Z) (st : list byte * llama_kv_cache_unified)
    : outcome (bool * (list byte * llama_kv_cache_unified)) :=
  let '(io, u) := st in
  '(t, io1) <~ io_read_le 4 io ;;
  if negb (ggml_type_id F16 =? i32 t) then Ok (false, (io1, u))
  else
    '(r, io2) <~ io_read_le 8 io1 ;;
    if negb (row_len h =? r) then Ok (false, (io2, u))
    else if cnt =? 0 then Ok (true, (io2, u))
    else '(io3, m) <~ chunk_read slot (row_len h) cnt u.(head) io2 u.(umem) ;;
         Ok (true, (io3, with_mem u u.(chunk_made) m)).

Lemma read_half_spec n slots cnt slot v m data io : 0 < h < 2 ^ 24 → io_ok slots n R m → 0 <= slot < slots →
  0 <= cnt → 0 <= v.(head) → v.(head) + cnt <= n * TOKENS_PER_CHUNK → Z.of_nat (length data) = cnt * row_len h →
  ∃ m', read_half cnt slot (layer_bytes data ++ io, with_mem v v.(chunk_made) m)
      = Ok (true, (io, with_mem v v.(chunk_made) m')) ∧
    same_layout m m' ∧ flat R n m' slot = write_at (v.(head) * row_len h) data (flat R n m slot) ∧
    ∀ s', 0 <= s' < slots → s' ≠ slot → flat R n m' s' = flat R n m s'.
Proof.
  intros Hh Hio Hs Hc Hhd Hfit Hlen. unfold read_half, layer_bytes. rewrite <- !app_assoc.
  rewrite io_read_le_bytes by lia. cbn [obind ggml_type_id]. rewrite i32_mod by lia. cbn [Z.eqb Pos.eqb negb].
  assert (Hr : 0 < row_len h < 2 ^ 32) by (unfold row_len, sizeof_fp16; lia).
  rewrite io_read_le_small by lia. cbn [obind]. rewrite Z.eqb_refl. cbn [negb].
  destruct (Z.eqb_spec cnt 0) as [->|Hne].
  - exists m. destruct data; [|cbn in Hlen; lia]. split; [done|]. split; [done|]. by rewrite write_at_nil.
  - destruct (chunk_read_flat slots n R m slot v.(head) cnt data io Hio Hs Hhd ltac:(lia) Hfit Hlen)
      as (m' & Hrun & Hsl & Hfl & Hoth).
    cbn [with_mem head umem] in *. rewrite Hrun. cbn [obind]. exists m'.
    split; [|done]. cbn [chunk_made]. by rewrite with_mem_twice.
Qed.

Lemma read_halves (f : kv_layer → list byte * llama_kv_cache_unified → outcome (bool * (list byte * llama_kv_cache_unified)))
    (slotf : kv_layer → Z) (D : kv_layer → list byte) n slots cnt v ls : ∀ m io,
  0 < h < 2 ^ 24 → io_ok slots n R m → 0 <= cnt → 0 <= v.(head) → v.(head) + cnt <= n * TOKENS_PER_CHUNK →
  NoDup (slotf <$> ls) → (∀ l, l ∈ ls → 0 <= slotf l < slots ∧ Z.of_nat (length (D l)) = cnt * row_len h) →
  (∀ l m io, l ∈ ls → f l (io, with_mem v v.(chunk_made) m) = read_half cnt (slotf l) (io, with_mem v v.(chunk_made) m)) →
  ∃ m', try_fold f ls (concat ((λ l, layer_bytes (D l)) <$> ls) ++ io, with_mem v v.(chunk_made) m)
      = Ok (true, (io, with_mem v v.(chunk_made) m')) ∧
    same_layout m m' ∧
    (∀ l, l ∈ ls → flat R n m' (slotf l) = write_at (v.(head) * row_len h) (D l) (flat R n m (slotf l))) ∧
    ∀ s', 0 <= s' < slots → s' ∉ (slotf <$> ls) → flat R n m' s' = flat R n m s'.
Proof.
  induction ls as [|l ls IH]; intros m io Hh Hio Hc Hhd Hfit Hnd Hls Hf.
  - exists m. split; [done|]. split; [done|]. split; [by intros l ?%elem_of_nil|done].
  - cbn [try_fold fmap list_fmap concat] in *. apply NoDup_cons in Hnd as [Hn Hnd].
    destruct (Hls l ltac:(left)) as [Hs Hlen]. rewrite <- app_assoc, Hf by left.
    destruct (read_half_spec n slots cnt (slotf l) v m (D l) (concat ((λ l, layer_bytes (D l)) <$> ls) ++ io)
      Hh Hio Hs Hc Hhd Hfit Hlen) as (m1 & -> & Hsl1 & Hfl1 & Ho1). cbn [obind].
    destruct (IH m1 io Hh (same_layout_io _ _ _ _ _ Hsl1 Hio) Hc Hhd Hfit Hnd) as (m' & -> & Hsl & Hfl & Ho).
    { intros l' Hl'. apply Hls. by right. }
    { intros l' m0 io0 Hl'. apply Hf. by right. }
    exists m'. split; [done|]. split; [by etrans|]. split.
    + intros l' [->|Hl']%elem_of_cons.
      * rewrite (Ho _ Hs Hn). done.
      * rewrite (Hfl _ Hl'). f_equal. apply Ho1; [by apply Hls; right|]. intros He. apply Hn. rewrite <- He.
        by apply list_elem_of_fmap_2.
    + intros s' Hs' Hn'. apply not_elem_of_cons in Hn' as [Hn1 Hn2]. rewrite (Ho _ Hs' Hn2). by apply Ho1.
Qed.

Lemma slots_nodup u (f : kv_layer → Z) : unified_ok h u → (∀ l l', f l = f l' → l.(il) = l'.(il)) →
  NoDup (f <$> u.(layers)).
Proof.
  intros Hu Hf. assert (Hnd : NoDup (il <$> u.(layers))) by (rewrite (uo_layers _ _ Hu); apply NoDup_seqZ).
  induction (layers u) as [|l ls IH]; [constructor|]. apply NoDup_cons in Hnd as [Hn Hnd].
  apply NoDup_cons. split; [|by apply IH]. intros (l' & Heq & Hl')%list_elem_of_fmap. apply Hn.
  rewrite (Hf _ _ Heq). by apply list_elem_of_fmap_2.
Qed.

(** ** Data *)

Lemma read_k_half cnt l io v : unified_ok h v → l ∈ v.(layers) → ∀ m,
  read_k_layer cnt l (io, with_mem v v.(chunk_made) m) = read_half cnt (2 * l.(il)) (io, with_mem v v.(chunk_made) m).
Proof.
  intros Hu Hl m. destruct (layer_rows v l Hu Hl) as (Ek & _ & Er & _). unfold read_k_layer, read_half, state_read_k_chunked.
  change (k_row (with_mem v (chunk_made v) m) l) with (k_row v l). by rewrite Ek, Er.
Qed.

Lemma read_v_half cnt l io v : unified_ok h v → l ∈ v.(layers) → ∀ m,
  read_v_layer cnt l (io, with_mem v v.(chunk_made) m) = read_half cnt (2 * l.(il) + 1) (io, with_mem v v.(chunk_made) m).
Proof.
  intros Hu Hl m. destruct (layer_rows v l Hu Hl) as (_ & Ek & _ & Er). unfold read_v_layer, read_half, state_read_v_chunked.
  change (v_row (with_mem v (chunk_made v) m) l) with (v_row v l). by rewrite Ek, Er.
Qed.

(** A cache none of whose chunks is swapped out. *)
Definition at_rest (u : llama_kv_cache_unified) : Prop :=
  ∀ c, u.(g_mzcache_core) = Some c → clean_ladder c.(ckv) = true.

Lemma rest_live u : unified_ok h u → at_rest u → all_live u.
Proof.
  intros Hu Hc p H1 H2. split; [by apply (uo_made _ _ Hu)|]. intros c Hco Hr.
  destruct (uo_core _ _ Hu c Hco) as (_ & HL & _ & _ & Hlad & _).
  apply clean_all_raw; [done|by apply Hc|]. split; [by rewrite HL|lia].
Qed.

Lemma grown_rest need ok u u' : at_rest u → grown_cache h need ok u u' → at_rest u'.
Proof.
  intros Hr Hg c' Hc'. destruct (g_mzcache_core u) as [c|] eqn:Hc.
  - destruct (gc_core _ _ _ _ _ Hg c Hc) as (c1 & Hc1 & Hf). assert (c1 = c') as -> by congruence.
    pose proof (Hr c Hc) as Hcl. destruct (ok && _); [|by rewrite Hf].
    unfold followed in Hf. change (clean_ladder (set_mem (ckv c) (umem u'))) with (clean_ladder (ckv c)) in Hf.
    rewrite Hcl in Hf. apply Hf.
  - rewrite (gc_none _ _ _ _ _ Hg Hc) in Hc'. done.
Qed.

(** The rows of both halves of every layer, as a stream. *)
Definition data_bytes (ls : list kv_layer) (D : Z → list byte) : list byte :=
  le_bytes 4 0 ++ le_bytes 4 (Z.of_nat (length ls))
  ++ concat ((λ l, layer_bytes (D (2 * l.(il)))) <$> ls) ++ concat ((λ l, layer_bytes (D (2 * l.(il) + 1))) <$> ls).

Lemma read_data_spec cnt (D : Z → list byte) v io : unified_ok h v → at_rest v → v.(v_trans) = false →
  0 <= cnt <= cells_size v.(cells) → 0 <= v.(head) →
  v.(head) + cnt <= MAX_CHUNKS_PER_TENSOR * TOKENS_PER_CHUNK → growth_fits (v.(head) + cnt) v →
  ¬ refused v.(n_chunks_alloc) ((v.(head) + cnt + 255) / 256) v →
  (∀ s, 0 <= s < 2 * n_layers v → Z.of_nat (length (D s)) = cnt * row_len h) →
  ∃ v2 m', grown_cache h ((v.(head) + cnt + 255) / 256) true v v2 ∧
    state_read_data cnt (data_bytes v.(layers) D ++ io) v = Ok (true, (io, with_mem v2 v2.(chunk_made) m')) ∧
    same_layout v2.(umem) m' ∧ v.(head) + cnt <= v2.(n_chunks_alloc) * TOKENS_PER_CHUNK ∧
    ∀ s, 0 <= s < 2 * n_layers v → flat R v2.(n_chunks_alloc) m' s
      = write_at (v.(head) * row_len h) (D s) (flat R v2.(n_chunks_alloc) v2.(umem) s).
Proof.
  intros Hu Hrest Hvt Hcnt Hhd Hmax Hgf Href HD.
  destruct (mz_grow_chunks_spec h (v.(head) + cnt) v Hu ltac:(lia) Hgf) as (ok & v2 & Hrun & Hg & Hr).
  destruct ok; [clear Hr|by exfalso; apply Href, Hr].
  destruct (grown_cells _ _ _ _ _ Hg) as (Ec & Eh & El & En & Ev' & _).
  pose proof (gc_ok _ _ _ _ _ Hg) as Hu2. pose proof (rest_live _ Hu2 (grown_rest _ _ _ _ Hrest Hg)) as Hlive.
  pose proof (unified_io h v2 Hu2 Hlive) as Hio. rewrite En in Hio.
  assert (Hfit : v.(head) + cnt <= v2.(n_chunks_alloc) * TOKENS_PER_CHUNK).
  { rewrite (gc_alloc _ _ _ _ _ Hg). unfold TOKENS_PER_CHUNK.
    pose proof (Z.div_mod (v.(head) + cnt + 255) 256 ltac:(lia)).
    pose proof (Z.mod_pos_bound (v.(head) + cnt + 255) 256 ltac:(lia)). lia. }
  assert (Hslot : ∀ l, l ∈ v2.(layers) → 0 <= l.(il) < n_layers v) by (intros l Hl; rewrite <- En; by eapply n_layers_pos).
  destruct (read_halves (read_k_layer cnt) (λ l, 2 * l.(il)) (λ l, D (2 * l.(il))) v2.(n_chunks_alloc)
    (2 * n_layers v) cnt v2 v2.(layers) v2.(umem) (concat ((λ l, layer_bytes (D (2 * l.(il) + 1))) <$> v.(layers)) ++ io))
    as (m1 & Hk & Hsl1 & Hfl1 & Ho1); try rewrite Eh; try done; try lia.
  { apply Hu2. }
  { apply slots_nodup; [done|]. lia. }
  { intros l Hl. specialize (Hslot l Hl). split; [lia|]. apply HD. lia. }
  { intros l m i Hl. by apply read_k_half. }
  destruct (read_halves (read_v_layer cnt) (λ l, 2 * l.(il) + 1) (λ l, D (2 * l.(il) + 1)) v2.(n_chunks_alloc)
    (2 * n_layers v) cnt v2 v2.(layers) m1 io) as (m2 & Hv & Hsl2 & Hfl2 & Ho2); try rewrite Eh; try done; try lia.
  { apply Hu2. }
  { by eapply same_layout_io. }
  { apply slots_nodup; [done|]. lia. }
  { intros l Hl. specialize (Hslot l Hl). split; [lia|]. apply HD. lia. }
  { intros l m i Hl. by apply read_v_half. }
  exists v2, m2. split; [done|]. split.
  - unfold state_read_data, data_bytes. rewrite <- !app_assoc. rewrite io_read_le_bytes by lia. cbn [obind].
    pose proof (uo_n _ _ Hu) as Hn. unfold n_layers, MAX_NUM_LAYERS in Hn.
    rewrite io_read_le_small by lia. cbn [obind].
    rewrite Z.eqb_refl, (proj2 (Z.ltb_ge _ _)) by lia. cbn [negb]. rewrite Hvt. change (0 mod 2 ^ (8 * 4)) with 0.
    cbn [Z.eqb negb eqb]. unfold MAX_CHUNKS_PER_TENSOR, TOKENS_PER_CHUNK in Hmax. rewrite u32_id, Hrun by lia.
    cbn [obind negb]. rewrite (with_mem_self h v2 Hu2) in Hk. rewrite El in Hk, Hv |- *. rewrite Hk.
    cbn [obind negb]. rewrite Ev', Hvt. cbn [negb]. by rewrite Hv.
  - split; [by etrans|]. split; [done|]. intros s Hs.
    assert (Hil : s / 2 ∈ il <$> v2.(layers)).
    { rewrite (uo_layers _ _ Hu2), En. apply elem_of_seqZ. rewrite Z.add_0_l. by apply slot_half. }
    apply list_elem_of_fmap in Hil as (l & Hl & Hin). pose proof (Z.div_mod s 2 ltac:(lia)) as Hdm.
    pose proof (Zmod_even s) as He. destruct (Z.even s).
    + assert (s = 2 * il l) as -> by lia. rewrite Ho2; [by rewrite (Hfl1 l Hin), Eh|done|].
      intros (l' & Heq & _)%list_elem_of_fmap. lia.
    + assert (s = 2 * il l + 1) as -> by lia. rewrite (Hfl2 l Hin), Eh. f_equal. apply Ho1; [done|].
      intros (l' & Heq & _)%list_elem_of_fmap. lia.
Qed.

(** ** The whole cache *)

Definition occupied (cs : llama_kv_cells_unified) (i : Z) : bool :=
  match cs.(cell_list) !! Z.to_nat i with Some c => negb (c.(c_pos) =? -1) | None => false end.
Definition used_cells (cs : llama_kv_cells_unified) : list Z := filter (λ i, occupied cs i = true) (seqZ 0 (cells_size cs)).

Lemma used_cell cs i : i ∈ used_cells cs → 0 <= i < cells_size cs ∧
  ∃ c, cs.(cell_list) !! Z.to_nat i = Some c ∧ c.(c_pos) ≠ -1.
Proof.
  unfold used_cells, occupied. rewrite list_elem_of_filter, elem_of_seqZ. intros [Ho Hi]. split; [lia|].
  destruct (cell_list cs !! Z.to_nat i) as [c|]; [|done]. exists c. split; [done|]. by propify.
Qed.

(** A cache whose session can be saved: every chunk in memory, every used cell
    in a chunk. *)
Record sendable (u : llama_kv_cache_unified) : Prop := Sendable {
  se_ok : unified_ok h u;
  se_live : all_live u;
  se_cells : cells_ok u.(cells);
  se_vt : u.(v_trans) = false;
  se_size : cells_size u.(cells) <= MAX_CHUNKS_PER_TENSOR * TOKENS_PER_CHUNK;
  se_fit : ∀ i, i ∈ used_cells u.(cells) → i < u.(n_chunks_alloc) * TOKENS_PER_CHUNK;
  se_max : 0 <= u.(n_seq_max) <= LLAMA_MAX_SEQ;
  se_seq : ∀ i c s, u.(cells).(cell_list) !! i = Some c → s ∈ c.(c_seq) → s < u.(n_seq_max) }.

(** The sequences of a cell, in order. *)
Lemma all_ids u i c : sendable u → u.(cells).(cell_list) !! i = Some c →
  let ids := cell_ids u.(n_seq_max) (-1) c in
  NoDup ids ∧ (∀ s, s ∈ ids → 0 <= s < u.(n_seq_max)) ∧ list_to_set ids = c.(c_seq).
Proof.
  intros Hu Hc ids. unfold ids, cell_ids. split; [apply NoDup_filter, NoDup_seqZ|]. split.
  - intros s [_ Hs%elem_of_seqZ]%list_elem_of_filter. lia.
  - apply set_eq. intros s. rewrite elem_of_list_to_set, list_elem_of_filter, elem_of_seqZ. split; [tauto|].
    intros Hs. pose proof (se_seq _ Hu _ _ _ Hc Hs). pose proof (ck_seq _ (se_cells _ Hu) _ _ _ Hc Hs).
    split; [split; [by right|done]|lia].
Qed.

Definition cell_entry (u : llama_kv_cache_unified) (i : Z) : Z * list Z :=
  let c := default empty_cell (u.(cells).(cell_list) !! Z.to_nat i) in
  (c.(c_pos), cell_ids u.(n_seq_max) (-1) c).

(** The bytes of a saved session. *)
Definition session_bytes (u : llama_kv_cache_unified) : list byte :=
  let idx := used_cells u.(cells) in
  le_bytes 4 (Z.of_nat (length idx)) ++ concat ((λ '(p, ids), cell_bytes p ids) <$> (cell_entry u <$> idx))
  ++ data_bytes u.(layers) (slot_rows u idx).

Lemma state_write_spec u io : sendable u → state_write (-1) u io = Ok (io ++ session_bytes u).
Proof.
  intros Hu. pose proof (se_cells _ Hu) as Hok. pose proof (se_size _ Hu) as Hsz.
  unfold MAX_CHUNKS_PER_TENSOR, TOKENS_PER_CHUNK in Hsz.
  destruct (cell_ranges_spec u.(cells) (-1) (occupied u.(cells))) as (ranges & Hr & Hidx & Hf).
  - intros i Hi. destruct (cell_some _ _ Hi) as [c Hc]. rewrite (cells_is_empty_ok _ _ c) by (done || lia).
    unfold occupied. rewrite Hc. cbn [obind]. by destruct (c_pos c =? -1).
  - lia.
  - fold (used_cells (cells u)) in Hr, Hidx. unfold state_write. rewrite Hr. cbn [obind].
    unfold state_write_meta. rewrite ofold_indices, Hidx. rewrite write_meta_spec.
    + cbn [obind].
      rewrite write_layers; [|apply Hu|apply Hu|apply Hu|].
      * rewrite Hidx. unfold session_bytes, data_bytes. cbv zeta. rewrite <- !app_assoc. do 3 f_equal.
        f_equal. rewrite <- list_fmap_compose. done.
      * apply Forall_forall. intros [a b] Hab. pose proof (proj1 (Forall_forall _ _) Hf _ Hab) as (Ha & Hlt & _).
        split; [done|]. split; [done|]. assert (Hin : b - 1 ∈ used_cells (cells u)); [|pose proof (se_fit _ Hu _ Hin); lia].
        rewrite <- Hidx. unfold indices. apply list_elem_of_In, in_concat. exists (seqZ a (b - a)).
        split; apply list_elem_of_In; [|apply elem_of_seqZ; lia]. apply list_elem_of_fmap. by exists (a, b).
    + apply Hu.
    + intros i Hi%used_cell. split; [lia|apply Hi].
Qed.

(** ** Restoring *)

(** The base tensors are still where they were created. *)
Definition bases_ok (u : llama_kv_cache_unified) : Prop :=
  ∀ p n, (p, n) ∈ u.(child_bufs) → 0 <= n ∧ ∃ b o d, p = Some (b, o) ∧ u.(umem).(heap) !! b = Some d ∧
    0 <= o ∧ o + n <= Z.of_nat (length d).

Lemma buffers_clear bufs m : (∀ p n, (p, n) ∈ bufs → 0 <= n ∧ ∃ b o d, p = Some (b, o) ∧ m.(heap) !! b = Some d ∧
    0 <= o ∧ o + n <= Z.of_nat (length d)) → ∃ m', ofold buffer_clear bufs m = Ok m' ∧ same_layout m m'.
Proof.
  revert m. induction bufs as [|[p n] bufs IH]; intros m Hb; cbn [ofold]; [by exists m|].
  destruct (Hb p n ltac:(left)) as (Hn & b & o & d & Hp & Hd & Ho & Hl).
  assert (H1 : ∃ m1, buffer_clear (p, n) m = Ok m1 ∧ same_layout m m1).
  { unfold buffer_clear. cbn [fst snd]. rewrite Hp. destruct (n =? 0); [by exists m|].
    rewrite (store_ok b o d); [|done|done|rewrite length_replicate; lia]. eexists. split; [reflexivity|].
    split; try done. intros b'. cbn. destruct (decide (b = b')) as [<-|]; [|by rewrite lookup_insert_ne].
    rewrite lookup_insert_eq, Hd. cbn. f_equal. rewrite length_write_at; rewrite ?length_replicate; lia. }
  destruct H1 as (m1 & -> & Hs1). cbn [obind]. destruct (IH m1) as (m' & Hrun & Hs').
  - intros q k Hq. destruct (Hb q k ltac:(by right)) as (Hk & b' & o' & d' & -> & Hd' & Ho' & Hl').
    split; [done|]. destruct (same_layout_block _ _ _ _ Hs1 Hd') as (d2 & Hd2 & Hl2).
    exists b', o', d2. rewrite Hl2. done.
  - exists m'. split; [done|by etrans].
Qed.

Lemma reset_cells cs i : (cells_reset cs).(cell_list) !! i = (λ _, empty_cell) <$> cs.(cell_list) !! i.
Proof. cbn. by rewrite list_lookup_fmap. Qed.

Lemma reset_size cs : cells_size (cells_reset cs) = cells_size cs.
Proof. unfold cells_size. cbn. by rewrite length_fmap. Qed.

Lemma clear_spec v : unified_ok h v → bases_ok v → ∃ m, kv_clear true v =
    Ok (with_mem (with_cells v 0 (cells_reset v.(cells))) v.(chunk_made) m) ∧ same_layout v.(umem) m ∧
    unified_ok h (with_mem (with_cells v 0 (cells_reset v.(cells))) v.(chunk_made) m).
Proof.
  intros Hv Hb. destruct (buffers_clear v.(child_bufs) v.(umem) Hb) as (m & Hrun & Hs).
  exists m. unfold kv_clear. cbn [with_cells child_bufs umem chunk_made]. rewrite Hrun. split; [done|]. split; [done|].
  apply (unified_layout h (with_cells v 0 (cells_reset (cells v)))); [by apply with_cells_ok|done].
Qed.

Lemma layers_determined u v : unified_ok h u → unified_ok h v → n_layers u = n_layers v → u.(layers) = v.(layers).
Proof.
  assert (H : ∀ w, unified_ok h w → w.(layers) = (λ i, KvLayer i F16 F16) <$> seqZ 0 (n_layers w)).
  { intros w Hw. rewrite <- (uo_layers _ _ Hw), <- list_fmap_compose. symmetry. rewrite <- (list_fmap_id (layers w)) at 2.
    apply list_fmap_ext. intros i l Hl. apply list_elem_of_lookup_2 in Hl.
    destruct (uo_types _ _ Hw l Hl) as (Hk & Hv & _). destruct l as [a kt vt]. cbn in *. by subst. }
  intros Hu Hv En. by rewrite (H u Hu), (H v Hv), En.
Qed.

(** What a cache must be like for [n] cells of [u] to be restored into it. *)
Record receivable (u v : llama_kv_cache_unified) : Prop := Receivable {
  re_ok : unified_ok h v;
  re_rest : at_rest v;
  re_bases : bases_ok v;
  re_vt : v.(v_trans) = false;
  re_layers : n_layers v = n_layers u;
  re_max : u.(n_seq_max) <= v.(n_seq_max) <= LLAMA_MAX_SEQ;
  re_size : Z.of_nat (length (used_cells u.(cells))) <= cells_size v.(cells);
  re_small : cells_size v.(cells) <= MAX_CHUNKS_PER_TENSOR * TOKENS_PER_CHUNK;
  re_growth : growth_fits (Z.of_nat (length (used_cells u.(cells)))) v;
  re_alloc : ¬ refused v.(n_chunks_alloc) ((Z.of_nat (length (used_cells u.(cells))) + 255) / 256) v }.

(** The cells after reading: the used cells of the sender, packed. *)
Definition packed (u : llama_kv_cache_unified) (size : Z) (cs : llama_kv_cells_unified) : Prop :=
  cells_ok cs ∧ cells_size cs = size ∧
  (∀ k i, used_cells u.(cells) !! k = Some i → ∃ c, u.(cells).(cell_list) !! Z.to_nat i = Some c ∧
     cs.(cell_list) !! k = Some (KvCell c.(c_pos) 0 c.(c_seq))) ∧
  ∀ k, Z.of_nat (length (used_cells u.(cells))) <= k < size → cs.(cell_list) !! Z.to_nat k = Some empty_cell.

Lemma read_meta_spec u v io : sendable u → receivable u v →
  let idx := used_cells u.(cells) in
  ∃ m cs, state_read_meta (Z.of_nat (length idx)) (-1)
      (concat ((λ '(p, ids), cell_bytes p ids) <$> (cell_entry u <$> idx)) ++ io) v
    = Ok (true, (io, with_cells (with_mem (with_cells v 0 (cells_reset v.(cells))) v.(chunk_made) m) 0 cs)) ∧
    same_layout v.(umem) m ∧
    unified_ok h (with_cells (with_mem (with_cells v 0 (cells_reset v.(cells))) v.(chunk_made) m) 0 cs) ∧
    packed u (cells_size v.(cells)) cs.
Proof.
  intros Hu [Hv Hrest Hb Hvt HL Hmax Hsz Hsm _ _] idx. cbn zeta.
  destruct (clear_spec v Hv Hb) as (m & Hcl & Hs & Hok1).
  unfold state_read_meta. cbn [Z.eqb Pos.eqb negb]. unfold state_read_meta_all.
  rewrite (proj2 (Z.ltb_ge _ _)) by (unfold idx; lia). rewrite Hcl. cbn [obind].
  change (n_seq_max (with_mem _ _ m)) with (n_seq_max v). change (cells (with_mem _ _ m)) with (cells_reset (cells v)).
  pose proof (se_max _ Hu) as Hum.
  assert (Hentry : ∀ i, i ∈ idx → let '(p, ids) := cell_entry u i in
    0 <= p < 2 ^ 31 - 1 ∧ NoDup ids ∧ ∀ s, s ∈ ids → 0 <= s < n_seq_max v).
  { intros i (Hi & c & Hc & Hp)%used_cell. unfold cell_entry. rewrite Hc. cbn [from_option id].
    pose proof (ck_pos _ (se_cells _ Hu) _ _ Hc). destruct (all_ids u _ c Hu Hc) as (Hnd & Hids & _).
    split; [lia|]. split; [done|]. intros s Hs'. specialize (Hids s Hs'). lia. }
  destruct (read_cells_spec v.(n_seq_max) (cell_entry u <$> idx) 0 (cells_reset (cells v)) io)
    as (cs & Hrun & Hcok & Hcsz & Hcl').
  - lia.
  - apply reset_ok.
  - done.
  - rewrite length_fmap, reset_size. unfold idx. lia.
  - intros i Hi. rewrite reset_size in Hi. destruct (cell_some (cells v) i) as [c Hc]; [lia|].
    rewrite reset_cells, Hc. done.
  - apply Forall_fmap, Forall_forall. intros i Hi. exact (Hentry i Hi).
  - rewrite length_fmap in Hrun. rewrite Hrun. cbn [obind]. exists m, cs. split; [done|]. split; [done|].
    split; [by apply with_cells_ok|]. split; [done|]. split; [by rewrite Hcsz, reset_size|]. split.
    + intros k i Hk. pose proof (used_cell _ _ (list_elem_of_lookup_2 _ _ _ Hk)) as (Hi & c & Hc & Hp).
      exists c. split; [done|]. rewrite <- (Nat2Z.id k) at 1. rewrite Hcl' by lia.
      rewrite (proj2 (Z.leb_le _ _)) by lia. rewrite Z.sub_0_r, Nat2Z.id, list_lookup_fmap. fold idx in Hk.
      rewrite Hk. cbn. unfold cell_entry. rewrite Hc. cbn [from_option id].
      destruct (all_ids u _ c Hu Hc) as (_ & _ & ->). done.
    + intros k Hk. fold idx in Hk. rewrite Hcl' by lia. rewrite (proj2 (Z.leb_le _ _)) by lia.
      rewrite Z.sub_0_r, lookup_ge_None_2 by (rewrite length_fmap; lia).
      destruct (cell_some (cells v) k) as [c Hc]; [lia|]. rewrite reset_cells, Hc. done.
Qed.

(** A restored session: cells and rows. *)
Definition restored (u v : llama_kv_cache_unified) : Prop :=
  packed u (cells_size v.(cells)) v.(cells) ∧
  ∀ k i, used_cells u.(cells) !! k = Some i → ∀ slot, 0 <= slot < 2 * n_layers u →
    ∃ row, row_at h u slot i = Ok row ∧ row_at h v slot (Z.of_nat k) = Ok row.

Lemma slot_rows_length u slot : sendable u → 0 <= slot < 2 * n_layers u →
  Forall (λ i, 0 <= i ∧ (i + 1) * row_len h <= Z.of_nat (length (flat R u.(n_chunks_alloc) u.(umem) slot)))
    (used_cells u.(cells)) ∧
  Z.of_nat (length (slot_rows u (used_cells u.(cells)) slot)) = Z.of_nat (length (used_cells u.(cells))) * row_len h.
Proof.
  intros Hu Hs. pose proof (uo_h _ _ (se_ok _ Hu)) as Hh. assert (Hr : 0 < row_len h) by (unfold row_len, sizeof_fp16; lia).
  assert (Hf : Forall (λ i, 0 <= i ∧ (i + 1) * row_len h <= Z.of_nat (length (flat R u.(n_chunks_alloc) u.(umem) slot)))
    (used_cells u.(cells))).
  { apply Forall_forall. intros i Hi. pose proof (se_fit _ Hu i Hi). destruct (used_cell _ _ Hi) as [Hb _].
    rewrite (flat_length (2 * n_layers u)) by (done || apply unified_io; apply Hu). split; [lia|].
    apply Z.mul_le_mono_nonneg_r; lia. }
  split; [done|]. by apply pick_length.
Qed.

Lemma session_restored u v io : sendable u → receivable u v →
  ∃ v', state_read (-1) (session_bytes u ++ io) v = Ok (io, v') ∧ unified_ok h v' ∧ at_rest v' ∧
    cells_size v'.(cells) = cells_size v.(cells) ∧ v'.(head) = 0 ∧ restored u v'.
Proof.
  intros Hu Hrv. pose proof Hrv as [Hv Hrest Hb Hvt HL Hmax Hsz Hsm Hgf Href].
  set (idx := used_cells u.(cells)) in *. set (cnt := Z.of_nat (length idx)) in *.
  unfold MAX_CHUNKS_PER_TENSOR, TOKENS_PER_CHUNK in Hsm.
  destruct (read_meta_spec u v (data_bytes u.(layers) (slot_rows u idx) ++ io) Hu Hrv)
    as (m & cs & Hmeta & Hs & Hok1 & Hpk). fold idx cnt in Hmeta.
  set (v1 := with_cells (with_mem _ _ m) 0 cs) in *.
  pose proof (uo_h _ _ Hv) as Hh. pose proof (layers_determined v u Hv (se_ok _ Hu) HL) as Els.
  assert (Hrest1 : at_rest v1).
  { intros c Hc. unfold v1 in Hc. cbn in Hc. destruct (g_mzcache_core v) as [c0|] eqn:E; [|done].
    injection Hc as <-. by apply (Hrest c0). }
  destruct (read_data_spec cnt (slot_rows u idx) v1 io Hok1 Hrest1) as (v2 & m' & Hg & Hdata & Hs2 & Hfit & Hfl); try done.
  - change (cells_size (cells v1)) with (cells_size cs). rewrite (proj1 (proj2 Hpk)). lia.
  - unfold v1, MAX_CHUNKS_PER_TENSOR, TOKENS_PER_CHUNK. cbn [head with_cells]. lia.
  - intros c Hc. unfold v1 in Hc |- *. cbn [head with_cells with_mem g_mzcache_core] in Hc |- *. rewrite Z.add_0_l.
    destruct (g_mzcache_core v) as [c0|] eqn:E; [|done]. injection Hc as <-. by apply (Hgf c0).
  - intros s Hs'. change (n_layers v1) with (n_layers v) in Hs'. rewrite HL in Hs'. by apply slot_rows_length.
  - change (layers v1) with (layers v) in Hdata. rewrite Els in Hdata. change (head v1) with 0 in *.
    destruct (grown_cells _ _ _ _ _ Hg) as (Ec & Eh & _ & En & _). change (n_layers v1) with (n_layers v) in *.
    pose proof (gc_ok _ _ _ _ _ Hg) as Hok2. pose proof (grown_rest _ _ _ _ Hrest1 Hg) as Hrest2.
    set (v' := with_mem v2 v2.(chunk_made) m') in *.
    assert (Hok' : unified_ok h v') by by apply unified_layout.
    assert (Hrest' : at_rest v').
    { intros c Hc. unfold v' in Hc. cbn in Hc. destruct (g_mzcache_core v2) as [c0|] eqn:E; [|done].
      injection Hc as <-. by apply (Hrest2 c0). }
    exists v'. split; [|split; [done|split; [done|split; [|split; [exact Eh|]]]]].
    + unfold state_read, session_bytes. cbv zeta. fold idx. fold cnt. rewrite <- !app_assoc.
      rewrite io_read_le_small by lia. cbn [obind]. rewrite Hmeta. cbn [obind]. by rewrite Hdata.
    + change (cells v') with (cells v2). rewrite Ec. exact (proj1 (proj2 Hpk)).
    + split.
      * change (cells v') with (cells v2). rewrite Ec. change (cells v1) with cs. by rewrite (proj1 (proj2 Hpk)).
      * intros k i Hk slot Hslot. pose proof (lookup_lt_Some _ _ _ Hk) as Hlt. fold idx in Hk, Hlt.
        pose proof (used_cell _ _ (list_elem_of_lookup_2 _ _ _ Hk)) as [Hi _].
        pose proof (se_fit _ Hu i (list_elem_of_lookup_2 _ _ _ Hk)) as Hif.
        pose proof (unified_io h u (se_ok _ Hu) (se_live _ Hu)) as Hio.
        pose proof (unified_io h v' Hok' (rest_live _ Hok' Hrest')) as Hio'.
        change (n_layers v') with (n_layers v2) in Hio'. rewrite En, HL in Hio'.
        exists (read_at (i * row_len h) (row_len h) (flat R u.(n_chunks_alloc) u.(umem) slot)).
        split; [apply (row_at_flat _ (2 * n_layers u)); [done|done|lia]|].
        rewrite (row_at_flat h (2 * n_layers u) (v'.(n_chunks_alloc)) v' slot) by (done || (change (n_chunks_alloc v') with (n_chunks_alloc v2); lia)).
        f_equal. change (n_chunks_alloc v') with (n_chunks_alloc v2). change (umem v') with m'.
        rewrite Hfl by lia. replace (Z.of_nat k * row_len h) with ((0 + Z.of_nat k) * row_len h) by ring.
        destruct (slot_rows_length u slot Hu Hslot) as [Hfor _].
        apply stored_row; try done; try (unfold row_len, sizeof_fp16; lia).
        pose proof (unified_io h v2 Hok2 (rest_live _ Hok2 Hrest2)) as Hio2. rewrite En, HL in Hio2.
        rewrite (flat_length (2 * n_layers u)) by done.
        fold idx. fold cnt. apply Z.mul_le_mono_nonneg_r; [unfold row_len, sizeof_fp16; lia|]. lia.
Qed.

(** ** After a swap-out *)

(** The block of a base tensor has been freed; the buffer still names it. *)
Definition dead_base (u : llama_kv_cache_unified) (b : positive) : Prop :=
  u.(umem).(heap) !! b = None ∧ ∃ o n, (Some (b, o), n) ∈ u.(child_bufs) ∧ n ≠ 0.

Lemma buffer_clear_dead b buf m : m.(heap) !! b = None →
  buffer_clear buf m = Ub ∨ ∃ m', buffer_clear buf m = Ok m' ∧ m'.(heap) !! b = None.
Proof.
  intros Hb. unfold buffer_clear, store. destruct (buf.2 =? 0); [right; by exists m|].
  destruct buf.1 as [[b' o]|]; [|by left]. destruct (heap m !! b') as [d|] eqn:E; [|by left].
  destruct (_ && _); [|by left]. right. eexists. split; [done|]. cbn.
  rewrite lookup_insert_ne; [done|]. intros ->. congruence.
Qed.

Lemma clear_dead u b : dead_base u b → kv_clear true u = Ub.
Proof.
  intros (Hb & o & n & Hin & Hn). unfold kv_clear. cbn [with_cells child_bufs umem].
  assert (H : ofold buffer_clear u.(child_bufs) u.(umem) = Ub); [|by rewrite H].
  revert Hb Hin. generalize (umem u). induction (child_bufs u) as [|buf bufs IH]; intros m Hb Hin; [by apply elem_of_nil in Hin|].
  cbn [ofold]. apply elem_of_cons in Hin as [<-|Hin].
  - unfold buffer_clear, store. cbn [fst snd]. by rewrite (proj2 (Z.eqb_neq _ _) Hn), Hb.
  - destruct (buffer_clear_dead b buf m Hb) as [->|(m' & -> & Hb')]; [done|]. by apply IH.
Qed.

(** C36: a swap-out frees the memory of the base tensors, and [buffer_clear]
    still writes to it: from then on clearing the cache with its data, and
    restoring any whole-cache session that fits, access freed memory. *)
Theorem clear_after_swap_frees u b cell_count io : dead_base u b →
  0 <= cell_count <= cells_size u.(cells) → cell_count < 2 ^ 32 →
  kv_clear true u = Ub ∧ state_read (-1) (le_bytes 4 cell_count ++ io) u = Ub.
Proof.
  intros Hd Hc H32. pose proof (clear_dead u b Hd) as Hub. split; [done|].
  unfold state_read. rewrite io_read_le_small by lia. cbn [obind]. unfold state_read_meta, state_read_meta_all.
  cbn [Z.eqb Pos.eqb negb]. by rewrite (proj2 (Z.ltb_ge _ _)), Hub by lia.
Qed.

(** C10: saving a session and restoring it into another cache of the same shape.
    For a cache whose chunks are all in memory, [state_write] succeeds; from what
    it has written (followed by anything), [state_read] into a cache with no
    swapped-out chunk, enough cells and room to grow succeeds, consumes exactly
    that, and leaves a well-formed cache in which the used cells of the sender
    are packed from cell 0 on - same positions, same sequences - the other cells
    empty, and the keys and values of every layer, row by row across the chunks,
    those of the sender. *)
Theorem kv_session_roundtrip u v : sendable u → receivable u v →
  ∃ bs, state_write (-1) u [] = Ok bs ∧
    ∀ io, ∃ v', state_read (-1) (bs ++ io) v = Ok (io, v') ∧ unified_ok h v' ∧ at_rest v' ∧
      cells_size v'.(cells) = cells_size v.(cells) ∧ v'.(head) = 0 ∧ restored u v'.
Proof.
  intros Hu Hv. exists (session_bytes u). split; [by apply state_write_spec|].
  intros io. by apply session_restored.
Qed.
End session.
