(* ===== verification/KvUnifiedCtor.v ===== *)
(** Construction of the unified KV cache: [kv_unified_ctor] establishes the
    invariant the other operations keep, or throws. *)
From S2P Require Import Prelude Floats KvTypes KvPlan KvLadder KvInv KvFrame KvGrow KvOffload KvSwapIn.
From S2P Require Import Weight Swapout KvOps KvOpsThms KvCells KvCellsThms KvUnified KvUnifiedGrow KvSlots.
From S2P Require Import KvApply KvState KvStateRows KvSession.

(** A loop of which some rounds are bad: a bad round throws, the others keep
    [P]. *)
Lemma ofold_seqZ_throw {S} (P : Z → S → Prop) (bad : Z → bool) f a n (s : S) : 0 <= n → P a s →
  (∀ i s, a <= i < a + n → P i s →
     if bad i then f i s = Throw else ∃ s', f i s = Ok s' ∧ P (i + 1) s') →
  (∃ i, a <= i < a + n ∧ bad i = true ∧ ofold f (seqZ a n) s = Throw) ∨
  (∀ i, a <= i < a + n → bad i = false) ∧ ∃ s', ofold f (seqZ a n) s = Ok s' ∧ P (a + n) s'.
Proof.
  intros Hn HP Hf. remember (Z.to_nat n) as k eqn:Hk. revert a n s Hn HP Hf Hk.
  induction k as [|k IH]; intros a n s Hn HP Hf Hk.
  - right. assert (n = 0) as -> by lia. split; [lia|]. exists s. by rewrite Z.add_0_r.
  - rewrite seqZ_cons by lia. cbn [ofold]. pose proof (Hf a s ltac:(lia) HP) as Ha. destruct (bad a) eqn:Hb.
    { left. exists a. rewrite Ha. split; [lia|]. by split. }
    destruct Ha as (s1 & -> & H1). cbn [obind].
    destruct (IH (Z.succ a) (Z.pred n) s1) as [(i & Hi & Hbi & Hrun)|[Hgood (s' & Hrun & H')]]; [lia|done| |lia| |].
    + intros i si Hi. apply Hf. lia.
    + left. exists i. split; [lia|]. by split.
    + right. split.
      * intros i Hi. destruct (decide (i = a)) as [->|]; [done|]. apply Hgood. lia.
      * exists s'. split; [done|]. by replace (a + n) with (Z.succ a + Z.pred n) by lia.
Qed.

Section ctor.
Context `{Cd : Codec} `{Ev : Env} (h : Z).
Hypothesis Hh : 0 < h < 2 ^ 24.
Local Abbreviation zeros := (replicate (Z.to_nat (chunk_len h)) 0).

Lemma chunk_len_pos : 0 < chunk_len h.
Proof using Hh. unfold chunk_len, TOKENS_PER_CHUNK, sizeof_fp16. lia. Qed.

(** The block of one base tensor. *)
Definition base_block (m : memory) : memory :=
  Memory (<[m.(next_block) := zeros]> m.(heap)) (Pos.succ m.(next_block)) m.(svm_k) m.(svm_v) m.(arenas).

Lemma new_base_run m : new_base (ggml_row_size F16 h) m = Ok (Some (m.(next_block), 0), base_block m).
Proof using Hh.
  pose proof chunk_len_pos as Hc. unfold new_base. rewrite f16_row.
  replace (TOKENS_PER_CHUNK * row_len h) with (chunk_len h) by (unfold chunk_len, row_len; ring).
  unfold svm_alloc. rewrite (store_ok _ 0 (fresh_mem (next_block m) (chunk_len h)));
    [|cbn; by rewrite lookup_insert_eq|done|rewrite length_fresh_mem, length_replicate by lia; lia].
  cbn [obind]. unfold base_block. cbn. rewrite insert_insert_eq. do 3 f_equal. 
  unfold write_at. cbn [Z.to_nat take app Nat.add]. rewrite drop_ge; [by rewrite app_nil_r|].
  pose proof (length_fresh_mem (next_block m) (chunk_len h)). rewrite length_replicate. lia.
Qed.

(** ** The layers created so far *)

Abbreviation ctor_state := (list kv_layer * list (ptr * Z) * (pos → bool) * memory)%type.

Record layers_made (k : Z) (m0 : memory) (st : ctor_state) : Prop := LayersMade {
  lm_layers : st.1.1.1 = (λ i, KvLayer i F16 F16) <$> seqZ 0 k;
  lm_made : ∀ p : pos, st.1.2 p = true ↔ 0 <= p.1 < k ∧ p.2 = 0;
  lm_bufs : ∀ p n, (p, n) ∈ st.1.1.2 → n = chunk_len h ∧ ∃ b, p = Some (b, 0) ∧ st.2.(heap) !! b = Some zeros;
  lm_chunk : ∀ l, 0 <= l < k → ∃ bk bv, bk ≠ bv ∧
    st.2.(svm_k) (l, 0) = Some (bk, 0) ∧ st.2.(svm_v) (l, 0) = Some (bv, 0) ∧
    st.2.(heap) !! bk = Some zeros ∧ st.2.(heap) !! bv = Some zeros;
  lm_apart : ∀ l l' b, 0 <= l < k → 0 <= l' < k → l ≠ l' →
    uses (st.2.(svm_k) (l, 0)) (st.2.(svm_v) (l, 0)) b → uses (st.2.(svm_k) (l', 0)) (st.2.(svm_v) (l', 0)) b → False;
  lm_fresh : ∀ b, is_Some (st.2.(heap) !! b) → (b < st.2.(next_block))%positive;
  lm_old : ∀ b d, m0.(heap) !! b = Some d → st.2.(heap) !! b = Some d;
  lm_arenas : st.2.(arenas) = m0.(arenas) }.

Definition layer_refused (kv_size : Z) (l : Z) : bool :=
  (MAX_CHUNKS_PER_TENSOR <? u32 (kv_size + TOKENS_PER_CHUNK - 1) / TOKENS_PER_CHUNK) || negb (svm_alloc_ok (l, 0)).

(** The memory after the two base tensors of layer [l]. *)
Definition layer_memory (l : Z) (m : memory) : memory :=
  publish_chunk (l, 0) (Some (m.(next_block), 0)) (Some (Pos.succ m.(next_block), 0)) (base_block (base_block m)).

Lemma create_layer_run (kgqa vgqa : Z → Z) kv_size l (st : ctor_state) : kgqa l = h → vgqa l = h →
  create_layer F16 F16 kgqa vgqa kv_size l st =
    if layer_refused kv_size l then Throw
    else Ok (st.1.1.1 ++ [KvLayer l F16 F16],
             st.1.1.2 ++ [(Some (st.2.(next_block), 0), chunk_len h); (Some (Pos.succ st.2.(next_block), 0), chunk_len h)],
             <[(l, 0) := true]> st.1.2, layer_memory l st.2).
Proof using Hh.
  intros Hk Hv. destruct st as [[[ls bufs] made] m]. unfold create_layer, layer_refused. cbn [fst snd].
  destruct (MAX_CHUNKS_PER_TENSOR <? _); [done|]. destruct (svm_alloc_ok (l, 0)); [|done]. cbn [orb negb].
  rewrite Hk, Hv, new_base_run. cbn [obind]. rewrite new_base_run. cbn [obind]. rewrite f16_row.
  by replace (TOKENS_PER_CHUNK * row_len h) with (chunk_len h) by (unfold chunk_len, row_len; ring).
Qed.

Lemma layer_memory_heap l m b d : (∀ b, is_Some (m.(heap) !! b) → (b < m.(next_block))%positive) →
  m.(heap) !! b = Some d → (layer_memory l m).(heap) !! b = Some d.
Proof.
  intros Hf Hb. assert (b < next_block m)%positive by (apply Hf; eauto).
  cbn. rewrite !lookup_insert_ne by lia. done.
Qed.

Lemma create_layer_made k m0 ls bufs made m : 0 <= k → layers_made k m0 (ls, bufs, made, m) →
  layers_made (k + 1) m0 (ls ++ [KvLayer k F16 F16],
    bufs ++ [(Some (m.(next_block), 0), chunk_len h); (Some (Pos.succ m.(next_block), 0), chunk_len h)],
    <[(k, 0) := true]> made, layer_memory k m).
Proof.
  intros Hk [L1 L2 L3 L4 L5 L6 L7 L8]. cbn [fst snd] in *.
  assert (Hold : ∀ b d, heap m !! b = Some d → heap (layer_memory k m) !! b = Some d) by (intros; by apply layer_memory_heap).
  assert (Hnew : heap (layer_memory k m) !! next_block m = Some zeros ∧
                 heap (layer_memory k m) !! Pos.succ (next_block m) = Some zeros).
  { cbn. rewrite lookup_insert_ne by lia. by rewrite !lookup_insert_eq. }
  assert (Htab : ∀ l, l < k → svm_k (layer_memory k m) (l, 0) = svm_k m (l, 0) ∧ svm_v (layer_memory k m) (l, 0) = svm_v m (l, 0)).
  { intros l Hl. cbn. by rewrite !fn_lookup_insert_ne by (intros [=]; lia). }
  assert (Hptr : svm_k (layer_memory k m) (k, 0) = Some (next_block m, 0) ∧
                 svm_v (layer_memory k m) (k, 0) = Some (Pos.succ (next_block m), 0)).
  { cbn. by rewrite !fn_lookup_insert. }
  assert (Huse : ∀ l b, 0 <= l < k → uses (svm_k m (l, 0)) (svm_v m (l, 0)) b → (b < next_block m)%positive).
  { intros l b Hl. destruct (L4 l Hl) as (bk & bv & _ & -> & -> & H1 & H2). intros [[o [= -> _]]|[o [= -> _]]]; apply L6; eauto. }
  assert (Har : arenas (layer_memory k m) = arenas m) by done.
  assert (Hdom : ∀ b, is_Some (heap (layer_memory k m) !! b) → (b < next_block (layer_memory k m))%positive).
  { intros b. cbn. destruct (decide (b = next_block m)) as [->|H1]; [lia|].
    destruct (decide (b = Pos.succ (next_block m))) as [->|H2]; [lia|].
    rewrite !lookup_insert_ne by done. intros Hb%L6. lia. }
  set (m' := layer_memory k m) in *. clearbody m'. split; cbn [fst snd].
  - rewrite seqZ_snoc, fmap_app, L1 by lia. by rewrite Z.add_0_l.
  - intros [a b]. cbn [fst snd]. destruct (decide ((k, 0) = (a, b))) as [[= <- <-]|Hne].
    + rewrite fn_lookup_insert. split; [lia|done].
    + rewrite fn_lookup_insert_ne by done. rewrite L2. cbn. split; [lia|]. intros [H1 ->].
      split; [|done]. assert (a ≠ k) by congruence. lia.
  - intros p n [Hin|Hin]%elem_of_app.
    + destruct (L3 p n Hin) as (-> & b & -> & Hb). split; [done|]. exists b. split; [done|by apply Hold].
    + apply elem_of_cons in Hin as [[= -> ->]|Hin%list_elem_of_singleton]; [|injection Hin as -> ->];
        (split; [done|]); eexists; (split; [done|apply Hnew]).
  - intros l Hl. destruct (decide (l = k)) as [->|Hne].
    + exists (next_block m), (Pos.succ (next_block m)). destruct Hptr as [-> ->], Hnew. split; [lia|done].
    + destruct (L4 l ltac:(lia)) as (bk & bv & H1 & H2 & H3 & H4 & H5). exists bk, bv.
      destruct (Htab l ltac:(lia)) as [-> ->]. split; [done|]. split; [done|]. split; [done|]. split; by apply Hold.
  - assert (Hlast : ∀ l b, 0 <= l < k → uses (svm_k m' (l, 0)) (svm_v m' (l, 0)) b →
      uses (svm_k m' (k, 0)) (svm_v m' (k, 0)) b → False).
    { intros l b Hl. destruct (Htab l ltac:(lia)) as [-> ->], Hptr as [-> ->]. intros Hb%Huse; [|done].
      intros [[o [= Eb _]]|[o [= Eb _]]]; lia. }
    intros l l' b Hl Hl' Hne Hb Hb'. destruct (decide (l = k)) as [->|H1]; [by apply (Hlast l' b); [lia| |]|].
    destruct (decide (l' = k)) as [->|H2]; [by apply (Hlast l b); [lia| |]|].
    destruct (Htab l ltac:(lia)) as [E1 E2], (Htab l' ltac:(lia)) as [E3 E4]. rewrite E1, E2 in Hb. rewrite E3, E4 in Hb'.
    apply (L5 l l' b); (done || lia).
  - done.
  - intros b d Hb. by apply Hold, L7.
  - by rewrite Har.
Qed.

(** ** The cache *)

Lemma layers_made_none m : (∀ b, is_Some (m.(heap) !! b) → (b < m.(next_block))%positive) →
  layers_made 0 m ([], [], λ _, false, m).
Proof.
  intros Hf. split; cbn [fst snd]; try done; [|intros p n ?%elem_of_nil; done|intros l Hl; lia|intros l l' b Hl; lia].
  intros p. split; [done|lia].
Qed.

(** A new cache: well formed, empty, one zero chunk per layer, no core. *)
Record new_cache (n kv_size : Z) (m0 : memory) (u : llama_kv_cache_unified) : Prop := NewCache {
  nc_ok : unified_ok h u;
  nc_rest : at_rest u;
  nc_bases : bases_ok u;
  nc_cells : cells_ok u.(cells);
  nc_empty : ∀ i, 0 <= i < kv_size → u.(cells).(cell_list) !! Z.to_nat i = Some empty_cell;
  nc_size : cells_size u.(cells) = kv_size;
  nc_layers : n_layers u = n;
  nc_head : u.(head) = 0;
  nc_alloc : u.(n_chunks_alloc) = 1;
  nc_core : u.(g_mzcache_core) = None;
  nc_zero : ∀ l, 0 <= l < n → load (u.(umem).(svm_k) (l, 0)) (chunk_len h) u.(umem) = Ok zeros ∧
                              load (u.(umem).(svm_v) (l, 0)) (chunk_len h) u.(umem) = Ok zeros;
  nc_old : ∀ b d, m0.(heap) !! b = Some d → u.(umem).(heap) !! b = Some d;
  nc_arenas : u.(umem).(arenas) = m0.(arenas) }.

Lemma made_cache n kgqa vgqa vt kv_size seq_max pad swa swat m0 (st : ctor_state) :
  0 < n <= MAX_NUM_LAYERS → (∀ l, 0 <= l < n → kgqa l = h ∧ vgqa l = h) → 0 <= kv_size → layers_made n m0 st →
  new_cache n kv_size m0 (KvUnified st.1.1.1 kgqa vgqa vt seq_max pad swa swat 0
    (cells_resize kv_size (KvCells false ∅ [] (λ _, ∅))) st.1.2 1 st.1.1.2 st.2 None).
Proof using Hh.
  intros Hn Hg Hs [L1 L2 L3 L4 L5 L6 L7 L8]. pose proof chunk_len_pos as Hc.
  set (u := KvUnified _ _ _ _ _ _ _ _ _ _ _ _ _ _ _).
  assert (Hnl : n_layers u = n) by (unfold u, n_layers; cbn; rewrite L1, length_fmap, length_seqZ; lia).
  assert (Hlive : ∀ p : pos, live u p → ∃ l, p = (l, 0) ∧ 0 <= l < n).
  { intros [a b] [Hm _]. apply L2 in Hm. cbn in Hm. exists a. destruct Hm as [? ->]. done. }
  assert (Hlen : Z.of_nat (length zeros) = chunk_len h) by (rewrite length_replicate; lia).
  split; try done.
  - split; try done.
    + rewrite Hnl. unfold u. cbn. rewrite L1, <- list_fmap_compose. by apply list_fmap_id.
    + by rewrite Hnl.
    + intros l Hl. unfold u in Hl |- *. cbn in *. rewrite L1 in Hl.
      apply list_elem_of_fmap in Hl as (i & -> & Hi%elem_of_seqZ). destruct (Hg i) as [? ?]; [lia|]. done.
    + intros p H1 H2. apply L2. rewrite Hnl in H1. unfold u in H2. cbn [n_chunks_alloc] in H2. split; [done|lia].
    + intros p Hm%L2. rewrite Hnl. unfold MAX_CHUNKS_PER_TENSOR. destruct Hm as [? ->]. split; [done|lia].
    + intros p (l & -> & Hl)%Hlive. destruct (L4 l Hl) as (bk & bv & Hne & Hk & Hv & Hbk & Hbv).
      exists bk, bv, zeros. unfold u. cbn. rewrite Hk, Hv. split; [done|]. split; [done|]. right.
      split; [congruence|]. split; [done|]. split; [done|]. by exists zeros.
    + intros p q b (l & -> & Hl)%Hlive (l' & -> & Hl')%Hlive Hne. apply L5; congruence.
  - intros p k Hin. unfold u in Hin. cbn in Hin. destruct (L3 p k Hin) as (-> & b & -> & Hb). split; [lia|].
    exists b, 0, zeros. unfold u. cbn. split; [done|]. split; [done|]. lia.
  - unfold u. cbn [cells]. apply reset_ok.
  - intros i Hi. unfold u. cbn [cells]. unfold cells_resize. rewrite reset_cells. cbn [cell_list].
    rewrite resize_nil, lookup_replicate_2 by lia. done.
  - unfold u. cbn [cells]. unfold cells_resize. rewrite reset_size. unfold cells_size. cbn [cell_list].
    rewrite length_resize. lia.
  - intros l Hl. destruct (L4 l Hl) as (bk & bv & Hne & Hk & Hv & Hbk & Hbv). unfold u. cbn [umem].
    rewrite Hk, Hv, (load_ok bk 0 _ zeros), (load_ok bv 0 _ zeros) by (done || lia).
    by rewrite (read_at_all (chunk_len h) zeros).
Qed.

Lemma kv_unified_ctor_spec n kgqa vgqa vt kv_size seq_max pad swa swat m :
  0 < n <= MAX_NUM_LAYERS → (∀ l, 0 <= l < n → kgqa l = h ∧ vgqa l = h) → 0 <= kv_size → kv_size mod pad = 0 →
  (∀ b, is_Some (m.(heap) !! b) → (b < m.(next_block))%positive) →
  let r := kv_unified_ctor n kgqa vgqa F16 F16 vt kv_size seq_max pad swa swat m in
  (r = Throw ∧ ∃ l, 0 <= l < n ∧ layer_refused kv_size l = true) ∨
  (∀ l, 0 <= l < n → layer_refused kv_size l = false) ∧ ∃ u, r = Ok u ∧ new_cache n kv_size m u ∧
    u.(v_trans) = vt ∧ u.(n_seq_max) = seq_max ∧ u.(n_pad) = pad ∧ u.(swa_type) = swat.
Proof using Hh.
  intros Hn Hg Hs Hpad Hf r. unfold r, kv_unified_ctor. rewrite Hpad. cbn [Z.eqb assert_that obind].
  destruct (ofold_seqZ_throw (λ k st, layers_made k m st) (layer_refused kv_size)
    (create_layer F16 F16 kgqa vgqa kv_size) 0 n ([], [], λ _, false, m))
    as [(l & Hl & Hbad & ->)|[Hgood ([[[ls bufs] made] m'] & -> & Hmade)]].
  - lia.
  - by apply layers_made_none.
  - intros i [[[ls bufs] made] m'] Hi Hst. destruct (Hg i) as [Hk Hv]; [lia|]. rewrite create_layer_run by done.
    destruct (layer_refused kv_size i); [done|]. eexists. split; [done|]. apply create_layer_made; [lia|done].
  - left. split; [done|]. exists l. split; [lia|done].
  - right. split; [intros l Hl; apply Hgood; lia|]. cbn [obind]. eexists. split; [done|].
    split; [|done]. by apply (made_cache n kgqa vgqa vt kv_size seq_max pad swa swat m (ls, bufs, made, m')).
Qed.

(** C35: constructing the cache.  For [n] half-precision layers with rows of [h]
    elements, the constructor throws exactly when the context needs more than 256
    chunks or the driver refuses a base chunk; otherwise it returns a well-formed
    cache with [kv_size] empty cells and one zero chunk of its own for the keys
    and one for the values of each layer, all in memory, and the memory it found
    is as it was. *)
Theorem kv_unified_ctor_ok n kgqa vgqa vt kv_size seq_max pad swa swat m :
  0 < n <= MAX_NUM_LAYERS → (∀ l, 0 <= l < n → kgqa l = h ∧ vgqa l = h) → 0 <= kv_size → kv_size mod pad = 0 →
  (∀ b, is_Some (m.(heap) !! b) → (b < m.(next_block))%positive) →
  let r := kv_unified_ctor n kgqa vgqa F16 F16 vt kv_size seq_max pad swa swat m in
  (r = Throw ∧ ∃ l, 0 <= l < n ∧ layer_refused kv_size l = true) ∨
  (∀ l, 0 <= l < n → layer_refused kv_size l = false) ∧ ∃ u, r = Ok u ∧ new_cache n kv_size m u ∧
    u.(v_trans) = vt ∧ u.(n_seq_max) = seq_max ∧ u.(n_pad) = pad ∧ u.(swa_type) = swat.
Proof using Hh. exact (kv_unified_ctor_spec n kgqa vgqa vt kv_size seq_max pad swa swat m). Qed.
End ctor.
