(* ===== verification/KvSeqOps.v ===== *)
(** The sequence operations of the unified KV cache ([seq_rm], [seq_keep] of
    [src/llama-kv-cache-unified.cpp] and the cell operations under them): which
    cells they change and that the redundant members follow; and what [seq_rm],
    [seq_keep] and [seq_cp] do to every cell of the cache.

    A set of positions per sequence cannot count, so these operations keep
    [cells_ok] only where no two cells hold the same position of a sequence
    ([positions_unique]). *)
From S2P Require Import Prelude Floats KvTypes KvLadder KvOffload KvSwapIn Weight Swapout.
From S2P Require Import KvOps KvCells KvCellsThms KvUnified.

#[export] Instance kv_cell_eq_dec : EqDecision kv_cell.
Proof. solve_decision. Defined.

Definition positions_unique (cs : llama_kv_cells_unified) : Prop :=
  ∀ i j c d s, cs.(cell_list) !! i = Some c → cs.(cell_list) !! j = Some d →
    s ∈ c.(c_seq) → s ∈ d.(c_seq) → c.(c_pos) = d.(c_pos) → i = j.

(** A cell the class can hold. *)
Record cell_ok (c : kv_cell) : Prop := CellOk {
  co_pos : -1 <= c.(c_pos) < 2 ^ 31 - 1;
  co_empty : c.(c_pos) = -1 → c = empty_cell;
  co_seq : ∀ s, s ∈ c.(c_seq) → 0 <= s < LLAMA_MAX_SEQ }.

Lemma empty_cell_ok : cell_ok empty_cell.
Proof. split; cbn; [lia|done|]. by intros s ?%elem_of_empty. Qed.

Lemma cell_ok_at cs i c : cells_ok cs → cs.(cell_list) !! i = Some c → cell_ok c.
Proof.
  intros Hok Hc. split; [by eapply ck_pos|by eapply ck_empty|].
  intros s. by apply (ck_seq _ Hok _ _ s Hc).
Qed.

(** A cell of which nothing is left is empty: a used cell keeps a sequence. *)
Definition no_orphans (cs : llama_kv_cells_unified) : Prop :=
  ∀ i c, cs.(cell_list) !! i = Some c → c.(c_seq) = ∅ → c = empty_cell.

(** Replacing one cell: the members that follow it. *)
Lemma cells_ok_update cs i c c' hs u f : cells_ok cs → positions_unique cs → 0 <= i →
  cs.(cell_list) !! Z.to_nat i = Some c → cell_ok c' →
  (∀ j, j ∈ u ↔ if decide (j = i) then c'.(c_pos) ≠ -1 else j ∈ cs.(used)) →
  (∀ s p, p ∈ f s ↔ (s ∈ c'.(c_seq) ∧ p = c'.(c_pos)) ∨ (p ∈ cs.(seq_pos) s ∧ ¬ (s ∈ c.(c_seq) ∧ p = c.(c_pos)))) →
  cells_ok (KvCells hs u (<[Z.to_nat i := c']> cs.(cell_list)) f).
Proof.
  intros Hok Hun Hi Hc [P1 P2 P3] Hu Hf. pose proof (lookup_lt_Some _ _ _ Hc) as Hlt.
  assert (HL : ∀ j d, <[Z.to_nat i := c']> (cell_list cs) !! j = Some d →
    (j = Z.to_nat i ∧ d = c') ∨ (j ≠ Z.to_nat i ∧ cell_list cs !! j = Some d)).
  { intros j d [(-> & -> & _)|[Hne Hd]]%list_lookup_insert_Some; [by left|right]. split; [congruence|done]. }
  split; cbn [used cell_list seq_pos].
  - intros j. rewrite Hu. case_decide as Hj.
    + subst j. rewrite list_lookup_insert_eq by done. split; [intros; split; [done|by exists c']|].
      by intros (_ & d & [= <-] & Hp).
    + rewrite (ck_used _ Hok). split; intros (H0 & d & Hd & Hp); (split; [done|]); exists d.
      * by rewrite list_lookup_insert_ne by lia.
      * by apply HL in Hd as [[He _]|[_ Hd]]; [lia|].
  - intros j d [[_ ->]|[_ Hd]]%HL; [done|by eapply ck_pos].
  - intros j d [[_ ->]|[_ Hd]]%HL; [done|by eapply ck_empty].
  - intros j d s [[_ ->]|[_ Hd]]%HL; [apply P3|by apply (ck_seq _ Hok _ _ s Hd)].
  - intros s p. rewrite Hf, (ck_seq_pos _ Hok). split.
    + intros [[Hs ->]|[(j & d & Hd & Hs & Hp) Hn]].
      * exists (Z.to_nat i), c'. by rewrite list_lookup_insert_eq.
      * exists j, d. rewrite list_lookup_insert_ne; [done|]. intros <-. apply Hn. assert (d = c) as -> by congruence. done.
    + intros (j & d & [[-> ->]|[Hj Hd]]%HL & Hs & Hp); [by left|right]. split; [by exists j, d|].
      intros [Hs' Hp']. apply Hj. apply (Hun j (Z.to_nat i) d c s); congruence.
Qed.

(** A cell whose sequences shrink (and whose position stays) leaves positions
    unique. *)
Lemma unique_shrink cs cs' : positions_unique cs →
  (∀ i c', cs'.(cell_list) !! i = Some c' → ∃ c, cs.(cell_list) !! i = Some c ∧
     (c'.(c_seq) = ∅ ∨ c'.(c_seq) ⊆ c.(c_seq) ∧ c'.(c_pos) = c.(c_pos))) → positions_unique cs'.
Proof.
  intros Hun Hs i j c d s Hc Hd Hsc Hsd Hp.
  destruct (Hs i c Hc) as (c0 & Hc0 & [E|[Hsub Ep]]); [rewrite E in Hsc; by apply elem_of_empty in Hsc|].
  destruct (Hs j d Hd) as (d0 & Hd0 & [E|[Hsub' Ep']]); [rewrite E in Hsd; by apply elem_of_empty in Hsd|].
  apply (Hun i j c0 d0 s); [done|done|by apply Hsub|by apply Hsub'|congruence].
Qed.

Lemma unique_update cs i c c' hs u f : positions_unique cs → cs.(cell_list) !! i = Some c →
  (c'.(c_seq) = ∅ ∨ c'.(c_seq) ⊆ c.(c_seq) ∧ c'.(c_pos) = c.(c_pos)) →
  positions_unique (KvCells hs u (<[i := c']> cs.(cell_list)) f).
Proof.
  intros Hun Hc Hs. apply (unique_shrink cs); [done|]. cbn. intros j d [(<- & -> & _)|[Hne Hd]]%list_lookup_insert_Some.
  - by exists c.
  - exists d. split; [done|]. by right.
Qed.

Lemma elem_of_seq_pos_rm c f s p :
  p ∈ seq_pos_rm c f s ↔ p ∈ f s ∧ ¬ (s ∈ c.(c_seq) ∧ p = c.(c_pos)).
Proof.
  unfold seq_pos_rm. case_bool_decide as Hs; [|tauto].
  rewrite elem_of_difference, elem_of_singleton. tauto.
Qed.

Lemma elem_of_seq_pos_add c f s p :
  p ∈ seq_pos_add c f s ↔ (s ∈ c.(c_seq) ∧ p = c.(c_pos)) ∨ p ∈ f s.
Proof.
  unfold seq_pos_add. case_bool_decide as Hs; [|tauto].
  rewrite elem_of_union, elem_of_singleton. tauto.
Qed.

(** ** Operations on one cell *)

Definition cell_without (s : Z) (c : kv_cell) : kv_cell :=
  if decide (c.(c_seq) ∖ {[s]} = ∅) then empty_cell else KvCell c.(c_pos) c.(c_shift) (c.(c_seq) ∖ {[s]}).
Definition cell_only (s : Z) (c : kv_cell) : kv_cell :=
  if decide (s ∈ c.(c_seq)) then KvCell c.(c_pos) c.(c_shift) {[s]} else empty_cell.

(** [cs'] is [cs] with cell [i] replaced, and well formed. *)
Record cell_put (i : Z) (c' : kv_cell) (cs cs' : llama_kv_cells_unified) : Prop := CellPut {
  cp_ok : cells_ok cs';
  cp_unique : positions_unique cs';
  cp_list : cs'.(cell_list) = <[Z.to_nat i := c']> cs.(cell_list);
  cp_shift : cs'.(has_shift) = cs.(has_shift) }.

Lemma emptied_used cs i j c : cells_ok cs → 0 <= i → cs.(cell_list) !! Z.to_nat i = Some c →
  j ∈ cs.(used) ∖ {[i]} ↔ if decide (j = i) then empty_cell.(c_pos) ≠ -1 else j ∈ cs.(used).
Proof.
  intros Hok Hi Hc. rewrite elem_of_difference, elem_of_singleton. case_decide; [|tauto]. cbn. tauto.
Qed.

Lemma kept_used cs i j c : cells_ok cs → 0 <= i → cs.(cell_list) !! Z.to_nat i = Some c → c.(c_pos) ≠ -1 →
  j ∈ cs.(used) ↔ if decide (j = i) then c.(c_pos) ≠ -1 else j ∈ cs.(used).
Proof.
  intros Hok Hi Hc Hp. case_decide; [|done]. subst. split; [done|]. intros _. apply (ck_used _ Hok). eauto.
Qed.

Lemma cells_rm_spec cs i c : cells_ok cs → positions_unique cs → 0 <= i →
  cs.(cell_list) !! Z.to_nat i = Some c → c.(c_pos) ≠ -1 →
  ∃ cs', cells_rm i cs = Ok cs' ∧ cell_put i empty_cell cs cs'.
Proof.
  intros Hok Hun Hi Hc Hp. unfold cells_rm. rewrite (proj2 (cell_at_ok _ i c)) by done. cbn [obind].
  rewrite (proj2 (Z.eqb_neq _ _) Hp). cbn [negb assert_that obind]. eexists. split; [done|].
  unfold put_used, put_seq_pos, put_cell. cbn. split; try done.
  - apply (cells_ok_update cs i c); [done|done|done|done|exact empty_cell_ok| |].
    + intros j. by apply (emptied_used cs i j c).
    + intros s p. rewrite elem_of_seq_pos_rm. cbn. split; [by right|].
      by intros [[?%elem_of_empty _]|].
  - apply (unique_update cs (Z.to_nat i) c); [done|done|by left].
Qed.

Lemma without_ok s c : cell_ok c → cell_ok (cell_without s c).
Proof.
  intros [P1 P2 P3]. unfold cell_without. case_decide as Hd; [exact empty_cell_ok|]. split; cbn; [done| |].
  - intros E. rewrite (P2 E) in Hd. destruct Hd. apply set_eq. intros t. cbn.
    rewrite elem_of_difference. split; [by intros [?%elem_of_empty _]|by intros ?%elem_of_empty].
  - intros t [Ht _]%elem_of_difference. by apply P3.
Qed.

Lemma cells_seq_rm_spec cs i s c : cells_ok cs → positions_unique cs → 0 <= i →
  cs.(cell_list) !! Z.to_nat i = Some c → s ∈ c.(c_seq) →
  ∃ cs', cells_seq_rm i s cs = Ok (bool_decide (cell_without s c = empty_cell), cs') ∧
    cell_put i (cell_without s c) cs cs'.
Proof.
  intros Hok Hun Hi Hc Hs. pose proof (ck_seq _ Hok _ _ _ Hc Hs) as Hsr.
  assert (Hp : c.(c_pos) ≠ -1).
  { intros E. rewrite (ck_empty _ Hok _ _ Hc E) in Hs. by apply elem_of_empty in Hs. }
  unfold cells_seq_rm, check_bit. rewrite (proj2 (cell_at_ok _ i c)) by done. cbn [obind].
  rewrite (proj2 (Z.leb_le 0 s)), (proj2 (Z.ltb_lt s _)) by lia. rewrite bool_decide_eq_true_2 by done.
  cbn [andb obind assert_that]. rewrite (proj2 (Z.eqb_neq _ _) Hp). cbn [negb assert_that obind].
  pose proof (without_ok s c (cell_ok_at _ _ _ Hok Hc)) as Hwo.
  assert (Hf : ∀ t p, p ∈ (<[s := seq_pos cs s ∖ {[c.(c_pos)]}]> (seq_pos cs)) t ↔
    (t ∈ (cell_without s c).(c_seq) ∧ p = (cell_without s c).(c_pos)) ∨
    (p ∈ seq_pos cs t ∧ ¬ (t ∈ c.(c_seq) ∧ p = c.(c_pos)))).
  { intros t p. assert (Hin : t ∈ (cell_without s c).(c_seq) ∧ p = (cell_without s c).(c_pos) ↔
      t ≠ s ∧ t ∈ c.(c_seq) ∧ p = c.(c_pos)).
    { unfold cell_without. case_decide as Hd; cbn.
      - split; [by intros [?%elem_of_empty _]|]. intros (Hne & Ht & _). exfalso.
        assert (t ∈ c.(c_seq) ∖ {[s]}) as Hx by (apply elem_of_difference; rewrite elem_of_singleton; tauto).
        rewrite Hd in Hx. by apply elem_of_empty in Hx.
      - rewrite elem_of_difference, elem_of_singleton. tauto. }
    rewrite Hin. destruct (decide (s = t)) as [<-|Hne].
    - rewrite fn_lookup_insert, elem_of_difference, elem_of_singleton. tauto.
    - rewrite fn_lookup_insert_ne by done. split.
      + intros Ht. destruct (decide (t ∈ c.(c_seq) ∧ p = c.(c_pos))) as [[]|]; [left|right]; split_and?; congruence.
      + intros [(_ & Ht & ->)|[Ht _]]; [|done]. apply (ck_seq_pos _ Hok). eauto. }
  assert (Hun' : positions_unique (KvCells cs.(has_shift) cs.(used) (<[Z.to_nat i := cell_without s c]> cs.(cell_list)) cs.(seq_pos))).
  { apply (unique_update cs (Z.to_nat i) c); [done|done|]. unfold cell_without. case_decide; [by left|right].
    split; [apply subseteq_difference_l; done|done]. }
  unfold cell_without in *. case_decide as Hd.
  - rewrite bool_decide_eq_true_2 by done. eexists. split; [by rewrite bool_decide_eq_true_2|].
    unfold put_used, put_seq_pos, put_cell. cbn. split; try done.
    apply (cells_ok_update cs i c); try done. intros j. by apply (emptied_used cs i j c).
  - rewrite bool_decide_eq_false_2 by done. eexists. split.
    + rewrite bool_decide_eq_false_2; [done|]. intros E. apply Hd. by injection E.
    + unfold put_seq_pos, put_cell. cbn. split; try done.
      apply (cells_ok_update cs i c); try done. intros j. by apply (kept_used cs i j c).
Qed.

Lemma cell_put_same i c cs : cells_ok cs → positions_unique cs → cs.(cell_list) !! Z.to_nat i = Some c →
  cell_put i c cs cs.
Proof. intros Hok Hun Hc. split; try done. by rewrite list_insert_id. Qed.

Lemma cells_seq_keep_spec cs i s c : cells_ok cs → positions_unique cs → (c.(c_seq) = ∅ → c = empty_cell) → 0 <= i →
  cs.(cell_list) !! Z.to_nat i = Some c → 0 <= s < LLAMA_MAX_SEQ →
  ∃ cs', cells_seq_keep i s cs = Ok (bool_decide ((s ∉ c.(c_seq)) ∧ c ≠ empty_cell), cs') ∧ cell_put i (cell_only s c) cs cs'.
Proof.
  intros Hok Hun Hor Hi Hc Hs. pose proof (cell_ok_at _ _ _ Hok Hc) as [P1 P2 P3].
  unfold cells_seq_keep, check_bit. rewrite (proj2 (cell_at_ok _ i c)) by done. cbn [obind].
  rewrite (proj2 (Z.leb_le 0 s)), (proj2 (Z.ltb_lt s _)) by lia. cbn [andb obind].
  unfold cell_only. destruct (decide (s ∈ c.(c_seq))) as [Hin|Hin].
  - rewrite bool_decide_eq_true_2 by done. rewrite bool_decide_eq_false_2 by tauto. eexists. split; [done|].
    assert (Hp : c.(c_pos) ≠ -1).
    { intros E. rewrite (P2 E) in Hin. by apply elem_of_empty in Hin. }
    unfold put_seq_pos, put_cell. cbn. split; try done.
    + apply (cells_ok_update cs i c); try done.
      * split; cbn; [done|done|]. intros t ->%elem_of_singleton. done.
      * intros j. by apply (kept_used cs i j c).
      * intros t p. cbn. rewrite elem_of_singleton. destruct (decide (s = t)) as [<-|Hne].
        -- rewrite fn_lookup_insert, elem_of_union, elem_of_singleton, elem_of_seq_pos_rm. tauto.
        -- rewrite fn_lookup_insert_ne, elem_of_seq_pos_rm by done. split; [by right|]. by intros [[-> _]|].
    + apply (unique_update cs (Z.to_nat i) c); [done|done|]. right. split; [|done].
      intros t Ht. cbn in Ht. apply elem_of_singleton in Ht as ->. done.
  - rewrite bool_decide_eq_false_2 by done. destruct (decide (c.(c_seq) = ∅)) as [He|He].
    + rewrite bool_decide_eq_false_2 by tauto. rewrite (Hor He). cbn.
      exists cs. split; [rewrite bool_decide_eq_false_2; [done|by intros [_ ?]]|]. apply cell_put_same; [done|done|]. by rewrite <- (Hor He).
    + rewrite (bool_decide_eq_true_2 (c_seq c ≠ ∅)) by done. rewrite bool_decide_eq_true_2.
      2: { split; [done|]. intros ->. by apply He. }
      eexists. split; [done|]. unfold put_used, put_seq_pos, put_cell. cbn. split; try done.
      * apply (cells_ok_update cs i c); [done|done|done|done|exact empty_cell_ok| |].
        -- intros j. by apply (emptied_used cs i j c).
        -- intros t p. rewrite elem_of_seq_pos_rm. cbn. split; [by right|]. by intros [[?%elem_of_empty _]|].
      * apply (unique_update cs (Z.to_nat i) c); [done|done|by left].
Qed.

(** ** A loop over all cells

    Round [i] replaces cell [i] by [g] of it and tells whether it freed the cell;
    the first one freed is remembered. *)
Section cells_loop.
Context (g : kv_cell → kv_cell) (freed : kv_cell → bool).
Context (step : Z → llama_kv_cells_unified * Z → outcome (llama_kv_cells_unified * Z)) (size : Z).
Context (cs0 : llama_kv_cells_unified).
Hypothesis Hstep : ∀ i cs nh c, cells_ok cs → positions_unique cs → 0 <= i →
  cs.(cell_list) !! Z.to_nat i = Some c → cs0.(cell_list) !! Z.to_nat i = Some c → cells_size cs = size →
  ∃ cs', step i (cs, nh) = Ok (cs', if freed c && (nh =? size) then i else nh) ∧ cell_put i (g c) cs cs'.
Hypothesis Hfreed : ∀ c, freed c = true → g c = empty_cell.

(** The cells before [i] have been treated, the others not. *)
Definition swept (i : Z) (st : llama_kv_cells_unified * Z) : Prop :=
  cells_ok st.1 ∧ positions_unique st.1 ∧ st.1.(has_shift) = cs0.(has_shift) ∧
  st.1.(cell_list) = (g <$> take (Z.to_nat i) cs0.(cell_list)) ++ drop (Z.to_nat i) cs0.(cell_list) ∧
  (st.2 = size ∨ 0 <= st.2 < i ∧ st.1.(cell_list) !! Z.to_nat st.2 = Some empty_cell).

Lemma cells_loop : cells_ok cs0 → positions_unique cs0 → cells_size cs0 = size →
  ∃ cs nh, ofold step (seqZ 0 size) (cs0, size) = Ok (cs, nh) ∧ cells_ok cs ∧ positions_unique cs ∧
    cs.(has_shift) = cs0.(has_shift) ∧ cs.(cell_list) = g <$> cs0.(cell_list) ∧
    (nh = size ∨ 0 <= nh < size ∧ cs.(cell_list) !! Z.to_nat nh = Some empty_cell).
Proof using Hstep Hfreed.
  intros Hok Hun Hsize. destruct (ofold_seqZ swept step 0 size (cs0, size)) as ([cs nh] & Hrun & H1 & H2 & H3 & H4 & H5).
  - unfold cells_size in Hsize. lia.
  - split; [done|]. split; [done|]. split; [done|]. split; [done|by left].
  - intros i [cs nh] Hi (H1 & H2 & H3 & H4 & H5). cbn [fst snd] in *.
    destruct (lookup_lt_is_Some_2 cs0.(cell_list) (Z.to_nat i)) as [c Hc]; [unfold cells_size in Hsize; lia|].
    assert (Hlen : length (g <$> take (Z.to_nat i) (cell_list cs0)) = Z.to_nat i).
    { rewrite length_fmap, length_take. apply lookup_lt_Some in Hc. lia. }
    assert (Hc' : cs.(cell_list) !! Z.to_nat i = Some c).
    { rewrite H4, lookup_app_r by lia. by rewrite Hlen, Nat.sub_diag, lookup_drop, Nat.add_0_r. }
    destruct (Hstep i cs nh c H1 H2 ltac:(lia) Hc' Hc) as (cs' & Hrun & [Q1 Q2 Q3 Q4]).
    { rewrite <- Hsize. unfold cells_size. rewrite H4, length_app, length_fmap, length_take, length_drop. lia. }
    exists (cs', if freed c && (nh =? size) then i else nh). split; [done|].
    assert (Hl : cs'.(cell_list) = (g <$> take (Z.to_nat (i + 1)) cs0.(cell_list)) ++ drop (Z.to_nat (i + 1)) cs0.(cell_list)).
    { rewrite Q3, H4, (drop_S _ _ _ Hc). replace (Z.to_nat (i + 1)) with (S (Z.to_nat i)) by lia.
      rewrite (take_S_r _ _ _ Hc), fmap_app, insert_app_r_alt by lia. rewrite Hlen, Nat.sub_diag. cbn.
      by rewrite <- app_assoc. }
    pose proof (lookup_lt_Some _ _ _ Hc') as Hlt.
    split; [done|]. split; [done|]. cbn [fst snd]. split; [by rewrite Q4|]. split; [done|].
    destruct (freed c) eqn:Ef; cbn [andb].
    + destruct (Z.eqb_spec nh size) as [->|Hne].
      * right. split; [lia|]. by rewrite Q3, list_lookup_insert_eq, (Hfreed c Ef).
      * destruct H5 as [?|[? ?]]; [done|]. right. split; [lia|]. rewrite Q3, list_lookup_insert_ne by lia. done.
    + destruct H5 as [?|[? ?]]; [by left|]. right. split; [lia|]. rewrite Q3, list_lookup_insert_ne by lia. done.
  - cbn [fst snd] in *. exists cs, nh. split; [done|]. split; [done|]. split; [done|]. split; [done|].
    rewrite Z.add_0_l in *. unfold cells_size in Hsize. rewrite take_ge, drop_ge, app_nil_r in H4 by lia. by split.
Qed.
End cells_loop.

(** ** Whole sequence operations

    [seq_rm], [seq_keep] and [seq_cp]: what they do to every cell. *)
Section sequences.
Context `{Cd : Codec} `{Ev : Env}.

(** A position in the range of an operation. *)
Definition in_positions (p0 p1 : Z) (c : kv_cell) : bool := (pos_begin p0 <=? c.(c_pos)) && (c.(c_pos) <? pos_end p1).

(** What [seq_rm] makes of a cell; a negative sequence matches all. *)
Definition rm_cell (s p0 p1 : Z) (c : kv_cell) : kv_cell :=
  if in_positions p0 p1 c then
    if 0 <=? s then if decide (s ∈ c.(c_seq)) then cell_without s c else c else empty_cell
  else c.
Definition rm_frees (s p0 p1 : Z) (c : kv_cell) : bool :=
  in_positions p0 p1 c && (if 0 <=? s then bool_decide (s ∈ c.(c_seq)) && bool_decide (cell_without s c = empty_cell) else true).

Lemma pos_in_run cs i c p0 p1 : 0 <= i → cs.(cell_list) !! Z.to_nat i = Some c →
  cells_pos_in cs i (pos_begin p0) (pos_end p1) = Ok (in_positions p0 p1 c).
Proof. intros Hi Hc. unfold cells_pos_in. by rewrite (proj2 (cell_at_ok _ i c)). Qed.

Lemma seq_has_run cs i c s : 0 <= i → cs.(cell_list) !! Z.to_nat i = Some c → 0 <= s < LLAMA_MAX_SEQ →
  cells_seq_has cs i s = Ok (bool_decide (s ∈ c.(c_seq))).
Proof.
  intros Hi Hc Hs. unfold cells_seq_has, check_bit. rewrite (proj2 (cell_at_ok _ i c)) by done. cbn [obind].
  by rewrite (proj2 (Z.leb_le 0 s)), (proj2 (Z.ltb_lt s _)) by lia.
Qed.

Lemma in_positions_used p0 p1 c : in_positions p0 p1 c = true → c.(c_pos) ≠ -1.
Proof.
  unfold in_positions, pos_begin. rewrite andb_true_iff, Z.leb_le. intros [H _]. destruct (Z.ltb_spec p0 0); lia.
Qed.

(** One round. *)
Lemma seq_rm_at_run s p0 p1 i cs nh c size : s < LLAMA_MAX_SEQ → cells_ok cs → positions_unique cs → 0 <= i →
  cs.(cell_list) !! Z.to_nat i = Some c → cells_size cs = size →
  ∃ cs', seq_rm_at s (pos_begin p0) (pos_end p1) i (cs, nh)
           = Ok (cs', if rm_frees s p0 p1 c && (nh =? size) then i else nh) ∧
         cell_put i (rm_cell s p0 p1 c) cs cs'.
Proof.
  intros Hs Hok Hun Hi Hc <-. unfold seq_rm_at, rm_cell, rm_frees. rewrite (pos_in_run cs i c) by done. cbn [obind].
  destruct (in_positions p0 p1 c) eqn:Hin; cbn [negb andb].
  2: { exists cs. split; [done|by apply cell_put_same]. }
  destruct (Z.leb_spec 0 s) as [H0|H0].
  - rewrite (seq_has_run cs i c) by (done || lia). cbn [obind]. destruct (decide (s ∈ c.(c_seq))) as [Hin'|Hin'].
    + rewrite bool_decide_eq_true_2 by done. destruct (cells_seq_rm_spec cs i s c Hok Hun Hi Hc Hin') as (cs' & -> & Hp).
      cbn [obind andb]. exists cs'. split; [done|exact Hp].
    + rewrite bool_decide_eq_false_2 by done. cbn [andb]. exists cs. split; [done|by apply cell_put_same].
  - destruct (cells_rm_spec cs i c Hok Hun Hi Hc (in_positions_used _ _ _ Hin)) as (cs' & -> & Hp).
    cbn [obind]. exists cs'. split; [done|exact Hp].
Qed.

Lemma rm_frees_empty s p0 p1 c : rm_frees s p0 p1 c = true → rm_cell s p0 p1 c = empty_cell.
Proof.
  unfold rm_frees, rm_cell. intros [-> H]%andb_prop. destruct (0 <=? s); [|done].
  apply andb_prop in H as [H1%bool_decide_eq_true H2%bool_decide_eq_true]. by rewrite decide_True.
Qed.

(** The new head is the old one or the first cell freed. *)
Lemma freed_head_spec cs size nh hd :
  (nh = size ∨ 0 <= nh < size ∧ cs.(cell_list) !! Z.to_nat nh = Some empty_cell) → 0 <= hd <= size →
  let hd' := freed_head size nh hd in
  0 <= hd' <= hd ∧ (hd' = hd ∨ cs.(cell_list) !! Z.to_nat hd' = Some empty_cell).
Proof.
  intros Hnh Hhd. unfold freed_head. destruct Hnh as [->|[Hnh He]].
  - rewrite Z.eqb_refl. cbn. split; [lia|by left].
  - rewrite (proj2 (Z.eqb_neq nh size)) by lia. cbn [negb andb]. destruct (Z.ltb_spec nh hd); split; (lia || tauto).
Qed.

(** [seq_rm] on any range of positions: the sequence leaves exactly the
    cells in the range that hold it (all sequences leave when the argument is
    negative), cells left without a sequence become empty, no other cell changes,
    the sets of used cells and of positions follow, and the head moves only back,
    to a free cell. *)
Lemma kv_seq_rm_run s p0 p1 (u : llama_kv_cache_unified) : s < LLAMA_MAX_SEQ → cells_ok u.(cells) →
  positions_unique u.(cells) → 0 <= u.(head) <= cells_size u.(cells) →
  ∃ hd cs, kv_seq_rm s p0 p1 u = Ok (with_cells u hd cs) ∧ cells_ok cs ∧ positions_unique cs ∧
    cs.(cell_list) = rm_cell s p0 p1 <$> u.(cells).(cell_list) ∧ cs.(has_shift) = u.(cells).(has_shift) ∧
    0 <= hd <= u.(head) ∧ (hd = u.(head) ∨ cs.(cell_list) !! Z.to_nat hd = Some empty_cell).
Proof.
  intros Hs Hok Hun Hhd. unfold kv_seq_rm.
  destruct (cells_loop (rm_cell s p0 p1) (rm_frees s p0 p1) (seq_rm_at s (pos_begin p0) (pos_end p1)) (cells_size u.(cells)) u.(cells))
    as (cs & nh & -> & H1 & H2 & H3' & H3 & H4); [|apply rm_frees_empty|done|done|done|].
  - intros i cs nh c Hc1 Hc2 Hi Hc _ Hsz. by apply seq_rm_at_run.
  - cbn [obind]. destruct (freed_head_spec cs (cells_size u.(cells)) nh u.(head) H4 Hhd) as [H5 H6].
    exists (freed_head (cells_size u.(cells)) nh u.(head)), cs. done.
Qed.

(** [seq_keep]: every other sequence leaves. *)
Theorem kv_seq_keep_spec s (u : llama_kv_cache_unified) : 0 <= s < LLAMA_MAX_SEQ → cells_ok u.(cells) →
  positions_unique u.(cells) → no_orphans u.(cells) → 0 <= u.(head) <= cells_size u.(cells) →
  ∃ hd cs, kv_seq_keep s u = Ok (with_cells u hd cs) ∧ cells_ok cs ∧ positions_unique cs ∧
    cs.(cell_list) = cell_only s <$> u.(cells).(cell_list) ∧
    0 <= hd <= u.(head) ∧ (hd = u.(head) ∨ cs.(cell_list) !! Z.to_nat hd = Some empty_cell).
Proof.
  intros Hs Hok Hun Hor Hhd. unfold kv_seq_keep.
  destruct (cells_loop (cell_only s) (λ c, bool_decide ((s ∉ c.(c_seq)) ∧ c ≠ empty_cell))
    (λ i '(cs, nh), '(e, cs') <~ cells_seq_keep i s cs ;; Ok (cs', note_head (cells_size u.(cells)) i e nh))
    (cells_size u.(cells)) u.(cells)) as (cs & nh & -> & H1 & H2 & _ & H3 & H4); [| |done|done|done|].
  - intros i cs nh c Hc1 Hc2 Hi Hc Hc0 Hsz.
    assert (Horc : c.(c_seq) = ∅ → c = empty_cell) by by apply (Hor (Z.to_nat i)).
    destruct (cells_seq_keep_spec cs i s c Hc1 Hc2 Horc Hi Hc Hs) as (cs' & -> & Hp). cbn [obind].
    exists cs'. split; [done|exact Hp].
  - intros c [Hn _]%bool_decide_eq_true. unfold cell_only. by rewrite decide_False.
  - cbn [obind]. destruct (freed_head_spec cs (cells_size u.(cells)) nh u.(head) H4 Hhd) as [H5 H6].
    exists (freed_head (cells_size u.(cells)) nh u.(head)), cs. done.
Qed.
End sequences.
