(* ===== verification/KvBatch.v ===== *)
(** Batches through the unified KV cache: splitting a batch
    ([llama_batch_allocr::split_simple] of [src/llama-batch.cpp]), finding places
    for all its pieces ([prepare], [init_batch]), the memory context that applies
    them one by one ([llama_kv_cache_unified_context]), and the inputs the
    attention graph reads ([get_n_kv], [set_input_kq_mask], [set_input_k_shift]),
    of [src/llama-kv-cache-unified.cpp]. *)
From S2P Require Import Prelude Floats KvTypes KvLadder KvGrow KvOffload KvSwapIn Weight Swapout.
From S2P Require Import KvOps KvCells KvUnified.

(** ** Splitting *)

(** The members of [llama_batch] the cache needs: a position and the sequences of
    each token. *)
Abbreviation llama_batch := (list (Z * list Z)).

Definition first_unused (used : list bool) : Z :=
  match list_find (λ b, b = false) used with Some (i, _) => Z.of_nat i | None => Z.of_nat (length used) end.

(** [while (true)] of [split_simple]. *)
Fixpoint split_loop (fuel : nat) (n_ubatch cur_idx : Z) (idxs : list Z) (used : list bool) : list Z * list bool :=
  match fuel with
  | O => (idxs, used)
  | S fuel =>
      let idxs := idxs ++ [cur_idx] in
      let used := <[Z.to_nat cur_idx := true]> used in
      let cur_idx := cur_idx + 1 in
      if Z.of_nat (length used) <=? cur_idx then (idxs, used)
      else if n_ubatch <=? Z.of_nat (length idxs) then (idxs, used)
      else split_loop fuel n_ubatch cur_idx idxs used
  end.

Definition ubatch_add (batch : llama_batch) (idxs : list Z) : outcome llama_ubatch :=
  toks <~ otraverse (λ i, match batch !! Z.to_nat i with Some t => Ok t | None => Ub end) idxs ;;
  Ok (Ubatch (Z.of_nat (length idxs)) (fst <$> toks) (snd <$> toks)).

Definition split_simple (n_ubatch : Z) (batch : llama_batch) (used : list bool) : outcome (llama_ubatch * list bool) :=
  let cur_idx := first_unused used in
  if Z.of_nat (length used) <=? cur_idx then Ok (Ubatch 0 [] [], used)
  else
    let '(idxs, used') := split_loop (length used) n_ubatch cur_idx [] used in
    ub <~ ubatch_add batch idxs ;; Ok (ub, used').

(** The loop of [init_batch] that splits the whole batch. *)
Fixpoint split_all (fuel : nat) (n_ubatch : Z) (batch : llama_batch) (used : list bool) (ubs : list llama_ubatch)
    : outcome (list llama_ubatch) :=
  match fuel with
  | O => Ub
  | S fuel =>
      '(ub, used') <~ split_simple n_ubatch batch used ;;
      if ub.(ub_tokens) =? 0 then Ok ubs else split_all fuel n_ubatch batch used' (ubs ++ [ub])
  end.

Section batch.
Context `{Cd : Codec} `{Ev : Env}.

(** ** Preparing *)

(** How [prepare] ends: with the heads (none on failure), or by the exception of
    a growth that the driver refused; always with the cache it leaves. *)
Inductive prepared :=
| Heads (heads : list Z) (u : llama_kv_cache_unified)
| Thrown (u : llama_kv_cache_unified).

(** An entry of the recovery stack. *)
Record saved_state := Saved { head_old : Z; head_new : Z; saved_cells : llama_kv_cells_unified }.

(** The first loop: [None] when an exception leaves it; the flag is [success]. *)
Fixpoint prepare_loop (ubs : list llama_ubatch) (res : list Z) (states : list saved_state)
    (u : llama_kv_cache_unified)
    : outcome (option (bool * list Z * list saved_state) * llama_kv_cache_unified) :=
  match ubs with
  | [] => Ok (Some (true, res, states), u)
  | ub :: ubs =>
      head_new <~ find_slot ub.(ub_tokens) u ;;
      if head_new <? 0 then Ok (Some (false, res, states), u)
      else
        saved <~ cells_cp head_new ub.(ub_tokens) u.(cells) ;;
        '(ok, u') <~ try_apply_ubatch head_new ub u ;;
        if negb ok then Ok (None, u')
        else prepare_loop ubs (res ++ [head_new]) (states ++ [Saved u.(head) head_new saved]) u'
  end.

(** The second loop, backwards. *)
Definition restore_state (st : saved_state) (u : llama_kv_cache_unified) : outcome llama_kv_cache_unified :=
  cs <~ cells_set st.(head_new) st.(saved_cells) u.(cells) ;; Ok (with_cells u st.(head_old) cs).

Definition prepare (ubs : list llama_ubatch) (u : llama_kv_cache_unified) : outcome prepared :=
  '(r, u1) <~ prepare_loop ubs [] [] u ;;
  match r with
  | None => Ok (Thrown u1)
  | Some (success, res, states) =>
      u2 <~ ofold restore_state (rev states) u1 ;;
      Ok (Heads (if success : bool then res else []) u2)
  end.

(** ** The memory context *)

Inductive llama_memory_status :=
| LLAMA_MEMORY_STATUS_SUCCESS | LLAMA_MEMORY_STATUS_NO_UPDATE
| LLAMA_MEMORY_STATUS_FAILED_PREPARE | LLAMA_MEMORY_STATUS_FAILED_COMPUTE.

(** The context of a batch; the cache it points to goes beside it. *)
Record llama_kv_cache_unified_context := Ctx {
  status : llama_memory_status;
  i_next : Z;
  heads : list Z;
  ubatches : list llama_ubatch;
  ctx_n_kv : Z;
  ctx_head : Z }.

Definition init_batch (n_ubatch : Z) (batch : llama_batch) (u : llama_kv_cache_unified)
    : outcome (option llama_kv_cache_unified_context * llama_kv_cache_unified) :=
  ubs <~ split_all (S (length batch)) n_ubatch batch (replicate (length batch) false) [] ;;
  r <~ prepare ubs u ;;
  Ok match r with
     | Thrown u' => (None, u')
     | Heads [] u' => (Some (Ctx LLAMA_MEMORY_STATUS_FAILED_PREPARE 0 [] [] 0 0), u')
     | Heads hs u' => (Some (Ctx LLAMA_MEMORY_STATUS_SUCCESS 0 hs ubs 0 0), u')
     end.

(** [GGML_PAD] on [uint32_t]. *)
Definition GGML_PAD (x n : Z) : Z := Z.land (u32 (x + n - 1)) (Z.lnot (n - 1)).

Definition get_n_kv (u : llama_kv_cache_unified) : Z :=
  Z.min (cells_size u.(cells)) (Z.max u.(n_pad) (GGML_PAD (cells_used_max_p1 u.(cells)) u.(n_pad))).

Definition succeeded (s : llama_memory_status) : bool :=
  match s with LLAMA_MEMORY_STATUS_SUCCESS => true | _ => false end.

Definition ctx_next (x : llama_kv_cache_unified_context) : outcome (bool * llama_kv_cache_unified_context) :=
  _ <~ assert_that (succeeded x.(status)) ;;
  let i := x.(i_next) + 1 in
  Ok (i <? Z.of_nat (length x.(ubatches)), Ctx x.(status) i x.(heads) x.(ubatches) x.(ctx_n_kv) x.(ctx_head)).

(** [apply] of a context with ubatches. *)
Definition ctx_apply (x : llama_kv_cache_unified_context) (u : llama_kv_cache_unified)
    : outcome (llama_kv_cache_unified_context * llama_kv_cache_unified) :=
  _ <~ assert_that (succeeded x.(status)) ;;
  match x.(heads) !! Z.to_nat x.(i_next), x.(ubatches) !! Z.to_nat x.(i_next) with
  | Some hd, Some ub =>
      u' <~ apply_ubatch hd ub u ;;
      Ok (Ctx x.(status) x.(i_next) x.(heads) x.(ubatches) (get_n_kv u') hd, u')
  | _, _ => Ub
  end.

(** ** The decoding loop *)

(** A piece that could not be computed is taken out of the cache: for each
    sequence that is the first of a token, everything from the lowest position
    of these tokens on. *)
Definition lowest_positions (ub : llama_ubatch) : outcome (Z → Z) :=
  ofold (λ i pos_min,
      match ub.(ub_seq_id) !! Z.to_nat i, ub.(ub_pos) !! Z.to_nat i with
      | Some (seq_id :: _), Some p => Ok (<[seq_id := Z.min (pos_min seq_id) p]> pos_min)
      | _, _ => Ub
      end) (seqZ 0 ub.(ub_tokens)) (λ _, 2 ^ 31 - 1).

Definition remove_ubatch (ub : llama_ubatch) (u : llama_kv_cache_unified) : outcome llama_kv_cache_unified :=
  pos_min <~ lowest_positions ub ;;
  ofold (λ s u, if pos_min s =? 2 ^ 31 - 1 then Ok u else kv_seq_rm s (pos_min s) (-1) u) (seqZ 0 LLAMA_MAX_SEQ) u.

(** [do ... while (mctx->next())] of [llama_context::decode]; [computed i] tells
    whether the graph of piece [i] is computed.  The flag is [false] when the
    loop is left because it was not. *)
Fixpoint decode_loop (fuel : nat) (computed : Z → bool) (x : llama_kv_cache_unified_context)
    (u : llama_kv_cache_unified) : outcome (bool * llama_kv_cache_unified_context * llama_kv_cache_unified) :=
  match fuel with
  | O => Ub
  | S fuel =>
      '(x1, u1) <~ ctx_apply x u ;;
      if negb (computed x.(i_next)) then
        match x.(ubatches) !! Z.to_nat x.(i_next) with
        | Some ub => u2 <~ remove_ubatch ub u1 ;; Ok (false, x1, u2)
        | None => Ub
        end
      else
        '(more, x2) <~ ctx_next x1 ;;
        if more : bool then decode_loop fuel computed x2 u1 else Ok (true, x2, u1)
  end.

(** ** Inputs of the graph *)

(** One entry of the mask: a token of sequence [seq_id] at [p1] and cell [j]. *)
Definition kq_mask_at (u : llama_kv_cache_unified) (causal_attn use_alibi : bool) (seq_id p1 j : Z) : outcome float :=
  e <~ cells_is_empty u.(cells) j ;;
  if e : bool then Ok (S754_infinity true)
  else
    p0 <~ cells_pos_get u.(cells) j ;;
    h <~ cells_seq_has u.(cells) j seq_id ;;
    masked <~ (if negb h then Ok true
               else if causal_attn && (p1 <? p0) then Ok true
               else is_masked_swa u p0 p1) ;;
    Ok (if masked : bool then S754_infinity true
        else if use_alibi then f32_of_Z (- Z.abs (p0 - p1)) else f32_of_Z 0).

Definition GGML_KQ_MASK_PAD : Z := 64.

(** The rows of the mask: one per token, then padding. *)
Definition set_input_kq_mask (n_kv : Z) (ub : llama_ubatch) (causal_attn use_alibi : bool) (u : llama_kv_cache_unified)
    : outcome (list (list float)) :=
  rows <~ otraverse (λ i,
      match ub.(ub_seq_id) !! Z.to_nat i, ub.(ub_pos) !! Z.to_nat i with
      | Some (seq_id :: _), Some p1 => otraverse (kq_mask_at u causal_attn use_alibi seq_id p1) (seqZ 0 n_kv)
      | _, _ => Ub
      end) (seqZ 0 ub.(ub_tokens)) ;;
  let n_pad_rows := GGML_PAD ub.(ub_tokens) GGML_KQ_MASK_PAD - ub.(ub_tokens) in
  Ok (rows ++ replicate (Z.to_nat n_pad_rows) (replicate (Z.to_nat n_kv) (S754_infinity true))).

Definition set_input_k_shift (u : llama_kv_cache_unified) : outcome (list Z) :=
  otraverse (λ i, e <~ cells_is_empty u.(cells) i ;;
                  if e : bool then Ok 0 else c <~ cell_at u.(cells) i ;; Ok c.(c_shift))
    (seqZ 0 (cells_size u.(cells))).
End batch.

(** ** Splitting: the pieces are the batch in order, each with at most [n_ubatch]
    tokens *)
(** The tokens of a piece. *)
Definition tokens (ub : llama_ubatch) : llama_batch := zip ub.(ub_pos) ub.(ub_seq_id).

(** A piece of a batch as [ubatch_add] makes it. *)
Record piece_ok (n_ubatch : Z) (ub : llama_ubatch) : Prop := PieceOk {
  pc_n : 0 < ub.(ub_tokens) <= n_ubatch;
  pc_pos : Z.of_nat (length ub.(ub_pos)) = ub.(ub_tokens);
  pc_seq : Z.of_nat (length ub.(ub_seq_id)) = ub.(ub_tokens) }.

Lemma length_tokens n ub : piece_ok n ub → Z.of_nat (length (tokens ub)) = ub.(ub_tokens).
Proof. intros [Hn Hp Hs]. unfold tokens. rewrite length_zip_with. lia. Qed.

(** The used flags when the first [k] of [n] tokens are taken. *)
Definition taken (k n : nat) : list bool := replicate k true ++ replicate (n - k) false.

Lemma length_taken k n : (k <= n)%nat → length (taken k n) = n.
Proof. intros. unfold taken. rewrite length_app, !length_replicate. lia. Qed.

Lemma first_unused_taken k n : (k <= n)%nat → first_unused (taken k n) = Z.of_nat k.
Proof.
  intros Hk. unfold first_unused. destruct (list_find (λ b, b = false) (taken k n)) as [[i b]|] eqn:E.
  - apply list_find_Some in E as (Hi & -> & Hmin). unfold taken in *. f_equal.
    destruct (Nat.lt_trichotomy i k) as [Hlt|[->|Hgt]]; [|done|].
    + rewrite lookup_app_l, lookup_replicate_2 in Hi by (rewrite ?length_replicate; lia). done.
    + exfalso. apply (Hmin k false); [|done|done].
      rewrite lookup_app_r, length_replicate, Nat.sub_diag by (rewrite length_replicate; lia).
      apply lookup_replicate_2. apply lookup_lt_Some in Hi. rewrite length_app, !length_replicate in Hi. lia.
  - apply list_find_None in E. rewrite length_taken by done. unfold taken in E. apply Forall_app in E as [_ E].
    destruct (n - k)%nat as [|m] eqn:Hm; [|cbn in E; apply Forall_cons in E as [? _]; done]. f_equal. lia.
Qed.

Lemma taken_step k n : (k < n)%nat → <[k := true]> (taken k n) = taken (S k) n.
Proof.
  intros Hk. unfold taken. rewrite insert_app_r_alt by (rewrite length_replicate; lia).
  rewrite length_replicate, Nat.sub_diag. replace (n - k)%nat with (S (n - S k)) by lia.
  rewrite (replicate_S_end k), <- app_assoc. done.
Qed.

(** Tokens [k .. k + m) are taken one by one. *)
Lemma split_loop_spec n_ubatch n : ∀ fuel k idxs, 0 < n_ubatch → (k < n)%nat → (n - k <= fuel)%nat →
  Z.of_nat (length idxs) < n_ubatch →
  ∃ m, (0 < m)%nat ∧ (k + m <= n)%nat ∧ Z.of_nat (length idxs + m) <= n_ubatch ∧
    split_loop fuel n_ubatch (Z.of_nat k) idxs (taken k n) = (idxs ++ seqZ (Z.of_nat k) (Z.of_nat m), taken (k + m) n).
Proof.
  induction fuel as [|fuel IH]; intros k idxs Hn Hk Hf Hlen; [lia|].
  cbn [split_loop]. rewrite Nat2Z.id, taken_step, length_taken by lia.
  replace (Z.of_nat k + 1) with (Z.of_nat (S k)) by lia. rewrite length_app. cbn [length].
  assert (Hone : idxs ++ [Z.of_nat k] = idxs ++ seqZ (Z.of_nat k) (Z.of_nat 1)) by done.
  destruct (Z.leb_spec (Z.of_nat n) (Z.of_nat (S k))) as [H1|H1].
  { exists 1%nat. rewrite Hone, Nat.add_1_r. split; [lia|]. split; [lia|]. split; [lia|done]. }
  destruct (Z.leb_spec n_ubatch (Z.of_nat (length idxs + 1))) as [H2|H2].
  { exists 1%nat. rewrite Hone, Nat.add_1_r. split; [lia|]. split; [lia|]. split; [lia|done]. }
  destruct (IH (S k) (idxs ++ [Z.of_nat k]) Hn ltac:(lia) ltac:(lia)) as (m & Hm & Hkm & Hl & ->).
  { rewrite length_app. cbn. lia. }
  rewrite length_app in Hl. cbn in Hl. exists (S m). split; [lia|]. split; [lia|]. split; [lia|].
  rewrite <- app_assoc. f_equal; [|by rewrite Nat.add_succ_r].
  f_equal. rewrite (seqZ_cons _ (Z.of_nat (S m))) by lia. cbn [app]. do 2 f_equal; lia.
Qed.

Lemma ubatch_add_spec batch k m : (k + m <= length batch)%nat →
  ubatch_add batch (seqZ (Z.of_nat k) (Z.of_nat m)) =
    Ok (Ubatch (Z.of_nat m) (fst <$> take m (drop k batch)) (snd <$> take m (drop k batch))).
Proof.
  intros Hkm. unfold ubatch_add.
  rewrite (otraverse_ok _ (λ i, default (0, []) (batch !! Z.to_nat i))).
  - cbn [obind]. replace ((λ i, default (0, []) (batch !! Z.to_nat i)) <$> seqZ _ _) with (take m (drop k batch)).
    + rewrite length_seqZ. do 2 f_equal. lia.
    + apply list_eq. intros i. rewrite list_lookup_fmap. destruct (decide (i < m)%nat) as [Hi|Hi].
      * rewrite lookup_take_lt, lookup_drop, lookup_seqZ_lt by lia. cbn [fmap option_fmap option_map].
        replace (Z.to_nat (Z.of_nat k + Z.of_nat i)) with (k + i)%nat by lia.
        destruct (lookup_lt_is_Some_2 batch (k + i)) as [t Ht]; [lia|]. by rewrite Ht.
      * rewrite lookup_take_ge, lookup_seqZ_ge by lia. done.
  - intros i [H1 H2]%elem_of_seqZ. destruct (lookup_lt_is_Some_2 batch (Z.to_nat i)) as [t Ht]; [lia|]. by rewrite Ht.
Qed.

Lemma zip_fst_snd (l : llama_batch) : zip (fst <$> l) (snd <$> l) = l.
Proof. induction l as [|[a b] l IH]; [done|]. cbn. by f_equal. Qed.

Lemma split_simple_spec n_ubatch batch k : 0 < n_ubatch → (k <= length batch)%nat →
  ∃ ub m, split_simple n_ubatch batch (taken k (length batch)) = Ok (ub, taken (k + m) (length batch)) ∧
    ub.(ub_tokens) = Z.of_nat m ∧ (k + m <= length batch)%nat ∧
    ((m = 0)%nat ∧ k = length batch ∨ piece_ok n_ubatch ub ∧ tokens ub = take m (drop k batch)).
Proof.
  intros Hn Hk. unfold split_simple. rewrite first_unused_taken, length_taken by done.
  destruct (Z.leb_spec (Z.of_nat (length batch)) (Z.of_nat k)) as [H|H].
  { exists (Ubatch 0 [] []), 0%nat. rewrite Nat.add_0_r. split; [done|]. split; [done|]. split; [done|].
    left. split; [done|lia]. }
  destruct (split_loop_spec n_ubatch (length batch) (length batch) k [] Hn ltac:(lia) ltac:(lia) ltac:(cbn; lia))
    as (m & Hm & Hkm & Hl & ->). cbn [app]. rewrite ubatch_add_spec by done. cbn [obind].
  eexists _, m. split; [done|]. split; [done|]. split; [done|]. right. unfold tokens. cbn [ub_pos ub_seq_id].
  rewrite zip_fst_snd. split; [|done]. cbn in Hl.
  assert (length (take m (drop k batch)) = m) by (rewrite length_take, length_drop; lia).
  split; cbn; rewrite ?length_fmap; lia.
Qed.

Lemma split_all_from n_ubatch batch : ∀ fuel k ubs, 0 < n_ubatch → (k <= length batch)%nat →
  (length batch - k < fuel)%nat →
  ∃ l, split_all fuel n_ubatch batch (taken k (length batch)) ubs = Ok (ubs ++ l) ∧
    Forall (piece_ok n_ubatch) l ∧ concat (tokens <$> l) = drop k batch.
Proof.
  induction fuel as [|fuel IH]; intros k ubs Hn Hk Hf; [lia|]. cbn [split_all].
  destruct (split_simple_spec n_ubatch batch k Hn Hk) as (ub & m & -> & Hub & Hkm & Hcase). cbn [obind].
  rewrite Hub. destruct (Z.eqb_spec (Z.of_nat m) 0) as [H0|H0].
  - exists []. rewrite app_nil_r. split; [done|]. split; [constructor|].
    destruct Hcase as [[_ ->]|[[] _]]; [by rewrite drop_ge|lia].
  - destruct Hcase as [[-> _]|[Hp Ht]]; [done|].
    destruct (IH (k + m)%nat (ubs ++ [ub]) Hn Hkm ltac:(lia)) as (l & -> & Hl & Hc).
    exists (ub :: l). rewrite <- app_assoc. split; [done|]. split; [by constructor|].
    cbn [fmap list_fmap concat]. rewrite Ht, Hc, <- drop_drop. apply take_drop.
Qed.

Lemma split_all_spec n_ubatch batch : 0 < n_ubatch →
  ∃ l, split_all (S (length batch)) n_ubatch batch (replicate (length batch) false) [] = Ok l ∧
    Forall (piece_ok n_ubatch) l ∧ concat (tokens <$> l) = batch.
Proof.
  intros Hn. pose proof (split_all_from n_ubatch batch (S (length batch)) 0 [] Hn ltac:(lia) ltac:(lia)) as H.
  unfold taken in H. cbn [replicate app] in H. by rewrite Nat.sub_0_r in H.
Qed.
