(* ===== verification/KvMask.v ===== *)
(** The attention mask of a piece: which cells its tokens see.  The mask ranges
    over the first [get_n_kv] cells; no occupied cell lies beyond them. *)
From S2P Require Import Prelude Floats KvTypes KvLadder KvGrow KvOffload KvSwapIn Weight Swapout.
From S2P Require Import KvOps KvCells KvCellsThms KvUnified KvUnifiedGrow KvSlots KvApply KvSeqOps KvBatch.

(** ** Padding to a power of two *)
Lemma GGML_PAD_div x k : 0 <= k → 0 <= x → x + 2 ^ k - 1 < 2 ^ 32 →
  GGML_PAD x (2 ^ k) = (x + 2 ^ k - 1) / 2 ^ k * 2 ^ k.
Proof.
  intros Hk Hx Hw. unfold GGML_PAD. rewrite u32_id by (pose proof (Z.pow_pos_nonneg 2 k); lia).
  replace (2 ^ k - 1) with (Z.ones k) by (rewrite Z.ones_equiv; lia).
  rewrite <- Z.ldiff_land, Z.ldiff_ones_r, Z.shiftr_div_pow2, Z.shiftl_mul_pow2 by done. done.
Qed.

Lemma GGML_PAD_bounds x k : 0 <= k → 0 <= x → x + 2 ^ k - 1 < 2 ^ 32 →
  x <= GGML_PAD x (2 ^ k) < x + 2 ^ k ∧ GGML_PAD x (2 ^ k) mod 2 ^ k = 0.
Proof.
  intros Hk Hx Hw. rewrite GGML_PAD_div by done. pose proof (Z.pow_pos_nonneg 2 k ltac:(lia) Hk).
  pose proof (Z.div_mod (x + 2 ^ k - 1) (2 ^ k) ltac:(lia)). pose proof (Z.mod_pos_bound (x + 2 ^ k - 1) (2 ^ k) ltac:(lia)).
  split; [lia|]. apply Z.mod_mul. lia.
Qed.

Lemma set_max_in_le X d x : x ∈ X → x <= set_max X d.
Proof.
  intros Hx. unfold set_max. apply elem_of_elements in Hx. destruct (elements X) as [|y l]; [by apply elem_of_nil in Hx|].
  apply elem_of_cons in Hx. revert Hx. induction l as [|z l IH]; cbn; intros [->|Hx]; [lia|by apply elem_of_nil in Hx| |].
  - specialize (IH (or_introl eq_refl)). lia.
  - apply elem_of_cons in Hx as [->|Hx]; [lia|]. specialize (IH (or_intror Hx)). lia.
Qed.

(** ** Visible cells *)

(** A token of sequence [s] at [p1] attends to the cell. *)
Definition visible (causal_attn : bool) (s p1 : Z) (c : kv_cell) : bool :=
  bool_decide (s ∈ c.(c_seq)) && (negb causal_attn || (c.(c_pos) <=? p1)).

Definition bias (use_alibi : bool) (p0 p1 : Z) : float := f32_of_Z (if use_alibi then - Z.abs (p0 - p1) else 0).

(** The entry of a cell for such a token. *)
Definition entry (causal_attn use_alibi : bool) (s p1 : Z) (c : kv_cell) : float :=
  if visible causal_attn s p1 c then bias use_alibi c.(c_pos) p1 else S754_infinity true.

Lemma kq_mask_at_run u causal alibi s p1 j c : cells_ok u.(cells) → u.(swa_type) = SWA_NONE → 0 <= s < LLAMA_MAX_SEQ → 0 <= p1 →
  0 <= j → u.(cells).(cell_list) !! Z.to_nat j = Some c → kq_mask_at u causal alibi s p1 j = Ok (entry causal alibi s p1 c).
Proof.
  intros Hok Hswa Hs Hp Hj Hc. unfold kq_mask_at. rewrite (cells_is_empty_ok _ j c) by done. cbn [obind].
  pose proof (ck_pos _ Hok _ _ Hc) as Hpos. unfold entry, visible. destruct (Z.eqb_spec c.(c_pos) (-1)) as [He|He].
  { pose proof (ck_empty _ Hok _ _ Hc He) as ->. rewrite bool_decide_eq_false_2; [done|]. apply not_elem_of_empty. }
  unfold cells_pos_get, cells_seq_has, check_bit. rewrite (proj2 (cell_at_ok _ j c)) by done. cbn [obind].
  rewrite (proj2 (Z.eqb_neq _ _) He), (proj2 (Z.leb_le 0 s)), (proj2 (Z.ltb_lt s _)) by lia. cbn [negb andb assert_that obind].
  destruct (bool_decide (s ∈ c.(c_seq))); cbn [negb andb obind]; [|done].
  assert (Hswa' : is_masked_swa u c.(c_pos) p1 = Ok false).
  { unfold is_masked_swa. by rewrite Hswa, !(proj2 (Z.leb_le 0 _)) by lia. }
  rewrite Hswa'. destruct causal; cbn [andb orb negb]; [|by destruct alibi].
  destruct (Z.ltb_spec p1 c.(c_pos)), (Z.leb_spec c.(c_pos) p1); cbn [obind]; (lia || by destruct alibi).
Qed.

(** ** How far the mask reaches *)
Lemma get_n_kv_covers u k : cells_ok u.(cells) → 0 <= k → u.(n_pad) = 2 ^ k → cells_size u.(cells) + 2 ^ k <= 2 ^ 32 →
  0 <= get_n_kv u <= cells_size u.(cells) ∧
  ∀ j c, 0 <= j → u.(cells).(cell_list) !! Z.to_nat j = Some c → c.(c_pos) ≠ -1 → j < get_n_kv u.
Proof.
  intros Hok Hk Hpad Hsz. unfold get_n_kv. rewrite Hpad. pose proof (Z.pow_pos_nonneg 2 k ltac:(lia) Hk).
  assert (Hsz0 : 0 <= cells_size u.(cells)) by (unfold cells_size; lia).
  assert (Hmax : 0 <= cells_used_max_p1 u.(cells) <= cells_size u.(cells)).
  { unfold cells_used_max_p1. split.
    - pose proof (set_max_lb u.(cells).(used) (-1) (-1)). enough (-1 <= set_max u.(cells).(used) (-1)) by lia.
      apply H0; [lia|]. intros x Hx. apply (ck_used _ Hok) in Hx. lia.
    - pose proof (set_max_ub u.(cells).(used) (-1) (cells_size u.(cells) - 1)). enough (set_max u.(cells).(used) (-1) <= cells_size u.(cells) - 1) by lia.
      apply H0; [lia|]. intros x (Hx & c & Hc & _)%(ck_used _ Hok). pose proof (cell_lt _ _ _ Hx Hc). lia. }
  destruct (GGML_PAD_bounds (cells_used_max_p1 u.(cells)) k) as [Hb _]; [done|lia|lia|].
  split; [lia|]. intros j c Hj Hc Hp. pose proof (cell_lt _ _ _ Hj Hc).
  assert (j ∈ u.(cells).(used)) as Hu by (apply (ck_used _ Hok); by eauto).
  pose proof (set_max_in_le _ (-1) _ Hu). unfold cells_used_max_p1 in *. lia.
Qed.

(** C14: the attention mask of a piece.  For a cache without a sliding window
    and a padding that is a power of two ([get_padding] answers 32 or 256), the
    mask has a row for every token, padded with masked rows to a multiple of 64;
    the row of a token has [get_n_kv] entries, each of them finite - 0, or the
    negated distance under ALiBi - exactly when the cell holds the token's
    sequence at a position that is not in its future; and no such cell of the
    whole cache lies beyond the row. *)
Theorem mask_shows_history (causal alibi : bool) (nb k : Z) (ub : llama_ubatch) (u : llama_kv_cache_unified) :
  cells_ok u.(cells) → u.(swa_type) = SWA_NONE → 0 <= k → u.(n_pad) = 2 ^ k → cells_size u.(cells) + 2 ^ k <= 2 ^ 32 →
  piece_ok nb ub → ub.(ub_tokens) < 2 ^ 31 →
  (∀ t, t ∈ tokens ub → 0 <= t.1 ∧ ∃ s ids, t.2 = s :: ids ∧ 0 <= s < LLAMA_MAX_SEQ) →
  ∃ rows, set_input_kq_mask (get_n_kv u) ub causal alibi u = Ok rows ∧
    Z.of_nat (length rows) = GGML_PAD ub.(ub_tokens) GGML_KQ_MASK_PAD ∧
    (∀ i row, (length (tokens ub) <= i)%nat → rows !! i = Some row → row = replicate (Z.to_nat (get_n_kv u)) (S754_infinity true)) ∧
    ∀ i p1 s ids, tokens ub !! i = Some (p1, s :: ids) → ∃ row, rows !! i = Some row ∧
      Z.of_nat (length row) = get_n_kv u ∧
      (∀ j c, 0 <= j < get_n_kv u → u.(cells).(cell_list) !! Z.to_nat j = Some c →
         row !! Z.to_nat j = Some (entry causal alibi s p1 c)) ∧
      ∀ j c, 0 <= j → u.(cells).(cell_list) !! Z.to_nat j = Some c → visible causal s p1 c = true → j < get_n_kv u.
Proof.
  intros Hok Hswa Hk Hpad Hsz Hp Hn Htok. destruct (get_n_kv_covers u k Hok Hk Hpad Hsz) as [Hkv Hcov].
  pose proof (length_tokens nb ub Hp) as Hlen. pose proof (pc_n _ _ Hp).
  set (cell j := default empty_cell (u.(cells).(cell_list) !! Z.to_nat j)).
  set (row_of (t : Z * list Z) := (λ j, entry causal alibi (default 0 (hd_error t.2)) t.1 (cell j)) <$> seqZ 0 (get_n_kv u)).
  set (row i := row_of (default (0, []) (tokens ub !! Z.to_nat i))).
  unfold set_input_kq_mask. rewrite (otraverse_ok _ row).
  2: { intros i Hi%elem_of_seqZ. destruct (lookup_lt_is_Some_2 (tokens ub) (Z.to_nat i)) as [t Ht]; [lia|].
       pose proof Ht as Ht'. apply lookup_zip_with_Some in Ht' as (p & ids & Et & -> & ->). subst t.
       destruct (Htok _ (list_elem_of_lookup_2 _ _ _ Ht)) as (Hp1 & s & ids' & Hids & Hs). cbn in Hp1, Hids. subst ids.
       unfold row, row_of. rewrite Ht. cbn. apply otraverse_ok. intros j Hj%elem_of_seqZ.
       destruct (lookup_lt_is_Some_2 u.(cells).(cell_list) (Z.to_nat j)) as [c Hc]; [unfold cells_size in *; lia|].
       unfold cell. rewrite Hc. apply kq_mask_at_run; (done || lia). }
  cbn [obind]. eexists. split; [done|].
  destruct (GGML_PAD_bounds ub.(ub_tokens) 6) as [Hb _]; [lia|lia|lia|]. change (2 ^ 6) with GGML_KQ_MASK_PAD in Hb.
  split; [rewrite length_app, length_fmap, length_seqZ, length_replicate; lia|]. split.
  - intros i r Hi Hr. rewrite lookup_app_r in Hr by (rewrite length_fmap, length_seqZ; lia).
    by apply lookup_replicate in Hr as [-> _].
  - intros i p1 s ids Ht. pose proof (lookup_lt_Some _ _ _ Ht). exists (row_of (p1, s :: ids)). split.
    { rewrite lookup_app_l by (rewrite length_fmap, length_seqZ; lia). rewrite list_lookup_fmap, lookup_seqZ_lt by lia.
      cbn. unfold row. by rewrite Z.add_0_l, Nat2Z.id, Ht. }
    split; [unfold row_of; rewrite length_fmap, length_seqZ; lia|]. split.
    + intros j c Hj Hc. unfold row_of. rewrite list_lookup_fmap, lookup_seqZ_lt by lia. cbn.
      unfold cell. by rewrite Z.add_0_l, Z2Nat.id, Hc by lia.
    + intros j c Hj Hc Hv. apply (Hcov j c Hj Hc). intros He. pose proof (ck_empty _ Hok _ _ Hc He) as ->.
      unfold visible in Hv. rewrite bool_decide_eq_false_2 in Hv; [done|]. apply not_elem_of_empty.
Qed.
