(* ===== verification/KvPrepare.v ===== *)
(** Preparing a batch: [prepare] finds a place for every piece and puts the
    cells back as they were. *)
From S2P Require Import Prelude Floats KvTypes KvPlan KvLadder KvInv KvFrame KvGrow KvOffload KvSwapIn.
From S2P Require Import Weight Swapout KvOps KvOpsThms KvCells KvCellsThms KvUnified KvUnifiedGrow KvSlots.
From S2P Require Import KvApply KvSeqOps KvBatch.

(** ** Equivalent cells

    The function of position sets is compared pointwise. *)
Record cells_equiv (cs cs' : llama_kv_cells_unified) : Prop := CellsEquiv {
  ce_list : cs.(cell_list) = cs'.(cell_list);
  ce_shift : cs.(has_shift) = cs'.(has_shift);
  ce_used : cs.(used) = cs'.(used);
  ce_seq_pos : ∀ s, cs.(seq_pos) s = cs'.(seq_pos) s }.
#[export] Instance cells_equiv_rel : Equiv llama_kv_cells_unified := cells_equiv.
#[export] Instance cells_equiv_equivalence : Equivalence (≡@{llama_kv_cells_unified}).
Proof.
  split.
  - by intros cs.
  - intros cs cs' []. by split.
  - intros c1 c2 c3 [] []. split; [congruence|congruence|congruence|]. intros s. etrans; eauto.
Qed.

(** The redundant members are determined by the cells. *)
Lemma cells_ok_equiv cs cs' : cells_ok cs → cells_ok cs' → cs.(cell_list) = cs'.(cell_list) →
  cs.(has_shift) = cs'.(has_shift) → cs ≡ cs'.
Proof.
  intros H1 H2 Hl Hs. split; [done|done| |].
  - apply set_eq. intros i. by rewrite (ck_used _ H1), (ck_used _ H2), Hl.
  - intros s. apply set_eq. intros p. by rewrite (ck_seq_pos _ H1), (ck_seq_pos _ H2), Hl.
Qed.

Lemma unique_list cs cs' : cs.(cell_list) = cs'.(cell_list) → positions_unique cs → positions_unique cs'.
Proof. intros Hl Hun i j c d s. rewrite <- Hl. apply Hun. Qed.

(** ** Fresh tokens *)

(** Which positions of which sequences tokens stand for. *)
Definition pairs (l : list (Z * list Z)) : list (Z * Z) := concat ((λ t : Z * list Z, (λ s, (s, t.1)) <$> t.2) <$> l).

Definition fresh_tokens (l : list (Z * list Z)) (cs : llama_kv_cells_unified) : Prop :=
  NoDup (pairs l) ∧ ∀ s p, (s, p) ∈ pairs l → p ∉ cs.(seq_pos) s.

(** Tokens as [llama_batch_allocr] lets them through. *)
Definition tokens_ok (l : list (Z * list Z)) : Prop :=
  Forall (λ t : Z * list Z, 0 <= t.1 < 2 ^ 31 - 1 ∧ NoDup t.2 ∧ Forall (λ s, 0 <= s < LLAMA_MAX_SEQ) t.2) l.

Lemma pairs_app l l' : pairs (l ++ l') = pairs l ++ pairs l'.
Proof. unfold pairs. by rewrite fmap_app, concat_app. Qed.

Lemma elem_of_pairs s p l : (s, p) ∈ pairs l ↔ ∃ t, t ∈ l ∧ p = t.1 ∧ s ∈ t.2.
Proof.
  unfold pairs. rewrite list_elem_of_In, in_concat. split.
  - intros (x & Hx%list_elem_of_In & Hs%list_elem_of_In). apply list_elem_of_fmap in Hx as (t & -> & Ht).
    apply list_elem_of_fmap in Hs as (s' & [= -> ->] & Hs). by exists t.
  - intros (t & Ht & -> & Hs). exists ((λ s, (s, t.1)) <$> t.2).
    split; apply list_elem_of_In, list_elem_of_fmap; [by exists t|by exists s].
Qed.

Lemma piece_ub_ok n ub : piece_ok n ub → tokens_ok (tokens ub) → ub_ok ub.
Proof.
  intros [Hn Hp Hs] Ht. unfold tokens_ok in Ht. rewrite Forall_lookup in Ht.
  assert (Hzip : ∀ i p ids, ub_pos ub !! i = Some p → ub_seq_id ub !! i = Some ids → tokens ub !! i = Some (p, ids)).
  { intros i p ids H1 H2. unfold tokens. apply lookup_zip_with_Some. by exists p, ids. }
  split; [lia|done|done| |].
  - intros p [i Hi]%list_elem_of_lookup. pose proof (lookup_lt_Some _ _ _ Hi).
    destruct (lookup_lt_is_Some_2 ub.(ub_seq_id) i) as [ids Hids]; [lia|].
    by destruct (Ht i _ (Hzip i p ids Hi Hids)).
  - intros ids [i Hi]%list_elem_of_lookup. pose proof (lookup_lt_Some _ _ _ Hi).
    destruct (lookup_lt_is_Some_2 ub.(ub_pos) i) as [p Hp']; [lia|].
    destruct (Ht i _ (Hzip i p ids Hp' Hi)) as (_ & Hnd & Hf). split; [done|]. by apply Forall_forall.
Qed.

Lemma token_at n ub k t : piece_ok n ub → tokens ub !! k = Some t →
  token_cell ub (Z.of_nat k) = KvCell t.1 0 (list_to_set t.2).
Proof.
  intros _ (p & ids & -> & Hp & Hids)%lookup_zip_with_Some. unfold token_cell. by rewrite Nat2Z.id, Hp, Hids.
Qed.

(** ** Placing fresh tokens *)

Definition slot_free (hd n : Z) (cs : llama_kv_cells_unified) : Prop :=
  0 <= hd ∧ hd + n <= cells_size cs ∧ ∀ i, 0 <= i < n → cs.(cell_list) !! Z.to_nat (hd + i) = Some empty_cell.

Lemma no_slot_not_free hd n cs : (∀ hd, 0 <= hd → hd + n <= cells_size cs →
    ∃ i c, 0 <= i < n ∧ cs.(cell_list) !! Z.to_nat (hd + i) = Some c ∧ c.(c_pos) ≠ -1) → ¬ slot_free hd n cs.
Proof.
  intros Hno (H1 & H2 & H3). destruct (Hno hd H1 H2) as (i & c & Hi & Hc & Hp). rewrite H3 in Hc by done.
  by injection Hc as <-.
Qed.

(** A cell after placing: a token of the piece, or what was there. *)
Lemma placed_cell n hd ub cs cs' i c : piece_ok n ub → 0 <= hd → placed hd ub.(ub_tokens) ub cs cs' →
  cs'.(cell_list) !! i = Some c →
  (∃ k t, i = (Z.to_nat hd + k)%nat ∧ tokens ub !! k = Some t ∧ c = KvCell t.1 0 (list_to_set t.2)) ∨
  (¬ (hd <= Z.of_nat i < hd + ub.(ub_tokens)) ∧ cs.(cell_list) !! i = Some c).
Proof.
  intros Hp Hhd (_ & _ & _ & Hc) Hi. specialize (Hc (Z.of_nat i) ltac:(lia)). rewrite Nat2Z.id, Hi in Hc.
  destruct (Z.leb_spec hd (Z.of_nat i)), (Z.ltb_spec (Z.of_nat i) (hd + ub.(ub_tokens))); cbn [andb] in Hc;
    try (right; split; [lia|done]).
  left. injection Hc as ->. pose proof (length_tokens n ub Hp).
  destruct (lookup_lt_is_Some_2 (tokens ub) (i - Z.to_nat hd)) as [t Ht]; [lia|].
  exists (i - Z.to_nat hd)%nat, t. split; [lia|]. split; [done|].
  rewrite <- (token_at n ub _ t Hp Ht). f_equal. lia.
Qed.

Lemma placed_token n hd ub cs cs' k t : piece_ok n ub → 0 <= hd → placed hd ub.(ub_tokens) ub cs cs' →
  tokens ub !! k = Some t → cs'.(cell_list) !! (Z.to_nat hd + k)%nat = Some (KvCell t.1 0 (list_to_set t.2)).
Proof.
  intros Hp Hhd (_ & _ & _ & Hc) Ht. pose proof (lookup_lt_Some _ _ _ Ht) as Hlt. pose proof (length_tokens n ub Hp).
  specialize (Hc (hd + Z.of_nat k) ltac:(lia)). rewrite (proj2 (Z.leb_le _ _)), (proj2 (Z.ltb_lt _ _)) in Hc by lia.
  cbn [andb] in Hc. replace (Z.to_nat hd + k)%nat with (Z.to_nat (hd + Z.of_nat k)) by lia. rewrite Hc. f_equal.
  rewrite <- (token_at n ub k t Hp Ht). f_equal. lia.
Qed.

Lemma placed_seq_pos n hd ub cs cs' s p : piece_ok n ub → cells_ok cs → slot_free hd ub.(ub_tokens) cs →
  placed hd ub.(ub_tokens) ub cs cs' → p ∈ cs'.(seq_pos) s ↔ (s, p) ∈ pairs (tokens ub) ∨ p ∈ cs.(seq_pos) s.
Proof.
  intros Hp Hok (Hhd & Hfit & Hemp) Hpl. rewrite (ck_seq_pos _ (proj1 Hpl)), elem_of_pairs, (ck_seq_pos _ Hok). split.
  - intros (i & c & Hi & Hs & Hcp). destruct (placed_cell n hd ub cs cs' i c Hp Hhd Hpl Hi) as [(k & t & -> & Ht & ->)|[_ Hc]].
    + left. exists t. cbn in Hs, Hcp. rewrite elem_of_list_to_set in Hs.
      split; [by eapply list_elem_of_lookup_2|]. by split.
    + right. by exists i, c.
  - intros [(t & [k Ht]%list_elem_of_lookup & -> & Hs)|(i & c & Hi & Hs & Hcp)].
    + exists (Z.to_nat hd + k)%nat, (KvCell t.1 0 (list_to_set t.2)).
      split; [by eapply placed_token|]. cbn. by rewrite elem_of_list_to_set.
    + destruct Hpl as (_ & _ & _ & Hpl). specialize (Hpl (Z.of_nat i) ltac:(lia)). rewrite Nat2Z.id in Hpl.
      destruct (Z.leb_spec hd (Z.of_nat i)), (Z.ltb_spec (Z.of_nat i) (hd + ub.(ub_tokens))); cbn [andb] in Hpl;
        try (exists i, c; by rewrite Hpl).
      exfalso. specialize (Hemp (Z.of_nat i - hd) ltac:(lia)).
      replace (Z.to_nat (hd + (Z.of_nat i - hd))) with i in Hemp by lia.
      assert (c = empty_cell) as -> by congruence. by apply elem_of_empty in Hs.
Qed.

(** No pair comes from two tokens. *)
Lemma pairs_inj l i j t t' s : NoDup (pairs l) → l !! i = Some t → l !! j = Some t' →
  s ∈ t.2 → s ∈ t'.2 → t.1 = t'.1 → i = j.
Proof.
  revert i j. induction l as [|a l IH]; intros i j Hnd Hi Hj Hs Hs' He; [done|].
  unfold pairs in Hnd. cbn [fmap list_fmap concat] in Hnd. apply NoDup_app in Hnd as (_ & Hdis & Hnd).
  assert (Hclash : ∀ k x y, a = x → l !! k = Some y → s ∈ x.2 → s ∈ y.2 → x.1 = y.1 → False).
  { intros k x y -> Hy Hx Hy' Hxy. apply (Hdis (s, x.1)); [apply list_elem_of_fmap; by exists s|].
    apply elem_of_pairs. exists y. split; [by eapply list_elem_of_lookup_2|]. by split. }
  destruct i as [|i], j as [|j]; cbn in Hi, Hj; [done| | |].
  - exfalso. injection Hi as ->. by apply (Hclash j t t').
  - exfalso. injection Hj as ->. by apply (Hclash i t' t).
  - f_equal. by apply IH.
Qed.

Lemma placed_unique n hd ub cs cs' : piece_ok n ub → cells_ok cs → positions_unique cs →
  slot_free hd ub.(ub_tokens) cs → placed hd ub.(ub_tokens) ub cs cs' → fresh_tokens (tokens ub) cs →
  positions_unique cs'.
Proof.
  intros Hp Hok Hun Hfree Hpl [Hnd Hfr] i j c d s Hi Hj Hs Hs' He. pose proof Hfree as (Hhd & _).
  destruct (placed_cell n hd ub cs cs' i c Hp Hhd Hpl Hi) as [(k & t & -> & Ht & ->)|[_ Hc]];
    destruct (placed_cell n hd ub cs cs' j d Hp Hhd Hpl Hj) as [(k' & t' & -> & Ht' & ->)|[_ Hd]];
    cbn in Hs, Hs', He; rewrite ?elem_of_list_to_set in *.
  - f_equal. by apply (pairs_inj _ _ _ _ _ s Hnd Ht Ht').
  - exfalso. apply (Hfr s d.(c_pos)); [|apply (ck_seq_pos _ Hok); by exists j, d].
    apply elem_of_pairs. exists t. split; [by eapply list_elem_of_lookup_2|]. by split.
  - exfalso. apply (Hfr s c.(c_pos)); [|apply (ck_seq_pos _ Hok); by exists i, c].
    apply elem_of_pairs. exists t'. split; [by eapply list_elem_of_lookup_2|]. by split.
  - by apply (Hun i j c d s).
Qed.

(** The other tokens of the batch stay fresh. *)
Lemma fresh_rest n hd ub l cs cs' : piece_ok n ub → cells_ok cs → slot_free hd ub.(ub_tokens) cs →
  placed hd ub.(ub_tokens) ub cs cs' → fresh_tokens (tokens ub ++ l) cs →
  fresh_tokens (tokens ub) cs ∧ fresh_tokens l cs'.
Proof.
  intros Hp Hok Hfree Hpl [Hnd Hfr]. rewrite pairs_app in Hnd, Hfr. apply NoDup_app in Hnd as (H1 & Hdis & H2). split.
  - split; [done|]. intros s p Hin. apply Hfr, elem_of_app. by left.
  - split; [done|]. intros s p Hin Hsp. apply (placed_seq_pos n hd ub cs cs' s p Hp Hok Hfree Hpl) in Hsp as [Hx|Hx].
    + by apply (Hdis (s, p)).
    + apply (Hfr s p); [apply elem_of_app; by right|done].
Qed.

(** ** Putting cells back *)

Definition empty_cells (n : Z) : llama_kv_cells_unified := KvCells false ∅ (replicate (Z.to_nat n) empty_cell) (λ _, ∅).

Lemma cells_cp_free hd n cs : 0 <= n → slot_free hd n cs → cells_cp hd n cs = Ok (empty_cells n).
Proof.
  intros Hn (Hhd & Hfit & Hemp). unfold cells_cp. rewrite (proj2 (Z.leb_le _ _) Hfit). cbn [assert_that obind].
  rewrite (otraverse_ok _ (λ _, empty_cell)).
  - cbn [obind]. unfold empty_cells. do 2 f_equal. apply list_eq. intros i. rewrite list_lookup_fmap.
    destruct (decide (i < Z.to_nat n)%nat).
    + rewrite lookup_seqZ_lt, lookup_replicate_2 by lia. done.
    + rewrite lookup_seqZ_ge by lia. symmetry. apply lookup_ge_None. rewrite length_replicate. lia.
  - intros j [H1 H2]%elem_of_seqZ. rewrite (proj2 (cell_at_ok cs (hd + j) empty_cell)); [done|].
    split; [lia|apply Hemp; lia].
Qed.

Lemma cells_set_at_empty cs i n j c : cells_ok cs → positions_unique cs → 0 <= i → 0 <= j < n →
  cs.(cell_list) !! Z.to_nat (i + j) = Some c → c.(c_shift) = 0 →
  ∃ cs', cells_set_at i (empty_cells n) j cs = Ok cs' ∧ cell_put (i + j) empty_cell cs cs'.
Proof.
  intros Hok Hun Hi Hj Hc Hsh. unfold cells_set_at. rewrite (proj2 (cell_at_ok cs (i + j) c)) by (split; [lia|done]).
  cbn [obind]. rewrite (proj2 (cell_at_ok (empty_cells n) j empty_cell)).
  2: { split; [lia|]. cbn. apply lookup_replicate_2. lia. }
  cbn [obind c_pos c_seq empty_cell]. rewrite Hsh. change (-1 =? -1) with true. change (0 =? 0) with true.
  cbn [negb andb assert_that obind]. rewrite andb_false_r, andb_true_r. eexists. split; [done|].
  unfold put_seq_pos, put_used, put_cell. cbn [has_shift used cell_list seq_pos].
  destruct (Z.eqb_spec c.(c_pos) (-1)) as [He|He]; cbn [negb].
  - pose proof (ck_empty _ Hok _ _ Hc He) as ->. destruct (cell_put_same (i + j) empty_cell cs Hok Hun Hc) as [Q1 Q2 Q3 Q4].
    split; cbn [cell_list has_shift]; try done; change (KvCell (-1) 0 ∅) with empty_cell; rewrite <- Q3; [by destruct cs|].
    by eapply unique_list; [|exact Hun].
  - split; cbn [cell_list has_shift]; try done; change (KvCell (-1) 0 ∅) with empty_cell.
    + apply (cells_ok_update cs (i + j) c); [done|done|lia|done|exact empty_cell_ok| |].
      * intros k. apply (emptied_used cs (i + j) k c); [done|lia|done].
      * intros s p. rewrite elem_of_seq_pos_rm. cbn. split; [by right|]. by intros [[?%elem_of_empty _]|].
    + apply (unique_update cs (Z.to_nat (i + j)) c); [done|done|by left].
Qed.

Definition emptied (hd n : Z) (cs cs' : llama_kv_cells_unified) : Prop :=
  cells_ok cs' ∧ positions_unique cs' ∧ cs'.(has_shift) = cs.(has_shift) ∧
  length cs'.(cell_list) = length cs.(cell_list) ∧
  ∀ i : Z, 0 <= i → cs'.(cell_list) !! Z.to_nat i =
    if (hd <=? i) && (i <? hd + n) then Some empty_cell else cs.(cell_list) !! Z.to_nat i.

Lemma cells_set_empty cs hd n : cells_ok cs → positions_unique cs → 0 <= hd → 0 <= n → hd + n <= cells_size cs →
  (∀ i c, hd <= i < hd + n → cs.(cell_list) !! Z.to_nat i = Some c → c.(c_shift) = 0) →
  ∃ cs', cells_set hd (empty_cells n) cs = Ok cs' ∧ emptied hd n cs cs'.
Proof.
  intros Hok Hun Hhd Hn Hfit Hsh. unfold cells_set.
  assert (Hsz : cells_size (empty_cells n) = n) by (unfold cells_size, empty_cells; cbn; rewrite length_replicate; lia).
  rewrite Hsz, (proj2 (Z.leb_le _ _) Hfit). cbn [assert_that obind].
  destruct (ofold_seqZ (λ j cs', emptied hd j cs cs') (cells_set_at hd (empty_cells n)) 0 n cs) as (cs' & Hrun & He).
  - done.
  - split; [done|]. split; [done|]. split; [done|]. split; [done|]. intros i Hi.
    destruct (Z.leb_spec hd i), (Z.ltb_spec i (hd + 0)); cbn; (done || lia).
  - intros j c1 Hj (H1 & H2 & H3 & H4 & H5). unfold cells_size in Hfit.
    destruct (lookup_lt_is_Some_2 c1.(cell_list) (Z.to_nat (hd + j))) as [c Hc]; [lia|].
    assert (Hc0 : cs.(cell_list) !! Z.to_nat (hd + j) = Some c).
    { rewrite <- Hc, H5 by lia. by rewrite (proj2 (Z.ltb_ge _ _)), andb_false_r by lia. }
    destruct (cells_set_at_empty c1 hd n j c H1 H2 Hhd ltac:(lia) Hc (Hsh (hd + j) c ltac:(lia) Hc0)) as (c2 & -> & [Q1 Q2 Q3 Q4]).
    exists c2. split; [done|]. split; [done|]. split; [done|]. split; [congruence|].
    split; [by rewrite Q3, length_insert|]. intros i Hi. rewrite Q3. destruct (decide (i = hd + j)) as [->|Hne].
    + rewrite list_lookup_insert_eq by lia. by rewrite (proj2 (Z.leb_le _ _)), (proj2 (Z.ltb_lt _ _)) by lia.
    + rewrite list_lookup_insert_ne, H5 by lia.
      destruct (Z.leb_spec hd i), (Z.ltb_spec i (hd + j)), (Z.ltb_spec i (hd + (j + 1))); cbn; (done || lia).
  - exists cs'. by split.
Qed.

(** Pieces placed one after the other in slots that are free at that time. *)
Inductive filled : list llama_ubatch → list Z → llama_kv_cells_unified → llama_kv_cells_unified → Prop :=
| filled_nil cs : filled [] [] cs cs
| filled_cons ub ubs hd hds cs cs1 cs2 : slot_free hd ub.(ub_tokens) cs → placed hd ub.(ub_tokens) ub cs cs1 →
    filled ubs hds cs1 cs2 → filled (ub :: ubs) (hd :: hds) cs cs2.

(** Some piece has no slot once the pieces before it are placed. *)
Definition no_room (ubs : list llama_ubatch) (cs : llama_kv_cells_unified) : Prop :=
  ∃ don hds ub rest cs', ubs = don ++ ub :: rest ∧ filled don hds cs cs' ∧ ∀ hd, ¬ slot_free hd ub.(ub_tokens) cs'.

Section prepare.
Context `{Cd : Codec} `{Ev : Env} (h : Z).

(** A cache a batch can be given to: no sliding window, no position twice. *)
Record ready (u : llama_kv_cache_unified) : Prop := Ready {
  rd_ok : unified_ok h u;
  rd_cells : cells_ok u.(cells);
  rd_unique : positions_unique u.(cells);
  rd_head : 0 <= u.(head) <= cells_size u.(cells);
  rd_size : cells_size u.(cells) <= MAX_CHUNKS_PER_TENSOR * TOKENS_PER_CHUNK;
  rd_swa : u.(swa_type) = SWA_NONE;
  rd_growth : ∀ n, growth_fits n u }.

(** Growth keeps what a core asks of later growth. *)
Lemma growth_fits_grown need ok u u1 n : growth_fits n u → grown_cache h need ok u u1 → growth_fits n u1.
Proof.
  intros Hf Hg c1 Hc1 Hcl. destruct (g_mzcache_core u) as [c|] eqn:Hc; [|by rewrite (gc_none _ _ _ _ _ Hg Hc) in Hc1].
  destruct (gc_core _ _ _ _ _ Hg c Hc) as (c2 & Hc2 & Hfo). assert (c2 = c1) as -> by congruence.
  specialize (Hf c Hc). destruct (ok && _); [|rewrite Hfo in Hcl |- *; by apply Hf].
  unfold followed in Hfo. change (clean_ladder (set_mem (ckv c) (umem u1))) with (clean_ladder (ckv c)) in Hfo.
  destruct (clean_ladder (ckv c)) eqn:Hc0.
  - destruct Hfo as [[_ _ _ _ _ _ _ _ (x & t & p & cu & ->)] _]. by apply Hf.
  - exfalso. rewrite Hfo in Hcl. change (clean_ladder (set_pending (set_mem (ckv c) (umem u1)) _)) with (clean_ladder (ckv c)) in Hcl.
    congruence.
Qed.

(** What growing and placing leave alone: chunks, layers, the configuration. *)
Record kept (u u' : llama_kv_cache_unified) : Prop := Kept {
  kp_size : cells_size u'.(cells) = cells_size u.(cells);
  kp_alloc : u.(n_chunks_alloc) <= u'.(n_chunks_alloc);
  kp_chunks : grew (chunk_len h) (u.(chunk_made), u.(umem)) (u'.(chunk_made), u'.(umem));
  kp_layers : u'.(layers) = u.(layers);
  kp_conf : u'.(v_trans) = u.(v_trans) ∧ u'.(n_seq_max) = u.(n_seq_max) ∧ u'.(n_pad) = u.(n_pad) }.

#[global] Instance kept_preorder : PreOrder kept.
Proof.
  split.
  - intros u. by split.
  - intros u1 u2 u3 [A1 A2 A3 A4 A5] [B1 B2 B3 B4 B5]. split; [congruence|lia|by etrans|congruence|].
    destruct A5 as (? & ? & ?), B5 as (? & ? & ?). split; [congruence|split; congruence].
Qed.

(** The growth of the cache is enough for the slot. *)
Definition covers (u : llama_kv_cache_unified) (hd n : Z) : Prop := hd + n <= u.(n_chunks_alloc) * TOKENS_PER_CHUNK.

Lemma mz_grow_covered n u : 0 <= n <= MAX_CHUNKS_PER_TENSOR * TOKENS_PER_CHUNK → covers u 0 n →
  mz_grow_chunks n u = Ok (true, u).
Proof.
  intros Hn Hc. unfold mz_grow_chunks. destruct (need_chunks n Hn) as [-> _].
  rewrite (proj2 (Z.leb_le _ _)); [done|]. unfold covers, TOKENS_PER_CHUNK in Hc.
  apply Z.lt_succ_r, Z.div_lt_upper_bound; lia.
Qed.

(** Placing one piece in a free slot. *)
Lemma try_apply_ready nb hd ub u : ready u → piece_ok nb ub → tokens_ok (tokens ub) → fresh_tokens (tokens ub) u.(cells) →
  slot_free hd ub.(ub_tokens) u.(cells) →
  ∃ ok u1, try_apply_ubatch hd ub u = Ok (ok, u1) ∧ ready u1 ∧ kept u u1 ∧
    if ok then u1.(head) = hd + ub.(ub_tokens) ∧ placed hd ub.(ub_tokens) ub u.(cells) u1.(cells) ∧ covers u1 hd ub.(ub_tokens)
    else u1.(cells) = u.(cells) ∧ u1.(head) = u.(head) ∧
         refused u.(n_chunks_alloc) ((hd + ub.(ub_tokens) + 255) / 256) u.
Proof.
  intros [Hu Hok Hun Hhd Hsz Hswa Hgr] Hp Ht Hfr Hfree. pose proof Hfree as (H1 & H2 & H3).
  destruct (apply_ubatch_run h hd ub u Hu Hok (piece_ub_ok nb ub Hp Ht) H1 H2 Hsz (Hgr _) H3) as (ok & u1 & _ & Hg & Href & Hap).
  destruct (grown_cells _ _ _ _ _ Hg) as (Ec & Eh & El & _ & Ev1 & Em & _).
  assert (Epad : u1.(n_pad) = u.(n_pad) ∧ u1.(swa_type) = u.(swa_type)).
  { destruct (gc_frame _ _ _ _ _ Hg) as (made & m & k & core & ->). done. }
  destruct Epad as [Epad Eswa]. pose proof (gc_alloc _ _ _ _ _ Hg) as Ha. pose proof (gc_chunks _ _ _ _ _ Hg) as Hch.
  assert (Hgr1 : ∀ n, growth_fits n u1) by (intros n; by eapply growth_fits_grown).
  destruct ok.
  - destruct Hap as (cs' & Hap & Hpl). exists true, (with_cells u1 (hd + ub.(ub_tokens)) cs'). split; [done|].
    pose proof Hpl as (Hcok & Hlen & _). assert (Hs' : cells_size cs' = cells_size (cells u)) by (unfold cells_size; by rewrite Hlen).
    pose proof (pc_n _ _ Hp). split; [split; cbn [cells head with_cells]|split; [split; cbn [cells n_chunks_alloc with_cells]|]]; try done.
    + apply with_cells_ok, Hg.
    + by apply (placed_unique nb hd ub u.(cells)).
    + rewrite Hs'. lia.
    + by rewrite Hs'.
    + by cbn; rewrite Eswa.
    + rewrite Ha. lia.
    + split; [done|]. split; [done|]. unfold covers. cbn [n_chunks_alloc with_cells]. rewrite Ha. unfold TOKENS_PER_CHUNK.
      pose proof (Z.div_mod (hd + ub.(ub_tokens) + 255) 256 ltac:(lia)).
      pose proof (Z.mod_pos_bound (hd + ub.(ub_tokens) + 255) 256 ltac:(lia)). lia.
  - exists false, u1. split; [done|]. split; [split|split; [split|]]; rewrite ?Ec, ?Eh; try done.
    + apply Hg.
    + by rewrite Eswa.
    + rewrite Ha. lia.
    + split; [done|]. split; [done|]. by apply Href.
Qed.

(** Taking one piece out again. *)
Lemma restore_one nb hd ub cs cs1 csr : piece_ok nb ub → positions_unique cs → slot_free hd ub.(ub_tokens) cs →
  placed hd ub.(ub_tokens) ub cs cs1 → cells_ok csr → positions_unique csr → csr.(cell_list) = cs1.(cell_list) →
  ∃ cs', cells_set hd (empty_cells ub.(ub_tokens)) csr = Ok cs' ∧ cells_ok cs' ∧ positions_unique cs' ∧
    cs'.(cell_list) = cs.(cell_list) ∧ cs'.(has_shift) = csr.(has_shift).
Proof.
  intros Hp Hun (H1 & H2 & H3) Hpl Hok Hunr Hl. pose proof (pc_n _ _ Hp) as Hn.
  pose proof Hpl as (_ & Hlen & _ & Hc). unfold cells_size in H2.
  destruct (cells_set_empty csr hd ub.(ub_tokens) Hok Hunr H1 ltac:(lia)) as (cs' & -> & Q1 & Q2 & Q3 & Q4 & Q5).
  - unfold cells_size. rewrite Hl, Hlen. lia.
  - intros i c Hi Hci. rewrite Hl, Hc in Hci by lia. rewrite (proj2 (Z.leb_le _ _)), (proj2 (Z.ltb_lt _ _)) in Hci by lia.
    by injection Hci as <-.
  - exists cs'. split; [done|]. split; [done|]. split; [done|]. split; [|done].
    apply list_eq. intros i. rewrite <- (Nat2Z.id i). rewrite Q5, Hl, Hc by lia.
    destruct (Z.leb_spec hd (Z.of_nat i)), (Z.ltb_spec (Z.of_nat i) (hd + ub.(ub_tokens))); cbn [andb]; try done.
    rewrite <- (H3 (Z.of_nat i - hd)) by lia. f_equal. lia.
Qed.

Definition covered (u : llama_kv_cache_unified) (hds : list Z) (ubs : list llama_ubatch) : Prop :=
  Forall2 (λ hd ub, covers u hd ub.(ub_tokens)) hds ubs.

Lemma covers_mono u u' hd n : u.(n_chunks_alloc) <= u'.(n_chunks_alloc) → covers u hd n → covers u' hd n.
Proof. unfold covers, TOKENS_PER_CHUNK. lia. Qed.

(** The first loop of [prepare], and what the second makes of its result. *)
Lemma prepare_loop_spec nb ubs : ∀ res states u, ready u → Forall (piece_ok nb) ubs →
  tokens_ok (concat (tokens <$> ubs)) → fresh_tokens (concat (tokens <$> ubs)) u.(cells) →
  ∃ r u', prepare_loop ubs res states u = Ok (r, u') ∧ ready u' ∧ kept u u' ∧
    match r with
    | None => ∃ p, svm_alloc_ok p = false
    | Some (ok, res', states') => ∃ hds sts don rest, res' = res ++ hds ∧ states' = states ++ sts ∧
        ubs = don ++ rest ∧
        (if ok then rest = [] else ∃ ub rest', rest = ub :: rest' ∧ ∀ hd, ¬ slot_free hd ub.(ub_tokens) u'.(cells)) ∧ filled don hds u.(cells) u'.(cells) ∧ covered u' hds don ∧
        ∃ cs, ofold restore_state (rev sts) u' = Ok (with_cells u' u.(head) cs) ∧ cells_ok cs ∧ positions_unique cs ∧
          cs.(cell_list) = u.(cells).(cell_list) ∧ cs.(has_shift) = u.(cells).(has_shift)
    end.
Proof.
  induction ubs as [|ub ubs IH]; intros res states u Hr Hps Ht Hfr; cbn [prepare_loop].
  - exists (Some (true, res, states)), u. split; [done|]. split; [done|]. split; [done|].
    exists [], [], [], []. rewrite !app_nil_r. split; [done|]. split; [done|]. split; [done|]. split; [done|].
    split; [constructor|]. split; [constructor|]. exists u.(cells). cbn. destruct Hr. split; [by destruct u|]. done.
  - apply Forall_cons in Hps as [Hp Hps]. cbn [fmap list_fmap concat] in Ht, Hfr. apply Forall_app in Ht as [Ht1 Ht2].
    pose proof (pc_n _ _ Hp) as Hn. pose proof (rd_size _ Hr) as Hsz. unfold MAX_CHUNKS_PER_TENSOR, TOKENS_PER_CHUNK in Hsz.
    destruct (find_slot_run ub.(ub_tokens) u (rd_cells _ Hr) (rd_head _ Hr) ltac:(lia) ltac:(lia) (rd_swa _ Hr))
      as (hd & -> & [(H1 & H2 & H3)|[-> Hno]]); cbn [obind].
    2: { exists (Some (false, res, states)), u. split; [done|]. split; [done|]. split; [done|].
         exists [], [], [], (ub :: ubs). rewrite !app_nil_r. split; [done|]. split; [done|]. split; [done|].
         split; [exists ub, ubs; split; [done|]; intros hd; by apply no_slot_not_free|].
         split; [constructor|]. split; [constructor|]. exists u.(cells). cbn. destruct Hr. split; [by destruct u|]. done. }
    assert (Hfree : slot_free hd ub.(ub_tokens) u.(cells)) by done.
    rewrite (proj2 (Z.ltb_ge hd 0) H1), (cells_cp_free hd) by (done || lia). cbn [obind].
    assert (Hfr1 : fresh_tokens (tokens ub) u.(cells)).
    { destruct Hfr as [Hnd Hx]. rewrite pairs_app in Hnd, Hx. split; [by apply NoDup_app in Hnd as (? & _)|].
      intros s p Hin. apply Hx, elem_of_app. by left. }
    destruct (try_apply_ready nb hd ub u Hr Hp Ht1 Hfr1 Hfree) as (ok & u1 & -> & Hr1 & Hk1 & Hcase).
    cbn [obind]. destruct ok; cbn [negb].
    2: { exists None, u1. split; [done|]. split; [done|]. split; [done|]. destruct Hcase as (_ & _ & q & _ & _ & Hq). by exists q. }
    destruct Hcase as (Hhd1 & Hpl & Hcov).
    destruct (fresh_rest nb hd ub _ u.(cells) u1.(cells) Hp (rd_cells _ Hr) Hfree Hpl Hfr) as [_ Hfr2].
    destruct (IH (res ++ [hd]) (states ++ [Saved u.(head) hd (empty_cells ub.(ub_tokens))]) u1 Hr1 Hps Ht2 Hfr2)
      as (r & u' & -> & Hr' & Hk' & Hres).
    exists r, u'. split; [done|]. split; [done|]. split; [by etrans|]. destruct r as [[[ok res'] states']|]; [|done].
    destruct Hres as (hds & sts & don & rest & -> & -> & -> & Hrest & Hfil & Hco & csr & Hrun & Hcok & Hcun & Hcl & Hcsh).
    exists (hd :: hds), (Saved u.(head) hd (empty_cells ub.(ub_tokens)) :: sts), (ub :: don), rest.
    rewrite <- !app_assoc. split; [done|]. split; [done|]. split; [done|]. split; [done|].
    split; [by econstructor|]. split.
    { constructor; [|done]. eapply covers_mono; [|exact Hcov]. apply Hk'. }
    destruct (restore_one nb hd ub u.(cells) u1.(cells) csr Hp (rd_unique _ Hr) Hfree Hpl Hcok Hcun Hcl)
      as (cs & Hset & Q1 & Q2 & Q3 & Q4).
    exists cs. cbn [rev]. rewrite ofold_app, Hrun. cbn [obind ofold]. unfold restore_state at 1.
    cbn [head_new saved_cells head_old cells with_cells]. rewrite Hset. cbn [obind].
    split; [done|]. split; [done|]. split; [done|]. split; [done|].
    rewrite Q4, Hcsh. by destruct Hpl as (_ & _ & ? & _).
Qed.

Lemma prepare_spec nb ubs u : ready u → Forall (piece_ok nb) ubs → tokens_ok (concat (tokens <$> ubs)) →
  fresh_tokens (concat (tokens <$> ubs)) u.(cells) →
  ∃ r, prepare ubs u = Ok r ∧
    match r with
    | Thrown u' => ready u' ∧ kept u u' ∧ ∃ p, svm_alloc_ok p = false
    | Heads hds u' => ready u' ∧ kept u u' ∧ u'.(cells) ≡ u.(cells) ∧ u'.(head) = u.(head) ∧
        (hds = [] ∧ no_room ubs u.(cells) ∨ ∃ cs, filled ubs hds u.(cells) cs ∧ covered u' hds ubs)
    end.
Proof.
  intros Hr Hps Ht Hfr. unfold prepare.
  destruct (prepare_loop_spec nb ubs [] [] u Hr Hps Ht Hfr) as (r & u' & -> & Hr' & Hk & Hres). cbn [obind].
  destruct r as [[[ok res] states]|]; [|by exists (Thrown u')].
  destruct Hres as (hds & sts & don & rest & -> & -> & -> & Hrest & Hfil & Hco & cs & Hrun & Hcok & Hcun & Hcl & Hcsh).
  cbn [app]. rewrite Hrun. cbn [obind]. eexists. split; [done|]. cbn beta iota.
  assert (Hsz : cells_size cs = cells_size u.(cells)) by (unfold cells_size; by rewrite Hcl).
  split; [|split; [|split; [|split; [done|]]]].
  - destruct Hr' as [R1 R2 R3 R4 R5 R6 R7]. split; cbn [cells head with_cells]; try done.
    + by apply with_cells_ok.
    + rewrite Hsz. apply Hr.
    + rewrite Hsz. apply Hr.
  - destruct Hk as [K1 K2 K3 K4 K5]. by split.
  - apply cells_ok_equiv; [done|apply Hr|done|done].
  - destruct ok.
    2: { left. split; [done|]. destruct Hrest as (ub & rest' & -> & Hno). by exists don, hds, ub, rest', u'.(cells). }
    right. subst rest. rewrite app_nil_r. by exists u'.(cells).
Qed.
End prepare.
