(* ===== verification/KvBatchRun.v ===== *)
(** A batch from [init_batch] to the end of the decoding loop: every token gets a
    cell of its own, and a piece that cannot be computed is taken out again. *)
From S2P Require Import Prelude Floats KvTypes KvPlan KvLadder KvInv KvFrame KvGrow KvOffload KvSwapIn.
From S2P Require Import Weight Swapout KvOps KvOpsThms KvCells KvCellsThms KvUnified KvUnifiedGrow KvSlots.
From S2P Require Import KvApply KvSeqOps KvBatch KvPrepare.

(** ** Where the tokens are *)

(** The cell a token becomes. *)
Definition cell_of (t : Z * list Z) : kv_cell := KvCell t.1 0 (list_to_set t.2).

(** [idxs] are the cells of the tokens [l]: different cells, free before, one per
    token, and no other cell has changed. *)
Record tokens_at (l : list (Z * list Z)) (idxs : list nat) (cs cs' : llama_kv_cells_unified) : Prop := TokensAt {
  ta_length : length idxs = length l;
  ta_nodup : NoDup idxs;
  ta_free : ∀ i, i ∈ idxs → cs.(cell_list) !! i = Some empty_cell;
  ta_cells : ∀ k t i, l !! k = Some t → idxs !! k = Some i → cs'.(cell_list) !! i = Some (cell_of t);
  ta_other : ∀ i, i ∉ idxs → cs'.(cell_list) !! i = cs.(cell_list) !! i }.

Lemma token_not_empty l k t : tokens_ok l → l !! k = Some t → cell_of t ≠ empty_cell.
Proof. intros Hl Ht [= E _]. destruct (Forall_lookup_1 _ _ _ _ Hl Ht). lia. Qed.

Lemma placed_tokens_at n hd ub cs cs' : piece_ok n ub → slot_free hd ub.(ub_tokens) cs →
  placed hd ub.(ub_tokens) ub cs cs' → tokens_at (tokens ub) (seq (Z.to_nat hd) (length (tokens ub))) cs cs'.
Proof.
  intros Hp (H1 & H2 & H3) Hpl. pose proof (length_tokens n ub Hp) as Hlen. split.
  - apply length_seq.
  - apply NoDup_ListNoDup, seq_NoDup.
  - intros i [Ha Hb]%elem_of_seq. specialize (H3 (Z.of_nat i - hd) ltac:(lia)). rewrite <- H3. f_equal. lia.
  - intros k t i Ht Hi. apply lookup_seq in Hi as [-> _]. by eapply placed_token.
  - intros i Hi. destruct Hpl as (_ & _ & _ & Hc). specialize (Hc (Z.of_nat i) ltac:(lia)). rewrite Nat2Z.id in Hc. rewrite Hc.
    destruct (Z.leb_spec hd (Z.of_nat i)), (Z.ltb_spec (Z.of_nat i) (hd + ub.(ub_tokens))); cbn [andb]; try done.
    destruct Hi. apply elem_of_seq. lia.
Qed.

Lemma tokens_at_app l l' idxs idxs' cs cs1 cs2 : tokens_ok l → tokens_at l idxs cs cs1 → tokens_at l' idxs' cs1 cs2 →
  tokens_at (l ++ l') (idxs ++ idxs') cs cs2.
Proof.
  intros Hl [A1 A2 A3 A4 A5] [B1 B2 B3 B4 B5].
  assert (Hdis : ∀ i, i ∈ idxs → i ∉ idxs').
  { intros i Hi Hi'. pose proof (B3 i Hi') as He. apply list_elem_of_lookup in Hi as [k Hk].
    destruct (lookup_lt_is_Some_2 l k) as [t Ht]; [rewrite <- A1; by eapply lookup_lt_Some|].
    apply (token_not_empty l k t Hl Ht). pose proof (A4 k t i Ht Hk). congruence. }
  split.
  - rewrite !length_app. lia.
  - apply NoDup_app. done.
  - intros i [Hi|Hi]%elem_of_app; [by apply A3|]. rewrite <- A5; [by apply B3|]. intros Hi'. by apply (Hdis i).
  - intros k t i Ht Hi. destruct (decide (k < length l)%nat) as [Hk|Hk].
    + rewrite lookup_app_l in Ht by lia. rewrite lookup_app_l in Hi by lia.
      rewrite B5; [by apply (A4 k)|]. apply Hdis. by eapply list_elem_of_lookup_2.
    + rewrite lookup_app_r in Ht by lia. rewrite lookup_app_r, A1 in Hi by lia. by apply (B4 (k - length l)%nat).
  - intros i Hi. apply not_elem_of_app in Hi as [Hi Hi']. by rewrite B5, A5.
Qed.

Lemma filled_tokens n ubs hds cs cs' : filled ubs hds cs cs' → Forall (piece_ok n) ubs →
  tokens_ok (concat (tokens <$> ubs)) → ∃ idxs, tokens_at (concat (tokens <$> ubs)) idxs cs cs'.
Proof.
  induction 1 as [cs|ub ubs hd hds cs cs1 cs2 Hfree Hpl Hfil IH]; intros Hps Ht.
  - exists []. split; try done; [constructor|]. by intros i ?%elem_of_nil.
  - apply Forall_cons in Hps as [Hp Hps]. cbn [fmap list_fmap concat] in *. apply Forall_app in Ht as [Ht1 Ht2].
    destruct (IH Hps Ht2) as [idxs Hi]. eexists. eapply tokens_at_app; [done|by eapply placed_tokens_at|exact Hi].
Qed.

Section run.
Context `{Cd : Codec} `{Ev : Env} (h : Z).

(** ** The loop *)

(** Placing a piece where [prepare] has found room for it. *)
Lemma apply_covered nb hd ub u cs cs1 : ready h u → u.(cells) ≡ cs → cells_ok cs → piece_ok nb ub → tokens_ok (tokens ub) →
  fresh_tokens (tokens ub) cs → slot_free hd ub.(ub_tokens) cs → placed hd ub.(ub_tokens) ub cs cs1 →
  covers u hd ub.(ub_tokens) →
  ∃ u1, apply_ubatch hd ub u = Ok u1 ∧ ready h u1 ∧ kept h u u1 ∧ u1.(cells) ≡ cs1.
Proof.
  intros Hr [El Es _ Esp] Hok Hp Ht Hfr Hfree Hpl Hcov.
  assert (Hfr' : fresh_tokens (tokens ub) u.(cells)).
  { destruct Hfr as [Hnd Hfr]. split; [done|]. intros s p Hin. rewrite Esp. by apply Hfr. }
  assert (Hfree' : slot_free hd ub.(ub_tokens) u.(cells)).
  { destruct Hfree as (H1 & H2 & H3). unfold slot_free, cells_size in *. rewrite El. done. }
  destruct (try_apply_ready h nb hd ub u Hr Hp Ht Hfr' Hfree') as (ok & u1 & Hrun & Hr1 & Hk & Hcase).
  unfold apply_ubatch. rewrite Hrun. cbn [obind]. destruct ok.
  - destruct Hcase as (_ & Hpl1 & _). exists u1. split; [done|]. split; [done|]. split; [done|].
    pose proof Hpl as (Q1 & Q2 & Q3 & Q4). pose proof Hpl1 as (P1 & P2 & P3 & P4). apply cells_ok_equiv; [done|done| |congruence].
    apply list_eq. intros i. rewrite <- (Nat2Z.id i), P4, Q4 by lia. by rewrite El.
  - exfalso. destruct Hcase as (_ & _ & q & _ & Hq & _). unfold covers, TOKENS_PER_CHUNK in Hcov.
    assert ((hd + ub_tokens ub + 255) / 256 < n_chunks_alloc u + 1) by (apply Z.div_lt_upper_bound; lia). lia.
Qed.

(** All pieces are computed. *)
Lemma decode_filled nb ubs hds cs cs' : filled ubs hds cs cs' → ∀ pre_u pre_h x u fuel,
  x.(status) = LLAMA_MEMORY_STATUS_SUCCESS → x.(ubatches) = pre_u ++ ubs → x.(heads) = pre_h ++ hds →
  x.(i_next) = Z.of_nat (length pre_u) → length pre_h = length pre_u → ubs ≠ [] → (length ubs <= fuel)%nat →
  ready h u → u.(cells) ≡ cs → cells_ok cs → Forall (piece_ok nb) ubs → tokens_ok (concat (tokens <$> ubs)) →
  fresh_tokens (concat (tokens <$> ubs)) cs → covered u hds ubs →
  ∃ x' u', decode_loop fuel (λ _, true) x u = Ok (true, x', u') ∧ ready h u' ∧ kept h u u' ∧ u'.(cells) ≡ cs'.
Proof.
  induction 1 as [cs|ub ubs hd hds cs cs1 cs2 Hfree Hpl Hfil IH]; intros pre_u pre_h x u fuel Hst Hu Hhs Hi Hlen Hne Hfuel
    Hr He Hok Hps Ht Hfr Hcov; [done|].
  destruct fuel as [|fuel]; [cbn in Hfuel; lia|]. cbn [decode_loop].
  apply Forall_cons in Hps as [Hp Hps]. cbn [fmap list_fmap concat] in Ht, Hfr. apply Forall_app in Ht as [Ht1 Ht2].
  apply Forall2_cons in Hcov as [Hc1 Hcov].
  destruct (fresh_rest nb hd ub _ cs cs1 Hp Hok Hfree Hpl Hfr) as [Hfr1 Hfr2].
  destruct (apply_covered nb hd ub u cs cs1 Hr He Hok Hp Ht1 Hfr1 Hfree Hpl Hc1) as (u1 & Hap & Hr1 & Hk1 & He1).
  unfold ctx_apply. rewrite Hst. cbn [succeeded assert_that obind]. rewrite Hu, Hhs, Hi, Nat2Z.id.
  rewrite list_lookup_middle by done. rewrite list_lookup_middle by done. rewrite Hap. cbn [obind negb].
  unfold ctx_next. cbn [status succeeded assert_that obind i_next ubatches heads ctx_n_kv ctx_head].
  destruct ubs as [|ub' ubs].
  - rewrite length_app. cbn [length]. rewrite (proj2 (Z.ltb_ge _ _)) by lia. eexists _, u1. split; [done|].
    split; [done|]. split; [done|]. by inversion Hfil; subst.
  - rewrite length_app. cbn [length]. rewrite (proj2 (Z.ltb_lt _ _)) by lia.
    assert (Hcov1 : covered u1 hds (ub' :: ubs)).
    { eapply Forall2_impl; [exact Hcov|]. intros a b. apply covers_mono, Hk1. }
    destruct (IH (pre_u ++ [ub]) (pre_h ++ [hd])
      (Ctx LLAMA_MEMORY_STATUS_SUCCESS (Z.of_nat (length pre_u) + 1) (pre_h ++ hd :: hds) (pre_u ++ ub :: ub' :: ubs) (get_n_kv u1) hd)
      u1 fuel) as (x' & u' & Hrun & Hr' & Hk' & He'); cbn [status ubatches heads i_next]; try done.
    + by rewrite <- app_assoc.
    + by rewrite <- app_assoc.
    + rewrite length_app. cbn. lia.
    + rewrite !length_app. cbn. lia.
    + cbn in Hfuel |- *. lia.
    + apply Hpl.
    + exists x', u'. split; [done|]. split; [done|]. split; [by etrans|done].
Qed.


(** ** A piece that is not computed *)

(** What [lowest_positions] finds. *)
Record lowest_of (l : list (Z * list Z)) (f : Z → Z) : Prop := LowestOf {
  lw_le : ∀ t s, t ∈ l → hd_error t.2 = Some s → f s <= t.1;
  lw_from : ∀ s, f s = 2 ^ 31 - 1 ∨ ∃ t, t ∈ l ∧ hd_error t.2 = Some s ∧ f s = t.1 }.

Lemma lowest_positions_spec n ub : piece_ok n ub → (∀ t, t ∈ tokens ub → t.2 ≠ []) →
  ∃ f, lowest_positions ub = Ok f ∧ lowest_of (tokens ub) f.
Proof.
  intros Hp Hne. unfold lowest_positions. pose proof (length_tokens n ub Hp) as Hlen. pose proof (pc_n _ _ Hp).
  destruct (ofold_seqZ (λ i f, lowest_of (take (Z.to_nat i) (tokens ub)) f) (λ i pos_min,
      match ub.(ub_seq_id) !! Z.to_nat i, ub.(ub_pos) !! Z.to_nat i with
      | Some (seq_id :: _), Some p => Ok (<[seq_id := Z.min (pos_min seq_id) p]> pos_min)
      | _, _ => Ub
      end) 0 ub.(ub_tokens) (λ _, 2 ^ 31 - 1)) as (f & Hrun & Hf).
  - lia.
  - split; [by intros t s ?%elem_of_nil|by left].
  - intros i f Hi [F1 F2]. destruct (lookup_lt_is_Some_2 (tokens ub) (Z.to_nat i)) as [t Ht]; [lia|].
    pose proof Ht as Ht'. apply lookup_zip_with_Some in Ht' as (p & ids & -> & -> & ->).
    pose proof (Hne _ (list_elem_of_lookup_2 _ _ _ Ht)) as Hids. cbn in Hids. destruct ids as [|s0 ids]; [done|].
    eexists. split; [done|]. replace (Z.to_nat (i + 1)) with (S (Z.to_nat i)) by lia. rewrite (take_S_r _ _ _ Ht). split.
    + intros t s [Hin| ->%list_elem_of_singleton]%elem_of_app Hs.
      * specialize (F1 t s Hin Hs). destruct (decide (s0 = s)) as [<-|Hn]; [rewrite fn_lookup_insert; lia|by rewrite fn_lookup_insert_ne].
      * injection Hs as ->. rewrite fn_lookup_insert. cbn. lia.
    + intros s. destruct (decide (s0 = s)) as [<-|Hn].
      * rewrite fn_lookup_insert. destruct (Z.le_gt_cases p (f s0)) as [Hle|Hgt].
        -- right. exists (p, s0 :: ids). split; [apply elem_of_app; right; by apply list_elem_of_singleton|]. cbn. split; [done|lia].
        -- destruct (F2 s0) as [E|(t & H1 & H2 & H3)]; [left; lia|right]. exists t.
           split; [apply elem_of_app; by left|]. split; [done|lia].
      * rewrite fn_lookup_insert_ne by done. destruct (F2 s) as [->|(t & H1 & H2 & H3)]; [by left|right]. exists t.
        split; [apply elem_of_app; by left|done].
  - exists f. split; [exact Hrun|]. rewrite Z.add_0_l, take_ge in Hf by lia. exact Hf.
Qed.

(** The purge of one sequence, on a cell that is to go ([dies]) when its
    sequence's turn comes. *)
Section purge.
Context (f : Z → Z) (dies : kv_cell → bool) (L : list kv_cell).
Hypothesis Hf : ∀ s, 0 <= f s <= 2 ^ 31 - 1.
Hypothesis Hdies : ∀ c, dies c = true → ∃ s, c.(c_seq) = {[s]} ∧ f s <= c.(c_pos) < 2 ^ 31 - 1.
Hypothesis Hlives : ∀ c s, c ∈ L → dies c = false → s ∈ c.(c_seq) → c.(c_pos) < f s.

Definition gone (s : Z) (c : kv_cell) : kv_cell :=
  if dies c && (set_min c.(c_seq) (-1) <? s) then empty_cell else c.

Lemma set_min_singleton s : set_min {[s]} (-1) = s.
Proof. unfold set_min. by rewrite elements_singleton. Qed.

Lemma empty_lives : dies empty_cell = false.
Proof using Hdies.
  destruct (dies empty_cell) eqn:E; [|done]. destruct (Hdies _ E) as (s & Hs & _). cbn in Hs.
  exfalso. apply (not_elem_of_empty (C := gset Z) s). rewrite Hs. by apply elem_of_singleton.
Qed.

Lemma rm_cell_empty s p0 p1 : rm_cell s p0 p1 empty_cell = empty_cell.
Proof. unfold rm_cell. destruct (in_positions p0 p1 empty_cell) eqn:E; [|done]. by apply in_positions_used in E. Qed.

Lemma gone_step s c : c ∈ L → 0 <= s → rm_cell s (f s) (-1) (gone s c) = gone (s + 1) c.
Proof using Hf Hdies Hlives.
  intros HL Hs. pose proof (Hf s) as Hfs. unfold gone. destruct (dies c) eqn:Hd; cbn [andb].
  - destruct (Hdies c Hd) as (t & Ht & Hp). rewrite Ht, set_min_singleton.
    destruct (Z.ltb_spec t s), (Z.ltb_spec t (s + 1)); [apply rm_cell_empty|lia| |].
    + assert (t = s) as -> by lia. unfold rm_cell, in_positions, pos_begin, pos_end.
      rewrite (proj2 (Z.ltb_ge (f s) 0)), (proj2 (Z.leb_le (f s) _)) by lia. cbn [Z.ltb Z.compare].
      rewrite (proj2 (Z.ltb_lt _ _)) by lia. cbn [andb]. rewrite (proj2 (Z.leb_le 0 s)) by done.
      rewrite decide_True by (rewrite Ht; by apply elem_of_singleton). unfold cell_without. rewrite decide_True; [done|].
      rewrite Ht. apply leibniz_equiv, difference_diag.
    + unfold rm_cell. rewrite (proj2 (Z.leb_le 0 s)) by done. rewrite decide_False; [by destruct (in_positions _ _ _)|].
      rewrite Ht. intros ->%elem_of_singleton. lia.
  - unfold rm_cell, in_positions, pos_begin. rewrite (proj2 (Z.ltb_ge (f s) 0)), (proj2 (Z.leb_le 0 s)) by lia.
    destruct (Z.leb_spec (f s) c.(c_pos)); [|done]. destruct (_ && _); [|done]. rewrite decide_False; [done|].
    intros Hin. specialize (Hlives c s HL Hd Hin). lia.
Qed.

Lemma gone_skip s c : f s = 2 ^ 31 - 1 → gone (s + 1) c = gone s c.
Proof using Hdies.
  intros Hs. unfold gone. destruct (dies c) eqn:Hd; [|done]. cbn [andb]. destruct (Hdies c Hd) as (t & Ht & Hp).
  rewrite Ht, set_min_singleton. assert (t ≠ s) by (intros ->; lia).
  destruct (Z.ltb_spec t s), (Z.ltb_spec t (s + 1)); (done || lia).
Qed.

Lemma purge_all u : u.(cells).(cell_list) = L → cells_ok u.(cells) → positions_unique u.(cells) → 0 <= u.(head) <= cells_size u.(cells) →
  ∃ hd cs, ofold (λ s u, if f s =? 2 ^ 31 - 1 then Ok u else kv_seq_rm s (f s) (-1) u) (seqZ 0 LLAMA_MAX_SEQ) u
      = Ok (with_cells u hd cs) ∧ cells_ok cs ∧ positions_unique cs ∧ cs.(has_shift) = u.(cells).(has_shift) ∧
    cs.(cell_list) = (λ c, if dies c then empty_cell else c) <$> u.(cells).(cell_list) ∧ 0 <= hd <= cells_size cs.
Proof using Hf Hdies Hlives.
  intros HL Hok Hun Hhd.
  destruct (ofold_seqZ (λ s u', ∃ hd cs, u' = with_cells u hd cs ∧ cells_ok cs ∧ positions_unique cs ∧
      cs.(has_shift) = u.(cells).(has_shift) ∧ cs.(cell_list) = gone s <$> u.(cells).(cell_list) ∧ 0 <= hd <= cells_size cs)
    (λ s u, if f s =? 2 ^ 31 - 1 then Ok u else kv_seq_rm s (f s) (-1) u) 0 LLAMA_MAX_SEQ u) as (u' & Hrun & hd & cs & -> & Q).
  - done.
  - exists u.(head), u.(cells). split; [by destruct u|]. split; [done|]. split; [done|]. split; [done|]. split; [|done].
    symmetry. rewrite <- (list_fmap_id (cell_list (cells u))) at 2. apply list_fmap_ext. intros i c Hc. unfold gone. destruct (dies c) eqn:Hd; [|done].
    destruct (Hdies c Hd) as (t & Ht & _). rewrite Ht, set_min_singleton. rewrite (proj2 (Z.ltb_ge _ _)); [done|].
    apply (ck_seq _ Hok i c t Hc). rewrite Ht. by apply elem_of_singleton.
  - intros s u' Hs (hd & cs & -> & Q1 & Q2 & Q3 & Q4 & Q5). destruct (Z.eqb_spec (f s) (2 ^ 31 - 1)) as [He|He].
    + eexists. split; [done|]. exists hd, cs. split; [done|]. split; [done|]. split; [done|]. split; [done|]. split; [|done].
      rewrite Q4. apply list_fmap_ext. intros. symmetry. by apply gone_skip.
    + destruct (kv_seq_rm_run s (f s) (-1) (with_cells u hd cs)) as (hd' & cs' & -> & P1 & P2 & P3 & P4 & P5 & _); [lia|done|done|done|].
      cbn [cells with_cells head] in *. eexists. split; [done|]. exists hd', cs'. split; [done|]. split; [done|]. split; [done|].
      split; [congruence|]. split.
      * rewrite P3, Q4, <- list_fmap_compose. apply list_fmap_ext. intros i c Hc. apply gone_step; [rewrite <- HL; by eapply list_elem_of_lookup_2|lia].
      * unfold cells_size in *. rewrite P3, length_fmap. lia.
  - exists hd, cs. rewrite Hrun. destruct Q as (Q1 & Q2 & Q3 & Q4 & Q5). split; [done|]. split; [done|]. split; [done|]. split; [done|].
    split; [|done]. rewrite Q4. apply list_fmap_ext. intros i c Hc. unfold gone. destruct (dies c) eqn:Hd; [|done].
    destruct (Hdies c Hd) as (t & Ht & _). rewrite Ht, set_min_singleton. rewrite (proj2 (Z.ltb_lt _ _)); [done|].
    apply (ck_seq _ Hok i c t Hc). rewrite Ht. by apply elem_of_singleton.
Qed.
End purge.

End run.
