(* ===== verification/KvCopy.v ===== *)
(** The copies that write a piece into the cache: [cpy_k] and [cpy_v] of
    [src/llama-kv-cache-unified.cpp] choose a chunk, the OpenCL backend's
    [ggml_cl_cpy] ([ggml/src/ggml-opencl/ggml-opencl.cpp]) finds it in the chunk
    tables.  A piece that [decode_chunk_aligned] cuts fits its chunk when cells are
    filled in the order of positions.

    Values are not transposed; the bytes copied are those of the piece's keys and
    values after conversion to the type of the cache. *)
From S2P Require Import Prelude Floats KvTypes KvPlan KvLadder KvInv KvFrame KvGrow KvOffload KvSwapIn.
From S2P Require Import Weight Swapout Decode KvOps KvOpsThms KvCells KvCellsThms KvUnified KvUnifiedGrow KvSlots.
From S2P Require Import KvApply KvSeqOps KvStateRows KvSession KvBatch KvMask KvPrepare.

(** [last_chunk_idx] and the offset of the view; [None] is the null pointer
    returned when the rows leave the chunk. *)
Definition cpy_view (size_row n_tokens head_cur : Z) : Z * option Z :=
  let last_chunk_idx := Z.quot head_cur TOKENS_PER_CHUNK in
  let chunk_offset := Z.rem head_cur TOKENS_PER_CHUNK in
  (last_chunk_idx, if TOKENS_PER_CHUNK <? chunk_offset + n_tokens then None else Some (size_row * chunk_offset)).

Definition cpy_k (u : llama_kv_cache_unified) (l : kv_layer) (n_tokens head_cur : Z) : Z * option Z :=
  cpy_view (k_row u l) n_tokens head_cur.
Definition cpy_v (u : llama_kv_cache_unified) (l : kv_layer) (n_tokens head_cur : Z) : Z * option Z :=
  cpy_view (v_row u l) n_tokens head_cur.

(** [ggml_cl_cpy] into a view of a cache tensor. *)
Definition cl_cpy_cache (slot last_chunk_idx view_offs : Z) (data : list byte) (m : memory) : outcome memory :=
  p <~ svm_chunk_ptr m slot last_chunk_idx ;; store (ptr_add p view_offs) data m.

(** One layer of the graph; a null tensor in it is undefined. *)
Definition store_layer (u : llama_kv_cache_unified) (n_tokens head_cur : Z) (data : Z → list byte) (l : kv_layer)
    (m : memory) : outcome memory :=
  match cpy_k u l n_tokens head_cur, cpy_v u l n_tokens head_cur with
  | (_, Some ok), (last_chunk_idx, Some ov) =>
      m1 <~ cl_cpy_cache (2 * l.(il)) last_chunk_idx ok (data (2 * l.(il))) m ;;
      cl_cpy_cache (2 * l.(il) + 1) last_chunk_idx ov (data (2 * l.(il) + 1)) m1
  | _, _ => Ub
  end.

Definition store_piece (u : llama_kv_cache_unified) (n_tokens head_cur : Z) (data : Z → list byte) (m : memory)
    : outcome memory :=
  ofold (store_layer u n_tokens head_cur data) u.(layers) m.

(** ** One copy *)
Section store.
Context (slots n : Z) (row : Z → Z).

Lemma cl_cpy_flat m s hd t data : io_ok slots n row m → 0 <= s < slots → 0 <= hd → 0 < t →
  hd + t <= n * TOKENS_PER_CHUNK → Z.rem hd TOKENS_PER_CHUNK + t <= TOKENS_PER_CHUNK → Z.of_nat (length data) = t * row s →
  ∃ m', cl_cpy_cache s (Z.quot hd TOKENS_PER_CHUNK) (row s * Z.rem hd TOKENS_PER_CHUNK) data m = Ok m' ∧ same_layout m m' ∧
    flat row n m' s = write_at (hd * row s) data (flat row n m s) ∧
    ∀ s', 0 <= s' < slots → s' ≠ s → flat row n m' s' = flat row n m s'.
Proof.
  intros Hio Hs Hh Ht Hend Hfit Hlen. pose proof (io_n _ _ _ _ Hio) as Hn. pose proof (io_row _ _ _ _ Hio s Hs) as Hr.
  unfold cl_cpy_cache. rewrite Z.quot_div_nonneg, Z.rem_mod_nonneg in * by (unfold TOKENS_PER_CHUNK; lia).
  pose proof (Z.div_mod hd TOKENS_PER_CHUNK ltac:(unfold TOKENS_PER_CHUNK; lia)) as Hd.
  pose proof (Z.mod_pos_bound hd TOKENS_PER_CHUNK ltac:(unfold TOKENS_PER_CHUNK; lia)).
  assert (0 <= hd / TOKENS_PER_CHUNK < n) by (unfold TOKENS_PER_CHUNK in *; lia).
  rewrite svm_chunk_ptr_ok by lia. cbn [obind].
  destruct (store_flat slots n row m s (hd / TOKENS_PER_CHUNK) (row s * (hd mod TOKENS_PER_CHUNK)) data Hio Hs) as (m' & -> & Hsl & Hf & Ho).
  - lia.
  - nia.
  - rewrite Hlen. unfold TOKENS_PER_CHUNK in *. nia.
  - exists m'. split; [done|]. split; [done|]. split; [|done]. rewrite Hf. f_equal. unfold TOKENS_PER_CHUNK in *. nia.
Qed.
End store.

(** ** All layers *)
Section piece.
Context `{Cd : Codec} `{Ev : Env} (h : Z).
Local Abbreviation R := (λ _ : Z, row_len h).

Lemma half_rows u l : unified_ok h u → l ∈ u.(layers) →
  k_row u l = row_len h ∧ v_row u l = row_len h ∧ 0 <= l.(il) < n_layers u.
Proof.
  intros Hu Hl. destruct (uo_types _ _ Hu l Hl) as (Ek & Ev1 & Ehk & Ehv). unfold k_row, v_row, row_len. rewrite Ek, Ev1, Ehk, Ehv.
  unfold ggml_row_size, sizeof_fp16. cbn [ggml_type_size ggml_blck_size]. rewrite Z.div_1_r. split; [lia|]. split; [lia|].
  assert (Hin : l.(il) ∈ il <$> u.(layers)) by by apply list_elem_of_fmap_2.
  rewrite (uo_layers _ _ Hu), elem_of_seqZ in Hin. lia.
Qed.

Lemma store_layer_fits u t hd data l m : unified_ok h u → l ∈ u.(layers) → Z.rem hd TOKENS_PER_CHUNK + t <= TOKENS_PER_CHUNK →
  store_layer u t hd data l m =
    let cpy s := cl_cpy_cache s (Z.quot hd TOKENS_PER_CHUNK) (row_len h * Z.rem hd TOKENS_PER_CHUNK) (data s) in
    m1 <~ cpy (2 * l.(il)) m ;; cpy (2 * l.(il) + 1) m1.
Proof.
  intros Hu Hl Hfit. destruct (half_rows u l Hu Hl) as (Ek & Ev1 & _).
  unfold store_layer, cpy_k, cpy_v, cpy_view. by rewrite Ek, Ev1, (proj2 (Z.ltb_ge _ _)) by lia.
Qed.

(** The rows [hd, hd + t) of the slots of some layers are [data], all else is as
    in [m]. *)
Definition rows_stored (u : llama_kv_cache_unified) (hd : Z) (data : Z → list byte) (ils : list Z) (m m' : memory) : Prop :=
  same_layout m m' ∧ ∀ s, 0 <= s < 2 * n_layers u →
    flat R u.(n_chunks_alloc) m' s =
      if bool_decide (s / 2 ∈ ils) then write_at (hd * row_len h) (data s) (flat R u.(n_chunks_alloc) m s)
      else flat R u.(n_chunks_alloc) m s.

Lemma store_layers u t hd data : unified_ok h u → 0 <= hd → 0 < t → hd + t <= u.(n_chunks_alloc) * TOKENS_PER_CHUNK →
  Z.rem hd TOKENS_PER_CHUNK + t <= TOKENS_PER_CHUNK →
  (∀ s, 0 <= s < 2 * n_layers u → Z.of_nat (length (data s)) = t * row_len h) →
  ∀ ls m, (∀ l, l ∈ ls → l ∈ u.(layers)) → NoDup (il <$> ls) → io_ok (2 * n_layers u) u.(n_chunks_alloc) R m →
  ∃ m', ofold (store_layer u t hd data) ls m = Ok m' ∧ rows_stored u hd data (il <$> ls) m m'.
Proof.
  intros Hu Hh Ht Hend Hfit Hdata. induction ls as [|l ls IH]; intros m Hls Hnd Hio.
  { exists m. split; [done|]. split; [done|]. intros s _. by rewrite bool_decide_eq_false_2 by apply not_elem_of_nil. }
  destruct (half_rows u l Hu (Hls l (list_elem_of_here _ _))) as (Ek & Ev1 & Hil).
  cbn [ofold]. rewrite (store_layer_fits u t hd data l m Hu) by (done || apply Hls, list_elem_of_here). cbv zeta beta.
  destruct (cl_cpy_flat _ _ R m (2 * l.(il)) hd t (data (2 * l.(il))) Hio) as (m1 & -> & Hsl1 & Hf1 & Ho1); try done; [lia|apply Hdata; lia|].
  cbn [obind]. pose proof (same_layout_io _ _ _ _ _ Hsl1 Hio) as Hio1.
  destruct (cl_cpy_flat _ _ R m1 (2 * l.(il) + 1) hd t (data (2 * l.(il) + 1)) Hio1) as (m2 & -> & Hsl2 & Hf2 & Ho2); try done; [lia|apply Hdata; lia|].
  cbn [obind]. pose proof (same_layout_io _ _ _ _ _ Hsl2 Hio1) as Hio2. cbn [fmap list_fmap] in Hnd. apply NoDup_cons in Hnd as [Hni Hnd].
  destruct (IH m2 ltac:(intros; apply Hls; by right) Hnd Hio2) as (m3 & Hrun & Hsl3 & Hf3). exists m3. split; [exact Hrun|].
  split; [by do 2 (etrans; [eassumption|])|]. intros s Hs. rewrite Hf3 by done. cbn [fmap list_fmap].
  pose proof (Z.div_mod s 2 ltac:(lia)) as Hdm. pose proof (Z.mod_pos_bound s 2 ltac:(lia)).
  destruct (decide (s / 2 = l.(il))) as [E|Hne].
  - rewrite E, (bool_decide_eq_false_2 _ Hni), (bool_decide_eq_true_2 (il l ∈ il l :: _)) by apply list_elem_of_here.
    assert (s = 2 * l.(il) ∨ s = 2 * l.(il) + 1) as [->| ->] by lia.
    + rewrite Ho2 by lia. exact Hf1.
    + rewrite Hf2. f_equal. apply Ho1; lia.
  - replace (bool_decide (s / 2 ∈ il l :: (il <$> ls))) with (bool_decide (s / 2 ∈ il <$> ls))
      by (apply bool_decide_ext; rewrite elem_of_cons; tauto).
    rewrite Ho2, Ho1 by lia. done.
Qed.

Lemma store_piece_run u t hd data m : unified_ok h u → io_ok (2 * n_layers u) u.(n_chunks_alloc) R m → 0 <= hd → 0 < t →
  hd + t <= u.(n_chunks_alloc) * TOKENS_PER_CHUNK → Z.rem hd TOKENS_PER_CHUNK + t <= TOKENS_PER_CHUNK →
  (∀ s, 0 <= s < 2 * n_layers u → Z.of_nat (length (data s)) = t * row_len h) →
  ∃ m', store_piece u t hd data m = Ok m' ∧ same_layout m m' ∧ ∀ s, 0 <= s < 2 * n_layers u →
    flat R u.(n_chunks_alloc) m' s = write_at (hd * row_len h) (data s) (flat R u.(n_chunks_alloc) m s).
Proof.
  intros Hu Hio Hh Ht Hend Hfit Hdata.
  destruct (store_layers u t hd data Hu Hh Ht Hend Hfit Hdata u.(layers) m) as (m' & Hrun & Hsl & Hf); [done| |done|].
  { rewrite (uo_layers _ _ Hu). apply NoDup_seqZ. }
  exists m'. split; [exact Hrun|]. split; [done|]. intros s Hs. rewrite Hf by done. rewrite bool_decide_eq_true_2; [done|].
  rewrite (uo_layers _ _ Hu). apply elem_of_seqZ. pose proof (slot_half _ _ Hs). lia.
Qed.

(** Rows that leave their chunk. *)
Lemma store_piece_refused u t hd data m : unified_ok h u → TOKENS_PER_CHUNK < Z.rem hd TOKENS_PER_CHUNK + t →
  store_piece u t hd data m = Ub.
Proof.
  intros Hu Hov. unfold store_piece. destruct (layers u) as [|l ls] eqn:El.
  { pose proof (uo_n _ _ Hu) as Hn. unfold n_layers in Hn. rewrite El in Hn. cbn in Hn. lia. }
  cbn [ofold]. unfold store_layer, cpy_k, cpy_v, cpy_view. by rewrite (proj2 (Z.ltb_lt _ _)) by done.
Qed.

(** ** A cache filled in order *)

(** The first [a] cells are taken, the rest are empty and the head is at the
    first of these. *)
Definition filled_to (a : Z) (u : llama_kv_cache_unified) : Prop :=
  u.(head) = a ∧ 0 <= a <= cells_size u.(cells) ∧
  ∀ i c, 0 <= i → u.(cells).(cell_list) !! Z.to_nat i = Some c → if i <? a then c.(c_pos) ≠ -1 else c = empty_cell.

Lemma filled_used a u : cells_ok u.(cells) → filled_to a u → cells_get_used u.(cells) = a.
Proof.
  intros Hok (_ & Ha & Hc). unfold cells_get_used.
  assert (E : u.(cells).(used) = list_to_set (seqZ 0 a)).
  { apply set_eq. intros i. rewrite (ck_used _ Hok), elem_of_list_to_set, elem_of_seqZ. split.
    - intros (Hi & c & Hcell & Hp). specialize (Hc i c Hi Hcell). destruct (Z.ltb_spec i a); [lia|]. subst c. by destruct Hp.
    - intros Hi. split; [lia|]. destruct (cell_some u.(cells) i ltac:(lia)) as [c Hcell]. exists c. split; [done|].
      specialize (Hc i c ltac:(lia) Hcell). by rewrite (proj2 (Z.ltb_lt i a)) in Hc by lia. }
  rewrite E, size_list_to_set by apply NoDup_seqZ. rewrite length_seqZ. lia.
Qed.

Lemma first_taken_free u hd todo : ∀ i, 0 <= hd → 0 <= i → hd + i + Z.of_nat todo < 2 ^ 32 →
  (∀ j, i <= j < i + Z.of_nat todo → can_use u (hd + j) = Ok true) → first_taken u hd i todo = Ok None.
Proof.
  induction todo as [|todo IH]; intros i Hh Hi Hb Hf; [done|]. cbn [first_taken].
  rewrite u32_id, Hf by lia. cbn [obind]. apply IH; [lia|lia|lia|]. intros j Hj. apply Hf. lia.
Qed.

(** The slot of the next piece is at the head. *)
Lemma find_slot_filled a n u : cells_ok u.(cells) → filled_to a u → u.(swa_type) = SWA_NONE → 0 < n →
  a + n <= cells_size u.(cells) → cells_size u.(cells) < 2 ^ 29 → find_slot n u = Ok a.
Proof.
  intros Hok Hfil Hswa Hn Hfit Hsz. pose proof (filled_used a u Hok Hfil) as Hus. destruct Hfil as (Hhd & Ha & Hc).
  unfold find_slot. rewrite Hus, Hhd. rewrite (u32_id (2 * n)), u32_id, (proj2 (Z.ltb_ge (a + 2 * n) a)) by lia.
  rewrite (proj2 (Z.ltb_ge (cells_size _) n)) by lia.
  destruct (Z.to_nat (2 * cells_size (cells u) + 3)) as [|fuel] eqn:Ef; [lia|]. cbn [find_slot_loop].
  rewrite u32_id, (proj2 (Z.ltb_ge (cells_size _) (a + n))) by lia.
  rewrite first_taken_free; [cbn [obind]; by rewrite i32_id by lia|lia|lia|lia|].
  intros j Hj. destruct (cell_some u.(cells) (a + j) ltac:(lia)) as [c Hcell].
  specialize (Hc (a + j) c ltac:(lia) Hcell). rewrite (proj2 (Z.ltb_ge (a + j) a)) in Hc by lia. subst c.
  unfold can_use. rewrite (cells_is_empty_ok _ _ empty_cell Hok) by (done || lia). done.
Qed.

Lemma filled_next a n ub u u' : 0 < n → filled_to a u → placed a n ub u.(cells) u'.(cells) →
  (∀ i, 0 <= i < n → (token_cell ub i).(c_pos) ≠ -1) → a + n <= cells_size u.(cells) → u'.(head) = a + n → filled_to (a + n) u'.
Proof.
  intros Hn (_ & Ha & Hc) (_ & Hlen & _ & Hcl) Htok Hfit Hh. split; [done|]. split; [unfold cells_size in *; rewrite Hlen; lia|].
  intros i c Hi Hic. rewrite Hcl in Hic by done. destruct (Z.leb_spec a i), (Z.ltb_spec i (a + n)); cbn [andb] in Hic; try lia.
  - injection Hic as <-. apply Htok. lia.
  - specialize (Hc i c Hi Hic). by rewrite (proj2 (Z.ltb_ge i a)) in Hc by lia.
  - specialize (Hc i c Hi Hic). by rewrite (proj2 (Z.ltb_lt i a)) in Hc by lia.
Qed.

End piece.
