(* ===== verification/KvDefrag.v ===== *)
(** Defragmentation of the unified KV cache: deciding it ([init_update]), planning
    the moves ([defrag_prepare]) and applying them ([update],
    [build_graph_defrag]), of [src/llama-kv-cache-unified.cpp].

    The graph is the list of copies it issues (those of flash attention, with
    values not transposed); a view past the tensor it views fails an assertion of
    ggml.  A copy does what [ggml_cpy] documents; the OpenCL backend refuses it,
    since a cache tensor there has no [extra].  The K-shift graph is only the view
    it takes of the keys. *)
From S2P Require Import Prelude Floats KvTypes KvLadder KvGrow KvOffload KvSwapIn Weight Swapout.
From S2P Require Import KvOps KvCells KvUnified KvBatch.

(** ** Planning *)

(** [ids[i]]. *)
Definition id_at (ids : list Z) (i : Z) : outcome Z :=
  if 0 <=? i then match ids !! Z.to_nat i with Some d => Ok d | None => Ub end else Ub.

Section prepare.
Context (cs : llama_kv_cells_unified) (n_kv n_used max_moves : Z).

(** [cells.is_empty(i) || ids[i] != n_kv]. *)
Definition not_movable (ids : list Z) (i : Z) : outcome bool :=
  e <~ cells_is_empty cs i ;;
  if e : bool then Ok true else d <~ id_at ids i ;; Ok (negb (d =? n_kv)).

(** The size of the hole at [i0]. *)
Fixpoint hole_size (fuel : nat) (i0 nh : Z) : outcome Z :=
  match fuel with
  | O => Ub
  | S fuel =>
      if i0 + nh <? n_used
      then e <~ cells_is_empty cs (i0 + nh) ;; if e : bool then hole_size fuel i0 (nh + 1) else Ok nh
      else Ok nh
  end.

(** From the end, find [nh] cells to move: [nf] and [is]. *)
Fixpoint find_tail (fuel : nat) (ids : list Z) (i0 nh nf is_ : Z) : outcome (Z * Z) :=
  match fuel with
  | O => Ub
  | S fuel =>
      if i0 <? is_ then
        skip <~ not_movable ids is_ ;;
        if skip : bool then find_tail fuel ids i0 nh nf (is_ - 1)
        else if nf + 1 =? nh then Ok (nf + 1, is_) else find_tail fuel ids i0 nh (nf + 1) (is_ - 1)
      else Ok (nf, is_)
  end.

(** Go back and move them to the hole; the flag is [stop]. *)
Fixpoint move_tail (fuel : nat) (i0 nh i1 nf : Z) (cont : bool) (ids : list Z) (n_moves : Z)
    : outcome (bool * list Z * Z) :=
  match fuel with
  | O => Ub
  | S fuel =>
      if i1 <? n_kv then
        skip <~ not_movable ids i1 ;;
        if skip : bool then
          if n_moves =? max_moves then Ok (true, ids, n_moves)
          else move_tail fuel i0 nh (i1 + 1) nf false ids n_moves
        else
          let ids' := <[Z.to_nat i1 := i0 + nf]> ids in
          let n_moves' := if cont then n_moves else n_moves + 1 in
          if nf + 1 =? nh then Ok (false, ids', n_moves')
          else move_tail fuel i0 nh (i1 + 1) (nf + 1) true ids' n_moves'
      else Ok (false, ids, n_moves)
  end.

Fixpoint defrag_loop (fuel : nat) (i0 : Z) (ids : list Z) (n_moves : Z) : outcome (list Z * Z) :=
  match fuel with
  | O => Ub
  | S fuel =>
      if i0 <? n_used then
        e <~ cells_is_empty cs i0 ;;
        if negb e then defrag_loop fuel (i0 + 1) (<[Z.to_nat i0 := i0]> ids) n_moves
        else
          nh <~ hole_size (S (Z.to_nat n_used)) i0 1 ;;
          '(nf, is_) <~ find_tail (S (Z.to_nat n_kv)) ids i0 nh 0 (n_kv - 1) ;;
          _ <~ assert_that (nf =? nh) ;;
          '(stop, ids', n_moves') <~ move_tail (S (Z.to_nat n_kv)) i0 nh is_ 0 false ids n_moves ;;
          if stop || (n_moves' =? max_moves) then Ok (ids', n_moves')
          else defrag_loop fuel (i0 + (nh - 1) + 1) ids' n_moves'
      else Ok (ids, n_moves)
  end.
End prepare.

(** The most moves one graph has room for; a division by 0 is undefined. *)
Definition defrag_max_moves (n_layer n_max_nodes : Z) : outcome Z :=
  _ <~ assert_that (negb (u32 (6 * n_layer) =? 0)) ;;
  Ok (u32 (n_max_nodes - 2 * n_layer) / u32 (6 * n_layer)).

(** [ids] of the result, empty for an empty [defrag_info]. *)
Definition defrag_prepare (n_max_nodes : Z) (u : llama_kv_cache_unified) : outcome (list Z) :=
  let n_layer := Z.of_nat (length u.(layers)) in
  let n_kv := cells_used_max_p1 u.(cells) in
  let n_used := cells_get_used u.(cells) in
  _ <~ assert_that (n_used <=? n_kv) ;;
  max_moves <~ defrag_max_moves n_layer n_max_nodes ;;
  '(ids, n_moves) <~ defrag_loop u.(cells) n_kv n_used max_moves (S (Z.to_nat n_used)) 0
                       (replicate (Z.to_nat n_kv) n_kv) 0 ;;
  Ok (if n_moves =? 0 then [] else ids).

(** ** Deciding *)

Definition f32_max (a b : float) : float := if SFltb a b then b else a.

Definition fragmentation (u : llama_kv_cache_unified) : float :=
  let n_kv := cells_used_max_p1 u.(cells) in
  if 2048 <=? n_kv
  then f32_max f32_zero (f32_sub f32_one
         (f32_div (f32_of_Z (u32 (cells_get_used u.(cells) + u.(n_pad)))) (f32_of_Z n_kv)))
  else f32_zero.

(** [do_shift] and [dinfo] of the context, and its status. *)
Definition init_update (n_max_nodes : Z) (defrag_thold : float) (optimize : bool) (u : llama_kv_cache_unified)
    : outcome (bool * list Z * llama_memory_status) :=
  let do_shift := u.(cells).(has_shift) in
  let do_defrag := if negb optimize && SFltb f32_zero defrag_thold
                   then SFltb defrag_thold (fragmentation u) else optimize in
  ids <~ (if do_defrag then defrag_prepare n_max_nodes u else Ok []) ;;
  Ok (do_shift, ids, if negb do_shift && bool_decide (ids = []) then LLAMA_MEMORY_STATUS_NO_UPDATE
                     else LLAMA_MEMORY_STATUS_SUCCESS).

(** ** Applying *)

(** Rows [src, src + n) of a layer's keys or values are copied to [dst]. *)
Record graph_copy := GraphCopy { gc_layer : Z; gc_v : bool; gc_src : Z; gc_dst : Z; gc_n : Z }.

(** The number of cells that move along with cell [i]. *)
Fixpoint run_length (fuel : nat) (ids : list Z) (i id nm : Z) : outcome Z :=
  match fuel with
  | O => Ub
  | S fuel =>
      if i + nm <? Z.of_nat (length ids)
      then d <~ id_at ids (i + nm) ;; if d =? id + nm then run_length fuel ids i id (nm + 1) else Ok nm
      else Ok nm
  end.

(** [ggml_view_2d] of [nm] rows at row [i] of a base tensor. *)
Definition view_fits (t : ggml_type) (n_embd nm i : Z) : outcome unit :=
  assert_that (ggml_row_size t n_embd * nm + ggml_row_size t (n_embd * i)
               <=? ggml_row_size t n_embd * TOKENS_PER_CHUNK).

(** The copies of one layer (values not transposed). *)
Definition layer_copies (u : llama_kv_cache_unified) (i id nm : Z) (l : kv_layer) : outcome (list graph_copy) :=
  _ <~ view_fits l.(k_type) (u.(n_embd_k_gqa) l.(il)) nm i ;;
  _ <~ view_fits l.(k_type) (u.(n_embd_k_gqa) l.(il)) nm id ;;
  _ <~ view_fits l.(v_type) (u.(n_embd_v_gqa) l.(il)) nm i ;;
  _ <~ view_fits l.(v_type) (u.(n_embd_v_gqa) l.(il)) nm id ;;
  Ok [GraphCopy l.(il) false i id nm; GraphCopy l.(il) true i id nm].

(** The loop over [ids]. *)
Fixpoint build_graph_defrag (fuel : nat) (u : llama_kv_cache_unified) (ids : list Z) (i : Z)
    : outcome (list graph_copy) :=
  let n := Z.of_nat (length ids) in
  match fuel with
  | O => Ub
  | S fuel =>
      if i <? n then
        id <~ id_at ids i ;;
        if (i =? id) || (id =? n) then build_graph_defrag fuel u ids (i + 1)
        else
          nm <~ run_length (S (length ids)) ids i id 1 ;;
          here <~ otraverse (layer_copies u i id nm) u.(layers) ;;
          rest <~ build_graph_defrag fuel u ids (i + (nm - 1) + 1) ;;
          Ok (concat here ++ rest)
      else Ok []
  end.

(** The moves of the cells. *)
Definition apply_move (ids : list Z) (i : Z) (cs : llama_kv_cells_unified) : outcome llama_kv_cells_unified :=
  let n_kv := Z.of_nat (length ids) in
  d <~ id_at ids i ;;
  _ <~ assert_that (d <=? n_kv) ;;
  if (d =? n_kv) || (d =? i) then Ok cs else cells_mv i d cs.

Definition apply_moves (ids : list Z) (cs : llama_kv_cells_unified) : outcome llama_kv_cells_unified :=
  ofold (apply_move ids) (seqZ 0 (Z.of_nat (length ids))) cs.

(** The K-shift graph views [cells.size()] rows of every base tensor. *)
Definition shift_views (u : llama_kv_cache_unified) : outcome unit :=
  _ <~ otraverse (λ l, view_fits l.(k_type) (u.(n_embd_k_gqa) l.(il)) (cells_size u.(cells)) 0) u.(layers) ;; Ok tt.

(** [update]: the flag it returns, the cache and the copies of the graph when it
    is computed.  [rope] tells whether the model has rotary positions,
    [shifted] and [defragged] whether the two graphs can be allocated and
    computed. *)
Definition update (rope shifted defragged do_shift : bool) (ids : list Z) (u : llama_kv_cache_unified)
    : outcome (bool * llama_kv_cache_unified * list graph_copy) :=
  _ <~ (if do_shift && rope then shift_views u else Ok tt) ;;
  if do_shift && rope && negb shifted then Ok (false, u, [])
  else
    let updated := do_shift && rope in
    let u1 := if do_shift then with_cells u u.(head) (cells_reset_shift u.(cells)) else u in
    if bool_decide (ids = []) then Ok (updated, u1, [])
    else
      cs <~ apply_moves ids u1.(cells) ;;
      let u2 := with_cells u1 0 cs in
      copies <~ build_graph_defrag (S (length ids)) u2 ids 0 ;;
      if defragged then Ok (true, u2, copies) else Ok (updated, u2, []).

(** What the copies do to the rows of the layers' keys and values. *)
Definition copy_rows {A} (c : graph_copy) (rows : Z → bool → Z → A) : Z → bool → Z → A :=
  λ l v j, if (l =? c.(gc_layer)) && Bool.eqb v c.(gc_v) && (c.(gc_dst) <=? j) && (j <? c.(gc_dst) + c.(gc_n))
           then rows l v (c.(gc_src) + (j - c.(gc_dst))) else rows l v j.

Definition copies_run {A} (l : list graph_copy) (rows : Z → bool → Z → A) : Z → bool → Z → A :=
  foldl (λ r c, copy_rows c r) rows l.
