(* ===== verification/KvDefragPlan.v ===== *)
(** The plan of a defragmentation ([defrag_prepare]): every move goes from behind
    the first [n_used] cells into a hole among them, and the moves fit one
    graph. *)
From S2P Require Import Prelude Floats KvTypes KvLadder KvGrow KvOffload KvSwapIn Weight Swapout.
From S2P Require Import KvOps KvCells KvCellsThms KvUnified KvUnifiedGrow KvSlots KvApply KvSeqOps KvBatch KvMask KvDefrag.

(** ** Counting below a bound *)

Definition count (P : Z → bool) (b : Z) : Z := sum_to (λ i, if P i then 1 else 0) (Z.to_nat b).

Lemma count_0 P : count P 0 = 0.
Proof. done. Qed.

Lemma count_S P b : 0 <= b → count P (b + 1) = count P b + (if P b then 1 else 0).
Proof.
  intros Hb. unfold count. replace (Z.to_nat (b + 1)) with (S (Z.to_nat b)) by lia. cbn [sum_to].
  by rewrite Z2Nat.id by done.
Qed.

Lemma count_ind (R : Z → Prop) a : (R a) → (∀ b, a <= b → R b → R (b + 1)) → ∀ b, a <= b → R b.
Proof.
  intros H0 HS b Hb. replace b with (a + Z.of_nat (Z.to_nat (b - a))) by lia.
  induction (Z.to_nat (b - a)) as [|n IH]; [by rewrite Z.add_0_r|].
  rewrite Nat2Z.inj_succ. replace (a + Z.succ (Z.of_nat n)) with (a + Z.of_nat n + 1) by lia. apply HS; [lia|done].
Qed.

Lemma count_between P a b : 0 <= a <= b → count P a <= count P b <= count P a + (b - a).
Proof.
  intros [Ha Hb]. revert b Hb. apply count_ind; [lia|]. intros b Hb IH. rewrite count_S by lia. destruct (P b); lia.
Qed.

Lemma count_ext P Q a b : 0 <= a <= b → (∀ j, a <= j < b → P j = Q j) →
  count P b - count P a = count Q b - count Q a.
Proof.
  intros [Ha Hb]. revert b Hb. apply (count_ind (λ b, _ → _)); [lia|]. intros b Hb IH H.
  rewrite !count_S by lia. rewrite (H b) by lia. specialize (IH (λ j Hj, H j ltac:(lia))). destruct (Q b); lia.
Qed.

Lemma count_none P a b : 0 <= a <= b → (∀ j, a <= j < b → P j = false) → count P b = count P a.
Proof.
  intros Hab H.
  pose proof (count_ext P (λ _, false) a b Hab H) as E.
  assert (Z0 : ∀ n, 0 <= n → count (λ _, false) n = 0).
  { apply count_ind; [done|]. intros n Hn IH. rewrite count_S by done. lia. }
  rewrite !Z0 in E by lia. lia.
Qed.

Lemma count_nothing P a b j : 0 <= a → a <= j < b → count P b = count P a → P j = false.
Proof.
  intros Ha Hj E. pose proof (count_between P a j ltac:(lia)). pose proof (count_between P (j + 1) b ltac:(lia)).
  pose proof (count_S P j ltac:(lia)). destruct (P j); [lia|done].
Qed.

Lemma count_mono P Q a b : 0 <= a <= b → (∀ j, a <= j < b → P j = true → Q j = true) →
  count P b - count P a <= count Q b - count Q a.
Proof.
  intros [Ha Hb] H. revert b Hb H. refine (count_ind (λ b, _ → count P b - count P a <= count Q b - count Q a) a _ _); [lia|].
  intros b Hb IH H. rewrite !(count_S _ b) by lia. specialize (IH ltac:(intros; apply H; [lia|done])).
  specialize (H b ltac:(lia)). destruct (P b); [rewrite H by done; lia|destruct (Q b); lia].
Qed.

Lemma count_flip P Q i n : 0 <= i < n → (∀ j, 0 <= j → j ≠ i → P j = Q j) →
  count P n = count Q n - (if Q i then 1 else 0) + (if P i then 1 else 0).
Proof.
  intros Hi H. pose proof (count_ext P Q 0 i ltac:(lia) ltac:(intros; apply H; lia)) as E1.
  pose proof (count_ext P Q (i + 1) n ltac:(lia) ltac:(intros; apply H; lia)) as E2.
  rewrite !count_0 in E1. rewrite !(count_S _ i) in E2 by lia. lia.
Qed.

(** Counts tell apart the elements of the predicate. *)
Lemma count_inj P i j : 0 <= i → 0 <= j → P i = true → P j = true → count P i = count P j → i = j.
Proof.
  intros Hi Hj Pi Pj E. pose proof (count_S P i Hi) as Ei. pose proof (count_S P j Hj) as Ej. rewrite Pi in Ei. rewrite Pj in Ej.
  destruct (Z.lt_trichotomy i j) as [H|[H|H]]; [|done|].
  - pose proof (count_between P (i + 1) j ltac:(lia)). lia.
  - pose proof (count_between P (j + 1) i ltac:(lia)). lia.
Qed.

Lemma size_count (X : gset Z) (P : Z → bool) n : 0 <= n → (∀ i : Z, i ∈ X ↔ 0 <= i < n ∧ P i = true) →
  Z.of_nat (size X) = count P n.
Proof.
  intros Hn. revert n Hn X. apply (count_ind (λ n, ∀ X : gset Z, _ → _)).
  - intros X HX. assert (X = ∅) as -> by (apply set_eq; intros i; rewrite HX; split; [lia|by intros ?%elem_of_empty]).
    by rewrite size_empty.
  - intros n Hn IH X HX. rewrite count_S by done. specialize (IH (X ∖ {[n]})).
    destruct (P n) eqn:E.
    + rewrite <- IH. 2: { intros i. rewrite elem_of_difference, HX, elem_of_singleton. intuition lia. }
      assert (n ∈ X) by (apply HX; split; [lia|done]).
      rewrite size_difference by (by apply singleton_subseteq_l). rewrite size_singleton.
      assert (size X ≠ 0%nat); [|lia]. intros ->%size_empty_inv%leibniz_equiv. by apply elem_of_empty in H.
    + rewrite <- IH; [|intros i; rewrite elem_of_difference, HX, elem_of_singleton].
      * replace (X ∖ {[n]}) with X; [lia|]. apply set_eq. intros i. rewrite elem_of_difference, elem_of_singleton.
        split; [|tauto]. intros Hi. split; [done|]. intros ->. apply HX in Hi as [_ Hi]. congruence.
      * split; [intros [[? ?] ?]; split; [lia|done]|intros [? ?]]. split; [split; [lia|done]|lia].
Qed.

(** ** The searches of the plan *)

(** Cell [j] is used. *)
Definition used_at (cs : llama_kv_cells_unified) (j : Z) : bool :=
  match cs.(cell_list) !! Z.to_nat j with Some c => negb (c.(c_pos) =? -1) | None => false end.

Section plan.
Context (cs : llama_kv_cells_unified) (Hok : cells_ok cs).
Context (N U mx : Z) (HN : 0 <= N <= cells_size cs).

(** Cell [j] is used and has no destination yet. *)
Definition free_at (ids : list Z) (j : Z) : bool := used_at cs j && bool_decide (ids !! Z.to_nat j = Some N).

Lemma is_empty_at i : 0 <= i < cells_size cs → cells_is_empty cs i = Ok (negb (used_at cs i)).
Proof.
  intros Hi. destruct (cell_some cs i Hi) as [c Hc]. rewrite (cells_is_empty_ok cs i c) by (done || lia).
  unfold used_at. rewrite Hc. by rewrite negb_involutive.
Qed.

Lemma id_at_some ids i d : 0 <= i → ids !! Z.to_nat i = Some d → id_at ids i = Ok d.
Proof. intros Hi Hd. unfold id_at. by rewrite (proj2 (Z.leb_le 0 i)), Hd by done. Qed.

Lemma not_movable_at ids i : 0 <= i < N → Z.of_nat (length ids) = N → not_movable cs N ids i = Ok (negb (free_at ids i)).
Proof.
  intros Hi Hl. unfold not_movable, free_at. rewrite is_empty_at by lia. cbn [obind].
  destruct (used_at cs i); [|done]. cbn [negb andb].
  destruct (lookup_lt_is_Some_2 ids (Z.to_nat i) ltac:(lia)) as [d Hd]. rewrite (id_at_some _ _ d), Hd by (done || lia).
  cbn [obind]. f_equal. f_equal. case_bool_decide as E; [injection E as ->; lia|].
  apply Z.eqb_neq. congruence.
Qed.

Lemma hole_size_spec fuel i0 : ∀ nh, 0 <= i0 → 1 <= nh → i0 + nh <= U → U <= cells_size cs →
  U - i0 - nh < Z.of_nat fuel → (∀ j, i0 <= j < i0 + nh → used_at cs j = false) →
  ∃ nh', hole_size cs U fuel i0 nh = Ok nh' ∧ nh <= nh' ∧ i0 + nh' <= U ∧ ∀ j, i0 <= j < i0 + nh' → used_at cs j = false.
Proof.
  induction fuel as [|fuel IH]; intros nh Hi Hn HU Hs Hf He; [lia|]. cbn [hole_size].
  destruct (Z.ltb_spec (i0 + nh) U) as [Hlt|Hge]; [|by exists nh].
  rewrite is_empty_at by lia. cbn [obind]. destruct (used_at cs (i0 + nh)) eqn:E; cbn [negb]; [by exists nh|].
  destruct (IH (nh + 1)) as (nh' & -> & ? & ? & ?); try lia.
  - intros j Hj. destruct (decide (j = i0 + nh)) as [->|]; [done|]. apply He. lia.
  - exists nh'. repeat split; [lia|lia|done].
Qed.

Lemma find_tail_spec ids i0 nh fuel : ∀ nf i, 0 <= i0 → i0 <= i < N → Z.of_nat (length ids) = N →
  i - i0 < Z.of_nat fuel → nf < nh →
  nh - nf <= count (free_at ids) (i + 1) - count (free_at ids) (i0 + 1) →
  ∃ i', find_tail cs N fuel ids i0 nh nf i = Ok (nh, i') ∧ i0 < i' <= i ∧ free_at ids i' = true ∧
    count (free_at ids) (i + 1) - count (free_at ids) i' = nh - nf.
Proof.
  induction fuel as [|fuel IH]; intros nf i Hi0 Hi Hl Hf Hn Hc; [lia|]. cbn [find_tail].
  destruct (Z.ltb_spec i0 i) as [Hlt|Hge]; [|replace i with i0 in Hc by lia; lia].
  rewrite not_movable_at by (done || lia). cbn [obind].
  pose proof (count_S (free_at ids) i ltac:(lia)) as HS.
  destruct (free_at ids i) eqn:E; cbn [negb].
  - destruct (Z.eqb_spec (nf + 1) nh) as [<-|Hne].
    + exists i. repeat split; [lia|lia|done|lia].
    + destruct (IH (nf + 1) (i - 1)) as (i' & -> & ? & ? & HC); try lia; [by rewrite Z.sub_add; lia|].
      rewrite Z.sub_add in HC. exists i'. repeat split; [lia|lia|done|lia].
  - destruct (IH nf (i - 1)) as (i' & -> & ? & ? & HC); try lia; [by rewrite Z.sub_add; lia|].
    rewrite Z.sub_add in HC. exists i'. repeat split; [lia|lia|done|lia].
Qed.

(** Cell [j] has a destination other than itself. *)
Definition moved_at (ids : list Z) (j : Z) : bool :=
  match ids !! Z.to_nat j with Some d => negb (d =? N) && negb (d =? j) | None => false end.

(** Cell [j] is the first of a block of cells that move together. *)
Definition starts_at (ids : list Z) (j : Z) : bool :=
  moved_at ids j &&
  negb ((0 <? j) && moved_at ids (j - 1) && bool_decide (ids !! Z.to_nat j = Z.succ <$> ids !! Z.to_nat (j - 1))).

Lemma moved_insert ids i v j : 0 <= i → 0 <= j → j ≠ i → moved_at (<[Z.to_nat i := v]> ids) j = moved_at ids j.
Proof. intros. unfold moved_at. by rewrite list_lookup_insert_ne by lia. Qed.

(** A destination for one more cell adds at most one block, none when it
    continues the block of the cell before. *)
Lemma starts_insert ids i v : 0 <= i < N → Z.of_nat (length ids) = N → ids !! Z.to_nat i = Some N →
  count (starts_at (<[Z.to_nat i := v]> ids)) N <=
    count (starts_at ids) N + (if (0 <? i) && moved_at ids (i - 1) && bool_decide (Some v = Z.succ <$> ids !! Z.to_nat (i - 1))
                               then 0 else 1).
Proof.
  intros Hi Hl Hn. set (ids' := <[Z.to_nat i := v]> ids). set (b := (if ((0 <? i) && _ && _) then 0 else 1)).
  assert (Hmi : moved_at ids i = false). { unfold moved_at. rewrite Hn. by rewrite Z.eqb_refl. }
  assert (Hlow : count (starts_at ids') i = count (starts_at ids) i).
  { pose proof (count_ext (starts_at ids') (starts_at ids) 0 i ltac:(lia)) as E. rewrite !count_0 in E.
    rewrite <- (Z.sub_0_r (count _ i)), E, Z.sub_0_r; [done|]. intros j Hj. unfold starts_at, ids'.
    rewrite !list_lookup_insert_ne by lia. rewrite moved_insert by lia.
    destruct (Z.ltb_spec 0 j); [|done]. by rewrite moved_insert by lia. }
  assert (Hat : (if starts_at ids' i then 1 else 0) <= b).
  { unfold b. destruct ((0 <? i) && _ && _) eqn:E; [|by destruct (starts_at ids' i)]. apply andb_prop in E as [E E3].
    apply andb_prop in E as [E1 E2]. pose proof (proj1 (Z.ltb_lt _ _) E1). unfold starts_at, ids'. rewrite list_lookup_insert_eq by lia.
    rewrite list_lookup_insert_ne by lia. rewrite (moved_insert ids i v (i - 1)) by lia.
    rewrite E1, E2, E3. cbn. by rewrite andb_false_r. }
  assert (Hi1 : starts_at ids i = false) by (unfold starts_at; by rewrite Hmi).
  destruct (decide (i + 1 = N)) as [<-|Hne].
  - rewrite !count_S, Hlow, Hi1 by lia. lia.
  - assert (Hhi : ∀ j, i + 1 <= j < N → starts_at ids' j = true → starts_at ids j = true).
    { intros j Hj. unfold starts_at, ids'. rewrite !(list_lookup_insert_ne _ _ (Z.to_nat j)) by lia.
      rewrite (moved_insert _ _ _ j) by lia. intros [-> H]%andb_prop. cbn [andb].
      destruct (decide (j = i + 1)) as [->|]; [|rewrite !list_lookup_insert_ne, moved_insert in H by lia; done].
      replace (i + 1 - 1) with i by lia. rewrite Hmi. by rewrite andb_false_r. }
    assert (Hcnt : ∀ c, i + 1 <= c → c <= N → count (starts_at ids') c - count (starts_at ids') (i + 1) <=
                     count (starts_at ids) c - count (starts_at ids) (i + 1)).
    { intros c Hc. revert c Hc. refine (count_ind (λ c, c <= N → count (starts_at ids') c - count (starts_at ids') (i + 1) <=
        count (starts_at ids) c - count (starts_at ids) (i + 1)) (i + 1) _ _); [cbn beta; intros; lia|].
      intros c Hc IH Hle. rewrite !(count_S _ c) by lia.
      specialize (Hhi c ltac:(lia)). specialize (IH ltac:(lia)).
      destruct (starts_at ids' c); [rewrite Hhi by done; lia|destruct (starts_at ids c); lia]. }
    specialize (Hcnt N ltac:(lia) ltac:(lia)). rewrite !(count_S _ i), Hlow, Hi1 in Hcnt by lia. lia.
Qed.

Lemma free_insert ids i v j : 0 <= i → 0 <= j → j ≠ i → free_at (<[Z.to_nat i := v]> ids) j = free_at ids j.
Proof. intros. unfold free_at. by rewrite list_lookup_insert_ne by lia. Qed.

Lemma free_id ids i : free_at ids i = true → used_at cs i = true ∧ ids !! Z.to_nat i = Some N.
Proof. unfold free_at. intros [H1 H2%bool_decide_eq_true]%andb_prop. done. Qed.

Lemma moved_count ids i v : 0 <= i < N → Z.of_nat (length ids) = N → ids !! Z.to_nat i = Some N → v ≠ N → v ≠ i →
  count (moved_at (<[Z.to_nat i := v]> ids)) N = count (moved_at ids) N + 1.
Proof.
  intros Hi Hl Hn HvN Hvi. rewrite (count_flip _ (moved_at ids) i) by (done || intros; apply moved_insert; lia).
  unfold moved_at at 2 3. rewrite Hn, list_lookup_insert_eq by lia. rewrite Z.eqb_refl. cbn.
  rewrite (proj2 (Z.eqb_neq v N)), (proj2 (Z.eqb_neq v i)) by done. cbn. lia.
Qed.

(** What [move_tail] does to the cells from [i1] on: those that are free, up to
    some [s], get consecutive destinations. *)
Definition tail_moved (ids ids' : list Z) (i1 d s : Z) : Prop :=
  length ids' = length ids ∧ i1 <= s <= N ∧
  ∀ j, 0 <= j < N → ids' !! Z.to_nat j =
    if (i1 <=? j) && (j <? s) && free_at ids j
    then Some (d + (count (free_at ids) j - count (free_at ids) i1)) else ids !! Z.to_nat j.

Lemma tail_moved_skip ids ids' i1 d s : 0 <= i1 → free_at ids i1 = false →
  tail_moved ids ids' (i1 + 1) d s → tail_moved ids ids' i1 d s.
Proof.
  intros Hi Hf (Hl & Hs & H). split; [done|]. split; [lia|]. intros j Hj. rewrite (H j Hj).
  rewrite (count_S _ i1), Hf, Z.add_0_r by lia. destruct (decide (j = i1)) as [->|].
  - rewrite Hf, !andb_false_r. done.
  - replace (i1 + 1 <=? j) with (i1 <=? j); [done|]. destruct (Z.leb_spec i1 j), (Z.leb_spec (i1 + 1) j); lia || done.
Qed.

Lemma tail_moved_put ids ids' i1 d s : 0 <= i1 < N → Z.of_nat (length ids) = N → free_at ids i1 = true →
  tail_moved (<[Z.to_nat i1 := d]> ids) ids' (i1 + 1) (d + 1) s → tail_moved ids ids' i1 d s.
Proof.
  intros Hi HL Hf (Hl & Hs & H). rewrite length_insert in Hl. split; [done|]. split; [lia|]. intros j Hj. rewrite (H j Hj).
  destruct (decide (j = i1)) as [->|Hne].
  - rewrite (proj2 (Z.leb_gt (i1 + 1) i1)), (proj2 (Z.leb_le i1 i1)), (proj2 (Z.ltb_lt i1 s)), Hf by lia. cbn [andb].
    rewrite list_lookup_insert_eq by lia. f_equal. lia.
  - rewrite free_insert, list_lookup_insert_ne by lia.
    replace (i1 + 1 <=? j) with (i1 <=? j) by (destruct (Z.leb_spec i1 j), (Z.leb_spec (i1 + 1) j); lia || done).
    destruct ((i1 <=? j) && (j <? s) && free_at ids j) eqn:E; [|done]. f_equal. propify.
    pose proof (count_ext (free_at (<[Z.to_nat i1 := d]> ids)) (free_at ids) (i1 + 1) j ltac:(lia)) as ->.
    + rewrite (count_S _ i1), Hf by lia. lia.
    + intros k Hk. apply free_insert; lia.
Qed.

Lemma move_tail_spec i0 nh fuel : ∀ i1 nf cont ids nm,
  0 <= i0 → 0 <= nf < nh → i0 + nh <= i1 <= N → Z.of_nat (length ids) = N → N - i1 < Z.of_nat fuel →
  count (free_at ids) N - count (free_at ids) i1 = nh - nf →
  (cont = true → moved_at ids (i1 - 1) = true ∧ ids !! Z.to_nat (i1 - 1) = Some (i0 + nf - 1)) →
  nm <= mx → (cont = false → nm < mx) →
  ∃ stop ids' nm' s, move_tail cs N mx fuel i0 nh i1 nf cont ids nm = Ok (stop, ids', nm') ∧
    tail_moved ids ids' i1 (i0 + nf) s ∧
    (if stop : bool then nm' = mx else count (free_at ids) N = count (free_at ids) s) ∧
    nm <= nm' <= mx ∧ (cont = false → free_at ids i1 = true → nm < nm') ∧
    count (starts_at ids') N - count (starts_at ids) N <= nm' - nm <= count (moved_at ids') N - count (moved_at ids) N.
Proof.
  induction fuel as [|fuel IH]; intros i1 nf cont ids nm Hi0 Hnf Hi HL Hf Hc Hcont Hm Hm'; [lia|]. cbn [move_tail].
  destruct (Z.ltb_spec i1 N) as [Hlt|Hge]; [|assert (i1 = N) as -> by lia; lia].
  rewrite not_movable_at by (done || lia). cbn [obind]. pose proof (count_S (free_at ids) i1 ltac:(lia)) as HS.
  destruct (free_at ids i1) eqn:E; cbn [negb].
  - set (ids1 := <[Z.to_nat i1 := i0 + nf]> ids). set (nm1 := if cont then nm else nm + 1).
    assert (Hst : count (starts_at ids1) N - count (starts_at ids) N <= nm1 - nm).
    { pose proof (starts_insert ids i1 (i0 + nf) ltac:(lia) HL (proj2 (free_id _ _ E))) as H. fold ids1 in H. unfold nm1.
      destruct cont; [|destruct (_ && _ && _) in H; lia]. destruct (Hcont eq_refl) as [Hmv Hd].
      rewrite Hmv, Hd, (proj2 (Z.ltb_lt 0 i1)), bool_decide_eq_true_2 in H; [cbn in H; lia|cbn; f_equal; lia|lia]. }
    assert (Hn1 : nm <= nm1 <= mx ∧ (cont = false → nm < nm1)).
    { unfold nm1. destruct cont; [split; [lia|done]|specialize (Hm' eq_refl); lia]. }
    assert (Hmc : count (moved_at ids1) N = count (moved_at ids) N + 1) by (apply moved_count; [lia|done|by apply free_id|lia|lia]).
    assert (HC : ∀ b, i1 + 1 <= b <= N → count (free_at ids1) b - count (free_at ids1) (i1 + 1) = count (free_at ids) b - count (free_at ids) (i1 + 1)).
    { intros b Hb. apply count_ext; [lia|]. intros k Hk. apply free_insert; lia. }
    destruct (Z.eqb_spec (nf + 1) nh) as [<-|Hne].
    + exists false, ids1, nm1, (i1 + 1). split; [done|]. split.
      { apply tail_moved_put; [lia|done|done|]. split; [done|]. split; [lia|]. intros j Hj.
        destruct (Z.leb_spec (i1 + 1) j), (Z.ltb_spec j (i1 + 1)); [lia|done|done|done]. }
      split; [lia|]. split; [lia|]. split; [tauto|]. unfold nm1 in *. destruct cont; lia.
    + destruct (IH (i1 + 1) (nf + 1) true ids1 nm1) as (stop & ids' & nm' & s & -> & HT & Hst' & Hb & _ & Hs'); try lia.
      * unfold ids1. rewrite length_insert. lia.
      * rewrite HC by lia. lia.
      * intros _. replace (i1 + 1 - 1) with i1 by lia. split.
        -- unfold moved_at, ids1. rewrite list_lookup_insert_eq by lia.
           rewrite (proj2 (Z.eqb_neq (i0 + nf) N)), (proj2 (Z.eqb_neq (i0 + nf) i1)) by lia. done.
        -- unfold ids1. rewrite list_lookup_insert_eq by lia. f_equal. lia.
      * exists stop, ids', nm', s. split; [done|]. pose proof HT as (_ & Hs & _). split.
        { apply tail_moved_put; [lia|done|done|]. by rewrite <- Z.add_assoc. }
        split; [destruct stop; [done|]; pose proof (HC N ltac:(lia)); pose proof (HC s ltac:(lia)); lia|].
        split; [lia|]. split; [intros H _; destruct Hn1 as [_ Hn1]; specialize (Hn1 H); lia|unfold nm1 in *; destruct cont; lia].
  - destruct (Z.eqb_spec nm mx) as [->|Hne].
    + exists true, ids, mx, i1. split; [done|]. split.
      { split; [done|]. split; [lia|]. intros j Hj. destruct (Z.leb_spec i1 j), (Z.ltb_spec j i1); done || lia. }
      split; [done|]. split; [lia|]. split; [done|lia].
    + destruct (IH (i1 + 1) nf false ids nm) as (stop & ids' & nm' & s & -> & HT & Hst' & Hb & _ & Hs'); try lia.
      exists stop, ids', nm', s. split; [done|]. split; [by apply tail_moved_skip; [lia|..]|]. split; [done|].
      split; [lia|]. split; [done|lia].
Qed.

(** ** The whole plan *)

(** Every destination is a hole among the first [b] cells, of its own, for a used
    cell behind the first [U]; the blocks that move are at most [nm]. *)
Record plan_part (b : Z) (ids : list Z) (nm : Z) : Prop := PlanPart {
  pp_len : Z.of_nat (length ids) = N;
  pp_low : ∀ j, 0 <= j < U → ids !! Z.to_nat j = Some N ∨ ids !! Z.to_nat j = Some j;
  pp_high : ∀ j d, U <= j < N → ids !! Z.to_nat j = Some d → d ≠ N →
    used_at cs j = true ∧ 0 <= d < b ∧ used_at cs d = false;
  pp_inj : ∀ j k d, U <= j < N → U <= k < N → ids !! Z.to_nat j = Some d → ids !! Z.to_nat k = Some d →
    d ≠ N → j = k;
  pp_starts : count (starts_at ids) N <= nm <= count (moved_at ids) N;
  pp_pos : 0 <= nm <= mx;
  pp_zero : nm = 0 → ∀ j, U <= j < N → ids !! Z.to_nat j = Some N }.

(** Besides, the first [i0] cells have been dealt with. *)
Record plan_upto (i0 : Z) (ids : list Z) (nm : Z) : Prop := PlanUpto {
  pu_part : plan_part i0 ids nm;
  pu_rest : ∀ j, i0 <= j < U → ids !! Z.to_nat j = Some N;
  pu_count : count (free_at ids) N - count (free_at ids) i0 = U - i0 }.

Lemma upto_keep i0 ids nm : 0 <= i0 < U → U <= N → used_at cs i0 = true →
  plan_upto i0 ids nm → plan_upto (i0 + 1) (<[Z.to_nat i0 := i0]> ids) nm.
Proof.
  intros Hi HU Hus [[HL Hlow Hhigh Hinj Hst Hnm H0] Hrest Hcnt]. set (ids' := <[_ := _]> ids).
  pose proof (Hrest i0 ltac:(lia)) as Hn.
  assert (Hne : ∀ j, 0 <= j → j ≠ i0 → ids' !! Z.to_nat j = ids !! Z.to_nat j) by (intros; apply list_lookup_insert_ne; lia).
  assert (Hmv : ∀ j, 0 <= j → moved_at ids' j = moved_at ids j).
  { intros j Hj. destruct (decide (j = i0)) as [->|]; [|apply moved_insert; lia].
    unfold moved_at, ids'. rewrite Hn, list_lookup_insert_eq by lia. by rewrite !Z.eqb_refl, andb_false_r. }
  assert (Hmi : moved_at ids i0 = false) by (unfold moved_at; by rewrite Hn, Z.eqb_refl).
  split; [split|..].
  - unfold ids'. by rewrite length_insert.
  - intros j Hj. destruct (decide (j = i0)) as [->|]; [right; apply list_lookup_insert_eq; lia|rewrite Hne by lia; auto].
  - intros j d Hj. rewrite Hne by lia. intros Hd HdN. destruct (Hhigh j d Hj Hd HdN) as (? & ? & ?). repeat split; [done|lia|lia|done].
  - intros j k d Hj Hk. rewrite !Hne by lia. by apply Hinj.
  - pose proof (count_ext (moved_at ids') (moved_at ids) 0 N ltac:(lia) ltac:(intros; apply Hmv; lia)) as E'.
    rewrite !count_0, !Z.sub_0_r in E'. rewrite E'.
    pose proof (count_ext (starts_at ids') (starts_at ids) 0 N ltac:(lia)) as E. rewrite !count_0, !Z.sub_0_r in E. rewrite E; [done|].
    intros j Hj. unfold starts_at. rewrite Hmv by lia. destruct (Z.ltb_spec 0 j); [|done]. rewrite Hmv by lia.
    destruct (decide (j = i0)) as [->|]; [by rewrite Hmi|]. destruct (decide (j - 1 = i0)) as [->|]; [by rewrite Hmi|].
    by rewrite !Hne by lia.
  - done.
  - intros HH j Hj. rewrite Hne by lia. by apply H0.
  - intros j Hj. rewrite Hne by lia. apply Hrest. lia.
  - rewrite (count_ext _ (free_at ids)); [|lia|intros j Hj; apply free_insert; lia].
    rewrite count_S by lia. unfold free_at at 3. rewrite Hus, Hn, bool_decide_eq_true_2 by done. cbn. lia.
Qed.

(** A hole is filled, entirely or until the moves are used up. *)
Lemma upto_fill i0 nh ids nm : 0 <= i0 → 1 <= nh → i0 + nh <= U → U <= N → (∀ j, i0 <= j < i0 + nh → used_at cs j = false) →
  plan_upto i0 ids nm → nm < mx →
  ∃ is_ stop ids' nm', find_tail cs N (S (Z.to_nat N)) ids i0 nh 0 (N - 1) = Ok (nh, is_) ∧
    move_tail cs N mx (S (Z.to_nat N)) i0 nh is_ 0 false ids nm = Ok (stop, ids', nm') ∧
    plan_part (i0 + nh) ids' nm' ∧ (if stop : bool then nm' = mx else plan_upto (i0 + nh) ids' nm').
Proof.
  intros Hi Hnh HU HUN Hhole [[HL Hlow Hhigh Hinj Hst Hnm H0] Hrest Hcnt] Hmx.
  assert (Hf0 : ∀ j, i0 <= j < i0 + nh → free_at ids j = false) by (intros j Hj; unfold free_at; by rewrite Hhole).
  pose proof (count_none (free_at ids) i0 (i0 + nh) ltac:(lia) Hf0) as Hc1.
  pose proof (count_none (free_at ids) i0 (i0 + 1) ltac:(lia) ltac:(intros; apply Hf0; lia)) as Hc2.
  pose proof (count_between (free_at ids) (i0 + nh) U ltac:(lia)) as Hc3.
  destruct (find_tail_spec ids i0 nh (S (Z.to_nat N)) 0 (N - 1)) as (i & Hft & Hi' & Hfi & Hci); try lia; [by rewrite Z.sub_add; lia|].
  rewrite Z.sub_add in Hci.
  assert (Hge : U <= i).
  { destruct (Z.le_gt_cases U i); [done|]. pose proof (count_S (free_at ids) i ltac:(lia)) as HS. rewrite Hfi in HS.
    pose proof (count_between (free_at ids) (i + 1) U ltac:(lia)). lia. }
  destruct (move_tail_spec i0 nh (S (Z.to_nat N)) i 0 false ids nm) as (stop & ids' & nm' & s & Hmt & (Hl' & Hs & HT) & Hstop & Hb & Hlt & Hst'); try lia.
  specialize (Hlt eq_refl Hfi).
  exists i, stop, ids', nm'. split; [done|]. split; [done|].
  assert (HT' : ∀ j, 0 <= j < N → ids' !! Z.to_nat j = ids !! Z.to_nat j ∨
    (i <= j < s ∧ free_at ids j = true ∧ ids' !! Z.to_nat j = Some (i0 + (count (free_at ids) j - count (free_at ids) i)) ∧
     0 <= count (free_at ids) j - count (free_at ids) i < nh)).
  { intros j Hj. rewrite (HT j Hj). destruct (_ && _) eqn:E; [right|by left]. propify. split; [lia|]. split; [done|].
    split; [f_equal; lia|]. pose proof (count_S (free_at ids) j ltac:(lia)) as HS. rewrite H1 in HS.
    pose proof (count_between (free_at ids) (j + 1) N ltac:(lia)). pose proof (count_between (free_at ids) i j ltac:(lia)). lia. }
  assert (HP : plan_part (i0 + nh) ids' nm').
  { split.
    - lia.
    - intros j Hj. destruct (HT' j ltac:(lia)) as [->|[? _]]; [by apply Hlow|lia].
    - intros j d Hj Hd HdN. destruct (HT' j ltac:(lia)) as [E|(? & Hf & E & ?)].
      + rewrite E in Hd. destruct (Hhigh j d Hj Hd HdN) as (? & ? & ?). repeat split; [done|lia|lia|done].
      + rewrite E in Hd. injection Hd as <-. split; [apply (free_id _ _ Hf)|]. split; [lia|]. apply Hhole. lia.
    - intros j k d Hj Hk Hd Hd' HdN.
      destruct (HT' j ltac:(lia)) as [E|(? & Hf & E & ?)], (HT' k ltac:(lia)) as [E'|(? & Hf' & E' & ?)]; rewrite E in Hd; rewrite E' in Hd'.
      + by apply (Hinj j k d).
      + injection Hd' as <-. destruct (Hhigh j _ Hj Hd HdN) as (_ & ? & _). lia.
      + injection Hd as <-. destruct (Hhigh k _ Hk Hd' HdN) as (_ & ? & _). lia.
      + injection Hd as <-. injection Hd' as Hd'. apply (count_inj (free_at ids)); [lia|lia|done|done|lia].
    - lia.
    - lia.
    - lia. }
  split; [done|]. destruct stop; [done|]. split; [done|..].
  - intros j Hj. destruct (HT' j ltac:(lia)) as [->|[? _]]; [apply Hrest; lia|lia].
  - assert (E1 : count (free_at ids') i - count (free_at ids') (i0 + nh) = count (free_at ids) i - count (free_at ids) (i0 + nh)).
    { apply count_ext; [lia|]. intros j Hj. unfold free_at. destruct (HT' j ltac:(lia)) as [->|[? _]]; [done|lia]. }
    assert (E2 : count (free_at ids') N = count (free_at ids') i).
    { apply count_none; [lia|]. intros j Hj. destruct (HT' j ltac:(lia)) as [E|(? & Hf & E & ?)].
      - unfold free_at. rewrite E. fold (free_at ids j). destruct (free_at ids j) eqn:Ef; [|done].
        rewrite (HT j) in E by lia. rewrite Ef, (proj2 (Z.leb_le i j)) in E by lia. destruct (Z.ltb_spec j s).
        + cbn in E. apply free_id in Ef as [_ Ef]. rewrite Ef in E. injection E as E.
          pose proof (count_between (free_at ids) i j ltac:(lia)).
          pose proof (count_between (free_at ids) j N ltac:(lia)). lia.
        + by rewrite (count_nothing (free_at ids) s N j) in Ef by (done || lia).
      - unfold free_at. rewrite E. rewrite bool_decide_eq_false_2 by (intros [= ?]; lia). by rewrite andb_false_r. }
    lia.
Qed.

Definition plan_full (ids : list Z) : Prop :=
  ∀ j, U <= j < N → used_at cs j = true → ids !! Z.to_nat j ≠ Some N.

Lemma part_weaken b b' ids nm : b <= b' → plan_part b ids nm → plan_part b' ids nm.
Proof.
  intros Hb [HL Hlow Hhigh Hinj Hst Hnm H0]. split; try done.
  intros j d Hj Hd HdN. destruct (Hhigh j d Hj Hd HdN) as (? & ? & ?). repeat split; [done|lia|lia|done].
Qed.

Lemma defrag_loop_spec fuel : ∀ i0 ids nm, 0 <= i0 <= U → U <= N → U - i0 < Z.of_nat fuel → nm < mx → plan_upto i0 ids nm →
  ∃ ids' nm', defrag_loop cs N U mx fuel i0 ids nm = Ok (ids', nm') ∧ plan_part U ids' nm' ∧ (nm' < mx → plan_full ids').
Proof.
  induction fuel as [|fuel IH]; intros i0 ids nm Hi HU Hf Hm HP; [lia|]. cbn [defrag_loop].
  destruct (Z.ltb_spec i0 U) as [Hlt|Hge].
  2: { assert (i0 = U) as -> by lia. exists ids, nm. split; [done|]. split; [apply HP|]. intros _ j Hj Hus Hn.
       pose proof (pu_count _ _ _ HP) as Hc. pose proof (count_nothing (free_at ids) U N j ltac:(lia) Hj ltac:(lia)) as Hz.
       unfold free_at in Hz. by rewrite Hus, Hn, bool_decide_eq_true_2 in Hz by done. }
  rewrite is_empty_at by lia. cbn [obind]. rewrite negb_involutive. destruct (used_at cs i0) eqn:Hus.
  - apply IH; [lia|lia|lia|done|]. apply upto_keep; (done || lia).
  - destruct (hole_size_spec (S (Z.to_nat U)) i0 1) as (nh & -> & Hnh & HnU & Hhole); try lia.
    { intros j Hj. assert (j = i0) as -> by lia. done. }
    cbn [obind]. destruct (upto_fill i0 nh ids nm) as (is_ & stop & ids' & nm' & -> & Hmt & HP' & Hst); try (done || lia).
    cbn [obind]. rewrite Z.eqb_refl. cbn [assert_that obind]. rewrite Hmt. cbn [obind].
    destruct (stop || (nm' =? mx)) eqn:E.
    + exists ids', nm'. split; [done|]. split; [by apply (part_weaken (i0 + nh))|]. intros Hlt'. exfalso.
      apply orb_prop in E as [->|E%Z.eqb_eq]; lia.
    + apply orb_false_elim in E as [-> E%Z.eqb_neq]. replace (i0 + (nh - 1) + 1) with (i0 + nh) by lia.
      apply IH; [lia|lia|lia| |done]. pose proof (pp_pos _ _ _ HP'). lia.
Qed.
End plan.

(** ** [defrag_prepare] *)

Lemma used_at_in cs i : cells_ok cs → i ∈ cs.(used) ↔ 0 <= i < cells_used_max_p1 cs ∧ used_at cs i = true.
Proof.
  intros Hok. split.
  - intros Hu. pose proof (set_max_in_le _ (-1) _ Hu). apply (ck_used _ Hok) in Hu as (Hi & c & Hc & Hp).
    unfold cells_used_max_p1, used_at. rewrite Hc. split; [lia|]. by apply negb_true_iff, Z.eqb_neq.
  - intros [Hi Hu]. apply (ck_used _ Hok). split; [lia|]. unfold used_at in Hu.
    destruct (cell_list cs !! Z.to_nat i) as [c|]; [|done]. exists c. split; [done|]. by apply negb_true_iff, Z.eqb_neq in Hu.
Qed.

Lemma used_max_bounds cs : cells_ok cs → 0 <= cells_used_max_p1 cs <= cells_size cs.
Proof.
  intros Hok. unfold cells_used_max_p1. split.
  - pose proof (set_max_lb cs.(used) (-1) (-1) ltac:(lia)) as H. enough (-1 <= set_max cs.(used) (-1)) by lia. apply H.
    intros x (Hx & _)%(ck_used _ Hok). lia.
  - pose proof (set_max_ub cs.(used) (-1) (cells_size cs - 1)) as H. enough (set_max cs.(used) (-1) <= cells_size cs - 1) by lia.
    apply H; [unfold cells_size; lia|]. intros x (Hx & c & Hc & _)%(ck_used _ Hok). pose proof (cell_lt _ _ _ Hx Hc). lia.
Qed.

Lemma get_used_count cs : cells_ok cs → cells_get_used cs = count (used_at cs) (cells_used_max_p1 cs).
Proof.
  intros Hok. unfold cells_get_used. apply size_count; [by apply used_max_bounds|]. intros i. by apply used_at_in.
Qed.

(** Used cells behind the first [n_used]: the cells out of place. *)
Definition misplaced (cs : llama_kv_cells_unified) : Z :=
  count (used_at cs) (cells_used_max_p1 cs) - count (used_at cs) (cells_get_used cs).

(** A plan: none because every used cell is in place, or moves that fill
    holes. *)
Definition planned (cs : llama_kv_cells_unified) (mx : Z) (ids : list Z) : Prop :=
  let N := cells_used_max_p1 cs in let U := cells_get_used cs in
  (ids = [] ∧ misplaced cs = 0) ∨
  (ids ≠ [] ∧ (∃ nm, 0 < nm ∧ plan_part cs N U mx U ids nm) ∧ (misplaced cs < mx → plan_full cs N U ids)).

Lemma moved_misplaced cs N U mx nm ids : 0 <= U <= N → plan_part cs N U mx U ids nm →
  count (moved_at N ids) N <= count (used_at cs) N - count (used_at cs) U.
Proof.
  intros HU HP. assert (E : count (moved_at N ids) U = 0).
  { rewrite <- (count_0 (moved_at N ids)). apply count_none; [lia|]. intros j Hj. unfold moved_at.
    destruct (pp_low _ _ _ _ _ _ _ HP j Hj) as [->| ->]; [by rewrite Z.eqb_refl|by rewrite Z.eqb_refl, andb_false_r]. }
  pose proof (count_mono (moved_at N ids) (used_at cs) U N ltac:(lia)) as H. rewrite E in H. specialize (H ltac:(
    intros j Hj; unfold moved_at; destruct (ids !! Z.to_nat j) as [d|] eqn:Ed; [|done]; intros [H1 _]%andb_prop;
    apply negb_true_iff, Z.eqb_neq in H1; apply (pp_high _ _ _ _ _ _ _ HP j d Hj Ed H1))). lia.
Qed.

Lemma max_moves_ok L n : 0 < L → 8 * L <= n < 2 ^ 31 →
  defrag_max_moves L n = Ok ((n - 2 * L) / (6 * L)) ∧ 1 <= (n - 2 * L) / (6 * L).
Proof.
  intros HL Hn. unfold defrag_max_moves. rewrite !u32_id by lia. rewrite (proj2 (Z.eqb_neq (6 * L) 0)) by lia.
  split; [done|]. apply Z.div_le_lower_bound; lia.
Qed.

(** C30: planning a defragmentation never fails an assertion, and its plan moves
    every misplaced cell into a hole of its own among the first [n_used] cells
    as long as one graph has room for that many moves; otherwise it moves some of
    them.  The blocks that move together are never more than the graph has room
    for. *)
Theorem defrag_prepare_ok n u : cells_ok u.(cells) → u.(layers) ≠ [] →
  8 * Z.of_nat (length u.(layers)) <= n < 2 ^ 31 →
  ∃ ids, defrag_prepare n u = Ok ids ∧
    planned u.(cells) ((n - 2 * Z.of_nat (length u.(layers))) / (6 * Z.of_nat (length u.(layers)))) ids.
Proof.
  intros Hok HL Hn. set (L := Z.of_nat (length u.(layers))) in *.
  assert (0 < L) by (subst L; destruct (layers u); [done|cbn; lia]).
  unfold defrag_prepare. fold L. set (cs := u.(cells)) in *. set (N := cells_used_max_p1 cs). set (U := cells_get_used cs).
  destruct (max_moves_ok L n) as [-> Hmx]; [done|done|]. set (mx := _ / _) in *.
  pose proof (used_max_bounds cs Hok) as HN. fold N in HN. pose proof (get_used_count cs Hok) as HU. fold N U in HU.
  pose proof (count_between (used_at cs) 0 N ltac:(lia)) as Hb. rewrite count_0 in Hb.
  rewrite (proj2 (Z.leb_le U N)) by lia. cbn [assert_that obind].
  assert (Hrep : ∀ j, 0 <= j < N → replicate (Z.to_nat N) N !! Z.to_nat j = Some N) by (intros; apply lookup_replicate_2; lia).
  assert (Hnone : ∀ P : Z → bool, (∀ j, 0 <= j < N → P j = false) → count P N = 0).
  { intros P HP. rewrite <- (count_0 P). apply count_none; [lia|done]. }
  destruct (defrag_loop_spec cs Hok N U mx HN (S (Z.to_nat U)) 0 (replicate (Z.to_nat N) N) 0) as (ids & nm & -> & HP & Hfull); try lia.
  { assert (Hm : ∀ j, 0 <= j < N → moved_at N (replicate (Z.to_nat N) N) j = false).
    { intros j Hj. unfold moved_at. by rewrite Hrep, Z.eqb_refl by done. }
    split; [split|..].
    - rewrite length_replicate. lia.
    - intros j Hj. left. apply Hrep. lia.
    - intros j d Hj. rewrite Hrep by lia. intros [= <-]. done.
    - intros j k d Hj Hk. rewrite Hrep by lia. intros [= <-]. done.
    - rewrite !Hnone; [lia|done|]. intros j Hj. unfold starts_at. by rewrite Hm.
    - lia.
    - intros _ j Hj. apply Hrep. lia.
    - intros j Hj. apply Hrep. lia.
    - rewrite count_0, HU, Z.sub_0_r. pose proof (count_ext (free_at cs N (replicate (Z.to_nat N) N)) (used_at cs) 0 N ltac:(lia)) as E.
      rewrite !count_0, !Z.sub_0_r in E. rewrite E; [lia|]. intros j Hj. unfold free_at. rewrite Hrep by done.
      by rewrite bool_decide_eq_true_2, andb_true_r by done. }
  cbn [obind]. eexists. split; [reflexivity|].
  pose proof (moved_misplaced cs N U mx nm ids ltac:(lia) HP) as Hmm. pose proof (pp_starts _ _ _ _ _ _ _ HP) as Hst.
  unfold planned, misplaced. fold N U. destruct (Z.eqb_spec nm 0) as [->|Hne].
  - left. split; [done|]. specialize (Hfull ltac:(lia)). rewrite (count_none (used_at cs) U N); [lia|lia|].
    intros j Hj. destruct (used_at cs j) eqn:E; [|done]. by destruct (Hfull j Hj E (pp_zero _ _ _ _ _ _ _ HP eq_refl j Hj)).
  - right. split.
    + pose proof (pp_len _ _ _ _ _ _ _ HP). intros ->. cbn in *.
      destruct (decide (N = 0)) as [E|]; [rewrite E, !count_0 in Hst; pose proof (pp_pos _ _ _ _ _ _ _ HP); lia|lia].
    + split; [exists nm; pose proof (pp_pos _ _ _ _ _ _ _ HP); split; [lia|done]|]. intros Hlt. apply Hfull. lia.
Qed.
