(* ===== verification/KvDefragThms.v ===== *)
(** Defragmentation applied: the cells and the rows of their tokens move together
    ([update], [build_graph_defrag]), and where the copies leave the base
    tensor; with two small caches at the end. *)
From S2P Require Import Prelude Floats KvTypes KvLadder KvGrow KvOffload KvSwapIn Weight Swapout.
From S2P Require Import KvOps KvCells KvCellsThms KvUnified KvUnifiedGrow KvSlots KvApply KvSeqOps KvBatch KvMask KvDefrag.
From S2P Require Import KvDefragPlan.

(** ** Moving one cell *)

Lemma mv_ok isrc idst cs c : cells_ok cs → 0 <= isrc → 0 <= idst → isrc ≠ idst →
  cs.(cell_list) !! Z.to_nat isrc = Some c → c.(c_pos) ≠ -1 → cs.(cell_list) !! Z.to_nat idst = Some empty_cell →
  ∃ cs', cells_mv isrc idst cs = Ok cs' ∧ cells_ok cs' ∧
    cs'.(cell_list) = <[Z.to_nat isrc := empty_cell]> (<[Z.to_nat idst := c]> cs.(cell_list)) ∧
    cs'.(has_shift) = cs.(has_shift) ∧ cs'.(seq_pos) = cs.(seq_pos).
Proof.
  intros Hok Hs Hd Hne Hc Hp He. unfold cells_mv.
  rewrite (proj2 (cell_at_ok cs isrc c)), (proj2 (cell_at_ok cs idst empty_cell)) by done.
  cbn [obind empty_cell c_pos]. rewrite Z.eqb_refl, (proj2 (Z.eqb_neq _ _) Hp). cbn [assert_that obind negb].
  eexists. split; [reflexivity|]. split; [|done].
  pose proof (lookup_lt_Some _ _ _ Hc) as Hls. pose proof (lookup_lt_Some _ _ _ He) as Hld.
  set (l' := <[Z.to_nat isrc := empty_cell]> (<[Z.to_nat idst := c]> cs.(cell_list))).
  assert (HL : ∀ j d, l' !! j = Some d ↔ (j = Z.to_nat isrc ∧ d = empty_cell) ∨ (j = Z.to_nat idst ∧ d = c) ∨
    (j ≠ Z.to_nat isrc ∧ j ≠ Z.to_nat idst ∧ cs.(cell_list) !! j = Some d)).
  { intros j d. unfold l'. destruct (decide (j = Z.to_nat isrc)) as [->|Hj].
    - rewrite list_lookup_insert_eq by (rewrite length_insert; done). split; [intros [= <-]; auto|].
      intros [[_ ->]|[[? _]|(? & _)]]; [done|lia|done].
    - rewrite list_lookup_insert_ne by done. destruct (decide (j = Z.to_nat idst)) as [->|Hj'].
      + rewrite list_lookup_insert_eq by done. split; [intros [= <-]; auto|].
        intros [[? _]|[[_ ->]|(_ & ? & _)]]; [lia|done|done].
      + rewrite list_lookup_insert_ne by done. split; [auto|]. intros [[? _]|[[? _]|(_ & _ & ?)]]; done. }
  assert (Hsq : ∀ s, s ∉ empty_cell.(c_seq)) by (intros s ?%elem_of_empty; done).
  split; unfold put_used, put_cell; cbn [used cell_list seq_pos]; fold l'.
  - intros j. rewrite elem_of_union, elem_of_difference, !elem_of_singleton, (ck_used _ Hok). split.
    + intros [[(Hj & d & Hjd & Hdp) Hjs]| ->].
      * split; [done|]. exists d. split; [|done]. apply HL. right. right. split; [lia|]. split; [|done].
        intros Hjd'. assert (j = idst) as -> by lia. rewrite He in Hjd. injection Hjd as <-. done.
      * split; [done|]. exists c. split; [|done]. apply HL. auto.
    + intros (Hj & d & [[_ ->]|[[Hjd _]|(Hjs & Hjd & Hl)]]%HL & Hdp); [done|right; lia|left; split; [eauto|lia]].
  - intros j d [[_ ->]|[[_ ->]|(_ & _ & Hl)]]%HL; [cbn; lia|apply (ck_pos _ Hok _ _ Hc)|apply (ck_pos _ Hok _ _ Hl)].
  - intros j d [[_ ->]|[[_ ->]|(_ & _ & Hl)]]%HL; [done|done|apply (ck_empty _ Hok _ _ Hl)].
  - intros j d s [[_ ->]|[[_ ->]|(_ & _ & Hl)]]%HL Hds; [by destruct (Hsq s)|by apply (ck_seq _ Hok _ _ s Hc)|by apply (ck_seq _ Hok _ _ s Hl)].
  - intros s q. rewrite (ck_seq_pos _ Hok). split; intros (j & d & Hj & Hds & Hq).
    + destruct (decide (j = Z.to_nat isrc)) as [->|Hjs].
      * exists (Z.to_nat idst), d. split; [|done]. apply HL. right. left. split; [done|]. congruence.
      * exists j, d. split; [|done]. apply HL. right. right. split; [done|]. split; [|done]. intros ->.
        rewrite He in Hj. injection Hj as <-. by destruct (Hsq s).
    + apply HL in Hj as [[_ ->]|[[_ ->]|(_ & _ & Hl)]]; [by destruct (Hsq s)|eauto|eauto].
Qed.

(** ** The plan applied to the cells *)
Section apply.
Context (cs : llama_kv_cells_unified) (Hok : cells_ok cs) (N U mx nm : Z) (ids : list Z).
Context (HN : 0 <= U <= N ∧ N <= cells_size cs) (HP : plan_part cs N U mx U ids nm).
Context (HNu : ∀ k, 0 <= k → used_at cs k = true → k < N).

Lemma moved_dest j : 0 <= j < N → moved_at N ids j = true →
  ∃ d, ids !! Z.to_nat j = Some d ∧ d ≠ N ∧ U <= j ∧ used_at cs j = true ∧ 0 <= d < U ∧ used_at cs d = false.
Proof.
  intros Hj Hm. unfold moved_at in Hm. destruct (ids !! Z.to_nat j) as [d|] eqn:E; [|done].
  apply andb_prop in Hm as [H1 H2]. apply negb_true_iff, Z.eqb_neq in H1. apply negb_true_iff, Z.eqb_neq in H2.
  assert (U <= j). { destruct (Z.le_gt_cases U j); [done|]. destruct (pp_low _ _ _ _ _ _ _ HP j ltac:(lia)); congruence. }
  exists d. repeat (split; [done|]). apply (pp_high _ _ _ _ _ _ _ HP j d); [lia|done|done].
Qed.

Lemma unmoved_id j : 0 <= j < N → moved_at N ids j = false → ∃ d, ids !! Z.to_nat j = Some d ∧ (d = N ∨ d = j).
Proof.
  intros Hj Hm. pose proof (pp_len _ _ _ _ _ _ _ HP) as Hl.
  destruct (lookup_lt_is_Some_2 ids (Z.to_nat j) ltac:(lia)) as [d Hd]. exists d. split; [done|].
  unfold moved_at in Hm. rewrite Hd in Hm. destruct (Z.eqb_spec d N), (Z.eqb_spec d j); auto. done.
Qed.

Lemma used_or_empty j : 0 <= j < cells_size cs →
  ∃ c, cs.(cell_list) !! Z.to_nat j = Some c ∧ (if used_at cs j then c.(c_pos) ≠ -1 else c = empty_cell).
Proof.
  intros Hj. destruct (cell_some cs j Hj) as [c Hc]. exists c. split; [done|]. unfold used_at. rewrite Hc.
  destruct (Z.eqb_spec c.(c_pos) (-1)); [by eapply ck_empty|done].
Qed.

(** The cells after the moves of the first [m]. *)
Definition moved_cells (m : Z) (cs' : llama_kv_cells_unified) : Prop :=
  cells_ok cs' ∧ length cs'.(cell_list) = length cs.(cell_list) ∧ cs'.(has_shift) = cs.(has_shift) ∧
  cs'.(seq_pos) = cs.(seq_pos) ∧
  (∀ j d, 0 <= j < m → moved_at N ids j = true → ids !! Z.to_nat j = Some d →
     cs'.(cell_list) !! Z.to_nat d = cs.(cell_list) !! Z.to_nat j ∧ cs'.(cell_list) !! Z.to_nat j = Some empty_cell) ∧
  (∀ k, 0 <= k → (∀ j, 0 <= j < m → moved_at N ids j = true → j ≠ k ∧ ids !! Z.to_nat j ≠ Some k) →
     cs'.(cell_list) !! Z.to_nat k = cs.(cell_list) !! Z.to_nat k).

Lemma apply_move_step m cs1 : 0 <= m < N → moved_cells m cs1 →
  ∃ cs2, apply_move ids m cs1 = Ok cs2 ∧ moved_cells (m + 1) cs2.
Proof.
  intros Hm (Hok1 & Hlen & Hsh & Hsp & Hin & Hout). pose proof (pp_len _ _ _ _ _ _ _ HP) as Hl. unfold apply_move. rewrite Hl.
  destruct (moved_at N ids m) eqn:Em.
  - destruct (moved_dest m Hm Em) as (d & Hd & HdN & HUm & Hum & HdU & Hud). rewrite (id_at_some ids m d) by (done || lia).
    cbn [obind]. rewrite (proj2 (Z.leb_le d N)), (proj2 (Z.eqb_neq d N)), (proj2 (Z.eqb_neq d m)) by lia. cbn [assert_that obind orb].
    destruct (used_or_empty m ltac:(lia)) as (c & Hc & Hcp). rewrite Hum in Hcp.
    destruct (used_or_empty d ltac:(lia)) as (e & He & Hee). rewrite Hud in Hee. subst e.
    assert (Hother : ∀ j, 0 <= j < m → moved_at N ids j = true → j ≠ m ∧ j ≠ d ∧ ids !! Z.to_nat j ≠ Some m ∧ ids !! Z.to_nat j ≠ Some d).
    { intros j Hj Hmj. destruct (moved_dest j ltac:(lia) Hmj) as (d' & Hd' & HdN' & HUj & _ & HdU' & _).
      repeat split; [lia|lia|rewrite Hd'; intros [= ?]; lia|].
      intros Hjd. pose proof (pp_inj _ _ _ _ _ _ _ HP j m d ltac:(lia) ltac:(lia) Hjd Hd HdN). lia. }
    destruct (mv_ok m d cs1 c) as (cs2 & -> & Hok2 & Hl2 & Hsh2 & Hsp2); try done; try lia.
    + rewrite Hout; [done|lia|]. intros j Hj Hmj. destruct (Hother j Hj Hmj) as (? & ? & ? & ?). done.
    + rewrite Hout; [done|lia|]. intros j Hj Hmj. destruct (Hother j Hj Hmj) as (? & ? & ? & ?). done.
    + exists cs2. split; [done|]. split; [done|]. split; [by rewrite Hl2, !length_insert|]. split; [congruence|]. split; [congruence|].
      unfold cells_size in HN. split.
      * intros j d' Hj Hmj Hjd. destruct (decide (j = m)) as [->|Hne].
        -- assert (d' = d) as -> by congruence. rewrite Hl2. split.
           ++ rewrite list_lookup_insert_ne, list_lookup_insert_eq by lia. done.
           ++ apply list_lookup_insert_eq. rewrite length_insert. lia.
        -- destruct (Hother j ltac:(lia) Hmj) as (? & ? & Hjm & Hjd'). destruct (Hin j d' ltac:(lia) Hmj Hjd) as [<- <-].
           destruct (moved_dest j ltac:(lia) Hmj) as (d2 & Hd2 & _ & ? & _ & ? & _). assert (d2 = d') as -> by congruence.
           assert (d' ≠ d) by congruence. rewrite Hl2, !list_lookup_insert_ne by lia. done.
      * intros k Hk Hall. destruct (Hall m ltac:(lia) Em) as [Hkm Hkd]. rewrite Hd in Hkd. assert (d ≠ k) by congruence.
        rewrite Hl2, !list_lookup_insert_ne by lia. apply Hout; [done|]. intros j Hj. apply Hall. lia.
  - destruct (unmoved_id m Hm Em) as (d & Hd & HdN). rewrite (id_at_some ids m d) by (done || lia). cbn [obind].
    rewrite (proj2 (Z.leb_le d N)) by lia. replace ((d =? N) || (d =? m)) with true by (destruct HdN; subst d; rewrite Z.eqb_refl, ?orb_true_r; done).
    exists cs1. split; [done|]. repeat (split; [done|]). split.
    + intros j d' Hj Hmj. apply Hin; [|done]. destruct (decide (j = m)) as [->|]; [congruence|lia].
    + intros k Hk Hall. apply Hout; [done|]. intros j Hj. apply Hall. lia.
Qed.

Lemma apply_moves_run : ∃ cs', apply_moves ids cs = Ok cs' ∧ moved_cells N cs'.
Proof.
  unfold apply_moves. rewrite (pp_len _ _ _ _ _ _ _ HP).
  assert (H : ∀ m, 0 <= m → m <= N → ∃ cs', ofold (apply_move ids) (seqZ 0 m) cs = Ok cs' ∧ moved_cells m cs').
  { refine (count_ind (λ m, m <= N → _) 0 _ _).
    - intros _. exists cs. split; [done|]. repeat (split; [done|]). split; [lia|done].
    - intros m Hm IH Hle. destruct (IH ltac:(lia)) as (cs1 & E1 & H1). destruct (apply_move_step m cs1 ltac:(lia) H1) as (cs2 & E2 & H2).
      exists cs2. split; [|done]. rewrite seqZ_app by lia. rewrite ofold_app, E1. cbn [obind].
      change (seqZ (0 + m) 1) with [m]. cbn [ofold]. by rewrite E2. }
  apply H; lia.
Qed.

(** Where a cell goes. *)
Definition dest (j : Z) : Z := if moved_at N ids j then default j (ids !! Z.to_nat j) else j.

Lemma moved_cells_run cs' : moved_cells N cs' →
  (∀ i c, 0 <= i < N → used_at cs i = true → cs.(cell_list) !! Z.to_nat i = Some c → cs'.(cell_list) !! Z.to_nat (dest i) = Some c) ∧
  (∀ k, k ∈ cs'.(used) → ∃ i, 0 <= i < N ∧ used_at cs i = true ∧ dest i = k).
Proof.
  intros (Hok' & Hlen & _ & _ & Hin & Hout). split.
  - intros i c Hi Hu Hc. unfold dest. destruct (moved_at N ids i) eqn:E.
    + destruct (moved_dest i Hi E) as (d & Hd & _). rewrite Hd. cbn. by destruct (Hin i d Hi E Hd) as [-> _].
    + rewrite Hout; [done|lia|]. intros j Hj Hmj. split; [congruence|]. intros Hji.
      destruct (moved_dest j Hj Hmj) as (d & Hd & _ & _ & _ & _ & Hud). assert (d = i) as -> by congruence. congruence.
  - intros k (Hk & c & Hc & Hp)%(ck_used _ Hok').
    assert (Hdec : {j | 0 <= j < N ∧ moved_at N ids j = true ∧ (j = k ∨ ids !! Z.to_nat j = Some k)} +
                   {∀ j, 0 <= j < N → moved_at N ids j = true → j ≠ k ∧ ids !! Z.to_nat j ≠ Some k}).
    { destruct (list_find (λ j, moved_at N ids j = true ∧ (j = k ∨ ids !! Z.to_nat j = Some k)) (seqZ 0 N)) as [[n j]|] eqn:E.
      - left. exists j. apply list_find_Some in E as (Hj & [H1 H2] & _). apply list_elem_of_lookup_2, elem_of_seqZ in Hj. split; [lia|done].
      - right. intros j Hj Hm. apply list_find_None in E. rewrite Forall_forall in E.
        specialize (E j ltac:(apply elem_of_seqZ; lia)). tauto. }
    destruct Hdec as [(j & Hj & Hm & [->|Hjk])|Hno].
    + destruct (moved_dest k Hj Hm) as (d & Hd & _). destruct (Hin k d Hj Hm Hd) as [_ He].
      rewrite He in Hc. injection Hc as <-. done.
    + exists j. destruct (moved_dest j Hj Hm) as (d & Hd & _ & _ & Hu & _). split; [done|]. split; [done|].
      unfold dest. rewrite Hm, Hjk. done.
    + exists k. assert (Hkc : cs.(cell_list) !! Z.to_nat k = Some c) by (rewrite <- Hout; done).
      assert (Hu : used_at cs k = true) by (unfold used_at; rewrite Hkc; by apply negb_true_iff, Z.eqb_neq).
      split; [auto|]. split; [done|]. unfold dest. destruct (moved_at N ids k) eqn:E; [|done].
      by destruct (Hno k ltac:(auto) E).
Qed.

(** ** The copies of the graph *)

Lemma run_length_spec fuel i id : ∀ n, 0 <= i → 0 <= n → i + n <= N → N - (i + n) < Z.of_nat fuel →
  (∀ x, 0 <= x < n → ids !! Z.to_nat (i + x) = Some (id + x)) →
  ∃ n', run_length fuel ids i id n = Ok n' ∧ n <= n' ∧ i + n' <= N ∧
    (∀ x, 0 <= x < n' → ids !! Z.to_nat (i + x) = Some (id + x)) ∧
    (i + n' < N → ids !! Z.to_nat (i + n') ≠ Some (id + n')).
Proof.
  pose proof (pp_len _ _ _ _ _ _ _ HP) as Hl.
  induction fuel as [|fuel IH]; intros n Hi Hn Hin Hf Hx; [lia|]. cbn [run_length]. rewrite Hl.
  destruct (Z.ltb_spec (i + n) N) as [Hlt|Hge]; [|exists n; repeat split; done || lia].
  destruct (lookup_lt_is_Some_2 ids (Z.to_nat (i + n)) ltac:(lia)) as [d Hd]. rewrite (id_at_some ids _ d) by (done || lia).
  cbn [obind]. destruct (Z.eqb_spec d (id + n)) as [->|Hne].
  - destruct (IH (n + 1)) as (n' & -> & ? & ? & ? & ?); try lia; [|exists n'; repeat split; done || lia].
    intros x Hxn. destruct (decide (x = n)) as [->|]; [done|apply Hx; lia].
  - exists n. repeat (split; [lia || done|]). intros _. congruence.
Qed.

(** The cells of a block all move to holes. *)
Lemma block_moved i id n : 0 <= i → i + n <= N → moved_at N ids i = true →
  (∀ x, 0 <= x < n → ids !! Z.to_nat (i + x) = Some (id + x)) →
  ∀ x, 0 <= x → x < n → moved_at N ids (i + x) = true ∧ U <= i ∧ 0 <= id ∧ id + x < U.
Proof.
  intros Hi Hn Hm Hx. refine (count_ind (λ x, x < n → _) 0 _ _).
  - intros H. destruct (moved_dest i ltac:(lia) Hm) as (d & Hd & _ & HU & _ & Hd' & _).
    specialize (Hx 0 ltac:(lia)). rewrite Z.add_0_r in Hx |- *. assert (d = id + 0) by congruence. split; [done|lia].
  - intros x Hx0 IH Hlt. destruct (IH ltac:(lia)) as (_ & HU & H0 & HxU).
    assert (Hmx : moved_at N ids (i + (x + 1)) = true).
    { unfold moved_at. rewrite Hx by lia. rewrite (proj2 (Z.eqb_neq (id + (x + 1)) N)), (proj2 (Z.eqb_neq _ (i + (x + 1)))) by lia. done. }
    destruct (moved_dest (i + (x + 1)) ltac:(lia) Hmx) as (d & Hd & _ & _ & _ & HdU & _).
    rewrite Hx in Hd by lia. injection Hd as <-. split; [done|lia].
Qed.
End apply.

(** The views of a layer with whole blocks: rows as they are counted. *)
Definition embd_ok (u : llama_kv_cache_unified) (l : kv_layer) : Prop :=
  0 < u.(n_embd_k_gqa) l.(il) ∧ u.(n_embd_k_gqa) l.(il) mod ggml_blck_size l.(k_type) = 0 ∧
  0 < u.(n_embd_v_gqa) l.(il) ∧ u.(n_embd_v_gqa) l.(il) mod ggml_blck_size l.(v_type) = 0.

Lemma row_size_mul t n i : n mod ggml_blck_size t = 0 → ggml_row_size t (n * i) = ggml_row_size t n * i.
Proof.
  intros Hm. unfold ggml_row_size. assert (Hb : ggml_blck_size t ≠ 0) by (by destruct t).
  pose proof (Z.div_mod n (ggml_blck_size t) Hb) as E. rewrite Hm, Z.add_0_r in E. set (q := n / _) in E. rewrite E.
  replace (ggml_type_size t * (ggml_blck_size t * q * i)) with (ggml_type_size t * q * i * ggml_blck_size t) by ring.
  replace (ggml_type_size t * (ggml_blck_size t * q)) with (ggml_type_size t * q * ggml_blck_size t) by ring.
  by rewrite !Z.div_mul by done.
Qed.

Lemma row_size_pos t n : 0 < n → n mod ggml_blck_size t = 0 → 0 < ggml_row_size t n.
Proof.
  intros Hn Hm. unfold ggml_row_size. assert (Hb : 0 < ggml_blck_size t) by (by destruct t).
  assert (Ht : 0 < ggml_type_size t) by (by destruct t).
  pose proof (Z.div_mod n (ggml_blck_size t) ltac:(lia)) as E. rewrite Hm, Z.add_0_r in E. set (q := n / _) in E. rewrite E.
  replace (ggml_type_size t * (ggml_blck_size t * q)) with (ggml_type_size t * q * ggml_blck_size t) by ring.
  rewrite Z.div_mul by lia. assert (0 < q) by nia. nia.
Qed.

Lemma view_fits_eq t n nm i : 0 < n → n mod ggml_blck_size t = 0 →
  view_fits t n nm i = if nm + i <=? TOKENS_PER_CHUNK then Ok tt else Ub.
Proof.
  intros Hn Hm. unfold view_fits. rewrite row_size_mul by done. pose proof (row_size_pos t n Hn Hm).
  unfold assert_that. destruct (Z.leb_spec (nm + i) TOKENS_PER_CHUNK), (Z.leb_spec (ggml_row_size t n * nm + ggml_row_size t n * i) (ggml_row_size t n * TOKENS_PER_CHUNK)); try done; nia.
Qed.

Definition block_copies (ls : list kv_layer) (i id nm : Z) : list graph_copy :=
  concat ((λ l, [GraphCopy l.(il) false i id nm; GraphCopy l.(il) true i id nm]) <$> ls).

Lemma layer_copies_eq u l i id nm : embd_ok u l → layer_copies u i id nm l =
  if (nm + i <=? TOKENS_PER_CHUNK) && (nm + id <=? TOKENS_PER_CHUNK)
  then Ok [GraphCopy l.(il) false i id nm; GraphCopy l.(il) true i id nm] else Ub.
Proof.
  intros (? & ? & ? & ?). unfold layer_copies. rewrite !view_fits_eq by done.
  destruct (nm + i <=? _); [|done]. cbn [obind]. by destruct (nm + id <=? _).
Qed.

Lemma copies_run_app {A} c1 c2 (rows : Z → bool → Z → A) : copies_run (c1 ++ c2) rows = copies_run c2 (copies_run c1 rows).
Proof. unfold copies_run. by rewrite foldl_app. Qed.

(** A block: every layer it copies has the rows at [id] from those at [i]. *)
Lemma block_rows {A} ls i id nm : id + nm <= i → ∀ (rows : Z → bool → Z → A) l v j,
  copies_run (block_copies ls i id nm) rows l v j =
  if bool_decide (l ∈ il <$> ls) && (id <=? j) && (j <? id + nm) then rows l v (i + (j - id)) else rows l v j.
Proof.
  intros Hd. induction ls as [|a ls IH]; intros rows l v j; [done|].
  unfold block_copies in *. cbn [fmap list_fmap concat]. rewrite copies_run_app, IH.
  set (c := [_; _]). assert (Hc : ∀ k, copies_run c rows l v k =
    if (l =? a.(il)) && (id <=? k) && (k <? id + nm) then rows l v (i + (k - id)) else rows l v k).
  { intros k. unfold c, copies_run. cbn [foldl]. unfold copy_rows. cbn [gc_layer gc_v gc_src gc_dst gc_n].
    destruct (Z.eqb_spec l a.(il)); cbn [andb]; [|done].
    destruct v; cbn [Bool.eqb andb]; destruct ((id <=? k) && (k <? id + nm)); done. }
  rewrite !Hc. cbn [il]. destruct (Z.eqb_spec l a.(il)) as [->|Hne]; cbn [andb].
  - rewrite (bool_decide_eq_true_2 (il a ∈ il a :: _)) by apply list_elem_of_here. cbn [andb].
    destruct (Z.leb_spec id j), (Z.ltb_spec j (id + nm)); cbn [andb]; rewrite ?andb_false_r; try done.
    rewrite andb_true_r. destruct (bool_decide _); [|done]. destruct (Z.ltb_spec (i + (j - id)) (id + nm)); [lia|].
    by rewrite andb_false_r.
  - replace (bool_decide (l ∈ il a :: (il <$> ls))) with (bool_decide (l ∈ il <$> ls)); [done|].
    apply bool_decide_ext. rewrite elem_of_cons. tauto.
Qed.

(** ** The graph *)
Section graph.
Context (u : llama_kv_cache_unified) (Hrows : Forall (embd_ok u) u.(layers)).
Context (cs : llama_kv_cells_unified) (N U mx nm : Z) (ids : list Z).
Context (HP : plan_part cs N U mx U ids nm).

Lemma here_copies i id n : otraverse (layer_copies u i id n) u.(layers) =
    (if (n + i <=? TOKENS_PER_CHUNK) && (n + id <=? TOKENS_PER_CHUNK) || bool_decide (u.(layers) = [])
     then Ok ((λ l, [GraphCopy l.(il) false i id n; GraphCopy l.(il) true i id n]) <$> u.(layers)) else Ub).
Proof.
  destruct (_ && _) eqn:E; cbn [orb].
  - rewrite (otraverse_ok _ (λ l, [GraphCopy l.(il) false i id n; GraphCopy l.(il) true i id n])); [done|].
    intros l Hl. rewrite layer_copies_eq by (by rewrite Forall_forall in Hrows; apply Hrows). by rewrite E.
  - destruct (layers u) as [|l ls] eqn:El; [done|]. rewrite bool_decide_eq_false_2 by done. cbn [otraverse].
    rewrite layer_copies_eq by (by inversion Hrows). by rewrite E.
Qed.

(** The rows once the cells from [i] on have been copied. *)
Definition rows_moved {A} (i : Z) (rows rows' : Z → bool → Z → A) : Prop :=
  ∀ l v, l ∈ il <$> u.(layers) →
    (∀ j d, i <= j < N → moved_at N ids j = true → ids !! Z.to_nat j = Some d → rows' l v d = rows l v j) ∧
    (∀ k, (∀ j, i <= j < N → moved_at N ids j = true → ids !! Z.to_nat j ≠ Some k) → rows' l v k = rows l v k).

(** One round of the loop: a cell that stays or a block. *)
Inductive round (i : Z) : Prop :=
| RoundStay : moved_at N ids i = false → round i
| RoundBlock id n : ids !! Z.to_nat i = Some id → id ≠ N → id ≠ i → 1 <= n → i + n <= N →
    run_length (S (length ids)) ids i id 1 = Ok n →
    (∀ x, 0 <= x < n → ids !! Z.to_nat (i + x) = Some (id + x) ∧ moved_at N ids (i + x) = true) →
    U <= i → 0 <= id → id + n <= U →
    count (starts_at N ids) (i + n) - count (starts_at N ids) (i + 1) = 0 →
    (i + n < N → starts_at N ids (i + n) = moved_at N ids (i + n)) → round i.

Lemma round_at i : 0 <= i < N → round i.
Proof.
  intros Hi. destruct (moved_at N ids i) eqn:Em; [|by apply RoundStay].
  pose proof (pp_len _ _ _ _ _ _ _ HP) as Hl.
  destruct (moved_dest cs N U mx nm ids HP i Hi Em) as (id & Hid & HidN & HU & _ & HdU & _).
  destruct (run_length_spec cs N U mx nm ids HP (S (length ids)) i id 1) as (n & Hrl & Hn & Hin & Hx & Hend); try lia.
  { intros x Hx. assert (x = 0) as -> by lia. by rewrite !Z.add_0_r. }
  pose proof (block_moved cs N U mx nm ids HP i id n ltac:(lia) Hin Em Hx) as Hb.
  destruct (Hb (n - 1) ltac:(lia) ltac:(lia)) as (_ & _ & _ & Hlast).
  assert (Hpre : ∀ x, 1 <= x → x <= n → i + x < N → (0 <? i + x) && moved_at N ids (i + x - 1) = true ∧
    Z.succ <$> ids !! Z.to_nat (i + x - 1) = Some (id + x)).
  { intros x H1 H2 H3. replace (i + x - 1) with (i + (x - 1)) by lia. rewrite (proj2 (Z.ltb_lt 0 (i + x))) by lia.
    destruct (Hb (x - 1) ltac:(lia) ltac:(lia)) as (-> & _). rewrite Hx by lia. split; [done|]. cbn. f_equal. lia. }
  apply (RoundBlock i id n); try done; try lia.
  - intros x Hxn. split; [by apply Hx|]. apply Hb; lia.
  - rewrite (count_none (starts_at N ids) (i + 1) (i + n)); [lia|lia|]. intros j Hj. replace j with (i + (j - i)) by lia.
    unfold starts_at. destruct (Hpre (j - i)) as [-> ->]; [lia..|]. rewrite (Hx (j - i)) by lia.
    by rewrite bool_decide_eq_true_2, andb_false_r by done.
  - intros Hlt. unfold starts_at. destruct (Hpre n) as [-> ->]; [lia..|]. cbn [andb].
    rewrite bool_decide_eq_false_2 by (by apply Hend). by rewrite andb_true_r.
Qed.

(** The loop, one round. *)
Lemma build_stay fuel i : 0 <= i < N → moved_at N ids i = false →
  build_graph_defrag (S fuel) u ids i = build_graph_defrag fuel u ids (i + 1).
Proof.
  intros Hi Hm. cbn [build_graph_defrag]. rewrite (pp_len _ _ _ _ _ _ _ HP), (proj2 (Z.ltb_lt i N)) by lia.
  destruct (unmoved_id cs N U mx nm ids HP i Hi Hm) as (d & Hd & HdN). rewrite (id_at_some ids i d) by (done || lia). cbn [obind].
  replace ((i =? d) || (d =? N)) with true; [done|]. destruct HdN; subst d; by rewrite Z.eqb_refl, ?orb_true_r.
Qed.

Lemma build_block fuel i id n : 0 <= i < N → ids !! Z.to_nat i = Some id → id ≠ N → id ≠ i →
  run_length (S (length ids)) ids i id 1 = Ok n →
  build_graph_defrag (S fuel) u ids i =
    (here <~ otraverse (layer_copies u i id n) u.(layers) ;;
     rest <~ build_graph_defrag fuel u ids (i + n) ;; Ok (concat here ++ rest)).
Proof.
  intros Hi Hd HdN Hdi Hrl. cbn [build_graph_defrag]. rewrite (pp_len _ _ _ _ _ _ _ HP), (proj2 (Z.ltb_lt i N)) by lia.
  rewrite (id_at_some ids i id) by (done || lia). cbn [obind].
  rewrite (proj2 (Z.eqb_neq i id)), (proj2 (Z.eqb_neq id N)) by done. cbn [orb]. rewrite Hrl. cbn [obind].
  by replace (i + (n - 1) + 1) with (i + n) by lia.
Qed.

Lemma build_end fuel : build_graph_defrag (S fuel) u ids N = Ok [].
Proof. cbn [build_graph_defrag]. by rewrite (pp_len _ _ _ _ _ _ _ HP), (proj2 (Z.ltb_ge N N)) by lia. Qed.

Lemma build_run fuel : N <= TOKENS_PER_CHUNK → ∀ i, 0 <= i <= N → N - i < Z.of_nat fuel →
  (i < N → starts_at N ids i = moved_at N ids i) →
  ∃ cp, build_graph_defrag fuel u ids i = Ok cp ∧
    Z.of_nat (length cp) = 2 * Z.of_nat (length u.(layers)) * (count (starts_at N ids) N - count (starts_at N ids) i) ∧
    ∀ A (rows : Z → bool → Z → A), rows_moved i rows (copies_run cp rows).
Proof.
  intros HC. induction fuel as [|fuel IH]; intros i Hi Hf Hs; [lia|].
  destruct (decide (i = N)) as [->|HiN].
  { exists []. rewrite build_end. split; [done|]. split; [cbn; lia|]. intros A rows l v Hl. split; [lia|done]. }
  pose proof (count_S (starts_at N ids) i ltac:(lia)) as HcS. rewrite (Hs ltac:(lia)) in HcS.
  destruct (round_at i ltac:(lia)) as [Hm|id n Hid HidN Hidi Hn Hin Hrl Hx HU H0 HnU Hst Hnext].
  - rewrite build_stay by (done || lia). rewrite Hm in HcS.
    destruct (IH (i + 1)) as (cp & -> & Hlen & Hr); try lia.
    + intros Hlt. unfold starts_at. replace (i + 1 - 1) with i by lia. by rewrite Hm, andb_false_r, andb_true_r.
    + exists cp. split; [done|]. split; [rewrite Hlen; lia|]. intros A rows l v Hl. destruct (Hr A rows l v Hl) as [H1 H2]. split.
      * intros j d Hj Hmj. apply H1; [|done]. destruct (decide (j = i)) as [->|]; [congruence|lia].
      * intros k Hk. apply H2. intros j Hj. apply Hk. lia.
  - rewrite (build_block fuel i id n), here_copies by (done || lia).
    rewrite (proj2 (Z.leb_le (n + i) _)), (proj2 (Z.leb_le (n + id) _)) by lia. cbn [andb orb obind].
    destruct (IH (i + n)) as (cp & -> & Hlen & Hr); try lia; [done|]. cbn [obind]. eexists. split; [reflexivity|].
    assert (Hmi : moved_at N ids i = true) by (destruct (Hx 0 ltac:(lia)) as [_ H]; by rewrite Z.add_0_r in H). rewrite Hmi in HcS.
    split.
    { rewrite length_app, Nat2Z.inj_add, Hlen.
      assert (E : ∀ ls, Z.of_nat (length (block_copies ls i id n)) = 2 * Z.of_nat (length ls)).
      { induction ls as [|a ls IHl]; [done|]. unfold block_copies in *. cbn [fmap list_fmap concat]. rewrite length_app. cbn [length]. lia. }
      fold (block_copies u.(layers) i id n). rewrite E. nia. }
    intros A rows l v Hl. fold (block_copies u.(layers) i id n). rewrite copies_run_app.
    destruct (Hr A (copies_run (block_copies u.(layers) i id n) rows) l v Hl) as [H1 H2].
    assert (Hb : ∀ j, copies_run (block_copies u.(layers) i id n) rows l v j =
      if (id <=? j) && (j <? id + n) then rows l v (i + (j - id)) else rows l v j).
    { intros j. rewrite block_rows by lia. by rewrite bool_decide_eq_true_2. }
    split.
    + intros j d Hj Hmj Hd. destruct (Z.lt_ge_cases j (i + n)) as [Hlt|Hge].
      * destruct (Hx (j - i) ltac:(lia)) as [Hd' _]. replace (i + (j - i)) with j in Hd' by lia.
        assert (d = id + (j - i)) as -> by congruence. rewrite H2.
        -- rewrite Hb. rewrite (proj2 (Z.leb_le _ _)), (proj2 (Z.ltb_lt _ _)) by lia. cbn [andb]. f_equal. lia.
        -- intros k Hk Hmk Hkd. assert (id + (j - i) ≠ N) by lia.
           pose proof (pp_inj _ _ _ _ _ _ _ HP j k _ ltac:(lia) ltac:(lia) Hd Hkd ltac:(lia)). lia.
      * rewrite (H1 j d) by (done || lia). rewrite Hb. rewrite (proj2 (Z.ltb_ge j _)) by lia. by rewrite andb_false_r.
    + intros k Hk. rewrite H2 by (intros j Hj; apply Hk; lia). rewrite Hb.
      destruct (Z.leb_spec id k), (Z.ltb_spec k (id + n)); try done. cbn [andb]. exfalso.
      destruct (Hx (k - id) ltac:(lia)) as [Hd' Hm']. apply (Hk (i + (k - id)) ltac:(lia) Hm'). rewrite Hd'. f_equal. lia.
Qed.

(** A copy from behind the base tensor fails the assertion of its view. *)
Lemma build_beyond fuel : u.(layers) ≠ [] → ∀ i j, 0 <= i <= j → j < N → moved_at N ids j = true → TOKENS_PER_CHUNK <= j →
  build_graph_defrag fuel u ids i = Ub.
Proof.
  intros HL. induction fuel as [|fuel IH]; intros i j Hi Hj Hm Hb; [done|].
  destruct (round_at i ltac:(lia)) as [Hmi|id n Hid HidN Hidi Hn Hin Hrl Hx HU H0 HnU Hst Hnext].
  - rewrite build_stay by (done || lia). apply (IH (i + 1) j); try done; [|lia..]. destruct (decide (i = j)); [congruence|lia].
  - rewrite (build_block fuel i id n), here_copies by (done || lia). rewrite (bool_decide_eq_false_2 (layers u = [])) by done.
    rewrite orb_false_r. destruct (Z.leb_spec (n + i) TOKENS_PER_CHUNK); [|done]. destruct (n + id <=? _); [|done]. cbn [andb obind].
    by rewrite (IH (i + n) j) by (done || lia).
Qed.
End graph.

(** ** A whole defragmentation *)

Lemma set_max_in (X : gset Z) d : X ≠ ∅ → set_max X d ∈ X.
Proof.
  intros HX. unfold set_max. destruct (elements X) as [|x l] eqn:E; [destruct HX; apply leibniz_equiv, elements_empty_inv, E|].
  assert (H : foldr Z.max x l ∈ x :: l).
  { clear E. induction l as [|y l IH]; [by left|]. cbn [foldr].
    destruct (Z.max_spec y (foldr Z.max x l)) as [[_ ->]|[_ ->]]; [|by right; left].
    apply elem_of_cons in IH as [IH|IH]; [rewrite IH; by left|by right; right]. }
  rewrite <- E in H. by apply elem_of_elements in H.
Qed.

Lemma used_bounds cs : cells_ok cs → let N := cells_used_max_p1 cs in let U := cells_get_used cs in
  0 <= U <= N ∧ N <= cells_size cs ∧ ∀ k, 0 <= k → used_at cs k = true → k < N.
Proof.
  intros Hok. pose proof (used_max_bounds cs Hok). rewrite (get_used_count cs Hok).
  pose proof (count_between (used_at cs) 0 (cells_used_max_p1 cs) ltac:(lia)) as Hb. rewrite count_0 in Hb.
  split; [lia|]. split; [lia|]. intros k Hk Hu. assert (Hin : k ∈ cs.(used)); [|apply (used_at_in _ _ Hok) in Hin as [? _]; lia].
  apply (ck_used _ Hok). split; [done|]. unfold used_at in Hu. destruct (cell_list cs !! Z.to_nat k) as [c|]; [|done].
  exists c. split; [done|]. by apply negb_true_iff, Z.eqb_neq in Hu.
Qed.

(** In a full plan the last used cell moves. *)
Lemma last_moves cs mx nm ids : cells_ok cs → let N := cells_used_max_p1 cs in let U := cells_get_used cs in
  0 < nm → plan_part cs N U mx U ids nm → plan_full cs N U ids → U < N ∧ moved_at N ids (N - 1) = true.
Proof.
  intros Hok N U Hnm HP Hf. destruct (used_bounds cs Hok) as (HU & HN & Hlt). fold N U in HU, HN, Hlt.
  pose proof (moved_misplaced cs N U mx nm ids HU HP) as Hm. pose proof (pp_starts _ _ _ _ _ _ _ HP).
  destruct (decide (U = N)) as [E|]; [rewrite E in Hm; lia|]. split; [lia|].
  assert (Hin : N - 1 ∈ cs.(used)).
  { unfold N, cells_used_max_p1. replace (set_max cs.(used) (-1) + 1 - 1) with (set_max cs.(used) (-1)) by lia. apply set_max_in.
    intros E. assert (N = 0) by (unfold N, cells_used_max_p1; by rewrite E). lia. }
  apply (used_at_in _ _ Hok) in Hin as [_ Hin]. destruct (moved_at N ids (N - 1)) eqn:Em; [done|].
  destruct (unmoved_id cs N U mx nm ids HP (N - 1) ltac:(lia) Em) as (d & Hd & Hdn). exfalso.
  destruct (decide (d = N)) as [->|Hne]; [by apply (Hf (N - 1) ltac:(lia) Hin)|].
  destruct (pp_high _ _ _ _ _ _ _ HP (N - 1) d ltac:(lia) Hd Hne) as (_ & ? & _). lia.
Qed.

Definition max_moves (n : Z) (u : llama_kv_cache_unified) : Z :=
  (n - 2 * Z.of_nat (length u.(layers))) / (6 * Z.of_nat (length u.(layers))).

Section whole.
Context (n : Z) (u : llama_kv_cache_unified).
Context (Hok : cells_ok u.(cells)) (HL : u.(layers) ≠ []) (Hrows : Forall (embd_ok u) u.(layers)).
Context (Hn : 8 * Z.of_nat (length u.(layers)) <= n < 2 ^ 31).


(** A K-shift of a cache of more than one chunk. *)
Lemma shift_beyond shifted defragged ids : TOKENS_PER_CHUNK < cells_size u.(cells) →
  update true shifted defragged true ids u = Ub.
Proof.
  intros Hs. unfold update. cbn [andb]. unfold shift_views. destruct (layers u) as [|l ls] eqn:E; [done|]. cbn [otraverse].
  inversion Hrows as [|? ? (? & ? & _)]. rewrite view_fits_eq by done. rewrite (proj2 (Z.leb_gt _ _)) by lia. done.
Qed.

Lemma threshold_large thold ids st s :
  init_update n thold false u = Ok (s, ids, st) → ids ≠ [] →
  defrag_prepare n u = Ok ids ∧ s = u.(cells).(has_shift) ∧ 2048 <= cells_used_max_p1 u.(cells).
Proof.
  intros Hi Hne. unfold init_update in Hi. cbn [negb andb] in Hi. destruct (SFltb f32_zero thold) eqn:E0; [|injection Hi as _ <- _; done].
  destruct (SFltb thold (fragmentation u)) eqn:E1; [|injection Hi as _ <- _; done].
  apply obind_ok in Hi as (ids0 & Hp & [= <- <- _]). split; [done|]. split; [done|].
  unfold fragmentation in E1. destruct (Z.leb_spec 2048 (cells_used_max_p1 (cells u))); [done|].
  destruct thold as [[]|[]| |[] m e]; discriminate E0 || discriminate E1.
Qed.

(** C37: a cache of more than one chunk is never updated: a K-shift aborts, and so
    does every defragmentation a fragmentation threshold asks for, when its moves
    suffice or the tokens fill a chunk. *)
Theorem updates_abort thold :
  (TOKENS_PER_CHUNK < cells_size u.(cells) → ∀ shifted defragged ids, update true shifted defragged true ids u = Ub) ∧
  ∀ do_shift ids st, init_update n thold false u = Ok (do_shift, ids, st) → ids ≠ [] →
    misplaced u.(cells) < max_moves n u ∨ TOKENS_PER_CHUNK <= cells_get_used u.(cells) →
    ∀ shifted defragged, update true shifted defragged do_shift ids u = Ub.
Proof.
  split; [intros; by apply shift_beyond|]. intros s ids st Hi Hne Hm shifted defragged.
  destruct (threshold_large thold ids st s Hi Hne) as (Hprep & -> & Hbig).
  destruct (used_bounds _ Hok) as (HU & HN & Hlt). unfold TOKENS_PER_CHUNK in *.
  destruct (has_shift (cells u)); [by apply shift_beyond; unfold TOKENS_PER_CHUNK; lia|].
  destruct (defrag_prepare_ok n u Hok HL Hn) as (ids' & E & Hpl). rewrite Hprep in E. injection E as <-.
  destruct Hpl as [[-> _]|(_ & (nm & Hnm & HP) & Hfull)]; [done|].
  set (N := cells_used_max_p1 u.(cells)) in *. set (U := cells_get_used u.(cells)) in *.
  destruct (apply_moves_run _ Hok N U _ nm ids (conj HU HN) HP) as (cs' & Hmv & _).
  unfold update. cbn [andb obind negb]. rewrite bool_decide_eq_false_2 by done. rewrite Hmv. cbn [obind].
  assert (Hj : ∃ j, 0 <= j < N ∧ 256 <= j ∧ moved_at N ids j = true).
  { destruct Hm as [Hm|Hm].
    - destruct (last_moves _ _ nm ids Hok Hnm HP (Hfull Hm)) as [_ ?]. exists (N - 1). split; [lia|]. split; [lia|done].
    - assert (Hc : ∃ j, U <= j < N ∧ moved_at N ids j = true).
      { destruct (decide (Exists (λ j, moved_at N ids j = true) (seqZ U (N - U)))) as [He|He].
        - apply Exists_exists in He as (j & Hj%elem_of_seqZ & ?). exists j. split; [lia|done].
        - exfalso. pose proof (pp_starts _ _ _ _ _ _ _ HP) as Hst. rewrite <- (count_0 (moved_at N ids)) in Hnm.
          assert (E : count (moved_at N ids) N = count (moved_at N ids) 0).
          { apply count_none; [lia|]. intros j Hj. destruct (moved_at N ids j) eqn:Em; [|done]. exfalso. apply He, Exists_exists.
            destruct (moved_dest _ N U _ nm ids HP j Hj Em) as (d & _ & _ & ? & _). exists j. split; [apply elem_of_seqZ; lia|done]. }
          lia. }
      destruct Hc as (j & Hj & Hmj). exists j. split; [lia|]. split; [lia|done]. }
  destruct Hj as (j & Hj & Hj' & Hmj).
  rewrite (build_beyond (with_cells u 0 cs') Hrows _ N U _ nm ids HP (S (length ids)) HL 0 j); try done; lia.
Qed.
End whole.

(** ** A cache of 256 cells with four tokens and one of 2304 cells with two *)
(** [n] cells; those of [occ] hold the position of their index in sequence 0. *)
Definition scattered (n : Z) (occ : list Z) : llama_kv_cells_unified :=
  KvCells false (list_to_set occ)
    ((λ i, if bool_decide (i ∈ occ) then KvCell i 0 {[0]} else empty_cell) <$> seqZ 0 n)
    (λ s, if s =? 0 then list_to_set occ else ∅).

Lemma scattered_at n occ i c : 0 <= n → (scattered n occ).(cell_list) !! i = Some c ↔
  Z.of_nat i < n ∧ c = if bool_decide (Z.of_nat i ∈ occ) then KvCell (Z.of_nat i) 0 {[0]} else empty_cell.
Proof.
  intros Hn. cbn [scattered cell_list]. rewrite list_lookup_fmap_Some. split.
  - intros (j & -> & Hj). apply lookup_seqZ in Hj as [-> Hj]. rewrite Z.add_0_l. done.
  - intros [Hi ->]. exists (Z.of_nat i). split; [done|]. apply lookup_seqZ. lia.
Qed.

Lemma scattered_ok n occ : 0 <= n < 2 ^ 31 - 1 → (∀ i, i ∈ occ → 0 <= i < n) → cells_ok (scattered n occ).
Proof.
  intros Hn Hocc.
  assert (Hcell : ∀ i c, (scattered n occ).(cell_list) !! i = Some c →
    (Z.of_nat i < n ∧ Z.of_nat i ∈ occ ∧ c = KvCell (Z.of_nat i) 0 {[0]}) ∨ c = empty_cell).
  { intros i c [Hi ->]%scattered_at; [|lia]. case_bool_decide; auto. }
  assert (Hat : ∀ i, i ∈ occ → (scattered n occ).(cell_list) !! Z.to_nat i = Some (KvCell i 0 {[0]})).
  { intros i Hi. specialize (Hocc i Hi). apply scattered_at; [lia|]. rewrite Z2Nat.id by lia. split; [lia|]. by rewrite bool_decide_eq_true_2 by done. }
  split.
  - intros i. cbn [scattered used]. rewrite elem_of_list_to_set. split.
    + intros Hi. specialize (Hat i Hi). specialize (Hocc i Hi). split; [lia|]. exists (KvCell i 0 {[0]}). split; [done|]. cbn. lia.
    + intros (Hi & c & [(_ & Hin & ->)| ->]%Hcell & Hp); [|by destruct Hp]. by rewrite Z2Nat.id in Hin by done.
  - intros i c [(? & ? & ->)| ->]%Hcell; cbn; lia.
  - intros i c [(? & ? & ->)| ->]%Hcell; cbn; [lia|done].
  - intros i c s [(? & ? & ->)| ->]%Hcell; cbn; [intros ->%elem_of_singleton; unfold LLAMA_MAX_SEQ; lia|by intros ?%elem_of_empty].
  - intros s p. cbn [scattered seq_pos]. split.
    + destruct (Z.eqb_spec s 0) as [->|]; [|by intros ?%elem_of_empty]. rewrite elem_of_list_to_set. intros Hp.
      exists (Z.to_nat p), (KvCell p 0 {[0]}). split; [by apply Hat|]. split; [cbn; set_solver|done].
    + intros (i & c & [(_ & Hin & ->)| ->]%Hcell & Hs & Hp); [|by apply elem_of_empty in Hs].
      cbn in Hs, Hp. apply elem_of_singleton in Hs as ->. subst p. cbn. by apply elem_of_list_to_set.
Qed.

Definition scattered_cache (n : Z) (occ : list Z) : llama_kv_cache_unified :=
  KvUnified [KvLayer 0 F16 F16; KvLayer 1 F16 F16] (λ _, 64) (λ _, 64) false 1 32 0 SWA_NONE 5 (scattered n occ) (λ _, true) 1 []
    (Memory ∅ 1 (λ _, None) (λ _, None) (λ _, [])) None.

Lemma scattered_embd n occ : Forall (embd_ok (scattered_cache n occ)) (scattered_cache n occ).(layers).
Proof. repeat constructor. Qed.

Definition four := scattered_cache 256 [1; 2; 40; 200].
Definition far := scattered_cache 2304 [0; 2300].

Lemma four_ok : cells_ok four.(cells).
Proof. apply scattered_ok; [lia|]. intros i Hi. repeat (apply elem_of_cons in Hi as [->|Hi]; [lia|]). by apply elem_of_nil in Hi. Qed.
Lemma far_ok : cells_ok far.(cells).
Proof. apply scattered_ok; [lia|]. intros i Hi. repeat (apply elem_of_cons in Hi as [->|Hi]; [lia|]). by apply elem_of_nil in Hi. Qed.


(** Cells 1, 2, 40 and 200: the last two go to the holes 3 and 0. *)
Lemma four_plan : ∃ ids, defrag_prepare 65536 four = Ok ids ∧ ids !! 200%nat = Some 0 ∧ ids !! 40%nat = Some 3.
Proof.
  assert (H : match defrag_prepare 65536 four with Ok ids => ids !! 200%nat = Some 0 ∧ ids !! 40%nat = Some 3 | _ => False end)
    by (vm_compute; done).
  destruct (defrag_prepare 65536 four) as [ids| |]; [by exists ids|done|done].
Qed.

Lemma four_has_200 : 200 ∈ [1; 2; 40; 200].
Proof. do 3 right. left. Qed.

Lemma four_used : cells_used_max_p1 four.(cells) = 201 ∧ cells_get_used four.(cells) = 4.
Proof. vm_compute. done. Qed.
Lemma four_moves : misplaced four.(cells) < max_moves 65536 four.
Proof. vm_compute. done. Qed.
Lemma far_moves : misplaced far.(cells) < max_moves 65536 far.
Proof. vm_compute. done. Qed.

Lemma defrag_prepare_ok_witness : ∃ ids, defrag_prepare 65536 four = Ok ids ∧ planned four.(cells) (max_moves 65536 four) ids.
Proof. apply (defrag_prepare_ok 65536 four four_ok); [done|split; [vm_compute; discriminate|done]]. Defined.


Lemma far_update : ∃ ids, init_update 65536 (f32_div (f32_of_Z 1) (f32_of_Z 10)) false far =
  Ok (false, ids, LLAMA_MEMORY_STATUS_SUCCESS) ∧ ids ≠ [].
Proof.
  assert (H : match init_update 65536 (f32_div (f32_of_Z 1) (f32_of_Z 10)) false far with
              | Ok (false, _ :: _, LLAMA_MEMORY_STATUS_SUCCESS) => True | _ => False end) by (vm_compute; done).
  destruct (init_update _ _ _ _) as [[[[|] [|d ids]] [| | |]]| |]; try done. by exists (d :: ids).
Qed.

Lemma updates_abort_witness : update true true true true [] far = Ub ∧
  ∃ ids, init_update 65536 (f32_div (f32_of_Z 1) (f32_of_Z 10)) false far = Ok (false, ids, LLAMA_MEMORY_STATUS_SUCCESS) ∧
    update true true true false ids far = Ub.
Proof.
  destruct (updates_abort 65536 far far_ok ltac:(done) (scattered_embd _ _) ltac:(split; [vm_compute; discriminate|done])
    (f32_div (f32_of_Z 1) (f32_of_Z 10))) as [Hshift Hdefrag].
  split; [apply Hshift; vm_compute; done|]. destruct far_update as (ids & Hi & Hne). exists ids. split; [exact Hi|].
  by apply (Hdefrag false ids LLAMA_MEMORY_STATUS_SUCCESS Hi Hne (or_introl far_moves)).
Defined.

(** When the graph of a defragmentation is not computed the cells have moved and
    the rows have not. *)
Example failed_defrag : ∃ ids u', defrag_prepare 65536 four = Ok ids ∧
  update true true false false ids four = Ok (false, u', []) ∧
  u'.(cells).(cell_list) !! 0%nat = Some (KvCell 200 0 {[0]}) ∧ u'.(cells).(cell_list) !! 200%nat = Some empty_cell.
Proof.
  assert (H : match defrag_prepare 65536 four with
    | Ok ids => match update true true false false ids four with
                | Ok (false, u', []) => u'.(cells).(cell_list) !! 0%nat = Some (KvCell 200 0 {[0]}) ∧
                                        u'.(cells).(cell_list) !! 200%nat = Some empty_cell
                | _ => False end
    | _ => False end) by (vm_compute; done).
  destruct (defrag_prepare 65536 four) as [ids| |]; try done. exists ids.
  destruct (update true true false false ids four) as [[[[|] u'] [|]]| |]; try done. by exists u'.
Qed.
