(* ===== verification/KvExample.v ===== *)
(** A small concrete cache on which the theorems about the KV state are applied:
    one layer, two chunks of 512 bytes, half of them to compress, a codec that
    copies, and an environment where every call succeeds. *)
From S2P Require Import Prelude Floats Profile KvTypes KvPlan KvLadder KvInv KvFrame KvSwapOut.
From S2P Require Import KvSwapOutThms KvGrow.

Definition copy_codec : Codec := {|
  enc h d := (d, []); dec h c _ := take (Z.to_nat (512 * h)) c;
  comp_bound h := 1024 * h; meta_bytes _ := 0 |}.

Lemma copy_codec_laws : CodecLaws copy_codec.
Proof.
  split; simpl; intros; try lia.
  - rewrite length_take. lia.
  - rewrite take_app_le by lia. done.
Qed.

Definition all_ok : Env := {|
  fresh_bytes _ := []; arena_svm := false; open_ok _ := true; pwrite_ok _ := true;
  svm_alloc_ok _ := true; mlock_ok := true |}.

#[local] Existing Instance copy_codec.
#[local] Existing Instance copy_codec_laws.
#[local] Existing Instance all_ok.

(** K and V of chunk [c] of layer 0 in one block [c + 1], for three chunks. *)
Definition demo_ptr (o : Z) (p : pos) : ptr := Some (Z.to_pos (p.2 + 1), o).
Definition demo_mem : memory :=
  Memory (list_to_map [(1%positive, replicate 1024 1); (2%positive, replicate 1024 2);
                       (3%positive, replicate 1024 3)])
    4 (demo_ptr 0) (demo_ptr 512) (λ _, []).

Lemma demo_tensors N : 0 < N <= 3 → tensors_ok 1 N 512 demo_mem.
Proof.
  intros HN. split.
  - intros [l c] H1 H2. cbn [fst snd] in *.
    assert (c = 0 ∨ c = 1 ∨ c = 2) as Hc by lia.
    exists (Z.to_pos (c + 1)), (Z.to_pos (c + 1)), (replicate 1024 (c + 1)).
    destruct Hc as [->|[->| ->]]; (split; [reflexivity|split; [reflexivity|]];
      left; split; [reflexivity|split; reflexivity]).
  - intros [l c] [l' c'] b H1 H2 H3 H4 Hne Hu Hu'. cbn [fst snd] in *.
    unfold uses, demo_mem, demo_ptr in *. cbn in Hu, Hu'.
    assert (Z.to_pos (c + 1) = b) by (destruct Hu as [[? [= ? ?]]|[? [= ? ?]]]; done).
    assert (Z.to_pos (c' + 1) = b) by (destruct Hu' as [[? [= ? ?]]|[? [= ? ?]]]; done).
    apply Hne. f_equal; lia.
  - intros b Hb. cbn [heap demo_mem next_block list_to_map foldr fst snd] in *.
    destruct (decide (b < 4)%positive) as [|Hge]; [done|]. exfalso.
    do 3 rewrite lookup_insert_ne in Hb by lia. rewrite lookup_empty in Hb. by destruct Hb.
Qed.

Definition half : float := f32_div (f32_of_Z 1) (f32_of_Z 2).
Definition demo_tab : chunks :=
  Chunks (λ _, Raw) (λ _, None) (λ _, None) (λ _, CC 0 0 0 []) (λ _, CC 0 0 0 [])
    (λ _, SC 0 0) (λ _, SC 0 0).
Definition demo_ctor : outcome kv_state := mzcache_kv_state_ctor 1 1 2 0 half demo_mem demo_tab.

Lemma ctor_ok_witness : ∃ s, demo_ctor = Ok s ∧ ladder_ok s ∧ mem_ok s.
Proof.
  destruct (ctor_ok 1 1 2 0 half demo_mem demo_tab) as (s & Hs & Hl & Hm & _);
    [done|done|done|done|vm_compute; reflexivity|done|exact (demo_tensors 2 ltac:(lia))|].
  exists s. split; [exact Hs|]. split; [exact Hl|exact Hm].
Defined.

(** The constructed state. *)
Lemma demo_state : ∃ s, demo_ctor = Ok s ∧ ladder_ok s ∧ mem_ok s ∧ clean_ladder s = true ∧
  s.(num_layers) = 1 ∧ s.(num_chunks_per_tensor) = 2 ∧ s.(per_layer_balance) = 0 ∧
  s.(decomp_load_ratio) = half ∧ raw_chunk_bytes s = 512 ∧ s.(mem).(heap) = demo_mem.(heap) ∧
  s.(mem).(svm_k) = demo_mem.(svm_k) ∧ s.(mem).(svm_v) = demo_mem.(svm_v) ∧
  s.(mem).(next_block) = 4%positive ∧ s.(pending_chunks_total) = 0 ∧
  comp_rem s = 1 ∧ store_rem s = 1.
Proof.
  destruct (ctor_spec 1 1 2 0 half demo_mem demo_tab) as (s & Hs & Hl & Hm & Hc & Hr1 & Hr2 & _);
    [done|done|done|done|vm_compute; reflexivity|done|exact (demo_tensors 2 ltac:(lia))|].
  exists s. split; [exact Hs|]. split; [exact Hl|]. split; [exact Hm|]. split; [exact Hc|].
  assert (Hall : match demo_ctor with
    | Ok s => (s.(pln).(max_comp_chunks), s.(pln).(max_store_chunks))
    | _ => (0, 0) end = (1, 1)) by (vm_compute; reflexivity).
  change (demo_ctor = Ok s) in Hs. rewrite Hs in Hall. injection Hall as Hmc Hms. rewrite Hr1, Hr2.
  destruct (ctor_fields _ _ _ _ _ _ _ _ Hs) as (E1 & E2 & E3 & E4 & E5 & E6 & E7).
  unfold raw_chunk_bytes. rewrite E4, E7. repeat split; assumption.
Qed.

Lemma demo_tensors_of s N : 0 < N <= 3 → s.(mem).(heap) = demo_mem.(heap) →
  s.(mem).(svm_k) = demo_mem.(svm_k) → s.(mem).(svm_v) = demo_mem.(svm_v) →
  s.(mem).(next_block) = 4%positive → tensors_ok 1 N 512 s.(mem).
Proof.
  intros HN Hh Hk Hv Hn. destruct (demo_tensors N HN) as [H1 H2 H3].
  split; rewrite ?Hh, ?Hk, ?Hv, ?Hn; done.
Qed.

Lemma mzcache_compress_chunks_spec_witness : ∃ s s',
  demo_ctor = Ok s ∧ mzcache_compress_chunks 1 s = Ok s' ∧ ladder_ok s' ∧ mem_ok s' ∧
  s'.(cnt).(n_cur_comp_chunks) = 1.
Proof.
  destruct demo_state as (s & Hs & Hl & Hm & Hc & H1 & H2 & H3 & H4 & H5 & H6 & H7 & H8 & H9 & H10 & Hr & _).
  destruct (mzcache_compress_chunks_spec 1 s ltac:(lia) Hl Hm) as (s' & Hrun & Hl' & Hm' & Hn & _).
  exists s, s'. do 4 (split; [assumption|]). rewrite Hn, Hr.
  unfold clean_ladder in Hc. apply andb_prop in Hc as [[Hc _]%andb_prop _].
  apply Z.eqb_eq in Hc. rewrite Hc. reflexivity.
Defined.

Lemma mzcache_store_chunks_spec_witness : ∃ s s',
  demo_ctor = Ok s ∧ mzcache_store_chunks 1 s = Ok s' ∧ ladder_ok s' ∧ mem_ok s' ∧
  store_rem s' = 0 ∧ ∀ q, in_range s q → view s' q = view s q.
Proof.
  destruct demo_state as (s & Hs & Hl & Hm & Hc & H1 & H2 & H3 & H4 & H5 & H6 & H7 & H8 & H9 & H10 & _ & Hr).
  destruct (mzcache_store_chunks_spec (Ev := all_ok) (λ _ : Z, eq_refl true) (λ _ : Z * Z, eq_refl true) 1 s ltac:(lia) Hl Hm)
    as (s' & Hrun & Hl' & Hm' & _ & Hrem & Hp).
  exists s, s'. do 4 (split; [assumption|]). split; [rewrite Hrem, Hr; reflexivity|].
  intros q Hq. apply (sp_view _ _ Hp q Hq).
Defined.

Lemma register_grown_chunks_ok_witness : ∃ s s',
  demo_ctor = Ok s ∧ register_grown_chunks 3 s = Ok s' ∧ grown 3 s s'.
Proof.
  destruct demo_state as (s & Hs & Hl & Hm & Hc & H1 & H2 & H3 & H4 & H5 & H6 & H7 & H8 & H9 & H10 & _).
  destruct (register_grown_chunks_ok 3 s Hl Hm Hc) as (s' & Hrun & Hg & _).
  - rewrite H3. lia.
  - rewrite H2. unfold MAX_CHUNKS_PER_TENSOR. lia.
  - rewrite H4. vm_compute. reflexivity.
  - rewrite H1, H5. apply demo_tensors_of; [lia|assumption..].
  - exists s, s'. split; [exact Hs|]. split; [exact Hrun|exact Hg].
Defined.

Lemma pending_growth_ok_witness : ∃ s s3,
  demo_ctor = Ok s ∧
  register_grown_chunks 3 (set_cnt s (Counters 1 0 0 0))
    = Ok (set_pending (set_cnt s (Counters 1 0 0 0)) 3) ∧
  apply_pending_growth (set_pending s 3) = Ok s3 ∧ grown 3 (set_pending s 3) s3.
Proof.
  destruct demo_state as (s & Hs & Hl & Hm & Hc & H1 & H2 & H3 & H4 & H5 & H6 & H7 & H8 & H9 & H10 & _).
  destruct (pending_growth_ok 3 (set_cnt s (Counters 1 0 0 0)) (set_pending s 3))
    as (Hreg & s3 & Hap & Hg & _).
  - simpl. rewrite H2. unfold MAX_CHUNKS_PER_TENSOR. lia.
  - reflexivity.
  - destruct Hl; split; assumption.
  - destruct Hm; split; assumption.
  - exact Hc.
  - simpl. rewrite H3. lia.
  - simpl. rewrite H10. reflexivity.
  - reflexivity.
  - simpl. rewrite H10. unfold MAX_CHUNKS_PER_TENSOR. lia.
  - simpl. rewrite H4. vm_compute. reflexivity.
  - simpl. rewrite H1. change (raw_chunk_bytes (set_pending s 3)) with (raw_chunk_bytes s).
    rewrite H5. apply demo_tensors_of; [lia|assumption..].
  - simpl in Hreg, Hap, Hg. rewrite H10 in Hreg, Hg. exists s, s3.
    split; [exact Hs|]. split; [exact Hreg|]. split; [exact Hap|exact Hg].
Defined.
