(* ===== verification/KvWitness.v ===== *)
(** The example of [KvExample] swapped out - one chunk compressed, one stored -
    and the theorems about swap-in and arena offload applied to it. *)
From Stdlib Require Import Sorting.Sorted.
From S2P Require Import Prelude Floats Profile ThreadPool KvTypes KvPlan KvLadder KvInv KvFrame.
From S2P Require Import KvSwapOut KvSwapOutThms KvGrow KvSwapIn Weight KvWorkers KvRestore.
From S2P Require Import KvRestoreW KvSystem KvSystemInv KvProgress KvOffload KvOffloadThms KvCore.
From S2P Require Import KvStart KvCycle KvFinish KvDone KvExample.

#[local] Existing Instance copy_codec.
#[local] Existing Instance copy_codec_laws.
#[local] Existing Instance all_ok.

Definition swap_ok : SwapEnv := {|
  odirect_write_ok _ := true; odirect_read_ok _ := true;
  pwrite_rets _ _ n := [Count n]; pread_rets _ _ n := [Count n] |}.
Definition reload_ok : ReloadEnv := {|
  weight_open_ok _ := true; weight_alloc_ok _ := true; weight_aligned := true;
  weight_read_ok _ := true |}.
#[local] Existing Instance swap_ok.
#[local] Existing Instance reload_ok.

Lemma swap_reads : preads_ok.
Proof.
  intros L i f n off buf Hoff Hn Hf Hb. cbn [pread_rets swap_ok full_pread].
  destruct (Z.ltb_spec 0 n) as [H0|H0]; [|cbn; lia].
  rewrite Z.sub_0_r, Z.add_0_r, !Z.min_l by lia. destruct (Z.leb_spec n 0); [lia|].
  cbn [full_pread fst]. destruct (Z.ltb_spec (0 + n) n); [lia|]. cbn [fst]. lia.
Qed.

Lemma demo_env : env_good.
Proof. split; try done. exact swap_reads. Qed.

Lemma demo_closed s : demo_ctor = Ok s → ∀ i, s.(dsk).(layer_fds) i = FdClosed.
Proof.
  intros Hs. assert (E : ∃ f, match demo_ctor with Ok s => Some s.(dsk).(layer_fds) | _ => None end = Some f ∧ ∀ i, f i = FdClosed)
    by (eexists; split; [vm_compute; reflexivity|reflexivity]).
  destruct E as (f & E & Hf). rewrite Hs in E. by injection E as ->.
Qed.

Lemma demo_tidy s : demo_ctor = Ok s → tidy s.
Proof.
  intros Hs. assert (E : match demo_ctor with
    | Ok s => (s.(cur), s.(num_layers), s.(pln).(chunk_bound) 0, s.(num_chunks_per_tensor))
    | _ => (Cursors 0 0 0 0, 0, 0, 0) end = (Cursors 0 0 0 1, 1, 1, 2)) by (vm_compute; reflexivity).
  rewrite Hs in E. injection E as E1 E2 E3 E4. split; rewrite E1; cbn; try lia; (left; rewrite E3, E4; lia).
Qed.

(** Half of the cache compressed, the other half stored, the files closed. *)
Definition demo_swapout : outcome kv_state :=
  s <~ demo_ctor ;; s1 <~ mzcache_compress_chunks 1 s ;; s2 <~ mzcache_store_chunks 1 s1 ;;
  Ok (mzcache_close_stored_files s2).

Lemma demo_swapped : ∃ s, demo_swapout = Ok s ∧ swapped_out s ∧ s.(num_layers) = 1 ∧
  s.(cnt).(n_cur_comp_chunks) = 1 ∧ s.(cnt).(n_cur_store_chunks) = 1 ∧
  s.(cnt).(n_cur_arena_offload_bytes) = 0 ∧ s.(next_layer_to_offload) = 0 ∧ s.(arena_bytes) = 4096.
Proof.
  destruct demo_state as (s & Hs & Hl & Hm & Hc & H1 & H2 & H3 & H4 & H5 & H6 & H7 & H8 & H9 & H10 & Hr & Hr').
  pose proof (demo_tidy s Hs) as Ht.
  destruct (compress_chunks_tidy 1 s ltac:(lia) Hl Hm Ht) as (s1 & Hrun1 & Ht1).
  destruct (compress_chunks_run 1 s ltac:(lia) Hl Hm) as (s1' & Hrun1' & Hl1 & Hm1 & Hn1 & _ & Hp1).
  rewrite Hrun1 in Hrun1'. injection Hrun1' as <-.
  assert (Hsr : store_rem s1 = 1).
  { rewrite <- Hr'. destruct Hp1 as [(_ & _ & A3 & _ & _ & _ & A7) _ _ (B1 & B2 & _) _].
    unfold store_rem. by rewrite A3, A7, B1, B2. }
  destruct (store_chunks_tidy (Ev := all_ok) (λ _ : Z, eq_refl true) (λ _ : Z * Z, eq_refl true) 1 s1
              ltac:(lia) Hl1 Hm1 Ht1) as (s2 & Hrun2 & Ht2).
  destruct (store_chunks_run (Ev := all_ok) (λ _ : Z, eq_refl true) (λ _ : Z * Z, eq_refl true) 1 s1
              ltac:(lia) Hl1 Hm1) as (s2' & Hrun2' & Hl2 & Hm2 & _ & _ & Hp2).
  rewrite Hrun2 in Hrun2'. injection Hrun2' as <-.
  assert (Hall : demo_swapout = Ok (mzcache_close_stored_files s2)).
  { unfold demo_swapout. rewrite Hs. cbn [obind]. rewrite Hrun1. cbn [obind]. by rewrite Hrun2. }
  assert (E : match demo_swapout with
    | Ok s => (s.(num_layers), s.(cnt).(n_cur_comp_chunks), s.(cnt).(n_cur_store_chunks),
               s.(cnt).(n_cur_arena_offload_bytes), s.(next_layer_to_offload), s.(arena_bytes))
    | _ => (0, 0, 0, 0, 0, 0) end = (1, 1, 1, 0, 0, 4096)) by (vm_compute; reflexivity).
  rewrite Hall in E. exists (mzcache_close_stored_files s2). split; [exact Hall|].
  injection E as E1 E2 E3 E4 E5 E6. split; [|tauto].
  split.
  - by apply ladder_set_dsk.
  - refine (proj1 (mem_ok_set_dsk _ _ _ _ Hm2)); [done|]. intros L. cbn.
    destruct ((0 <=? L) && (L <? num_layers s2)); [by left|]. apply (mo_fds _ Hm2).
  - destruct Ht2; by split.
  - intros i. cbn. rewrite E1. destruct (decide (0 <= i < 1)) as [Hi|Hi].
    + rewrite (proj2 (Z.leb_le 0 i)), (proj2 (Z.ltb_lt i 1)) by lia. reflexivity.
    + assert (Hout : s2.(dsk).(layer_fds) i = FdClosed).
      { destruct (sp_out _ _ Hp2 i) as [-> |Hcl]; [|rewrite (cp_dsk _ _ Hp1); exact (demo_closed s Hs i)|exact Hcl].
        destruct (cp_cfg _ _ Hp1) as [-> _]. rewrite H1. exact Hi. }
      rewrite Hout. by destruct (_ && _).
Qed.

(** ** Witnesses *)

Lemma enqueue_decomp_load_exact_witness : ∃ s c d loads decomps, demo_swapout = Ok s ∧
  mzcache_enqueue_decomp_load_chunks 1 1 s = Ok (set_dsk (set_cur s c) d,
    flat_map (λ p, alloc_acts p ++ read_acts p) loads
    ++ flat_map (λ p, alloc_acts p ++ decomp_acts p) decomps) ∧
  (∀ p, p ∈ loads ↔ in_range s p ∧ s.(tab).(states) p = Stored) ∧
  to_load (set_dsk (set_cur s c) d) = [].
Proof.
  destruct demo_swapped as (s & Hs & [Hl Hm Ht Hc] & H1 & H2 & H3 & _).
  destruct (enqueue_decomp_load_exact (Ev := all_ok) s Hl Hm Ht (λ _ : Z, eq_refl true) Hc)
    as (c & d & loads & decomps & Hrun & _ & _ & Hld & _ & _ & Hz & _).
  rewrite H2, H3 in Hrun. exists s, c, d, loads, decomps.
  split; [exact Hs|]. split; [exact Hrun|]. split; [exact Hld|exact Hz].
Defined.

Lemma two_phase_swapin_same_witness : ∃ s loads decomps, demo_swapout = Ok s ∧
  mzcache_enqueue_kv_alloc_only 1 1 s
    = Ok (flat_map alloc_acts decomps ++ flat_map alloc_acts loads
          ++ (WaitAlloc <$> decomps) ++ (WaitAlloc <$> loads), true) ∧
  (∀ p, p ∈ loads ++ decomps ↔ in_range s p ∧ s.(tab).(states) p ≠ Raw).
Proof.
  destruct demo_swapped as (s & Hs & [Hl Hm Ht Hc] & H1 & H2 & H3 & _).
  destruct (two_phase_swapin_same (Ev := all_ok) s Hl Hm Ht (λ _ : Z, eq_refl true) Hc)
    as (loads & decomps & s1 & s2 & _ & Hrun & _ & Hin).
  rewrite H2, H3 in Hrun. exists s, loads, decomps.
  split; [exact Hs|]. split; [exact Hrun|exact Hin].
Defined.

Lemma offload_reload_roundtrip_witness : ∃ s s1, demo_swapout = Ok s ∧ offload_n 1 s = Ok s1 ∧
  ∀ p, in_range s p → view (mzcache_reload_all_arenas s1) p = view s p.
Proof.
  destruct demo_swapped as (s & Hs & [Hl Hm Ht Hc] & H1 & H2 & H3 & H4 & H5 & H6).
  destruct (offload_reload_roundtrip (Sw := swap_ok) 1 s Hm) as (s1 & Hrun & _ & Hv & _).
  - rewrite H1. lia.
  - rewrite H6. reflexivity.
  - rewrite H5, H1. reflexivity.
  - exact H4.
  - exact swap_reads.
  - reflexivity.
  - exists s, s1. split; [exact Hs|]. split; [exact Hrun|exact Hv].
Defined.

(** A one-layer model with its layer's weights unloaded. *)
Definition demo_weight : mzcache_weight := Weight 1 (-1) 1.
Definition demo_world (s : kv_state) : world :=
  World s (λ _, Unregistered) (λ _, Unregistered) (λ _, false) (λ _, Sync 0 true) false.

Lemma demo_ready : ∃ s, demo_swapout = Ok s ∧ swapin_ready s demo_weight (demo_world s) ∧
  s.(num_layers) = 1 ∧ s.(cnt).(n_cur_comp_chunks) = 1 ∧ s.(cnt).(n_cur_store_chunks) = 1 ∧
  s.(cnt).(n_cur_arena_offload_bytes) = 0.
Proof.
  destruct demo_swapped as (s & Hs & Hso & H1 & H2 & H3 & H4 & H5 & H6).
  exists s. split; [exact Hs|]. split; [|tauto]. split.
  - exact Hso.
  - apply offloaded_refl; cbn; lia.
  - rewrite H6. reflexivity.
  - split; [reflexivity|]. cbn. lia.
  - rewrite H1. reflexivity.
  - intros L HL Hin. destruct Hin. apply elem_of_unloaded. rewrite H1 in HL. cbn. lia.
  - reflexivity.
Qed.



Lemma decode_after_restore_witness : ∃ s w3 wt' acts, demo_swapout = Ok s ∧
  swapin_generate NoOverlap demo_weight (demo_world s) = Ok (w3, wt', acts, 1, 1) ∧ Decode ∈ acts.
Proof.
  destruct demo_ready as (s & Hs & Hr & H1 & H2 & H3 & H4).
  destruct (decode_after_restore demo_env NoOverlap FLEXGEN SM8750 s demo_weight (demo_world s) Hr
              (or_intror eq_refl)) as (w3 & wt' & acts & Hrun & Hd & _).
  rewrite H2, H3 in Hrun. exists s, w3, wt', acts. split; [exact Hs|]. split; [exact Hrun|exact Hd].
Defined.

Lemma swapin_complete_witness : ∃ s w3 wt' acts, demo_swapout = Ok s ∧
  swapin_generate NoPrefillOverlap demo_weight (demo_world s) = Ok (w3, wt', acts, 1, 1) ∧
  ∀ st, rtc sys_step (Sys acts w3 (make_pool (default_core_configs FLEXGEN SM8750))) st →
    sys_done st → clean_ladder (finish_swapin_cycle 1 1 st.(s_world).(kv) wt').1 = true.
Proof.
  destruct demo_ready as (s & Hs & Hr & H1 & H2 & H3 & H4).
  destruct (swapin_complete demo_env NoPrefillOverlap FLEXGEN SM8750 s demo_weight (demo_world s) Hr H4)
    as (w3 & wt' & acts & Hrun & Hst).
  rewrite H2, H3 in Hrun, Hst. exists s, w3, wt', acts. split; [exact Hs|]. split; [exact Hrun|].
  intros st Hs' Hdone. specialize (Hst st Hs' Hdone). cbv zeta in Hst.
  destruct (finish_swapin_cycle _ _ _ _) as [s5 wt5]. apply Hst.
Defined.
