(* ===== verification/SwapoutWitness.v ===== *)
(** The swap-out theorems applied to the example of [KvExample]. *)
From Stdlib Require Import Sorting.Sorted.
From S2P Require Import Prelude Floats Profile ThreadPool KvTypes KvPlan KvLadder KvInv KvFrame.
From S2P Require Import KvSwapOut KvSwapOutThms KvGrow KvOffload KvOffloadThms KvSwapIn Weight.
From S2P Require Import KvWorkers KvRestore KvRestoreW KvSystem KvSystemInv KvProgress KvCore.
From S2P Require Import KvStart KvCycle KvFinish KvDone KvExample KvWitness.
From S2P Require Import Swapout SwapoutThms SwapoutRun SwapoutCycle SwapPlan CoreCtor.

#[local] Existing Instance copy_codec.
#[local] Existing Instance copy_codec_laws.
#[local] Existing Instance all_ok.
#[local] Existing Instance swap_ok.
#[local] Existing Instance reload_ok.

(** All dumps readable. *)
Definition dumps_ok : WeightEnv := {| dump_readable L := 0 <=? L; unload_buffers_ok _ := true |}.
#[local] Existing Instance dumps_ok.

Definition demo_core (s : kv_state) : mzcache_core := Core 1 2 1000 3048 s (new_weight 1).

Lemma swap_writes : pwrites_ok.
Proof.
  intros L i data f off. cbn [pwrite_rets swap_ok full_pwrite].
  destruct (Z.ltb_spec 0 (Z.of_nat (length data))) as [H0|H0]; [|cbn; lia].
  destruct (Z.leb_spec (Z.of_nat (length data)) 0); [lia|]. rewrite Z.sub_0_r, Z.min_id.
  destruct (Z.ltb_spec (0 + Z.of_nat (length data)) (Z.of_nat (length data))); cbn [fst]; lia.
Qed.

Lemma demo_core_ok : ∃ s, demo_ctor = Ok s ∧ core_ok s (demo_core s) ∧ growth_ready s ∧ s.(num_layers) = 1.
Proof.
  destruct demo_state as (s & Hs & Hl & Hm & Hc & H1 & H2 & H3 & H4 & H5 & H6 & H7 & H8 & H9 & H10 & Hr & Hr').
  assert (E : match demo_ctor with
    | Ok s => (s.(pln).(max_comp_chunks), s.(pln).(max_store_chunks),
               s.(cnt).(n_cur_arena_offload_bytes), s.(next_layer_to_offload), s.(arena_bytes))
    | _ => (0, 0, 0, 0, 0) end = (1, 1, 0, 0, 4096)) by (vm_compute; reflexivity).
  rewrite Hs in E. injection E as E1 E2 E3 E4 E5.
  exists s. split; [exact Hs|]. split; [|split; [|exact H1]].
  - assert (Hi : swap_inv s) by (split; [exact Hl|exact Hm|exact (demo_tidy s Hs)]). split.
    + split; [exact Hl|exact Hm|exact (demo_tidy s Hs)|exact (demo_closed s Hs)].
    + apply offloaded_refl; cbn; rewrite ?H1, ?E4; lia.
    + apply staged_fresh; [exact Hi| | |rewrite H4; vm_compute; reflexivity| |]; rewrite ?H1, ?H2, ?H3, ?E1, ?E2; lia.
    + cbn. rewrite H1, E4. lia.
    + exact E3.
    + rewrite E5. reflexivity.
    + cbn. rewrite H1. reflexivity.
    + split; cbn; lia.
    + cbn. rewrite H1. reflexivity.
  - intros Hg. rewrite H10, H2 in Hg. lia.
Qed.


Lemma session_cycle_witness : ∃ s c' s', demo_ctor = Ok s ∧
  swapout (Z.to_nat 20000) (f32_of_Z 0) (demo_core s) = Ok (Some (c', swapout_result (demo_core s) c')) ∧
  swapped_to s s' ∧
  ∃ w, world_of c' w ∧ ∃ w3 wt' acts, swapin_generate Generate c'.(cwt) w
    = Ok (w3, wt', acts, s'.(cnt).(n_cur_comp_chunks), s'.(cnt).(n_cur_store_chunks)).
Proof.
  destruct demo_core_ok as (s & Hs & Hc & Hg & HL).
  destruct (session_cycle (Ev := all_ok) (We := dumps_ok) demo_env swap_writes (λ _ : Z, eq_refl true) eq_refl Generate
              FLEXGEN SM8750 (Z.to_nat 20000) (f32_of_Z 0) s (demo_core s) Hc Hg)
    as (c' & s' & Hrun & Hsw & Hin).
  - rewrite Z2Nat.id by lia. reflexivity.
  - exists s, c', s'. split; [exact Hs|]. split; [exact Hrun|]. split; [exact Hsw|].
    set (w := World c'.(ckv) (λ _, Unregistered) (λ _, Unregistered) (λ _, true) (λ _, Sync 0 true) false).
    assert (Hw : world_of c' w) by (split; [reflexivity|]; split; [reflexivity|]; intros; reflexivity).
    exists w. split; [exact Hw|]. destruct (Hin w Hw) as (w3 & wt' & acts & Hgen & _).
    exists w3, wt', acts. exact Hgen.
Defined.

(** The swap directory cannot be written. *)
Definition no_swap_dir : SwapEnv := {|
  odirect_write_ok _ := false; odirect_read_ok _ := true;
  pwrite_rets _ _ n := [Count n]; pread_rets _ _ n := [Count n] |}.

Lemma offload_phase_diverges_witness : ∃ s, demo_ctor = Ok s ∧
  ∀ fuel, while_loop fuel (phase3_body (Sw := no_swap_dir) (f32_of_Z 0)) (demo_core s) = Ok None.
Proof.
  destruct demo_core_ok as (s & Hs & _). exists s. split; [exact Hs|]. intros fuel.
  assert (E : match demo_ctor with
    | Ok s => (s.(next_layer_to_offload), check_target (f32_of_Z 0) (demo_core s))
    | _ => (0, true) end = (0, false)) by (vm_compute; reflexivity).
  rewrite Hs in E. injection E as E1 E2.
  apply (offload_phase_diverges (Sw := no_swap_dir) (f32_of_Z 0) (demo_core s)).
  - cbn [ckv demo_core]. rewrite E1. lia.
  - reflexivity.
  - exact E2.
Defined.

(** ** The planner *)

Lemma demo_core_run : ∃ s, demo_ctor = Ok s ∧ core_run s (demo_core s).(cwt) (demo_core s).
Proof.
  destruct demo_core_ok as (s & Hs & Hc & _ & HL). exists s. split; [exact Hs|].
  apply core_run_start; [exact Hc|reflexivity|].
  assert (E : match demo_ctor with Ok s => s.(num_chunks_per_tensor) | _ => 0 end = 2) by (vm_compute; reflexivity).
  rewrite Hs in E. cbn. by rewrite E.
Qed.


Lemma planner_follows_swapout_witness : ∃ s c', demo_ctor = Ok s ∧
  phase1_body (f32_of_Z 0) (demo_core s) = Ok (Go c') ∧
  plan_phase1_body FLEXGEN (f32_of_Z 0) (demo_core s) (plan_start (demo_core s)) = Ok (Go (plan_start c')).
Proof.
  destruct demo_core_run as (s & Hs & Hc).
  assert (E : match demo_ctor with
    | Ok s => (plan_reached FLEXGEN (f32_of_Z 0) (demo_core s) (plan_start (demo_core s)),
        match phase1_body (f32_of_Z 0) (demo_core s) with Ok (Go _) => true | _ => false end)
    | _ => (true, false) end = (false, true)) by (vm_compute; reflexivity).
  rewrite Hs in E. injection E as E1 E2.
  destruct (planner_follows_swapout (Ev := all_ok) (We := dumps_ok) FLEXGEN (f32_of_Z 0) (λ _ : Z, eq_refl true)
              (λ _ : Z * Z, eq_refl true) eq_refl (f32_of_Z 0) s _ (demo_core s) Hc E1) as [(r & Hr & Hp) _].
  change (S754_zero false) with (f32_of_Z 0) in E2. rewrite Hr in E2. destruct r as [c'|c'|c']; [|discriminate E2|discriminate E2].
  exists s, c'. split; [exact Hs|]. split; [exact Hr|exact Hp].
Defined.

(** The example with everything out of memory: both chunks and the weights. *)
Definition demo_out_core (s : kv_state) : mzcache_core := Core 1 2 1000 3048 s demo_weight.

Lemma demo_out_run : ∃ s, demo_swapout = Ok s ∧ core_run s demo_weight (demo_out_core s).
Proof.
  destruct demo_swapped as (s & Hs & Hso & H1 & H2 & H3 & H4 & H5 & H6). exists s. split; [exact Hs|].
  assert (E : match demo_swapout with
    | Ok s => (s.(pln).(max_comp_chunks), s.(pln).(max_store_chunks), s.(num_chunks_per_tensor),
               s.(per_layer_balance), step_ratio_ok s.(decomp_load_ratio))
    | _ => (0, 0, 0, 0, false) end = (1, 1, 2, 0, true)) by (vm_compute; reflexivity).
  rewrite Hs in E. injection E as E1 E2 E3 E4 E5.
  pose proof (lo_ncomp _ (so_ladder _ Hso)). pose proof (lo_nstore _ (so_ladder _ Hso)).
  assert (Hi : swap_inv s) by (destruct Hso; split; assumption).
  split; cbn.
  - exact Hi.
  - apply moved_refl.
  - split; rewrite ?E1, ?E3, ?E4, ?H1; [lia|lia|exact E5|right; lia|lia].
  - rewrite H1. reflexivity.
  - rewrite E3. reflexivity.
  - apply unloaded_refl. split; cbn; lia.
  - rewrite H1. reflexivity.
Qed.

Lemma planner_overruns_witness : ∃ s p, demo_swapout = Ok s ∧
  mzcache_profile_chunks_layers FLEXGEN S754_nan (demo_out_core s) 10 = Ok (Some p) ∧ 1 < p.(unload_layers).
Proof.
  destruct demo_out_run as (s & Hs & Hc).
  destruct (planner_overruns FLEXGEN S754_nan 10 s (demo_out_core s) Hc) as (p & Hrun & Hp).
  - reflexivity.
  - reflexivity.
  - intros p. unfold plan_reached, SFleb. destruct (plan_ratio _ _ _); reflexivity.
  - exists s, p. split; [exact Hs|]. split; [exact Hrun|exact Hp].
Defined.

(** ** Construction *)

(** A Qwen model with a layer of two chunks, on a profiled device. *)
Definition demo_device : device :=
  Device "SM8750" (Some (save_device_profile example_profile)) None None.

Lemma demo_core_ratio : core_ratio FLEXGEN (classify_soc demo_device.(soc_str)) demo_device.(profile_file)
  = Ok (Some example_profile, derive_decomp_load_ratio example_profile).
Proof. vm_compute. reflexivity. Qed.

Lemma core_ctor_starts_witness : ∃ n c,
  core_balance FLEXGEN demo_device (sanitize "Qwen3-0.6B") (Some example_profile) 1 = Ok n ∧
  mzcache_core_ctor FLEXGEN demo_device "Qwen3-0.6B" 1 1 1 2 demo_mem demo_tab = Ok c ∧
  core_ok c.(ckv) c ∧ c.(ckv).(per_layer_balance) = n.
Proof.
  destruct (core_balance FLEXGEN demo_device (sanitize "Qwen3-0.6B") (Some example_profile) 1) as [n| |] eqn:E;
    [|vm_compute in E; discriminate E|vm_compute in E; discriminate E].
  assert (Hn : 0 <= n).
  { assert (E' : match core_balance FLEXGEN demo_device (sanitize "Qwen3-0.6B") (Some example_profile) 1 with
      | Ok n => 0 <=? n | _ => false end = true) by (vm_compute; reflexivity).
    rewrite E in E'. apply Z.leb_le. exact E'. }
  destruct (core_ctor_starts FLEXGEN demo_device "Qwen3-0.6B" 1 1 2 demo_mem demo_tab (Some example_profile)
              (derive_decomp_load_ratio example_profile) n demo_core_ratio E)
    as (c & Hc & Hok & _ & _ & _ & Hb & _).
  - split; reflexivity || discriminate.
  - split; reflexivity || discriminate.
  - lia.
  - exact Hn.
  - vm_compute. reflexivity.
  - vm_compute. reflexivity.
  - discriminate.
  - exact (demo_tensors 2 ltac:(lia)).
  - exists n, c. split; [reflexivity|]. split; [exact Hc|]. split; [exact Hok|exact Hb].
Defined.

Lemma core_ctor_refuses_witness :
  mzcache_core_ctor FLEXGEN (Device "SM8750" None None None) "Qwen3-0.6B" 1 1 1 2 demo_mem demo_tab = Throw.
Proof.
  exact (core_ctor_refuses FLEXGEN (Device "SM8750" None None None) "Qwen3-0.6B" 1 1 1 2 demo_mem demo_tab eq_refl).
Defined.
