(* ===== verification/KvUnifiedWitness.v ===== *)
(** The theorems about the unified KV cache applied to a small cache: one layer,
    rows of one element, 256 cells, with and without a core. *)
From S2P Require Import Prelude Floats KvTypes KvPlan KvLadder KvInv KvFrame KvGrow KvOffload KvSwapIn.
From S2P Require Import Weight Swapout KvOps KvOpsThms KvCells KvCellsThms KvUnified KvUnifiedGrow KvSlots.
From S2P Require Import KvApply KvState KvStateRows KvSession KvUnifiedCtor KvExample.

#[local] Existing Instance copy_codec.
#[local] Existing Instance copy_codec_laws.
#[local] Existing Instance all_ok.

Definition no_memory : memory := Memory ∅ 1 (λ _, None) (λ _, None) (λ _, []).
Definition demo_cache_run : outcome llama_kv_cache_unified :=
  kv_unified_ctor 1 (λ _, 1) (λ _, 1) F16 F16 false 256 4 32 0 SWA_NONE no_memory.

Lemma no_memory_fresh b : is_Some (heap no_memory !! b) → (b < next_block no_memory)%positive.
Proof. cbn. rewrite lookup_empty. by intros [? ?]. Qed.

Lemma demo_layer_allowed l : layer_refused 256 l = false.
Proof. unfold layer_refused. cbn [svm_alloc_ok all_ok negb]. reflexivity. Qed.

Lemma kv_unified_ctor_ok_witness : ∃ u, demo_cache_run = Ok u ∧ new_cache 1 1 256 no_memory u.
Proof.
  destruct (kv_unified_ctor_ok 1 ltac:(lia) 1 (λ _, 1) (λ _, 1) false 256 4 32 0 SWA_NONE no_memory)
    as [(_ & l & _ & Hl)|(_ & u & Hu & Hnew & _)].
  - unfold MAX_NUM_LAYERS. lia.
  - done.
  - done.
  - reflexivity.
  - exact no_memory_fresh.
  - rewrite demo_layer_allowed in Hl. discriminate Hl.
  - exists u. split; [exact Hu|exact Hnew].
Defined.

Lemma demo_cache : ∃ u, demo_cache_run = Ok u ∧ new_cache 1 1 256 no_memory u ∧
  u.(v_trans) = false ∧ u.(n_seq_max) = 4 ∧ u.(n_pad) = 32 ∧ u.(swa_type) = SWA_NONE.
Proof.
  destruct (kv_unified_ctor_spec 1 ltac:(lia) 1 (λ _, 1) (λ _, 1) false 256 4 32 0 SWA_NONE no_memory)
    as [(_ & l & _ & Hl)|(_ & u & Hu & Hnew & H1 & H2 & H3 & H4)].
  - unfold MAX_NUM_LAYERS. lia.
  - done.
  - done.
  - reflexivity.
  - exact no_memory_fresh.
  - by rewrite demo_layer_allowed in Hl.
  - by exists u.
Qed.

(** Two tokens, the second of two sequences. *)
Definition demo_batch : llama_ubatch := Ubatch 2 [0; 1] [[0]; [0; 1]].

Lemma demo_batch_ok : ub_ok demo_batch.
Proof.
  split; try done; cbn.
  - intros p [->|[->|?%elem_of_nil]%elem_of_cons]%elem_of_cons; [lia|lia|done].
  - unfold LLAMA_MAX_SEQ. intros ids [->|[->|?%elem_of_nil]%elem_of_cons]%elem_of_cons; [| |done].
    + split; [apply NoDup_singleton|]. intros s ->%list_elem_of_singleton. lia.
    + split; [apply NoDup_cons; split; [by intros ?%list_elem_of_singleton|apply NoDup_singleton]|].
      intros s [->| ->%list_elem_of_singleton]%elem_of_cons; lia.
Qed.

Lemma no_core_growth n u : u.(g_mzcache_core) = None → growth_fits n u.
Proof. intros Hc c Hc'. congruence. Qed.

Lemma place_ubatch_spec_witness : ∃ u r cs, demo_cache_run = Ok u ∧ find_slot 2 u = Ok r ∧ 0 <= r ∧
  apply_ubatch r demo_batch u = Ok (with_cells u (r + 2) cs) ∧ placed r 2 demo_batch u.(cells) cs.
Proof.
  destruct demo_cache as (u & Hu & [Hok Hrest Hb Hc He Hs HL Hhd Ha Hco Hz Ho Har] & _ & _ & _ & Hswa).
  destruct (place_ubatch_spec 1 demo_batch u Hok Hc) as (r & Hr & Hcase).
  - rewrite Hhd, Hs. lia.
  - rewrite Hs. unfold MAX_CHUNKS_PER_TENSOR, TOKENS_PER_CHUNK. lia.
  - exact Hswa.
  - exact demo_batch_ok.
  - intros hd _ _. by apply no_core_growth.
  - cbn [ub_tokens demo_batch] in *. destruct Hcase as [[_ Hno]|(H1 & H2 & ok & u1 & Hg & _ & _ & Hap)].
    + exfalso. destruct (Hno 0) as (i & c & Hi & Hci & Hp); [lia|rewrite Hs; lia|].
      rewrite Z.add_0_l, He in Hci by lia. injection Hci as <-. by apply Hp.
    + rewrite Hs in H2. unfold mz_grow_chunks in Hg. rewrite Ha in Hg.
      destruct (need_chunks (r + 2)) as [En _]; [unfold MAX_CHUNKS_PER_TENSOR, TOKENS_PER_CHUNK; lia|]. rewrite En in Hg.
      assert (Hle : (r + 2 + 255) / 256 <= 1) by (apply Z.lt_succ_r, Z.div_lt_upper_bound; lia).
      rewrite (proj2 (Z.leb_le _ _) Hle) in Hg. injection Hg as <- <-. destruct Hap as (cs & Hap & Hpl & _).
      exists u, r, cs. split; [exact Hu|]. split; [exact Hr|]. split; [exact H1|]. split; [exact Hap|exact Hpl].
Defined.

Lemma demo_seqs i s : s ∈ (token_cell demo_batch i).(c_seq) → s < 2.
Proof.
  unfold token_cell. cbn [c_seq demo_batch ub_seq_id]. rewrite elem_of_list_to_set.
  destruct ([[0]; [0; 1]] !! Z.to_nat i) as [ids|] eqn:E; [|by intros ?%elem_of_nil]. cbn [from_option id].
  apply list_elem_of_lookup_2 in E. apply elem_of_cons in E as [->|E%list_elem_of_singleton].
  - intros ->%list_elem_of_singleton. lia.
  - rewrite E. intros [->| ->%list_elem_of_singleton]%elem_of_cons; lia.
Qed.

(** The cache after those two tokens can be saved. *)
Lemma demo_filled : ∃ u, sendable 1 u ∧ n_layers u = 1 ∧ u.(n_seq_max) = 4 ∧ u.(cells).(used) ≠ ∅ ∧
  Z.of_nat (length (used_cells u.(cells))) <= 256.
Proof.
  destruct demo_cache as (u & _ & [Hok Hrest Hb Hc He Hs HL Hhd Ha Hco Hz Ho Har] & Hvt & Hsm & _).
  destruct (apply_ubatch_run 1 0 demo_batch u Hok Hc demo_batch_ok) as (ok & u1 & _ & Hg & Href & Hap).
  - done.
  - rewrite Hs. cbn. lia.
  - rewrite Hs. unfold MAX_CHUNKS_PER_TENSOR, TOKENS_PER_CHUNK. lia.
  - by apply no_core_growth.
  - cbn [ub_tokens demo_batch]. intros i Hi. apply He. lia.
  - destruct ok; [|by destruct (Href eq_refl) as (p & _ & _ & ?)].
    destruct Hap as (cs & _ & Hcs & Hlen & _ & Hcl). cbn [ub_tokens demo_batch] in *.
    assert (Hsz : cells_size cs = 256) by (unfold cells_size in *; by rewrite Hlen).
    assert (Hcell : ∀ i c, cell_list cs !! i = Some c → c.(c_pos) = -1 ∨ (i < 2)%nat ∧ ∀ s, s ∈ c.(c_seq) → s < 2).
    { intros i c Hi. pose proof (lookup_lt_Some _ _ _ Hi) as Hlt. unfold cells_size in Hs, Hsz.
      pose proof (Hcl (Z.of_nat i) ltac:(lia)) as Hi'. rewrite Nat2Z.id, Hi in Hi'.
      destruct (decide (i < 2)%nat) as [H2|H2].
      - right. split; [done|]. rewrite (proj2 (Z.ltb_lt _ _)), (proj2 (Z.leb_le _ _)) in Hi' by lia.
        injection Hi' as ->. apply demo_seqs.
      - left. rewrite (proj2 (Z.ltb_ge _ _)), andb_false_r in Hi' by lia.
        pose proof (He (Z.of_nat i) ltac:(lia)) as Hi0. rewrite Nat2Z.id in Hi0. rewrite Hi0 in Hi'. by injection Hi' as ->. }
    destruct (grown_cells _ _ _ _ _ Hg) as (_ & _ & _ & EL & Ev & Em & _).
    assert (Hrest1 : at_rest u1) by by eapply grown_rest.
    exists (with_cells u1 2 cs). split; [split|split; [|split; [|split]]].
    + apply with_cells_ok, Hg.
    + apply (rest_live 1); [apply with_cells_ok, Hg|exact Hrest1].
    + exact Hcs.
    + cbn. congruence.
    + cbn [cells with_cells]. rewrite Hsz. unfold MAX_CHUNKS_PER_TENSOR, TOKENS_PER_CHUNK. lia.
    + intros i (Hi & c & Hci & Hp)%used_cell. pose proof (uo_alloc _ _ (gc_ok _ _ _ _ _ Hg)). cbn in *.
      unfold TOKENS_PER_CHUNK. lia.
    + cbn. rewrite Em, Hsm. unfold LLAMA_MAX_SEQ. lia.
    + cbn. intros i c s Hi Hin. rewrite Em, Hsm. destruct (Hcell i c Hi) as [Hp|[_ Hlt]]; [|specialize (Hlt s Hin); lia].
      rewrite (ck_empty _ Hcs _ _ Hi Hp) in Hin. by apply elem_of_empty in Hin.
    + by rewrite <- HL, <- EL.
    + cbn. by rewrite Em.
    + cbn. intros Hemp. assert (Hin : 0 ∈ used cs); [|by rewrite Hemp in Hin; apply elem_of_empty in Hin].
      apply (ck_used _ Hcs). split; [done|]. eexists. by rewrite (Hcl 0).
    + cbn. unfold used_cells. pose proof (length_filter (λ i, occupied cs i = true) (seqZ 0 (cells_size cs))) as Hl.
      rewrite length_seqZ in Hl. lia.
Qed.

Lemma never_refused lo hi u : ¬ refused lo hi u.
Proof. by intros (p & _ & _ & ?). Qed.

Lemma kv_session_roundtrip_witness : ∃ u v bs, sendable 1 u ∧ u.(cells).(used) ≠ ∅ ∧ receivable 1 u v ∧
  state_write (-1) u [] = Ok bs ∧ ∃ v', state_read (-1) bs v = Ok ([], v') ∧ restored 1 u v'.
Proof.
  destruct demo_filled as (u & Hu & HLu & Hmu & Hused & Hlen).
  destruct demo_cache as (v & _ & [Hok Hrest Hb Hc He Hs HL Hhd Ha Hco Hz Ho Har] & Hvt & Hsm & _).
  assert (Hrv : receivable 1 u v).
  { split; [exact Hok|exact Hrest|exact Hb|exact Hvt|by rewrite HL, HLu| |by rewrite Hs| |by apply no_core_growth|].
    - rewrite Hmu, Hsm. unfold LLAMA_MAX_SEQ. lia.
    - rewrite Hs. unfold MAX_CHUNKS_PER_TENSOR, TOKENS_PER_CHUNK. lia.
    - apply never_refused. }
  destruct (kv_session_roundtrip 1 u v Hu Hrv) as (bs & Hw & Hr).
  destruct (Hr []) as (v' & Hrun & _ & _ & _ & _ & Hres). rewrite app_nil_r in Hrun.
  exists u, v, bs. split; [exact Hu|]. split; [exact Hused|]. split; [exact Hrv|]. split; [exact Hw|].
  exists v'. split; [exact Hrun|exact Hres].
Defined.

(** ** With a core *)

(** The KV state a core constructs on the cache's memory. *)
Lemma demo_attached : ∃ u c s, mzcache_kv_state_ctor 1 1 1 0 half u.(umem) demo_tab = Ok s ∧ c.(ckv) = s ∧
  u.(g_mzcache_core) = Some c ∧ unified_ok 1 u ∧ u.(n_chunks_alloc) = 1 ∧ clean_ladder s = true ∧
  s.(per_layer_balance) = 0 ∧ s.(decomp_load_ratio) = half.
Proof.
  destruct demo_cache as (u & _ & [Hok Hrest Hb Hc He Hs HL Hhd Ha Hco Hz Ho Har] & _).
  destruct (ctor_spec 1 1 1 0 half u.(umem) demo_tab) as (s & Hrun & Hl & Hm & Hcl & _).
  - unfold MAX_NUM_LAYERS. lia.
  - unfold MAX_CHUNKS_PER_TENSOR. lia.
  - lia.
  - lia.
  - vm_compute. reflexivity.
  - done.
  - pose proof (unified_tensors 1 u 1 Hok) as Ht. rewrite HL in Ht. apply Ht; [congruence|].
    intros p H1 H2. apply (uo_made _ _ Hok); [by rewrite HL|by rewrite Ha].
  - destruct (ctor_fields _ _ _ _ _ _ _ _ Hrun) as (E1 & E2 & E3 & E4 & E5 & E6 & E7).
    set (c := Core 1 1 1000 3048 s (new_weight 1)).
    exists (with_alloc u 1 (Some c)), c, s. split; [exact Hrun|]. split; [done|]. split; [done|].
    split; [|split; [reflexivity|split; [exact Hcl|split; [exact E3|exact E5]]]].
    apply unified_ok_core; [done|rewrite Ha; unfold MAX_CHUNKS_PER_TENSOR; lia| | |].
    + intros p H1 H2. apply (uo_made _ _ Hok); [done|by rewrite Ha].
    + intros p [Hp _]. split; [done|congruence].
    + intros c' [= <-]. cbn [c ckv]. rewrite HL, E1, E2, E4, E7.
      split; [destruct (umem u); cbn in Har |- *; by rewrite Har|].
      split; [done|]. split; [done|]. split; [lia|]. split; [exact Hl|exact Hm].
Qed.

Lemma mz_grow_chunks_ok_witness : ∃ u c u' c', u.(g_mzcache_core) = Some c ∧ unified_ok 1 u ∧
  mz_grow_chunks 300 u = Ok (true, u') ∧ u'.(n_chunks_alloc) = 2 ∧ unified_ok 1 u' ∧
  u'.(g_mzcache_core) = Some c' ∧ c'.(ckv).(num_chunks_per_tensor) = 2.
Proof.
  destruct demo_attached as (u & c & s & _ & Hs & Hc & Hok & Ha & Hcl & Hb & Hr).
  destruct (mz_grow_chunks_ok 1 300 u Hok) as (ok & u' & Hrun & Hok' & _ & _ & Hcore & Hend).
  - unfold MAX_CHUNKS_PER_TENSOR, TOKENS_PER_CHUNK. lia.
  - intros c' Hc' _. assert (c' = c) as -> by congruence. rewrite Hs, Hb, Hr. split; [lia|vm_compute; reflexivity].
  - destruct ok; [|destruct Hend as (_ & p & _ & _ & Hp); discriminate Hp].
    destruct Hend as [Hn _]. rewrite Ha in Hn. destruct (Hcore c Hc) as (c' & Hc' & _ & Hf).
    rewrite Ha in Hf. change (true && (1 <? (300 + 255) / 256)) with true in Hf. unfold followed in Hf.
    change (clean_ladder (set_mem (ckv c) (umem u'))) with (clean_ladder (ckv c)) in Hf. rewrite Hs, Hcl in Hf.
    exists u, c, u', c'. split; [exact Hc|]. split; [exact Hok|]. split; [exact Hrun|]. split; [exact Hn|].
    split; [exact Hok'|]. split; [exact Hc'|exact (gr_n _ _ _ (proj1 Hf))].
Defined.

(** The cache after its only chunk has been swapped out. *)
Definition demo_swapped_out : outcome llama_kv_cache_unified :=
  u <~ demo_cache_run ;;
  s <~ mzcache_kv_state_ctor 1 1 1 0 half u.(umem) demo_tab ;;
  s1 <~ mzcache_store_chunks 1 s ;;
  s2 <~ mzcache_compress_chunks 1 s1 ;;
  Ok (with_mem u u.(chunk_made) s2.(mem)).

Definition first_base_dead (u : llama_kv_cache_unified) : bool :=
  match u.(child_bufs) with
  | (Some (b, _), n) :: _ => bool_decide (u.(umem).(heap) !! b = None) && negb (n =? 0) && (0 <=? cells_size u.(cells))
  | _ => false
  end.

Lemma clear_after_swap_frees_witness : ∃ u, demo_swapped_out = Ok u ∧
  kv_clear true u = Ub ∧ state_read (-1) (le_bytes 4 0 ++ []) u = Ub.
Proof.
  assert (Hc : match demo_swapped_out with Ok u => first_base_dead u | _ => false end = true) by (vm_compute; reflexivity).
  destruct demo_swapped_out as [u| |]; [|discriminate Hc|discriminate Hc]. exists u. split; [reflexivity|].
  unfold first_base_dead in Hc. destruct (child_bufs u) as [|[[[b o]|] n] bufs] eqn:Eb; [discriminate Hc| |discriminate Hc].
  apply andb_prop in Hc as [[H1%bool_decide_eq_true H2%negb_true_iff]%andb_prop H3].
  apply Z.eqb_neq in H2. apply Z.leb_le in H3.
  apply (clear_after_swap_frees u b 0 []); [|lia|lia].
  split; [exact H1|]. exists o, n. rewrite Eb. split; [left|exact H2].
Defined.
