(* ===== verification/KvBatchWitness.v ===== *)
(** The theorems about sequences and batches applied to the small cache of
    [KvUnifiedWitness]: one layer, rows of one element, 256 empty cells. *)
From S2P Require Import Prelude Floats KvTypes KvPlan KvLadder KvInv KvFrame KvGrow KvOffload KvSwapIn.
From S2P Require Import Weight Swapout KvOps KvOpsThms KvCells KvCellsThms KvUnified KvUnifiedGrow KvSlots.
From S2P Require Import KvApply KvSeqOps KvBatch KvMask KvPrepare KvBatchRun.
From S2P Require Import Decode KvSession KvStateRows KvCopy KvUnifiedCtor KvExample KvUnifiedWitness.

#[local] Existing Instance copy_codec.
#[local] Existing Instance copy_codec_laws.
#[local] Existing Instance all_ok.

Lemma demo_cache_ready : ∃ u, demo_cache_run = Ok u ∧ ready 1 u ∧ u.(head) = 0 ∧ u.(n_chunks_alloc) = 1 ∧
  cells_size u.(cells) = 256 ∧ (∀ i, 0 <= i < 256 → u.(cells).(cell_list) !! Z.to_nat i = Some empty_cell) ∧
  ∀ s, u.(cells).(seq_pos) s = ∅.
Proof.
  destruct demo_cache as (u & Hu & [Hok Hrest Hb Hc He Hs HL Hhd Ha Hco Hz Ho Har] & _ & _ & _ & Hswa).
  assert (Hemp : ∀ i c, u.(cells).(cell_list) !! i = Some c → c = empty_cell).
  { intros i c Hi. pose proof (lookup_lt_Some _ _ _ Hi). unfold cells_size in Hs.
    specialize (He (Z.of_nat i) ltac:(lia)). rewrite Nat2Z.id in He. congruence. }
  exists u. split; [exact Hu|]. split; [split|]; try done.
  - intros i j c d s Hi _ Hin. rewrite (Hemp i c Hi) in Hin. by apply elem_of_empty in Hin.
  - rewrite Hhd, Hs. lia.
  - rewrite Hs. unfold MAX_CHUNKS_PER_TENSOR, TOKENS_PER_CHUNK. lia.
  - intros n. by apply no_core_growth.
  - split; [done|]. split; [done|]. split; [done|]. split; [done|]. intros s. apply leibniz_equiv. intros p.
    rewrite (ck_seq_pos _ Hc s p). split; [|by intros ?%elem_of_empty].
    intros (i & c & Hi & Hin & _). by rewrite (Hemp i c Hi) in Hin.
Qed.

(** Two tokens of sequence 0 at the positions [p] and [p + 1]. *)
Definition demo_tokens (p : Z) : list (Z * list Z) := [(p, [0]); (p + 1, [0])].
Definition demo_piece (p : Z) : llama_ubatch := Ubatch 2 [p; p + 1] [[0]; [0]].

Lemma demo_piece_ok p : piece_ok 2 (demo_piece p).
Proof. split; cbn; lia. Qed.

Lemma demo_tokens_ok p : 0 <= p < 1000 → tokens_ok (demo_tokens p).
Proof.
  intros Hp. unfold tokens_ok, LLAMA_MAX_SEQ. repeat constructor; cbn; try lia;
    solve [by intros ?%elem_of_nil | by intros ?%list_elem_of_In].
Qed.

Lemma demo_tokens_fresh p cs : (∀ q, q ∈ cs.(seq_pos) 0 → q < p) → fresh_tokens (demo_tokens p) cs.
Proof.
  intros Hcs. split.
  - unfold demo_tokens, pairs. cbn. apply NoDup_cons. split; [|apply NoDup_cons; split; [by intros ?%elem_of_nil|constructor]].
    intros [= ?]%list_elem_of_singleton. lia.
  - intros s q (t & Ht & -> & Hs)%elem_of_pairs Hq.
    apply elem_of_cons in Ht as [->|Ht%list_elem_of_singleton]; [|rewrite Ht in *]; cbn in *;
      apply list_elem_of_singleton in Hs; subst s; specialize (Hcs _ Hq); lia.
Qed.

Lemma demo_free u : (∀ i, 0 <= i < 256 → u.(cells).(cell_list) !! Z.to_nat i = Some empty_cell) →
  cells_size u.(cells) = 256 → slot_free 0 2 u.(cells).
Proof. intros He Hs. split; [done|]. split; [lia|]. intros i Hi. apply He. lia. Qed.

(** The cache that holds the two tokens. *)
Lemma demo_two : ∃ u, ready 1 u ∧ u.(n_pad) = 32 ∧ cells_size u.(cells) = 256 ∧
  cell_list (cells u) !! 0%nat = Some (cell_of (0, [0])) ∧ cell_list (cells u) !! 1%nat = Some (cell_of (1, [0])).
Proof.
  destruct demo_cache_ready as (u0 & Hu0 & Hr0 & _ & Ha & Hs & He & Hpos).
  destruct demo_cache as (u0' & Hu0' & _ & _ & _ & Hpad & _). assert (u0' = u0) as -> by congruence.
  destruct (try_apply_ready 1 2 0 (demo_piece 0) u0 Hr0 (demo_piece_ok 0)) as (ok & u & _ & Hr & Hk & Hcase).
  - by apply (demo_tokens_ok 0).
  - apply (demo_tokens_fresh 0). intros q. by rewrite Hpos.
  - by apply demo_free.
  - destruct ok; [|by destruct Hcase as (_ & _ & p & _ & _ & ?)]. destruct Hcase as (_ & Hpl & _).
    exists u. split; [exact Hr|]. split; [destruct (kp_conf _ _ _ Hk) as (_ & _ & Hp); by rewrite Hp|]. split; [by rewrite (kp_size _ _ _ Hk)|]. split.
    + by apply (placed_token 2 0 (demo_piece 0) (cells u0) (cells u) 0 (0, [0]) (demo_piece_ok 0)).
    + by apply (placed_token 2 0 (demo_piece 0) (cells u0) (cells u) 1 (1, [0]) (demo_piece_ok 0)).
Qed.

(** It loses the second one. *)
Lemma seq_rm_demo : ∃ u hd cs, cell_list (cells u) !! 0%nat = Some (cell_of (0, [0])) ∧
  cell_list (cells u) !! 1%nat = Some (cell_of (1, [0])) ∧
  kv_seq_rm 0 1 (-1) u = Ok (with_cells u hd cs) ∧ cell_list cs = rm_cell 0 1 (-1) <$> cell_list (cells u).
Proof.
  destruct demo_two as (u & Hr & _ & _ & H0 & H1).
  destruct (kv_seq_rm_run 0 1 (-1) u) as (hd & cs & Hrun & _ & _ & Hcs & _).
  - unfold LLAMA_MAX_SEQ. lia.
  - apply Hr.
  - apply Hr.
  - apply Hr.
  - exists u, hd, cs. split; [exact H0|]. split; [exact H1|]. split; [exact Hrun|exact Hcs].
Defined.

(** The first token does not see the second. *)
Lemma mask_shows_history_witness : ∃ u rows row, cell_list (cells u) !! 1%nat = Some (cell_of (1, [0])) ∧
  set_input_kq_mask (get_n_kv u) (demo_piece 0) true false u = Ok rows ∧ length rows = 64%nat ∧ rows !! 0%nat = Some row ∧
  (1 < get_n_kv u → row !! 0%nat = Some (f32_of_Z 0) ∧ row !! 1%nat = Some (S754_infinity true)).
Proof.
  destruct demo_two as (u & Hr & Hpad & Hs & H0 & H1).
  destruct (mask_shows_history true false 2 5 (demo_piece 0) u) as (rows & Hrun & Hlen & _ & Hrows).
  - apply Hr.
  - apply Hr.
  - lia.
  - exact Hpad.
  - rewrite Hs. lia.
  - apply demo_piece_ok.
  - reflexivity.
  - intros t Ht. apply elem_of_cons in Ht as [->|Ht%list_elem_of_singleton]; [|rewrite Ht]; (split; [cbn; lia|]);
      exists 0, []; (split; [reflexivity|unfold LLAMA_MAX_SEQ; lia]).
  - destruct (Hrows 0%nat 0 0 []) as (row & Hrow & _ & Hj & _); [reflexivity|].
    exists u, rows, row. split; [exact H1|]. split; [exact Hrun|].
    split; [change (GGML_PAD _ _) with 64 in Hlen; lia|]. split; [exact Hrow|]. intros Hkv. split.
    + specialize (Hj 0 (cell_of (0, [0])) ltac:(lia) H0). exact Hj.
    + specialize (Hj 1 (cell_of (1, [0])) ltac:(lia) H1). exact Hj.
Defined.

(** A batch of two tokens split into pieces of one. *)
Definition demo_heads (n_ubatch : Z) (batch : list (Z * list Z)) : outcome (option (list Z)) :=
  u <~ demo_cache_run ;; '(r, _) <~ init_batch n_ubatch batch u ;; Ok (heads <$> r).

Example demo_heads_run : demo_heads 1 (demo_tokens 0) = Ok (Some [0; 1]).
Proof. vm_compute. reflexivity. Qed.

(** 300 tokens have no room in 256 cells. *)
Example demo_heads_full : demo_heads 64 ((λ p, (p, [0])) <$> seqZ 0 300) = Ok (Some []).
Proof. vm_compute. reflexivity. Qed.



(** ** Copies *)

Lemma demo_pieces : chunk_pieces [0; 1] 2 0 [(0, 2)].
Proof.
  apply pieces_cons; [lia| |by left|constructor]. intros i p Hi. assert (i = 1) as -> by lia.
  intros [= <-]. vm_compute. discriminate.
Qed.


(** Ten tokens at the positions 256 to 265 are one piece; in the cells 250 to 259 of
    a cache that lost six tokens they are refused. *)
Example misaligned_piece h u data m : unified_ok h u →
  chunk_pieces (seqZ 256 10) 10 0 [(0, 10)] ∧ store_piece u 10 250 data m = Ub.
Proof.
  intros Hu. split; [|by apply (store_piece_refused h)]. apply pieces_cons; [lia| |by left|constructor].
  intros i p Hi [-> ?]%lookup_seqZ. rewrite Z.rem_mod_nonneg by (unfold TOKENS_PER_CHUNK; lia). unfold TOKENS_PER_CHUNK.
  rewrite Z2Nat.id by lia. Z.to_euclidean_division_equations. lia.
Qed.
